(* ===== verification/_CoqProject ===== *)
-Q . S2P
Prelude.v
Wire.v
IncrementBuffer.v
FileReceiver.v
OTAFlashHandler.v
FileReceiverInv.v
FileContent.v
OtaReceive.v
FlashTrace.v
OtaManager.v
OtaManagerInv.v
OtaTransfer.v
Crypto.v
ProtoMessages.v
Frames.v
Fragments.v
ReceiverWorld.v
RemoteSession.v
RemoteProtocol.v
RemoteLoop.v
RemoteFrames.v
RemoteInv.v
RemoteSafe.v
RemoteRun.v
RemoteProps.v
RemoteConfig.v
RemoteSending.v
RemoteCommand.v
BridgeSession.v
BridgeProtocol.v
BridgeLoop.v
BridgeInv.v
BridgeSafety.v
BridgeRun.v
BridgeDelivery.v
RemoteDelivery.v
BridgeLimits.v
WebSocket.v
ApiTransport.v
BridgeComponent.v
EntityText.v
StateJson.v
EntityCommand.v
RemoteComponent.v
CommandMeaning.v
BridgeOta.v
RuntimeEvents.v
RuntimeApi.v
MqttExport.v
MqttProps.v
ManagerWorld.v
ComponentInv.v
ComponentProps.v
DeliverySpec.v
ApiProps.v
BridgeDemo.v
RemoteDemo.v
ApiDemo.v
DeviceDemo.v
MqttDemo.v
