(* ===== verification/Prelude.v ===== *)
(** * Verification of the ESP-NOW tree firmware

    The repository is a Home Assistant bridge for trees of ESP32/ESP8266 leaves
    that talk over ESP-NOW: remotes ([esp_tree_remote]) send entity states,
    directly or through relays, to one bridge ([esp_tree_bridge]), which
    publishes them, sends commands back and updates firmware over the air; both
    sides share [esp_tree_common].  Paths below are relative to
    [src/device_code/components/].

    ** Parts, files and sources

    - [Prelude] (this file): byte lists, machine integers with their
      wrap-around ([u8], [u16], [u32], [i32]), record update, the state monad
      [M] with its two proof rules ([wp] for postconditions, [keeps] for
      relations every run satisfies) and their tactics, shared lemmas.
    - [Wire] (esp_tree_common/espnow_types.h): constants, packet types, packed
      structs as records with their memory images (class [Packed]), payload
      views, counters, MTU arithmetic.
    - [Crypto] (esp_tree_common/espnow_crypto.cpp): AES-256-CTR, the PSK and
      session tags, HKDF, set-up of the key.  HMAC-SHA256 is the class [Hmac].
    - [Frames]: header lengths, the fields that enter the tags and the bytes a
      relay rewrites, for both ends.
    - [Fragments] (espnow_types.h, esp_tree_bridge/bridge_protocol.cpp):
      reassembly of fragmented values.
    - [RemoteSession], [RemoteProtocol], [RemoteLoop]
      (esp_tree_remote/remote_protocol.h/.cpp): the remote, leaf and relay.
      State is the record [RemoteProtocol], the embedded [FileReceiver]
      included.  RemoteSession has the data, frames, routes and send functions,
      RemoteProtocol the life cycle and the handlers behind [on_espnow_frame],
      RemoteLoop the body of [loop] cut at its early returns.  Radio, clock,
      random numbers, Wi-Fi, reset and the running image are the class
      [RemoteEnv], MD5 and SHA-256 the class [Digests].
      [RemoteFrames] (what is parsed, built and forwarded), [RemoteInv] and
      [RemoteSafe] (the invariant and that every entry point keeps it),
      [RemoteSending] (a sent state) hold the lemmas; [RemoteRun],
      [RemoteProps], [RemoteConfig], [RemoteCommand] and [RemoteDelivery] (with
      the bridge) the theorems, [RemoteDemo] applies them.  [ReceiverWorld] says
      what the file receiver does to the world of the node it is part of.
    - [BridgeSession], [BridgeProtocol], [BridgeLoop]
      (esp_tree_bridge/bridge_protocol.h/.cpp): the bridge.  State is the record
      [BridgeProtocol] with a map of [BridgeSession]s; a [BridgeSession &] of
      the source is the key of the session in that map, so aliasing is kept.
      BridgeSession has the data, frames and send functions, BridgeProtocol the
      handlers behind [on_espnow_frame], BridgeLoop the timers and queues of
      [loop].  Radio, clock, random numbers, heap and the publishing callbacks
      are the class [BridgeEnv].
      [BridgeInv], [BridgeSafety], [BridgeRun], [BridgeDelivery] and
      [BridgeLimits] hold the theorems, [BridgeDemo] applies them.
    - [IncrementBuffer], [FileReceiver], [OTAFlashHandler]
      (esp_tree_remote/remote_file_receiver.h/.cpp): reception of files on a
      remote, over the interface [ActionHandler], which OTAFlashHandler
      implements; [FileReceiverInv], [FileContent], [OtaReceive] hold the
      theorems.
    - [OtaManager] (esp_tree_bridge/bridge_ota_manager.h/.cpp): the sending side
      of a transfer, over the class [OtaTransport]; [OtaManagerInv],
      [OtaTransfer] hold the theorems.
    - [ProtoMessages] (esp_tree_bridge/bridge_api_proto_messages.h/.cpp): the
      protobuf codec of the runtime API.

    A pair (pointer, length) is a byte list and a null pointer the empty one; a
    handler is a Rocq function of the same name in the monad [M] over the pair of
    the object's state and the world; [size_t] has 32 bits.

    ** What the theorems show

    - Delivery: the encrypted fragments of a state, relayed, reordered and
      repeated, are published as exactly the value sent
      ([BridgeDelivery.state_value_published]), once
      ([BridgeLimits.confirmed_state_not_republished]); with the remote at the
      other end, what its [send_state_] was given is what the bridge publishes
      ([RemoteDelivery.state_reaches_publisher]); a command is executed exactly
      once ([RemoteCommand.command_executed_once]), a configuration at most once
      ([RemoteConfig.config_applied_once]); an OTA transfer stores
      exactly the sender's file and only a verified image is booted
      ([OtaReceive], [OtaTransfer]).
    - Security: accepted frames carry the tags of both keys, frames survive
      relaying, replays are rejected, counter blocks are not reused, a frame
      touches one session only ([BridgeSession], [BridgeRun], [BridgeInv],
      [Crypto]); a frame forged to a remote is without effect, a relay passes on
      what it received ([RemoteProps]).
    - Invariants of every reachable state of the bridge, the remote, the
      receiver and the OTA manager ([BridgeRun], [RemoteRun], [OtaReceive],
      [OtaManagerInv]); every frame a remote transmits parses under the network
      key ([RemoteRun.sent_frames_well_formed]).
    - Equivalence and refinement: AES against FIPS 197, HKDF against RFC 5869,
      the increment buffer against a finite set, the queue of announcements
      against a bounded queue, reassembly against the value, the geometry of
      both ends of a transfer, the session both ends of a handshake agree on
      ([RemoteDelivery.handshake_agrees]).
    - Liveness and timeouts: honest transfers succeed, silent ones are aborted,
      the join slot is released after 45 s.
    - Errors and limits: where the code loses data or blocks ([BridgeLimits],
      [RemoteConfig.unacknowledged_config_is_lost],
      [RemoteProps.total_children_always_zero],
      [OtaReceive.retry_duplicates_chunks], [OtaReceive.writing_never_times_out],
      ...).

    ** Fuel and bounds

    Loops over a C++ range are structural recursions over the list or the
    number of steps.  Fuel is the length of the input plus one in the
    protobuf parsers ([ProtoMessages.parsers_terminate_in_bounds]: enough for
    every input), the number of digits in decimal printing, the number of
    4096-byte blocks of the running image ([read_image] stops when it is read),
    and the number of routes plus one in the walk along next hops
    ([reaches_self], as many steps as the source allows).

    ** Not modelled

    - Logging: [ESP_LOG*], the packet log and the state log.
    - espnow_82xx_remote: a port of the remote with the same logic.
    - The ESPHome components (esp_tree_bridge.cpp, esp_tree_remote.cpp), MQTT
      export, HTTP and WebSocket servers, JSON and web pages: glue over
      platform APIs.
    - Concurrency: one call runs at a time, as under the sources' mutexes; a
      callback that re-enters its caller is not described.
    - The Python service and the Home Assistant integration. *)
From Stdlib Require Export ZArith Lia Ascii String.
From stdpp Require Export base tactics list numbers option gmap strings.

Global Open Scope Z_scope.

Declare Scope esp_scope.
Delimit Scope esp_scope with esp.
Global Open Scope esp_scope.

Create HintDb esp discriminated.
Create Rewrite HintDb esp_len.

(** ** Record update

    [r <| f := v |>] is the record [r] with field [f] replaced by [v].  The
    setter is computed from the eta expansion of the record: a record type
    registers [Eta] once and every field gets its setter by [pattern]. *)
Class Eta (R : Type) := eta_expand : R -> R.
Class Upd {R T : Type} (proj : R -> T) := upd : (T -> T) -> R -> R.
Arguments upd {R T} proj {Upd} g r.

Ltac derive_setter :=
  match goal with
  | |- @Upd ?R ?T ?proj =>
    let inst := constr:(_ : Eta R) in
    let body := eval hnf in inst in
    let abstracted := eval pattern proj in body in
    match abstracted with
    | ?F _ => exact (fun g : T -> T => F (fun r : R => g (proj r)))
    end
  end.
#[export] Hint Extern 0 (Upd _) => derive_setter : typeclass_instances.

Notation "r <| f := v |>" := (upd f (fun _ => v) r)
  (at level 1, f at next level, left associativity, format "r  <| f  :=  v |>") : esp_scope.
Notation "r <| f ::= g |>" := (upd f g r)
  (at level 1, f at next level, left associativity, format "r  <| f  ::=  g |>") : esp_scope.

(** ** Machine integers

    A value of a w-bit unsigned type is a [Z] in [0 .. 2^w - 1]; every C++
    operation that can leave the range is followed by the wrap of its type. *)
Definition u8 (z : Z) : Z := z mod 2 ^ 8.
Definition u16 (z : Z) : Z := z mod 2 ^ 16.
Definition u32 (z : Z) : Z := z mod 2 ^ 32.
Definition u64 (z : Z) : Z := z mod 2 ^ 64.

(** Two's complement reading of a 32-bit pattern ([static_cast<int32_t>]). *)
Definition i32 (z : Z) : Z := (z + 2 ^ 31) mod 2 ^ 32 - 2 ^ 31.

Ltac unfold_words := unfold u8, u16, u32, u64, i32 in *.

Lemma u8_range z : 0 <= u8 z < 256.
Proof. unfold u8. apply Z.mod_pos_bound. lia. Qed.
Lemma u16_range z : 0 <= u16 z < 65536.
Proof. unfold u16. apply Z.mod_pos_bound. lia. Qed.
Lemma u32_range z : 0 <= u32 z < 4294967296.
Proof. unfold u32. apply Z.mod_pos_bound. lia. Qed.
Lemma u8_small z : 0 <= z < 256 -> u8 z = z.
Proof. apply Z.mod_small. Qed.
Lemma u16_small z : 0 <= z < 65536 -> u16 z = z.
Proof. apply Z.mod_small. Qed.
Lemma u32_small z : 0 <= z < 4294967296 -> u32 z = z.
Proof. apply Z.mod_small. Qed.
Lemma u64_small z : 0 <= z < 18446744073709551616 -> u64 z = z.
Proof. apply Z.mod_small. Qed.
#[export] Hint Resolve u8_range u16_range u32_range : esp.

(** Case analysis on every boolean comparison of integers in the goal. *)
Ltac zcase :=
  repeat match goal with
  | |- context [Z.eqb ?a ?b] => destruct (Z.eqb_spec a b)
  | |- context [Z.ltb ?a ?b] => destruct (Z.ltb_spec a b)
  | |- context [Z.leb ?a ?b] => destruct (Z.leb_spec a b)
  end.

(** Turn boolean comparison hypotheses into propositions. *)
Ltac zprop :=
  repeat match goal with
  | H : (_ && _)%bool = true |- _ => apply andb_prop in H; destruct H
  | H : (_ && _)%bool = false |- _ => apply andb_false_iff in H
  | H : (_ || _)%bool = false |- _ => apply orb_false_iff in H; destruct H
  | H : (_ || _)%bool = true |- _ => apply orb_true_iff in H
  | H : negb _ = true |- _ => apply negb_true_iff in H
  | H : negb _ = false |- _ => apply negb_false_iff in H
  | H : Z.eqb _ _ = true |- _ => apply Z.eqb_eq in H
  | H : Z.eqb _ _ = false |- _ => apply Z.eqb_neq in H
  | H : Z.ltb _ _ = true |- _ => apply Z.ltb_lt in H
  | H : Z.ltb _ _ = false |- _ => apply Z.ltb_ge in H
  | H : Z.leb _ _ = true |- _ => apply Z.leb_le in H
  | H : Z.leb _ _ = false |- _ => apply Z.leb_gt in H
  | H : Nat.ltb _ _ = true |- _ => apply Nat.ltb_lt in H
  | H : Nat.ltb _ _ = false |- _ => apply Nat.ltb_ge in H
  | H : Nat.leb _ _ = true |- _ => apply Nat.leb_le in H
  | H : Nat.leb _ _ = false |- _ => apply Nat.leb_gt in H
  | H : Nat.eqb _ _ = true |- _ => apply Nat.eqb_eq in H
  | H : Nat.eqb _ _ = false |- _ => apply Nat.eqb_neq in H
  end.

(** Ceiling division, in the form the sources compute it. *)
Lemma ceil_div_eq n d :
  0 <= n -> 0 < d ->
  n / d + (if n mod d =? 0 then 0 else 1) = (n + d - 1) / d.
Proof.
  intros Hn Hd. pose proof (Z.div_mod n d ltac:(lia)) as E.
  pose proof (Z.mod_pos_bound n d Hd) as Hm.
  destruct (Z.eqb_spec (n mod d) 0) as [Hz|Hz].
  - apply (Z.div_unique _ _ _ (d - 1)); lia.
  - apply (Z.div_unique _ _ _ (n mod d - 1)); lia.
Qed.

Lemma ceil_div_bounds n d q :
  0 <= n -> 0 < d -> q = (n + d - 1) / d -> n <= q * d /\ (0 < n -> (q - 1) * d < n).
Proof.
  intros Hn Hd ->. pose proof (Z.div_mod (n + d - 1) d ltac:(lia)).
  pose proof (Z.mod_pos_bound (n + d - 1) d Hd). nia.
Qed.

(** ** Bytes *)
Abbreviation bytes := (list Z).

Definition byte_range (b : Z) : Prop := 0 <= b < 256.
Abbreviation bytes_ok := (Forall byte_range).

Definition byteb (b : Z) : bool := (0 <=? b) && (b <? 256).

Lemma byteb_ok l : forallb byteb l = true -> bytes_ok l.
Proof.
  induction l as [|b l IH]; [constructor|]. cbn. intros [Hb Hl]%andb_prop.
  constructor; [|by apply IH]. unfold byteb in Hb. zprop. done.
Qed.

(** A string literal of the source as the bytes of a [std::string]. *)
Fixpoint str (s : string) : bytes :=
  match s with
  | EmptyString => []
  | String c s => Z.of_N (N_of_ascii c) :: str s
  end.

(** The memory image of an n-byte unsigned integer on a little-endian core,
    and the integer of such an image. *)
Fixpoint le_bytes (n : nat) (z : Z) : bytes :=
  match n with
  | O => []
  | S n => z mod 256 :: le_bytes n (z / 256)
  end.

Fixpoint le_num (l : bytes) : Z :=
  match l with
  | [] => 0
  | b :: l => b + 256 * le_num l
  end.

Lemma length_le_bytes n z : length (le_bytes n z) = n.
Proof. revert z; induction n as [|n IH]; intros z; simpl; [done|by rewrite IH]. Qed.

Lemma le_bytes_ok n z : bytes_ok (le_bytes n z).
Proof.
  revert z; induction n as [|n IH]; intros z; simpl; constructor; [|apply IH].
  unfold byte_range. apply Z.mod_pos_bound. lia.
Qed.

Lemma le_num_le_bytes n z : le_num (le_bytes n z) = z mod 256 ^ Z.of_nat n.
Proof.
  revert z; induction n as [|n IH]; intros z.
  - simpl. by rewrite Z.mod_1_r.
  - cbn [le_bytes le_num]. rewrite IH, Nat2Z.inj_succ, Z.pow_succ_r by lia.
    rewrite Z.rem_mul_r by (try apply Z.pow_nonzero; lia). lia.
Qed.

Lemma le_bytes_le_num l : bytes_ok l -> le_bytes (length l) (le_num l) = l.
Proof.
  induction 1 as [|b l Hb Hl IH]; [done|]. cbn [length le_bytes le_num].
  unfold byte_range in Hb.
  rewrite (Z.mul_comm 256), Z.mod_add, Z.mod_small by lia.
  by rewrite Z.div_add, Z.div_small, Z.add_0_l, IH by lia.
Qed.

Lemma le_num_range l : bytes_ok l -> 0 <= le_num l < 256 ^ Z.of_nat (length l).
Proof.
  induction 1 as [|b l Hb Hl IH]; [simpl; lia|]. cbn [length le_num].
  rewrite Nat2Z.inj_succ, Z.pow_succ_r by lia. unfold byte_range in Hb. lia.
Qed.

Lemma le_num_le_bytes_small n z :
  0 <= z < 256 ^ Z.of_nat n -> le_num (le_bytes n z) = z.
Proof. intros H. by rewrite le_num_le_bytes, Z.mod_small. Qed.

(** A zeroed array of [n] bytes after [memcpy(dst, src, min(len, n))]. *)
Definition pad_to (n : nat) (l : bytes) : bytes := take n (l ++ replicate n 0).

Lemma length_pad_to n l : length (pad_to n l) = n.
Proof. unfold pad_to. rewrite length_take, length_app, length_replicate. lia. Qed.

Lemma pad_to_exact n l : length l = n -> pad_to n l = l.
Proof. intros <-. unfold pad_to. by rewrite take_app_length. Qed.

Lemma pad_to_ok n l : bytes_ok l -> bytes_ok (pad_to n l).
Proof.
  intros Hl. unfold pad_to. apply Forall_take, Forall_app_2; [done|].
  apply Forall_replicate. unfold byte_range; lia.
Qed.
#[export] Hint Resolve le_bytes_ok pad_to_ok : esp.
#[export] Hint Rewrite length_le_bytes length_pad_to : esp_len.

(** ** Slices and in-place copies *)
Definition slice {A} (off len : nat) (l : list A) : list A := take len (drop off l).

(** [memcpy(l + off, d, length d)] with [off + length d <= length l]. *)
Definition splice {A} (off : nat) (d l : list A) : list A :=
  take off l ++ d ++ drop (off + length d) l.

Section slices.
Context {A : Type}.
Implicit Types (l d : list A).

Lemma length_slice off len l :
  length (slice off len l) = (len `min` (length l - off))%nat.
Proof. unfold slice. by rewrite length_take, length_drop. Qed.

Lemma lookup_slice off len l i :
  slice off len l !! i = if decide (i < len)%nat then l !! (off + i)%nat else None.
Proof.
  unfold slice. case_decide.
  - by rewrite lookup_take_lt, lookup_drop by lia.
  - by rewrite lookup_take_ge by lia.
Qed.

Lemma length_splice off d l :
  (off + length d <= length l)%nat -> length (splice off d l) = length l.
Proof.
  intros H. unfold splice. rewrite !length_app, length_take, length_drop. lia.
Qed.

Lemma lookup_splice off d l i :
  (off <= length l)%nat ->
  splice off d l !! i =
    if decide (i < off)%nat then l !! i
    else if decide (i < off + length d)%nat then d !! (i - off)%nat
    else l !! i.
Proof.
  intros H. unfold splice.
  repeat case_decide.
  - rewrite lookup_app_l by (rewrite length_take; lia). by rewrite lookup_take_lt by lia.
  - rewrite lookup_app_r by (rewrite length_take; lia).
    rewrite lookup_app_l by (rewrite length_take; lia). f_equal. rewrite length_take. lia.
  - rewrite lookup_app_r by (rewrite length_take; lia).
    rewrite lookup_app_r by (rewrite length_take; lia).
    rewrite lookup_drop. f_equal. rewrite length_take. lia.
Qed.

Lemma slice_splice_same off d l :
  (off <= length l)%nat -> slice off (length d) (splice off d l) = d.
Proof.
  intros H. apply list_eq. intros i. rewrite lookup_slice, lookup_splice by done.
  case_decide; [|symmetry; apply lookup_ge_None_2; lia].
  repeat case_decide; [lia|f_equal; lia|lia].
Qed.

Lemma slice_splice_disjoint o n off d l :
  (off <= length l)%nat ->
  (o + n <= off \/ off + length d <= o)%nat ->
  slice o n (splice off d l) = slice o n l.
Proof.
  intros H Hd. apply list_eq. intros i. rewrite !lookup_slice.
  case_decide; [|done]. rewrite lookup_splice by done. repeat case_decide; try done; lia.
Qed.

Lemma slice_slice_app o a b l : slice o a l ++ slice (o + a) b l = slice o (a + b) l.
Proof.
  unfold slice. rewrite <-drop_drop. rewrite <-(take_take_drop (drop o l)). f_equal.
Qed.

Lemma slice_0_all l : slice 0 (length l) l = l.
Proof. unfold slice. by rewrite drop_0, take_ge. Qed.

Lemma slice_0 o l : slice o 0 l = [].
Proof. done. Qed.
End slices.

(** ** A state monad

    Handlers of the sources are state transformers: they read and write the
    fields of [this] and of the environment and return a value. *)
Definition M (S A : Type) : Type := S -> A * S.

#[export] Instance M_ret {S} : MRet (M S) := fun A a s => (a, s).
#[export] Instance M_bind {S} : MBind (M S) := fun A B k m s =>
  let '(a, s') := m s in k a s'.

Definition gets {S A} (f : S -> A) : M S A := fun s => (f s, s).
Definition modify {S} (f : S -> S) : M S unit := fun s => (tt, f s).
Definition when {S} (b : bool) (m : M S unit) : M S unit := if b then m else mret tt.

(** [m] on a part of the state. *)
Definition zoom {S T A} (part : S -> T) (put : T -> S -> S) (m : M T A) : M S A :=
  fun s => let '(a, t) := m (part s) in (a, put t s).

(** The weakest precondition of a computation. *)
Definition wp {S A} (m : M S A) (Q : A -> S -> Prop) (s : S) : Prop :=
  Q (m s).1 (m s).2.

Section wp.
Context {S A B : Type}.

Lemma wp_ret (a : A) (Q : A -> S -> Prop) s : Q a s -> wp (mret a) Q s.
Proof. done. Qed.
Lemma wp_bind (m : M S A) (k : A -> M S B) Q s :
  wp m (fun a => wp (k a) Q) s -> wp (x ← m; k x) Q s.
Proof. unfold wp, mbind, M_bind. by destruct (m s). Qed.
Lemma wp_gets (f : S -> A) (Q : A -> S -> Prop) s : Q (f s) s -> wp (gets f) Q s.
Proof. done. Qed.
Lemma wp_modify (f : S -> S) Q s : Q tt (f s) -> wp (modify f) Q s.
Proof. done. Qed.
Lemma wp_when b (m : M S unit) Q s :
  (b = true -> wp m Q s) -> (b = false -> Q tt s) -> wp (when b m) Q s.
Proof. destruct b; intros H1 H2; [by apply H1|by apply H2]. Qed.
Lemma wp_if (b : bool) (m1 m2 : M S A) Q s :
  (b = true -> wp m1 Q s) -> (b = false -> wp m2 Q s) -> wp (if b then m1 else m2) Q s.
Proof. destruct b; auto. Qed.
Lemma wp_mono (m : M S A) (Q Q' : A -> S -> Prop) s :
  wp m Q s -> (forall a s', Q a s' -> Q' a s') -> wp m Q' s.
Proof. unfold wp. auto. Qed.
Lemma wp_and (m : M S A) (P Q : A -> S -> Prop) s :
  wp m P s -> wp m Q s -> wp m (fun a s' => P a s' /\ Q a s') s.
Proof. done. Qed.
Lemma wp_run (m : M S A) (Q : A -> S -> Prop) s a s' : wp m Q s -> m s = (a, s') -> Q a s'.
Proof. unfold wp. intros H E. by rewrite E in H. Qed.
End wp.

(** [keeps R m]: every run of [m] is an [R] step.  [R] is a preorder, so the
    steps compose; handlers built from steps that keep [R] keep it. *)
Definition keeps {S A} (R : S -> S -> Prop) (m : M S A) : Prop := forall s, R s (m s).2.

Section keeps.
Context {S A B : Type} (R : S -> S -> Prop) `{!PreOrder R}.

Lemma keeps_ret (a : A) : keeps R (mret a).
Proof. by intros s. Qed.
Lemma keeps_gets (f : S -> A) : keeps R (gets f).
Proof. by intros s. Qed.
Lemma keeps_bind (m : M S A) (k : A -> M S B) :
  keeps R m -> (forall a, keeps R (k a)) -> keeps R (x ← m; k x).
Proof.
  intros Hm Hk s. unfold mbind, M_bind. specialize (Hm s). destruct (m s) as [a s'].
  etrans; [exact Hm|apply Hk].
Qed.
Lemma keeps_when b (m : M S unit) : (b = true -> keeps R m) -> keeps R (when b m).
Proof. destruct b; intros H; [by apply H|by intros s]. Qed.
Lemma keeps_if (b : bool) (m1 m2 : M S A) :
  (b = true -> keeps R m1) -> (b = false -> keeps R m2) -> keeps R (if b then m1 else m2).
Proof. destruct b; auto. Qed.
End keeps.

Lemma wp_keeps {S A} (R : S -> S -> Prop) (m : M S A) (Q : A -> S -> Prop) s :
  keeps R m -> (forall a s', R s s' -> Q a s') -> wp m Q s.
Proof. intros Hm HQ. apply HQ, Hm. Qed.

(** Decompose a handler; [tac] closes the steps that touch the state. *)
Ltac keeps_step tac :=
  lazymatch goal with
  | |- keeps _ (mbind _ _) => apply keeps_bind; [exact _| |intros ?]
  | |- keeps _ (mret _) => apply keeps_ret; exact _
  | |- keeps _ (gets _) => apply keeps_gets; exact _
  | |- keeps _ (when _ _) => apply keeps_when; [exact _|intros ?]
  | |- keeps _ (if ?b then _ else _) => first [apply keeps_if; intros ?|destruct b eqn:?]
  | |- keeps _ (match ?x with _ => _ end) => destruct x eqn:?
  | |- keeps _ (let '_ := ?x in _) => destruct x eqn:?
  | |- _ => solve [tac]
  end.
Ltac keeps_go tac := repeat keeps_step tac.

(** One step of symbolic execution of a handler. *)
Ltac wp_step :=
  lazymatch goal with
  | |- wp (mbind _ _) _ _ => apply wp_bind
  | |- wp (mret _) _ _ => apply wp_ret
  | |- wp (gets _) _ _ => apply wp_gets
  | |- wp (modify _) _ _ => apply wp_modify
  | |- wp (when _ _) _ _ => apply wp_when; intros ?
  | |- wp (if _ then _ else _) _ _ => apply wp_if; intros ?
  | |- wp (let '(_, _) := ?p in _) _ _ => destruct p eqn:?
  | |- wp (match ?x with _ => _ end) _ _ => destruct x eqn:?
  end.
Ltac wp_go := repeat (wp_step; cbv beta).

(** ** Single bits of a byte *)
Lemma land_bit_zero x i :
  0 <= i -> (Z.land x (Z.shiftl 1 i) =? 0) = negb (Z.testbit x i).
Proof.
  intros Hi. rewrite Z.shiftl_1_l. destruct (Z.testbit x i) eqn:E; simpl.
  - apply Z.eqb_neq. intros H0. assert (Z.testbit (Z.land x (2 ^ i)) i = false) as F
      by (by rewrite H0, Z.bits_0).
    by rewrite Z.land_spec, E, Z.pow2_bits_true in F.
  - apply Z.eqb_eq. apply Z.bits_inj'. intros n Hn.
    rewrite Z.land_spec, Z.bits_0. destruct (decide (n = i)) as [->|Hne]; [by rewrite E|].
    by rewrite Z.pow2_bits_false, andb_false_r by done.
Qed.

Lemma testbit_lor_bit x i j :
  0 <= i -> 0 <= j -> Z.testbit (Z.lor x (Z.shiftl 1 i)) j = (Z.testbit x j || (i =? j)).
Proof.
  intros Hi Hj. rewrite Z.lor_spec, Z.shiftl_1_l. f_equal.
  destruct (Z.eqb_spec i j) as [->|Hne]; [by rewrite Z.pow2_bits_true|].
  by rewrite Z.pow2_bits_false.
Qed.

Lemma shiftl_1_byte i : 0 <= i < 8 -> byte_range (Z.shiftl 1 i).
Proof.
  intros Hi. rewrite Z.shiftl_1_l. unfold byte_range. split; [apply Z.pow_nonneg; lia|].
  change 256 with (2 ^ 8). apply Z.pow_lt_mono_r; lia.
Qed.

Lemma lor_byte x y : byte_range x -> byte_range y -> byte_range (Z.lor x y).
Proof.
  unfold byte_range. intros Hx Hy. split; [apply Z.lor_nonneg; lia|].
  destruct (decide (Z.lor x y = 0)) as [->|Hne]; [lia|].
  assert (0 <= Z.lor x y) by (apply Z.lor_nonneg; lia).
  change 256 with (2 ^ 8). apply Z.log2_lt_pow2; [lia|].
  rewrite Z.log2_lor by lia.
  assert (forall z, 0 <= z < 256 -> Z.log2 z < 8) as Hl.
  { intros z Hz. destruct (decide (z = 0)) as [->|]; [simpl; lia|].
    apply Z.log2_lt_pow2; simpl; lia. }
  specialize (Hl x Hx) as Hlx. specialize (Hl y Hy) as Hly. lia.
Qed.

Lemma lxor_byte x y : byte_range x -> byte_range y -> byte_range (Z.lxor x y).
Proof.
  unfold byte_range. intros Hx Hy. split; [apply Z.lxor_nonneg; lia|].
  destruct (decide (Z.lxor x y = 0)) as [->|Hne]; [lia|].
  assert (0 <= Z.lxor x y) by (apply Z.lxor_nonneg; lia).
  change 256 with (2 ^ 8). apply Z.log2_lt_pow2; [lia|].
  pose proof (Z.log2_lxor x y ltac:(lia) ltac:(lia)).
  assert (forall z, 0 <= z < 256 -> Z.log2 z < 8) as Hl.
  { intros z Hz. destruct (decide (z = 0)) as [->|]; [simpl; lia|].
    apply Z.log2_lt_pow2; simpl; lia. }
  specialize (Hl x Hx) as Hlx. specialize (Hl y Hy) as Hly. lia.
Qed.

(** ** Bounded loops: [for (i = from; i < from + n; ++i)] *)
Definition zseq (from : Z) (n : nat) : list Z := (fun i => from + Z.of_nat i) <$> seq 0 n.

Lemma elem_of_zseq from n x : x ∈ zseq from n <-> from <= x < from + Z.of_nat n.
Proof.
  unfold zseq. rewrite list_elem_of_fmap. split.
  - intros (i & -> & Hi%elem_of_seq). lia.
  - intros H. exists (Z.to_nat (x - from)). split; [lia|]. apply elem_of_seq. lia.
Qed.

Lemma length_zseq from n : length (zseq from n) = n.
Proof. unfold zseq. by rewrite length_fmap, length_seq. Qed.

Lemma zseq_S from n : zseq from (S n) = from :: zseq (from + 1) n.
Proof.
  unfold zseq. cbn [seq fmap list_fmap]. rewrite Z.add_0_r. f_equal.
  rewrite <-seq_shift. unfold fmap. rewrite map_map. apply map_ext. intros i. lia.
Qed.

(** ** Reading single bytes of a buffer *)
(** The byte at index [i] of a table or buffer. *)
Definition at_ (l : bytes) (i : nat) : Z := nth i l 0.

Lemma at_lookup l i : at_ l i = default 0 (l !! i).
Proof. apply nth_lookup. Qed.

Lemma at_slice o n l k : (k < n)%nat -> at_ (slice o n l) k = at_ l (o + k).
Proof. intros Hk. by rewrite !at_lookup, lookup_slice, decide_True. Qed.

Lemma at_app_l l l' i : (i < length l)%nat -> at_ (l ++ l') i = at_ l i.
Proof. intros Hi. unfold at_. by apply app_nth1. Qed.

Lemma at_byte l i : bytes_ok l -> byte_range (at_ l i).
Proof.
  intros Hl. unfold at_. destruct (nth_in_or_default i l 0) as [Hi| ->];
    [|unfold byte_range; lia].
  apply list_elem_of_In in Hi. by eapply Forall_forall in Hi.
Qed.
#[export] Hint Resolve at_byte : esp.

(** ** Facts by enumeration *)
Lemma zseq_cases (P : Z -> bool) from n x :
  forallb P (zseq from n) = true -> from <= x < from + Z.of_nat n -> P x = true.
Proof.
  intros HP Hx. eapply forallb_forall in HP; [exact HP|].
  by apply list_elem_of_In, elem_of_zseq.
Qed.

Lemma byte_cases (P : Z -> bool) b :
  forallb P (zseq 0 256) = true -> byte_range b -> P b = true.
Proof. intros HP Hb. by apply (zseq_cases P 0 256). Qed.

(** Digits do not overlap. *)
Lemma lor_shift_add out b s :
  0 <= s -> 0 <= out < 2 ^ s -> 0 <= b -> Z.lor out (Z.shiftl b s) = out + b * 2 ^ s.
Proof.
  intros Hs Ho Hb. pose proof (Z.add_lor_land out (Z.shiftl b s)) as E.
  assert (Z.land out (Z.shiftl b s) = 0) as E0.
  { apply Z.bits_inj'. intros n Hn. rewrite Z.land_spec, Z.bits_0.
    destruct (decide (n < s)) as [Hlt|Hge]; [by rewrite Z.shiftl_spec_low, andb_false_r|].
    destruct (decide (out = 0)) as [->|]; [by rewrite Z.bits_0|].
    rewrite (Z.bits_above_log2 out n); [done|lia|].
    apply Z.lt_le_trans with s; [|lia]. apply Z.log2_lt_pow2; lia. }
  rewrite Z.shiftl_mul_pow2 in E |- * by lia. rewrite Z.shiftl_mul_pow2 in E0 by lia. lia.
Qed.

(** ** More on little-endian images *)
Lemma le_num_app a b : le_num (a ++ b) = le_num a + 256 ^ Z.of_nat (length a) * le_num b.
Proof.
  induction a as [|x a IH]; cbn [app length]; unfold le_num; fold le_num; [simpl; lia|].
  rewrite IH, Nat2Z.inj_succ, Z.pow_succ_r by lia. lia.
Qed.

Lemma le_bytes_inj n x y :
  0 <= x < 256 ^ Z.of_nat n -> 0 <= y < 256 ^ Z.of_nat n -> le_bytes n x = le_bytes n y -> x = y.
Proof.
  intros Hx Hy E. rewrite <-(le_num_le_bytes_small n x), <-(le_num_le_bytes_small n y) by done.
  by rewrite E.
Qed.

(** ** Packed structs

    The memory image of a packed C struct: [to_bytes] lays the fields out one
    after the other, [of_bytes] is the [reinterpret_cast] of a buffer.
    [struct_ok] says that every field is a value of its C type. *)
Class Packed (T : Type) := {
  sizeof : nat;
  to_bytes : T -> bytes;
  of_bytes : bytes -> T;
  struct_ok : T -> Prop;
  length_to_bytes t : struct_ok t -> length (to_bytes t) = sizeof;
  of_to_bytes t rest : struct_ok t -> of_bytes (to_bytes t ++ rest) = t;
  to_of_bytes l : bytes_ok l -> (sizeof <= length l)%nat -> to_bytes (of_bytes l) = take sizeof l;
  of_bytes_ok l : bytes_ok l -> (sizeof <= length l)%nat -> struct_ok (of_bytes l)
}.
Arguments sizeof T {_}.

Definition i8 (z : Z) : Z := (z + 128) mod 256 - 128.

Lemma slice_app_hit {A} (p q : list A) n : length p = n -> slice 0 n (p ++ q) = p.
Proof. intros <-. unfold slice. by rewrite drop_0, take_app_length. Qed.

Lemma slice_app_skip {A} (p q : list A) o n k :
  length p = k -> (k <= o)%nat -> slice o n (p ++ q) = slice (o - k) n q.
Proof. intros <- H. unfold slice. by rewrite drop_app_ge. Qed.

Lemma slice_join {A} (l : list A) o a o2 b :
  o2 = (o + a)%nat -> slice o a l ++ slice o2 b l = slice o (a + b) l.
Proof. intros ->. apply slice_slice_app. Qed.

Lemma slice_ok o n l : bytes_ok l -> bytes_ok (slice o n l).
Proof. intros H. by apply Forall_take, Forall_drop. Qed.

Lemma length_slice_in {A} (l : list A) o n :
  (o + n <= length l)%nat -> length (slice o n l) = n.
Proof. intros H. rewrite length_slice. lia. Qed.

Lemma le_bytes_slice l o n :
  bytes_ok l -> (o + n <= length l)%nat -> le_bytes n (le_num (slice o n l)) = slice o n l.
Proof.
  intros Hl Ho. rewrite <-(length_slice_in l o n) at 1 by done.
  apply le_bytes_le_num, slice_ok, Hl.
Qed.

Lemma le_num_slice_range l o n :
  bytes_ok l -> (o + n <= length l)%nat -> 0 <= le_num (slice o n l) < 256 ^ Z.of_nat n.
Proof.
  intros Hl Ho. rewrite <-(length_slice_in l o n) at 3 by done.
  apply le_num_range, slice_ok, Hl.
Qed.

Lemma i8_range z : -128 <= i8 z < 128.
Proof. unfold i8. pose proof (Z.mod_pos_bound (z + 128) 256). lia. Qed.

Lemma le_bytes_i8 z : le_bytes 1 (i8 z) = le_bytes 1 z.
Proof.
  unfold i8. cbn [le_bytes]. f_equal. rewrite Zminus_mod_idemp_l.
  f_equal. lia.
Qed.

Lemma i8_le_num z : -128 <= z < 128 -> i8 (le_num (le_bytes 1 z)) = z.
Proof.
  intros H. unfold i8. cbn [le_bytes le_num]. rewrite Z.add_0_r.
  rewrite Zplus_mod_idemp_l, Z.mod_small; lia.
Qed.

#[global] Arguments le_bytes : simpl never.
#[global] Arguments le_num : simpl never.
#[global] Arguments slice : simpl never.
#[global] Arguments splice : simpl never.
#[global] Arguments pad_to : simpl never.

Ltac packed_len :=
  rewrite ?length_le_bytes, ?length_app; cbn [length Nat.add];
  repeat match goal with H : length _ = _ |- _ => rewrite H; clear H end;
  cbn [Nat.add]; first [reflexivity | lia].

Ltac packed_slices :=
  repeat match goal with
  | |- context [slice 0 ?n (?p ++ ?q)] => rewrite (slice_app_hit p q n) by packed_len
  | |- context [slice ?o ?n (?p ++ ?q)] =>
    erewrite (slice_app_skip p q o n);
      [| first [apply length_le_bytes | eassumption] | lia]; cbn [Nat.sub]
  end.

(** Proves the [Packed] laws of a struct laid out field by field. *)
Ltac solve_packed :=
  lazymatch goal with
  | |- forall _, _ -> length _ = _ =>
    intros [] ?; cbn in *; destruct_and?; packed_len
  | |- forall _, Forall _ _ -> _ -> _ = take _ _ =>
    intros l ? ?; cbn;
    rewrite ?le_bytes_i8; rewrite ?le_bytes_slice by (first [done | lia]);
    repeat (rewrite slice_join by reflexivity); unfold slice; rewrite drop_0; reflexivity
  | |- forall _ _, _ -> _ = _ =>
    intros [] rest ?; cbn [to_bytes] in *; cbn in *; destruct_and?;
    rewrite <-?(assoc_L (++)); f_equal; packed_slices; rewrite ?i8_le_num by lia;
    first [reflexivity | apply le_num_le_bytes_small; cbn; lia]
  | |- forall _, Forall _ _ -> _ -> _ =>
    intros l Hl ?; cbn; repeat split;
    first [ apply length_slice_in; lia
          | apply slice_ok, Hl
          | apply i8_range
          | eapply (le_num_slice_range l); [done | lia] ]
  end.
