(* ===== verification/Wire.v ===== *)
(** * Wire: the radio protocol's data layout

    Models [src/device_code/components/esp_tree_common/espnow_types.h]: the
    protocol constants, packet types, the hop byte, the packed structs with
    their memory images, the payload views and builders and the MTU arithmetic.
    Every struct that the sources read with [reinterpret_cast] is a [Record]
    with a [Packed] instance: its size, its image and the laws of both. *)
From S2P Require Import Prelude.

(** ** Protocol constants *)
Definition ESPNOW_PROTOCOL_VER : Z := 3.
Definition ESPNOW_HEADER_WITH_PSK_TAG_LEN : Z := 17.
Definition ESPNOW_PSK_TAG_LEN : Z := 4.
Definition ESPNOW_SESSION_TAG_LEN : Z := 8.
Definition ESPNOW_V1_MAX_PAYLOAD : Z := 250.
Definition ESPNOW_V2_MAX_PAYLOAD : Z := 1470.
Definition ESPNOW_SESSION_FLAG_V2_MTU : Z := 1.
Definition ESPNOW_PARENT_MAC_LEN : Z := 6.
Definition ESPNOW_V1_ENCRYPTED_PLAINTEXT : Z :=
  ESPNOW_V1_MAX_PAYLOAD - ESPNOW_HEADER_WITH_PSK_TAG_LEN - ESPNOW_SESSION_TAG_LEN.
Definition ESPNOW_ENTITY_PACKET_HEADER_LEN : Z := 5.
Definition ESPNOW_MAX_ENTITY_FRAGMENT_LEN : Z :=
  ESPNOW_V1_ENCRYPTED_PLAINTEXT - ESPNOW_ENTITY_PACKET_HEADER_LEN.
Definition ESPNOW_ENTITY_FLAG_MORE_FRAGMENTS : Z := 1.
Definition ESPNOW_ENTITY_FLAG_MORE_DIRTY : Z := 2.
Definition ESPNOW_FRAGMENT_ASSEMBLY_TIMEOUT_MS : Z := 5000.
Definition ESPNOW_MAX_FRAGMENT_ASSEMBLY_BYTES : Z := 1024.
Definition ESPNOW_MAX_TOTAL_FRAGMENT_BYTES_PER_SESSION : Z := 4096.
Definition ESPNOW_MAX_PENDING_FRAGMENT_ASSEMBLIES : Z := 8.
Definition ESPNOW_MAX_HOPS_DEFAULT : Z := 5.

(** ** The hop byte: bit 7 direction, bit 6 parent check, bits 3-0 count *)
Definition ESPNOW_HOPS_DIR_BIT : Z := 128.
Definition ESPNOW_HOPS_PARENT_CHECK_BIT : Z := 64.
Definition ESPNOW_HOPS_COUNT_MASK : Z := 15.
Definition ESPNOW_HOPS_DIR_UP : Z := 0.
Definition ESPNOW_HOPS_DIR_DOWN : Z := ESPNOW_HOPS_DIR_BIT.

Definition ESPNOW_HOPS_IS_UPSTREAM (h : Z) : bool := Z.land h ESPNOW_HOPS_DIR_BIT =? 0.
Definition ESPNOW_HOPS_IS_DOWNSTREAM (h : Z) : bool := negb (Z.land h ESPNOW_HOPS_DIR_BIT =? 0).
Definition ESPNOW_HOPS_MAKE (dir count : Z) : Z :=
  u8 (Z.lor (Z.land dir ESPNOW_HOPS_DIR_BIT) (Z.land count ESPNOW_HOPS_COUNT_MASK)).
Definition ESPNOW_HOPS_COUNT (h : Z) : Z := u8 (Z.land h ESPNOW_HOPS_COUNT_MASK).
Definition has_parent_check (h : Z) : bool :=
  negb (Z.land h ESPNOW_HOPS_PARENT_CHECK_BIT =? 0).

(** ** Entity field types and packet types *)
Inductive espnow_field_type_t :=
  | FIELD_TYPE_SENSOR | FIELD_TYPE_SWITCH | FIELD_TYPE_BINARY | FIELD_TYPE_BUTTON
  | FIELD_TYPE_NUMBER | FIELD_TYPE_TEXT | FIELD_TYPE_CLIMATE | FIELD_TYPE_COVER
  | FIELD_TYPE_LIGHT | FIELD_TYPE_FAN | FIELD_TYPE_LOCK | FIELD_TYPE_ALARM
  | FIELD_TYPE_SELECT | FIELD_TYPE_EVENT | FIELD_TYPE_HUMIDIFIER
  | FIELD_TYPE_DEHUMIDIFIER | FIELD_TYPE_VALVE | FIELD_TYPE_TIME
  | FIELD_TYPE_DATETIME | FIELD_TYPE_TEXT_SENSOR.

Inductive espnow_packet_type_t :=
  | PKT_DISCOVER | PKT_DISCOVER_ANNOUNCE | PKT_JOIN | PKT_JOIN_ACK | PKT_STATE
  | PKT_ACK | PKT_COMMAND | PKT_CONFIG | PKT_SCHEMA_REQUEST | PKT_SCHEMA_PUSH
  | PKT_HEARTBEAT | PKT_DEAUTH | PKT_FILE_TRANSFER | PKT_FILE_DATA.

#[export] Instance packet_type_eq_dec : EqDecision espnow_packet_type_t.
Proof. solve_decision. Defined.

(** The byte of a packet type, and the type a byte denotes. *)
Definition packet_type_code (t : espnow_packet_type_t) : Z :=
  match t with
  | PKT_DISCOVER => 0 | PKT_DISCOVER_ANNOUNCE => 1 | PKT_JOIN => 2 | PKT_JOIN_ACK => 3
  | PKT_STATE => 4 | PKT_ACK => 5 | PKT_COMMAND => 6 | PKT_CONFIG => 7
  | PKT_SCHEMA_REQUEST => 8 | PKT_SCHEMA_PUSH => 9 | PKT_HEARTBEAT => 16
  | PKT_DEAUTH => 17 | PKT_FILE_TRANSFER => 18 | PKT_FILE_DATA => 19
  end.

Definition all_packet_types : list espnow_packet_type_t :=
  [PKT_DISCOVER; PKT_DISCOVER_ANNOUNCE; PKT_JOIN; PKT_JOIN_ACK; PKT_STATE; PKT_ACK;
   PKT_COMMAND; PKT_CONFIG; PKT_SCHEMA_REQUEST; PKT_SCHEMA_PUSH; PKT_HEARTBEAT;
   PKT_DEAUTH; PKT_FILE_TRANSFER; PKT_FILE_DATA].

Definition packet_type_of (b : Z) : option espnow_packet_type_t :=
  List.find (fun t => packet_type_code t =? b) all_packet_types.

Definition packet_type_name (b : Z) : string :=
  match packet_type_of b with
  | Some PKT_DISCOVER => "DISCOVER"
  | Some PKT_DISCOVER_ANNOUNCE => "DISCOVER_ANNOUNCE"
  | Some PKT_JOIN => "JOIN"
  | Some PKT_JOIN_ACK => "JOIN_ACK"
  | Some PKT_STATE => "STATE"
  | Some PKT_ACK => "ACK"
  | Some PKT_COMMAND => "COMMAND"
  | Some PKT_CONFIG => "CONFIG"
  | Some PKT_SCHEMA_REQUEST => "SCHEMA_REQUEST"
  | Some PKT_SCHEMA_PUSH => "SCHEMA_PUSH"
  | Some PKT_HEARTBEAT => "HEARTBEAT"
  | Some PKT_DEAUTH => "DEAUTH"
  | Some PKT_FILE_TRANSFER => "FILE_TRANSFER"
  | Some PKT_FILE_DATA => "FILE_DATA"
  | None => "UNKNOWN"
  end%string.

Definition is_encrypted_packet (b : Z) : bool :=
  match packet_type_of b with
  | Some (PKT_STATE | PKT_ACK | PKT_COMMAND | PKT_CONFIG | PKT_SCHEMA_REQUEST
         | PKT_SCHEMA_PUSH | PKT_HEARTBEAT | PKT_FILE_TRANSFER | PKT_FILE_DATA) => true
  | _ => false
  end.

Definition is_valid_packet_type (b : Z) : bool :=
  match packet_type_of b with
  | Some (PKT_DISCOVER | PKT_DISCOVER_ANNOUNCE | PKT_JOIN | PKT_JOIN_ACK | PKT_STATE
         | PKT_ACK | PKT_COMMAND | PKT_CONFIG | PKT_SCHEMA_REQUEST | PKT_SCHEMA_PUSH
         | PKT_HEARTBEAT | PKT_DEAUTH | PKT_FILE_TRANSFER | PKT_FILE_DATA) => true
  | None => false
  end.

(** ** File transfer constants *)
Definition ESPNOW_FILE_ACTION_OTA_FLASH : Z := 1.
Definition ESPNOW_FILE_PHASE_ANNOUNCE : Z := 0.
Definition ESPNOW_FILE_PHASE_END : Z := 1.
Definition ESPNOW_FILE_PHASE_ABORT : Z := 2.
Definition ESPNOW_FILE_PHASE_BLAST_COMPLETE : Z := 3.
Definition ESPNOW_FILE_ACK_ACCEPT : Z := 0.
Definition ESPNOW_FILE_ACK_REJECT : Z := 1.
Definition ESPNOW_FILE_ACK_COMPLETE : Z := 3.
Definition ESPNOW_FILE_ACK_ABORT : Z := 4.
Definition ESPNOW_FILE_ACK_GAPS : Z := 5.
Definition ESPNOW_FILE_REJECT_BUSY : Z := 1.
Definition ESPNOW_FILE_REJECT_NO_SPACE : Z := 2.
Definition ESPNOW_FILE_REJECT_UNSUPPORTED : Z := 3.
Definition ESPNOW_FILE_REJECT_ALREADY : Z := 4.
Definition ESPNOW_FILE_REJECT_DEEP_SLEEP : Z := 5.
Definition ESPNOW_FILE_REJECT_CHIP_MISMATCH : Z := 6.
Definition ESPNOW_FILE_COMPLETE_SUCCESS : Z := 0.
Definition ESPNOW_FILE_COMPLETE_MD5_MISMATCH : Z := 1.
Definition ESPNOW_FILE_COMPLETE_FLASH_ERROR : Z := 2.
Definition ESPNOW_FILE_COMPLETE_WRITE_ERROR : Z := 3.
Definition ESPNOW_FILE_COMPLETE_ABORTED : Z := 4.
Definition ESPNOW_FILE_ABORT_USER : Z := 0.
Definition ESPNOW_FILE_ABORT_TIMEOUT : Z := 1.
Definition ESPNOW_FILE_ABORT_SESSION_LOST : Z := 2.
Definition ESPNOW_FILE_ABORT_SEND_FAILURE : Z := 3.
Definition ESPNOW_FILE_ABORT_FLASH_ERROR : Z := 4.
Definition ESPNOW_FILE_DATA_HEADER_OVERHEAD : Z :=
  ESPNOW_HEADER_WITH_PSK_TAG_LEN + 4 + ESPNOW_SESSION_TAG_LEN.
Definition ESPNOW_FILE_DEFAULT_CHUNK_SIZE : Z :=
  ESPNOW_V1_MAX_PAYLOAD - ESPNOW_FILE_DATA_HEADER_OVERHEAD.
Definition ESPNOW_FILE_ANNOUNCE_TIMEOUT_MS : Z := 5000.
Definition ESPNOW_FILE_MAX_RETRIES : Z := 3.
Definition ESPNOW_BLAST_COMPLETE_TIMEOUT_MS : Z := 1000.
Definition ESPNOW_MAX_BLAST_COMPLETE_RETRIES : Z := 20.
Definition ESPNOW_MAX_RETRANSMIT_ROUNDS : Z := 10.
Definition ESPNOW_RADIO_SILENCE_ABORT_MS : Z := 10000.
Definition ESPNOW_WAITING_GAPS_TIMEOUT_MS : Z := 45000.
Definition ESPNOW_MAX_INCREMENT_KB : Z := 8.

Definition abort_reason_to_string (reason : Z) : string :=
  if reason =? ESPNOW_FILE_ABORT_USER then "user_abort"
  else if reason =? ESPNOW_FILE_ABORT_TIMEOUT then "timeout"
  else if reason =? ESPNOW_FILE_ABORT_SESSION_LOST then "session_lost"
  else if reason =? ESPNOW_FILE_ABORT_SEND_FAILURE then "send_failure"
  else if reason =? ESPNOW_FILE_ABORT_FLASH_ERROR then "flash_error"
  else "abort_unknown".

(** ** Packed structs *)
#[local] Obligation Tactic := idtac.

Record espnow_frame_header_t := {
  protocol_version : Z;
  hop_count : Z;
  packet_type : Z;
  leaf_mac : bytes;
  tx_counter : Z;
  psk_tag : bytes
}.
#[export] Instance eta_frame_header : Eta espnow_frame_header_t := fun h =>
  Build_espnow_frame_header_t (protocol_version h) (hop_count h) (packet_type h)
    (leaf_mac h) (tx_counter h) (psk_tag h).

#[export] Program Instance packed_frame_header : Packed espnow_frame_header_t := {|
  sizeof := 17;
  to_bytes h := le_bytes 1 (protocol_version h) ++ le_bytes 1 (hop_count h) ++
                le_bytes 1 (packet_type h) ++ leaf_mac h ++ le_bytes 4 (tx_counter h) ++
                psk_tag h;
  of_bytes l := {|
    protocol_version := le_num (slice 0 1 l); hop_count := le_num (slice 1 1 l);
    packet_type := le_num (slice 2 1 l); leaf_mac := slice 3 6 l;
    tx_counter := le_num (slice 9 4 l); psk_tag := slice 13 4 l |};
  struct_ok h := 0 <= protocol_version h < 256 /\ 0 <= hop_count h < 256 /\
    0 <= packet_type h < 256 /\ length (leaf_mac h) = 6%nat /\ bytes_ok (leaf_mac h) /\
    0 <= tx_counter h < 4294967296 /\ length (psk_tag h) = 4%nat /\ bytes_ok (psk_tag h)
|}.
Solve All Obligations with solve_packed.

Record espnow_discover_t := {
  discover_network_id : bytes;
  discover_network_id_len : Z;
  discover_capability_flags : Z
}.
#[export] Instance eta_discover : Eta espnow_discover_t := fun r =>
  Build_espnow_discover_t (discover_network_id r) (discover_network_id_len r)
  (discover_capability_flags r).

#[export] Program Instance packed_discover : Packed espnow_discover_t := {|
  sizeof := 34;
  to_bytes r :=
    discover_network_id r ++ le_bytes 1 (discover_network_id_len r) ++ le_bytes 1
    (discover_capability_flags r);
  of_bytes l := {|
    discover_network_id := slice 0 32 l; discover_network_id_len := le_num (slice 32 1 l);
    discover_capability_flags := le_num (slice 33 1 l) |};
  struct_ok r :=
    length (discover_network_id r) = 32%nat /\ bytes_ok (discover_network_id r) /\ 0 <=
    discover_network_id_len r < 256 /\ 0 <= discover_capability_flags r < 256
|}.
Solve All Obligations with solve_packed.

Record espnow_discover_announce_t := {
  announce_network_id : bytes;
  announce_network_id_len : Z;
  announce_responder_mac : bytes;
  announce_responder_role : Z;
  announce_hops_to_bridge : Z;
  announce_bridge_reachable : Z;
  announce_flags : Z
}.
#[export] Instance eta_announce : Eta espnow_discover_announce_t := fun r =>
  Build_espnow_discover_announce_t (announce_network_id r) (announce_network_id_len r)
  (announce_responder_mac r) (announce_responder_role r) (announce_hops_to_bridge r)
  (announce_bridge_reachable r) (announce_flags r).

#[export] Program Instance packed_announce : Packed espnow_discover_announce_t := {|
  sizeof := 43;
  to_bytes r :=
    announce_network_id r ++ le_bytes 1 (announce_network_id_len r) ++ announce_responder_mac r
    ++ le_bytes 1 (announce_responder_role r) ++ le_bytes 1 (announce_hops_to_bridge r) ++
    le_bytes 1 (announce_bridge_reachable r) ++ le_bytes 1 (announce_flags r);
  of_bytes l := {|
    announce_network_id := slice 0 32 l; announce_network_id_len := le_num (slice 32 1 l);
    announce_responder_mac := slice 33 6 l; announce_responder_role := le_num (slice 39 1 l);
    announce_hops_to_bridge := le_num (slice 40 1 l); announce_bridge_reachable := le_num (slice
    41 1 l); announce_flags := le_num (slice 42 1 l) |};
  struct_ok r :=
    length (announce_network_id r) = 32%nat /\ bytes_ok (announce_network_id r) /\ 0 <=
    announce_network_id_len r < 256 /\ length (announce_responder_mac r) = 6%nat /\ bytes_ok
    (announce_responder_mac r) /\ 0 <= announce_responder_role r < 256 /\ 0 <=
    announce_hops_to_bridge r < 256 /\ 0 <= announce_bridge_reachable r < 256 /\ 0 <=
    announce_flags r < 256
|}.
Solve All Obligations with solve_packed.

Record espnow_join_t := {
  join_remote_nonce : bytes;
  join_schema_hash : bytes;
  join_hops_to_bridge : Z;
  join_dirty_count : Z;
  join_session_flags : Z
}.
#[export] Instance eta_join : Eta espnow_join_t := fun r =>
  Build_espnow_join_t (join_remote_nonce r) (join_schema_hash r) (join_hops_to_bridge r)
  (join_dirty_count r) (join_session_flags r).

#[export] Program Instance packed_join : Packed espnow_join_t := {|
  sizeof := 51;
  to_bytes r :=
    join_remote_nonce r ++ join_schema_hash r ++ le_bytes 1 (join_hops_to_bridge r) ++ le_bytes
    1 (join_dirty_count r) ++ le_bytes 1 (join_session_flags r);
  of_bytes l := {|
    join_remote_nonce := slice 0 16 l; join_schema_hash := slice 16 32 l; join_hops_to_bridge :=
    le_num (slice 48 1 l); join_dirty_count := le_num (slice 49 1 l); join_session_flags :=
    le_num (slice 50 1 l) |};
  struct_ok r :=
    length (join_remote_nonce r) = 16%nat /\ bytes_ok (join_remote_nonce r) /\ length
    (join_schema_hash r) = 32%nat /\ bytes_ok (join_schema_hash r) /\ 0 <= join_hops_to_bridge r
    < 256 /\ 0 <= join_dirty_count r < 256 /\ 0 <= join_session_flags r < 256
|}.
Solve All Obligations with solve_packed.

Record espnow_join_ack_t := {
  ja_accepted : Z;
  ja_reason : Z;
  ja_stage : Z;
  ja_bridge_nonce : bytes;
  ja_session_flags : Z
}.
#[export] Instance eta_join_ack : Eta espnow_join_ack_t := fun r =>
  Build_espnow_join_ack_t (ja_accepted r) (ja_reason r) (ja_stage r) (ja_bridge_nonce r)
  (ja_session_flags r).

#[export] Program Instance packed_join_ack : Packed espnow_join_ack_t := {|
  sizeof := 20;
  to_bytes r :=
    le_bytes 1 (ja_accepted r) ++ le_bytes 1 (ja_reason r) ++ le_bytes 1 (ja_stage r) ++
    ja_bridge_nonce r ++ le_bytes 1 (ja_session_flags r);
  of_bytes l := {|
    ja_accepted := le_num (slice 0 1 l); ja_reason := le_num (slice 1 1 l); ja_stage := le_num
    (slice 2 1 l); ja_bridge_nonce := slice 3 16 l; ja_session_flags := le_num (slice 19 1 l)
    |};
  struct_ok r :=
    0 <= ja_accepted r < 256 /\ 0 <= ja_reason r < 256 /\ 0 <= ja_stage r < 256 /\ length
    (ja_bridge_nonce r) = 16%nat /\ bytes_ok (ja_bridge_nonce r) /\ 0 <= ja_session_flags r <
    256
|}.
Solve All Obligations with solve_packed.

Record espnow_heartbeat_t := {
  hb_uptime_seconds : Z;
  hb_expected_contact_interval_seconds : Z;
  hb_parent_mac : bytes;
  hb_direct_child_count : Z;
  hb_total_child_count : Z;
  hb_remote_rssi_dbm : Z
}.
#[export] Instance eta_heartbeat : Eta espnow_heartbeat_t := fun r =>
  Build_espnow_heartbeat_t (hb_uptime_seconds r) (hb_expected_contact_interval_seconds r)
  (hb_parent_mac r) (hb_direct_child_count r) (hb_total_child_count r) (hb_remote_rssi_dbm r).

#[export] Program Instance packed_heartbeat : Packed espnow_heartbeat_t := {|
  sizeof := 18;
  to_bytes r :=
    le_bytes 4 (hb_uptime_seconds r) ++ le_bytes 4 (hb_expected_contact_interval_seconds r) ++
    hb_parent_mac r ++ le_bytes 1 (hb_direct_child_count r) ++ le_bytes 2 (hb_total_child_count
    r) ++ le_bytes 1 (hb_remote_rssi_dbm r);
  of_bytes l := {|
    hb_uptime_seconds := le_num (slice 0 4 l); hb_expected_contact_interval_seconds := le_num
    (slice 4 4 l); hb_parent_mac := slice 8 6 l; hb_direct_child_count := le_num (slice 14 1 l);
    hb_total_child_count := le_num (slice 15 2 l); hb_remote_rssi_dbm := i8 (le_num (slice 17 1
    l)) |};
  struct_ok r :=
    0 <= hb_uptime_seconds r < 4294967296 /\ 0 <= hb_expected_contact_interval_seconds r <
    4294967296 /\ length (hb_parent_mac r) = 6%nat /\ bytes_ok (hb_parent_mac r) /\ 0 <=
    hb_direct_child_count r < 256 /\ 0 <= hb_total_child_count r < 65536 /\ -128 <=
    hb_remote_rssi_dbm r < 128
|}.
Solve All Obligations with solve_packed.

Record espnow_entity_packet_header_t := {
  eh_entity_index : Z;
  eh_flags : Z;
  eh_fragment_index : Z;
  eh_fragment_count : Z;
  eh_value_len : Z
}.
#[export] Instance eta_entity_header : Eta espnow_entity_packet_header_t := fun r =>
  Build_espnow_entity_packet_header_t (eh_entity_index r) (eh_flags r) (eh_fragment_index r)
  (eh_fragment_count r) (eh_value_len r).

#[export] Program Instance packed_entity_header : Packed espnow_entity_packet_header_t := {|
  sizeof := 5;
  to_bytes r :=
    le_bytes 1 (eh_entity_index r) ++ le_bytes 1 (eh_flags r) ++ le_bytes 1 (eh_fragment_index
    r) ++ le_bytes 1 (eh_fragment_count r) ++ le_bytes 1 (eh_value_len r);
  of_bytes l := {|
    eh_entity_index := le_num (slice 0 1 l); eh_flags := le_num (slice 1 1 l); eh_fragment_index
    := le_num (slice 2 1 l); eh_fragment_count := le_num (slice 3 1 l); eh_value_len := le_num
    (slice 4 1 l) |};
  struct_ok r :=
    0 <= eh_entity_index r < 256 /\ 0 <= eh_flags r < 256 /\ 0 <= eh_fragment_index r < 256 /\ 0
    <= eh_fragment_count r < 256 /\ 0 <= eh_value_len r < 256
|}.
Solve All Obligations with solve_packed.

Record espnow_ack_t := {
  ack_type : Z;
  ack_result : Z;
  ack_ref_tx_counter : Z
}.
#[export] Instance eta_ack : Eta espnow_ack_t := fun r =>
  Build_espnow_ack_t (ack_type r) (ack_result r) (ack_ref_tx_counter r).

#[export] Program Instance packed_ack : Packed espnow_ack_t := {|
  sizeof := 6;
  to_bytes r :=
    le_bytes 1 (ack_type r) ++ le_bytes 1 (ack_result r) ++ le_bytes 4 (ack_ref_tx_counter r);
  of_bytes l := {|
    ack_type := le_num (slice 0 1 l); ack_result := le_num (slice 1 1 l); ack_ref_tx_counter :=
    le_num (slice 2 4 l) |};
  struct_ok r :=
    0 <= ack_type r < 256 /\ 0 <= ack_result r < 256 /\ 0 <= ack_ref_tx_counter r < 4294967296
|}.
Solve All Obligations with solve_packed.

Record espnow_config_t := {
  cfg_command : Z;
  cfg_flags : Z;
  cfg_payload_len : Z
}.
#[export] Instance eta_config : Eta espnow_config_t := fun r =>
  Build_espnow_config_t (cfg_command r) (cfg_flags r) (cfg_payload_len r).

#[export] Program Instance packed_config : Packed espnow_config_t := {|
  sizeof := 3;
  to_bytes r :=
    le_bytes 1 (cfg_command r) ++ le_bytes 1 (cfg_flags r) ++ le_bytes 1 (cfg_payload_len r);
  of_bytes l := {|
    cfg_command := le_num (slice 0 1 l); cfg_flags := le_num (slice 1 1 l); cfg_payload_len :=
    le_num (slice 2 1 l) |};
  struct_ok r :=
    0 <= cfg_command r < 256 /\ 0 <= cfg_flags r < 256 /\ 0 <= cfg_payload_len r < 256
|}.
Solve All Obligations with solve_packed.

Record espnow_schema_request_t := {
  sr_descriptor_type : Z;
  sr_descriptor_index : Z
}.
#[export] Instance eta_schema_request : Eta espnow_schema_request_t := fun r =>
  Build_espnow_schema_request_t (sr_descriptor_type r) (sr_descriptor_index r).

#[export] Program Instance packed_schema_request : Packed espnow_schema_request_t := {|
  sizeof := 2;
  to_bytes r :=
    le_bytes 1 (sr_descriptor_type r) ++ le_bytes 1 (sr_descriptor_index r);
  of_bytes l := {|
    sr_descriptor_type := le_num (slice 0 1 l); sr_descriptor_index := le_num (slice 1 1 l) |};
  struct_ok r :=
    0 <= sr_descriptor_type r < 256 /\ 0 <= sr_descriptor_index r < 256
|}.
Solve All Obligations with solve_packed.

Record espnow_schema_push_t := {
  sp_descriptor_type : Z;
  sp_descriptor_index : Z;
  sp_entity_index : Z;
  sp_total_entities : Z;
  sp_entity_type : Z;
  sp_entity_name : bytes;
  sp_entity_unit : bytes;
  sp_entity_id : bytes
}.
#[export] Instance eta_schema_push : Eta espnow_schema_push_t := fun r =>
  Build_espnow_schema_push_t (sp_descriptor_type r) (sp_descriptor_index r) (sp_entity_index r)
  (sp_total_entities r) (sp_entity_type r) (sp_entity_name r) (sp_entity_unit r) (sp_entity_id
  r).

#[export] Program Instance packed_schema_push : Packed espnow_schema_push_t := {|
  sizeof := 77;
  to_bytes r :=
    le_bytes 1 (sp_descriptor_type r) ++ le_bytes 1 (sp_descriptor_index r) ++ le_bytes 1
    (sp_entity_index r) ++ le_bytes 1 (sp_total_entities r) ++ le_bytes 1 (sp_entity_type r) ++
    sp_entity_name r ++ sp_entity_unit r ++ sp_entity_id r;
  of_bytes l := {|
    sp_descriptor_type := le_num (slice 0 1 l); sp_descriptor_index := le_num (slice 1 1 l);
    sp_entity_index := le_num (slice 2 1 l); sp_total_entities := le_num (slice 3 1 l);
    sp_entity_type := le_num (slice 4 1 l); sp_entity_name := slice 5 32 l; sp_entity_unit :=
    slice 37 8 l; sp_entity_id := slice 45 32 l |};
  struct_ok r :=
    0 <= sp_descriptor_type r < 256 /\ 0 <= sp_descriptor_index r < 256 /\ 0 <= sp_entity_index
    r < 256 /\ 0 <= sp_total_entities r < 256 /\ 0 <= sp_entity_type r < 256 /\ length
    (sp_entity_name r) = 32%nat /\ bytes_ok (sp_entity_name r) /\ length (sp_entity_unit r) =
    8%nat /\ bytes_ok (sp_entity_unit r) /\ length (sp_entity_id r) = 32%nat /\ bytes_ok
    (sp_entity_id r)
|}.
Solve All Obligations with solve_packed.

Record espnow_identity_push_t := {
  ip_descriptor_type : Z;
  ip_descriptor_index : Z;
  ip_esphome_name : bytes;
  ip_node_label : bytes;
  ip_firmware_epoch : Z;
  ip_project_name : bytes;
  ip_project_version : bytes;
  ip_total_entities : Z;
  ip_max_frame_payload : Z;
  ip_chip_model : Z;
  ip_build_date : bytes;
  ip_build_time : bytes;
  ip_firmware_md5 : bytes
}.
#[export] Instance eta_identity_push : Eta espnow_identity_push_t := fun r =>
  Build_espnow_identity_push_t (ip_descriptor_type r) (ip_descriptor_index r) (ip_esphome_name
  r) (ip_node_label r) (ip_firmware_epoch r) (ip_project_name r) (ip_project_version r)
  (ip_total_entities r) (ip_max_frame_payload r) (ip_chip_model r) (ip_build_date r)
  (ip_build_time r) (ip_firmware_md5 r).

#[export] Program Instance packed_identity_push : Packed espnow_identity_push_t := {|
  sizeof := 205;
  to_bytes r :=
    le_bytes 1 (ip_descriptor_type r) ++ le_bytes 1 (ip_descriptor_index r) ++ ip_esphome_name r
    ++ ip_node_label r ++ le_bytes 4 (ip_firmware_epoch r) ++ ip_project_name r ++
    ip_project_version r ++ le_bytes 1 (ip_total_entities r) ++ le_bytes 2 (ip_max_frame_payload
    r) ++ le_bytes 4 (ip_chip_model r) ++ ip_build_date r ++ ip_build_time r ++ ip_firmware_md5
    r;
  of_bytes l := {|
    ip_descriptor_type := le_num (slice 0 1 l); ip_descriptor_index := le_num (slice 1 1 l);
    ip_esphome_name := slice 2 32 l; ip_node_label := slice 34 64 l; ip_firmware_epoch := le_num
    (slice 98 4 l); ip_project_name := slice 102 32 l; ip_project_version := slice 134 16 l;
    ip_total_entities := le_num (slice 150 1 l); ip_max_frame_payload := le_num (slice 151 2 l);
    ip_chip_model := le_num (slice 153 4 l); ip_build_date := slice 157 16 l; ip_build_time :=
    slice 173 16 l; ip_firmware_md5 := slice 189 16 l |};
  struct_ok r :=
    0 <= ip_descriptor_type r < 256 /\ 0 <= ip_descriptor_index r < 256 /\ length
    (ip_esphome_name r) = 32%nat /\ bytes_ok (ip_esphome_name r) /\ length (ip_node_label r) =
    64%nat /\ bytes_ok (ip_node_label r) /\ 0 <= ip_firmware_epoch r < 4294967296 /\ length
    (ip_project_name r) = 32%nat /\ bytes_ok (ip_project_name r) /\ length (ip_project_version
    r) = 16%nat /\ bytes_ok (ip_project_version r) /\ 0 <= ip_total_entities r < 256 /\ 0 <=
    ip_max_frame_payload r < 65536 /\ 0 <= ip_chip_model r < 4294967296 /\ length (ip_build_date
    r) = 16%nat /\ bytes_ok (ip_build_date r) /\ length (ip_build_time r) = 16%nat /\ bytes_ok
    (ip_build_time r) /\ length (ip_firmware_md5 r) = 16%nat /\ bytes_ok (ip_firmware_md5 r)
|}.
Solve All Obligations with solve_packed.

Record espnow_file_announce_t := {
  fa_phase : Z;
  fa_file_size : Z;
  fa_md5 : bytes;
  fa_chunk_size : Z;
  fa_action : Z;
  fa_file_id : bytes
}.
#[export] Instance eta_file_announce : Eta espnow_file_announce_t := fun r =>
  Build_espnow_file_announce_t (fa_phase r) (fa_file_size r) (fa_md5 r) (fa_chunk_size r)
  (fa_action r) (fa_file_id r).

#[export] Program Instance packed_file_announce : Packed espnow_file_announce_t := {|
  sizeof := 36;
  to_bytes r :=
    le_bytes 1 (fa_phase r) ++ le_bytes 4 (fa_file_size r) ++ fa_md5 r ++ le_bytes 2
    (fa_chunk_size r) ++ le_bytes 1 (fa_action r) ++ fa_file_id r;
  of_bytes l := {|
    fa_phase := le_num (slice 0 1 l); fa_file_size := le_num (slice 1 4 l); fa_md5 := slice 5 16
    l; fa_chunk_size := le_num (slice 21 2 l); fa_action := le_num (slice 23 1 l); fa_file_id :=
    slice 24 12 l |};
  struct_ok r :=
    0 <= fa_phase r < 256 /\ 0 <= fa_file_size r < 4294967296 /\ length (fa_md5 r) = 16%nat /\
    bytes_ok (fa_md5 r) /\ 0 <= fa_chunk_size r < 65536 /\ 0 <= fa_action r < 256 /\ length
    (fa_file_id r) = 12%nat /\ bytes_ok (fa_file_id r)
|}.
Solve All Obligations with solve_packed.

Record espnow_file_end_t := {
  fe_phase : Z
}.
#[export] Instance eta_file_end : Eta espnow_file_end_t := fun r =>
  Build_espnow_file_end_t (fe_phase r).

#[export] Program Instance packed_file_end : Packed espnow_file_end_t := {|
  sizeof := 1;
  to_bytes r :=
    le_bytes 1 (fe_phase r);
  of_bytes l := {|
    fe_phase := le_num (slice 0 1 l) |};
  struct_ok r :=
    0 <= fe_phase r < 256
|}.
Solve All Obligations with solve_packed.

Record espnow_file_abort_t := {
  fab_phase : Z;
  fab_reason : Z
}.
#[export] Instance eta_file_abort : Eta espnow_file_abort_t := fun r =>
  Build_espnow_file_abort_t (fab_phase r) (fab_reason r).

#[export] Program Instance packed_file_abort : Packed espnow_file_abort_t := {|
  sizeof := 2;
  to_bytes r :=
    le_bytes 1 (fab_phase r) ++ le_bytes 1 (fab_reason r);
  of_bytes l := {|
    fab_phase := le_num (slice 0 1 l); fab_reason := le_num (slice 1 1 l) |};
  struct_ok r :=
    0 <= fab_phase r < 256 /\ 0 <= fab_reason r < 256
|}.
Solve All Obligations with solve_packed.

Record espnow_file_blast_complete_t := {
  fbc_phase : Z;
  fbc_increment_index : Z
}.
#[export] Instance eta_file_blast_complete : Eta espnow_file_blast_complete_t := fun r =>
  Build_espnow_file_blast_complete_t (fbc_phase r) (fbc_increment_index r).

#[export] Program Instance packed_file_blast_complete : Packed espnow_file_blast_complete_t := {|
  sizeof := 3;
  to_bytes r :=
    le_bytes 1 (fbc_phase r) ++ le_bytes 2 (fbc_increment_index r);
  of_bytes l := {|
    fbc_phase := le_num (slice 0 1 l); fbc_increment_index := le_num (slice 1 2 l) |};
  struct_ok r :=
    0 <= fbc_phase r < 256 /\ 0 <= fbc_increment_index r < 65536
|}.
Solve All Obligations with solve_packed.

Record espnow_file_data_header_t := {
  fdh_sequence : Z
}.
#[export] Instance eta_file_data_header : Eta espnow_file_data_header_t := fun r =>
  Build_espnow_file_data_header_t (fdh_sequence r).

#[export] Program Instance packed_file_data_header : Packed espnow_file_data_header_t := {|
  sizeof := 4;
  to_bytes r :=
    le_bytes 4 (fdh_sequence r);
  of_bytes l := {|
    fdh_sequence := le_num (slice 0 4 l) |};
  struct_ok r :=
    0 <= fdh_sequence r < 4294967296
|}.
Solve All Obligations with solve_packed.

Record espnow_deauth_t := {
  da_reason : Z;
  da_response_to_packet_type : Z;
  da_response_to_tx_counter : Z;
  da_request_fingerprint : bytes
}.
#[export] Instance eta_deauth : Eta espnow_deauth_t := fun r =>
  Build_espnow_deauth_t (da_reason r) (da_response_to_packet_type r) (da_response_to_tx_counter
  r) (da_request_fingerprint r).

#[export] Program Instance packed_deauth : Packed espnow_deauth_t := {|
  sizeof := 10;
  to_bytes r :=
    le_bytes 1 (da_reason r) ++ le_bytes 1 (da_response_to_packet_type r) ++ le_bytes 4
    (da_response_to_tx_counter r) ++ da_request_fingerprint r;
  of_bytes l := {|
    da_reason := le_num (slice 0 1 l); da_response_to_packet_type := le_num (slice 1 1 l);
    da_response_to_tx_counter := le_num (slice 2 4 l); da_request_fingerprint := slice 6 4 l |};
  struct_ok r :=
    0 <= da_reason r < 256 /\ 0 <= da_response_to_packet_type r < 256 /\ 0 <=
    da_response_to_tx_counter r < 4294967296 /\ length (da_request_fingerprint r) = 4%nat /\
    bytes_ok (da_request_fingerprint r)
|}.
Solve All Obligations with solve_packed.

Definition espnow_is_parent_mac_all_zeros (mac : bytes) : bool :=
  forallb (fun i => nth i mac 0 =? 0) [0; 1; 2; 3; 4; 5]%nat.

(** [memcmp(a, b, 6) == 0] on MAC addresses and, generally, on byte arrays. *)
Definition bytes_eqb (a b : bytes) : bool := bool_decide (a = b).

Lemma bytes_eqb_true a b : bytes_eqb a b = true <-> a = b.
Proof. apply bool_decide_eq_true. Qed.
Lemma bytes_eqb_false a b : bytes_eqb a b = false <-> a <> b.
Proof. apply bool_decide_eq_false. Qed.
Lemma bytes_eqb_refl a : bytes_eqb a a = true.
Proof. by apply bytes_eqb_true. Qed.

(** ** Counters *)
Definition counter_is_newer (candidate previous : Z) : bool :=
  0 <? i32 (u32 (candidate - previous)).

(** ** Entity payloads *)
Record EntityPayloadView := {
  view_entity_index : Z;
  view_flags : Z;
  view_fragment_index : Z;
  view_fragment_count : Z;
  view_value : bytes
}.

Definition fragment_message_tx_base (header : espnow_frame_header_t) (view : EntityPayloadView) : Z :=
  u32 (tx_counter header - view_fragment_index view).

Definition parse_entity_payload (payload : bytes) : option EntityPayloadView :=
  if (length payload <? sizeof espnow_entity_packet_header_t)%nat then None
  else
    let header : espnow_entity_packet_header_t := of_bytes payload in
    if eh_fragment_count header =? 0 then None
    else if eh_fragment_count header <=? eh_fragment_index header then None
    else Some {|
      view_entity_index := eh_entity_index header;
      view_flags := eh_flags header;
      view_fragment_index := eh_fragment_index header;
      view_fragment_count := eh_fragment_count header;
      view_value := drop (sizeof espnow_entity_packet_header_t) payload |}.

Definition append_entity_payload (entity_index flags fragment_index fragment_count : Z)
    (value : bytes) : bytes :=
  to_bytes {|
    eh_entity_index := entity_index;
    eh_flags := flags;
    eh_fragment_index := fragment_index;
    eh_fragment_count := if fragment_count =? 0 then 1 else fragment_count;
    eh_value_len := u8 (Z.of_nat (length value)) |} ++ value.

(** ** Schema and identity descriptors *)
Definition ESPNOW_DESCRIPTOR_TYPE_IDENTITY : Z := 0.
Definition ESPNOW_DESCRIPTOR_TYPE_ENTITY : Z := 1.

Record SchemaPushView := {
  spv_descriptor_type : Z;
  spv_descriptor_index : Z;
  spv_entity_index : Z;
  spv_total_entities : Z;
  spv_entity_type : Z;
  spv_entity_name : bytes;
  spv_entity_unit : bytes;
  spv_entity_id : bytes;
  spv_entity_options : bytes
}.

Record IdentityDescriptorView := {
  idv_esphome_name : bytes;
  idv_node_label : bytes;
  idv_firmware_epoch : Z;
  idv_project_name : bytes;
  idv_project_version : bytes;
  idv_total_entities : Z;
  idv_max_frame_payload : Z;
  idv_chip_model : Z;
  idv_build_date : bytes;
  idv_build_time : bytes;
  idv_firmware_md5 : bytes
}.

Definition parse_schema_push_payload (payload : bytes) : option SchemaPushView :=
  if (length payload <? sizeof espnow_schema_push_t)%nat then None
  else
    let schema : espnow_schema_push_t := of_bytes payload in
    Some {|
      spv_descriptor_type := sp_descriptor_type schema;
      spv_descriptor_index := sp_descriptor_index schema;
      spv_entity_index := sp_entity_index schema;
      spv_total_entities := sp_total_entities schema;
      spv_entity_type := sp_entity_type schema;
      spv_entity_name := sp_entity_name schema;
      spv_entity_unit := sp_entity_unit schema;
      spv_entity_id := sp_entity_id schema;
      spv_entity_options := drop (sizeof espnow_schema_push_t) payload |}.

Definition append_schema_push_payload (descriptor_type descriptor_index entity_index
    total_entities entity_type : Z) (entity_name entity_unit entity_id entity_options : bytes)
    : bytes :=
  to_bytes {|
    sp_descriptor_type := descriptor_type;
    sp_descriptor_index := descriptor_index;
    sp_entity_index := entity_index;
    sp_total_entities := total_entities;
    sp_entity_type := entity_type;
    sp_entity_name := pad_to 32 entity_name;
    sp_entity_unit := pad_to 8 entity_unit;
    sp_entity_id := pad_to 32 entity_id |} ++ entity_options.

Definition parse_identity_descriptor_payload (payload : bytes)
    : option (IdentityDescriptorView * Z) :=
  if (length payload <? sizeof espnow_identity_push_t)%nat then None
  else
    let identity_push : espnow_identity_push_t := of_bytes payload in
    if negb (length payload =? sizeof espnow_identity_push_t)%nat then None
    else if negb (ip_descriptor_type identity_push =? ESPNOW_DESCRIPTOR_TYPE_IDENTITY) then None
    else Some ({|
      idv_esphome_name := ip_esphome_name identity_push;
      idv_node_label := ip_node_label identity_push;
      idv_firmware_epoch := ip_firmware_epoch identity_push;
      idv_project_name := ip_project_name identity_push;
      idv_project_version := ip_project_version identity_push;
      idv_total_entities := ip_total_entities identity_push;
      idv_max_frame_payload := ip_max_frame_payload identity_push;
      idv_chip_model := ip_chip_model identity_push;
      idv_build_date := ip_build_date identity_push;
      idv_build_time := ip_build_time identity_push;
      idv_firmware_md5 := ip_firmware_md5 identity_push |}, ip_descriptor_index identity_push).

Definition append_identity_descriptor_payload (esphome_name node_label : bytes)
    (firmware_epoch : Z) (project_name project_version : bytes)
    (total_entities max_frame_payload chip_model : Z)
    (build_date build_time firmware_md5 : bytes) : bytes :=
  to_bytes {|
    ip_descriptor_type := ESPNOW_DESCRIPTOR_TYPE_IDENTITY;
    ip_descriptor_index := 0;
    ip_esphome_name := pad_to 32 esphome_name;
    ip_node_label := pad_to 64 node_label;
    ip_firmware_epoch := firmware_epoch;
    ip_project_name := pad_to 32 project_name;
    ip_project_version := pad_to 16 project_version;
    ip_total_entities := total_entities;
    ip_max_frame_payload := max_frame_payload;
    ip_chip_model := chip_model;
    ip_build_date := pad_to 16 build_date;
    ip_build_time := pad_to 16 build_time;
    ip_firmware_md5 := pad_to 16 firmware_md5 |}.

(** ** Constants of both ends of the protocol *)
Definition ESPNOW_HEARTBEAT_INTERVAL_S : Z := 60.
Definition ESPNOW_MAX_RETRIES : Z := 4.
Definition ESPNOW_RETRY_JITTER_MS : Z := 50.
Definition ESPNOW_DISCOVER_ANNOUNCE_JITTER_MS : Z := 20.
Definition ESPNOW_JOIN_STATUS_SCHEMA_REFRESH : Z := 1.
Definition ESPNOW_JOIN_STATUS_SEND_STATE : Z := 2.
Definition ESPNOW_JOIN_STATUS_COMPLETE : Z := 100.
Definition ESPNOW_JOIN_REASON_WAIT : Z := 3.
Definition ACK_STATE : Z := 4.
Definition ACK_COMMAND : Z := 6.
Definition CFG_RESULT_REJECTED : Z := 1.
Definition CFG_RESULT_INVALID_PAYLOAD : Z := 3.
Definition ESPNOW_NODE_ROLE_BRIDGE : Z := 0.
Definition RETRY_BACKOFF_MS : list Z := [200; 400; 800; 1600].
Definition ESPNOW_NODE_ROLE_RELAY : Z := 1.
Definition CFG_RESULT_OK : Z := 0.
Definition CFG_RESULT_UNSUPPORTED : Z := 2.
Definition CFG_RESULT_BUSY : Z := 4.
Definition ESPNOW_ROUTE_TTL_DEFAULT_SECONDS : Z := 172800.
Definition ESPNOW_DISCOVER_BACKOFF_START_MS : Z := 500.
Definition ESPNOW_DISCOVER_BACKOFF_2_MS : Z := 1000.
Definition ESPNOW_DISCOVER_BACKOFF_3_MS : Z := 2000.
Definition ESPNOW_DISCOVER_BACKOFF_4_MS : Z := 4000.
Definition ESPNOW_DISCOVER_BACKOFF_CAP_MS : Z := 6000.
Definition ESPNOW_DISCOVER_COLLECTION_WINDOW_MS : Z := 40.
Definition ESPNOW_PREFERRED_RSSI_FLOOR_DBM : Z := -85.
Definition ESPNOW_TOPOLOGY_REFRESH_INTERVAL_MS : Z := 120000.
Definition ESPNOW_RSSI_EMA_ALPHA : Z := 10.
Definition ESPNOW_WIFI_DISCOVER_WAIT_MS : Z := 15000.
Definition ESPNOW_RETRY_INTERVAL_MS : Z := 200.
Definition ESPNOW_WAIT_REJECT_DELAY_MS : Z := 10000.
Definition ESPNOW_MAX_PENDING_DISCOVER : Z := 8.
Definition ESPNOW_JOINED_TO_NORMAL_TIMEOUT_MS : Z := 30000.
Definition ESPNOW_SCHEMA_HASH_LEN : nat := 222.
Definition CFG_CMD_REBOOT : Z := 1.
Definition CFG_CMD_OTA_ENABLE : Z := 2.
Definition CFG_CMD_WIFI_CONNECT : Z := 3.
Definition CFG_CMD_HEARTBEAT_INTERVAL : Z := 4.
Definition CFG_CMD_FORCE_REDISCOVER : Z := 5.
Definition CFG_CMD_SET_PARENT_MAC : Z := 6.
Definition CFG_CMD_RELAY : Z := 7.
Definition SET_PARENT_MAC_FLAG_CLEAR : Z := 1.

(** ** Entities *)
Record espnow_entity_schema_t := {
  entity_index : Z;
  entity_type : Z;
  entity_name : bytes;
  entity_unit : bytes;
  entity_options : bytes;
  entity_id : bytes
}.
Definition blank_entity : espnow_entity_schema_t :=
  {| entity_index := 0; entity_type := 0; entity_name := []; entity_unit := [];
     entity_options := []; entity_id := [] |}.

(** [strnlen(s, n)] bytes of a fixed-size text field. *)
Fixpoint cstring (n : nat) (s : bytes) : bytes :=
  match n, s with
  | S n, c :: s => if c =? 0 then [] else c :: cstring n s
  | _, _ => []
  end.

Definition field_type_code (t : espnow_field_type_t) : Z :=
  match t with
  | FIELD_TYPE_SENSOR => 1 | FIELD_TYPE_SWITCH => 2 | FIELD_TYPE_BINARY => 3
  | FIELD_TYPE_BUTTON => 4 | FIELD_TYPE_NUMBER => 5 | FIELD_TYPE_TEXT => 6
  | FIELD_TYPE_CLIMATE => 7 | FIELD_TYPE_COVER => 8 | FIELD_TYPE_LIGHT => 9
  | FIELD_TYPE_FAN => 10 | FIELD_TYPE_LOCK => 11 | FIELD_TYPE_ALARM => 12
  | FIELD_TYPE_SELECT => 13 | FIELD_TYPE_EVENT => 14 | FIELD_TYPE_HUMIDIFIER => 15
  | FIELD_TYPE_DEHUMIDIFIER => 16 | FIELD_TYPE_VALVE => 17 | FIELD_TYPE_TIME => 18
  | FIELD_TYPE_DATETIME => 19 | FIELD_TYPE_TEXT_SENSOR => 20
  end.
Definition type_is (b : Z) (t : espnow_field_type_t) : bool := b =? field_type_code t.

(** [RETRY_BACKOFF_MS[std::min<size_t>(retries, 3)]]. *)
Definition retry_backoff (retries : Z) : Z := nth (Z.to_nat (Z.min retries 3)) RETRY_BACKOFF_MS 0.
Definition retry_jitter (random : Z) : Z := random mod (ESPNOW_RETRY_JITTER_MS * 2 + 1).

(** ** What a receiver finds in a frame *)
Record ParsedFrame := {
  pf_header : espnow_frame_header_t;
  pf_payload : bytes;
  pf_session_tag : option bytes;
  pf_parent_mac : bytes
}.

(** ** MTU arithmetic *)
Definition espnow_max_plaintext (max_payload : Z) : Z :=
  u16 (max_payload - ESPNOW_HEADER_WITH_PSK_TAG_LEN - ESPNOW_SESSION_TAG_LEN).
Definition espnow_max_plaintext_with_parent (max_payload : Z) : Z :=
  u16 (max_payload - ESPNOW_HEADER_WITH_PSK_TAG_LEN - ESPNOW_PARENT_MAC_LEN
       - ESPNOW_SESSION_TAG_LEN).
Definition espnow_max_entity_fragment (max_payload : Z) : Z :=
  u16 (espnow_max_plaintext max_payload - ESPNOW_ENTITY_PACKET_HEADER_LEN).
Definition espnow_max_entity_fragment_with_parent (max_payload : Z) : Z :=
  u16 (espnow_max_plaintext_with_parent max_payload - ESPNOW_ENTITY_PACKET_HEADER_LEN).
Definition espnow_max_assembly_bytes (max_payload : Z) : Z :=
  u16 (espnow_max_entity_fragment max_payload * 6).
Definition espnow_max_total_fragment_bytes (max_payload : Z) : Z :=
  u16 (espnow_max_assembly_bytes max_payload * 4).

(** ** Lemmas *)
Lemma packet_type_of_code t : packet_type_of (packet_type_code t) = Some t.
Proof. by destruct t. Qed.

Lemma packet_type_of_Some b t : packet_type_of b = Some t -> packet_type_code t = b.
Proof.
  unfold packet_type_of. intros H. apply List.find_some in H as [_ H].
  by apply Z.eqb_eq in H.
Qed.

(** Every encrypted packet type is a valid one. *)
Lemma is_encrypted_is_valid b : is_encrypted_packet b = true -> is_valid_packet_type b = true.
Proof.
  unfold is_encrypted_packet, is_valid_packet_type.
  by destruct (packet_type_of b) as [[]|].
Qed.

(** The hop byte keeps its three fields apart. *)
Lemma hops_make_spec dir count :
  dir = ESPNOW_HOPS_DIR_UP \/ dir = ESPNOW_HOPS_DIR_DOWN -> 0 <= count < 16 ->
  ESPNOW_HOPS_COUNT (ESPNOW_HOPS_MAKE dir count) = count /\
  ESPNOW_HOPS_IS_DOWNSTREAM (ESPNOW_HOPS_MAKE dir count) = (dir =? ESPNOW_HOPS_DIR_DOWN) /\
  has_parent_check (ESPNOW_HOPS_MAKE dir count) = false.
Proof.
  intros Hd Hc.
  assert (count ∈ zseq 0 16) as Hin by (apply elem_of_zseq; lia).
  clear Hc. pattern count. eapply (proj1 (Forall_forall _ _)); [|exact Hin].
  destruct Hd as [-> | ->]; vm_compute zseq; repeat constructor.
Qed.

Lemma hops_upstream_downstream h :
  ESPNOW_HOPS_IS_UPSTREAM h = negb (ESPNOW_HOPS_IS_DOWNSTREAM h).
Proof. unfold ESPNOW_HOPS_IS_UPSTREAM, ESPNOW_HOPS_IS_DOWNSTREAM. by rewrite negb_involutive. Qed.

(** Serial-number arithmetic of the transmit counters: a counter is newer than
    another exactly when it is ahead by less than half the ring. *)
Lemma counter_is_newer_spec c p :
  counter_is_newer c p = true <-> 0 < (c - p) mod 2 ^ 32 < 2 ^ 31.
Proof.
  unfold counter_is_newer, i32, u32. rewrite Z.ltb_lt.
  pose proof (Z.mod_pos_bound (c - p) (2 ^ 32) ltac:(lia)).
  set (d := (c - p) mod 2 ^ 32) in *.
  destruct (Z.lt_ge_cases d (2 ^ 31)).
  - rewrite Z.mod_small by lia. lia.
  - replace (d + 2 ^ 31) with (d - 2 ^ 31 + 1 * 2 ^ 32) by lia.
    rewrite Z.mod_add, Z.mod_small by lia. lia.
Qed.

Lemma counter_is_newer_irrefl c : counter_is_newer c c = false.
Proof.
  apply not_true_iff_false. rewrite counter_is_newer_spec, Z.sub_diag.
  by intros [].
Qed.

Lemma counter_is_newer_asym c p : counter_is_newer c p = true -> counter_is_newer p c = false.
Proof.
  intros H. apply not_true_iff_false. rewrite counter_is_newer_spec in *.
  intros H'. pose proof (Z.div_mod (c - p) (2 ^ 32) ltac:(lia)).
  pose proof (Z.div_mod (p - c) (2 ^ 32) ltac:(lia)). lia.
Qed.

Lemma counter_is_newer_succ p k :
  0 < k < 2 ^ 31 -> counter_is_newer (u32 (p + k)) p = true.
Proof.
  intros H. rewrite counter_is_newer_spec. unfold u32.
  rewrite Zminus_mod_idemp_l. replace (p + k - p) with k by lia.
  rewrite Z.mod_small; lia.
Qed.

(** ** Properties *)

(** A fragment built by [append_entity_payload] is read back by
    [parse_entity_payload] with the same entity, flags, fragment position and
    value, whatever the length of the value (the one-byte length in the header
    is not used by the reader). *)
Lemma parse_append_entity_payload entity_index flags fragment_index fragment_count value :
  0 <= entity_index < 256 -> 0 <= flags < 256 ->
  0 <= fragment_index < fragment_count -> fragment_count < 256 ->
  parse_entity_payload
    (append_entity_payload entity_index flags fragment_index fragment_count value) =
  Some {| view_entity_index := entity_index; view_flags := flags;
          view_fragment_index := fragment_index; view_fragment_count := fragment_count;
          view_value := value |}.
Proof.
  intros He Hf Hi Hc. unfold parse_entity_payload, append_entity_payload.
  set (h := Build_espnow_entity_packet_header_t _ _ _ _ _).
  assert (struct_ok h) as Hok.
  { subst h. cbn. rewrite (proj2 (Z.eqb_neq _ _)) by lia.
    pose proof (u8_range (Z.of_nat (length value))). lia. }
  pose proof (length_to_bytes h Hok) as Hl.
  rewrite of_to_bytes by done. rewrite length_app, Hl.
  rewrite (proj2 (Nat.ltb_ge _ _)) by lia. subst h; cbn [eh_fragment_count eh_fragment_index].
  rewrite (proj2 (Z.eqb_neq fragment_count 0)) by lia.
  rewrite (proj2 (Z.eqb_neq fragment_count 0)), (proj2 (Z.leb_gt _ _)) by lia.
  by rewrite drop_app_length'.
Qed.

(** an identity descriptor built by a remote is accepted by
    [parse_identity_descriptor_payload] with index 0, every integer field intact
    and every text field cut or zero-padded to its array. *)
Theorem identity_descriptor_roundtrip esphome_name node_label firmware_epoch project_name
    project_version total_entities max_frame_payload chip_model build_date build_time md5 :
  Forall bytes_ok [esphome_name; node_label; project_name; project_version; build_date;
                   build_time; md5] ->
  0 <= firmware_epoch < 2 ^ 32 -> 0 <= total_entities < 256 ->
  0 <= max_frame_payload < 65536 -> 0 <= chip_model < 2 ^ 32 ->
  parse_identity_descriptor_payload
    (append_identity_descriptor_payload esphome_name node_label firmware_epoch project_name
       project_version total_entities max_frame_payload chip_model build_date build_time md5) =
  Some ({| idv_esphome_name := pad_to 32 esphome_name; idv_node_label := pad_to 64 node_label;
           idv_firmware_epoch := firmware_epoch; idv_project_name := pad_to 32 project_name;
           idv_project_version := pad_to 16 project_version;
           idv_total_entities := total_entities; idv_max_frame_payload := max_frame_payload;
           idv_chip_model := chip_model; idv_build_date := pad_to 16 build_date;
           idv_build_time := pad_to 16 build_time; idv_firmware_md5 := pad_to 16 md5 |}, 0).
Proof.
  intros Hs He Ht Hm Hc. unfold parse_identity_descriptor_payload, append_identity_descriptor_payload.
  set (h := Build_espnow_identity_push_t _ _ _ _ _ _ _ _ _ _ _ _ _).
  assert (struct_ok h) as Hok.
  { subst h. cbn. rewrite !length_pad_to. decompose_Forall_hyps.
    repeat split; first [lia | by apply pad_to_ok | done]. }
  pose proof (length_to_bytes h Hok) as Hl. pose proof (of_to_bytes h [] Hok) as Hr.
  rewrite app_nil_r in Hr. rewrite Hr, Hl.
  by rewrite Nat.ltb_irrefl, Nat.eqb_refl.
Qed.

Lemma identity_descriptor_roundtrip_witness :
  option_map snd (parse_identity_descriptor_payload
    (append_identity_descriptor_payload (str "leaf") (str "Leaf") 7 (str "p") (str "1") 2 250 5
       (str "d") (str "t") (str "m"))) = Some 0.
Proof.
  rewrite (identity_descriptor_roundtrip (str "leaf") (str "Leaf") 7 (str "p") (str "1") 2 250 5
    (str "d") (str "t") (str "m")); try lia; [done|].
  repeat constructor; unfold byte_range; simpl; lia.
Defined.

(** the serial-number comparison of transmit counters accepts exactly the
    counters that are ahead by 1 .. 2^31-1 on the 32-bit ring, so a strictly
    increasing sender is always newer, a replayed counter never is, and the
    relation is asymmetric across wrap-around. *)
Theorem counter_order p k :
  0 < k < 2 ^ 31 ->
  counter_is_newer (u32 (p + k)) p = true /\
  counter_is_newer p (u32 (p + k)) = false /\
  counter_is_newer p p = false.
Proof.
  intros H. split_and!.
  - by apply counter_is_newer_succ.
  - by apply counter_is_newer_asym, counter_is_newer_succ.
  - apply counter_is_newer_irrefl.
Qed.

Lemma counter_order_witness :
  counter_is_newer 2 4294967295 = true /\ counter_is_newer 4294967295 2 = false /\
  counter_is_newer 4294967295 4294967295 = false.
Proof. apply (counter_order 4294967295 3). lia. Defined.
