(* ===== verification/IncrementBuffer.v ===== *)
(** * IncrementBuffer: the receiver's reassembly buffer

    Models [struct IncrementBuffer] of
    [src/device_code/components/esp_tree_remote/remote_file_receiver.h/.cpp]:
    one increment's bytes with a received bitmap and two counters.  The
    abstraction [ib_set] is the set of chunk numbers received; the operations
    refine insertion into that set and [is_complete] decides whether it is full. *)
From S2P Require Import Prelude.

Record IncrementBuffer := {
  ib_data : bytes;
  received_bitmap : bytes;
  chunks_received : Z;
  chunks_expected : Z
}.
#[export] Instance eta_increment_buffer : Eta IncrementBuffer := fun b =>
  Build_IncrementBuffer (ib_data b) (received_bitmap b) (chunks_received b) (chunks_expected b).

(** [IncrementBuffer{}]. *)
Definition empty_increment_buffer : IncrementBuffer :=
  {| ib_data := []; received_bitmap := []; chunks_received := 0; chunks_expected := 0 |}.

Definition ib_reset (num_chunks data_size : Z) : IncrementBuffer :=
  {| ib_data := replicate (Z.to_nat data_size) 0;
     received_bitmap := replicate (Z.to_nat ((num_chunks + 7) / 8)) 0;
     chunks_received := 0;
     chunks_expected := num_chunks |}.

Definition is_complete (b : IncrementBuffer) : bool := chunks_received b =? chunks_expected b.

Definition bit_mask (chunk_in_increment : Z) : Z := u8 (Z.shiftl 1 (chunk_in_increment mod 8)).

Definition is_chunk_received (b : IncrementBuffer) (chunk_in_increment : Z) : bool :=
  let byte_idx := Z.to_nat (chunk_in_increment / 8) in
  match received_bitmap b !! byte_idx with
  | None => false
  | Some byte => negb (Z.land byte (bit_mask chunk_in_increment) =? 0)
  end.

Definition mark_chunk_received (b : IncrementBuffer) (chunk_in_increment : Z) : IncrementBuffer :=
  let byte_idx := Z.to_nat (chunk_in_increment / 8) in
  match received_bitmap b !! byte_idx with
  | Some byte =>
    if Z.land byte (bit_mask chunk_in_increment) =? 0
    then b <| received_bitmap := <[byte_idx := Z.lor byte (bit_mask chunk_in_increment)]> (received_bitmap b) |>
           <| chunks_received := u16 (chunks_received b + 1) |>
    else b
  | None => b
  end.

(** ** Abstraction and invariant *)
Definition chunk_numbers (n : Z) : gset Z := list_to_set (zseq 0 (Z.to_nat n)).

Definition ib_set (b : IncrementBuffer) : gset Z :=
  filter (fun i => is_chunk_received b i = true) (chunk_numbers (chunks_expected b)).

Record buffer_ok (b : IncrementBuffer) : Prop := {
  expected_range : 0 <= chunks_expected b < 65536;
  bitmap_length : length (received_bitmap b) = Z.to_nat ((chunks_expected b + 7) / 8);
  bitmap_bytes : bytes_ok (received_bitmap b);
  received_count : chunks_received b = Z.of_nat (size (ib_set b))
}.

Lemma elem_of_chunk_numbers n i : i ∈ chunk_numbers n <-> 0 <= i < n.
Proof. unfold chunk_numbers. rewrite elem_of_list_to_set, elem_of_zseq. lia. Qed.

Lemma elem_of_ib_set b i :
  i ∈ ib_set b <-> 0 <= i < chunks_expected b /\ is_chunk_received b i = true.
Proof. unfold ib_set. rewrite elem_of_filter, elem_of_chunk_numbers. tauto. Qed.

Lemma size_chunk_numbers n : size (chunk_numbers n) = Z.to_nat n.
Proof.
  unfold chunk_numbers. rewrite size_list_to_set; [apply length_zseq|].
  unfold zseq. apply NoDup_fmap_2_strong; [|apply NoDup_seq]. intros; lia.
Qed.

Lemma bit_mask_eq i : bit_mask i = Z.shiftl 1 (i mod 8).
Proof.
  unfold bit_mask. apply u8_small. apply shiftl_1_byte. apply Z.mod_pos_bound. lia.
Qed.

Lemma is_chunk_received_testbit b i :
  is_chunk_received b i =
  match received_bitmap b !! Z.to_nat (i / 8) with
  | None => false | Some byte => Z.testbit byte (i mod 8) end.
Proof.
  unfold is_chunk_received. destruct (_ !! _); [|done].
  rewrite bit_mask_eq, land_bit_zero by (apply Z.mod_pos_bound; lia).
  apply negb_involutive.
Qed.

(** ** Operations preserve the invariant and refine set insertion *)
Lemma is_chunk_received_reset n d i : is_chunk_received (ib_reset n d) i = false.
Proof.
  rewrite is_chunk_received_testbit. cbn [received_bitmap ib_reset].
  destruct (_ !! _) eqn:E; [|done]. apply lookup_replicate in E as [-> _].
  apply Z.bits_0.
Qed.

Lemma ib_set_reset n d : ib_set (ib_reset n d) = ∅.
Proof.
  apply set_eq. intros i. rewrite elem_of_ib_set, is_chunk_received_reset.
  split; [by intros []|intros []%not_elem_of_empty].
Qed.

Lemma buffer_ok_reset n d : 0 <= n < 65536 -> buffer_ok (ib_reset n d).
Proof.
  intros Hn. constructor; cbn [chunks_expected received_bitmap chunks_received ib_reset].
  - done.
  - apply length_replicate.
  - apply Forall_replicate. unfold byte_range; lia.
  - by rewrite ib_set_reset, size_empty.
Qed.

Lemma bitmap_lookup_in_range b i :
  buffer_ok b -> 0 <= i < chunks_expected b ->
  exists byte, received_bitmap b !! Z.to_nat (i / 8) = Some byte /\ byte_range byte.
Proof.
  intros Hb Hi. destruct (lookup_lt_is_Some_2 (received_bitmap b) (Z.to_nat (i / 8))) as [byte E].
  - rewrite (bitmap_length b Hb).
    apply Z2Nat.inj_lt; [apply Z.div_pos; lia|apply Z.div_pos; lia|].
    apply Z.div_lt_upper_bound; [lia|].
    pose proof (Z.div_mod (chunks_expected b + 7) 8 ltac:(lia)).
    pose proof (Z.mod_pos_bound (chunks_expected b + 7) 8 ltac:(lia)). lia.
  - exists byte. split; [done|]. by eapply Forall_lookup_1; [apply bitmap_bytes|].
Qed.

Lemma is_chunk_received_mark b i j :
  buffer_ok b -> 0 <= i < chunks_expected b -> 0 <= j ->
  is_chunk_received (mark_chunk_received b i) j = (is_chunk_received b j || (i =? j)).
Proof.
  intros Hb Hi Hj. destruct (bitmap_lookup_in_range b i Hb Hi) as (byte & E & Hbyte).
  pose proof (Z.mod_pos_bound i 8 ltac:(lia)) as Hmi.
  pose proof (Z.mod_pos_bound j 8 ltac:(lia)) as Hmj.
  rewrite !is_chunk_received_testbit. unfold mark_chunk_received. rewrite E.
  rewrite bit_mask_eq, land_bit_zero by lia.
  destruct (Z.testbit byte (i mod 8)) eqn:Et; simpl.
  - destruct (Z.eqb_spec i j) as [<-|]; [by rewrite E, Et|by rewrite orb_false_r].
  - destruct (decide (Z.to_nat (i / 8) = Z.to_nat (j / 8))) as [Hq|Hq].
    + rewrite <-Hq, list_lookup_insert_eq, E by (by eapply lookup_lt_Some).
      rewrite testbit_lor_bit by lia. f_equal.
      apply Z2Nat.inj in Hq; [|apply Z.div_pos; lia..].
      pose proof (Z.div_mod i 8 ltac:(lia)). pose proof (Z.div_mod j 8 ltac:(lia)).
      zcase; lia.
    + rewrite list_lookup_insert_ne by done.
      destruct (Z.eqb_spec i j) as [->|]; [done|by rewrite orb_false_r].
Qed.

Lemma chunks_expected_mark b i : chunks_expected (mark_chunk_received b i) = chunks_expected b.
Proof. unfold mark_chunk_received. by repeat case_match. Qed.

Lemma ib_set_mark b i :
  buffer_ok b -> 0 <= i < chunks_expected b ->
  ib_set (mark_chunk_received b i) = {[i]} ∪ ib_set b.
Proof.
  intros Hb Hi. apply set_eq. intros j.
  rewrite elem_of_union, elem_of_singleton, !elem_of_ib_set, chunks_expected_mark.
  split.
  - intros [Hj Hr]. rewrite is_chunk_received_mark in Hr by (done || lia).
    apply orb_true_iff in Hr as [Hr| ->%Z.eqb_eq]; auto.
  - intros [->|[Hj Hr]]; (split; [done|]); rewrite is_chunk_received_mark by (done || lia).
    + by rewrite Z.eqb_refl, orb_true_r.
    + by rewrite Hr.
Qed.

Lemma ib_set_size_le b : buffer_ok b -> Z.of_nat (size (ib_set b)) <= chunks_expected b.
Proof.
  intros Hb. pose proof (expected_range b Hb).
  assert (size (ib_set b) <= size (chunk_numbers (chunks_expected b)))%nat as Hs.
  { apply subseteq_size. intros i. rewrite elem_of_ib_set, elem_of_chunk_numbers. tauto. }
  rewrite size_chunk_numbers in Hs. lia.
Qed.

Lemma mark_received_noop b i :
  buffer_ok b -> 0 <= i < chunks_expected b -> is_chunk_received b i = true ->
  mark_chunk_received b i = b.
Proof.
  intros Hb Hi. destruct (bitmap_lookup_in_range b i Hb Hi) as (byte & E & _).
  unfold is_chunk_received, mark_chunk_received. rewrite E. by destruct (_ =? 0).
Qed.

Lemma buffer_ok_mark b i :
  buffer_ok b -> 0 <= i < chunks_expected b -> buffer_ok (mark_chunk_received b i).
Proof.
  intros Hb Hi. destruct (bitmap_lookup_in_range b i Hb Hi) as (byte & E & Hbyte).
  destruct (is_chunk_received b i) eqn:Er; [by rewrite mark_received_noop|].
  pose proof (ib_set_mark b i Hb Hi) as Hset.
  assert (i ∉ ib_set b) as Hni by (rewrite elem_of_ib_set; intros []; congruence).
  assert (size (ib_set (mark_chunk_received b i)) = S (size (ib_set b))) as Hsize.
  { rewrite Hset, size_union by (by apply disjoint_singleton_l). by rewrite size_singleton. }
  assert (Z.of_nat (S (size (ib_set b))) <= chunks_expected b) as Hle.
  { rewrite <-Hsize. rewrite Hset.
    assert (size ({[i]} ∪ ib_set b) <= size (chunk_numbers (chunks_expected b)))%nat as Hs.
    { apply subseteq_size. intros j. rewrite elem_of_union, elem_of_singleton, elem_of_ib_set,
        elem_of_chunk_numbers. intros [->|]; tauto. }
    rewrite size_chunk_numbers in Hs. lia. }
  pose proof (expected_range b Hb).
  constructor; rewrite ?chunks_expected_mark; try done.
  - rewrite <-(bitmap_length b Hb). unfold mark_chunk_received.
    repeat case_match; cbn; by rewrite ?length_insert.
  - pose proof (bitmap_bytes b Hb). unfold mark_chunk_received. repeat case_match; cbn; try done.
    simplify_eq. apply Forall_insert; [done|]. rewrite bit_mask_eq. apply lor_byte; [done|].
    apply shiftl_1_byte, Z.mod_pos_bound. lia.
  - rewrite Hsize. unfold is_chunk_received in Er. unfold mark_chunk_received.
    rewrite E in *. apply negb_false_iff in Er. rewrite Er. cbn [chunks_received upd].
    rewrite (received_count b Hb). rewrite u16_small; lia.
Qed.

(** The buffer is complete exactly when every chunk number has been received. *)
Lemma is_complete_iff b :
  buffer_ok b ->
  is_complete b = true <-> forall i, 0 <= i < chunks_expected b -> is_chunk_received b i = true.
Proof.
  intros Hb. pose proof (expected_range b Hb).
  unfold is_complete. rewrite Z.eqb_eq, (received_count b Hb). split.
  - intros Hc i Hi.
    assert (ib_set b = chunk_numbers (chunks_expected b)) as Heq.
    { apply set_subseteq_size_eq.
      - intros j. rewrite elem_of_ib_set, elem_of_chunk_numbers. tauto.
      - rewrite size_chunk_numbers. lia. }
    assert (i ∈ ib_set b) as Hin by (rewrite Heq; by apply elem_of_chunk_numbers).
    apply elem_of_ib_set in Hin. tauto.
  - intros Hall.
    assert (ib_set b = chunk_numbers (chunks_expected b)) as ->.
    { apply set_eq. intros j. rewrite elem_of_ib_set, elem_of_chunk_numbers. naive_solver. }
    rewrite size_chunk_numbers. lia.
Qed.

(** ** Marking a sequence of chunks *)
Lemma mark_all_ok n d (l : list Z) :
  0 <= n < 65536 -> Forall (fun i => 0 <= i < n) l ->
  let b := fold_left mark_chunk_received l (ib_reset n d) in
  buffer_ok b /\ chunks_expected b = n /\ ib_set b = list_to_set l.
Proof.
  intros Hn. induction l as [|i l IH] using rev_ind; intros Hl; cbv zeta.
  - split; [by apply buffer_ok_reset|]. split; [done|]. apply ib_set_reset.
  - apply Forall_app in Hl as [Hl [Hi _]%Forall_cons]. destruct (IH Hl) as (Hb & He & Hs).
    rewrite fold_left_app. cbn [fold_left].
    assert (0 <= i < chunks_expected (fold_left mark_chunk_received l (ib_reset n d)))
      as Hi' by (by rewrite He).
    split; [by apply buffer_ok_mark|]. split; [by rewrite chunks_expected_mark|].
    rewrite ib_set_mark, Hs by done. set_solver.
Qed.

(** C32: The increment buffer refines a set of chunk numbers: after a reset and any sequence
    of marks, in any order and with repetitions, a chunk is reported received exactly when
    it was marked, the counter is the number of distinct chunks, and the buffer is complete
    exactly when every chunk of the increment was marked. *)
Theorem increment_buffer_refines_set n d (l : list Z) :
  0 <= n < 65536 -> Forall (fun i => 0 <= i < n) l ->
  let b := fold_left mark_chunk_received l (ib_reset n d) in
  (forall i, 0 <= i < n -> is_chunk_received b i = true <-> i ∈ l) /\
  chunks_received b = Z.of_nat (size (list_to_set l : gset Z)) /\
  (is_complete b = true <-> forall i, 0 <= i < n -> i ∈ l).
Proof.
  intros Hn Hl. destruct (mark_all_ok n d l Hn Hl) as (Hb & He & Hs). cbv zeta.
  assert (forall i, 0 <= i < n -> is_chunk_received (fold_left mark_chunk_received l (ib_reset n d)) i
            = true <-> i ∈ l) as Hr.
  { intros i Hi. rewrite <-(elem_of_list_to_set (C := gset Z)), <-Hs, elem_of_ib_set, He. tauto. }
  split; [done|]. split; [by rewrite (received_count _ Hb), Hs|].
  rewrite (is_complete_iff _ Hb), He. split; intros H i Hi; by apply Hr, H.
Qed.

Lemma increment_buffer_refines_set_witness :
  let b := fold_left mark_chunk_received [9; 0; 9; 3] (ib_reset 10 20) in
  is_chunk_received b 9 = true /\ chunks_received b = 3.
Proof.
  destruct (increment_buffer_refines_set 10 20 [9; 0; 9; 3]) as (H1 & H2 & _).
  - lia.
  - repeat constructor; lia.
  - split; [|by rewrite H2]. apply H1; [lia|]. set_solver.
Defined.
