(* ===== verification/FileReceiver.v ===== *)
(** * FileReceiver: the remote's side of a file transfer

    Models [class FileReceiver] of
    [src/device_code/components/esp_tree_remote/remote_file_receiver.h/.cpp]
    (the state machine, not the OTA action handler, which is in
    [OTAFlashHandler]).  The receiver talks to its surroundings through two
    interfaces: [ReceiverEnv] is the clock, the acknowledgement callback and
    the restart call; [ActionHandler] is the abstract class of the source.
    Handlers are reached through pointers: [handler_heap] is the store the
    pointers of [handlers_] and [active_handler_] point into. *)
From S2P Require Import Prelude Wire IncrementBuffer.

Record AnnounceResponse := {
  ar_accepted : bool;
  ar_reject_reason : Z;
  ar_negotiated_chunk_size : Z
}.
#[export] Instance eta_announce_response : Eta AnnounceResponse := fun r =>
  Build_AnnounceResponse (ar_accepted r) (ar_reject_reason r) (ar_negotiated_chunk_size r).

Record ChunkResponse := { cr_accepted : bool; cr_abort_reason : Z }.

Class ReceiverEnv (W : Type) := {
  millis : W -> Z;
  send_ack_fn : bytes -> W -> bool * W;
  esp_restart : W -> W
}.

(** [class ActionHandler].  [on_announce] receives and returns the
    in-out parameter [buffer_size_kb]. *)
Class ActionHandler (H W : Type) := {
  on_announce : Z -> bytes -> Z -> Z -> bytes -> Z -> M (H * W) (AnnounceResponse * Z);
  on_data : Z -> bytes -> M (H * W) ChunkResponse;
  on_end : M (H * W) Z;
  on_abort : Z -> M (H * W) unit;
  handler_is_receiving : H -> bool;
  wants_restart_after_complete : H -> bool
}.

Inductive State :=
  | IDLE | ANNOUNCED | RECEIVING | CHECKING | WRITING | WAITING_END | VERIFYING | COMPLETE.
#[export] Instance State_eq_dec : EqDecision State.
Proof. solve_decision. Defined.
Definition state_is (a b : State) : bool := bool_decide (a = b).

Definition kRestartDelayMs : Z := 250.
Definition kCompleteAckRetries : Z := 5.
Definition kCompleteAckIntervalMs : Z := 1000.

Record FileReceiver (H : Type) := {
  state_ : State;
  active_handler_ : option Z;
  handlers_ : gmap Z Z;
  handler_heap : gmap Z H;
  increment_buf_ : IncrementBuffer;
  file_size_ : Z;
  chunk_payload_size_ : Z;
  buffer_size_kb_ : Z;
  chunks_per_increment_ : Z;
  total_increments_ : Z;
  chunks_in_last_increment_ : Z;
  current_increment_ : Z;
  total_chunks_ : Z;
  action_ : Z;
  file_id_ : bytes;
  last_announce_md5_ : bytes;
  announce_tx_counter_ : Z;
  last_activity_ms_ : Z;
  last_blast_complete_tx_counter_ : Z;
  retransmit_round_ : Z;
  increment_written_ : bool;
  local_mac_ : bytes;
  send_ack_fn_set : bool;
  ota_enabled_ : bool;
  deep_sleep_active_ : bool;
  max_chunk_size_ : Z;
  restart_pending_ : bool;
  restart_due_ms_ : Z;
  in_complete_phase_ : bool;
  complete_action_ : Z;
  complete_result_ : Z;
  complete_ack_remaining_ : Z;
  next_complete_ack_ms_ : Z
}.
Arguments state_ {H}. Arguments active_handler_ {H}. Arguments handlers_ {H}.
Arguments handler_heap {H}. Arguments increment_buf_ {H}. Arguments file_size_ {H}.
Arguments chunk_payload_size_ {H}. Arguments buffer_size_kb_ {H}.
Arguments chunks_per_increment_ {H}. Arguments total_increments_ {H}.
Arguments chunks_in_last_increment_ {H}. Arguments current_increment_ {H}.
Arguments total_chunks_ {H}. Arguments action_ {H}. Arguments file_id_ {H}.
Arguments last_announce_md5_ {H}. Arguments announce_tx_counter_ {H}.
Arguments last_activity_ms_ {H}. Arguments last_blast_complete_tx_counter_ {H}.
Arguments retransmit_round_ {H}. Arguments increment_written_ {H}. Arguments local_mac_ {H}.
Arguments send_ack_fn_set {H}. Arguments ota_enabled_ {H}. Arguments deep_sleep_active_ {H}.
Arguments max_chunk_size_ {H}. Arguments restart_pending_ {H}. Arguments restart_due_ms_ {H}.
Arguments in_complete_phase_ {H}. Arguments complete_action_ {H}.
Arguments complete_result_ {H}. Arguments complete_ack_remaining_ {H}.
Arguments next_complete_ack_ms_ {H}.
#[export] Instance eta_file_receiver H : Eta (FileReceiver H) := fun r =>
  Build_FileReceiver H (state_ r) (active_handler_ r) (handlers_ r) (handler_heap r)
    (increment_buf_ r) (file_size_ r) (chunk_payload_size_ r) (buffer_size_kb_ r)
    (chunks_per_increment_ r) (total_increments_ r) (chunks_in_last_increment_ r)
    (current_increment_ r) (total_chunks_ r) (action_ r) (file_id_ r) (last_announce_md5_ r)
    (announce_tx_counter_ r) (last_activity_ms_ r) (last_blast_complete_tx_counter_ r)
    (retransmit_round_ r) (increment_written_ r) (local_mac_ r) (send_ack_fn_set r)
    (ota_enabled_ r) (deep_sleep_active_ r) (max_chunk_size_ r) (restart_pending_ r)
    (restart_due_ms_ r) (in_complete_phase_ r) (complete_action_ r) (complete_result_ r)
    (complete_ack_remaining_ r) (next_complete_ack_ms_ r).

Section receiver.
Context {H W : Type} `{!ReceiverEnv W} `{!ActionHandler H W}.

Abbreviation St := (FileReceiver H * W)%type.
Implicit Types (r : FileReceiver H) (w : W).

(** Reading and writing [this]; reading the clock. *)
Definition this : M St (FileReceiver H) := gets fst.
Definition update (f : FileReceiver H -> FileReceiver H) : M St unit :=
  modify (fun s => (f s.1, s.2)).
Definition millis_ : M St Z := gets (fun s => millis s.2).

(** A virtual call through a handler pointer.  No pointer of the receiver
    dangles (the invariant [heap_ok]); [d] is the value of a call that the
    invariant excludes. *)
Definition invoke {A} (p : Z) (d : A) (op : M (H * W) A) : M St A := fun s =>
  match handler_heap s.1 !! p with
  | Some h => let '(a, (h', w')) := op (h, s.2) in
              (a, (s.1 <| handler_heap ::= <[p := h']> |>, w'))
  | None => (d, s)
  end.

Definition invoke_active {A} (d : A) (op : M (H * W) A) : M St A :=
  r ← this; match active_handler_ r with Some p => invoke p d op | None => mret d end.

(** ** Configuration *)
Definition set_announce_tx_counter (c : Z) : M St unit :=
  update (fun r => r <| announce_tx_counter_ := c |>).
Definition set_blast_complete_tx_counter (c : Z) : M St unit :=
  update (fun r => r <| last_blast_complete_tx_counter_ := c |>).
Definition set_ota_enabled (b : bool) : M St unit := update (fun r => r <| ota_enabled_ := b |>).
Definition set_deep_sleep_active (b : bool) : M St unit :=
  update (fun r => r <| deep_sleep_active_ := b |>).
Definition set_send_ack_fn (is_set : bool) : M St unit :=
  update (fun r => r <| send_ack_fn_set := is_set |>).
Definition set_local_mac (mac : bytes) : M St unit := update (fun r => r <| local_mac_ := mac |>).

Definition register_handler (action : Z) (handler : option Z) : M St unit :=
  match handler with
  | None => update (fun r => r <| handlers_ ::= delete action |>)
  | Some p => update (fun r => r <| handlers_ ::= <[action := p]> |>)
  end.

Definition is_receiving r : bool := negb (state_is (state_ r) IDLE).

(** ** Acknowledgements *)
Definition send_ack_ (result : Z) (trailing : bytes) : M St bool :=
  r ← this;
  if negb (send_ack_fn_set r) then mret false
  else
    let payload := to_bytes {|
      ack_type := packet_type_code PKT_FILE_TRANSFER;
      ack_result := result;
      ack_ref_tx_counter := if result =? ESPNOW_FILE_ACK_GAPS
                            then last_blast_complete_tx_counter_ r
                            else announce_tx_counter_ r |} ++ trailing in
    fun s => let '(ok, w') := send_ack_fn payload s.2 in (ok, (s.1, w')).

Definition send_ack_accept_ (chunk_size action buffer_size_kb : Z) : M St bool :=
  send_ack_ ESPNOW_FILE_ACK_ACCEPT (le_bytes 2 chunk_size ++ [u8 buffer_size_kb; action]).
Definition send_ack_reject_ (action reason : Z) : M St bool :=
  send_ack_ ESPNOW_FILE_ACK_REJECT [action; reason].
Definition send_gaps_ack_ (bitmap : bytes) : M St bool :=
  send_ack_ ESPNOW_FILE_ACK_GAPS (le_bytes 2 (u16 (Z.of_nat (length bitmap))) ++ bitmap).
Definition send_ack_complete_ (action result : Z) : M St bool :=
  send_ack_ ESPNOW_FILE_ACK_COMPLETE [action; result].
Definition send_ack_abort_ (reason : Z) : M St bool :=
  send_ack_ ESPNOW_FILE_ACK_ABORT [reason].

(** ** Increment geometry *)
Definition compute_increment_geometry_ r : FileReceiver H :=
  let effective_kb := Z.min (buffer_size_kb_ r) ESPNOW_MAX_INCREMENT_KB in
  let increment_data_size := u32 (effective_kb * 1024) in
  let cpi0 := u16 (increment_data_size / chunk_payload_size_ r) in
  let cpi := if cpi0 =? 0 then 1 else cpi0 in
  let tc := u32 (file_size_ r / chunk_payload_size_ r +
                 (if file_size_ r mod chunk_payload_size_ r =? 0 then 0 else 1)) in
  let ti0 := u16 (tc / cpi + (if tc mod cpi =? 0 then 0 else 1)) in
  let ti := if ti0 =? 0 then 1 else ti0 in
  let last0 := u16 (u32 (tc - u32 ((ti - 1) * cpi))) in
  let last := if last0 =? 0 then cpi else last0 in
  r <| chunks_per_increment_ := cpi |> <| total_chunks_ := tc |>
    <| total_increments_ := ti |> <| chunks_in_last_increment_ := last |>.

Definition chunks_in_increment_ r (increment_index : Z) : Z :=
  if total_increments_ r <=? increment_index + 1 then chunks_in_last_increment_ r
  else chunks_per_increment_ r.

Definition expected_chunk_len_ r (sequence : Z) : Z :=
  if (chunk_payload_size_ r =? 0) || (total_chunks_ r <=? sequence) then 0
  else
    let offset := u64 (sequence * chunk_payload_size_ r) in
    if file_size_ r <=? offset then 0
    else Z.min (file_size_ r - offset) (chunk_payload_size_ r).

(** ** Reset, abort and restart *)
Definition reset_ : M St unit := update (fun r =>
  r <| state_ := IDLE |>
    <| active_handler_ := None |>
    <| file_size_ := 0 |>
    <| chunk_payload_size_ := 0 |>
    <| buffer_size_kb_ := ESPNOW_MAX_INCREMENT_KB |>
    <| chunks_per_increment_ := 0 |>
    <| total_increments_ := 0 |>
    <| chunks_in_last_increment_ := 0 |>
    <| current_increment_ := 0 |>
    <| total_chunks_ := 0 |>
    <| action_ := 0 |>
    <| file_id_ := replicate 12 0 |>
    <| last_announce_md5_ := replicate 16 0 |>
    <| announce_tx_counter_ := 0 |>
    <| last_activity_ms_ := 0 |>
    <| last_blast_complete_tx_counter_ := 0 |>
    <| retransmit_round_ := 0 |>
    <| increment_written_ := false |>
    <| increment_buf_ := empty_increment_buffer |>
    <| in_complete_phase_ := false |>
    <| complete_ack_remaining_ := 0 |>
    <| next_complete_ack_ms_ := 0 |>).

Definition schedule_restart_ : M St unit :=
  now ← millis_;
  update (fun r => r <| restart_pending_ := true |> <| restart_due_ms_ := u32 (now + kRestartDelayMs) |>).

Definition perform_restart_if_due_ : M St unit :=
  r ← this;
  if negb (restart_pending_ r) then mret tt
  else
    now ← millis_;
    if i32 (u32 (now - restart_due_ms_ r)) <? 0 then mret tt
    else update (fun r => r <| restart_pending_ := false |>);;
         modify (fun s => (s.1, esp_restart s.2)).

Definition abort (reason : Z) (notify_sender : bool) : M St unit :=
  invoke_active tt (on_abort reason);;
  (if notify_sender then send_ack_abort_ reason;; mret tt else mret tt);;
  reset_.

(** ** ANNOUNCE *)
Definition same_announce r (a : espnow_file_announce_t) : bool :=
  bytes_eqb (file_id_ r) (fa_file_id a) && (file_size_ r =? fa_file_size a) &&
  (action_ r =? fa_action a) && bytes_eqb (last_announce_md5_ r) (fa_md5 a).

Definition handler_busy r : bool :=
  match active_handler_ r with
  | Some p => match handler_heap r !! p with Some h => handler_is_receiving h | None => false end
  | None => false
  end.

(** The parts of [handle_announce_] after the handler has accepted and the
    chunk size has been checked: adopt the transfer, start the first increment
    and acknowledge. *)
Definition adopt_announce_ (a : espnow_file_announce_t) (p chunk buffer_kb : Z) r : FileReceiver H :=
  compute_increment_geometry_
    (r <| active_handler_ := Some p |>
       <| file_size_ := fa_file_size a |>
       <| chunk_payload_size_ := chunk |>
       <| action_ := fa_action a |>
       <| file_id_ := fa_file_id a |>
       <| last_announce_md5_ := fa_md5 a |>
       <| buffer_size_kb_ := buffer_kb |>).

Definition start_first_increment_ r : FileReceiver H :=
  let first_inc_chunks := chunks_in_increment_ r 0 in
  r <| current_increment_ := 0 |> <| retransmit_round_ := 0 |> <| increment_written_ := false |>
    <| increment_buf_ := ib_reset first_inc_chunks (u32 (first_inc_chunks * chunk_payload_size_ r)) |>
    <| state_ := ANNOUNCED |>.

Definition accept_announce_ (a : espnow_file_announce_t) (p chunk buffer_kb : Z) : M St bool :=
  update (adopt_announce_ a p chunk buffer_kb);;
  r ← this;
  if (total_chunks_ r =? 0) || (total_increments_ r =? 0) || (chunks_per_increment_ r =? 0) then
    invoke_active tt (on_abort ESPNOW_FILE_ABORT_FLASH_ERROR);;
    reset_;;
    send_ack_reject_ (fa_action a) ESPNOW_FILE_REJECT_UNSUPPORTED
  else
    update start_first_increment_;;
    r ← this;
    ack_sent ← send_ack_accept_ (chunk_payload_size_ r) (action_ r) (buffer_size_kb_ r);
    if negb ack_sent then
      invoke_active tt (on_abort ESPNOW_FILE_ABORT_SEND_FAILURE);;
      reset_;;
      mret false
    else
      update (fun r => r <| state_ := RECEIVING |>);;
      mret true.

Definition handle_announce_ (a : espnow_file_announce_t) : M St bool :=
  r ← this;
  if negb (ota_enabled_ r) && (fa_action a =? ESPNOW_FILE_ACTION_OTA_FLASH) then
    send_ack_reject_ (fa_action a) ESPNOW_FILE_REJECT_UNSUPPORTED
  else if deep_sleep_active_ r then
    send_ack_reject_ (fa_action a) ESPNOW_FILE_REJECT_DEEP_SLEEP
  else if negb (state_is (state_ r) IDLE) || handler_busy r then
    if same_announce r a &&
       (state_is (state_ r) ANNOUNCED || state_is (state_ r) RECEIVING ||
        state_is (state_ r) CHECKING || state_is (state_ r) WRITING)
    then send_ack_accept_ (chunk_payload_size_ r) (action_ r) (buffer_size_kb_ r)
    else send_ack_reject_ (fa_action a) ESPNOW_FILE_REJECT_ALREADY
  else if (fa_file_size a =? 0) || (fa_chunk_size a =? 0) then
    send_ack_reject_ (fa_action a) ESPNOW_FILE_REJECT_UNSUPPORTED
  else if 1073741824 <? fa_file_size a then
    send_ack_reject_ (fa_action a) ESPNOW_FILE_REJECT_NO_SPACE
  else match handlers_ r !! fa_action a with
  | None => send_ack_reject_ (fa_action a) ESPNOW_FILE_REJECT_UNSUPPORTED
  | Some p =>
    '(response, remote_buffer_size_kb) ←
      invoke p ({| ar_accepted := false; ar_reject_reason := ESPNOW_FILE_REJECT_UNSUPPORTED;
                   ar_negotiated_chunk_size := 0 |}, ESPNOW_MAX_INCREMENT_KB)
        (on_announce (fa_file_size a) (fa_md5 a) (fa_chunk_size a) (fa_action a)
                     (fa_file_id a) ESPNOW_MAX_INCREMENT_KB);
    if negb (ar_accepted response) then
      send_ack_reject_ (fa_action a) (ar_reject_reason response)
    else
      r ← this;
      if (ar_negotiated_chunk_size response =? 0) ||
         (fa_chunk_size a <? ar_negotiated_chunk_size response) ||
         (max_chunk_size_ r <? ar_negotiated_chunk_size response) then
        invoke p tt (on_abort ESPNOW_FILE_ABORT_FLASH_ERROR);;
        send_ack_reject_ (fa_action a) ESPNOW_FILE_REJECT_UNSUPPORTED
      else accept_announce_ a p (ar_negotiated_chunk_size response) remote_buffer_size_kb
  end.

(** ** FILE_DATA *)
Definition handle_file_data (payload : bytes) : M St bool :=
  if (length payload <? sizeof espnow_file_data_header_t)%nat then mret false
  else
    r ← this;
    if negb (state_is (state_ r) RECEIVING) || bool_decide (active_handler_ r = None) then mret false
    else
      let sequence := fdh_sequence (of_bytes payload) in
      let data := drop (sizeof espnow_file_data_header_t) payload in
      let data_len := Z.of_nat (length data) in
      if total_chunks_ r <=? sequence then mret false
      else
        let inc_start := u32 (current_increment_ r * chunks_per_increment_ r) in
        let inc_end := Z.min (u32 (inc_start + chunks_in_increment_ r (current_increment_ r)))
                             (total_chunks_ r) in
        if (sequence <? inc_start) || (inc_end <=? sequence) then
          mret ((sequence <? inc_start) && increment_written_ r)
        else
          let expected_len := expected_chunk_len_ r sequence in
          if (expected_len =? 0) || negb (data_len =? expected_len) then mret false
          else
            now ← millis_;
            update (fun r => r <| last_activity_ms_ := now |>);;
            let chunk_in_increment := u16 (sequence mod chunks_per_increment_ r) in
            if is_chunk_received (increment_buf_ r) chunk_in_increment then mret true
            else
              let offset_in_buffer := u32 (chunk_in_increment * chunk_payload_size_ r) in
              if Z.of_nat (length (ib_data (increment_buf_ r))) <? u32 (offset_in_buffer + data_len)
              then mret false
              else
                update (fun r => r <| increment_buf_ ::= fun b =>
                  mark_chunk_received
                    (b <| ib_data ::= splice (Z.to_nat offset_in_buffer) data |>)
                    chunk_in_increment |>);;
                mret true.

(** ** Writing a complete increment *)

(** Offset and length of chunk [i] of the current increment in the buffer; the
    last chunk of an increment is cut at the end of the file. *)
Definition slice_bounds r (num_chunks i : Z) : Z * Z :=
  let offset_in_buffer := u32 (i * chunk_payload_size_ r) in
  let slice_len :=
    if i =? num_chunks - 1 then
      let file_offset_done := u64 (current_increment_ r * chunks_per_increment_ r
                                   * chunk_payload_size_ r + offset_in_buffer) in
      if file_size_ r <? file_offset_done + chunk_payload_size_ r
      then u32 (u64 (file_size_ r - file_offset_done)) else chunk_payload_size_ r
    else chunk_payload_size_ r in
  (offset_in_buffer, slice_len).

(** One [on_data] call for chunk [i]: [None] is the [break] of an empty or
    out-of-range slice, [Some b] the handler's verdict. *)
Definition write_chunk_ (num_chunks i : Z) : M St (option bool) :=
  r ← this;
  let '(offset_in_buffer, slice_len) := slice_bounds r num_chunks i in
  if slice_len =? 0 then mret None
  else if Z.of_nat (length (ib_data (increment_buf_ r))) <? u32 (offset_in_buffer + slice_len)
  then mret None
  else
    response ← invoke_active {| cr_accepted := true; cr_abort_reason := ESPNOW_FILE_ABORT_FLASH_ERROR |}
      (on_data (u32 (current_increment_ r * chunks_per_increment_ r + i))
        (slice (Z.to_nat offset_in_buffer) (Z.to_nat slice_len) (ib_data (increment_buf_ r))));
    mret (Some (cr_accepted response)).

(** The retry loop: [false] means the transfer was aborted. *)
Fixpoint retry_chunks_ (num_chunks : Z) (js : list Z) : M St bool :=
  match js with
  | [] => mret true
  | j :: js =>
    res ← write_chunk_ num_chunks j;
    match res with
    | None => mret true
    | Some true => retry_chunks_ num_chunks js
    | Some false => abort ESPNOW_FILE_ABORT_FLASH_ERROR true;; mret false
    end
  end.

(** The write loop; on a failed write the whole increment is written again. *)
Fixpoint write_chunks_ (num_chunks : Z) (idxs : list Z) : M St bool :=
  match idxs with
  | [] => mret true
  | i :: idxs =>
    res ← write_chunk_ num_chunks i;
    match res with
    | None => mret true
    | Some true => write_chunks_ num_chunks idxs
    | Some false => retry_chunks_ num_chunks (zseq 0 (Z.to_nat num_chunks))
    end
  end.

Definition write_increment_to_flash_ : M St bool :=
  r ← this;
  if bool_decide (active_handler_ r = None) || bool_decide (ib_data (increment_buf_ r) = [])
  then mret false
  else
    let num_chunks := chunks_in_increment_ r (current_increment_ r) in
    ok ← write_chunks_ num_chunks (zseq 0 (Z.to_nat num_chunks));
    if negb ok then mret false
    else
      update (fun r => r <| increment_written_ := true |>);;
      r ← this;
      if total_increments_ r <=? current_increment_ r + 1 then
        update (fun r => r <| state_ := WAITING_END |>);;
        send_gaps_ack_ []
      else
        ack_ok ← send_gaps_ack_ [];
        update (fun r => r <| current_increment_ ::= fun c => u16 (c + 1) |>
                           <| retransmit_round_ := 0 |>
                           <| increment_written_ := false |>);;
        update (fun r =>
          let next_inc_chunks := chunks_in_increment_ r (current_increment_ r) in
          r <| increment_buf_ := ib_reset next_inc_chunks
                 (u32 (next_inc_chunks * chunk_payload_size_ r)) |>
            <| state_ := RECEIVING |>);;
        mret ack_ok.

(** ** BLAST_COMPLETE, END, ABORT *)
Definition handle_blast_complete_ (bc : espnow_file_blast_complete_t) : M St bool :=
  r ← this;
  if negb (state_is (state_ r) RECEIVING) || bool_decide (active_handler_ r = None) then mret false
  else
    now ← millis_;
    update (fun r => r <| last_activity_ms_ := now |>);;
    if (fbc_increment_index bc =? current_increment_ r) && increment_written_ r then
      send_gaps_ack_ []
    else if negb (fbc_increment_index bc =? current_increment_ r) then
      if fbc_increment_index bc <? current_increment_ r then send_gaps_ack_ [] else mret false
    else if is_complete (increment_buf_ r) then
      update (fun r => r <| state_ := WRITING |>);;
      sent ← send_gaps_ack_ [];
      if negb sent then mret false
      else
        written ← write_increment_to_flash_;
        if negb written then mret false else mret true
    else if ESPNOW_MAX_RETRANSMIT_ROUNDS <=? retransmit_round_ r then
      abort ESPNOW_FILE_ABORT_TIMEOUT true;;
      mret true
    else
      update (fun r => r <| retransmit_round_ ::= fun n => u8 (n + 1) |>);;
      ack_ok ← send_gaps_ack_ (received_bitmap (increment_buf_ r));
      update (fun r => r <| state_ := RECEIVING |>);;
      mret ack_ok.

Definition handle_end_ (end_packet : espnow_file_end_t) : M St bool :=
  if negb (fe_phase end_packet =? ESPNOW_FILE_PHASE_END) then mret false
  else
    r ← this;
    if negb (state_is (state_ r) WAITING_END) || bool_decide (active_handler_ r = None) then mret false
    else
      update (fun r => r <| state_ := VERIFYING |>);;
      result ← invoke_active ESPNOW_FILE_COMPLETE_ABORTED on_end;
      r ← this;
      let wants_restart := match active_handler_ r with
        | Some p => match handler_heap r !! p with
                    | Some h => wants_restart_after_complete h | None => false end
        | None => false end in
      if (result =? ESPNOW_FILE_COMPLETE_SUCCESS) && wants_restart then
        now ← millis_;
        update (fun r => r <| complete_action_ := action_ r |>
                           <| complete_result_ := result |>
                           <| complete_ack_remaining_ := kCompleteAckRetries |>
                           <| next_complete_ack_ms_ := now |>
                           <| in_complete_phase_ := true |>);;
        mret true
      else
        ack_sent ← send_ack_complete_ (action_ r) result;
        reset_;;
        mret ack_sent.

Definition handle_abort_ (abort_packet : espnow_file_abort_t) : M St bool :=
  if negb (fab_phase abort_packet =? ESPNOW_FILE_PHASE_ABORT) then mret false
  else
    r ← this;
    if state_is (state_ r) IDLE || bool_decide (active_handler_ r = None) then mret true
    else
      invoke_active tt (on_abort (fab_reason abort_packet));;
      reset_;;
      mret true.

(** ** FILE_TRANSFER dispatch *)
Definition handle_file_transfer (payload : bytes) : M St bool :=
  match payload with
  | [] => mret false
  | phase :: _ =>
    now ← millis_;
    update (fun r => r <| last_activity_ms_ := now |>);;
    if phase =? ESPNOW_FILE_PHASE_ANNOUNCE then
      if negb (length payload =? sizeof espnow_file_announce_t)%nat then mret false
      else handle_announce_ (of_bytes payload)
    else if phase =? ESPNOW_FILE_PHASE_END then
      if negb (length payload =? sizeof espnow_file_end_t)%nat then mret false
      else handle_end_ (of_bytes payload)
    else if phase =? ESPNOW_FILE_PHASE_ABORT then
      if negb (length payload =? sizeof espnow_file_abort_t)%nat then mret false
      else handle_abort_ (of_bytes payload)
    else if phase =? ESPNOW_FILE_PHASE_BLAST_COMPLETE then
      if negb (length payload =? sizeof espnow_file_blast_complete_t)%nat then mret false
      else handle_blast_complete_ (of_bytes payload)
    else mret false
  end.

(** ** The periodic loop *)

(** The branch of [loop] for [in_complete_phase_]: resend COMPLETE, then
    schedule the restart. *)
Definition complete_phase_ : M St unit :=
  r ← this;
  now ← millis_;
  (if kCompleteAckIntervalMs <=? u32 (now - next_complete_ack_ms_ r) then
     send_ack_complete_ (complete_action_ r) (complete_result_ r);;
     update (fun r => r <| complete_ack_remaining_ ::= fun n => n - 1 |>
                        <| next_complete_ack_ms_ := now |>)
   else mret tt);;
  r ← this;
  if complete_ack_remaining_ r <=? 0 then
    reset_;;
    schedule_restart_;;
    update (fun r => r <| in_complete_phase_ := false |>)
  else mret tt.

Definition loop_rest_ : M St unit :=
  r ← this;
  if in_complete_phase_ r then complete_phase_
  else if state_is (state_ r) IDLE || bool_decide (active_handler_ r = None) then mret tt
  else
    now ← millis_;
    if state_is (state_ r) ANNOUNCED then
      when (ESPNOW_FILE_ANNOUNCE_TIMEOUT_MS <? u32 (now - last_activity_ms_ r))
        (abort ESPNOW_FILE_ABORT_TIMEOUT true)
    else if state_is (state_ r) WRITING || state_is (state_ r) CHECKING then mret tt
    else if state_is (state_ r) WAITING_END then
      when (ESPNOW_RADIO_SILENCE_ABORT_MS <? u32 (now - last_activity_ms_ r))
        (abort ESPNOW_FILE_ABORT_TIMEOUT true)
    else
      when (ESPNOW_RADIO_SILENCE_ABORT_MS <? u32 (now - last_activity_ms_ r))
        (abort ESPNOW_FILE_ABORT_TIMEOUT true).

Definition loop : M St unit := perform_restart_if_due_;; loop_rest_.
End receiver.
