(* ===== verification/OTAFlashHandler.v ===== *)
(** * OTAFlashHandler: the action handler that writes firmware

    Models [FileReceiver::OTAFlashHandler] of
    [src/device_code/components/esp_tree_remote/remote_file_receiver.cpp], built
    for the device ([ESP_PLATFORM]).  The flash driver is the interface
    [OtaPlatform]; the MD5 of ESPHome is the parameter [md5], and the digest
    object is the bytes added to it since [init].  The handler implements the
    [ActionHandler] interface of [FileReceiver]. *)
From S2P Require Import Prelude Wire IncrementBuffer FileReceiver.

(** The flash API: partitions, write handles and the heap query.  A [bool] is
    the test [err == ESP_OK]. *)
Class OtaPlatform (W : Type) := {
  esp_ota_get_next_update_partition : W -> option Z;
  esp_ota_begin : Z -> W -> (bool * Z) * W;
  esp_ota_write : Z -> bytes -> W -> bool * W;
  esp_ota_end : Z -> W -> bool * W;
  esp_ota_set_boot_partition : W -> bool * W;
  esp_ota_abort : Z -> W -> W;
  heap_caps_get_largest_free_block : W -> Z
}.

Definition kEspImageMagic : Z := 233.

Inductive HState := HIDLE | HRECEIVING | HVERIFYING.
#[export] Instance HState_eq_dec : EqDecision HState.
Proof. solve_decision. Defined.
Definition hstate_is (a b : HState) : bool := bool_decide (a = b).

Record OTAFlashHandler := {
  hstate_ : HState;
  hfile_size_ : Z;
  expected_md5_ : bytes;
  hchunk_size_ : Z;
  hmax_chunk_size_ : Z;
  total_written_ : Z;
  restart_requested_ : bool;
  md5_digest_ : bytes;
  md5_active_ : bool;
  update_partition_ : option Z;
  ota_handle_ : Z
}.
#[export] Instance eta_ota_flash_handler : Eta OTAFlashHandler := fun h =>
  Build_OTAFlashHandler (hstate_ h) (hfile_size_ h) (expected_md5_ h) (hchunk_size_ h)
    (hmax_chunk_size_ h) (total_written_ h) (restart_requested_ h) (md5_digest_ h)
    (md5_active_ h) (update_partition_ h) (ota_handle_ h).

(** [OTAFlashHandler() = default]. *)
Definition new_ota_flash_handler : OTAFlashHandler :=
  {| hstate_ := HIDLE; hfile_size_ := 0; expected_md5_ := replicate 16 0; hchunk_size_ := 0;
     hmax_chunk_size_ := ESPNOW_FILE_DEFAULT_CHUNK_SIZE; total_written_ := 0;
     restart_requested_ := false; md5_digest_ := []; md5_active_ := false;
     update_partition_ := None; ota_handle_ := 0 |}.

Section handler.
Context {W : Type} `{!OtaPlatform W}.
(** ESPHome's MD5 of a byte string. *)
Context (md5 : bytes -> bytes).

Abbreviation HSt := (OTAFlashHandler * W)%type.

Definition hthis : M HSt OTAFlashHandler := gets fst.
Definition hupdate (f : OTAFlashHandler -> OTAFlashHandler) : M HSt unit :=
  modify (fun s => (f s.1, s.2)).
(** A call of the platform. *)
Definition platform {A} (f : W -> A * W) : M HSt A := fun s =>
  let '(a, w') := f s.2 in (a, (s.1, w')).
Definition platform_ (f : W -> W) : M HSt unit := modify (fun s => (s.1, f s.2)).

Definition reset_state_ : M HSt unit := hupdate (fun h =>
  h <| hstate_ := HIDLE |> <| hfile_size_ := 0 |> <| hchunk_size_ := 0 |>
    <| total_written_ := 0 |> <| restart_requested_ := false |>
    <| expected_md5_ := replicate 16 0 |> <| update_partition_ := None |>
    <| ota_handle_ := 0 |> <| md5_active_ := false |>).

Definition begin_md5_ : M HSt bool :=
  hupdate (fun h => h <| md5_digest_ := [] |> <| md5_active_ := true |>);; mret true.

Definition update_md5_ (data : bytes) : M HSt bool :=
  h ← hthis;
  if negb (md5_active_ h) then mret false
  else hupdate (fun h => h <| md5_digest_ ::= fun d => d ++ data |>);; mret true.

Definition finish_md5_ : M HSt (option bytes) :=
  h ← hthis;
  if negb (md5_active_ h) then mret None
  else hupdate (fun h => h <| md5_active_ := false |>);; mret (Some (md5 (md5_digest_ h))).

Definition rejected (reason : Z) : AnnounceResponse :=
  {| ar_accepted := false; ar_reject_reason := reason; ar_negotiated_chunk_size := 0 |}.

(** Half of the largest free heap block in KiB, clamped to the increment limits. *)
Definition heap_increment_kb (largest_free : Z) : Z :=
  let heap_kb := u16 (largest_free * 50 / 100 / 1024) in
  let heap_kb := if heap_kb <? 8 then 8 else heap_kb in
  if ESPNOW_MAX_INCREMENT_KB <? heap_kb then ESPNOW_MAX_INCREMENT_KB else heap_kb.

Definition ota_on_announce (file_size : Z) (md5_in : bytes) (chunk_size action : Z)
    (file_id : bytes) (buffer_size_kb : Z) : M HSt (AnnounceResponse * Z) :=
  h ← hthis;
  if negb (hstate_is (hstate_ h) HIDLE) then
    mret (rejected ESPNOW_FILE_REJECT_ALREADY, buffer_size_kb)
  else if (file_size =? 0) || (chunk_size =? 0) then
    mret (rejected ESPNOW_FILE_REJECT_UNSUPPORTED, buffer_size_kb)
  else
    let negotiated_chunk_size := Z.min chunk_size (hmax_chunk_size_ h) in
    if negotiated_chunk_size =? 0 then
      mret (rejected ESPNOW_FILE_REJECT_UNSUPPORTED, buffer_size_kb)
    else
      partition ← gets (fun s => esp_ota_get_next_update_partition s.2);
      hupdate (fun h => h <| update_partition_ := partition |>);;
      match partition with
      | None => mret (rejected ESPNOW_FILE_REJECT_UNSUPPORTED, buffer_size_kb)
      | Some partition_size =>
        if partition_size <? file_size then
          mret (rejected ESPNOW_FILE_REJECT_NO_SPACE, buffer_size_kb)
        else
          hupdate (fun h => h <| ota_handle_ := 0 |>);;
          '(begin_ok, handle) ← platform (esp_ota_begin file_size);
          hupdate (fun h => h <| ota_handle_ := handle |>);;
          if negb begin_ok then mret (rejected ESPNOW_FILE_REJECT_BUSY, buffer_size_kb)
          else
            largest_free ← gets (fun s => heap_caps_get_largest_free_block s.2);
            let buffer_size_kb := heap_increment_kb largest_free in
            md5_ok ← begin_md5_;
            if negb md5_ok then
              platform_ (esp_ota_abort handle);;
              hupdate (fun h => h <| ota_handle_ := 0 |> <| update_partition_ := None |>);;
              mret (rejected ESPNOW_FILE_REJECT_BUSY, buffer_size_kb)
            else
              hupdate (fun h => h <| hfile_size_ := file_size |>
                                  <| hchunk_size_ := negotiated_chunk_size |>
                                  <| total_written_ := 0 |>
                                  <| restart_requested_ := false |>
                                  <| expected_md5_ := md5_in |>
                                  <| hstate_ := HRECEIVING |>);;
              mret ({| ar_accepted := true; ar_reject_reason := ESPNOW_FILE_REJECT_UNSUPPORTED;
                       ar_negotiated_chunk_size := negotiated_chunk_size |}, buffer_size_kb)
      end.

Definition chunk_response (b : bool) : ChunkResponse :=
  {| cr_accepted := b; cr_abort_reason := ESPNOW_FILE_ABORT_FLASH_ERROR |}.

Definition ota_on_data (sequence : Z) (data : bytes) : M HSt ChunkResponse :=
  h ← hthis;
  match data with
  | [] => mret (chunk_response false)
  | b0 :: _ =>
    if negb (hstate_is (hstate_ h) HRECEIVING) then mret (chunk_response false)
    else if (total_written_ h =? 0) && negb (b0 =? kEspImageMagic) then mret (chunk_response false)
    else
      write_ok ← platform (esp_ota_write (ota_handle_ h) data);
      if negb write_ok then mret (chunk_response false)
      else
        md5_ok ← update_md5_ data;
        if negb md5_ok then mret (chunk_response false)
        else
          hupdate (fun h => h <| total_written_ ::= fun n => u32 (n + u32 (Z.of_nat (length data))) |>);;
          mret (chunk_response true)
  end.

Definition ota_on_end : M HSt Z :=
  h ← hthis;
  if negb (hstate_is (hstate_ h) HRECEIVING) then mret ESPNOW_FILE_COMPLETE_ABORTED
  else
    hupdate (fun h => h <| hstate_ := HVERIFYING |>);;
    if negb (total_written_ h =? hfile_size_ h) then
      platform_ (esp_ota_abort (ota_handle_ h));;
      reset_state_;;
      mret ESPNOW_FILE_COMPLETE_WRITE_ERROR
    else
      computed ← finish_md5_;
      match computed with
      | None =>
        platform_ (esp_ota_abort (ota_handle_ h));;
        reset_state_;;
        mret ESPNOW_FILE_COMPLETE_FLASH_ERROR
      | Some computed_md5 =>
        if negb (bytes_eqb computed_md5 (expected_md5_ h)) then
          platform_ (esp_ota_abort (ota_handle_ h));;
          reset_state_;;
          mret ESPNOW_FILE_COMPLETE_MD5_MISMATCH
        else
          end_ok ← platform (esp_ota_end (ota_handle_ h));
          if negb end_ok then
            reset_state_;;
            mret ESPNOW_FILE_COMPLETE_FLASH_ERROR
          else
            boot_ok ← platform esp_ota_set_boot_partition;
            if negb boot_ok then
              reset_state_;;
              mret ESPNOW_FILE_COMPLETE_FLASH_ERROR
            else
              reset_state_;;
              hupdate (fun h => h <| restart_requested_ := true |>);;
              mret ESPNOW_FILE_COMPLETE_SUCCESS
      end.

Definition ota_on_abort (reason : Z) : M HSt unit :=
  h ← hthis;
  (if negb (hstate_is (hstate_ h) HIDLE) && negb (ota_handle_ h =? 0)
   then platform_ (esp_ota_abort (ota_handle_ h)) else mret tt);;
  reset_state_.

Definition ota_is_receiving (h : OTAFlashHandler) : bool := negb (hstate_is (hstate_ h) HIDLE).

#[export] Instance ota_action_handler : ActionHandler OTAFlashHandler W := {|
  on_announce := ota_on_announce;
  on_data := ota_on_data;
  on_end := ota_on_end;
  on_abort := ota_on_abort;
  handler_is_receiving := ota_is_receiving;
  wants_restart_after_complete := restart_requested_
|}.
End handler.

(** ** A constructed receiver

    [FileReceiver()] registers its own OTA handler (address 0 of the heap) for
    the OTA action; the other members have their default initialisers. *)
Definition new_file_receiver : FileReceiver OTAFlashHandler := {|
  state_ := IDLE; active_handler_ := None;
  handlers_ := {[ESPNOW_FILE_ACTION_OTA_FLASH := 0]};
  handler_heap := {[0 := new_ota_flash_handler]};
  increment_buf_ := empty_increment_buffer;
  file_size_ := 0; chunk_payload_size_ := 0; buffer_size_kb_ := ESPNOW_MAX_INCREMENT_KB;
  chunks_per_increment_ := 0; total_increments_ := 0; chunks_in_last_increment_ := 0;
  current_increment_ := 0; total_chunks_ := 0; action_ := 0;
  file_id_ := replicate 12 0; last_announce_md5_ := replicate 16 0;
  announce_tx_counter_ := 0; last_activity_ms_ := 0; last_blast_complete_tx_counter_ := 0;
  retransmit_round_ := 0; increment_written_ := false; local_mac_ := replicate 6 0;
  send_ack_fn_set := false; ota_enabled_ := false; deep_sleep_active_ := false;
  max_chunk_size_ := ESPNOW_FILE_DEFAULT_CHUNK_SIZE;
  restart_pending_ := false; restart_due_ms_ := 0; in_complete_phase_ := false;
  complete_action_ := 0; complete_result_ := 0; complete_ack_remaining_ := 0;
  next_complete_ack_ms_ := 0 |}.

(** [FileReceiver::set_max_chunk_size] also sets the limit of the embedded handler. *)
Definition set_max_chunk_size (max_chunk : Z) (r : FileReceiver OTAFlashHandler)
    : FileReceiver OTAFlashHandler :=
  r <| max_chunk_size_ := max_chunk |>
    <| handler_heap ::= alter (fun h => h <| hmax_chunk_size_ := max_chunk |>) 0 |>.
