(* ===== verification/FileReceiverInv.v ===== *)
(** * FileReceiverInv: the receiver's invariant and state machine

    The type, memory-safety and ownership invariant of [FileReceiver], its
    preservation by every entry point, the step relation of the component with
    the states that are reachable, and the timeout behaviour of [loop].  The
    handlers are seen through the interface [HandlerLaws]. *)
From S2P Require Import Prelude Wire IncrementBuffer FileReceiver.

(** What an action handler promises the receiver: an invariant of its own that
    its operations keep, results in the range of their C types, and the meaning
    of [is_receiving]: a handler is busy, with the announced size and digest,
    from an accepted announcement until the end or the abort of the transfer. *)
Class HandlerLaws (H W : Type) `{!ActionHandler H W} := {
  handler_ok : H -> Prop;
  announced : H -> Z * bytes;
  on_announce_law file_size md5 chunk_size action file_id kb h w :
    handler_ok h -> handler_is_receiving h = false ->
    0 <= chunk_size < 65536 -> 0 <= kb < 65536 ->
    wp (on_announce file_size md5 chunk_size action file_id kb) (fun res s =>
      handler_ok s.1 /\ handler_is_receiving s.1 = ar_accepted res.1 /\
      (ar_accepted res.1 = true -> announced s.1 = (file_size, md5)) /\
      0 <= ar_negotiated_chunk_size res.1 < 65536 /\ 0 <= res.2 < 65536) (h, w);
  on_data_law sequence data h w :
    handler_ok h ->
    wp (on_data sequence data) (fun _ s =>
      handler_ok s.1 /\ handler_is_receiving s.1 = handler_is_receiving h /\
      announced s.1 = announced h) (h, w);
  on_end_law h w :
    handler_ok h ->
    wp on_end (fun _ s => handler_ok s.1 /\ handler_is_receiving s.1 = false) (h, w);
  on_abort_law reason h w :
    handler_ok h ->
    wp (on_abort reason) (fun _ s => handler_ok s.1 /\ handler_is_receiving s.1 = false) (h, w)
}.

Section primitives.
Context {H W : Type} `{!ReceiverEnv W} `{!ActionHandler H W}.
Abbreviation St := (FileReceiver H * W)%type.
Implicit Types (r : FileReceiver H) (w : W) (s : St).

(** ** Symbolic execution of the receiver's primitives *)
Lemma wp_this (Q : FileReceiver H -> St -> Prop) s : Q s.1 s -> wp this Q s.
Proof. done. Qed.
Lemma wp_update f (Q : unit -> St -> Prop) s : Q tt (f s.1, s.2) -> wp (update f) Q s.
Proof. done. Qed.
Lemma wp_millis (Q : Z -> St -> Prop) s : Q (millis s.2) s -> wp millis_ Q s.
Proof. done. Qed.
Lemma wp_invoke {A} p (d : A) (op : M (H * W) A) (Q : A -> St -> Prop) s :
  (forall h, handler_heap s.1 !! p = Some h ->
     wp op (fun a hw => Q a (s.1 <| handler_heap ::= <[p := hw.1]> |>, hw.2)) (h, s.2)) ->
  (handler_heap s.1 !! p = None -> Q d s) ->
  wp (invoke p d op) Q s.
Proof.
  intros H1 H2. unfold wp, invoke in *. destruct (_ !! _) as [h|]; [|by apply H2].
  specialize (H1 h eq_refl). destruct (op (h, s.2)) as [a [h' w']]. apply H1.
Qed.
Lemma wp_send_ack result trailing (Q : bool -> St -> Prop) s :
  (forall ok w', Q ok (s.1, w')) -> wp (send_ack_ result trailing) Q s.
Proof.
  intros HQ. unfold send_ack_. apply wp_bind, wp_this.
  case_match; [destruct s; apply HQ|]. unfold wp.
  destruct (send_ack_fn _ _) as [ok w']. apply HQ.
Qed.
End primitives.

Ltac wp_recv_step :=
  lazymatch goal with
  | |- wp this _ _ => apply wp_this
  | |- wp (update _) _ _ => apply wp_update
  | |- wp millis_ _ _ => apply wp_millis
  | |- wp (send_ack_ _ _) _ _ => apply wp_send_ack; intros ? ?
  | |- wp (send_ack_accept_ _ _ _) _ _ => unfold send_ack_accept_
  | |- wp (send_ack_reject_ _ _) _ _ => unfold send_ack_reject_
  | |- wp (send_gaps_ack_ _) _ _ => unfold send_gaps_ack_
  | |- wp (send_ack_complete_ _ _) _ _ => unfold send_ack_complete_
  | |- wp (send_ack_abort_ _) _ _ => unfold send_ack_abort_
  | _ => wp_step
  end.
(** Run a handler symbolically, leaving the calls of action handlers and the
    postconditions of the paths. *)
Ltac wp_recv := repeat (wp_recv_step; cbv beta; cbn [fst snd]).

Section receiver.
Context {H W : Type} `{!ReceiverEnv W} `{!ActionHandler H W} `{!HandlerLaws H W}.
Abbreviation St := (FileReceiver H * W)%type.
Implicit Types (r : FileReceiver H) (w : W) (s : St).

(** ** The invariant *)

(** No handler pointer dangles, every handler keeps its invariant, and only the
    active one may be busy. *)
Record heap_ok r : Prop := {
  h_active p : active_handler_ r = Some p -> is_Some (handler_heap r !! p);
  h_registered action p : handlers_ r !! action = Some p -> is_Some (handler_heap r !! p);
  h_ok p h : handler_heap r !! p = Some h -> handler_ok h;
  h_quiet p h : handler_heap r !! p = Some h -> active_handler_ r <> Some p ->
                handler_is_receiving h = false
}.

(** The active handler's [is_receiving] flag is [b]; a busy one works on the
    transfer the receiver has adopted. *)
Definition active_busy (b : bool) r : Prop :=
  exists p h, active_handler_ r = Some p /\ handler_heap r !! p = Some h /\
              handler_is_receiving h = b /\
              (b = true -> announced h = (file_size_ r, last_announce_md5_ r)).

(** A transfer is in progress: the geometry fits its C types and the buffer is
    the one of the current increment. *)
Record transfer_ok r : Prop := {
  t_chunk : 0 < chunk_payload_size_ r < 65536;
  t_cpi : 0 < chunks_per_increment_ r < 65536;
  t_total_increments : 0 < total_increments_ r < 65536;
  t_last : 0 < chunks_in_last_increment_ r < 65536;
  t_current : 0 <= current_increment_ r < total_increments_ r;
  t_buffer : buffer_ok (increment_buf_ r);
  t_expected : chunks_expected (increment_buf_ r) = chunks_in_increment_ r (current_increment_ r);
  t_data : Z.of_nat (length (ib_data (increment_buf_ r))) =
           chunks_in_increment_ r (current_increment_ r) * chunk_payload_size_ r
}.

(** What holds between two calls of the component. *)
Definition recv_ok r : Prop :=
  heap_ok r /\
  match state_ r with
  | IDLE => active_handler_ r = None /\ in_complete_phase_ r = false
  | RECEIVING | WRITING | WAITING_END =>
    active_busy true r /\ transfer_ok r /\ in_complete_phase_ r = false
  | VERIFYING => active_busy false r /\ in_complete_phase_ r = true
  | ANNOUNCED | CHECKING | COMPLETE => False
  end.
Definition inv s : Prop := recv_ok s.1.

(** Everything but the handlers' own state. *)
Definition frame_eq r r' : Prop := r' = r <| handler_heap := handler_heap r' |>.

Lemma frame_eq_refl r : frame_eq r r.
Proof. unfold frame_eq. by destruct r. Qed.
Lemma frame_eq_trans r1 r2 r3 : frame_eq r1 r2 -> frame_eq r2 r3 -> frame_eq r1 r3.
Proof. unfold frame_eq. intros -> ->. done. Qed.
Lemma frame_eq_heap r f : frame_eq r (r <| handler_heap ::= f |>).
Proof. done. Qed.

Lemma transfer_ok_frame r r' : frame_eq r r' -> transfer_ok r -> transfer_ok r'.
Proof. intros ->. intros []. constructor; done. Qed.

(** ** Calls of the active handler *)
Lemma heap_ok_insert_active r p h :
  heap_ok r -> active_handler_ r = Some p -> handler_ok h ->
  heap_ok (r <| handler_heap ::= <[p := h]> |>).
Proof.
  intros Hok Ha Hh. constructor; cbn.
  - intros q Hq. apply lookup_insert_is_Some. destruct (decide (p = q)); [by left|right].
    split; [done|]. by apply (h_active r).
  - intros action q Hq. apply lookup_insert_is_Some. destruct (decide (p = q)); [by left|right].
    split; [done|]. by eapply h_registered.
  - intros q h' [[<- <-]|[Hne Hq]]%lookup_insert_Some; [done|]. by eapply h_ok.
  - intros q h' [[<- <-]|[Hne Hq]]%lookup_insert_Some Hn; [done|]. by eapply h_quiet.
Qed.

Lemma wp_invoke_active {A} (d : A) (op : M (H * W) A) b (Q : A -> St -> Prop) (P : A -> H * W -> Prop) s :
  heap_ok s.1 -> active_busy b s.1 ->
  (forall h, handler_ok h -> handler_is_receiving h = b -> wp op (fun a hw => P a hw /\
     (handler_is_receiving hw.1 = true -> b = true /\ announced hw.1 = announced h)) (h, s.2)) ->
  (forall a h' w', P a (h', w') -> handler_ok h') ->
  (forall a r' h' w', frame_eq s.1 r' -> heap_ok r' ->
     active_busy (handler_is_receiving h') r' -> P a (h', w') -> Q a (r', w')) ->
  wp (invoke_active d op) Q s.
Proof.
  intros Hok (p & h & Ha & Hp & Hb & Han) Hop HP HQ.
  unfold invoke_active. apply wp_bind, wp_this. rewrite Ha.
  apply wp_invoke; [|congruence]. intros h0 Hh0. simplify_eq.
  eapply wp_mono; [by apply Hop; [eapply h_ok|]|].
  intros a [h' w'] [Hpost Hkeep]. cbn [fst snd]. eapply HQ; [done| |  |done].
  - apply heap_ok_insert_active; eauto.
  - exists p, h'. cbn. rewrite lookup_insert_eq. split_and!; try done.
    intros Hr. destruct (Hkeep Hr) as [Eb Ea]. cbn in Ea. rewrite Ea. auto.
Qed.

Lemma wp_abort_active reason b (Q : unit -> St -> Prop) s :
  heap_ok s.1 -> active_busy b s.1 ->
  (forall r' w', frame_eq s.1 r' -> heap_ok r' -> active_busy false r' -> Q tt (r', w')) ->
  wp (invoke_active tt (on_abort reason)) Q s.
Proof.
  intros Hok Hb HQ.
  eapply (wp_invoke_active _ _ b _
            (fun _ hw => handler_ok hw.1 /\ handler_is_receiving hw.1 = false));
    [done|done| |by intros ? ? ? []|].
  { intros h Hh _. eapply wp_mono; [by apply on_abort_law|]. intros ? ? [? ?]. split; [done|congruence]. }
  intros [] r' h' w' Hf Hok' Hb' [_ He]. cbn in He. rewrite He in Hb'. auto.
Qed.

(** [reset_] is only reached when no handler is busy. *)
Lemma reset_inv s :
  heap_ok s.1 -> (active_handler_ s.1 = None \/ active_busy false s.1) ->
  wp reset_ (fun _ s' => inv s' /\ state_ s'.1 = IDLE /\ restart_pending_ s'.1 = restart_pending_ s.1) s.
Proof.
  intros Hok Hq. apply wp_update. split; [|done]. split; [|done].
  destruct Hok as [H1 H2 H3 H4]. constructor; cbn; try done.
  intros p h Hp _. destruct Hq as [Hn|(q & h' & Hq & Hh & Hf & _)]; [apply (H4 p h Hp); congruence|].
  destruct (decide (p = q)) as [->|Hne]; [congruence|]. apply (H4 p h Hp). congruence.
Qed.

Lemma abort_inv reason notify s :
  heap_ok s.1 -> (active_handler_ s.1 = None \/ exists b, active_busy b s.1) ->
  wp (abort reason notify) (fun _ s' => inv s' /\ state_ s'.1 = IDLE) s.
Proof.
  intros Hok Hq. unfold abort.
  assert (wp (invoke_active tt (on_abort reason)) (fun _ s' => heap_ok s'.1 /\
            (active_handler_ s'.1 = None \/ active_busy false s'.1)) s) as Hcall.
  { destruct Hq as [Hn|[b Hb]].
    - unfold invoke_active. apply wp_bind, wp_this. rewrite Hn. apply wp_ret. auto.
    - eapply wp_abort_active; [done|done|]. auto. }
  apply wp_bind. eapply wp_mono; [exact Hcall|]. intros [] s' [Hok' Hq'].
  wp_recv; (eapply wp_mono; [by apply reset_inv|]; intros ? ? (? & ? & _); done).
Qed.

(** ** Updates of fields the invariant does not mention *)
Lemma heap_ok_activity r now : heap_ok r -> heap_ok (r <| last_activity_ms_ := now |>).
Proof. intros []. by constructor. Qed.
Lemma transfer_ok_activity r now : transfer_ok r -> transfer_ok (r <| last_activity_ms_ := now |>).
Proof. intros []. by constructor. Qed.
Lemma recv_ok_activity r now : recv_ok r -> recv_ok (r <| last_activity_ms_ := now |>).
Proof.
  intros [Hh Hs]. split; [by apply heap_ok_activity|]. cbn. destruct (state_ r); try done;
    destruct Hs as (?&?&?); split_and!; auto using transfer_ok_activity.
Qed.

Lemma chunks_in_increment_range r i : transfer_ok r -> 0 < chunks_in_increment_ r i < 65536.
Proof. intros []. unfold chunks_in_increment_. case_match; done. Qed.

(** The increment window of [handle_file_data] does not wrap, and a sequence
    number inside it gives a chunk number of the buffer. *)
Lemma increment_window r :
  transfer_ok r ->
  u32 (current_increment_ r * chunks_per_increment_ r) =
    current_increment_ r * chunks_per_increment_ r /\
  u32 (current_increment_ r * chunks_per_increment_ r +
       chunks_in_increment_ r (current_increment_ r)) =
    current_increment_ r * chunks_per_increment_ r +
    chunks_in_increment_ r (current_increment_ r).
Proof.
  intros T. pose proof (chunks_in_increment_range r (current_increment_ r) T).
  destruct T as [_ Hc Ht _ Hi _ _ _]. split; apply u32_small; nia.
Qed.

Lemma chunk_index_range r sequence :
  transfer_ok r ->
  current_increment_ r * chunks_per_increment_ r <= sequence <
    current_increment_ r * chunks_per_increment_ r +
    chunks_in_increment_ r (current_increment_ r) ->
  u16 (sequence mod chunks_per_increment_ r) = sequence mod chunks_per_increment_ r /\
  0 <= sequence mod chunks_per_increment_ r < chunks_in_increment_ r (current_increment_ r).
Proof.
  intros T Hs. pose proof (t_cpi r T). pose proof (chunks_in_increment_range r (current_increment_ r) T).
  pose proof (Z.mod_pos_bound sequence (chunks_per_increment_ r) ltac:(lia)).
  split; [apply u16_small; lia|]. split; [lia|].
  replace sequence with (sequence - current_increment_ r * chunks_per_increment_ r +
    current_increment_ r * chunks_per_increment_ r) by lia.
  rewrite Z.mod_add by lia. eapply Z.le_lt_trans; [apply Z.mod_le; lia|]. lia.
Qed.

Lemma length_splice_checked off (d l : bytes) :
  (Z.of_nat (length l) <? off + Z.of_nat (length d)) = false -> 0 <= off ->
  length (splice (Z.to_nat off) d l) = length l.
Proof. intros Hc Ho. zprop. apply length_splice. lia. Qed.

(** Storing a checked chunk in the buffer. *)
Lemma buffer_ok_data b l : buffer_ok b -> buffer_ok (b <| ib_data := l |>).
Proof. intros []. by constructor. Qed.

Lemma mark_data b i : ib_data (mark_chunk_received b i) = ib_data b.
Proof. unfold mark_chunk_received. by repeat case_match. Qed.

Lemma transfer_ok_store r i off data :
  transfer_ok r -> 0 <= i < chunks_in_increment_ r (current_increment_ r) -> 0 <= off ->
  (Z.of_nat (length (ib_data (increment_buf_ r))) <? off + Z.of_nat (length data)) = false ->
  transfer_ok (r <| increment_buf_ ::= fun b =>
    mark_chunk_received (b <| ib_data ::= splice (Z.to_nat off) data |>) i |>).
Proof.
  intros T Hi Ho Hc. pose proof (length_splice_checked off data _ Hc Ho) as Hl.
  assert (buffer_ok ((increment_buf_ r) <| ib_data ::= splice (Z.to_nat off) data |>)) as Hb
    by (apply buffer_ok_data, T).
  destruct T as [T1 T2 T3 T4 T5 T6 T7 T8]. constructor; try done.
  - apply buffer_ok_mark; [done|]. by rewrite <-T7 in Hi.
  - cbn [increment_buf_ upd]. by rewrite chunks_expected_mark.
  - cbn [increment_buf_ upd]. rewrite mark_data. cbn [ib_data upd]. by rewrite Hl.
Qed.

Lemma expected_chunk_len_le r q :
  0 < chunk_payload_size_ r -> expected_chunk_len_ r q <= chunk_payload_size_ r.
Proof. intros Hc. unfold expected_chunk_len_. repeat case_match; lia. Qed.

(** The bounds check of a chunk does not wrap. *)
Lemma chunk_end_small r i len :
  transfer_ok r -> 0 <= i < chunks_in_increment_ r (current_increment_ r) ->
  0 <= len <= chunk_payload_size_ r ->
  u32 (u32 (i * chunk_payload_size_ r) + len) = i * chunk_payload_size_ r + len /\
  u32 (i * chunk_payload_size_ r) = i * chunk_payload_size_ r.
Proof.
  intros T Hi Hl. pose proof (t_chunk r T).
  pose proof (chunks_in_increment_range r (current_increment_ r) T).
  rewrite (u32_small (i * _)) by nia. split; [apply u32_small; nia|done].
Qed.

Lemma recv_ok_busy r :
  recv_ok r -> state_is (state_ r) RECEIVING = true ->
  heap_ok r /\ active_busy true r /\ transfer_ok r /\ in_complete_phase_ r = false.
Proof.
  intros [Hh Hs] E. unfold state_is in E. apply bool_decide_eq_true in E. rewrite E in Hs. tauto.
Qed.

Lemma recv_ok_intro r :
  heap_ok r -> active_busy true r -> transfer_ok r -> in_complete_phase_ r = false ->
  state_ r = RECEIVING \/ state_ r = WRITING \/ state_ r = WAITING_END -> recv_ok r.
Proof. intros Hh Hb Ht Hc [E|[E|E]]; (split; [done|]); by rewrite E. Qed.

(** ** FILE_DATA *)
Lemma handle_file_data_inv payload s :
  bytes_ok payload -> inv s -> wp (handle_file_data payload) (fun _ => inv) s.
Proof.
  intros Hp Hinv. unfold handle_file_data. wp_recv; try done; try (by apply recv_ok_activity).
  destruct s as [r w]; cbn [fst snd] in *. zprop.
  destruct (recv_ok_busy r Hinv) as (Hh & Hb & Ht & Hc); [done|].
  destruct (increment_window r Ht) as [E1 E2]. rewrite E1, E2 in *.
  destruct (chunk_index_range r (fdh_sequence (of_bytes payload)) Ht) as [E3 E4]; [lia|].
  rewrite E3 in *. apply recv_ok_intro; try done.
  - by apply (heap_ok_activity _ (millis w)) in Hh as [].
  - apply transfer_ok_store; auto using transfer_ok_activity; [apply u32_range|].
    pose proof (t_chunk r Ht). pose proof (expected_chunk_len_le r (fdh_sequence (of_bytes payload))).
    destruct (chunk_end_small r _ (Z.of_nat (length (drop (sizeof espnow_file_data_header_t) payload))) Ht E4)
      as [U1 U2]; [lia|].
    apply Z.ltb_ge. rewrite U2. rewrite U1 in *. done.
  - left. cbn. unfold state_is in *. by eapply bool_decide_eq_true.
Qed.

(** ** Writing an increment *)

(** [on_data] calls change nothing but the handlers. *)
Definition in_state (st : State) s : Prop :=
  state_ s.1 = st /\ heap_ok s.1 /\ active_busy true s.1 /\ transfer_ok s.1 /\
  in_complete_phase_ s.1 = false.

Lemma in_state_inv st s :
  in_state st s -> st = RECEIVING \/ st = WRITING \/ st = WAITING_END -> inv s.
Proof. intros (<- & Hh & Hb & Ht & Hc) Hs. by apply recv_ok_intro. Qed.

Lemma write_chunk_frame st n i s :
  in_state st s ->
  wp (write_chunk_ n i) (fun _ s' => in_state st s' /\ frame_eq s.1 s'.1) s.
Proof.
  intros Hs. unfold write_chunk_. wp_recv; try (split; [done|apply frame_eq_refl]).
  destruct Hs as (Hst & Hh & Hb & Ht & Hc).
  eapply (wp_invoke_active _ _ true _
            (fun _ hw => handler_ok hw.1 /\ handler_is_receiving hw.1 = true));
    [done|done| |by intros ? ? ? []|].
  - intros h Hok Hr. eapply wp_mono; [by apply on_data_law|]. intros ? ? (? & E & ?).
    rewrite Hr in E. auto.
  - intros a r' h' w' Hf Hh' Hb' [_ Hr]. cbn in Hr. rewrite Hr in Hb'. apply wp_ret.
    split; [|done]. split_and!; cbn; try done.
    + by rewrite Hf.
    + by eapply transfer_ok_frame.
    + by rewrite Hf.
Qed.

(** The two write loops either come back in the same state or have aborted. *)
Definition wrote_or_aborted st r (ok : bool) s : Prop :=
  if ok then in_state st s /\ frame_eq r s.1 else inv s /\ state_ s.1 = IDLE.

Lemma retry_chunks_frame st n js s :
  in_state st s -> wp (retry_chunks_ n js) (wrote_or_aborted st s.1) s.
Proof.
  revert s. induction js as [|j js IH]; intros s Hs; cbn [retry_chunks_].
  - apply wp_ret. split; [done|apply frame_eq_refl].
  - apply wp_bind. eapply wp_mono; [by apply write_chunk_frame|].
    intros res s' [Hs' Hf]. destruct res as [[|]|].
    + eapply wp_mono; [by apply IH|]. intros [|] s''; [|done]. intros [? ?].
      split; [done|by eapply frame_eq_trans].
    + apply wp_bind. destruct Hs' as (_ & Hh & Hb & _). eapply wp_mono; [apply abort_inv; eauto|].
      intros ? ? ?. by apply wp_ret.
    + by apply wp_ret.
Qed.

Lemma write_chunks_frame st n js s :
  in_state st s -> wp (write_chunks_ n js) (wrote_or_aborted st s.1) s.
Proof.
  revert s. induction js as [|j js IH]; intros s Hs; cbn [write_chunks_].
  - apply wp_ret. split; [done|apply frame_eq_refl].
  - apply wp_bind. eapply wp_mono; [by apply write_chunk_frame|].
    intros res s' [Hs' Hf].
    destruct res as [[|]|]; [|eapply wp_mono; [by apply retry_chunks_frame|]|by apply wp_ret].
    + eapply wp_mono; [by apply IH|]. intros [|] s''; [|done]. intros [? ?].
      split; [done|by eapply frame_eq_trans].
    + intros [|] s''; [|done]. intros [? ?]. split; [done|by eapply frame_eq_trans].
Qed.

(** A fresh buffer for increment [i]. *)
Lemma transfer_ok_fresh r i :
  transfer_ok r -> 0 <= i < total_increments_ r ->
  transfer_ok (r <| current_increment_ := i |> <| increment_buf_ :=
    ib_reset (chunks_in_increment_ r i) (u32 (chunks_in_increment_ r i * chunk_payload_size_ r)) |>).
Proof.
  intros T Hi. pose proof (chunks_in_increment_range r i T).
  assert (u32 (chunks_in_increment_ r i * chunk_payload_size_ r) =
          chunks_in_increment_ r i * chunk_payload_size_ r) as E
    by (apply u32_small; pose proof (t_chunk r T); nia).
  destruct T. constructor; try done.
  - apply buffer_ok_reset. lia.
  - cbn. rewrite E, length_replicate, Z2Nat.id by nia. done.
Qed.

Lemma write_increment_inv s :
  in_state WRITING s -> wp write_increment_to_flash_ (fun _ => inv) s.
Proof.
  intros Hs. unfold write_increment_to_flash_. apply wp_bind, wp_this, wp_if; intros _.
  { apply wp_ret. eapply in_state_inv; [done|auto]. }
  apply wp_bind. eapply wp_mono; [by eapply write_chunks_frame|].
  intros [|] [r w] Hw; [|apply wp_ret; apply Hw].
  destruct Hw as [(Hst & Hh & Hb & Ht & Hc) Hf]. cbn [fst snd] in *. cbn [negb].
  assert (0 <= current_increment_ r < total_increments_ r) as Hcur by apply Ht.
  wp_recv; zprop; cbn [fst snd current_increment_ total_increments_ upd] in *;
    (apply recv_ok_intro; [by destruct Hh|done| |done|cbn; auto]).
  - by destruct Ht.
  - pose proof (t_total_increments r Ht).
    assert (current_increment_ r + 1 < total_increments_ r) by assumption.
    pose proof (transfer_ok_fresh r (u16 (current_increment_ r + 1)) Ht) as Hfresh.
    destruct Hfresh; [rewrite u16_small; lia|]. by constructor.
Qed.

(** ** BLAST_COMPLETE, END, ABORT *)
Lemma handle_blast_complete_inv bc s : inv s -> wp (handle_blast_complete_ bc) (fun _ => inv) s.
Proof.
  intros Hinv. unfold handle_blast_complete_. wp_recv; try done; try (by apply recv_ok_activity); zprop;
    destruct s as [r w]; cbn [fst snd] in *;
    destruct (recv_ok_busy r Hinv) as (Hh & Hb & Ht & Hc); try done;
    pose proof (heap_ok_activity r (millis w) Hh) as Hh'.
  - apply recv_ok_intro; [by destruct Hh|done|by destruct Ht|done|cbn; auto].
  - eapply wp_mono; [apply write_increment_inv|].
    + split_and!; [done|by destruct Hh|done|by destruct Ht|done].
    + intros ? ? ?. wp_recv; done.
  - eapply wp_mono; [apply abort_inv; [done|by right; exists true]|].
    intros ? ? [? _]. by apply wp_ret.
  - apply recv_ok_intro; [by destruct Hh|done|by destruct Ht|done|cbn; auto].
Qed.

Lemma handle_end_inv e s : inv s -> wp (handle_end_ e) (fun _ => inv) s.
Proof.
  intros Hinv. unfold handle_end_. apply wp_if; intros _; [by apply wp_ret|].
  apply wp_bind, wp_this, wp_if; intros Hs; [by apply wp_ret|].
  zprop. unfold state_is in *. destruct s as [r w]. cbn [fst] in *.
  assert (state_ r = WAITING_END) as Hst by (by eapply bool_decide_eq_true).
  destruct Hinv as [Hh Hm]. cbn [fst] in *. rewrite Hst in Hm. destruct Hm as (Hb & Ht & Hc).
  apply wp_bind, wp_update, wp_bind.
  eapply (wp_invoke_active _ _ true _
            (fun _ hw => handler_ok hw.1 /\ handler_is_receiving hw.1 = false));
    [by destruct Hh|done| |by intros ? ? ? []|].
  { intros h ? _. eapply wp_mono; [by apply on_end_law|]. intros ? ? [? ?]. split; [done|congruence]. }
  intros res r' h' w' Hf Hh' Hb' [_ Hr]. cbn [fst snd] in *. rewrite Hr in Hb'.
  apply wp_bind, wp_this. cbn [fst]. cbv zeta. apply wp_if; intros _.
  - wp_recv. cbn. split; [by destruct Hh'|].
    assert (state_ r' = VERIFYING) as E by (by rewrite Hf). cbn. by rewrite E.
  - wp_recv. eapply wp_mono; [apply reset_inv; [done|by right]|]. intros ? ? (? & _).
    by apply wp_ret.
Qed.

Lemma recv_ok_active r :
  recv_ok r -> bool_decide (active_handler_ r = None) = false -> exists b, active_busy b r.
Proof.
  intros [_ Hm] Ha. apply bool_decide_eq_false in Ha.
  destruct (state_ r); try done; destruct Hm as [Hb ?]; by eauto.
Qed.

Lemma handle_abort_inv a s : inv s -> wp (handle_abort_ a) (fun _ => inv) s.
Proof.
  intros Hinv. unfold handle_abort_. wp_recv; try done. zprop.
  destruct (recv_ok_active _ Hinv) as [b Hb]; [done|].
  eapply wp_abort_active; [apply Hinv|done|]. intros r' w' Hf Hh' Hb'.
  apply wp_bind. eapply wp_mono; [apply reset_inv; [done|by right]|]. intros ? ? (? & _).
  by apply wp_ret.
Qed.

Lemma abort_entry_inv reason notify s : inv s -> wp (abort reason notify) (fun _ => inv) s.
Proof.
  intros Hinv. eapply wp_mono; [apply abort_inv; [apply Hinv|]|by intros ? ? []].
  destruct (bool_decide (active_handler_ s.1 = None)) eqn:E.
  - left. by eapply bool_decide_eq_true.
  - right. by apply recv_ok_active.
Qed.

(** ** ANNOUNCE *)
Lemma geometry_range r :
  let r' := compute_increment_geometry_ r in
  0 < chunks_per_increment_ r' < 65536 /\ 0 < total_increments_ r' < 65536 /\
  0 < chunks_in_last_increment_ r' < 65536.
Proof.
  cbn. repeat match goal with
  | |- context [if ?a =? 0 then _ else _] =>
    match a with u16 _ => destruct (Z.eqb_spec a 0) end end;
  repeat match goal with |- context [u16 ?a] => pose proof (u16_range a); generalize dependent (u16 a); intros end;
  lia.
Qed.

Lemma adopt_announce_ok a p chunk kb r h :
  heap_ok (r <| active_handler_ := Some p |>) ->
  handler_heap r !! p = Some h -> handler_is_receiving h = true ->
  announced h = (fa_file_size a, fa_md5 a) ->
  let r1 := adopt_announce_ a p chunk kb r in
  heap_ok r1 /\ active_busy true r1 /\ in_complete_phase_ r1 = in_complete_phase_ r /\
  chunk_payload_size_ r1 = chunk /\
  0 < chunks_per_increment_ r1 < 65536 /\ 0 < total_increments_ r1 < 65536 /\
  0 < chunks_in_last_increment_ r1 < 65536.
Proof.
  intros [] Hp Hr Han. split; [by constructor|]. split; [by exists p, h|].
  do 2 (split; [done|]). apply geometry_range.
Qed.

Lemma start_first_increment_ok r1 :
  0 < chunk_payload_size_ r1 < 65536 ->
  0 < chunks_per_increment_ r1 < 65536 -> 0 < total_increments_ r1 < 65536 ->
  0 < chunks_in_last_increment_ r1 < 65536 ->
  heap_ok r1 -> active_busy true r1 ->
  let r2 := start_first_increment_ r1 in
  heap_ok r2 /\ active_busy true r2 /\ transfer_ok r2 /\
  in_complete_phase_ r2 = in_complete_phase_ r1.
Proof.
  intros Hch G1 G2 G3 [] Hb1. split; [by constructor|]. split; [done|]. split; [|done].
  assert (0 < chunks_in_increment_ r1 0 < 65536) as Hn
    by (unfold chunks_in_increment_; case_match; lia).
  unfold start_first_increment_. constructor; try done.
  - cbn. lia.
  - apply buffer_ok_reset. lia.
  - cbn [increment_buf_ upd ib_data ib_reset]. rewrite length_replicate.
    rewrite u32_small by nia. rewrite Z2Nat.id by nia. done.
Qed.

Lemma accept_announce_inv a p h chunk kb s :
  in_complete_phase_ s.1 = false ->
  heap_ok (s.1 <| active_handler_ := Some p |>) ->
  handler_heap s.1 !! p = Some h -> handler_is_receiving h = true ->
  announced h = (fa_file_size a, fa_md5 a) ->
  0 < chunk < 65536 ->
  wp (accept_announce_ a p chunk kb) (fun _ => inv) s.
Proof.
  intros Hc Hh Hp Hr Han Hchunk. unfold accept_announce_.
  apply wp_bind, wp_update, wp_bind, wp_this. cbn [fst snd].
  destruct (adopt_announce_ok a p chunk kb s.1 h) as (Hh1 & Hb1 & Hc1 & Hch & G1 & G2 & G3);
    try done. generalize dependent (adopt_announce_ a p chunk kb s.1). intros r1 ? ? ? ? ? ? ?.
  apply wp_if; intros _.
  - apply wp_bind. eapply wp_abort_active; [done|done|]. intros r' w' Hf Hh' Hb'.
    apply wp_bind. eapply wp_mono; [apply reset_inv; [done|by right]|]. intros ? ? (? & _).
    wp_recv. done.
  - apply wp_bind, wp_update, wp_bind, wp_this, wp_bind. cbn [fst snd].
    destruct (start_first_increment_ok r1) as (Hh2 & Hb2 & Ht2 & Hc2); try done; try lia.
    generalize dependent (start_first_increment_ r1). intros r2 ? ? ? ?.
    wp_recv.
    + eapply wp_abort_active; [done|done|]. intros r' w'' Hf Hh' Hb'.
      apply wp_bind. eapply wp_mono; [apply reset_inv; [done|by right]|]. intros ? ? (? & _).
      by apply wp_ret.
    + apply recv_ok_intro; [by destruct Hh2|done|by destruct Ht2|cbn; congruence|cbn; auto].
Qed.

(** A handler that is not the active one is called while the receiver is idle. *)
Lemma heap_ok_insert_idle r p h q :
  heap_ok r -> active_handler_ r = None -> handler_ok h ->
  (q = None -> handler_is_receiving h = false) -> (q = None \/ q = Some p) ->
  heap_ok (r <| handler_heap ::= <[p := h]> |> <| active_handler_ := q |>).
Proof.
  intros [H1 H2 H3 H4] Ha Hh Hq Hqp. constructor; cbn.
  - intros q' ->. destruct Hqp as [|[= ->]]; [done|]. rewrite lookup_insert_eq. by eexists.
  - intros action q' Hq'. apply lookup_insert_is_Some.
    destruct (decide (p = q')); [by left|right; eauto].
  - intros q' h' [[<- <-]|[Hne Hq']]%lookup_insert_Some; [done|]. by eapply H3.
  - intros q' h' [[<- <-]|[Hne Hq']]%lookup_insert_Some Hn; [|by eapply H4; [|congruence]].
    apply Hq. naive_solver.
Qed.

Lemma heap_ok_insert_quiet r p h :
  heap_ok r -> active_handler_ r = None -> handler_ok h -> handler_is_receiving h = false ->
  heap_ok (r <| handler_heap ::= <[p := h]> |>).
Proof.
  intros Hok Ha Hh Hr. destruct (heap_ok_insert_idle r p h None Hok Ha Hh) as [A1 A2 A3 A4]; auto.
  constructor; auto.
  - cbn. by rewrite Ha.
  - intros q h' Hq _. by apply (A4 q h').
Qed.

Lemma handle_announce_inv a s :
  0 <= fa_chunk_size a < 65536 -> inv s -> wp (handle_announce_ a) (fun _ => inv) s.
Proof.
  intros Hcs Hinv. unfold handle_announce_. destruct s as [r w].
  apply wp_bind, wp_this. cbn [fst snd].
  do 3 (apply wp_if; intros ?; [wp_recv; done|]).
  do 2 (apply wp_if; intros ?; [wp_recv; done|]).
  destruct (handlers_ r !! fa_action a) as [p|] eqn:Ep; [|wp_recv; done].
  assert (state_ r = IDLE) as Hst.
  { zprop. unfold state_is in *. by eapply bool_decide_eq_true. }
  destruct Hinv as [Hh Hm]. cbn [fst] in *. rewrite Hst in Hm. destruct Hm as [Ha Hc].
  destruct (h_registered r Hh _ _ Ep) as [h Hp].
  apply wp_bind, wp_invoke; [|cbn; congruence]. cbn [fst snd]. intros h0 Hh0. simplify_eq.
  eapply wp_mono; [apply on_announce_law; try done|].
  { by eapply (h_ok r Hh). } { eapply (h_quiet r Hh); [done|by rewrite Ha]. }
  intros [resp kb] [h' w'] (Hok' & Hr' & Han & Hrange & Hkb). cbn [fst snd] in *.
  pose proof (fun q => heap_ok_insert_idle r p h' q Hh Ha Hok') as Hheap.
  assert (heap_ok (r <| handler_heap ::= <[p:=h']> |>) \/ ar_accepted resp = true) as Hna.
  { destruct (ar_accepted resp); [by right|left].
    by apply heap_ok_insert_quiet. }
  apply wp_if; intros Hacc; zprop.
  - wp_recv. split; [|cbn; by rewrite Hst]. destruct Hna; [done|congruence].
  - apply wp_bind, wp_this. cbn [fst snd]. apply wp_if; intros Hbad; zprop.
    + apply wp_bind, wp_invoke; [|cbn; by rewrite lookup_insert_eq].
      cbn [fst snd]. intros h2 Hh2. cbn in Hh2. rewrite lookup_insert_eq in Hh2. simplify_eq.
      eapply wp_mono; [by apply on_abort_law|]. intros [] [h3 w3] [Hok3 Hr3]. cbn [fst snd] in *.
      wp_recv. split; [|cbn; by rewrite Hst].
      pose proof (heap_ok_insert_quiet r p h3 Hh Ha Hok3 Hr3) as [].
      constructor; cbn in *; by rewrite ?insert_insert_eq.
    + eapply (accept_announce_inv a p h'); cbn; try done.
      * apply Hheap; [done|by right].
      * by rewrite lookup_insert_eq.
      * congruence.
      * auto.
      * lia.
Qed.

(** ** Dispatch and loop *)
Lemma handle_file_transfer_inv payload s :
  bytes_ok payload -> inv s -> wp (handle_file_transfer payload) (fun _ => inv) s.
Proof.
  intros Hp Hinv. unfold handle_file_transfer. destruct payload as [|phase rest]; [by apply wp_ret|].
  apply wp_bind, wp_millis, wp_bind, wp_update.
  assert (inv (s.1 <| last_activity_ms_ := millis s.2 |>, s.2)) as Hinv'
    by (by apply recv_ok_activity).
  apply wp_if; intros _; [|apply wp_if; intros _; [|apply wp_if; intros _; [|apply wp_if; intros _]]];
    try (apply wp_if; intros Hlen; [by apply wp_ret|]).
  - apply handle_announce_inv; [|done]. zprop.
    apply (of_bytes_ok (T := espnow_file_announce_t)) in Hp; [|lia]. cbn in Hp |- *.
    destruct_and?. lia.
  - by apply handle_end_inv.
  - by apply handle_abort_inv.
  - by apply handle_blast_complete_inv.
  - by apply wp_ret.
Qed.

Lemma recv_ok_restart r (b : bool) : recv_ok r -> recv_ok (r <| restart_pending_ := b |>).
Proof.
  intros [[] Hs]. split; [by constructor|]. cbn. destruct (state_ r); try done;
    destruct Hs as (?&[]&?); split_and!; try done; by constructor.
Qed.

Lemma wp_restart_if_due (Q : unit -> St -> Prop) s :
  Q tt s -> (forall w', Q tt (s.1 <| restart_pending_ := false |>, w')) ->
  wp perform_restart_if_due_ Q s.
Proof. intros H1 H2. unfold perform_restart_if_due_. wp_recv; auto. Qed.

Lemma recv_ok_verifying r :
  recv_ok r -> in_complete_phase_ r = true ->
  state_ r = VERIFYING /\ heap_ok r /\ active_busy false r.
Proof.
  intros [Hh Hm] Hc. destruct (state_ r); try done; destruct Hm as [? Hm]; try congruence;
    try done. all: destruct Hm; congruence.
Qed.

Lemma complete_phase_inv s :
  inv s -> in_complete_phase_ s.1 = true -> wp complete_phase_ (fun _ => inv) s.
Proof.
  intros Hinv Hc. destruct (recv_ok_verifying _ Hinv Hc) as (Hst & Hh & Hb).
  unfold complete_phase_. wp_recv; cbn [fst snd] in *;
    try (eapply wp_mono; [apply reset_inv; [by destruct Hh|by right]|];
         intros [] s' ([Hh' Hm'] & Hs' & _); unfold schedule_restart_; wp_recv;
         rewrite Hs' in Hm'; split; [by destruct Hh'|]; cbn; rewrite Hs'; tauto).
  - split; [by destruct Hh|]. cbn. by rewrite Hst.
  - done.
Qed.

Lemma loop_inv s : inv s -> wp loop (fun _ => inv) s.
Proof.
  intros Hinv. unfold loop, loop_rest_. apply wp_bind, wp_restart_if_due.
  - wp_recv; auto using complete_phase_inv, abort_entry_inv.
  - intros w'. assert (inv (s.1 <| restart_pending_ := false |>, w')) as Hinv'
      by (by apply recv_ok_restart).
    wp_recv; auto using complete_phase_inv, abort_entry_inv.
Qed.

(** ** The component as a state machine

    One step is one call of an entry point, a configuration call, or the world
    moving on (time passing, other components running). *)
Inductive recv_step : St -> St -> Prop :=
  | step_file_transfer payload s :
      bytes_ok payload -> recv_step s (handle_file_transfer payload s).2
  | step_file_data payload s :
      bytes_ok payload -> recv_step s (handle_file_data payload s).2
  | step_loop s : recv_step s (loop s).2
  | step_abort reason notify s : recv_step s (abort reason notify s).2
  | step_announce_tx_counter c s : recv_step s (set_announce_tx_counter c s).2
  | step_blast_tx_counter c s : recv_step s (set_blast_complete_tx_counter c s).2
  | step_ota_enabled b s : recv_step s (set_ota_enabled b s).2
  | step_deep_sleep b s : recv_step s (set_deep_sleep_active b s).2
  | step_local_mac mac s : recv_step s (set_local_mac mac s).2
  | step_send_ack_fn b s : recv_step s (set_send_ack_fn b s).2
  | step_register action p s :
      (forall q, p = Some q -> is_Some (handler_heap s.1 !! q)) ->
      recv_step s (register_handler action p s).2
  | step_world r w w' : recv_step (r, w) (r, w').

Ltac config_step Hinv :=
  destruct Hinv as [[] Hs]; split; [by constructor|]; cbn in *; destruct (state_ _); try done;
  destruct Hs as (?&[]&?); split_and!; try done; by constructor.

Lemma recv_step_inv s s' : inv s -> recv_step s s' -> inv s'.
Proof.
  intros Hinv Hstep. destruct Hstep as [payload s ?|payload s ?|s|reason notify s|c s|c s|b s|b s|mac s|b s
    |action p s Hp|r w w'].
  - by apply (handle_file_transfer_inv payload s).
  - by apply (handle_file_data_inv payload s).
  - by apply (loop_inv s).
  - by apply (abort_entry_inv reason notify s).
  - config_step Hinv.
  - config_step Hinv.
  - config_step Hinv.
  - config_step Hinv.
  - config_step Hinv.
  - config_step Hinv.
  - assert (forall f, (forall a q, f (handlers_ s.1) !! a = Some q ->
                         p = Some q \/ handlers_ s.1 !! a = Some q) ->
                      inv (s.1 <| handlers_ ::= f |>, s.2)) as Hset.
    { intros f Hf. destruct Hinv as [[H1 H2 H3 H4] Hs]. split.
      - constructor; try done. intros a q Hq. destruct (Hf a q Hq); eauto.
      - cbn in *. destruct (state_ _); try done;
          destruct Hs as (?&[]&?); split_and!; try done; by constructor. }
    destruct p as [p|]; apply Hset; intros a q Hq; cbn in Hq.
    + apply lookup_insert_Some in Hq. naive_solver.
    + apply lookup_delete_Some in Hq. naive_solver.
  - done.
Qed.

Lemma recv_steps_inv s s' : inv s -> rtc recv_step s s' -> inv s'.
Proof. induction 2; eauto using recv_step_inv. Qed.

(** ** Timeouts *)
Definition silent_for (t : Z) s : Prop := t < u32 (millis s.2 - last_activity_ms_ s.1).

Lemma loop_silence s :
  inv s -> restart_pending_ s.1 = false ->
  state_ s.1 = RECEIVING \/ state_ s.1 = WAITING_END ->
  silent_for ESPNOW_RADIO_SILENCE_ABORT_MS s ->
  wp loop (fun _ s' => inv s' /\ state_ s'.1 = IDLE) s.
Proof.
  intros Hinv Hrp Hst Hsil. unfold loop, loop_rest_.
  assert (in_complete_phase_ s.1 = false /\ exists b, active_busy b s.1) as [Hc [b Hb]].
  { destruct Hinv as [_ Hm]. destruct Hst as [E|E]; rewrite E in Hm; naive_solver. }
  apply wp_bind. unfold perform_restart_if_due_. apply wp_bind, wp_this. rewrite Hrp. apply wp_ret.
  apply wp_bind, wp_this. rewrite Hc.
  apply wp_if; intros Hi.
  { exfalso. zprop. unfold state_is in Hi. rewrite !bool_decide_eq_true in Hi.
    destruct Hb as (?&?&?&_). destruct Hi; [destruct Hst; congruence|congruence]. }
  apply wp_bind, wp_millis.
  assert (wp (abort ESPNOW_FILE_ABORT_TIMEOUT true) (fun _ s' => inv s' /\ state_ s'.1 = IDLE) s)
    as Hab by (apply abort_inv; [apply Hinv|eauto]).
  unfold silent_for in Hsil.
  destruct Hst as [E|E]; rewrite E; cbn -[abort]; apply wp_when; intros ?; zprop; (done || lia).
Qed.

Lemma loop_writing_stays s :
  inv s -> restart_pending_ s.1 = false -> state_ s.1 = WRITING -> (loop s).2 = s.
Proof.
  intros Hinv Hrp Hst. assert (in_complete_phase_ s.1 = false) as Hc.
  { destruct Hinv as [_ Hm]. rewrite Hst in Hm. tauto. }
  assert (wp loop (fun _ s' => s' = s) s) as Hw; [|done].
  unfold loop, loop_rest_, perform_restart_if_due_. wp_recv; zprop; try done; try congruence;
    rewrite ?Hst in *; done.
Qed.
End receiver.
