(* ===== verification/FileContent.v ===== *)
(** * FileContent: what the receiver writes is the announced file

    The geometry of increments computed by [compute_increment_geometry_] is
    exact for every file up to [kExactFileLimit] bytes; the reassembly buffer
    holds the chunks of the file whatever the order, loss or duplication of
    FILE_DATA frames; and a written increment appends exactly its part of the
    file to the handler's output.  The handler is seen through [WriterLaws]. *)
From S2P Require Import Prelude Wire IncrementBuffer FileReceiver FileReceiverInv.

(** 65535 increments of at least 4096 bytes. *)
Definition kExactFileLimit : Z := 65535 * 4096.

Section geometry.
Context {H : Type}.
Implicit Types (r : FileReceiver H).

(** The exact geometry of the transfer in progress. *)
Record transfer_exact r : Prop := {
  e_file : 0 < file_size_ r <= kExactFileLimit;
  e_chunk : 0 < chunk_payload_size_ r < 65536;
  e_cpi : 0 < chunks_per_increment_ r < 65536;
  e_total : (total_chunks_ r - 1) * chunk_payload_size_ r < file_size_ r
            <= total_chunks_ r * chunk_payload_size_ r;
  e_last : 0 < chunks_in_last_increment_ r <= chunks_per_increment_ r;
  e_increments : 0 < total_increments_ r < 65536;
  e_split : total_chunks_ r = (total_increments_ r - 1) * chunks_per_increment_ r +
                              chunks_in_last_increment_ r
}.

Lemma cpi_eq chunk :
  0 < chunk < 65536 ->
  (if u16 (8192 / chunk) =? 0 then 1 else u16 (8192 / chunk)) = Z.max 1 (8192 / chunk).
Proof.
  intros Hc. assert (0 <= 8192 / chunk <= 8192) as Hr.
  { split; [apply Z.div_pos; lia|]. apply Z.div_le_upper_bound; nia. }
  rewrite u16_small by lia. zcase; lia.
Qed.

(** An increment carries at least 4097 bytes. *)
Lemma increment_bytes chunk : 0 < chunk < 65536 -> 4097 <= Z.max 1 (8192 / chunk) * chunk.
Proof.
  intros Hc. pose proof (Z.div_mod 8192 chunk ltac:(lia)).
  pose proof (Z.mod_pos_bound 8192 chunk ltac:(lia)).
  destruct (decide (chunk <= 4096)); [nia|].
  assert (0 <= 8192 / chunk) by (apply Z.div_pos; lia). nia.
Qed.

Lemma ceil_div_pos n d : 0 < n -> 0 < d -> 0 < (n + d - 1) / d.
Proof. intros. apply Z.div_str_pos. lia. Qed.

Lemma geometry_exact_lemma r :
  0 < file_size_ r <= kExactFileLimit -> 0 < chunk_payload_size_ r < 65536 ->
  ESPNOW_MAX_INCREMENT_KB <= buffer_size_kb_ r ->
  let r' := compute_increment_geometry_ r in
  transfer_exact r' /\ chunks_per_increment_ r' = Z.max 1 (8192 / chunk_payload_size_ r).
Proof.
  intros Hf Hc Hkb. unfold kExactFileLimit, ESPNOW_MAX_INCREMENT_KB in *.
  set (chunk := chunk_payload_size_ r) in *. set (fs := file_size_ r) in *.
  set (cpi := Z.max 1 (8192 / chunk)).
  set (tc := (fs + chunk - 1) / chunk). set (ti := (tc + cpi - 1) / cpi).
  pose proof (increment_bytes chunk Hc) as Hib. fold cpi in Hib.
  assert (0 < cpi < 65536) as Hcpi.
  { unfold cpi. assert (8192 / chunk <= 8192) by (apply Z.div_le_upper_bound; nia). lia. }
  pose proof (ceil_div_bounds fs chunk tc ltac:(lia) ltac:(lia) eq_refl) as [B1 B2].
  specialize (B2 ltac:(lia)). pose proof (ceil_div_pos fs chunk ltac:(lia) ltac:(lia)) as Htc.
  fold tc in Htc. assert (tc <= fs) by nia.
  pose proof (ceil_div_bounds tc cpi ti ltac:(lia) ltac:(lia) eq_refl) as [B3 B4].
  specialize (B4 ltac:(lia)). pose proof (ceil_div_pos tc cpi ltac:(lia) ltac:(lia)) as Hti.
  fold ti in Hti.
  assert (ti < 65536) by nia.
  assert (chunks_per_increment_ (compute_increment_geometry_ r) = cpi) as E1.
  { unfold compute_increment_geometry_, ESPNOW_MAX_INCREMENT_KB. cbn.
    rewrite Z.min_r by done. by apply cpi_eq. }
  assert (total_chunks_ (compute_increment_geometry_ r) = tc) as E2.
  { unfold compute_increment_geometry_. cbn. fold fs chunk.
    rewrite ceil_div_eq by lia. apply u32_small. fold tc. lia. }
  assert (total_increments_ (compute_increment_geometry_ r) = ti) as E3.
  { change (total_increments_ (compute_increment_geometry_ r)) with
      (let tc := total_chunks_ (compute_increment_geometry_ r) in
       let cpi := chunks_per_increment_ (compute_increment_geometry_ r) in
       let ti0 := u16 (tc / cpi + (if tc mod cpi =? 0 then 0 else 1)) in
       if ti0 =? 0 then 1 else ti0).
    rewrite E1, E2. cbv zeta. rewrite ceil_div_eq by lia. fold ti.
    rewrite u16_small by lia. zcase; lia. }
  assert (chunks_in_last_increment_ (compute_increment_geometry_ r) = tc - (ti - 1) * cpi) as E4.
  { change (chunks_in_last_increment_ (compute_increment_geometry_ r)) with
      (let tc := total_chunks_ (compute_increment_geometry_ r) in
       let cpi := chunks_per_increment_ (compute_increment_geometry_ r) in
       let ti := total_increments_ (compute_increment_geometry_ r) in
       let last0 := u16 (u32 (tc - u32 ((ti - 1) * cpi))) in
       if last0 =? 0 then cpi else last0).
    rewrite E1, E2, E3. cbv zeta.
    rewrite (u32_small ((ti - 1) * cpi)) by nia. rewrite u32_small, u16_small by nia. zcase; lia. }
  cbv zeta. split; [|exact E1]. constructor; rewrite ?E1, ?E2, ?E3, ?E4; cbn; fold fs chunk;
    try lia; unfold kExactFileLimit; lia.
Qed.
End geometry.

(** ** The chunks of a file *)
Definition file_chunk (F : bytes) (chunk sequence : Z) : bytes :=
  slice (Z.to_nat (sequence * chunk)) (Z.to_nat chunk) F.

Lemma length_file_chunk F chunk q :
  0 <= q -> 0 < chunk ->
  Z.of_nat (length (file_chunk F chunk q)) =
  Z.max 0 (Z.min chunk (Z.of_nat (length F) - q * chunk)).
Proof. intros Hq Hc. unfold file_chunk. rewrite length_slice. nia. Qed.

Lemma take_file_chunk F chunk q :
  0 <= q -> 0 < chunk ->
  take (Z.to_nat (q * chunk)) F ++ file_chunk F chunk q = take (Z.to_nat ((q + 1) * chunk)) F.
Proof.
  intros Hq Hc. unfold file_chunk, slice. rewrite take_take_drop. f_equal. nia.
Qed.

Section content.
Context {H W : Type} `{!ReceiverEnv W} `{!ActionHandler H W} `{!HandlerLaws H W}.
Abbreviation St := (FileReceiver H * W)%type.
Implicit Types (r : FileReceiver H) (w : W) (s : St).

(** File number of chunk [i] of the current increment. *)
Definition seq_of r (i : Z) : Z := current_increment_ r * chunks_per_increment_ r + i.

(** Every received chunk of the buffer holds the file's bytes. *)
Definition buf_matches (F : bytes) r : Prop :=
  forall i, i ∈ ib_set (increment_buf_ r) ->
    let c := file_chunk F (chunk_payload_size_ r) (seq_of r i) in
    slice (Z.to_nat (i * chunk_payload_size_ r)) (length c) (ib_data (increment_buf_ r)) = c.

(** The frame a sender of [F] transmits for a sequence number. *)
Definition data_frame (F : bytes) (chunk sequence : Z) : bytes :=
  to_bytes {| fdh_sequence := sequence |} ++ file_chunk F chunk sequence.

(** The increment that holds a sequence number. *)
Definition in_window r (sequence : Z) : bool :=
  (seq_of r 0 <=? sequence) &&
  (sequence <? seq_of r (chunks_in_increment_ r (current_increment_ r))).

Lemma chunks_in_increment_exact r i :
  transfer_exact r -> 0 <= i < total_increments_ r ->
  0 < chunks_in_increment_ r i <= chunks_per_increment_ r /\
  i * chunks_per_increment_ r + chunks_in_increment_ r i <= total_chunks_ r /\
  (i + 1 = total_increments_ r ->
   i * chunks_per_increment_ r + chunks_in_increment_ r i = total_chunks_ r) /\
  (i + 1 < total_increments_ r -> chunks_in_increment_ r i = chunks_per_increment_ r).
Proof.
  intros E Hi. destruct E. unfold chunks_in_increment_. zcase; split_and!; try nia.
Qed.

Lemma total_chunks_bound r :
  transfer_exact r -> 0 < total_chunks_ r <= file_size_ r /\
  total_chunks_ r * chunk_payload_size_ r < 4294967296.
Proof. intros []. unfold kExactFileLimit in *. nia. Qed.

Lemma expected_chunk_len_exact F r q :
  transfer_exact r -> file_size_ r = Z.of_nat (length F) -> 0 <= q < total_chunks_ r ->
  expected_chunk_len_ r q = Z.of_nat (length (file_chunk F (chunk_payload_size_ r) q)) /\
  0 < expected_chunk_len_ r q.
Proof.
  intros E HF Hq. pose proof (total_chunks_bound r E) as [B1 B2]. destruct E.
  rewrite length_file_chunk by lia. unfold expected_chunk_len_.
  rewrite u64_small by nia. zcase; try lia; cbn; zcase; nia.
Qed.

(** ** FILE_DATA stores the file's chunks *)
Lemma buf_matches_store F r t i :
  transfer_exact r -> transfer_ok r -> buf_matches F r ->
  0 <= i < chunks_in_increment_ r (current_increment_ r) ->
  let c := file_chunk F (chunk_payload_size_ r) (seq_of r i) in
  Z.of_nat (length c) <= chunk_payload_size_ r ->
  let r' := r <| last_activity_ms_ := t |> <| increment_buf_ ::= fun b => mark_chunk_received
       (b <| ib_data ::= splice (Z.to_nat (i * chunk_payload_size_ r)) c |>) i |> in
  buf_matches F r' /\ ib_set (increment_buf_ r') = {[i]} ∪ ib_set (increment_buf_ r).
Proof.
  intros E T Hm Hi c Hlen r'.
  set (b := (increment_buf_ r) <| ib_data ::= splice (Z.to_nat (i * chunk_payload_size_ r)) c |>).
  assert (buffer_ok b) as Hb by (apply buffer_ok_data, T).
  assert (ib_set (increment_buf_ r') = {[i]} ∪ ib_set (increment_buf_ r)) as Hset.
  { change (increment_buf_ r') with (mark_chunk_received b i).
    rewrite ib_set_mark; [done|done|]. by rewrite <-(t_expected r T) in Hi. }
  split; [|exact Hset]. intros j Hj. rewrite Hset in Hj.
  change (increment_buf_ r') with (mark_chunk_received b i). rewrite mark_data.
  change (ib_data b) with (splice (Z.to_nat (i * chunk_payload_size_ r)) c (ib_data (increment_buf_ r))).
  change (chunk_payload_size_ r') with (chunk_payload_size_ r).
  change (seq_of r' j) with (seq_of r j). cbv zeta.
  pose proof (t_data r T) as Hd. pose proof (t_chunk r T) as Hc.
  assert (Z.to_nat (i * chunk_payload_size_ r) <= length (ib_data (increment_buf_ r)))%nat as Hoff by nia.
  destruct (decide (j = i)) as [->|Hne].
  { fold c. by apply slice_splice_same. }
  assert (j ∈ ib_set (increment_buf_ r)) as Hj'
    by (apply elem_of_union in Hj as [?%elem_of_singleton|?]; done).
  rewrite slice_splice_disjoint; [by apply Hm|done|].
  apply elem_of_ib_set in Hj' as [Hj' _]. rewrite (t_expected r T) in Hj'.
  assert (0 <= seq_of r j) by (unfold seq_of; pose proof (t_current r T); pose proof (t_cpi r T); nia).
  pose proof (length_file_chunk F (chunk_payload_size_ r) (seq_of r j) ltac:(done) ltac:(lia)).
  destruct (decide (j < i)); [left|right]; nia.
Qed.

Lemma data_frame_parts F chunk q :
  0 <= q < 4294967296 ->
  (sizeof espnow_file_data_header_t <= length (data_frame F chunk q))%nat /\
  fdh_sequence (of_bytes (data_frame F chunk q)) = q /\
  drop (sizeof espnow_file_data_header_t) (data_frame F chunk q) = file_chunk F chunk q.
Proof.
  intros Hq. assert (struct_ok {| fdh_sequence := q |}) as Hok by (cbn; lia).
  unfold data_frame. split_and!.
  - rewrite length_app, length_to_bytes by done. lia.
  - by rewrite of_to_bytes.
  - rewrite drop_app_length'; [done|]. by rewrite length_to_bytes.
Qed.

(** The reaction to a sender's frame: a frame of the current increment is
    stored once, any other leaves the buffer alone. *)
Definition data_stored (F : bytes) (q : Z) r (ok : bool) s : Prop :=
  ok = in_window r q || ((q <? seq_of r 0) && increment_written_ r) /\
  (exists t b, s.1 = r <| last_activity_ms_ := t |> <| increment_buf_ := b |> /\
     ib_set b = if in_window r q then {[q - seq_of r 0]} ∪ ib_set (increment_buf_ r)
                else ib_set (increment_buf_ r)) /\
  buf_matches F s.1.

Lemma window_test r q :
  transfer_ok r -> transfer_exact r -> 0 <= q < total_chunks_ r ->
  (q <? u32 (current_increment_ r * chunks_per_increment_ r)) ||
  (Z.min (u32 (u32 (current_increment_ r * chunks_per_increment_ r) +
               chunks_in_increment_ r (current_increment_ r))) (total_chunks_ r) <=? q)
  = negb (in_window r q).
Proof.
  intros T E Hq. destruct (increment_window r T) as [E1 E2]. rewrite E1, E2.
  unfold in_window, seq_of. rewrite Z.add_0_r. zcase; try done; lia.
Qed.

Lemma file_data_honest F s q :
  inv s -> state_ s.1 = RECEIVING -> transfer_exact s.1 ->
  file_size_ s.1 = Z.of_nat (length F) -> buf_matches F s.1 -> 0 <= q < total_chunks_ s.1 ->
  wp (handle_file_data (data_frame F (chunk_payload_size_ s.1) q)) (data_stored F q s.1) s.
Proof.
  destruct s as [r w]. cbn [fst]. intros Hinv Hst E HF Hm Hq.
  destruct (recv_ok_busy r Hinv) as (_ & (p & h & Ha & _) & T & _);
    [unfold state_is; by rewrite Hst|].
  destruct (total_chunks_bound r E) as [B1 B2]. pose proof (e_file r E) as Hfile.
  unfold kExactFileLimit in Hfile.
  destruct (data_frame_parts F (chunk_payload_size_ r) q ltac:(lia)) as (P1 & P2 & P3).
  destruct (expected_chunk_len_exact F r q E HF Hq) as [L1 L2].
  unfold handle_file_data. rewrite P2, P3.
  apply wp_if; intros C; zprop; [lia|clear C]. apply wp_bind, wp_this. cbn [fst].
  apply wp_if; intros C; [by rewrite Hst, Ha in C|clear C].
  apply wp_if; intros C; zprop; [lia|clear C].
  rewrite window_test by done.
  destruct (in_window r q) eqn:Hw; cbn [negb].
  2:{ apply wp_ret. unfold data_stored. rewrite Hw. cbn [orb]. split_and!; [|exists (last_activity_ms_ r), (increment_buf_ r)|done].
      - unfold seq_of. rewrite Z.add_0_r. by destruct (increment_window r T) as [-> _].
      - split; [by destruct r|done]. }
  rewrite L1, Z.eqb_refl. rewrite <-L1 at 1. destruct (Z.eqb_spec (expected_chunk_len_ r q) 0); [lia|]. cbn [orb negb].
  pose proof Hw as Hw'. unfold in_window, seq_of in Hw. zprop.
  destruct (chunk_index_range r q T ltac:(lia)) as [E3 E4]. rewrite E3.
  destruct (chunks_in_increment_exact r (current_increment_ r) E (t_current r T)) as (X1 & _).
  assert (q mod chunks_per_increment_ r = q - seq_of r 0) as Hi.
  { unfold seq_of. symmetry. apply (Z.mod_unique_pos _ _ (current_increment_ r)); lia. }
  rewrite Hi in *. apply wp_bind, wp_millis, wp_bind, wp_update. cbn [fst snd].
  assert (seq_of r (q - seq_of r 0) = q) as Hq' by (unfold seq_of; lia).
  pose proof (t_chunk r T). pose proof (t_data r T) as Hd.
  apply wp_if; intros Hrec.
  { apply wp_ret. unfold data_stored. rewrite Hw'. split_and!; [done| |exact Hm].
    exists (millis w), (increment_buf_ r). split; [by destruct r|].
    symmetry. apply subseteq_union_1_L, singleton_subseteq_l.
    apply elem_of_ib_set. by rewrite (t_expected r T). }
  pose proof (length_file_chunk F (chunk_payload_size_ r) q ltac:(lia) ltac:(lia)) as Hlc.
  destruct (chunk_end_small r (q - seq_of r 0) (Z.of_nat (length (file_chunk F (chunk_payload_size_ r) q))) T E4)
    as [U1 U2]; [lia|]. rewrite U1, U2.
  apply wp_if; intros Hfit; [exfalso; zprop; nia|].
  apply wp_bind, wp_update, wp_ret. cbn [fst snd].
  pose proof (buf_matches_store F r (millis w) (q - seq_of r 0) E T Hm E4) as Hs.
  rewrite Hq' in Hs. cbv zeta in Hs. destruct Hs as [Hs1 Hs2]; [lia|].
  unfold data_stored. rewrite Hw'. split_and!; [done| |exact Hs1].
  eexists (millis w), _. split; [|exact Hs2]. reflexivity.
Qed.
End content.

(** ** Writing increments

    What a handler that stores the file promises: [written] is what it has
    stored since the announcement; success at the end means that it has the
    announced size and digest. *)
Class WriterLaws (H W : Type) `{!ActionHandler H W} `{!HandlerLaws H W} (digest : bytes -> bytes) := {
  written : H -> bytes;
  on_announce_written file_size md5 chunk_size action file_id kb h w :
    handler_ok h -> handler_is_receiving h = false ->
    wp (on_announce file_size md5 chunk_size action file_id kb) (fun res s =>
      ar_accepted res.1 = true -> written s.1 = [] /\ ESPNOW_MAX_INCREMENT_KB <= res.2) (h, w);
  on_data_written sequence data h w :
    handler_ok h -> handler_is_receiving h = true ->
    wp (on_data sequence data) (fun res s =>
      written s.1 = if cr_accepted res then written h ++ data else written h) (h, w);
  on_end_checked h w :
    handler_ok h -> handler_is_receiving h = true ->
    wp on_end (fun result _ => result = ESPNOW_FILE_COMPLETE_SUCCESS ->
      u32 (Z.of_nat (length (written h))) = (announced h).1 /\
      digest (written h) = (announced h).2) (h, w)
}.

Section writing.
Context {H W : Type} `{!ReceiverEnv W} `{!ActionHandler H W} `{!HandlerLaws H W}
        {digest : bytes -> bytes} `{!WriterLaws H W digest}.
Abbreviation St := (FileReceiver H * W)%type.
Implicit Types (r : FileReceiver H) (w : W) (s : St).

(** What the active handler has stored. *)
Definition active_written (l : bytes) r : Prop :=
  exists p h, active_handler_ r = Some p /\ handler_heap r !! p = Some h /\ written h = l.

Lemma slice_bounds_exact F r i :
  transfer_exact r -> transfer_ok r -> file_size_ r = Z.of_nat (length F) ->
  0 <= i < chunks_in_increment_ r (current_increment_ r) ->
  slice_bounds r (chunks_in_increment_ r (current_increment_ r)) i =
    (i * chunk_payload_size_ r,
     Z.of_nat (length (file_chunk F (chunk_payload_size_ r) (seq_of r i)))) /\
  0 < Z.of_nat (length (file_chunk F (chunk_payload_size_ r) (seq_of r i))) <= chunk_payload_size_ r.
Proof.
  intros E T HF Hi. pose proof (chunks_in_increment_range r (current_increment_ r) T) as Hn.
  destruct (chunks_in_increment_exact r (current_increment_ r) E (t_current r T)) as (X1 & X2 & X3 & X4).
  pose proof (total_chunks_bound r E) as [B1 B2]. pose proof (e_total r E) as Ht.
  pose proof (t_chunk r T) as Hc. pose proof (t_cpi r T). pose proof (t_current r T) as Hcur.
  pose proof (e_file r E) as Hfs. unfold kExactFileLimit in Hfs.
  rewrite length_file_chunk by (unfold seq_of; nia). rewrite <-HF.
  set (q := seq_of r i). assert (0 <= q < total_chunks_ r) as Hq by (unfold q, seq_of; nia).
  unfold slice_bounds. rewrite (u32_small (i * _)) by nia.
  replace (current_increment_ r * chunks_per_increment_ r * chunk_payload_size_ r +
           i * chunk_payload_size_ r) with (q * chunk_payload_size_ r) by (unfold q, seq_of; lia).
  rewrite (u64_small (q * chunk_payload_size_ r)) by nia.
  destruct (Z.eqb_spec i (chunks_in_increment_ r (current_increment_ r) - 1)) as [He|He].
  - destruct (Z.ltb_spec (file_size_ r) (q * chunk_payload_size_ r + chunk_payload_size_ r)).
    + rewrite u64_small, u32_small by nia. split; [f_equal|]; nia.
    + split; [f_equal|]; nia.
  - assert ((q + 2) * chunk_payload_size_ r <= total_chunks_ r * chunk_payload_size_ r)
      by (unfold q, seq_of; nia).
    split; [f_equal|]; nia.
Qed.

(** The bytes of chunk [i] of a complete, matching buffer. *)
Lemma buffered_chunk F r i :
  transfer_ok r -> buf_matches F r -> is_complete (increment_buf_ r) = true ->
  0 <= i < chunks_in_increment_ r (current_increment_ r) ->
  slice (Z.to_nat (i * chunk_payload_size_ r))
        (length (file_chunk F (chunk_payload_size_ r) (seq_of r i)))
        (ib_data (increment_buf_ r)) = file_chunk F (chunk_payload_size_ r) (seq_of r i).
Proof.
  intros T Hm Hc Hi. apply Hm, elem_of_ib_set. rewrite (t_expected r T). split; [done|].
  apply (is_complete_iff _ (t_buffer r T)); [done|]. by rewrite (t_expected r T).
Qed.

(** The handler takes every next piece of [F]. *)
Definition accepts_file (F : bytes) : Prop := forall sequence data h w,
  handler_ok h -> handler_is_receiving h = true -> data <> [] ->
  (written h ++ data) `prefix_of` F -> cr_accepted (on_data sequence data (h, w)).1 = true.

Record ready_to_write (F : bytes) r : Prop := {
  rw_exact : transfer_exact r;
  rw_size : file_size_ r = Z.of_nat (length F);
  rw_match : buf_matches F r;
  rw_complete : is_complete (increment_buf_ r) = true
}.

Lemma ready_frame F r r' : frame_eq r r' -> ready_to_write F r -> ready_to_write F r'.
Proof. intros ->. intros [[] ? ? ?]. by constructor. Qed.

Lemma write_chunk_appends F st i s :
  accepts_file F -> in_state st s -> ready_to_write F s.1 ->
  0 <= i < chunks_in_increment_ s.1 (current_increment_ s.1) ->
  active_written (take (Z.to_nat (seq_of s.1 i * chunk_payload_size_ s.1)) F) s.1 ->
  wp (write_chunk_ (chunks_in_increment_ s.1 (current_increment_ s.1)) i) (fun res s' =>
    res = Some true /\ in_state st s' /\ frame_eq s.1 s'.1 /\
    active_written (take (Z.to_nat (seq_of s.1 (i + 1) * chunk_payload_size_ s.1)) F) s'.1) s.
Proof.
  intros Hacc Hs [E HF Hm Hcomp] Hi (p & h & Ha & Hp & Hw).
  pose proof Hs as (_ & Hh & (p' & h' & Ha' & Hp' & Hr & _) & T & _). simplify_eq.
  destruct (slice_bounds_exact F s.1 i E T HF Hi) as [Hsb Hlen].
  assert (0 <= seq_of s.1 i) as Hq.
  { unfold seq_of. pose proof (t_cpi _ T). pose proof (t_current _ T). nia. }
  pose proof (t_chunk _ T) as Hc.
  eapply (wp_mono _ (fun res s' => (in_state st s' /\ frame_eq s.1 s'.1) /\ (res = Some true /\
    active_written (take (Z.to_nat (seq_of s.1 (i + 1) * chunk_payload_size_ s.1)) F) s'.1)));
    [apply wp_and; [apply (write_chunk_frame st _ i s Hs)|]|].
  2:{ intros res s' [[? ?] [? ?]]. split_and!; done. }
  unfold write_chunk_. apply wp_bind, wp_this. rewrite Hsb.
  apply wp_if; intros C; zprop; [lia|clear C].
  destruct (chunk_end_small s.1 i (Z.of_nat (length (file_chunk F (chunk_payload_size_ s.1) (seq_of s.1 i)))) T Hi)
    as [U1 U2]; [lia|]. rewrite U2 in U1. rewrite U1.
  apply wp_if; intros C; zprop; [rewrite (t_data _ T) in C; nia|clear C].
  rewrite Nat2Z.id, (buffered_chunk F s.1 i T Hm Hcomp Hi).
  apply wp_bind. unfold invoke_active. apply wp_bind, wp_this. rewrite Ha.
  apply wp_invoke; [|congruence]. intros h0 Hh0. simplify_eq.
  set (c := file_chunk F _ _) in *.
  assert (c <> []) as Hne by (intros Hnil; rewrite Hnil in Hlen; cbn in Hlen; lia).
  pose proof (take_file_chunk F (chunk_payload_size_ s.1) (seq_of s.1 i) Hq ltac:(lia)) as Htk.
  fold c in Htk. rewrite <-Hw in Htk.
  pose proof (Hacc (u32 (current_increment_ s.1 * chunks_per_increment_ s.1 + i)) c h s.2
    (h_ok _ Hh _ _ Hp) Hr Hne ltac:(rewrite Htk; apply prefix_take)) as Hok.
  pose proof (on_data_written (u32 (current_increment_ s.1 * chunks_per_increment_ s.1 + i)) c h s.2
    (h_ok _ Hh _ _ Hp) Hr) as Hwr.
  unfold wp in Hwr |- *. destruct (on_data _ _ _) as [res [h1 w1]]. cbn [fst snd] in *.
  rewrite Hok in Hwr. cbn. rewrite Hok.
  split; [done|]. exists p, h1. cbn. rewrite lookup_insert_eq. split_and!; [done|done|].
  rewrite Hwr, Htk. f_equal. f_equal. unfold seq_of. lia.
Qed.

Lemma write_chunks_appends F st s :
  accepts_file F -> in_state st s -> ready_to_write F s.1 ->
  forall k m, 0 <= k ->
  k + Z.of_nat m = chunks_in_increment_ s.1 (current_increment_ s.1) ->
  active_written (take (Z.to_nat (seq_of s.1 k * chunk_payload_size_ s.1)) F) s.1 ->
  wp (write_chunks_ (chunks_in_increment_ s.1 (current_increment_ s.1)) (zseq k m)) (fun ok s' =>
    ok = true /\ in_state st s' /\ frame_eq s.1 s'.1 /\
    active_written (take (Z.to_nat (seq_of s.1 (k + Z.of_nat m) * chunk_payload_size_ s.1)) F) s'.1) s.
Proof.
  intros Hacc Hs Hr k m. revert k s Hs Hr. induction m as [|m IH]; intros k s Hs Hr Hk Hn Hw.
  - apply wp_ret. rewrite Z.add_0_r. split_and!; auto using frame_eq_refl.
  - rewrite zseq_S. cbn [write_chunks_]. apply wp_bind.
    eapply wp_mono; [apply (write_chunk_appends F st k s); auto; lia|].
    intros res s' (-> & Hs' & Hf & Hw').
    assert (chunks_in_increment_ s.1 (current_increment_ s.1) =
            chunks_in_increment_ s'.1 (current_increment_ s'.1)) as E1 by (by rewrite Hf).
    assert (forall j, seq_of s.1 j = seq_of s'.1 j) as E2 by (by rewrite Hf).
    assert (chunk_payload_size_ s.1 = chunk_payload_size_ s'.1) as E3 by (by rewrite Hf).
    rewrite E1, E3, ?E2 in *.
    eapply wp_mono; [apply (IH (k + 1) s'); auto; [by eapply ready_frame|lia|lia]|].
    intros ok s'' (-> & Hs'' & Hf' & Hw''). split_and!; [done|done|by eapply frame_eq_trans|].
    replace (k + Z.of_nat (S m)) with (k + 1 + Z.of_nat m) by lia. done.
Qed.

(** ** A transfer of [F] by an honest sender *)
Record receiving_file (F : bytes) r : Prop := {
  rf_exact : transfer_exact r;
  rf_size : file_size_ r = Z.of_nat (length F);
  rf_md5 : last_announce_md5_ r = digest F;
  rf_match : buf_matches F r;
  rf_written : active_written (take (Z.to_nat (seq_of r 0 * chunk_payload_size_ r)) F) r
}.

(** What the handler holds in each state: the increments before the current
    one while receiving, the whole file when the end is awaited. *)
Definition honest (F : bytes) s : Prop :=
  match state_ s.1 with
  | RECEIVING | WRITING => receiving_file F s.1
  | WAITING_END => active_written F s.1 /\ file_size_ s.1 = Z.of_nat (length F) /\
                   last_announce_md5_ s.1 = digest F
  | _ => True
  end.

Lemma buf_matches_reset F r n d : buf_matches F (r <| increment_buf_ := ib_reset n d |>).
Proof. intros i Hi. cbn in Hi. rewrite ib_set_reset in Hi. by apply not_elem_of_empty in Hi. Qed.

Lemma take_all_chunks (F : bytes) r :
  transfer_exact r -> file_size_ r = Z.of_nat (length F) ->
  take (Z.to_nat (total_chunks_ r * chunk_payload_size_ r)) F = F.
Proof. intros E HF. apply take_ge. destruct E. lia. Qed.

Lemma write_increment_honest F s :
  accepts_file F -> in_state WRITING s -> receiving_file F s.1 ->
  is_complete (increment_buf_ s.1) = true ->
  wp write_increment_to_flash_ (fun _ s' => honest F s' /\
    if total_increments_ s.1 <=? current_increment_ s.1 + 1 then state_ s'.1 = WAITING_END
    else state_ s'.1 = RECEIVING /\ current_increment_ s'.1 = current_increment_ s.1 + 1) s.
Proof.
  intros Hacc Hs [E HF Hmd Hm Hw] Hcomp. pose proof Hs as (_ & _ & (p & h & Ha & _) & T & _).
  pose proof (chunks_in_increment_range _ (current_increment_ s.1) T) as Hn.
  pose proof (t_chunk _ T) as Hc. pose proof (t_data _ T) as Hd. pose proof (t_current _ T) as Hcur.
  destruct (chunks_in_increment_exact _ _ E Hcur) as (X1 & X2 & X3 & X4).
  unfold write_increment_to_flash_. apply wp_bind, wp_this, wp_if; intros C; zprop.
  { exfalso. rewrite !bool_decide_eq_true in C. destruct C as [C|C]; [congruence|].
    rewrite C in Hd. cbn in Hd. nia. }
  apply wp_bind.
  eapply wp_mono; [apply (write_chunks_appends F WRITING s); try done; lia|].
  intros ok s' (-> & Hs' & Hf & Hw'). rewrite Z.add_0_l, Z2Nat.id in Hw' by lia.
  cbn [negb]. apply wp_bind, wp_update, wp_bind, wp_this. cbn [fst snd].
  assert (current_increment_ s'.1 = current_increment_ s.1) as E1 by (by rewrite Hf).
  assert (total_increments_ s'.1 = total_increments_ s.1) as E2 by (by rewrite Hf).
  assert (chunk_payload_size_ s'.1 = chunk_payload_size_ s.1) as E3 by (by rewrite Hf).
  assert (chunks_per_increment_ s'.1 = chunks_per_increment_ s.1) as E4 by (by rewrite Hf).
  assert (transfer_exact s'.1) as E' by (rewrite Hf; by destruct E).
  assert (file_size_ s'.1 = file_size_ s.1) as E5 by (by rewrite Hf).
  assert (last_announce_md5_ s'.1 = last_announce_md5_ s.1) as E6 by (by rewrite Hf).
  cbn [total_increments_ current_increment_ upd]. rewrite E1, E2. unfold seq_of in *.
  apply wp_if; intros C; rewrite C; zprop.
  - wp_recv. split; [|done]. unfold honest. cbn.
    rewrite X3, (take_all_chunks F s.1 E HF) in Hw' by lia. split_and!; [exact Hw'|congruence..].
  - pose proof (e_increments _ E).
    wp_recv. split; [|split; [done|cbn; rewrite E1, u16_small; lia]].
    unfold honest. cbn. constructor.
    + by destruct E'.
    + cbn. congruence.
    + cbn. congruence.
    + apply (buf_matches_reset F (_ <| increment_written_ := false |>)).
    + unfold seq_of. cbn. rewrite E1, u16_small, E3, E4 by lia.
      rewrite X4 in Hw' by lia.
      replace ((current_increment_ s.1 + 1) * chunks_per_increment_ s.1 + 0) with
        (current_increment_ s.1 * chunks_per_increment_ s.1 + chunks_per_increment_ s.1) by lia.
      exact Hw'.
Qed.

Lemma receiving_file_frame F r r' :
  file_size_ r' = file_size_ r -> chunk_payload_size_ r' = chunk_payload_size_ r ->
  chunks_per_increment_ r' = chunks_per_increment_ r -> total_chunks_ r' = total_chunks_ r ->
  total_increments_ r' = total_increments_ r ->
  chunks_in_last_increment_ r' = chunks_in_last_increment_ r ->
  current_increment_ r' = current_increment_ r -> increment_buf_ r' = increment_buf_ r ->
  active_handler_ r' = active_handler_ r -> handler_heap r' = handler_heap r ->
  last_announce_md5_ r' = last_announce_md5_ r ->
  receiving_file F r -> receiving_file F r'.
Proof.
  intros E1 E2 E3 E4 E5 E6 E7 E8 E9 E10 E11 [[] HF Hmd Hm Hw]. unfold buf_matches, active_written, seq_of in *.
  constructor; [constructor|..]; unfold buf_matches, active_written, seq_of in *;
    rewrite ?E1, ?E2, ?E3, ?E4, ?E5, ?E6, ?E7, ?E8, ?E9, ?E10, ?E11; done.
Qed.

(** ** Every call of an honest run keeps [honest] *)
Lemma honest_idle F s : state_ s.1 = IDLE -> honest F s.
Proof. unfold honest. by intros ->. Qed.

Lemma honest_receiving F s :
  state_ s.1 = RECEIVING -> honest F s -> receiving_file F s.1.
Proof. unfold honest. by intros ->. Qed.

Lemma honest_activity F r w t : honest F (r, w) -> honest F (r <| last_activity_ms_ := t |>, w).
Proof.
  unfold honest. cbn. destruct (state_ r); try done; by apply receiving_file_frame.
Qed.

Lemma file_data_keeps_honest F s q :
  inv s -> honest F s -> 0 <= q < total_chunks_ s.1 \/ state_ s.1 <> RECEIVING ->
  wp (handle_file_data (data_frame F (chunk_payload_size_ s.1) q)) (fun _ => honest F) s.
Proof.
  intros Hinv Hh Hq. destruct (decide (state_ s.1 = RECEIVING)) as [Hst|Hst].
  - destruct Hq as [Hq|]; [|done].
    destruct (honest_receiving F s Hst Hh) as [E HF Hmd Hm Hw].
    eapply wp_mono; [by apply file_data_honest|].
    intros ok [r' w'] (_ & (t & b & Hr & _) & Hm'). cbn [fst] in *. unfold honest. cbn [fst].
    rewrite Hr in *. cbn. rewrite Hst. constructor; try done. by destruct E.
  - unfold handle_file_data. apply wp_if; intros _; [by apply wp_ret|].
    apply wp_bind, wp_this. apply wp_if; intros C; [by apply wp_ret|].
    exfalso. zprop. unfold state_is in *. by rewrite bool_decide_eq_true in *.
Qed.

Lemma blast_complete_honest F bc s :
  accepts_file F -> inv s -> honest F s -> wp (handle_blast_complete_ bc) (fun _ => honest F) s.
Proof.
  intros Hacc Hinv Hh. destruct s as [r w]. unfold handle_blast_complete_.
  apply wp_bind, wp_this. cbn [fst]. apply wp_if; intros C; [by apply wp_ret|].
  zprop. destruct (recv_ok_busy r Hinv) as (Hok & Hb & Ht & Hc); [done|].
  assert (state_ r = RECEIVING) as Hst by (by eapply bool_decide_eq_true).
  pose proof (honest_receiving F (r, w) Hst Hh) as Hrf. cbn [fst] in Hrf.
  apply wp_bind, wp_millis, wp_bind, wp_update. cbn [fst snd].
  assert (honest F (r <| last_activity_ms_ := millis w |>, w)) as Hh' by (by apply honest_activity).
  do 2 (apply wp_if; intros ?; [wp_recv; done|]).
  apply wp_if; intros Hcomp.
  - apply wp_bind, wp_update, wp_bind. cbn [fst snd].
    set (r1 := _ <| state_ := WRITING |>).
    assert (receiving_file F r1) as Hrf1 by (by apply (receiving_file_frame F r)).
    wp_recv; [done|].
    eapply wp_mono; [apply (write_increment_honest F); try done|].
    + split_and!; [done|by destruct Hok|done|by destruct Ht|done].
    + intros ? ? [? _]. wp_recv; done.
  - apply wp_if; intros ?.
    + apply wp_bind. eapply wp_mono; [apply abort_inv; [by apply heap_ok_activity|by eauto]|].
      intros ? ? [_ ?]. apply wp_ret. by apply honest_idle.
    + wp_recv. unfold honest. cbn. by apply (receiving_file_frame F r).
Qed.

Lemma abort_honest F reason notify s : inv s -> wp (abort reason notify) (fun _ => honest F) s.
Proof.
  intros Hinv. eapply wp_mono; [apply abort_inv; [apply Hinv|]|by intros ? ? [_ ?%(honest_idle F)]].
  destruct (bool_decide (active_handler_ s.1 = None)) eqn:E.
  - left. by eapply bool_decide_eq_true.
  - right. apply recv_ok_active; [apply Hinv|done].
Qed.

Lemma loop_honest F s : inv s -> honest F s -> wp loop (fun _ => honest F) s.
Proof.
  intros Hinv Hh. unfold loop. apply wp_bind.
  assert (forall s', inv s' -> honest F s' -> wp loop_rest_ (fun _ => honest F) s') as Hrest.
  { intros s' Hi Hs'. unfold loop_rest_. apply wp_bind, wp_this, wp_if; intros C.
    - destruct (recv_ok_verifying _ Hi C) as (Hst & _). unfold complete_phase_, schedule_restart_, reset_.
      wp_recv; unfold honest; cbn; by rewrite ?Hst.
    - wp_recv; auto using abort_honest. }
  apply wp_restart_if_due; [by apply Hrest|]. intros w'. apply Hrest; [by apply recv_ok_restart|].
  unfold honest in *. cbn. destruct (state_ s.1); try done; by apply (receiving_file_frame F s.1).
Qed.

Lemma start_receiving_file F a p h chunk kb r :
  fa_file_size a = Z.of_nat (length F) -> fa_md5 a = digest F -> 0 < fa_file_size a <= kExactFileLimit ->
  0 < chunk < 65536 -> ESPNOW_MAX_INCREMENT_KB <= kb ->
  handler_heap r !! p = Some h -> written h = [] ->
  receiving_file F (start_first_increment_ (adopt_announce_ a p chunk kb r)).
Proof.
  intros Hsize Hmd Hlim Hchunk Hkb Hp Hw. unfold adopt_announce_.
  set (r0 := _ <| buffer_size_kb_ := kb |>).
  destruct (geometry_exact_lemma r0 Hlim Hchunk Hkb) as [E _].
  assert (active_written [] (compute_increment_geometry_ r0)) as Ha by (by exists p, h).
  assert (file_size_ (compute_increment_geometry_ r0) = Z.of_nat (length F)) as HF by done.
  assert (last_announce_md5_ (compute_increment_geometry_ r0) = digest F) as Hd by done.
  generalize dependent (compute_increment_geometry_ r0). intros r1 E Ha HF Hd.
  constructor; [by destruct E|done|done| |].
  - intros i Hi. cbn in Hi. rewrite ib_set_reset in Hi. by apply not_elem_of_empty in Hi.
  - unfold seq_of. cbn. by rewrite take_0.
Qed.

Lemma accept_announce_honest F a p h chunk kb s :
  fa_file_size a = Z.of_nat (length F) -> fa_md5 a = digest F -> 0 < fa_file_size a <= kExactFileLimit ->
  0 < chunk < 65536 -> ESPNOW_MAX_INCREMENT_KB <= kb ->
  handler_heap s.1 !! p = Some h -> written h = [] ->
  wp (accept_announce_ a p chunk kb) (fun _ => honest F) s.
Proof.
  intros Hsize Hmd Hlim Hchunk Hkb Hp Hw. unfold accept_announce_.
  assert (forall s', wp reset_ (fun _ => honest F) s') as Hreset
    by (intros s'; apply wp_update; by apply honest_idle).
  assert (forall p0 (op : M (H * W) unit) (k : M St bool) s',
    (forall s'', wp k (fun _ => honest F) s'') ->
    wp (invoke_active p0 op;; k) (fun _ => honest F) s') as Hany.
  { intros p0 op k s' Hk. apply wp_bind. apply Hk. }
  apply wp_bind, wp_update, wp_bind, wp_this. cbn [fst snd].
  pose proof (start_receiving_file F a p h chunk kb s.1 Hsize Hmd Hlim Hchunk Hkb Hp Hw) as Hrf.
  generalize dependent (adopt_announce_ a p chunk kb s.1). intros r1 Hrf.
  apply wp_if; intros _.
  - apply Hany. intros s'. apply wp_bind. eapply wp_mono; [apply Hreset|]. intros. wp_recv. done.
  - apply wp_bind, wp_update, wp_bind, wp_this, wp_bind. cbn [fst snd].
    generalize dependent (start_first_increment_ r1). intros r2 Hrf. wp_recv.
    + apply Hreset.
    + unfold honest. cbn. by apply (receiving_file_frame F r2).
Qed.

Lemma announce_honest F a s :
  inv s -> honest F s -> 0 <= fa_chunk_size a < 65536 ->
  fa_file_size a = Z.of_nat (length F) -> fa_md5 a = digest F ->
  Z.of_nat (length F) <= kExactFileLimit ->
  wp (handle_announce_ a) (fun _ => honest F) s.
Proof.
  intros Hinv Hh Hcs Hsize Hmd Hlim. unfold handle_announce_. destruct s as [r w].
  apply wp_bind, wp_this. cbn [fst snd].
  do 3 (apply wp_if; intros ?; [wp_recv; done|]).
  apply wp_if; intros Hnz; [wp_recv; done|]. apply wp_if; intros ?; [wp_recv; done|]. zprop.
  destruct (handlers_ r !! fa_action a) as [p|] eqn:Ep; [|wp_recv; done].
  assert (state_ r = IDLE) as Hst by (by eapply bool_decide_eq_true).
  destruct Hinv as [Hok Hm]. cbn [fst] in *. rewrite Hst in Hm. destruct Hm as [Ha Hc].
  destruct (h_registered r Hok _ _ Ep) as [h Hp].
  assert (handler_ok h) as Hhok by (by eapply (h_ok r Hok)).
  assert (handler_is_receiving h = false) as Hq
    by (eapply (h_quiet r Hok); [done|by rewrite Ha]).
  apply wp_bind, wp_invoke; [|cbn; congruence]. cbn [fst snd]. intros h0 Hh0. simplify_eq.
  eapply wp_mono; [apply wp_and; [by apply on_announce_law|by apply on_announce_written]|].
  intros [resp kb] [h' w'] [(Hok' & _ & _ & Hrange & _) Hwr]. cbn [fst snd] in *.
  apply wp_if; intros Hacc; zprop.
  - wp_recv. by apply honest_idle.
  - destruct (Hwr Hacc) as [Hw Hkb].
    apply wp_bind, wp_this. cbn [fst snd]. apply wp_if; intros Hbad; zprop.
    + apply wp_bind, wp_invoke; [|cbn; by rewrite lookup_insert_eq]. intros ? _.
      unfold wp at 1. destruct (on_abort _ _) as [[] [h3 w3]]. cbn [fst snd].
      wp_recv. by apply honest_idle.
    + apply (accept_announce_honest F a p h'); try done; try lia. cbn. by rewrite lookup_insert_eq.
Qed.

Lemma honest_inactive F r w :
  state_ r = IDLE \/ state_ r = VERIFYING -> honest F (r, w).
Proof. unfold honest. cbn. by intros [-> | ->]. Qed.

Lemma end_honest F e s : inv s -> honest F s -> wp (handle_end_ e) (fun _ => honest F) s.
Proof.
  intros Hinv Hh. unfold handle_end_. apply wp_if; intros _; [by apply wp_ret|].
  apply wp_bind, wp_this, wp_if; intros C; [by apply wp_ret|].
  zprop. assert (state_ s.1 = WAITING_END) as Hst by (by eapply bool_decide_eq_true).
  destruct Hinv as [Hok Hm]. rewrite Hst in Hm. destruct Hm as (Hb & _ & _).
  apply wp_bind, wp_update, wp_bind.
  eapply (wp_invoke_active _ _ true _
            (fun _ hw => handler_ok hw.1 /\ handler_is_receiving hw.1 = false));
    [by destruct Hok|done| |by intros ? ? ? []|].
  { intros h ? _. eapply wp_mono; [by apply on_end_law|]. intros ? ? [? ?]. split; [done|congruence]. }
  intros res r' h' w' Hf _ _ _. cbn [fst snd] in *. unfold reset_.
  wp_recv; apply honest_inactive; [right; by rewrite Hf|by left].
Qed.

Lemma abort_packet_honest F a s : inv s -> honest F s -> wp (handle_abort_ a) (fun _ => honest F) s.
Proof.
  intros Hinv Hh. unfold handle_abort_, reset_. wp_recv; done.
Qed.

(** Any control frame, as long as announcements are those of [F]. *)
Definition honest_control (F payload : bytes) : Prop :=
  bytes_ok payload /\
  (payload !! 0%nat = Some ESPNOW_FILE_PHASE_ANNOUNCE ->
   fa_file_size (of_bytes payload) = Z.of_nat (length F) /\
   fa_md5 (of_bytes payload) = digest F).

Lemma file_transfer_honest F payload s :
  accepts_file F -> Z.of_nat (length F) <= kExactFileLimit -> honest_control F payload ->
  inv s -> honest F s -> wp (handle_file_transfer payload) (fun _ => honest F) s.
Proof.
  intros Hacc Hlim [Hp Hann] Hinv Hh. unfold handle_file_transfer.
  destruct payload as [|phase rest]; [by apply wp_ret|].
  apply wp_bind, wp_millis, wp_bind, wp_update.
  assert (inv (s.1 <| last_activity_ms_ := millis s.2 |>, s.2)) as Hinv'
    by (by apply recv_ok_activity).
  assert (honest F (s.1 <| last_activity_ms_ := millis s.2 |>, s.2)) as Hh'
    by (destruct s; by apply honest_activity).
  apply wp_if; intros Hph; [|apply wp_if; intros _; [|apply wp_if; intros _; [|apply wp_if; intros _]]];
    try (apply wp_if; intros Hlen; [by apply wp_ret|]).
  - zprop. destruct Hann as [Hsize Hmd]; [cbn; congruence|].
    apply (of_bytes_ok (T := espnow_file_announce_t)) in Hp; [|lia].
    apply announce_honest; try done. cbn in Hp |- *. destruct_and?. lia.
  - by apply end_honest.
  - by apply abort_packet_honest.
  - by apply blast_complete_honest.
  - by apply wp_ret.
Qed.

(** The steps of a run in which the sender transmits [F]: control frames and
    data frames in any order, lost, repeated or late; the clock and the other
    entry points in between. *)
Inductive honest_step (F : bytes) : St -> St -> Prop :=
  | hs_control payload s :
      honest_control F payload -> honest_step F s (handle_file_transfer payload s).2
  | hs_data q s :
      0 <= q < total_chunks_ s.1 \/ state_ s.1 <> RECEIVING ->
      honest_step F s (handle_file_data (data_frame F (chunk_payload_size_ s.1) q) s).2
  | hs_loop s : honest_step F s (loop s).2
  | hs_abort reason notify s : honest_step F s (abort reason notify s).2
  | hs_announce_tx_counter c s : honest_step F s (set_announce_tx_counter c s).2
  | hs_blast_tx_counter c s : honest_step F s (set_blast_complete_tx_counter c s).2
  | hs_ota_enabled b s : honest_step F s (set_ota_enabled b s).2
  | hs_deep_sleep b s : honest_step F s (set_deep_sleep_active b s).2
  | hs_send_ack_fn b s : honest_step F s (set_send_ack_fn b s).2
  | hs_local_mac mac s : honest_step F s (set_local_mac mac s).2
  | hs_register action p s :
      (forall q, p = Some q -> is_Some (handler_heap s.1 !! q)) ->
      honest_step F s (register_handler action p s).2
  | hs_world r w w' : honest_step F (r, w) (r, w').

Lemma data_frame_ok F chunk q : bytes_ok F -> bytes_ok (data_frame F chunk q).
Proof.
  intros HF. unfold data_frame. apply Forall_app_2; [apply le_bytes_ok|by apply slice_ok].
Qed.

Lemma honest_step_sound F s s' :
  bytes_ok F -> honest_step F s s' -> rtc recv_step s s'.
Proof.
  intros HF []; apply rtc_once; try by constructor.
  - constructor. by destruct H0.
  - constructor. by apply data_frame_ok.
Qed.

Lemma honest_run F s s' :
  bytes_ok F -> accepts_file F -> Z.of_nat (length F) <= kExactFileLimit ->
  inv s -> honest F s -> rtc (honest_step F) s s' -> inv s' /\ honest F s'.
Proof.
  intros HF Hacc Hlim Hinv Hh Hsteps. induction Hsteps as [s|s1 s2 s3 Hstep _ IH]; [done|].
  apply IH; [by eapply recv_steps_inv, honest_step_sound|]. destruct Hstep.
  - by apply (file_transfer_honest F payload s).
  - by apply (file_data_keeps_honest F s q).
  - by apply (loop_honest F s).
  - by apply (abort_honest F reason notify s).
  - unfold honest in *. cbn. destruct (state_ s.1); try done; by apply (receiving_file_frame F s.1).
  - unfold honest in *. cbn. destruct (state_ s.1); try done; by apply (receiving_file_frame F s.1).
  - unfold honest in *. cbn. destruct (state_ s.1); try done; by apply (receiving_file_frame F s.1).
  - unfold honest in *. cbn. destruct (state_ s.1); try done; by apply (receiving_file_frame F s.1).
  - unfold honest in *. cbn. destruct (state_ s.1); try done; by apply (receiving_file_frame F s.1).
  - unfold honest in *. cbn. destruct (state_ s.1); try done; by apply (receiving_file_frame F s.1).
  - unfold honest, register_handler in *. destruct p as [q|]; cbn; destruct (state_ s.1); try done;
      by apply (receiving_file_frame F s.1).
  - done.
Qed.
End writing.

(** ** The geometry and the buffer as properties *)
Section statements.
Context {H W : Type} `{!ReceiverEnv W} `{!ActionHandler H W} `{!HandlerLaws H W}.

(** The increment geometry is exact for every file up to 268431360 bytes: the chunks
    cover the file, all but the last are full, the increments partition the chunks, all
    but the last increment are full and the last is not empty. *)
Theorem geometry_exact (r : FileReceiver H) :
  0 < file_size_ r <= 268431360 -> 0 < chunk_payload_size_ r < 65536 ->
  8 <= buffer_size_kb_ r ->
  let r' := compute_increment_geometry_ r in
  let chunk := chunk_payload_size_ r in
  chunks_per_increment_ r' = Z.max 1 (8192 / chunk) /\
  (total_chunks_ r' - 1) * chunk < file_size_ r <= total_chunks_ r' * chunk /\
  total_chunks_ r' = (total_increments_ r' - 1) * chunks_per_increment_ r' +
                     chunks_in_last_increment_ r' /\
  0 < chunks_in_last_increment_ r' <= chunks_per_increment_ r' /\
  0 < total_increments_ r' < 65536.
Proof.
  intros Hf Hc Hk. destruct (geometry_exact_lemma r Hf Hc Hk) as [[] E]. cbv zeta.
  do 4 (split; [done|]). done.
Qed.

(** A FILE_DATA frame of the announced file is handled exactly: in the window of the
    current increment it is acknowledged and its chunk added to the received set (once),
    outside of it the buffer is unchanged, and every received chunk of the buffer holds
    the bytes of the file. *)
Theorem file_data_stores_chunk F (s : FileReceiver H * W) q :
  inv s -> state_ s.1 = RECEIVING -> transfer_exact s.1 ->
  file_size_ s.1 = Z.of_nat (length F) -> buf_matches F s.1 -> 0 <= q < total_chunks_ s.1 ->
  let res := handle_file_data (data_frame F (chunk_payload_size_ s.1) q) s in
  res.1 = in_window s.1 q || ((q <? seq_of s.1 0) && increment_written_ s.1) /\
  ib_set (increment_buf_ res.2.1) =
    (if in_window s.1 q then {[q - seq_of s.1 0]} ∪ ib_set (increment_buf_ s.1)
     else ib_set (increment_buf_ s.1)) /\
  buf_matches F res.2.1 /\ state_ res.2.1 = RECEIVING.
Proof.
  intros Hinv Hst E HF Hm Hq. destruct (file_data_honest F s q Hinv Hst E HF Hm Hq)
    as (H1 & (t & b & H2 & H3) & H4). cbv zeta. split_and!; try done; by rewrite H2.
Qed.
End statements.

(** Beyond that size the 16-bit increment count wraps: a file of 1 GiB (the largest the
    receiver accepts) in chunks of 64 bytes gets one increment of 128 chunks instead of
    131072 increments. *)
Theorem geometry_overflow {H} (r : FileReceiver H) :
  let r' := compute_increment_geometry_
    (r <| file_size_ := 1073741824 |> <| chunk_payload_size_ := 64 |> <| buffer_size_kb_ := 8 |>) in
  total_chunks_ r' = 16777216 /\ chunks_per_increment_ r' = 128 /\
  total_increments_ r' = 1 /\ chunks_in_last_increment_ r' = 128.
Proof. by vm_compute. Qed.
