(* ===== verification/OtaReceive.v ===== *)
(** * OtaReceive: firmware reception end to end

    [OTAFlashHandler] implements the interfaces [HandlerLaws] and [WriterLaws];
    the theorems of [FileReceiverInv] and [FileContent] then hold of the
    receiver the firmware constructs ([new_file_receiver]).  The theorems of
    this file are about that receiver, on any radio, clock and flash. *)
From S2P Require Import Prelude Wire IncrementBuffer FileReceiver OTAFlashHandler FileReceiverInv FileContent.

Section steps.
Context {W : Type}.

Lemma wp_platform {A} (f : W -> A * W) (Q : A -> OTAFlashHandler * W -> Prop) s :
  (forall a w', f s.2 = (a, w') -> Q a (s.1, w')) -> wp (platform f) Q s.
Proof. intros HQ. unfold wp, platform. destruct (f s.2) eqn:E. by apply HQ. Qed.

End steps.

Ltac wp_ota_step :=
  lazymatch goal with
  | |- wp hthis _ _ => apply wp_gets
  | |- wp (hupdate _) _ _ => apply wp_modify
  | |- wp (platform_ _) _ _ => apply wp_modify
  | |- wp (platform _) _ _ => apply wp_platform; intros ? ? ?
  | |- wp begin_md5_ _ _ => unfold begin_md5_
  | |- wp (update_md5_ _) _ _ => unfold update_md5_
  | |- wp (finish_md5_ _) _ _ => unfold finish_md5_
  | |- wp reset_state_ _ _ => unfold reset_state_
  | _ => wp_step
  end.
Ltac wp_ota := repeat (wp_ota_step; cbv beta; cbn [fst snd]).

Section handler_laws.
Context {W : Type} `{!OtaPlatform W} (md5 : bytes -> bytes).
#[local] Existing Instance ota_action_handler.

Record ota_ok (h : OTAFlashHandler) : Prop := {
  o_max : 0 <= hmax_chunk_size_ h < 65536;
  o_state : hstate_ h <> HVERIFYING;
  o_md5 : hstate_ h = HRECEIVING -> md5_active_ h = true;
  o_total : hstate_ h = HRECEIVING -> total_written_ h = u32 (Z.of_nat (length (md5_digest_ h)))
}.

Lemma heap_increment_kb_8 n : heap_increment_kb n = 8.
Proof.
  unfold heap_increment_kb, ESPNOW_MAX_INCREMENT_KB. pose proof (u16_range (n * 50 / 100 / 1024)).
  zcase; lia.
Qed.

Lemma ota_is_receiving_true h : ota_is_receiving h = true -> ota_ok h -> hstate_ h = HRECEIVING.
Proof.
  intros Hr Hok. pose proof (o_state h Hok). unfold ota_is_receiving, hstate_is in Hr.
  destruct (hstate_ h); try done.
Qed.

Lemma ota_on_announce_law file_size md5_in chunk_size action file_id kb h w :
  ota_ok h -> ota_is_receiving h = false -> 0 <= chunk_size < 65536 -> 0 <= kb < 65536 ->
  wp (ota_on_announce file_size md5_in chunk_size action file_id kb) (fun res s =>
    ota_ok s.1 /\ ota_is_receiving s.1 = ar_accepted res.1 /\
    (ar_accepted res.1 = true -> (hfile_size_ s.1, expected_md5_ s.1) = (file_size, md5_in)) /\
    0 <= ar_negotiated_chunk_size res.1 < 65536 /\ 0 <= res.2 < 65536) (h, w).
Proof.
  intros Hok Hr Hc Hkb. pose proof Hok as [H1 H2 H3 H4].
  unfold ota_is_receiving, hstate_is in Hr. apply negb_false_iff, bool_decide_eq_true in Hr.
  unfold ota_on_announce.
  wp_ota; rewrite ?heap_increment_kb_8;
    (split; [constructor; cbn in *; rewrite ?Hr in *; try done|]);
    (split; [unfold ota_is_receiving, hstate_is; cbn; by rewrite ?Hr|]); cbn;
    split_and!; done || lia.
Qed.

Lemma ota_on_data_law sequence data h w :
  ota_ok h ->
  wp (ota_on_data sequence data) (fun _ s =>
    ota_ok s.1 /\ ota_is_receiving s.1 = ota_is_receiving h /\
    (hfile_size_ s.1, expected_md5_ s.1) = (hfile_size_ h, expected_md5_ h)) (h, w).
Proof.
  intros Hok. pose proof Hok as [H1 H2 H3 H4]. unfold ota_on_data.
  wp_ota; try done. split; [|done]. constructor; cbn; try done. intros Hs. rewrite H4 by done.
  rewrite length_app, Nat2Z.inj_add. unfold u32. by rewrite <-Zplus_mod.
Qed.

Lemma ota_on_end_law h w :
  ota_ok h ->
  wp (ota_on_end md5) (fun _ s => ota_ok s.1 /\ ota_is_receiving s.1 = false) (h, w).
Proof.
  intros Hok. pose proof Hok as [H1 H2 H3 H4]. unfold ota_on_end.
  wp_ota; (split; [first [done | constructor; cbn; done]|]); try done.
  unfold ota_is_receiving, hstate_is in *. zprop. cbn. destruct (hstate_ h); done.
Qed.

Lemma ota_on_abort_law reason h w :
  ota_ok h ->
  wp (ota_on_abort reason) (fun _ s => ota_ok s.1 /\ ota_is_receiving s.1 = false) (h, w).
Proof.
  intros [H1 H2 H3 H4]. unfold ota_on_abort. wp_ota; (split; [constructor; cbn; done|done]).
Qed.

#[local] Obligation Tactic := cbn; intros;
  eauto using ota_on_announce_law, ota_on_data_law, ota_on_end_law, ota_on_abort_law.
#[export] Program Instance ota_handler_laws :
  @HandlerLaws OTAFlashHandler W (ota_action_handler md5) := {|
  handler_ok := ota_ok;
  announced := fun h => (hfile_size_ h, expected_md5_ h)
|}.

(** ** The handler stores what it is given and checks it at the end *)
Lemma ota_on_announce_written file_size md5_in chunk_size action file_id kb h w :
  ota_ok h -> ota_is_receiving h = false ->
  wp (ota_on_announce file_size md5_in chunk_size action file_id kb) (fun res s =>
    ar_accepted res.1 = true -> md5_digest_ s.1 = [] /\ ESPNOW_MAX_INCREMENT_KB <= res.2) (h, w).
Proof.
  intros Hok Hr. unfold ota_on_announce. wp_ota; cbn; try done. by rewrite heap_increment_kb_8.
Qed.

Lemma ota_on_data_written sequence data h w :
  ota_ok h -> ota_is_receiving h = true ->
  wp (ota_on_data sequence data) (fun res s =>
    md5_digest_ s.1 = if cr_accepted res then md5_digest_ h ++ data else md5_digest_ h) (h, w).
Proof. intros Hok Hr. unfold ota_on_data. wp_ota; done. Qed.

Lemma ota_on_end_checked h w :
  ota_ok h -> ota_is_receiving h = true ->
  wp (ota_on_end md5) (fun result _ => result = ESPNOW_FILE_COMPLETE_SUCCESS ->
    u32 (Z.of_nat (length (md5_digest_ h))) = hfile_size_ h /\
    md5 (md5_digest_ h) = expected_md5_ h) (h, w).
Proof.
  intros Hok Hr. pose proof (ota_is_receiving_true h Hr Hok) as Hst.
  unfold ota_on_end. wp_ota; try done. intros _. zprop. simplify_eq. split.
  - rewrite <-(o_total h Hok Hst). done.
  - by apply bytes_eqb_true.
Qed.

#[local] Obligation Tactic := cbn; intros;
  eauto using ota_on_announce_written, ota_on_data_written, ota_on_end_checked.
#[export] Program Instance ota_writer_laws :
  @WriterLaws OTAFlashHandler W (ota_action_handler md5) ota_handler_laws md5 := {|
  written := md5_digest_
|}.

(** A flash that never fails takes every image that starts with the magic byte. *)
Lemma ota_accepts_file F :
  (forall handle data w, (esp_ota_write handle data w).1 = true) ->
  F !! 0%nat = Some kEspImageMagic -> Z.of_nat (length F) <= kExactFileLimit ->
  @accepts_file OTAFlashHandler W (ota_action_handler md5) ota_handler_laws md5 ota_writer_laws F.
Proof.
  intros Hwrite HF Hlim sequence data h w Hok Hr Hne Hpre. cbn in *.
  pose proof (ota_is_receiving_true h Hr Hok) as Hst.
  change (wp (ota_on_data sequence data) (fun res _ => cr_accepted res = true) (h, w)).
  unfold ota_on_data. apply wp_bind, wp_gets. cbn [fst]. destruct data as [|b0 data]; [done|].
  rewrite Hst. cbn [hstate_is]. apply wp_if; intros C; [done|clear C].
  apply wp_if; intros C.
  { exfalso. zprop. rewrite (o_total h Hok Hst) in *. apply prefix_length in Hpre as Hl.
    rewrite length_app in Hl. unfold kExactFileLimit in *. rewrite u32_small in * by lia.
    destruct (md5_digest_ h); [|cbn in *; lia]. destruct Hpre as [rest ->]. cbn in HF. congruence. }
  apply wp_bind, wp_platform. intros ok w' E. cbn [snd] in E.
  assert (ok = true) as -> by (specialize (Hwrite (ota_handle_ h) (b0 :: data) w); by rewrite E in Hwrite).
  unfold update_md5_. wp_ota; try done. cbn in *. by rewrite (o_md5 h Hok Hst) in *.
Qed.
End handler_laws.

(** ** A simulated device

    A clock, a radio that records acknowledgements, and a flash on which at
    most the write number [fail_at] fails; used to run the receiver. *)
Record Sim := {
  sim_now : Z;
  sim_link : bool;
  sim_acks : list bytes;
  sim_restarts : Z;
  sim_writes : Z;
  sim_flash : bytes
}.
#[export] Instance eta_sim : Eta Sim := fun s =>
  Build_Sim (sim_now s) (sim_link s) (sim_acks s) (sim_restarts s) (sim_writes s) (sim_flash s).
Definition sim0 : Sim :=
  {| sim_now := 5000; sim_link := true; sim_acks := []; sim_restarts := 0; sim_writes := 0;
     sim_flash := [] |}.

#[export] Instance sim_env : ReceiverEnv Sim := {|
  millis := fun w => u32 (sim_now w);
  send_ack_fn := fun payload w =>
    if sim_link w then (true, w <| sim_acks ::= fun l => l ++ [payload] |>) else (false, w);
  esp_restart := fun w => w <| sim_restarts ::= Z.add 1 |>
|}.

Definition sim_platform (fail_at : option Z) : OtaPlatform Sim := {|
  esp_ota_get_next_update_partition := fun _ => Some 1048576;
  esp_ota_begin := fun _ w => ((true, 1), w <| sim_flash := [] |>);
  esp_ota_write := fun _ data w =>
    (match fail_at with Some n => negb (sim_writes w =? n) | None => true end,
     w <| sim_writes ::= Z.add 1 |>
       <| sim_flash ::= fun f => if bool_decide (fail_at = Some (sim_writes w)) then f else f ++ data |>);
  esp_ota_end := fun _ w => (true, w);
  esp_ota_set_boot_partition := fun w => (true, w);
  esp_ota_abort := fun _ w => w;
  heap_caps_get_largest_free_block := fun _ => 100000
|}.

(** A digest for the examples. *)
Definition demo_md5 (l : bytes) : bytes := pad_to 16 (rev l).
Definition demo_file : bytes := [233; 1; 2; 3; 4; 5; 6].
Definition demo_announce : bytes := to_bytes {|
  fa_phase := ESPNOW_FILE_PHASE_ANNOUNCE; fa_file_size := 7; fa_md5 := demo_md5 demo_file;
  fa_chunk_size := 3; fa_action := ESPNOW_FILE_ACTION_OTA_FLASH; fa_file_id := replicate 12 7 |}.
Definition demo_blast (i : Z) : bytes := to_bytes {|
  fbc_phase := ESPNOW_FILE_PHASE_BLAST_COMPLETE; fbc_increment_index := i |}.
Definition demo_end : bytes := to_bytes {| fe_phase := ESPNOW_FILE_PHASE_END |}.

Section demo.
Context (fail_at : option Z).
#[local] Existing Instance sim_platform.
#[local] Instance demo_platform : OtaPlatform Sim := sim_platform fail_at.
#[local] Instance demo_handler : ActionHandler OTAFlashHandler Sim := ota_action_handler demo_md5.
Abbreviation DSt := (FileReceiver OTAFlashHandler * Sim)%type.

(** Configured, announced, and the chunks in the order 2, 0, 0, 1. *)
Definition demo_start : DSt := (set_max_chunk_size 1200 new_file_receiver, sim0).
Definition demo_ready : DSt := (set_ota_enabled true (set_send_ack_fn true demo_start).2).2.
Definition demo_announced : DSt := (handle_file_transfer demo_announce demo_ready).2.
Definition demo_data (q : Z) (s : DSt) : DSt :=
  (handle_file_data (data_frame demo_file (chunk_payload_size_ s.1) q) s).2.
Definition demo_full : DSt := demo_data 1 (demo_data 0 (demo_data 0 (demo_data 2 demo_announced))).
Definition demo_written : DSt := (handle_file_transfer (demo_blast 0) demo_full).2.
Definition demo_done : DSt := (handle_file_transfer demo_end demo_written).2.
(** The same transfer with the radio cut before BLAST_COMPLETE. *)
Definition demo_cut : DSt := (demo_full.1, demo_full.2 <| sim_link := false |>).
Definition demo_stuck : DSt := (handle_file_transfer (demo_blast 0) demo_cut).2.
(** Time passes. *)
Definition demo_later : DSt := (demo_full.1, demo_full.2 <| sim_now := 15001 |>).
#[local] Instance demo_laws : HandlerLaws OTAFlashHandler Sim := ota_handler_laws demo_md5.
#[local] Instance demo_writer : WriterLaws OTAFlashHandler Sim demo_md5 := ota_writer_laws demo_md5.

Lemma demo_honest_control payload :
  forallb byteb payload = true ->
  (payload = demo_announce \/ payload !! 0%nat <> Some ESPNOW_FILE_PHASE_ANNOUNCE) ->
  honest_control (digest := demo_md5) demo_file payload.
Proof.
  intros Hb Hp. split; [by apply byteb_ok|]. intros H0. destruct Hp as [->|]; [|done].
  split; by vm_compute.
Qed.

Lemma demo_announced_steps :
  rtc (honest_step (digest := demo_md5) demo_file) demo_start demo_announced.
Proof.
  eapply rtc_l; [exact (hs_send_ack_fn demo_file true _)|].
  eapply rtc_l; [exact (hs_ota_enabled demo_file true _)|].
  apply rtc_once. apply (hs_control demo_file demo_announce demo_ready).
  apply demo_honest_control; [by vm_compute|by left].
Qed.

Lemma demo_data_step q s :
  bool_decide (0 <= q < total_chunks_ s.1) = true ->
  honest_step (digest := demo_md5) demo_file s (demo_data q s).
Proof. intros Hq. apply (hs_data demo_file q s). left. by apply bool_decide_eq_true in Hq. Qed.

Lemma demo_full_steps :
  rtc (honest_step (digest := demo_md5) demo_file) demo_announced demo_full.
Proof.
  unfold demo_full. do 4 (eapply rtc_r; [|apply demo_data_step; by vm_compute]). reflexivity.
Qed.

(** Every honest step is a step of the component. *)
Lemma demo_start_full : rtc recv_step demo_start demo_full.
Proof.
  assert (rtc (honest_step (digest := demo_md5) demo_file) demo_start demo_full) as Hs
    by (etrans; [apply demo_announced_steps|apply demo_full_steps]).
  induction Hs as [|? ? ? Hstep _ IH]; [done|]. etrans; [|exact IH].
  eapply honest_step_sound, Hstep. apply byteb_ok. by vm_compute.
Qed.

Lemma demo_start_later : rtc recv_step demo_start demo_later.
Proof.
  eapply rtc_r; [apply demo_start_full|]. unfold demo_later. destruct demo_full. apply step_world.
Qed.

Lemma demo_start_stuck : rtc recv_step demo_start demo_stuck.
Proof.
  unfold demo_stuck. eapply rtc_r; [|apply step_file_transfer; apply byteb_ok; by vm_compute].
  eapply rtc_r; [apply demo_start_full|]. unfold demo_cut. destruct demo_full. apply step_world.
Qed.
End demo.

Example demo_runs :
  state_ (demo_announced None).1 = RECEIVING /\ total_chunks_ (demo_announced None).1 = 3 /\
  state_ (demo_written None).1 = WAITING_END /\ sim_flash (demo_written None).2 = demo_file /\
  state_ (demo_done None).1 = VERIFYING /\ complete_result_ (demo_done None).1 = ESPNOW_FILE_COMPLETE_SUCCESS.
Proof. by vm_compute. Qed.

(** ** The receiver of the firmware *)
Section ota.
Context {W : Type} `{!ReceiverEnv W} `{!OtaPlatform W} (md5 : bytes -> bytes).
#[local] Instance ota_handler : ActionHandler OTAFlashHandler W := ota_action_handler md5.
#[local] Instance ota_laws : HandlerLaws OTAFlashHandler W := ota_handler_laws md5.
#[local] Instance ota_writer : WriterLaws OTAFlashHandler W md5 := ota_writer_laws md5.
Abbreviation St := (FileReceiver OTAFlashHandler * W)%type.

Lemma new_receiver_inv m (w : W) :
  0 <= m < 65536 -> inv (set_max_chunk_size m new_file_receiver, w).
Proof.
  intros Hm. set (h := new_ota_flash_handler <| hmax_chunk_size_ := m |>).
  assert (handler_heap (set_max_chunk_size m new_file_receiver) = {[0 := h]}) as E.
  { unfold set_max_chunk_size. cbn. by rewrite alter_singleton_eq. }
  split; [|done]. constructor.
  - done.
  - intros action p Hp. cbn [fst]. rewrite E. change (({[ESPNOW_FILE_ACTION_OTA_FLASH := 0]} : gmap Z Z) !! action = Some p) in Hp.
    apply lookup_singleton_Some in Hp as [_ <-]. rewrite lookup_singleton_eq. by eexists.
  - intros p h'. cbn [fst]. rewrite E. intros [_ <-]%lookup_singleton_Some. by constructor.
  - intros p h'. cbn [fst]. rewrite E. intros [_ <-]%lookup_singleton_Some. done.
Qed.

(** C26: In every state the receiver reaches from construction, by any sequence of frames,
    loops, aborts, configuration calls and passage of time, its invariant holds: it is IDLE
    with no active handler, or a transfer is active whose geometry fits its types, whose
    buffer has the size of the current increment and whose bitmap counts the received
    chunks; the states ANNOUNCED, CHECKING and COMPLETE never persist; and only the active
    handler is busy, with the announced size and MD5. *)
Theorem receiver_invariant m (w : W) (s : St) :
  0 <= m < 65536 -> rtc recv_step (set_max_chunk_size m new_file_receiver, w) s -> recv_ok s.1.
Proof. intros Hm Hs. by apply (recv_steps_inv _ s (new_receiver_inv m w Hm)). Qed.

Lemma waiting_handler (s : St) :
  inv s -> state_ s.1 = WAITING_END ->
  exists p h, active_handler_ s.1 = Some p /\ handler_heap s.1 !! p = Some h /\
    ota_ok h /\ hstate_ h = HRECEIVING /\
    hfile_size_ h = file_size_ s.1 /\ expected_md5_ h = last_announce_md5_ s.1.
Proof.
  intros [Hok Hm] Hst. rewrite Hst in Hm. destruct Hm as [(p & h & Ha & Hp & Hr & Han) _].
  assert (ota_ok h) as Hh by (by apply (h_ok _ Hok p)).
  exists p, h. specialize (Han eq_refl). cbn in Han. injection Han as Hs Hd.
  split_and!; try done. by apply ota_is_receiving_true.
Qed.

(** [handle_end_] in WAITING_END is the handler's [on_end] followed by the
    bookkeeping of its result. *)
Lemma wp_handle_end e (s : St) p h (Q : bool -> St -> Prop) :
  fe_phase e = ESPNOW_FILE_PHASE_END -> state_ s.1 = WAITING_END ->
  active_handler_ s.1 = Some p -> handler_heap s.1 !! p = Some h ->
  wp (ota_on_end md5) (fun result hw =>
    let r' := s.1 <| state_ := VERIFYING |> <| handler_heap ::= <[p := hw.1]> |> in
    ((result = ESPNOW_FILE_COMPLETE_SUCCESS /\ restart_requested_ hw.1 = true) ->
     Q true (r' <| complete_action_ := action_ r' |> <| complete_result_ := result |>
                 <| complete_ack_remaining_ := kCompleteAckRetries |>
                 <| next_complete_ack_ms_ := millis hw.2 |> <| in_complete_phase_ := true |>, hw.2)) /\
    ((result <> ESPNOW_FILE_COMPLETE_SUCCESS \/ restart_requested_ hw.1 = false) ->
     forall b r'' w'', in_complete_phase_ r'' = false -> Q b (r'', w''))) (h, s.2) ->
  wp (handle_end_ e) Q s.
Proof.
  intros He Hst Ha Hp Hend. unfold handle_end_. rewrite He. cbn [negb].
  apply wp_if; intros C; [done|clear C]. apply wp_bind, wp_this, wp_if; intros C.
  { by rewrite Hst, Ha in C. }
  clear C. apply wp_bind, wp_update, wp_bind. unfold invoke_active. apply wp_bind, wp_this. cbn [fst].
  change (active_handler_ (s.1 <| state_ := VERIFYING |>)) with (active_handler_ s.1). rewrite Ha.
  apply wp_invoke; [|cbn; congruence]. intros h0 Hh0. cbn in Hh0. simplify_eq.
  eapply wp_mono; [exact Hend|]. intros result [h' w'] [H1 H2]. cbn [fst snd] in *.
  apply wp_bind, wp_this. cbn [fst snd].
  change (active_handler_ (s.1 <| state_ := VERIFYING |> <| handler_heap ::= <[p:=h']> |>))
    with (active_handler_ s.1). rewrite Ha.
  change (handler_heap (s.1 <| state_ := VERIFYING |> <| handler_heap ::= <[p:=h']> |>))
    with (<[p:=h']> (handler_heap s.1)). rewrite lookup_insert_eq.
  apply wp_if; intros C; zprop.
  - wp_recv. by apply H1.
  - unfold reset_. wp_recv. apply H2; [|done].
    change (wants_restart_after_complete h') with (restart_requested_ h') in C.
    destruct C as [C|C]; zprop; auto.
Qed.

(** The announcement of a file the device can take. *)
Record announce_fits (a : espnow_file_announce_t) (r : FileReceiver OTAFlashHandler) (w : W) : Prop := {
  af_enabled : ota_enabled_ r = true /\ deep_sleep_active_ r = false /\ send_ack_fn_set r = true;
  af_size : 0 < fa_file_size a <= 1073741824;
  af_chunk : 0 < fa_chunk_size a < 65536;
  af_handler : exists p h, handlers_ r !! fa_action a = Some p /\ handler_heap r !! p = Some h /\
                 0 < hmax_chunk_size_ h <= max_chunk_size_ r;
  af_partition : exists sz, esp_ota_get_next_update_partition w = Some sz /\ fa_file_size a <= sz;
  af_begin : forall w', (esp_ota_begin (fa_file_size a) w').1.1 = true;
  af_send : forall payload w', (send_ack_fn payload w').1 = true
}.

Lemma wp_send_ack_ok result trailing (Q : bool -> St -> Prop) (s : St) :
  send_ack_fn_set s.1 = true -> (forall payload w', (send_ack_fn payload w').1 = true) ->
  (forall w', Q true (s.1, w')) -> wp (send_ack_ result trailing) Q s.
Proof.
  intros Hset Hs HQ. unfold send_ack_. apply wp_bind, wp_this. rewrite Hset. cbn [negb]. unfold wp.
  specialize (Hs (to_bytes {| ack_type := packet_type_code PKT_FILE_TRANSFER; ack_result := result;
    ack_ref_tx_counter := if result =? ESPNOW_FILE_ACK_GAPS then last_blast_complete_tx_counter_ s.1
                          else announce_tx_counter_ s.1 |} ++ trailing) s.2).
  destruct (send_ack_fn _ _) as [ok w']. cbn in *. subst ok. apply HQ.
Qed.

Lemma ota_on_announce_accepts file_size md5_in chunk_size action file_id kb h w0 sz :
  ota_is_receiving h = false -> 0 < file_size -> 0 < chunk_size -> 0 < hmax_chunk_size_ h ->
  esp_ota_get_next_update_partition w0 = Some sz -> file_size <= sz ->
  (forall w', (esp_ota_begin file_size w').1.1 = true) ->
  wp (ota_on_announce file_size md5_in chunk_size action file_id kb) (fun res hw =>
    ar_accepted res.1 = true /\ ar_negotiated_chunk_size res.1 = Z.min chunk_size (hmax_chunk_size_ h))
    (h, w0).
Proof.
  intros Hr Hf Hc Hm Hp Hsz Hb. unfold ota_is_receiving in Hr. apply negb_false_iff in Hr.
  unfold ota_on_announce. apply wp_bind, wp_gets. cbn [fst]. rewrite Hr. cbn [negb].
  apply wp_if; intros C; zprop; [lia|]. apply wp_if; intros C; zprop; [lia|].
  apply wp_bind, wp_gets. cbn [snd]. rewrite Hp. apply wp_bind, wp_modify.
  apply wp_if; intros C2; zprop; [lia|]. apply wp_bind, wp_modify, wp_bind, wp_platform.
  intros [ok handle] w1 E. pose proof (Hb w0) as Hb0. cbn [snd fst] in *. rewrite E in Hb0.
  cbn in Hb0. subst ok. done.
Qed.

Lemma total_chunks_nonzero chunk kb a p (r : FileReceiver OTAFlashHandler) :
  0 < fa_file_size a <= 1073741824 -> 0 < chunk ->
  total_chunks_ (adopt_announce_ a p chunk kb r) <> 0.
Proof.
  intros Hf Hc. unfold adopt_announce_, compute_increment_geometry_. cbn.
  rewrite ceil_div_eq by lia.
  pose proof (ceil_div_pos (fa_file_size a) chunk ltac:(lia) Hc).
  pose proof (ceil_div_bounds (fa_file_size a) chunk _ ltac:(lia) Hc eq_refl) as [_ B].
  specialize (B ltac:(lia)). rewrite u32_small; [lia|]. nia.
Qed.

Lemma adopt_announce_fields a p chunk kb (r : FileReceiver OTAFlashHandler) :
  let r1 := adopt_announce_ a p chunk kb r in
  send_ack_fn_set r1 = send_ack_fn_set r /\ file_size_ r1 = fa_file_size a /\
  chunk_payload_size_ r1 = chunk /\ last_announce_md5_ r1 = fa_md5 a.
Proof. done. Qed.

Lemma accept_announce_accepts a p chunk kb (s : St) :
  0 < fa_file_size a <= 1073741824 -> 0 < chunk -> send_ack_fn_set s.1 = true ->
  (forall payload w', (send_ack_fn payload w').1 = true) ->
  wp (accept_announce_ a p chunk kb) (fun ok s' =>
    ok = true /\ state_ s'.1 = RECEIVING /\ file_size_ s'.1 = fa_file_size a /\
    last_announce_md5_ s'.1 = fa_md5 a /\ current_increment_ s'.1 = 0 /\
    chunk_payload_size_ s'.1 = chunk) s.
Proof.
  intros Hf Hc Hset Hsend. unfold accept_announce_. apply wp_bind, wp_update, wp_bind, wp_this.
  cbn [fst snd]. pose proof (total_chunks_nonzero chunk kb a p s.1 Hf Hc) as Htc.
  destruct (geometry_range (s.1 <| active_handler_ := Some p |> <| file_size_ := fa_file_size a |>
    <| chunk_payload_size_ := chunk |> <| action_ := fa_action a |> <| file_id_ := fa_file_id a |>
    <| last_announce_md5_ := fa_md5 a |> <| buffer_size_kb_ := kb |>)) as (G1 & G2 & _).
  destruct (adopt_announce_fields a p chunk kb s.1) as (F1 & F2 & F3 & F4).
  rewrite Hset in F1.
  change (compute_increment_geometry_ _) with (adopt_announce_ a p chunk kb s.1) in G1, G2.
  generalize dependent (adopt_announce_ a p chunk kb s.1). intros r1 Htc G1 G2 F1 F2 F3 F4.
  apply wp_if; intros C; zprop; [exfalso; destruct C as [C|C]; zprop; try lia; destruct C; zprop; lia|].
  apply wp_bind, wp_update, wp_bind, wp_this, wp_bind. cbn [fst snd].
  apply wp_send_ack_ok; [done|done|]. intros w'. cbn [negb fst snd]. wp_recv.
  cbn. done.
Qed.

Lemma announce_accepts a (s : St) :
  inv s -> state_ s.1 = IDLE -> announce_fits a s.1 s.2 ->
  wp (handle_announce_ a) (fun ok s' =>
    ok = true /\ state_ s'.1 = RECEIVING /\ file_size_ s'.1 = fa_file_size a /\
    last_announce_md5_ s'.1 = fa_md5 a /\ current_increment_ s'.1 = 0 /\
    exists h p, handlers_ s.1 !! fa_action a = Some p /\ handler_heap s.1 !! p = Some h /\
      chunk_payload_size_ s'.1 = Z.min (fa_chunk_size a) (hmax_chunk_size_ h)) s.
Proof.
  intros [Hok Hinv] Hst
    [(Hen & Hds & Hset) Hfs Hcs (p & h & Hreg & Hp & Hmax) (sz & Hpart & Hsz) Hbeg Hsend].
  rewrite Hst in Hinv. destruct Hinv as [Ha Hc].
  assert (ota_is_receiving h = false) as Hq by (apply (h_quiet _ Hok p h Hp); by rewrite Ha).
  unfold handle_announce_. apply wp_bind, wp_this. rewrite Hen, Hds. cbn [negb andb].
  apply wp_if; intros C; [exfalso; unfold handler_busy in C; by rewrite Hst, Ha in C|clear C].
  apply wp_if; intros C; zprop; [lia|]. apply wp_if; intros C; zprop; [lia|]. rewrite Hreg.
  apply wp_bind, wp_invoke; [|congruence]. intros h0 Hh0. simplify_eq.
  eapply wp_mono; [apply (ota_on_announce_accepts _ _ _ _ _ _ h s.2 sz); try done; lia|].
  intros [resp kb] [h' w'] [Hacc Hneg]. cbn [fst snd] in *. rewrite Hacc. cbn [negb].
  apply wp_bind, wp_this. cbn [fst].
  change (max_chunk_size_ (s.1 <| handler_heap ::= <[p:=h']> |>)) with (max_chunk_size_ s.1).
  rewrite Hneg. apply wp_if; intros C'; zprop; [lia|].
  eapply wp_mono; [apply accept_announce_accepts; try done; lia|].
  cbn [fst snd]. intros ok s' (? & ? & ? & ? & ? & ?). split_and!; try done. by exists h, p.
Qed.

(** An idle receiver is never locked out: in every reachable IDLE state an announcement
    that fits the device is accepted, and the receiver is RECEIVING the announced file with
    the negotiated chunk size. *)
Theorem idle_accepts_announce m (w : W) (s : St) a :
  0 <= m < 65536 -> rtc recv_step (set_max_chunk_size m new_file_receiver, w) s ->
  state_ s.1 = IDLE -> announce_fits a s.1 s.2 ->
  let ok := (handle_announce_ a s).1 in
  let s' := (handle_announce_ a s).2 in
  ok = true /\ state_ s'.1 = RECEIVING /\ file_size_ s'.1 = fa_file_size a /\
  last_announce_md5_ s'.1 = fa_md5 a /\ current_increment_ s'.1 = 0 /\
  exists h p, handlers_ s.1 !! fa_action a = Some p /\ handler_heap s.1 !! p = Some h /\
    chunk_payload_size_ s'.1 = Z.min (fa_chunk_size a) (hmax_chunk_size_ h).
Proof.
  intros Hm Hs Hst Hfit.
  exact (announce_accepts a s (recv_steps_inv _ s (new_receiver_inv m w Hm) Hs) Hst Hfit).
Qed.

(** Radio silence ends a transfer: in every reachable state that receives data or waits
    for the end, when nothing was heard for more than 10 s the next [loop] aborts, and the
    receiver is IDLE with no busy handler. *)
Theorem silence_aborts m (w : W) (s : St) :
  0 <= m < 65536 -> rtc recv_step (set_max_chunk_size m new_file_receiver, w) s ->
  restart_pending_ s.1 = false ->
  state_ s.1 = RECEIVING \/ state_ s.1 = WAITING_END ->
  10000 < u32 (millis s.2 - last_activity_ms_ s.1) ->
  let s' := (loop s).2 in
  state_ s'.1 = IDLE /\ active_handler_ s'.1 = None /\
  forall p h, handler_heap s'.1 !! p = Some h -> ota_is_receiving h = false.
Proof.
  intros Hm Hs Hrp Hst Hsil.
  destruct (loop_silence s (recv_steps_inv _ s (new_receiver_inv m w Hm) Hs) Hrp Hst Hsil)
    as [[Hok Hm'] Hst']. cbv zeta. rewrite Hst' in Hm'. destruct Hm' as [Ha _].
  split_and!; [done|done|]. intros p h Hp. apply (h_quiet _ Hok p h Hp). by rewrite Ha.
Qed.

(** A receiver whose acknowledgement of a complete increment could not be sent stays in
    WRITING: neither the passage of time nor BLAST_COMPLETE frames move it, so only an
    ABORT (or the owner's abort) ends the transfer. *)
Theorem writing_never_times_out m (w : W) (s : St) bc :
  0 <= m < 65536 -> rtc recv_step (set_max_chunk_size m new_file_receiver, w) s ->
  restart_pending_ s.1 = false -> state_ s.1 = WRITING ->
  (loop s).2 = s /\ handle_blast_complete_ bc s = (false, s).
Proof.
  intros Hm Hs Hrp Hst. split.
  - exact (loop_writing_stays s (recv_steps_inv _ s (new_receiver_inv m w Hm) Hs) Hrp Hst).
  - unfold handle_blast_complete_, mbind, M_bind, this, gets. by rewrite Hst.
Qed.
End ota.

(** ** Witnesses: the theorems at the simulated device *)
Lemma receiver_invariant_witness : recv_ok (HandlerLaws0 := demo_laws None) (demo_full None).1.
Proof.
  apply (receiver_invariant (OtaPlatform0 := demo_platform None) demo_md5 1200 sim0); [lia|].
  apply demo_start_full.
Defined.

(** A radio that is always up. *)
Definition sim_env_up : ReceiverEnv Sim := {|
  millis := fun w => u32 (sim_now w);
  send_ack_fn := fun payload w => (true, w <| sim_acks ::= fun l => l ++ [payload] |>);
  esp_restart := fun w => w <| sim_restarts ::= Z.add 1 |>
|}.

Lemma demo_fits :
  announce_fits (ReceiverEnv0 := sim_env_up) (OtaPlatform0 := demo_platform None)
    (of_bytes demo_announce) demo_ready.1 demo_ready.2.
Proof.
  constructor; try (by vm_compute).
  - exists 0, (new_ota_flash_handler <| hmax_chunk_size_ := 1200 |>). by vm_compute.
  - exists 1048576. by vm_compute.
Qed.

Lemma idle_accepts_announce_witness :
  state_ (handle_announce_ (ReceiverEnv0 := sim_env_up) (ActionHandler0 := demo_handler None)
            (of_bytes demo_announce) demo_ready).2.1 = RECEIVING.
Proof.
  apply (idle_accepts_announce (ReceiverEnv0 := sim_env_up) (OtaPlatform0 := demo_platform None)
           demo_md5 1200 sim0 demo_ready (of_bytes demo_announce)).
  - lia.
  - eapply rtc_l; [exact (step_send_ack_fn true _)|]. apply rtc_once. exact (step_ota_enabled true _).
  - done.
  - apply demo_fits.
Defined.

Lemma silence_aborts_witness :
  let s' := (loop (ActionHandler0 := demo_handler None) (demo_later None)).2 in
  state_ s'.1 = IDLE /\ active_handler_ s'.1 = None /\
  forall p h, handler_heap s'.1 !! p = Some h -> ota_is_receiving h = false.
Proof.
  apply (silence_aborts (OtaPlatform0 := demo_platform None) demo_md5 1200 sim0).
  - lia.
  - apply demo_start_later.
  - by vm_compute.
  - left. by vm_compute.
  - by vm_compute.
Defined.

Lemma writing_never_times_out_witness :
  state_ (demo_stuck None).1 = WRITING /\
  (loop (ActionHandler0 := demo_handler None) (demo_stuck None)).2 = demo_stuck None.
Proof.
  split; [by vm_compute|].
  apply (writing_never_times_out (OtaPlatform0 := demo_platform None) demo_md5 1200 sim0 _
           {| fbc_phase := ESPNOW_FILE_PHASE_BLAST_COMPLETE; fbc_increment_index := 0 |}).
  - lia.
  - apply demo_start_stuck.
  - by vm_compute.
  - by vm_compute.
Defined.

(** ** A transient flash error *)

(** A single failed flash write, of the second chunk of an increment, ruins the
    transfer: the retry writes the whole increment again behind the first chunk, so the
    flash holds the first chunk twice and END reports WRITE_ERROR although every chunk was
    received and all later writes succeeded. *)
Theorem retry_duplicates_chunks :
  let s := demo_written (Some 1) in
  state_ s.1 = WAITING_END /\
  sim_flash s.2 = [233; 1; 2] ++ demo_file /\
  total_written_ <$> (handler_heap s.1 !! 0) = Some 10 /\
  last (sim_acks (demo_done (Some 1)).2) =
    Some (to_bytes {| ack_type := packet_type_code PKT_FILE_TRANSFER;
                      ack_result := ESPNOW_FILE_ACK_COMPLETE; ack_ref_tx_counter := 0 |}
          ++ [ESPNOW_FILE_ACTION_OTA_FLASH; ESPNOW_FILE_COMPLETE_WRITE_ERROR]).
Proof. by vm_compute. Qed.

Lemma geometry_exact_witness :
  let r := new_file_receiver <| file_size_ := 1000001 |> <| chunk_payload_size_ := 200 |> in
  chunks_per_increment_ (compute_increment_geometry_ r) = 40 /\
  total_chunks_ (compute_increment_geometry_ r) = 5001.
Proof.
  set (r := new_file_receiver <| file_size_ := 1000001 |> <| chunk_payload_size_ := 200 |>).
  destruct (geometry_exact r) as (H1 & H2 & _); [by vm_compute..|].
  change (chunk_payload_size_ r) with 200 in *. change (file_size_ r) with 1000001 in *.
  split; [by rewrite H1|lia].
Defined.

Lemma demo_receiving :
  inv (HandlerLaws0 := demo_laws None) (demo_announced None) /\
  receiving_file (WriterLaws0 := demo_writer None) demo_file (demo_announced None).1.
Proof.
  destruct (honest_run (HandlerLaws0 := demo_laws None) (WriterLaws0 := demo_writer None)
    demo_file demo_start (demo_announced None)) as [Hi Hh].
  - apply byteb_ok. by vm_compute.
  - exact (ota_accepts_file (OtaPlatform0 := demo_platform None) demo_md5 demo_file
             (fun _ _ _ => eq_refl) eq_refl ltac:(by vm_compute)).
  - by vm_compute.
  - exact (new_receiver_inv (OtaPlatform0 := demo_platform None) demo_md5 1200 sim0 ltac:(lia)).
  - done.
  - exact (demo_announced_steps None).
  - split; [done|]. by apply honest_receiving in Hh; [|by vm_compute].
Qed.

Lemma file_data_stores_chunk_witness :
  let res := handle_file_data (H := OTAFlashHandler)
    (data_frame demo_file (chunk_payload_size_ (demo_announced None).1) 2) (demo_announced None) in
  res.1 = in_window (demo_announced None).1 2 || ((2 <? seq_of (demo_announced None).1 0) &&
            increment_written_ (demo_announced None).1) /\
  buf_matches demo_file res.2.1.
Proof.
  destruct demo_receiving as [Hi [E HF _ Hm _]].
  destruct (file_data_stores_chunk (HandlerLaws0 := demo_laws None) demo_file (demo_announced None) 2
              Hi) as (H1 & _ & H2 & _).
  - by vm_compute.
  - exact E.
  - exact HF.
  - exact Hm.
  - by vm_compute.
  - split; assumption.
Defined.
