(* ===== verification/FlashTrace.v ===== *)
(** * FlashTrace: what reaches the flash, the boot partition and the restart call

    The receiver of [OtaReceive] on a world that records every call of the
    platform: [traced_platform] and [traced_env] wrap any flash, radio and
    clock and append to a log what they were called with and what they
    answered, newest event first.  The theorems of this file are about that
    log: what the flash holds, when the boot partition is switched, when the
    device restarts and which acknowledgements it sends. *)
From S2P Require Import Prelude Wire IncrementBuffer FileReceiver OTAFlashHandler FileReceiverInv FileContent OtaReceive.

(** ** The log *)
Inductive Event :=
  | EvFrame (payload : bytes)
  | EvBegin (size : Z) (ok : bool) (handle : Z)
  | EvWrite (handle : Z) (data : bytes) (ok : bool)
  | EvEnd (handle : Z) (ok : bool)
  | EvAbort (handle : Z)
  | EvBoot (ok : bool)
  | EvAck (payload : bytes) (ok : bool)
  | EvRestart.
#[export] Instance Event_eq_dec : EqDecision Event.
Proof. solve_decision. Defined.

Abbreviation Logged W := (list Event * W)%type.

Section wrap.
Context {W : Type} `{!ReceiverEnv W} `{!OtaPlatform W}.

Definition record {A} (ev : A -> Event) (f : W -> A * W) (w : Logged W) : A * Logged W :=
  let '(a, w') := f w.2 in (a, (ev a :: w.1, w')).

#[export] Instance traced_env : ReceiverEnv (Logged W) := {|
  millis := fun w => millis w.2;
  send_ack_fn := fun payload => record (EvAck payload) (send_ack_fn payload);
  esp_restart := fun w => (EvRestart :: w.1, esp_restart w.2)
|}.

#[export] Instance traced_platform : OtaPlatform (Logged W) := {|
  esp_ota_get_next_update_partition := fun w => esp_ota_get_next_update_partition w.2;
  esp_ota_begin := fun size => record (fun a => EvBegin size a.1 a.2) (esp_ota_begin size);
  esp_ota_write := fun handle data => record (EvWrite handle data) (esp_ota_write handle data);
  esp_ota_end := fun handle => record (EvEnd handle) (esp_ota_end handle);
  esp_ota_set_boot_partition := record EvBoot esp_ota_set_boot_partition;
  esp_ota_abort := fun handle w => (EvAbort handle :: w.1, esp_ota_abort handle w.2);
  heap_caps_get_largest_free_block := fun w => heap_caps_get_largest_free_block w.2
|}.
End wrap.

(** ** Reading the flash back from the log

    The image being written: [esp_ota_begin] erases the partition and opens it
    under a handle, a successful [esp_ota_write] of that handle appends, the
    end or the abort of an update closes it.  [im_frame] is the frame that was
    being handled when the partition was opened. *)
Record image := { im_handle : Z; im_frame : bytes; im_content : bytes }.

Fixpoint latest_frame (log : list Event) : bytes :=
  match log with
  | [] => []
  | EvFrame p :: _ => p
  | _ :: log => latest_frame log
  end.

Fixpoint opened (log : list Event) : option image :=
  match log with
  | [] => None
  | EvBegin _ ok h :: log =>
    if ok then Some {| im_handle := h; im_frame := latest_frame log; im_content := [] |} else None
  | EvWrite h data ok :: log =>
    match opened log with
    | Some im => if ok && (im_handle im =? h)
                 then Some {| im_handle := h; im_frame := im_frame im;
                              im_content := im_content im ++ data |}
                 else Some im
    | None => None
    end
  | EvEnd _ _ :: _ | EvAbort _ :: _ => None
  | _ :: log => opened log
  end.

(** The frame is an announcement of a file of the image's size and MD5. *)
Definition announces (md5 : bytes -> bytes) (im : image) : Prop :=
  let a : espnow_file_announce_t := of_bytes (im_frame im) in
  im_frame im !! 0%nat = Some ESPNOW_FILE_PHASE_ANNOUNCE /\
  length (im_frame im) = sizeof espnow_file_announce_t /\
  md5 (im_content im) = fa_md5 a /\
  u32 (Z.of_nat (length (im_content im))) = fa_file_size a.

(** Every switch of the boot partition directly follows the successful end of an
    update whose image is the announced one; every restart follows a successful
    switch. *)
Definition boots_verified (md5 : bytes -> bytes) (log : list Event) : Prop :=
  forall l1 ok l2, log = l1 ++ EvBoot ok :: l2 ->
    exists handle l3 im, l2 = EvEnd handle true :: l3 /\ opened l3 = Some im /\
      im_handle im = handle /\ announces md5 im.
Definition restarts_booted (log : list Event) : Prop :=
  forall l1 l2, log = l1 ++ EvRestart :: l2 -> EvBoot true ∈ l2.

Definition harmless (e : Event) : Prop :=
  match e with EvBoot _ | EvRestart => False | _ => True end.

Lemma cons_split {A} (e x : A) log l1 l2 :
  e :: log = l1 ++ x :: l2 ->
  (l1 = [] /\ e = x /\ log = l2) \/ (exists l1', l1 = e :: l1' /\ log = l1' ++ x :: l2).
Proof. destruct l1 as [|y l1]; intros E; injection E as -> E; [left; auto|right; eauto]. Qed.

Lemma boots_cons md5 e log :
  (forall ok, e = EvBoot ok -> exists handle l3 im, log = EvEnd handle true :: l3 /\
     opened l3 = Some im /\ im_handle im = handle /\ announces md5 im) ->
  boots_verified md5 log -> boots_verified md5 (e :: log).
Proof.
  intros He Hb l1 ok l2 E. destruct (cons_split _ _ _ _ _ E) as [(_ & E1 & <-)|(l1' & _ & E1)];
    [by apply (He ok)|by apply (Hb l1' ok)].
Qed.

Lemma restarts_cons e log :
  (e = EvRestart -> EvBoot true ∈ log) -> restarts_booted log -> restarts_booted (e :: log).
Proof.
  intros He Hb l1 l2 E. destruct (cons_split _ _ _ _ _ E) as [(_ & E1 & <-)|(l1' & _ & E1)];
    [by apply He|by apply (Hb l1')].
Qed.

Section flash.
Context {W : Type} `{!ReceiverEnv W} `{!OtaPlatform W} (md5 : bytes -> bytes).
#[local] Existing Instance ota_action_handler.
#[local] Instance flash_handler : ActionHandler OTAFlashHandler (Logged W) := ota_action_handler md5.
Abbreviation HSt := (OTAFlashHandler * Logged W)%type.
Abbreviation St := (FileReceiver OTAFlashHandler * Logged W)%type.
Implicit Types (h : OTAFlashHandler) (s : St).

(** ** The handler and the log agree

    While the handler receives, the open image is the one its digest was
    computed from, under its handle, and was opened by the announcement it
    remembers. *)
Definition in_step h (log : list Event) : Prop :=
  hstate_ h = HRECEIVING ->
  exists im, opened log = Some im /\ im_handle im = ota_handle_ h /\
    im_content im = md5_digest_ h /\
    im_frame im !! 0%nat = Some ESPNOW_FILE_PHASE_ANNOUNCE /\
    length (im_frame im) = sizeof espnow_file_announce_t /\
    (fa_file_size (of_bytes (im_frame im)), fa_md5 (of_bytes (im_frame im))) =
      (hfile_size_ h, expected_md5_ h).

(** [booted] asks in addition that a verified image was made bootable. *)
Record log_ok (p : bytes) (booted : bool) (log : list Event) : Prop := {
  l_frame : latest_frame log = p;
  l_boots : boots_verified md5 log;
  l_restarts : restarts_booted log;
  l_booted : booted = true -> EvBoot true ∈ log
}.

Lemma log_ok_cons p b e log :
  harmless e -> (forall q, e <> EvFrame q) -> log_ok p b log -> log_ok p b (e :: log).
Proof.
  intros He Hf [F B R K]. constructor.
  - destruct e; try done. by edestruct Hf.
  - apply boots_cons; [|done]. by intros ? ->.
  - apply restarts_cons; [|done]. by intros ->.
  - intros Hb. right; by apply K.
Qed.

Lemma log_ok_boot p b ok log :
  log_ok p b log -> (exists handle l3 im, log = EvEnd handle true :: l3 /\
     opened l3 = Some im /\ im_handle im = handle /\ announces md5 im) ->
  log_ok p (b || ok) (EvBoot ok :: log).
Proof.
  intros [F B R K] Hv. constructor; [done|by apply boots_cons|by apply restarts_cons|].
  intros Hb. zprop. destruct ok; [by left|]. destruct Hb as [Hb|]; [|done]. by right; apply K.
Qed.

Lemma log_ok_restart p log : log_ok p true log -> log_ok p true (EvRestart :: log).
Proof.
  intros [F B R K]. constructor; [done|by apply boots_cons|apply restarts_cons; auto|].
  intros Hb. by right; apply K.
Qed.

Lemma log_ok_weaken p b log : log_ok p b log -> log_ok p false log.
Proof. by intros []. Qed.

(** ** Calls of the handler *)
Definition hok (p : bytes) (b : bool) (hw : HSt) : Prop :=
  ota_ok hw.1 /\ in_step hw.1 hw.2.1 /\ log_ok p b hw.2.1.

Lemma wp_record {A} (ev : A -> Event) (f : W -> A * W) (Q : A -> HSt -> Prop) h log w0 :
  (forall a w', f w0 = (a, w') -> Q a (h, (ev a :: log, w'))) ->
  wp (platform (record ev f)) Q (h, (log, w0)).
Proof.
  intros HQ. apply wp_platform. intros a w' E. unfold record in E. cbn in E.
  destruct (f w0) as [a' w''] eqn:E'. injection E as <- <-. by apply HQ.
Qed.

Lemma wp_logged_abort handle (Q : unit -> HSt -> Prop) h log w0 :
  (forall w', Q tt (h, (EvAbort handle :: log, w'))) ->
  wp (platform_ (esp_ota_abort handle)) Q (h, (log, w0)).
Proof. intros HQ. apply wp_modify. apply HQ. Qed.

Ltac wp_flash_step :=
  lazymatch goal with
  | |- wp (platform (esp_ota_begin ?z)) _ _ =>
    apply (wp_record (fun a => EvBegin z a.1 a.2) (esp_ota_begin z)); intros ? ? ?
  | |- wp (platform (esp_ota_write ?z ?d)) _ _ =>
    apply (wp_record (EvWrite z d) (esp_ota_write z d)); intros ? ? ?
  | |- wp (platform (esp_ota_end ?z)) _ _ =>
    apply (wp_record (EvEnd z) (esp_ota_end z)); intros ? ? ?
  | |- wp (platform esp_ota_set_boot_partition) _ _ =>
    apply (wp_record EvBoot esp_ota_set_boot_partition); intros ? ? ?
  | |- wp (platform_ (esp_ota_abort _)) _ _ => apply wp_logged_abort; intros ?
  | _ => wp_ota_step
  end.
Ltac wp_flash := repeat (wp_flash_step; cbv beta; cbn [fst snd]).

Lemma idle_in_step h log : hstate_ h <> HRECEIVING -> in_step h log.
Proof. intros Hn Hr. done. Qed.

Lemma in_step_other h e log :
  match e with EvFrame _ | EvAck _ _ | EvBoot _ | EvRestart => True | _ => False end ->
  in_step h log -> in_step h (e :: log).
Proof. intros He Hs Hr. destruct (Hs Hr) as (im & Ho & ?). exists im. by destruct e. Qed.

(** What an announcement in frame [p] may tell the handler. *)
Definition announced_by (p : bytes) (file_size : Z) (md5_in : bytes) : Prop :=
  p !! 0%nat = Some ESPNOW_FILE_PHASE_ANNOUNCE /\ length p = sizeof espnow_file_announce_t /\
  (fa_file_size (of_bytes p), fa_md5 (of_bytes p)) = (file_size, md5_in).

Lemma flash_announce p b file_size md5_in chunk_size action file_id kb hw :
  announced_by p file_size md5_in -> hok p b hw ->
  wp (ota_on_announce file_size md5_in chunk_size action file_id kb) (fun _ => hok p b) hw.
Proof.
  destruct hw as [h [log w0]]. intros (Hp & Hl & Ha) (Hok & Hs & Hlog). cbn [fst snd] in *.
  pose proof Hok as [O1 O2 O3 O4].
  unfold ota_on_announce. wp_flash; try done;
    match goal with C : negb (hstate_is _ HIDLE) = false |- _ =>
      apply negb_false_iff, bool_decide_eq_true in C; rename C into Hst end;
    (split; [constructor; cbn in *; rewrite ?Hst in *; done|]);
    (split; [|cbn; try done; by repeat apply log_ok_cons]); cbn;
    try (by apply idle_in_step; cbn; rewrite Hst).
  intros _. zprop. simplify_eq. eexists. split; [reflexivity|]. destruct Hlog as [<- _ _ _].
  by split_and!.
Qed.

Lemma flash_data p b sequence data hw :
  hok p b hw -> wp (ota_on_data sequence data) (fun _ => hok p b) hw.
Proof.
  destruct hw as [h [log w0]]. intros (Hok & Hs & Hlog). cbn [fst snd] in *.
  assert (forall a w', esp_ota_write (ota_handle_ h) data w0 = (a, w') ->
            log_ok p b (EvWrite (ota_handle_ h) data a :: log)) as Hlog' by (intros; by apply log_ok_cons).
  pose proof Hok as [O1 O2 O3 O4].
  unfold ota_on_data. wp_flash; try done;
    match goal with C : negb (hstate_is _ HRECEIVING) = false |- _ =>
      apply negb_false_iff, bool_decide_eq_true in C; rename C into Hst end;
    destruct (Hs Hst) as (im & Ho & Hh & Hc & Hf); zprop; subst.
  - split; [done|]. split; [|by eapply Hlog'].
    intros _. exists im. cbn [opened fst snd]. by rewrite Ho.
  - by rewrite O3 in *.
  - split; [|split; [|by eapply Hlog']].
    + constructor; cbn; try done. intros _. rewrite O4 by done.
      rewrite length_app, Nat2Z.inj_add. unfold u32. by rewrite <-Zplus_mod.
    + intros _. eexists. cbn [opened fst snd]. rewrite Ho, Hh, Z.eqb_refl. split; [reflexivity|].
      split_and!; try done; [cbn; by rewrite Hc|apply Hf..].
Qed.

Lemma flash_abort p b reason hw : hok p b hw -> wp (ota_on_abort reason) (fun _ => hok p b) hw.
Proof.
  destruct hw as [h [log w0]]. intros (Hok & Hs & Hlog). cbn [fst snd] in *.
  pose proof Hok as [O1 O2 O3 O4]. unfold ota_on_abort.
  wp_flash; (split; [by constructor|]); (split; [by apply idle_in_step|]); try done.
  by apply log_ok_cons.
Qed.

Lemma hok_idle p b h log w0 :
  hstate_ h = HIDLE -> 0 <= hmax_chunk_size_ h < 65536 -> log_ok p b log -> hok p b (h, (log, w0)).
Proof.
  intros Hst Hm Hl. split; [|split; [|done]]; cbn.
  - constructor; [done| | |]; rewrite Hst; done.
  - apply idle_in_step. by rewrite Hst.
Qed.

(** The image of a handler that passed both checks of [on_end] is the announced one. *)
Lemma verified_boot p b h log ok :
  log_ok p b log -> ota_ok h -> in_step h log -> hstate_ h = HRECEIVING ->
  total_written_ h = hfile_size_ h -> md5 (md5_digest_ h) = expected_md5_ h ->
  log_ok p (b || ok) (EvBoot ok :: EvEnd (ota_handle_ h) true :: log).
Proof.
  intros Hlog Hok Hs Hst Hsz Hmd. apply log_ok_boot; [by apply log_ok_cons|].
  destruct (Hs Hst) as (im & Ho & Hh & Hc & Hf0 & Hfl & Hf). apply pair_eq in Hf as [Hf1 Hf2].
  exists (ota_handle_ h), log, im. split_and!; try done.
  unfold announces. rewrite Hc, Hf1, Hf2, <-Hsz, (o_total h Hok Hst). done.
Qed.

(** [on_end]: a boot switch only behind the successful end of a checked image. *)
Lemma flash_end p b hw :
  hok p b hw ->
  wp (ota_on_end md5) (fun res hw' => hok p b hw' /\
    (res = ESPNOW_FILE_COMPLETE_SUCCESS -> hok p true hw')) hw.
Proof.
  destruct hw as [h [log w0]]. intros (Hok & Hs & Hlog). cbn [fst snd] in *.
  pose proof (o_max h Hok) as Hm. pose proof (verified_boot p b h log) as Hv.
  unfold ota_on_end. wp_flash; try done;
    match goal with C : negb (hstate_is _ HRECEIVING) = false |- _ =>
      apply negb_false_iff, bool_decide_eq_true in C; rename C into Hst end;
    try (split; [apply hok_idle; [done|done|by repeat apply log_ok_cons]|done]);
    match goal with C : negb (bytes_eqb _ _) = false |- _ =>
      apply negb_false_iff, bytes_eqb_true in C; rename C into Hmd end;
    zprop; simplify_eq; cbn [fst snd] in *.
  - split; [|done]. apply hok_idle; [done|done|]. specialize (Hv false). rewrite orb_false_r in Hv. by apply Hv.
  - assert (log_ok p true (EvBoot true :: EvEnd (ota_handle_ h) true :: log)) as Hboot
      by (specialize (Hv true); rewrite orb_true_r in Hv; by apply Hv).
    split; [|intros _]; (apply hok_idle; [done|done|]); [|done].
    destruct Hboot as [L1 L2 L3 L4]. constructor; auto.
Qed.

(** ** The receiver *)
Definition flash_ok (p : bytes) (b : bool) s : Prop :=
  exists h b', handler_heap s.1 = {[0 := h]} /\ hok p b' (h, s.2) /\ (b = true -> b' = true) /\
    (restart_pending_ s.1 = true \/ in_complete_phase_ s.1 = true -> b' = true).
Definition flash_rel p b s s' : Prop := flash_ok p b s -> flash_ok p b s'.
#[local] Instance flash_rel_preorder p b : PreOrder (flash_rel p b).
Proof. split; [by intros s Hs|]. intros s1 s2 s3 H12 H23 Hs. by apply H23, H12. Qed.

(** A write of the receiver's own fields that starts neither the completion phase nor
    a restart, unless an image was made bootable. *)
Lemma flash_update p b (f : FileReceiver OTAFlashHandler -> FileReceiver OTAFlashHandler) :
  (forall r, handler_heap (f r) = handler_heap r) ->
  (forall r, b = true \/ ((restart_pending_ (f r) = true -> restart_pending_ r = true) /\
                          (in_complete_phase_ (f r) = true -> in_complete_phase_ r = true))) ->
  keeps (flash_rel p b) (update f).
Proof.
  intros Hh Hc s (h & b' & Hheap & Hok & Hb & Hr). exists h, b'. cbn. rewrite Hh.
  split_and!; try done. destruct (Hc s.1) as [->|[H1 H2]]; [auto|]. intros [?|?]; apply Hr; auto.
Qed.

Lemma flash_invoke {A} p b q (d : A) op :
  (forall b' hw, hok p b' hw -> wp op (fun _ => hok p b') hw) ->
  keeps (flash_rel p b) (invoke q d op).
Proof.
  intros Hop [r w] (h & b' & Hheap & Hok & Hb & Hr). unfold invoke. cbn [fst snd] in *. rewrite Hheap.
  destruct (decide (q = 0)) as [->|Hq];
    [|rewrite lookup_singleton_ne by done; by exists h, b'].
  rewrite lookup_singleton_eq. specialize (Hop b' (h, w) Hok). unfold wp in Hop.
  destruct (op (h, w)) as [a [h' w']]. exists h', b'. cbn in *.
  rewrite Hheap, insert_singleton_eq. done.
Qed.

Lemma flash_invoke_active {A} p b (d : A) op :
  (forall b' hw, hok p b' hw -> wp op (fun _ => hok p b') hw) ->
  keeps (flash_rel p b) (invoke_active d op).
Proof.
  intros Hop. unfold invoke_active, this. keeps_go ltac:(by apply flash_invoke).
Qed.

Lemma flash_send p b result trailing : keeps (flash_rel p b) (send_ack_ result trailing).
Proof.
  intros [r [log w]] Hs. unfold send_ack_, mbind, M_bind, this, gets. cbn [fst snd].
  case_match; [done|]. destruct Hs as (h & b' & Hheap & (Ho & Hi & Hl) & Hb & Hr).
  unfold send_ack_fn, traced_env, record. cbn [fst snd]. destruct (send_ack_fn _ w) as [ok w'].
  exists h, b'. cbn in *. split_and!; try done. split; [done|].
  split; [by apply (in_step_other h (EvAck _ ok))|by apply (log_ok_cons p b' (EvAck _ ok))].
Qed.

Ltac flash_tac := idtac;
  lazymatch goal with
  | |- keeps _ this => apply keeps_gets; exact _
  | |- keeps _ millis_ => apply keeps_gets; exact _
  | |- keeps _ (update _) => apply flash_update; [by intros|intros; right; split; by intros]
  | |- keeps _ (send_ack_ _ _) => apply flash_send
  | |- keeps _ (invoke_active _ (on_data _ _)) =>
    apply flash_invoke_active; intros; by apply flash_data
  | |- keeps _ (invoke_active _ (on_abort _)) =>
    apply flash_invoke_active; intros; by apply flash_abort
  | |- keeps _ (invoke _ _ (on_abort _)) => apply flash_invoke; intros; by apply flash_abort
  | _ => solve [eauto with esp]
  end.

Lemma flash_reset p b : keeps (flash_rel p b) reset_.
Proof. unfold reset_. flash_tac. Qed.
#[local] Hint Resolve flash_reset : esp.

Lemma flash_abort_op p b reason notify : keeps (flash_rel p b) (abort reason notify).
Proof. unfold abort, send_ack_abort_. keeps_go flash_tac. Qed.
#[local] Hint Resolve flash_abort_op : esp.

Lemma flash_file_data p b payload : keeps (flash_rel p b) (handle_file_data payload).
Proof. unfold handle_file_data. keeps_go flash_tac. Qed.

Lemma flash_write_chunk p b n i : keeps (flash_rel p b) (write_chunk_ n i).
Proof. unfold write_chunk_. keeps_go flash_tac. Qed.
#[local] Hint Resolve flash_write_chunk : esp.

Lemma flash_retry_chunks p b n js : keeps (flash_rel p b) (retry_chunks_ n js).
Proof. induction js as [|j js IH]; cbn [retry_chunks_]; keeps_go flash_tac. Qed.
#[local] Hint Resolve flash_retry_chunks : esp.

Lemma flash_write_chunks p b n js : keeps (flash_rel p b) (write_chunks_ n js).
Proof. induction js as [|j js IH]; cbn [write_chunks_]; keeps_go flash_tac. Qed.
#[local] Hint Resolve flash_write_chunks : esp.

Lemma flash_blast p b bc : keeps (flash_rel p b) (handle_blast_complete_ bc).
Proof.
  unfold handle_blast_complete_, write_increment_to_flash_, send_gaps_ack_. keeps_go flash_tac.
Qed.

Lemma flash_abort_packet p b a : keeps (flash_rel p b) (handle_abort_ a).
Proof. unfold handle_abort_. keeps_go flash_tac. Qed.

Lemma flash_announce_packet p b a :
  announced_by p (fa_file_size a) (fa_md5 a) -> keeps (flash_rel p b) (handle_announce_ a).
Proof.
  intros Ha. unfold handle_announce_, accept_announce_, send_ack_accept_, send_ack_reject_.
  keeps_go ltac:(idtac; lazymatch goal with
    | |- keeps _ (invoke _ _ (on_announce _ _ _ _ _ _)) =>
      apply flash_invoke; intros; by apply flash_announce
    | _ => flash_tac end).
Qed.

(** END: the completion phase starts only behind a verified image. *)
Lemma flash_weaken p b s : flash_ok p true s -> flash_ok p b s.
Proof. intros (h & b' & Hheap & Hok & Hb & Hr). exists h, b'. split_and!; try done; auto. Qed.

Lemma flash_booted p b s :
  flash_ok p b s -> restart_pending_ s.1 = true \/ in_complete_phase_ s.1 = true -> flash_ok p true s.
Proof. intros (h & b' & Hheap & Hok & Hb & Hr) Hc. exists h, b'. split_and!; auto. Qed.

Lemma flash_invoke_end p b s :
  flash_ok p b s ->
  wp (invoke_active ESPNOW_FILE_COMPLETE_ABORTED on_end) (fun res s' => flash_ok p b s' /\
    (res = ESPNOW_FILE_COMPLETE_SUCCESS -> flash_ok p true s')) s.
Proof.
  intros (h & b' & Hheap & Hok & Hb & Hr). assert (flash_ok p b s) as Hs by (by exists h, b').
  unfold invoke_active. apply wp_bind, wp_this. destruct (active_handler_ s.1) as [q|]; [|by apply wp_ret].
  apply wp_invoke; [|done]. intros h0 Hh0. rewrite Hheap in Hh0.
  apply lookup_singleton_Some in Hh0 as [<- <-].
  eapply wp_mono; [by apply flash_end|]. intros res [h' w'] [H1 H2]. cbn [fst snd] in *.
  split; [exists h', b'|intros Hres; exists h', true]; cbn; rewrite Hheap, insert_singleton_eq;
    split_and!; auto.
Qed.

Lemma flash_end_packet p b e : keeps (flash_rel p b) (handle_end_ e).
Proof.
  intros s Hs. unfold handle_end_.
  change (wp (handle_end_ e) (fun _ => flash_ok p b) s). unfold handle_end_.
  apply wp_if; intros _; [done|]. apply wp_bind, wp_this, wp_if; intros _; [done|].
  apply wp_bind. apply (wp_keeps (flash_rel p b)); [flash_tac|]. intros [] s1 H1. apply H1 in Hs. apply wp_bind. eapply wp_mono; [by apply flash_invoke_end|].
  intros res s2 [H2 H3]. apply wp_bind, wp_this, wp_if; intros C.
  - zprop. apply H3 in H as H4. apply (wp_keeps (flash_rel p true)).
    + keeps_go ltac:(idtac; lazymatch goal with
        | |- keeps _ (update _) => apply flash_update; [by intros|by left]
        | _ => flash_tac end).
    + intros _ s3 H5. by apply flash_weaken, H5.
  - apply (wp_keeps (flash_rel p b)); [unfold send_ack_complete_; keeps_go flash_tac|].
    intros _ s3 H5. by apply H5.
Qed.

(** The end of the completion phase schedules the restart. *)
Lemma flash_complete_phase p : keeps (flash_rel p true) complete_phase_.
Proof.
  unfold complete_phase_, schedule_restart_, send_ack_complete_.
  keeps_go ltac:(idtac; lazymatch goal with
    | |- keeps _ (update _) => apply flash_update; [by intros|by left]
    | _ => flash_tac end).
Qed.

Lemma flash_restart_if_due p b : keeps (flash_rel p b) perform_restart_if_due_.
Proof.
  intros [r [log w]] Hs. unfold perform_restart_if_due_, mbind, M_bind, this, gets. cbn [fst snd].
  destruct (restart_pending_ r) eqn:Er; cbn [negb]; [|done]. unfold millis_, gets. cbn [fst snd].
  case_match; [done|]. apply (flash_booted p b) in Hs as (h & b' & Hheap & (Ho & Hi & Hl) & Hb & Hr);
    [|by left]. rewrite (Hb eq_refl) in Hl. exists h, true. cbn. split_and!; try done.
  split; [done|]. split; [by apply (in_step_other h EvRestart)|by apply log_ok_restart].
Qed.

Lemma flash_loop p b : keeps (flash_rel p b) loop.
Proof.
  intros s Hs. unfold loop, mbind, M_bind.
  pose proof (flash_restart_if_due p b s Hs) as Hs1.
  destruct (perform_restart_if_due_ s) as [[] s1]. cbn [snd] in Hs1.
  change (wp loop_rest_ (fun _ => flash_ok p b) s1). unfold loop_rest_.
  apply wp_bind, wp_this. destruct (in_complete_phase_ s1.1) eqn:E.
  - apply (wp_keeps (flash_rel p true)); [apply flash_complete_phase|].
    intros _ s2 H2. apply flash_weaken, H2, (flash_booted p b); [done|by right].
  - apply (wp_keeps (flash_rel p b)); [keeps_go flash_tac|]. intros _ s2 H2. by apply H2.
Qed.

(** ** Steps

    One step is a frame of the network (logged when its handling starts), another call
    of an entry point, or the world moving on; [ctl] and [dat] say which frames arrive. *)
Inductive flash_step (ctl : bytes -> Prop) (dat : FileReceiver OTAFlashHandler -> bytes -> Prop) : St -> St -> Prop :=
  | fs_control payload r log w :
      bytes_ok payload -> ctl payload ->
      flash_step ctl dat (r, (log, w)) (handle_file_transfer payload (r, (EvFrame payload :: log, w))).2
  | fs_data payload r log w :
      bytes_ok payload -> dat r payload ->
      flash_step ctl dat (r, (log, w)) (handle_file_data payload (r, (EvFrame payload :: log, w))).2
  | fs_loop s : flash_step ctl dat s (loop s).2
  | fs_abort reason notify s : flash_step ctl dat s (abort reason notify s).2
  | fs_announce_tx_counter c s : flash_step ctl dat s (set_announce_tx_counter c s).2
  | fs_blast_tx_counter c s : flash_step ctl dat s (set_blast_complete_tx_counter c s).2
  | fs_ota_enabled b s : flash_step ctl dat s (set_ota_enabled b s).2
  | fs_deep_sleep b s : flash_step ctl dat s (set_deep_sleep_active b s).2
  | fs_local_mac mac s : flash_step ctl dat s (set_local_mac mac s).2
  | fs_send_ack_fn b s : flash_step ctl dat s (set_send_ack_fn b s).2
  | fs_register action p s :
      (forall q, p = Some q -> is_Some (handler_heap s.1 !! q)) ->
      flash_step ctl dat s (register_handler action p s).2
  | fs_world r log w w' : flash_step ctl dat (r, (log, w)) (r, (log, w')).

Lemma flash_frame p b q r log w :
  flash_ok p b (r, (log, w)) -> flash_ok q b (r, (EvFrame q :: log, w)).
Proof.
  intros (h & b' & Hheap & (Ho & Hi & [L1 L2 L3 L4]) & Hb & Hr). exists h, b'. split_and!; try done.
  split; [done|]. split; [by apply (in_step_other h (EvFrame q))|]. constructor; [done| | |].
  - by apply boots_cons.
  - by apply restarts_cons.
  - intros Hb'. right. by apply L4.
Qed.

Lemma flash_file_transfer p b : keeps (flash_rel p b) (handle_file_transfer p).
Proof.
  unfold handle_file_transfer. destruct p as [|phase rest]; [by intros s|].
  keeps_go ltac:(idtac; lazymatch goal with
    | |- keeps _ (handle_announce_ _) => apply flash_announce_packet; zprop; subst; done
    | |- keeps _ (handle_end_ _) => apply flash_end_packet
    | |- keeps _ (handle_abort_ _) => apply flash_abort_packet
    | |- keeps _ (handle_blast_complete_ _) => apply flash_blast
    | _ => flash_tac end).
Qed.

Lemma flash_register p b action q : keeps (flash_rel p b) (register_handler action q).
Proof. unfold register_handler. keeps_go flash_tac. Qed.

Definition flash_inv s : Prop := exists p, flash_ok p false s.

Lemma flash_step_inv ctl dat s s' : flash_inv s -> flash_step ctl dat s s' -> flash_inv s'.
Proof.
  intros [p Hs] Hstep. destruct Hstep.
  - exists payload. by eapply flash_file_transfer, flash_frame.
  - exists payload. by eapply flash_file_data, flash_frame.
  - exists p. by apply flash_loop.
  - exists p. by apply flash_abort_op.
  - exists p. revert Hs. apply (flash_update p false); [done|]. intros; right; by split.
  - exists p. revert Hs. apply (flash_update p false); [done|]. intros; right; by split.
  - exists p. revert Hs. apply (flash_update p false); [done|]. intros; right; by split.
  - exists p. revert Hs. apply (flash_update p false); [done|]. intros; right; by split.
  - exists p. revert Hs. apply (flash_update p false); [done|]. intros; right; by split.
  - exists p. revert Hs. apply (flash_update p false); [done|]. intros; right; by split.
  - exists p. by apply flash_register.
  - exists p. exact Hs.
Qed.

Lemma flash_steps_inv ctl dat s s' : flash_inv s -> rtc (flash_step ctl dat) s s' -> flash_inv s'.
Proof. induction 2; eauto using flash_step_inv. Qed.

(** The device at start-up: a constructed receiver and an empty log. *)
Definition flash_start (m : Z) (w : W) : St := (set_max_chunk_size m new_file_receiver, ([], w)).

Lemma flash_start_inv m w : 0 <= m < 65536 -> flash_inv (flash_start m w).
Proof.
  intros Hm. exists [], (new_ota_flash_handler <| hmax_chunk_size_ := m |>), false.
  split; [done|]. split; [|split; [done|by intros [|]]].
  apply hok_idle; [done|done|]. constructor; try done; intros l1; by destruct l1.
Qed.

(** C1: Whatever frames arrive, in whatever order and however the flash, the radio and the
    clock behave: the boot partition is only switched directly after the successful end of
    an update that was opened by an announcement and whose written bytes (everything the
    flash accepted under that handle since it was opened) have the announced size (modulo
    2^32) and the announced MD5; and the device only restarts after such a switch
    succeeded. *)
Theorem boot_only_verified m (w : W) s :
  0 <= m < 65536 -> rtc (flash_step (fun _ => True) (fun _ _ => True)) (flash_start m w) s ->
  (forall l1 ok l2, s.2.1 = l1 ++ EvBoot ok :: l2 ->
     exists handle l3 im, l2 = EvEnd handle true :: l3 /\ opened l3 = Some im /\
       im_handle im = handle /\ announces md5 im) /\
  (forall l1 l2, s.2.1 = l1 ++ EvRestart :: l2 -> EvBoot true ∈ l2).
Proof.
  intros Hm Hs. destruct (flash_steps_inv _ _ _ _ (flash_start_inv m w Hm) Hs)
    as (p & h & b & _ & (_ & _ & [_ Hb Hr _]) & _). done.
Qed.

Lemma flash_step_any ctl dat s s' :
  flash_step ctl dat s s' -> flash_step (fun _ => True) (fun _ _ => True) s s'.
Proof. intros []; by constructor. Qed.

Lemma flash_steps_any ctl dat s s' :
  rtc (flash_step ctl dat) s s' -> rtc (flash_step (fun _ => True) (fun _ _ => True)) s s'.
Proof. induction 1; [done|]. eapply rtc_l; [by eapply flash_step_any|done]. Qed.

(** ** Honest transfers *)
Definition honest_data (F : bytes) (r : FileReceiver OTAFlashHandler) (payload : bytes) : Prop :=
  exists q, (0 <= q < total_chunks_ r \/ state_ r <> RECEIVING) /\
    payload = data_frame F (chunk_payload_size_ r) q.
#[local] Instance flash_laws : HandlerLaws OTAFlashHandler (Logged W) := ota_handler_laws md5.
#[local] Instance flash_writer : WriterLaws OTAFlashHandler (Logged W) md5 := ota_writer_laws md5.
Abbreviation honest_flash_step F := (flash_step (honest_control (digest := md5) F) (honest_data F)).

Lemma honest_flash_sound F s s' :
  honest_flash_step F s s' -> rtc (honest_step (digest := md5) F) s s'.
Proof.
  intros []; try (by apply rtc_once; constructor).
  - eapply rtc_l; [apply hs_world|]. apply rtc_once, hs_control. done.
  - destruct H0 as (q & Hq & ->). eapply rtc_l; [apply hs_world|]. apply rtc_once. by apply (hs_data F q).
Qed.

(** The state of an honest transfer that waits for the end. *)
Record waiting (F : bytes) s h : Prop := {
  w_inv : inv s;
  w_active : active_handler_ s.1 = Some 0;
  w_heap : handler_heap s.1 !! 0 = Some h;
  w_ok : ota_ok h;
  w_receiving : hstate_ h = HRECEIVING;
  w_written : md5_digest_ h = F;
  w_size : hfile_size_ h = Z.of_nat (length F);
  w_md5 : expected_md5_ h = md5 F;
  w_opened : exists im, opened s.2.1 = Some im /\ im_handle im = ota_handle_ h /\ im_content im = F
}.

Lemma honest_waiting F m (w : W) s :
  bytes_ok F -> F !! 0%nat = Some kEspImageMagic -> Z.of_nat (length F) <= kExactFileLimit ->
  (forall handle data w, (esp_ota_write (W := W) handle data w).1 = true) -> 0 <= m < 65536 ->
  rtc (honest_flash_step F) (flash_start m w) s -> state_ s.1 = WAITING_END -> exists h, waiting F s h.
Proof.
  intros HF Hmagic Hlim Hwr Hm Hs Hst.
  destruct (flash_steps_inv _ _ _ _ (flash_start_inv m w Hm) Hs) as (p & h & b & Hheap & (Hok & Hin & _) & _).
  assert (rtc (honest_step (digest := md5) F) (flash_start m w) s) as Hh.
  { clear -Hs. induction Hs; [done|]. etrans; [by apply honest_flash_sound|done]. }
  assert (forall handle data (lw : Logged W), (esp_ota_write handle data lw).1 = true) as Hwr'.
  { intros handle data [log w0]. specialize (Hwr handle data w0). cbn. unfold record. cbn [snd].
    by destruct (esp_ota_write handle data w0). }
  destruct (honest_run F _ s HF (ota_accepts_file md5 F Hwr' Hmagic Hlim) Hlim
              (new_receiver_inv md5 m ([], w) Hm)) as [Hinv Hh']; [done|exact Hh|].
  unfold honest in Hh'. rewrite Hst in Hh'. destruct Hh' as ((q & hq & Ha & Hp & Hw) & Hsz & Hmd).
  destruct (waiting_handler md5 s Hinv Hst) as (q' & h' & Ha' & Hp' & Hok' & Hr' & Hsz' & Hmd').
  assert (q = 0) as -> by (rewrite Hheap in Hp; by apply lookup_singleton_Some in Hp as [? _]).
  assert (q' = 0) as -> by congruence. rewrite Hheap in Hp, Hp'. rewrite lookup_singleton_eq in Hp, Hp'.
  injection Hp as <-. injection Hp' as <-. cbn in Hw. exists h. constructor; try done; try congruence.
  - by rewrite Hheap, lookup_singleton_eq.
  - destruct (Hin Hr') as (im & Ho & Hh' & Hc & _). exists im. split_and!; try done. by rewrite Hc.
Qed.

(** C2: When the sender transmits the file [F] (an image with the magic byte, of at most
    268431360 bytes) and the flash accepts every write, then whatever the order, loss and
    repetition of frames, when the receiver waits for the end of the transfer the open
    update of its handler holds exactly [F]: the successful [esp_ota_write] calls under that
    handle, in their order, wrote [F] and nothing else. *)
Theorem honest_transfer_stores_file F m (w : W) s :
  bytes_ok F -> F !! 0%nat = Some kEspImageMagic -> Z.of_nat (length F) <= kExactFileLimit ->
  (forall handle data w, (esp_ota_write (W := W) handle data w).1 = true) -> 0 <= m < 65536 ->
  rtc (honest_flash_step F) (flash_start m w) s -> state_ s.1 = WAITING_END ->
  exists h im, active_handler_ s.1 = Some 0 /\ handler_heap s.1 !! 0 = Some h /\
    opened s.2.1 = Some im /\ im_handle im = ota_handle_ h /\ im_content im = F.
Proof.
  intros HF Hmagic Hlim Hwr Hm Hs Hst.
  destruct (honest_waiting F m w s HF Hmagic Hlim Hwr Hm Hs Hst) as (h & [_ Ha Hp _ _ _ _ _ (im & Ho)]).
  by exists h, im.
Qed.

(** ** The end of an honest transfer *)

(** [loop] called when the world is [w], and a sequence of such calls. *)
Definition tick (w : W) s : St := (loop (s.1, (s.2.1, w))).2.
Definition ticks (ws : list W) s : St := foldl (fun s w => tick w s) s ws.

(** How many of the loop calls at the times [ts] come at least a second after the one
    before them that did ([t] is the first such time). *)
Fixpoint rounds (t : Z) (ts : list Z) : nat :=
  match ts with
  | [] => 0
  | now :: ts => if kCompleteAckIntervalMs <=? u32 (now - t) then S (rounds now ts) else rounds t ts
  end.
Fixpoint last_round (t : Z) (ts : list Z) : Z :=
  match ts with
  | [] => t
  | now :: ts => last_round (if kCompleteAckIntervalMs <=? u32 (now - t) then now else t) ts
  end.

Lemma rounds_snoc t ts x :
  rounds t (ts ++ [x]) =
    (rounds t ts + if (kCompleteAckIntervalMs <=? u32 (x - last_round t ts))%Z then 1 else 0)%nat.
Proof.
  revert t. induction ts as [|y ts IH]; intros t; cbn; [by case_match|]. rewrite IH.
  destruct (kCompleteAckIntervalMs <=? u32 (y - t)); done.
Qed.

(** The acknowledgement COMPLETE/SUCCESS of the transfer. *)
Definition success_ack (r : FileReceiver OTAFlashHandler) : bytes :=
  to_bytes {| ack_type := packet_type_code PKT_FILE_TRANSFER; ack_result := ESPNOW_FILE_ACK_COMPLETE;
              ack_ref_tx_counter := announce_tx_counter_ r |}
    ++ [action_ r; ESPNOW_FILE_COMPLETE_SUCCESS].

Record completing (ack : bytes) (n t : Z) s : Prop := {
  c_phase : in_complete_phase_ s.1 = true;
  c_result : complete_result_ s.1 = ESPNOW_FILE_COMPLETE_SUCCESS;
  c_remaining : complete_ack_remaining_ s.1 = n;
  c_next : next_complete_ack_ms_ s.1 = t;
  c_send : send_ack_fn_set s.1 = true;
  c_restart : restart_pending_ s.1 = false;
  c_ack : to_bytes {| ack_type := packet_type_code PKT_FILE_TRANSFER; ack_result := ESPNOW_FILE_ACK_COMPLETE;
              ack_ref_tx_counter := announce_tx_counter_ s.1 |} ++
          [complete_action_ s.1; ESPNOW_FILE_COMPLETE_SUCCESS] = ack
}.

Lemma tick_early ack n t w s :
  completing ack n t s -> 0 < n -> u32 (millis w - t) < kCompleteAckIntervalMs ->
  tick w s = (s.1, (s.2.1, w)).
Proof.
  intros [C1 C2 C3 C4 C5 C6 C7] Hn Ht. unfold tick, loop, perform_restart_if_due_, loop_rest_, complete_phase_.
  unfold mbind, M_bind, this, gets, millis_, gets, mret, M_ret. cbn [fst snd]. rewrite C6. cbn [negb].
  cbn [fst snd]. rewrite C1. cbn [fst snd millis traced_env]. rewrite C4.
  rewrite (proj2 (Z.leb_gt _ _)) by done. cbn [fst snd]. rewrite C3.
  by rewrite (proj2 (Z.leb_gt _ _)) by done.
Qed.

(** After the last acknowledgement: idle, and a restart is due. *)
Record restarting (due : Z) s : Prop := {
  r_pending : restart_pending_ s.1 = true;
  r_due : restart_due_ms_ s.1 = due;
  r_idle : state_ s.1 = IDLE;
  r_phase : in_complete_phase_ s.1 = false
}.

Lemma tick_round ack n t w s :
  completing ack n t s -> kCompleteAckIntervalMs <= u32 (millis w - t) ->
  exists ok w', (tick w s).2 = (EvAck ack ok :: s.2.1, w') /\
    (2 <= n -> completing ack (n - 1) (millis w) (tick w s)) /\
    (n = 1 -> restarting (u32 (millis w' + kRestartDelayMs)) (tick w s)).
Proof.
  intros [C1 C2 C3 C4 C5 C6 C7] Ht.
  unfold tick, loop, perform_restart_if_due_, loop_rest_, complete_phase_, send_ack_complete_, send_ack_.
  unfold mbind, M_bind, this, gets, millis_, gets, mret, M_ret. cbn [fst snd]. rewrite C6. cbn [negb].
  cbn [fst snd]. rewrite C1. cbn [fst snd millis traced_env]. rewrite C4.
  rewrite (proj2 (Z.leb_le _ _)) by done. cbn [fst snd]. rewrite C5. cbn [negb].
  change (ESPNOW_FILE_ACK_COMPLETE =? ESPNOW_FILE_ACK_GAPS) with false. cbv iota. rewrite C2, C7.
  cbn [send_ack_fn traced_env]. unfold record. cbn [fst snd].
  destruct (send_ack_fn ack w) as [ok w']. exists ok, w'. unfold update, modify. cbn [fst snd].
  cbn [complete_ack_remaining_ upd]. rewrite C3.
  case_match eqn:E; zprop.
  - split; [done|]. split; [lia|]. intros _. by constructor.
  - split; [done|]. split; [|lia]. intros _. constructor; try done. cbn. by rewrite C3.
Qed.

Lemma ticks_app ws1 ws2 s : ticks (ws1 ++ ws2) s = ticks ws2 (ticks ws1 s).
Proof. apply foldl_app. Qed.

Lemma ticks_rounds ack n t ws s :
  completing ack n t s -> Z.of_nat (rounds t (millis <$> ws)) < n ->
  exists oks, length oks = rounds t (millis <$> ws) /\
    (ticks ws s).2.1 = (EvAck ack <$> oks) ++ s.2.1 /\
    completing ack (n - Z.of_nat (rounds t (millis <$> ws))) (last_round t (millis <$> ws)) (ticks ws s).
Proof.
  revert n t s. induction ws as [|w ws IH]; intros n t s Hc Hn; cbn [ticks foldl].
  - exists []. cbn. by rewrite Z.sub_0_r.
  - cbn [fmap list_fmap rounds last_round] in *. case_match eqn:E; zprop.
    + destruct (tick_round ack n t w s Hc E) as (ok & w' & Hlog & Hnext & _).
      destruct (IH (n - 1) (millis w) (tick w s)) as (oks & Hl & Ho & Hcc); [apply Hnext; lia|lia|].
      exists (oks ++ [ok]). rewrite length_app, Hl. cbn [length].
      change (foldl _ (tick w s) ws) with (ticks ws (tick w s)). rewrite Ho, Hlog, fmap_app, <-app_assoc.
      split_and!; [lia|done|].
      assert (n - Z.of_nat (S (rounds (millis w) (millis <$> ws))) =
              n - 1 - Z.of_nat (rounds (millis w) (millis <$> ws))) as -> by lia. exact Hcc.
    + rewrite (tick_early ack n t w s Hc ltac:(lia) E).
      apply (IH n t (s.1, (s.2.1, w))); [by destruct Hc; constructor|done].
Qed.

Lemma tick_waits due w s :
  restarting due s -> i32 (u32 (millis w - due)) < 0 -> tick w s = (s.1, (s.2.1, w)).
Proof.
  intros [R1 R2 R3 R4] Hw. unfold tick, loop, perform_restart_if_due_, loop_rest_.
  unfold mbind, M_bind, this, gets, millis_, gets, mret, M_ret. cbn [fst snd]. rewrite R1. cbn [negb].
  cbn [fst snd millis traced_env]. rewrite R2, (proj2 (Z.ltb_lt _ _)) by done. cbn [fst snd].
  by rewrite R4, R3.
Qed.

Lemma ticks_wait due ws s :
  restarting due s -> Forall (fun w => i32 (u32 (millis w - due)) < 0) ws ->
  restarting due (ticks ws s) /\ (ticks ws s).2.1 = s.2.1.
Proof.
  intros Hr Hws. revert s Hr. induction Hws as [|w ws Hw _ IH]; intros s Hr; [done|].
  cbn [ticks foldl]. rewrite (tick_waits due w s Hr Hw).
  apply (IH (s.1, (s.2.1, w))). by destruct Hr; constructor.
Qed.

Lemma tick_restarts due w s :
  restarting due s -> 0 <= i32 (u32 (millis w - due)) -> (tick w s).2.1 = EvRestart :: s.2.1.
Proof.
  intros [R1 R2 R3 R4] Hw. unfold tick, loop, perform_restart_if_due_, loop_rest_.
  unfold mbind, M_bind, this, gets, millis_, gets, mret, M_ret. cbn [fst snd]. rewrite R1. cbn [negb].
  cbn [fst snd millis traced_env]. rewrite R2, (proj2 (Z.ltb_ge _ _)) by done.
  unfold update, modify. cbn [fst snd in_complete_phase_ state_ upd]. by rewrite R4, R3.
Qed.

Lemma ticks_steps ctl dat ws s : rtc (flash_step ctl dat) s (ticks ws s).
Proof.
  revert s. induction ws as [|w ws IH]; intros s; [done|]. cbn [ticks foldl].
  etrans; [|apply (IH (tick w s))]. destruct s as [r [log w0]].
  eapply rtc_l; [apply fs_world|]. apply rtc_once. apply (fs_loop _ _ (r, (log, w))).
Qed.

(** END in the state of a finished honest transfer. *)
Definition end_frame : bytes := to_bytes {| fe_phase := ESPNOW_FILE_PHASE_END |}.
Definition receive_end s : St := (handle_file_transfer end_frame (s.1, (EvFrame end_frame :: s.2.1, s.2.2))).2.

Lemma flash_end_success h log (w0 : W) :
  ota_ok h -> hstate_ h = HRECEIVING ->
  u32 (Z.of_nat (length (md5_digest_ h))) = hfile_size_ h -> md5 (md5_digest_ h) = expected_md5_ h ->
  (forall handle w, (esp_ota_end (W := W) handle w).1 = true) ->
  (forall w, (esp_ota_set_boot_partition (W := W) w).1 = true) ->
  wp (ota_on_end md5) (fun result hw =>
    (result = ESPNOW_FILE_COMPLETE_SUCCESS /\ restart_requested_ hw.1 = true) /\
    hw.2.1 = EvBoot true :: EvEnd (ota_handle_ h) true :: log) (h, (log, w0)).
Proof.
  intros Hok Hr Hsz Hmd He Hb. unfold ota_on_end.
  rewrite <-(o_total h Hok Hr) in Hsz. pose proof (o_md5 h Hok Hr) as Ha.
  wp_flash; zprop; cbn [fst snd] in *; simplify_eq; try done.
  all: try (match goal with C : hstate_is _ _ = false |- _ => by rewrite Hr in C end).
  all: match goal with
    | C : bytes_eqb _ _ = false |- _ => unfold bytes_eqb in C; by rewrite bool_decide_eq_true_2 in C
    | C : esp_ota_end ?a ?w = (false, _) |- _ => specialize (He a w); by rewrite C in He
    | C : esp_ota_set_boot_partition ?w = (false, _) |- _ => specialize (Hb w); by rewrite C in Hb
    | C : md5_active_ _ = false |- _ => change (md5_active_ h = false) in C; by rewrite Ha in C
    end.
Qed.

Lemma receive_end_completes F s h :
  waiting F s h -> Z.of_nat (length F) <= kExactFileLimit -> state_ s.1 = WAITING_END ->
  send_ack_fn_set s.1 = true -> restart_pending_ s.1 = false ->
  (forall handle w, (esp_ota_end (W := W) handle w).1 = true) ->
  (forall w, (esp_ota_set_boot_partition (W := W) w).1 = true) ->
  let s1 := receive_end s in
  completing (success_ack s.1) kCompleteAckRetries (millis s1.2.2) s1 /\
  s1.2.1 = EvBoot true :: EvEnd (ota_handle_ h) true :: EvFrame end_frame :: s.2.1.
Proof.
  intros [Hinv Ha Hp Hok Hr Hw Hsz Hmd _] Hlim Hst Hset Hrp Hend Hboot. cbv zeta. unfold receive_end.
  set (s0 := (s.1, (EvFrame end_frame :: s.2.1, s.2.2))).
  change (wp (handle_file_transfer end_frame) (fun _ s1 =>
    completing (success_ack s.1) kCompleteAckRetries (millis s1.2.2) s1 /\
    s1.2.1 = EvBoot true :: EvEnd (ota_handle_ h) true :: EvFrame end_frame :: s.2.1) s0).
  unfold handle_file_transfer. change end_frame with [ESPNOW_FILE_PHASE_END].
  apply wp_bind, wp_millis, wp_bind, wp_update. cbn [fst snd].
  change (wp (handle_end_ (of_bytes end_frame)) (fun _ s1 =>
    completing (success_ack s.1) kCompleteAckRetries (millis s1.2.2) s1 /\
    s1.2.1 = EvBoot true :: EvEnd (ota_handle_ h) true :: EvFrame end_frame :: s.2.1)
    (s.1 <| last_activity_ms_ := millis s0.2 |>, s0.2)).
  apply (wp_handle_end md5 _ _ 0 h); [done..|]. cbn [snd]. unfold s0 at 2. cbn [snd].
  eapply wp_mono; [apply flash_end_success; try done|].
  - rewrite Hw, Hsz. apply u32_small. unfold kExactFileLimit in Hlim. lia.
  - by rewrite Hw.
  - intros res hw [[Hres Hrs] Hlog]. cbv zeta. split.
    + intros _. split; [by constructor|]. done.
    + intros [|]; congruence.
Qed.

Lemma restart_times now w :
  (u32 (w - now) < kRestartDelayMs -> i32 (u32 (w - u32 (now + kRestartDelayMs))) < 0) /\
  (kRestartDelayMs <= u32 (w - now) < 2 ^ 31 -> 0 <= i32 (u32 (w - u32 (now + kRestartDelayMs)))).
Proof.
  assert (u32 (w - u32 (now + kRestartDelayMs)) = u32 (u32 (w - now) - kRestartDelayMs)) as ->.
  { unfold u32. rewrite Zminus_mod_idemp_r, Zminus_mod_idemp_l. f_equal. lia. }
  pose proof (u32_range (w - now)). generalize dependent (u32 (w - now)). intros x Hx.
  unfold kRestartDelayMs, i32, u32. split; intros Hlt.
  - replace ((x - 250) mod 2 ^ 32) with (x - 250 + 2 ^ 32)
      by (apply (Z.mod_unique _ _ (-1)); lia).
    replace ((x - 250 + 2 ^ 32 + 2 ^ 31) mod 2 ^ 32) with (x - 250 + 2 ^ 31)
      by (apply (Z.mod_unique _ _ 1); lia). lia.
  - rewrite (Z.mod_small (x - 250)) by lia. rewrite Z.mod_small by lia. lia.
Qed.

(** C28: An honest transfer ends in success. When the receiver waits for the end and the
    platform accepts the image, the END frame makes it end the update that holds [F] and
    switch the boot partition; then [loop], called however often, sends the acknowledgement
    COMPLETE/SUCCESS exactly five times, at the first calls that are a second or more apart,
    and the first call 250 ms after the fifth one restarts the device: nothing else
    reaches the platform in between. *)
Theorem honest_transfer_succeeds F m (w : W) s ws w5 quiet w6 :
  bytes_ok F -> F !! 0%nat = Some kEspImageMagic -> Z.of_nat (length F) <= kExactFileLimit ->
  (forall handle data w, (esp_ota_write (W := W) handle data w).1 = true) ->
  (forall handle w, (esp_ota_end (W := W) handle w).1 = true) ->
  (forall w, (esp_ota_set_boot_partition (W := W) w).1 = true) -> 0 <= m < 65536 ->
  rtc (honest_flash_step F) (flash_start m w) s -> state_ s.1 = WAITING_END ->
  send_ack_fn_set s.1 = true -> restart_pending_ s.1 = false ->
  let s1 := receive_end s in
  let s2 := ticks (ws ++ [w5]) s1 in
  rounds (millis s1.2.2) (millis <$> ws) = 4%nat ->
  rounds (millis s1.2.2) (millis <$> ws ++ [w5]) = 5%nat ->
  Forall (fun w => u32 (millis w - millis s2.2.2) < kRestartDelayMs) quiet ->
  kRestartDelayMs <= u32 (millis w6 - millis s2.2.2) < 2 ^ 31 ->
  exists im oks, opened s.2.1 = Some im /\ im_content im = F /\ length oks = 5%nat /\
    s2.2.1 = (EvAck (success_ack s.1) <$> oks) ++
             [EvBoot true; EvEnd (im_handle im) true; EvFrame end_frame] ++ s.2.1 /\
    (tick w6 (ticks quiet s2)).2.1 = EvRestart :: s2.2.1.
Proof.
  intros HF Hmagic Hlim Hwr Hend Hboot Hm Hs Hst Hset Hrp s1 s2 Hr4 Hr5 Hquiet Hw6.
  destruct (honest_waiting F m w s HF Hmagic Hlim Hwr Hm Hs Hst) as (h & Hwait).
  destruct (receive_end_completes F s h Hwait Hlim Hst Hset Hrp Hend Hboot) as [Hc Hl1]. fold s1 in Hc, Hl1.
  destruct (w_opened _ _ _ Hwait) as (im & Ho & Hh & Hcont).
  destruct (ticks_rounds _ _ _ ws s1 Hc) as (oks & Hn & Hl4 & Hc4).
  { rewrite Hr4. unfold kCompleteAckRetries. lia. }
  rewrite fmap_app in Hr5. cbn [fmap list_fmap] in Hr5. rewrite rounds_snoc, Hr4 in Hr5.
  rewrite Hr4 in Hc4, Hn. case_match eqn:E5; [|lia]. apply Z.leb_le in E5.
  destruct (tick_round _ _ _ w5 _ Hc4 E5) as (ok & w' & Hl5 & _ & Hrest).
  specialize (Hrest eq_refl).
  assert (tick w5 (ticks ws s1) = s2) as E2 by (unfold s2; by rewrite ticks_app). rewrite E2 in Hl5, Hrest.
  assert (millis s2.2.2 = millis w') as Hnow by (by rewrite Hl5). rewrite Hnow in Hquiet, Hw6.
  destruct (ticks_wait _ quiet s2 Hrest) as [Hrest' Hlq].
  { eapply Forall_impl; [exact Hquiet|]. intros wq Hq. by apply restart_times. }
  exists im, (ok :: oks). split_and!; try done.
  - cbn [length]. by rewrite Hn.
  - rewrite Hl5. cbn [fst fmap list_fmap app]. by rewrite Hl4, Hl1, Hh.
  - rewrite <-Hlq. apply (tick_restarts _ _ _ Hrest'). by apply restart_times.
Qed.
End flash.

(** ** A simulated run *)
Section demo.
#[local] Instance sim_flash_platform : OtaPlatform Sim := sim_platform None.
#[local] Instance demo_flash_handler : ActionHandler OTAFlashHandler (Logged Sim) := ota_action_handler demo_md5.
Abbreviation DSt := (FileReceiver OTAFlashHandler * Logged Sim)%type.

(** A frame that arrives at [s]. *)
Definition arrives (handle : bytes -> M DSt bool) (payload : bytes) (s : DSt) : DSt :=
  (handle payload (s.1, (EvFrame payload :: s.2.1, s.2.2))).2.
Definition logged_ready : DSt := (set_ota_enabled true (set_send_ack_fn true (flash_start 1200 sim0)).2).2.
Definition logged_announced : DSt := arrives handle_file_transfer demo_announce logged_ready.
Definition logged_data (q : Z) (s : DSt) : DSt :=
  arrives handle_file_data (data_frame demo_file (chunk_payload_size_ s.1) q) s.
(** The chunks in the order 2, 0, 0, 1. *)
Definition logged_full : DSt := logged_data 1 (logged_data 0 (logged_data 0 (logged_data 2 logged_announced))).
Definition logged_written : DSt := arrives handle_file_transfer (demo_blast 0) logged_full.
Definition sim_at (t : Z) : Sim := sim0 <| sim_now := t |>.

Lemma logged_control payload s :
  forallb byteb payload = true ->
  (payload = demo_announce \/ payload !! 0%nat <> Some ESPNOW_FILE_PHASE_ANNOUNCE) ->
  flash_step demo_md5 (honest_control (digest := demo_md5) demo_file) (honest_data demo_file)
    s (arrives handle_file_transfer payload s).
Proof.
  intros Hb Hp. destruct s as [r [log w]]. apply fs_control; [by apply byteb_ok|].
  by apply demo_honest_control.
Qed.

Lemma logged_data_step q s :
  bool_decide (0 <= q < total_chunks_ s.1) = true ->
  flash_step demo_md5 (honest_control (digest := demo_md5) demo_file) (honest_data demo_file)
    s (logged_data q s).
Proof.
  intros Hq. apply bool_decide_eq_true in Hq. destruct s as [r [log w]]. apply fs_data.
  - apply data_frame_ok, byteb_ok. by vm_compute.
  - exists q. auto.
Qed.

Lemma logged_written_steps :
  rtc (flash_step demo_md5 (honest_control (digest := demo_md5) demo_file) (honest_data demo_file))
    (flash_start 1200 sim0) logged_written.
Proof.
  eapply rtc_l; [exact (fs_send_ack_fn demo_md5 _ _ true _)|].
  eapply rtc_l; [exact (fs_ota_enabled demo_md5 _ _ true _)|].
  eapply rtc_l; [apply (logged_control demo_announce); [by vm_compute|by left]|].
  eapply rtc_l; [apply (logged_data_step 2); by vm_compute|].
  do 2 (eapply rtc_l; [apply (logged_data_step 0); by vm_compute|]).
  eapply rtc_l; [apply (logged_data_step 1); by vm_compute|].
  apply rtc_once, (logged_control (demo_blast 0)); [by vm_compute|right; by vm_compute].
Qed.

(** Five loop calls a second apart, one too early, and one after the restart delay. *)
Definition demo_ws : list Sim := sim_at <$> [6000; 6500; 7000; 8000; 9000].
Definition demo_finished : DSt := ticks demo_md5 (demo_ws ++ [sim_at 10000]) (receive_end demo_md5 logged_written).

Lemma honest_transfer_stores_file_witness :
  exists h im, active_handler_ logged_written.1 = Some 0 /\ handler_heap logged_written.1 !! 0 = Some h /\
    opened logged_written.2.1 = Some im /\ im_handle im = ota_handle_ h /\ im_content im = demo_file.
Proof.
  apply (honest_transfer_stores_file demo_md5 demo_file 1200 sim0).
  - apply byteb_ok. by vm_compute.
  - done.
  - by vm_compute.
  - done.
  - lia.
  - apply logged_written_steps.
  - by vm_compute.
Defined.

(** The flash of the simulated device holds what the log says. *)
Example sim_flash_holds_file : sim_flash logged_written.2.2 = demo_file.
Proof. by vm_compute. Qed.

Lemma honest_transfer_succeeds_witness :
  exists im oks, opened logged_written.2.1 = Some im /\ im_content im = demo_file /\ length oks = 5%nat /\
    demo_finished.2.1 = (EvAck (success_ack logged_written.1) <$> oks) ++
      [EvBoot true; EvEnd (im_handle im) true; EvFrame end_frame] ++ logged_written.2.1 /\
    (tick demo_md5 (sim_at 10250) (ticks demo_md5 [sim_at 10100] demo_finished)).2.1 =
      EvRestart :: demo_finished.2.1.
Proof.
  refine (honest_transfer_succeeds demo_md5 demo_file 1200 sim0 logged_written demo_ws (sim_at 10000)
           [sim_at 10100] (sim_at 10250) _ _ _ _ _ _ _ _ _ _ _ _ _ _ _).
  - apply byteb_ok. by vm_compute.
  - done.
  - by vm_compute.
  - done.
  - done.
  - done.
  - lia.
  - apply logged_written_steps.
  - by vm_compute.
  - by vm_compute.
  - by vm_compute.
  - by vm_compute.
  - by vm_compute.
  - constructor; [by vm_compute|constructor].
  - by vm_compute.
Defined.

Definition demo_restarted : DSt := ticks demo_md5 [sim_at 10250] demo_finished.

Lemma arrives_step payload s :
  forallb byteb payload = true ->
  flash_step demo_md5 (fun _ => True) (fun _ _ => True) s (arrives handle_file_transfer payload s).
Proof. intros Hb. destruct s as [r [log w]]. apply fs_control; [by apply byteb_ok|done]. Qed.

Lemma demo_restarted_steps :
  rtc (flash_step demo_md5 (fun _ => True) (fun _ _ => True)) (flash_start 1200 sim0) demo_restarted.
Proof.
  assert (forall s, flash_step demo_md5 (fun _ => True) (fun _ _ => True) s (receive_end demo_md5 s)) as Hend
    by (intros s; apply (arrives_step end_frame); by vm_compute).
  unfold demo_restarted, demo_finished. etrans; [|apply ticks_steps]. etrans; [|apply ticks_steps].
  eapply (rtc_r _ logged_written); [|apply Hend].
  exact (flash_steps_any _ _ _ _ _ logged_written_steps).
Qed.

Lemma boot_only_verified_witness :
  head demo_restarted.2.1 = Some EvRestart /\
  (forall l1 ok l2, demo_restarted.2.1 = l1 ++ EvBoot ok :: l2 ->
     exists handle l3 im, l2 = EvEnd handle true :: l3 /\ opened l3 = Some im /\
       im_handle im = handle /\ announces demo_md5 im) /\
  (forall l1 l2, demo_restarted.2.1 = l1 ++ EvRestart :: l2 -> EvBoot true ∈ l2).
Proof.
  split; [by vm_compute|].
  refine (boot_only_verified demo_md5 1200 sim0 demo_restarted _ _); [lia|apply demo_restarted_steps].
Defined.
End demo.
