(* ===== verification/OtaManager.v ===== *)
(** * OtaManager: the bridge's side of a file transfer

    Models [class ESPNowOTAManager] of
    [src/device_code/components/esp_tree_bridge/bridge_ota_manager.h/.cpp].
    The frame sender, the clock and the reachability test are the interface
    [OtaTransport].  [std::set] is a [gset], the queue of source chunks a list;
    the mutex is not modelled (one call runs at a time). *)
From stdpp Require Import pretty sorting.
From S2P Require Import Prelude Wire.

(** The error codes the manager distinguishes. *)
Inductive esp_err_t :=
  | ESP_OK | ESP_ERR_ESPNOW_NO_MEM | ESP_ERR_NOT_FOUND | ESP_FAIL | ESP_ERR_INVALID_ARG.
#[export] Instance esp_err_eq_dec : EqDecision esp_err_t.
Proof. solve_decision. Defined.
Definition err_is (a b : esp_err_t) : bool := bool_decide (a = b).

Class OtaTransport (W : Type) := {
  transport_millis : W -> Z;
  send_frame_fn : bytes -> Z -> bytes -> W -> (esp_err_t * Z) * W;
  target_reachable_fn : bytes -> W -> bool
}.

Module ESPNowOTAManager.

Definition FILE_ID_LEN : nat := 12.

Definition reject_reason_to_string (reason : Z) : bytes := str
  (if reason =? ESPNOW_FILE_REJECT_BUSY then "busy"
   else if reason =? ESPNOW_FILE_REJECT_NO_SPACE then "no_space"
   else if reason =? ESPNOW_FILE_REJECT_UNSUPPORTED then "unsupported_action"
   else if reason =? ESPNOW_FILE_REJECT_ALREADY then "already_receiving"
   else if reason =? ESPNOW_FILE_REJECT_DEEP_SLEEP then "deep_sleep"
   else if reason =? ESPNOW_FILE_REJECT_CHIP_MISMATCH then "chip_mismatch"
   else "reject_unknown").

Definition complete_result_to_string (result : Z) : bytes := str
  (if result =? ESPNOW_FILE_COMPLETE_SUCCESS then "success"
   else if result =? ESPNOW_FILE_COMPLETE_MD5_MISMATCH then "md5_mismatch"
   else if result =? ESPNOW_FILE_COMPLETE_FLASH_ERROR then "flash_error"
   else if result =? ESPNOW_FILE_COMPLETE_WRITE_ERROR then "write_error"
   else if result =? ESPNOW_FILE_COMPLETE_ABORTED then "aborted"
   else "complete_unknown").

Record Config := {
  global_timeout_ms : Z;
  no_mem_backoff_ms : Z;
  max_no_mem_backoff_ms : Z;
  tx_cooldown_ms : Z
}.
Definition default_config : Config :=
  {| global_timeout_ms := 900000; no_mem_backoff_ms := 5; max_no_mem_backoff_ms := 250;
     tx_cooldown_ms := 2 |}.

Record IncrementTracker := {
  current_increment : Z;
  total_increments : Z;
  chunks_per_increment : Z;
  chunks_in_last_increment : Z;
  total_chunks : Z;
  buffer_size_kb : Z;
  retransmit_round : Z;
  blast_complete_retries : Z;
  blast_complete_sent_ms : Z;
  last_blast_complete_tx_counter : Z;
  blast_complete_tx_history : list Z;
  received_bitmap : bytes;
  gap_sequences : gset Z;
  requested_sequences : gset Z;
  sent_sequences : gset Z;
  last_remote_activity_ms : Z
}.
#[export] Instance eta_tracker : Eta IncrementTracker := fun t =>
  Build_IncrementTracker (current_increment t) (total_increments t) (chunks_per_increment t)
    (chunks_in_last_increment t) (total_chunks t) (buffer_size_kb t) (retransmit_round t)
    (blast_complete_retries t) (blast_complete_sent_ms t) (last_blast_complete_tx_counter t)
    (blast_complete_tx_history t) (received_bitmap t) (gap_sequences t) (requested_sequences t)
    (sent_sequences t) (last_remote_activity_ms t).

(** [IncrementTracker::reset], also the default member initialisers. *)
Definition tracker_reset : IncrementTracker :=
  {| current_increment := 0; total_increments := 0; chunks_per_increment := 0;
     chunks_in_last_increment := 0; total_chunks := 0;
     buffer_size_kb := ESPNOW_MAX_INCREMENT_KB; retransmit_round := 0;
     blast_complete_retries := 0; blast_complete_sent_ms := 0;
     last_blast_complete_tx_counter := 0; blast_complete_tx_history := [];
     received_bitmap := []; gap_sequences := ∅; requested_sequences := ∅;
     sent_sequences := ∅; last_remote_activity_ms := 0 |}.

Definition is_last_increment (t : IncrementTracker) : bool :=
  total_increments t <=? current_increment t + 1.
Definition chunks_in_this_increment (t : IncrementTracker) : Z :=
  if is_last_increment t then chunks_in_last_increment t else chunks_per_increment t.
Definition increment_start_seq (t : IncrementTracker) : Z :=
  u32 (current_increment t * chunks_per_increment t).
Definition increment_end_seq (t : IncrementTracker) : Z :=
  Z.min (u32 (increment_start_seq t + chunks_in_this_increment t)) (total_chunks t).

Inductive State :=
  | IDLE | ANNOUNCING | BLASTING | WAITING_GAPS | ENDING | ABORTING | COMPLETE | FAILED.
#[export] Instance State_eq_dec : EqDecision State.
Proof. solve_decision. Defined.
Definition state_is (a b : State) : bool := bool_decide (a = b).

Record Manager := {
  config_ : Config;
  send_frame_fn_set : bool;
  target_reachable_fn_set : bool;
  state_ : State;
  tracker_ : IncrementTracker;
  leaf_mac_ : bytes;
  md5_ : bytes;
  file_id_ : bytes;
  last_error_ : bytes;
  file_size_ : Z;
  transfer_started_ms_ : Z;
  last_activity_ms_ : Z;
  last_control_send_ms_ : Z;
  announce_tx_counter_ : Z;
  no_mem_backoff_until_ms_ : Z;
  last_chunk_send_ms_ : Z;
  requested_chunk_size_ : Z;
  negotiated_chunk_size_ : Z;
  max_encrypted_plaintext_ : Z;
  action_ : Z;
  control_attempt_count_ : Z;
  progress_pct_ : Z;
  consecutive_no_mem_errors_ : Z;
  public_busy_ : bool;
  public_progress_pct_ : Z;
  public_state_ : bytes;
  status_leaf_mac_ : bytes;
  pending_chunks_ : list (Z * bytes)
}.
#[export] Instance eta_manager : Eta Manager := fun m =>
  Build_Manager (config_ m) (send_frame_fn_set m) (target_reachable_fn_set m) (state_ m)
    (tracker_ m) (leaf_mac_ m) (md5_ m) (file_id_ m) (last_error_ m) (file_size_ m)
    (transfer_started_ms_ m) (last_activity_ms_ m) (last_control_send_ms_ m)
    (announce_tx_counter_ m) (no_mem_backoff_until_ms_ m) (last_chunk_send_ms_ m)
    (requested_chunk_size_ m) (negotiated_chunk_size_ m) (max_encrypted_plaintext_ m)
    (action_ m) (control_attempt_count_ m) (progress_pct_ m) (consecutive_no_mem_errors_ m)
    (public_busy_ m) (public_progress_pct_ m) (public_state_ m) (status_leaf_mac_ m)
    (pending_chunks_ m).

(** [ESPNowOTAManager(config)]. *)
Definition new_manager (config : Config) : Manager :=
  {| config_ := config; send_frame_fn_set := false; target_reachable_fn_set := false;
     state_ := IDLE; tracker_ := tracker_reset; leaf_mac_ := replicate 6 0;
     md5_ := replicate 16 0; file_id_ := []; last_error_ := []; file_size_ := 0;
     transfer_started_ms_ := 0; last_activity_ms_ := 0; last_control_send_ms_ := 0;
     announce_tx_counter_ := 0; no_mem_backoff_until_ms_ := 0; last_chunk_send_ms_ := 0;
     requested_chunk_size_ := 0; negotiated_chunk_size_ := 0; max_encrypted_plaintext_ := 0;
     action_ := 0; control_attempt_count_ := 0; progress_pct_ := 0;
     consecutive_no_mem_errors_ := 0; public_busy_ := false; public_progress_pct_ := 0;
     public_state_ := str "IDLE"; status_leaf_mac_ := replicate 6 0; pending_chunks_ := [] |}.

Definition is_busy (m : Manager) : bool := negb (state_is (state_ m) IDLE).

(** ** Pure helpers *)
Definition expected_chunk_len_ (m : Manager) (sequence : Z) : Z :=
  if (negotiated_chunk_size_ m =? 0) || (total_chunks (tracker_ m) <=? sequence) then 0
  else
    let offset := u64 (sequence * negotiated_chunk_size_ m) in
    if file_size_ m <=? offset then 0
    else Z.min (file_size_ m - offset) (negotiated_chunk_size_ m).

Definition clamp_chunk_size_ (remote_max_frame_payload : Z) : Z :=
  if remote_max_frame_payload <=? ESPNOW_FILE_DATA_HEADER_OVERHEAD then 0
  else u16 (remote_max_frame_payload - ESPNOW_FILE_DATA_HEADER_OVERHEAD).

Definition same_leaf_ (m : Manager) (leaf_mac : bytes) : bool := bytes_eqb (leaf_mac_ m) leaf_mac.

Definition escape_json_ (value : bytes) : bytes :=
  mjoin ((fun ch => if (ch =? 92) || (ch =? 34) then [92; ch] else [ch]) <$> value).

Definition hex_digit (d : Z) : Z := if d <? 10 then 48 + d else 55 + d.
Definition hex02 (b : Z) : bytes := [hex_digit (b / 16); hex_digit (b mod 16)].
Definition format_mac_ (mac : bytes) : bytes :=
  match hex02 <$> mac with
  | [] => []
  | h :: t => h ++ mjoin ((fun x => 58 :: x) <$> t)
  end.

(** [operator<<] of an unsigned integer. *)
Definition dec (n : Z) : bytes := str (pretty (Z.to_N n)).

Definition json_key (k : string) : bytes := [34] ++ str k ++ [34; 58].
Definition json_string (v : bytes) : bytes := [34] ++ v ++ [34].

Definition status_json (m : Manager) : bytes :=
  let t := tracker_ m in
  let comma := [44] in
  [123] ++ json_key "state" ++ json_string (public_state_ m) ++ comma
  ++ json_key "busy" ++ str (if public_busy_ m then "true" else "false") ++ comma
  ++ json_key "leaf_mac"
       ++ json_string (format_mac_ (if public_busy_ m then leaf_mac_ m else status_leaf_mac_ m)) ++ comma
  ++ json_key "file_size" ++ dec (file_size_ m) ++ comma
  ++ json_key "chunk_size" ++ dec (negotiated_chunk_size_ m) ++ comma
  ++ json_key "total_chunks" ++ dec (total_chunks t) ++ comma
  ++ json_key "current_increment" ++ dec (current_increment t) ++ comma
  ++ json_key "total_increments" ++ dec (total_increments t) ++ comma
  ++ json_key "retransmit_round" ++ dec (retransmit_round t) ++ comma
  ++ json_key "buffer_size_kb" ++ dec (buffer_size_kb t) ++ comma
  ++ json_key "progress_pct" ++ dec (public_progress_pct_ m) ++ comma
  ++ json_key "error" ++ json_string (escape_json_ (last_error_ m)) ++ comma
  ++ json_key "requested" ++ [91]
  ++ (match dec <$> merge_sort Z.le (elements (requested_sequences t)) with
      | [] => []
      | d :: ds => d ++ mjoin ((fun x => 44 :: x) <$> ds)
      end)
  ++ [93; 125].

(** [++consecutive_no_mem_errors_] and the exponential backoff it gives. *)
Definition backoff_ms (cfg : Config) (consecutive : Z) : Z :=
  let shift := Z.min (u8 (consecutive - 1)) 7 in
  let b := if 0 <? shift
           then u32 (Z.min (u64 (Z.shiftl (no_mem_backoff_ms cfg) shift)) (max_no_mem_backoff_ms cfg))
           else no_mem_backoff_ms cfg in
  Z.min b (max_no_mem_backoff_ms cfg).

Section manager.
Context {W : Type} `{!OtaTransport W}.
Abbreviation St := (Manager * W)%type.

Definition this : M St Manager := gets fst.
Definition update (f : Manager -> Manager) : M St unit := modify (fun s => (f s.1, s.2)).
Definition update_tracker (f : IncrementTracker -> IncrementTracker) : M St unit :=
  update (fun m => m <| tracker_ ::= f |>).
Definition millis_ : M St Z := gets (fun s => transport_millis s.2).
Definition send_frame (type : espnow_packet_type_t) (payload : bytes) : M St (esp_err_t * Z) :=
  fun s => let '(res, w') := send_frame_fn (leaf_mac_ s.1) (packet_type_code type) payload s.2 in
           (res, (s.1, w')).

(** ** Backoff *)
Definition mark_no_mem_backoff_ : M St unit :=
  update (fun m => m <| consecutive_no_mem_errors_ ::= fun n => u8 (n + 1) |>);;
  now ← millis_;
  update (fun m => m <| no_mem_backoff_until_ms_ :=
    u32 (now + backoff_ms (config_ m) (consecutive_no_mem_errors_ m)) |>).

Definition decay_no_mem_backoff_ : M St unit :=
  m ← this;
  if 0 <? consecutive_no_mem_errors_ m then
    update (fun m => m <| consecutive_no_mem_errors_ ::= fun n => n / 2 |>);;
    m ← this;
    when (consecutive_no_mem_errors_ m =? 0)
      (update (fun m => m <| no_mem_backoff_until_ms_ := 0 |>))
  else mret tt.

Definition clear_no_mem_backoff_ : M St unit :=
  update (fun m => m <| consecutive_no_mem_errors_ := 0 |> <| no_mem_backoff_until_ms_ := 0 |>).

(** ** Reset and failure *)
Definition reset_ : M St unit := update (fun m =>
  m <| state_ := IDLE |> <| tracker_ := tracker_reset |> <| pending_chunks_ := [] |>
    <| file_size_ := 0 |> <| transfer_started_ms_ := 0 |> <| last_activity_ms_ := 0 |>
    <| last_control_send_ms_ := 0 |> <| announce_tx_counter_ := 0 |>
    <| no_mem_backoff_until_ms_ := 0 |> <| last_chunk_send_ms_ := 0 |>
    <| requested_chunk_size_ := 0 |> <| negotiated_chunk_size_ := 0 |> <| action_ := 0 |>
    <| control_attempt_count_ := 0 |> <| progress_pct_ := 0 |>
    <| consecutive_no_mem_errors_ := 0 |> <| file_id_ := [] |>
    <| leaf_mac_ := replicate 6 0 |> <| md5_ := replicate 16 0 |>).

Definition send_abort_ (reason : Z) : M St bool :=
  m ← this;
  if negb (send_frame_fn_set m) then mret false
  else
    '(err, _) ← send_frame PKT_FILE_TRANSFER
      (to_bytes {| fab_phase := ESPNOW_FILE_PHASE_ABORT; fab_reason := reason |});
    if err_is err ESP_ERR_ESPNOW_NO_MEM then mark_no_mem_backoff_;; mret false
    else clear_no_mem_backoff_;; mret (err_is err ESP_OK).

Definition fail_transfer_ (abort_reason : Z) (message : bytes) (notify_remote : bool) : M St unit :=
  update (fun m => m <| last_error_ := message |> <| public_busy_ := false |>
                     <| public_state_ := str "FAIL" |>);;
  m ← this;
  (if notify_remote && negb (state_is (state_ m) ABORTING) then
     update (fun m => m <| state_ := ABORTING |>);;
     send_abort_ abort_reason;;
     mret tt
   else mret tt);;
  reset_.

(** ** Sending control frames *)
Definition send_announce_ : M St bool :=
  m ← this;
  if negb (state_is (state_ m) ANNOUNCING) then mret false
  else if ESPNOW_FILE_MAX_RETRIES <=? control_attempt_count_ m then
    fail_transfer_ ESPNOW_FILE_ABORT_TIMEOUT (str "announce retry limit exceeded") true;; mret false
  else
    '(err, tx_counter) ← send_frame PKT_FILE_TRANSFER (to_bytes
      {| fa_phase := ESPNOW_FILE_PHASE_ANNOUNCE; fa_file_size := file_size_ m; fa_md5 := md5_ m;
         fa_chunk_size := requested_chunk_size_ m; fa_action := action_ m;
         fa_file_id := pad_to FILE_ID_LEN (file_id_ m) |});
    if err_is err ESP_ERR_ESPNOW_NO_MEM then mark_no_mem_backoff_;; mret false
    else
      clear_no_mem_backoff_;;
      if negb (err_is err ESP_OK) then
        fail_transfer_ (if err_is err ESP_ERR_NOT_FOUND then ESPNOW_FILE_ABORT_SESSION_LOST
                        else ESPNOW_FILE_ABORT_SEND_FAILURE)
          (str (if err_is err ESP_ERR_NOT_FOUND then "target unreachable"
                else "failed to send announce")) false;;
        mret false
      else
        now ← millis_;
        update (fun m => m <| announce_tx_counter_ := tx_counter |>
                           <| last_control_send_ms_ := now |> <| last_activity_ms_ := now |>
                           <| control_attempt_count_ ::= fun n => u8 (n + 1) |>);;
        mret true.

(** [push_back] on the history, which keeps the last eight counters. *)
Definition push_history (history : list Z) (tx_counter : Z) : list Z :=
  let h := history ++ [tx_counter] in if (8 <? length h)%nat then drop 1 h else h.

Definition send_blast_complete_ : M St bool :=
  m ← this;
  '(err, tx_counter) ← send_frame PKT_FILE_TRANSFER (to_bytes
    {| fbc_phase := ESPNOW_FILE_PHASE_BLAST_COMPLETE;
       fbc_increment_index := current_increment (tracker_ m) |});
  if err_is err ESP_ERR_ESPNOW_NO_MEM then mark_no_mem_backoff_;; mret false
  else
    clear_no_mem_backoff_;;
    if negb (err_is err ESP_OK) then
      (if err_is err ESP_ERR_NOT_FOUND then
         fail_transfer_ ESPNOW_FILE_ABORT_SESSION_LOST
           (str "target unreachable during BLAST_COMPLETE") false
       else mret tt);;
      mret false
    else
      now ← millis_;
      update_tracker (fun t => t <| last_blast_complete_tx_counter := tx_counter |>
        <| blast_complete_tx_history ::= fun h => push_history h tx_counter |>
        <| blast_complete_sent_ms := now |>
        <| blast_complete_retries ::= fun n => u8 (n + 1) |>);;
      update (fun m => m <| last_activity_ms_ := now |>);;
      mret true.

Definition send_end_ : M St bool :=
  m ← this;
  if negb (state_is (state_ m) WAITING_GAPS) && negb (state_is (state_ m) ENDING) then mret false
  else if ESPNOW_FILE_MAX_RETRIES <=? control_attempt_count_ m then
    fail_transfer_ ESPNOW_FILE_ABORT_TIMEOUT (str "end retry limit exceeded") true;; mret false
  else
    '(err, _) ← send_frame PKT_FILE_TRANSFER (to_bytes {| fe_phase := ESPNOW_FILE_PHASE_END |});
    if err_is err ESP_ERR_ESPNOW_NO_MEM then
      mark_no_mem_backoff_;;
      fail_transfer_ ESPNOW_FILE_ABORT_SEND_FAILURE (str "end no mem") true;;
      mret false
    else
      clear_no_mem_backoff_;;
      if negb (err_is err ESP_OK) then
        fail_transfer_ (if err_is err ESP_ERR_NOT_FOUND then ESPNOW_FILE_ABORT_SESSION_LOST
                        else ESPNOW_FILE_ABORT_SEND_FAILURE)
          (str (if err_is err ESP_ERR_NOT_FOUND then "target unreachable" else "failed to send end"))
          (negb (err_is err ESP_ERR_NOT_FOUND));;
        mret false
      else
        now ← millis_;
        update (fun m => m <| state_ := ENDING |> <| last_control_send_ms_ := now |>
                           <| last_activity_ms_ := now |>
                           <| control_attempt_count_ ::= fun n => u8 (n + 1) |>);;
        mret true.

Definition send_chunk_ (sequence : Z) (data : bytes) : M St bool :=
  let payload := to_bytes {| fdh_sequence := sequence |} ++ data in
  m ← this;
  if max_encrypted_plaintext_ m <? Z.of_nat (length payload) then
    fail_transfer_ ESPNOW_FILE_ABORT_SEND_FAILURE (str "chunk payload exceeds encrypted limit") true;;
    mret false
  else
    '(err, _) ← send_frame PKT_FILE_DATA payload;
    if err_is err ESP_ERR_ESPNOW_NO_MEM then mark_no_mem_backoff_;; mret false
    else
      decay_no_mem_backoff_;;
      if negb (err_is err ESP_OK) then mret false
      else
        now ← millis_;
        update (fun m => m <| last_chunk_send_ms_ := now |> <| last_activity_ms_ := now |>);;
        m ← this;
        when (state_is (state_ m) BLASTING)
          (update_tracker (fun t => t <| last_remote_activity_ms := now |>));;
        mret true.

(** ** Blasting an increment *)

(** The sequence numbers [start .. end - 1]. *)
Definition seq_range (start stop : Z) : gset Z := list_to_set (zseq start (Z.to_nat (stop - start))).

Definition request_chunks (t : IncrementTracker) : IncrementTracker :=
  if retransmit_round t =? 0 then
    t <| requested_sequences := seq_range (increment_start_seq t) (increment_end_seq t) |>
      <| sent_sequences := ∅ |>
  else t <| requested_sequences := gap_sequences t |> <| sent_sequences := ∅ |>.

Definition request_increment_chunks_ : M St unit := update_tracker request_chunks.

(** The two guards shared by the pumps: backoff and cooldown. *)
Definition pump_blocked (m : Manager) (now : Z) : bool :=
  (now <? no_mem_backoff_until_ms_ m) ||
  ((0 <? tx_cooldown_ms (config_ m)) && (0 <? last_chunk_send_ms_ m) &&
   (u32 (now - last_chunk_send_ms_ m) <? tx_cooldown_ms (config_ m))).

Definition pump_blasting_ : M St unit :=
  m ← this;
  if negb (state_is (state_ m) BLASTING) then mret tt
  else
    now ← millis_;
    if pump_blocked m now then mret tt
    else
      when (bool_decide (requested_sequences (tracker_ m) = ∅) &&
            bool_decide (sent_sequences (tracker_ m) = ∅) &&
            bool_decide (pending_chunks_ m = []))
        (request_increment_chunks_;;
         update (fun m => m <| public_state_ := str "TRANSFERRING" |>)).

Definition blast_complete_or_stay_ : M St unit :=
  ok ← send_blast_complete_;
  when ok (update (fun m => m <| state_ := WAITING_GAPS |>)).

Definition pump_queued_chunks_ : M St unit :=
  m ← this;
  if negb (state_is (state_ m) BLASTING) then mret tt
  else
    now ← millis_;
    if pump_blocked m now then mret tt
    else match pending_chunks_ m with
    | [] =>
      when (bool_decide (requested_sequences (tracker_ m) = ∅) &&
            negb (bool_decide (sent_sequences (tracker_ m) = ∅))) blast_complete_or_stay_
    | (sequence, data) :: _ =>
      sent ← send_chunk_ sequence data;
      if negb sent then mret tt
      else
        update_tracker (fun t => t <| sent_sequences ::= fun s => {[sequence]} ∪ s |>);;
        update (fun m => m <| pending_chunks_ ::= drop 1 |>);;
        m ← this;
        when (bool_decide (pending_chunks_ m = []) &&
              bool_decide (requested_sequences (tracker_ m) = ∅)) blast_complete_or_stay_
    end.

(** ** Acknowledgements of the remote *)
Definition malformed (message : string) (notify : bool) : M St unit :=
  fail_transfer_ ESPNOW_FILE_ABORT_SEND_FAILURE (str message) notify.

(** The geometry the bridge derives from the negotiated parameters. *)
Definition set_geometry (file_size chunk remote_buffer_kb : Z) (t : IncrementTracker) : IncrementTracker :=
  let effective_kb := Z.min remote_buffer_kb ESPNOW_MAX_INCREMENT_KB in
  let increment_data_size := u32 (effective_kb * 1024) in
  let cpi0 := u16 (increment_data_size / chunk) in
  let cpi := if cpi0 =? 0 then 1 else cpi0 in
  let tc := u32 (file_size / chunk + (if file_size mod chunk =? 0 then 0 else 1)) in
  let ti0 := u16 (tc / cpi + (if tc mod cpi =? 0 then 0 else 1)) in
  let ti := if ti0 =? 0 then 1 else ti0 in
  let last0 := u16 (u32 (tc - u32 ((ti - 1) * cpi))) in
  let last := if last0 =? 0 then cpi else last0 in
  t <| buffer_size_kb := effective_kb |> <| chunks_per_increment := cpi |> <| total_chunks := tc |>
    <| total_increments := ti |> <| chunks_in_last_increment := last |>.

Definition handle_accept_ (trailing : bytes) : M St unit :=
  match trailing with
  | b0 :: b1 :: remote_buffer_kb :: action :: _ =>
    let negotiated_chunk_size := le_num [b0; b1] in
    m ← this;
    if negb (action =? action_ m) then malformed "accept ack action mismatch" true
    else if (negotiated_chunk_size =? 0) || (requested_chunk_size_ m <? negotiated_chunk_size) then
      malformed "invalid negotiated chunk size" true
    else if remote_buffer_kb =? 0 then malformed "remote buffer_size_kb is 0" true
    else
      now ← millis_;
      update (fun m => m <| negotiated_chunk_size_ := negotiated_chunk_size |>
        <| tracker_ ::= set_geometry (file_size_ m) negotiated_chunk_size remote_buffer_kb |>);;
      update_tracker (fun t => t <| current_increment := 0 |> <| retransmit_round := 0 |>
        <| blast_complete_retries := 0 |> <| blast_complete_tx_history := [] |>
        <| last_remote_activity_ms := now |>);;
      m ← this;
      if total_chunks (tracker_ m) =? 0 then malformed "invalid negotiated geometry" true
      else
        update (fun m => m <| control_attempt_count_ := 0 |> <| progress_pct_ := 0 |>
          <| public_progress_pct_ := 0 |> <| public_state_ := str "TRANSFERRING" |>
          <| state_ := BLASTING |>);;
        request_increment_chunks_
  | _ => malformed "malformed accept ack" true
  end.

Definition increment_progress (m : Manager) : Z :=
  let t := tracker_ m in
  let bytes_done := Z.min (file_size_ m)
    (u64 (u32 (current_increment t + 1) * chunks_per_increment t * negotiated_chunk_size_ m)) in
  let pct := u8 (Z.min 100 (u64 (bytes_done * 100) / file_size_ m)) in
  if 100 <=? pct then 99 else pct.

(** A bit of the received bitmap of a GAPS acknowledgement. *)
Definition bitmap_received (bitmap_len : Z) (bitmap : bytes) (i : Z) : bool :=
  let byte_idx := i / 8 in
  (byte_idx <? bitmap_len) &&
  match bitmap !! Z.to_nat byte_idx with
  | Some byte => negb (Z.land byte (u8 (Z.shiftl 1 (i mod 8))) =? 0)
  | None => false
  end.

Definition compute_gaps (t : IncrementTracker) (bitmap_len : Z) (bitmap : bytes) : gset Z :=
  list_to_set ((fun i => u32 (current_increment t * chunks_per_increment t + i)) <$>
    filter (fun i => bitmap_received bitmap_len bitmap i = false)
           (zseq 0 (Z.to_nat (chunks_in_this_increment t)))).

(** The tracker when the remote reports the increment complete, when its bitmap
    shows no gap, and when there are gaps to send again. *)
Definition advance_tracker (t : IncrementTracker) : IncrementTracker :=
  t <| blast_complete_retries := 0 |> <| blast_complete_tx_history := [] |>
    <| retransmit_round := 0 |> <| current_increment ::= fun c => u16 (c + 1) |>
    <| requested_sequences := ∅ |> <| sent_sequences := ∅ |> <| gap_sequences := ∅ |>.

Definition no_gap_tracker (t : IncrementTracker) : IncrementTracker :=
  t <| retransmit_round := 0 |> <| blast_complete_retries := 0 |>
    <| requested_sequences := ∅ |> <| sent_sequences := ∅ |> <| gap_sequences := ∅ |>
    <| current_increment ::= fun c => u16 (c + 1) |>.

Definition retransmit_tracker (t : IncrementTracker) : IncrementTracker :=
  t <| retransmit_round ::= fun n => u8 (n + 1) |> <| blast_complete_retries := 0 |>
    <| blast_complete_tx_history := [] |> <| requested_sequences := gap_sequences t |>
    <| sent_sequences := ∅ |>.

Definition note_progress (m : Manager) : Manager :=
  m <| progress_pct_ := increment_progress m |> <| public_progress_pct_ := increment_progress m |>.

Definition begin_end (m : Manager) : Manager :=
  m <| state_ := ENDING |> <| control_attempt_count_ := 0 |> <| public_state_ := str "VERIFYING" |>.

Definition handle_gaps_ack_ (trailing : bytes) : M St unit :=
  match trailing with
  | b0 :: b1 :: bitmap =>
    let bitmap_len := le_num [b0; b1] in
    if Z.of_nat (length trailing) <? 2 + bitmap_len then malformed "gaps ack trailing too short" true
    else if bitmap_len =? 0 then
      update note_progress;;
      m ← this;
      if is_last_increment (tracker_ m) then
        update begin_end;;
        send_end_;;
        mret tt
      else
        update (fun m => m <| tracker_ ::= advance_tracker |> <| state_ := BLASTING |>);;
        request_increment_chunks_
    else
      m ← this;
      if ESPNOW_MAX_RETRANSMIT_ROUNDS <=? retransmit_round (tracker_ m) then
        fail_transfer_ ESPNOW_FILE_ABORT_TIMEOUT (str "retransmit rounds exceeded") true
      else
        update_tracker (fun t => t <| gap_sequences := compute_gaps t bitmap_len bitmap |>);;
        m ← this;
        if bool_decide (gap_sequences (tracker_ m) = ∅) then
          update (fun m => m <| tracker_ ::= no_gap_tracker |> <| state_ := BLASTING |>);;
          request_increment_chunks_
        else
          update (fun m => m <| tracker_ ::= retransmit_tracker |> <| state_ := BLASTING |>)
  | _ => malformed "malformed gaps ack" true
  end.

Definition handle_complete_ (trailing : bytes) : M St unit :=
  match trailing with
  | action :: result :: _ =>
    m ← this;
    if negb (action =? action_ m) then malformed "complete ack action mismatch" false
    else if result =? ESPNOW_FILE_COMPLETE_SUCCESS then
      update (fun m => m <| progress_pct_ := 100 |> <| public_progress_pct_ := 100 |>
        <| public_busy_ := false |> <| public_state_ := str "SUCCESS" |> <| last_error_ := [] |>
        <| state_ := COMPLETE |>);;
      reset_
    else fail_transfer_ ESPNOW_FILE_ABORT_FLASH_ERROR (complete_result_to_string result) false
  | _ => malformed "malformed complete ack" false
  end.

Definition handle_reject_ (trailing : bytes) : M St unit :=
  match trailing with
  | _ :: reason :: _ =>
    fail_transfer_ ESPNOW_FILE_ABORT_SEND_FAILURE (reject_reason_to_string reason) false
  | _ => malformed "malformed reject ack" false
  end.

Definition handle_abort_ack_ (trailing : bytes) : M St unit :=
  let reason := match trailing with r :: _ => r | [] => ESPNOW_FILE_ABORT_TIMEOUT end in
  fail_transfer_ reason (str (abort_reason_to_string reason)) false.

(** ** Entry points *)
Definition start_transfer (leaf_mac : bytes) (file_size : Z) (md5 : bytes) (action : Z)
    (remote_max_frame_payload : Z) (file_id : option bytes) : M St bool :=
  if bool_decide (leaf_mac = []) || bool_decide (md5 = []) || (file_size =? 0) then mret false
  else
    m ← this;
    if is_busy m then update (fun m => m <| last_error_ := str "busy" |>);; mret false
    else if negb (send_frame_fn_set m) then
      update (fun m => m <| last_error_ := str "send_frame_fn not configured" |>);; mret false
    else if 1073741824 <? file_size then
      update (fun m => m <| last_error_ := str "file_size exceeds 1GB limit" |>);; mret false
    else
      let requested_chunk_size := clamp_chunk_size_ remote_max_frame_payload in
      if requested_chunk_size <? 64 then
        update (fun m => m <| last_error_ := str "remote chunk size below minimum" |>);; mret false
      else
        update (fun m => m <| max_encrypted_plaintext_ := espnow_max_plaintext remote_max_frame_payload |>);;
        reset_;;
        now ← millis_;
        update (fun m => m <| leaf_mac_ := leaf_mac |> <| status_leaf_mac_ := leaf_mac |>
          <| md5_ := md5 |> <| file_size_ := file_size |>
          <| requested_chunk_size_ := requested_chunk_size |>
          <| negotiated_chunk_size_ := requested_chunk_size |>
          <| action_ := action |>
          <| file_id_ := take FILE_ID_LEN (default (str "ota.bin") file_id) |>
          <| transfer_started_ms_ := now |> <| last_activity_ms_ := now |>
          <| public_busy_ := true |> <| public_progress_pct_ := 0 |>
          <| public_state_ := str "START_RECEIVED" |> <| last_error_ := [] |>
          <| state_ := ANNOUNCING |>);;
        sent ← send_announce_;
        m ← this;
        mret (negb (negb sent && state_is (state_ m) IDLE)).

Definition on_source_chunk (sequence : Z) (data : bytes) : M St bool :=
  m ← this;
  if negb (state_is (state_ m) BLASTING) then mret false
  else if negb (bool_decide (sequence ∈ requested_sequences (tracker_ m))) then mret false
  else
    let expected_len := expected_chunk_len_ m sequence in
    if (expected_len =? 0) || negb (Z.of_nat (length data) =? expected_len) then mret false
    else
      update (fun m => m <| pending_chunks_ ::= fun q => q ++ [(sequence, data)] |>);;
      update_tracker (fun t => t <| requested_sequences ::= fun s => s ∖ {[sequence]} |>);;
      mret true.

Definition on_source_abort (reason : Z) : M St unit :=
  m ← this;
  if negb (is_busy m) then mret tt
  else fail_transfer_ reason (str (abort_reason_to_string reason)) true.

Definition on_file_ack (leaf_mac : bytes) (ack : espnow_ack_t) (trailing : bytes) : M St bool :=
  m ← this;
  if negb (is_busy m) || bool_decide (leaf_mac = []) then mret false
  else if negb (ack_type ack =? packet_type_code PKT_FILE_TRANSFER) then mret false
  else if negb (same_leaf_ m leaf_mac) then mret false
  else
    now ← millis_;
    update (fun m => m <| last_activity_ms_ := now |>);;
    update_tracker (fun t => t <| last_remote_activity_ms := now |>);;
    if ack_result ack =? ESPNOW_FILE_ACK_ACCEPT then
      if state_is (state_ m) ANNOUNCING then
        if negb (ack_ref_tx_counter ack =? announce_tx_counter_ m) then mret false
        else handle_accept_ trailing;; mret true
      else mret true
    else if ack_result ack =? ESPNOW_FILE_ACK_REJECT then handle_reject_ trailing;; mret true
    else if ack_result ack =? ESPNOW_FILE_ACK_GAPS then
      if state_is (state_ m) WAITING_GAPS then
        if negb (bool_decide (ack_ref_tx_counter ack ∈ blast_complete_tx_history (tracker_ m)))
        then mret false
        else handle_gaps_ack_ trailing;; mret true
      else mret true
    else if ack_result ack =? ESPNOW_FILE_ACK_COMPLETE then handle_complete_ trailing;; mret true
    else if ack_result ack =? ESPNOW_FILE_ACK_ABORT then handle_abort_ack_ trailing;; mret true
    else mret false.

Definition target_reachable_ : M St bool :=
  gets (fun s => negb (target_reachable_fn_set s.1) || target_reachable_fn (leaf_mac_ s.1) s.2).

(** The silence test of [loop]. *)
Definition remote_silent (m : Manager) (now : Z) : bool :=
  (0 <? last_remote_activity_ms (tracker_ m)) &&
  (state_is (state_ m) BLASTING || state_is (state_ m) WAITING_GAPS) &&
  ((if state_is (state_ m) WAITING_GAPS then ESPNOW_WAITING_GAPS_TIMEOUT_MS
    else ESPNOW_RADIO_SILENCE_ABORT_MS) <? u32 (now - last_remote_activity_ms (tracker_ m))).

Definition control_due (m : Manager) (now : Z) : bool :=
  (control_attempt_count_ m =? 0) ||
  (ESPNOW_FILE_ANNOUNCE_TIMEOUT_MS <=? u32 (now - last_control_send_ms_ m)).

Definition loop : M St unit :=
  m ← this;
  if negb (is_busy m) then mret tt
  else
    now ← millis_;
    reachable ← target_reachable_;
    if negb reachable then
      fail_transfer_ ESPNOW_FILE_ABORT_SESSION_LOST (str "target unreachable") false
    else if (0 <? global_timeout_ms (config_ m)) &&
            (global_timeout_ms (config_ m) <? u32 (now - transfer_started_ms_ m)) then
      fail_transfer_ ESPNOW_FILE_ABORT_TIMEOUT (str "transfer global timeout") true
    else if now <? no_mem_backoff_until_ms_ m then mret tt
    else if remote_silent m now then
      fail_transfer_ ESPNOW_FILE_ABORT_TIMEOUT (str "radio silence from remote") true
    else match state_ m with
    | ANNOUNCING => if control_due m now then send_announce_;; mret tt else mret tt
    | BLASTING => pump_blasting_;; pump_queued_chunks_
    | WAITING_GAPS =>
      if (0 <? blast_complete_sent_ms (tracker_ m)) &&
         (ESPNOW_BLAST_COMPLETE_TIMEOUT_MS <=? u32 (now - blast_complete_sent_ms (tracker_ m))) then
        if ESPNOW_MAX_BLAST_COMPLETE_RETRIES <=? blast_complete_retries (tracker_ m) then
          fail_transfer_ ESPNOW_FILE_ABORT_TIMEOUT (str "BLAST_COMPLETE retry limit exceeded") true
        else send_blast_complete_;; mret tt
      else mret tt
    | ENDING => if control_due m now then send_end_;; mret tt else mret tt
    | _ => mret tt
    end.
End manager.
End ESPNowOTAManager.
