(* ===== verification/OtaManagerInv.v ===== *)
(** * OtaManagerInv: invariant and behaviour of the bridge's OTA manager

    The invariant of [ESPNowOTAManager], its preservation by every entry point
    and the step relation; timeouts, retry limits, backoff; and the two
    functions on which both ends of a transfer must agree: the geometry and the
    gap set. *)
From S2P Require Import Prelude Wire IncrementBuffer FileReceiver FileReceiverInv FileContent OtaManager.
Import ESPNowOTAManager.

Section primitives.
Context {W : Type} `{!OtaTransport W}.
Abbreviation St := (Manager * W)%type.

Lemma wp_mthis (Q : Manager -> St -> Prop) (s : St) : Q s.1 s -> wp this Q s.
Proof. done. Qed.
Lemma wp_mupdate f (Q : unit -> St -> Prop) (s : St) : Q tt (f s.1, s.2) -> wp (update f) Q s.
Proof. done. Qed.
Lemma wp_mupdate_tracker f (Q : unit -> St -> Prop) (s : St) :
  Q tt (s.1 <| tracker_ ::= f |>, s.2) -> wp (update_tracker f) Q s.
Proof. done. Qed.
Lemma wp_mmillis (Q : Z -> St -> Prop) (s : St) : Q (transport_millis s.2) s -> wp millis_ Q s.
Proof. done. Qed.
Lemma wp_send_frame type payload (Q : esp_err_t * Z -> St -> Prop) (s : St) :
  (forall err tx w', Q (err, tx) (s.1, w')) -> wp (send_frame type payload) Q s.
Proof.
  intros HQ. unfold wp, send_frame. destruct (send_frame_fn _ _ _ _) as [[err tx] w']. apply HQ.
Qed.
End primitives.

Ltac wp_mgr_step :=
  lazymatch goal with
  | |- wp this _ _ => apply wp_mthis
  | |- wp (update _) _ _ => apply wp_mupdate
  | |- wp (update_tracker _) _ _ => apply wp_mupdate_tracker
  | |- wp request_increment_chunks_ _ _ => apply wp_mupdate_tracker
  | |- wp millis_ _ _ => apply wp_mmillis
  | |- wp (send_frame _ _) _ _ => apply wp_send_frame; intros ? ? ?
  | |- wp clear_no_mem_backoff_ _ _ => apply wp_mupdate
  | |- wp mark_no_mem_backoff_ _ _ => unfold mark_no_mem_backoff_
  | |- wp decay_no_mem_backoff_ _ _ => unfold decay_no_mem_backoff_
  | |- wp target_reachable_ _ _ => apply wp_gets
  | |- wp (malformed _ _) _ _ => unfold malformed
  | _ => wp_step
  end.
(** Run the manager symbolically up to failures. *)
Ltac wp_mgr := repeat (wp_mgr_step; cbv beta; cbn [fst snd]).

Section manager.
Context {W : Type} `{!OtaTransport W}.
Abbreviation St := (Manager * W)%type.
Implicit Types (m : Manager) (t : IncrementTracker).

(** ** The invariant *)
Definition idle_ok m : Prop :=
  state_ m = IDLE /\ tracker_ m = tracker_reset /\ pending_chunks_ m = [] /\ public_busy_ m = false.

(** A queued chunk has the length the geometry gives it. *)
Definition chunk_ok m (c : Z * bytes) : Prop :=
  Z.of_nat (length c.2) = expected_chunk_len_ m c.1 /\ 0 < expected_chunk_len_ m c.1.

Record busy_ok m : Prop := {
  b_public : public_busy_ m = true;
  b_file : 0 < file_size_ m <= 1073741824;
  b_negotiated : 0 < negotiated_chunk_size_ m <= requested_chunk_size_ m;
  b_requested : 64 <= requested_chunk_size_ m < 65536;
  b_limit : 4 + requested_chunk_size_ m <= max_encrypted_plaintext_ m;
  b_attempts : 0 <= control_attempt_count_ m <= ESPNOW_FILE_MAX_RETRIES;
  b_round : 0 <= retransmit_round (tracker_ m) <= ESPNOW_MAX_RETRANSMIT_ROUNDS;
  b_retries : 0 <= blast_complete_retries (tracker_ m) <= ESPNOW_MAX_BLAST_COMPLETE_RETRIES;
  b_history : (length (blast_complete_tx_history (tracker_ m)) <= 8)%nat;
  b_progress : 0 <= progress_pct_ m <= 99 /\ public_progress_pct_ m = progress_pct_ m;
  b_pending : Forall (chunk_ok m) (pending_chunks_ m)
}.

Definition quiet m : Prop := pending_chunks_ m = [] /\ requested_sequences (tracker_ m) = ∅.

Definition mgr_ok m : Prop :=
  match state_ m with
  | IDLE => idle_ok m
  | ANNOUNCING => busy_ok m /\ quiet m /\ progress_pct_ m = 0
  | BLASTING => busy_ok m /\ blast_complete_retries (tracker_ m) = 0
  | WAITING_GAPS | ENDING => busy_ok m /\ quiet m
  | ABORTING | COMPLETE | FAILED => False
  end.
Definition minv (s : St) : Prop := mgr_ok s.1.

Lemma idle_mgr_ok m : idle_ok m -> mgr_ok m.
Proof. intros Hi. unfold mgr_ok. pose proof Hi as [-> _]. done. Qed.

(** Every failure leaves the manager idle with the message as its error. *)
Definition failed_with (message : bytes) (s : St) : Prop :=
  idle_ok s.1 /\ last_error_ s.1 = message /\ public_state_ s.1 = str "FAIL".

Lemma fail_transfer_spec reason message notify (s : St) :
  wp (fail_transfer_ reason message notify) (fun _ => failed_with message) s.
Proof. unfold fail_transfer_, send_abort_, reset_. wp_mgr; done. Qed.

Lemma wp_fail reason message notify (Q : unit -> St -> Prop) (s : St) :
  (forall s', failed_with message s' -> Q tt s') -> wp (fail_transfer_ reason message notify) Q s.
Proof. intros HQ. eapply wp_mono; [apply fail_transfer_spec|]. intros []. apply HQ. Qed.

Lemma failed_inv message (s : St) : failed_with message s -> minv s.
Proof. intros [? _]. by apply idle_mgr_ok. Qed.

(** What the invariant depends on. *)
Lemma busy_ok_frame m m' :
  public_busy_ m' = public_busy_ m -> file_size_ m' = file_size_ m ->
  negotiated_chunk_size_ m' = negotiated_chunk_size_ m ->
  requested_chunk_size_ m' = requested_chunk_size_ m ->
  max_encrypted_plaintext_ m' = max_encrypted_plaintext_ m ->
  0 <= control_attempt_count_ m' <= ESPNOW_FILE_MAX_RETRIES ->
  total_chunks (tracker_ m') = total_chunks (tracker_ m) ->
  0 <= retransmit_round (tracker_ m') <= ESPNOW_MAX_RETRANSMIT_ROUNDS ->
  0 <= blast_complete_retries (tracker_ m') <= ESPNOW_MAX_BLAST_COMPLETE_RETRIES ->
  (length (blast_complete_tx_history (tracker_ m')) <= 8)%nat ->
  0 <= progress_pct_ m' <= 99 -> public_progress_pct_ m' = progress_pct_ m' ->
  Forall (chunk_ok m) (pending_chunks_ m') ->
  busy_ok m -> busy_ok m'.
Proof.
  intros E1 E2 E3 E4 E5 H6 E7 H8 H9 H10 H11 E12 H13 []. constructor; rewrite ?E1, ?E2, ?E3, ?E4, ?E5; try done.
  eapply Forall_impl; [done|]. intros c. unfold chunk_ok, expected_chunk_len_.
  by rewrite E2, E3, E7.
Qed.
End manager.

(** Close a goal [busy_ok (...)] whose record differs from a good one in fields
    the invariant does not mention or whose new value is easy. *)
Ltac busy_solve :=
  match goal with
  | Hb : busy_ok ?m |- busy_ok _ =>
    apply (busy_ok_frame m); try reflexivity; try (exact Hb); cbn;
    try (apply Hb); try lia;
    try (unfold ESPNOW_FILE_MAX_RETRIES, ESPNOW_MAX_BLAST_COMPLETE_RETRIES,
           ESPNOW_MAX_RETRANSMIT_ROUNDS in *; lia)
  end.

Ltac wp_mgr ::= repeat (first
  [ lazymatch goal with |- wp (fail_transfer_ _ _ _) _ _ => apply wp_fail; intros ? ? end
  | wp_mgr_step ]; cbv beta; cbn [fst snd]).

Section preservation.
Context {W : Type} `{!OtaTransport W}.
Abbreviation St := (Manager * W)%type.
Implicit Types (m : Manager) (t : IncrementTracker).

Lemma u8_succ n k : 0 <= n < k -> k < 256 -> 0 <= u8 (n + 1) <= k.
Proof. intros Hn Hk. rewrite u8_small; lia. Qed.

Lemma state_is_true (a b : State) : state_is a b = true -> a = b.
Proof. apply bool_decide_eq_true. Qed.
Lemma state_is_false (a b : State) : state_is a b = false -> a <> b.
Proof. apply bool_decide_eq_false. Qed.

Lemma send_announce_inv (s : St) : minv s -> wp send_announce_ (fun _ => minv) s.
Proof.
  intros Hi. unfold send_announce_. wp_mgr; eauto using failed_inv.
  all: zprop; apply state_is_true in H; unfold minv, mgr_ok in *; cbn [fst] in *; cbn [state_ upd];
    rewrite H in *; destruct Hi as (Hb & Hq & Hp); split_and!; try done; busy_solve.
  pose proof (b_attempts _ Hb). apply u8_succ; unfold ESPNOW_FILE_MAX_RETRIES in *; lia.
Qed.

Lemma push_history_length h tx : (length h <= 8)%nat -> (length (push_history h tx) <= 8)%nat.
Proof.
  intros Hh. unfold push_history. case_match; zprop; rewrite ?length_drop, ?length_app in *; cbn in *; lia.
Qed.

(** The outcome of a BLAST_COMPLETE: sent, not sent, or the target is gone. *)
Definition blast_sent m (ok : bool) (s : St) : Prop :=
  if ok then state_ s.1 = state_ m /\ busy_ok s.1 /\ quiet s.1
  else idle_ok s.1 \/
       (state_ s.1 = state_ m /\ busy_ok s.1 /\ quiet s.1 /\
        blast_complete_retries (tracker_ s.1) = blast_complete_retries (tracker_ m)).

Lemma send_blast_complete_spec (s : St) :
  busy_ok s.1 -> quiet s.1 ->
  blast_complete_retries (tracker_ s.1) < ESPNOW_MAX_BLAST_COMPLETE_RETRIES ->
  wp send_blast_complete_ (blast_sent s.1) s.
Proof.
  intros Hb Hq Hr. unfold send_blast_complete_. wp_mgr.
  - right. split_and!; try apply Hq; [done| |done]. busy_solve.
  - left. by match goal with H : failed_with _ _ |- _ => apply H end.
  - right. split_and!; try apply Hq; [done| |done]. busy_solve.
  - split_and!; try apply Hq; [done|]. pose proof (b_retries _ Hb). busy_solve.
    + apply u8_succ; unfold ESPNOW_MAX_BLAST_COMPLETE_RETRIES in *; lia.
    + apply push_history_length, Hb.
Qed.

Lemma send_end_inv (s : St) :
  busy_ok s.1 -> quiet s.1 -> minv s -> wp send_end_ (fun _ => minv) s.
Proof.
  intros Hb Hq Hi. unfold send_end_. wp_mgr; eauto using failed_inv.
  unfold minv, mgr_ok. cbn. split; [|exact Hq]. zprop. pose proof (b_attempts _ Hb). busy_solve.
  apply u8_succ; unfold ESPNOW_FILE_MAX_RETRIES in *; lia.
Qed.

(** Sending a chunk keeps everything but times and the backoff. *)
Definition chunk_sent m (ok : bool) (s : St) : Prop :=
  (ok = false /\ idle_ok s.1) \/
  (state_ s.1 = state_ m /\ pending_chunks_ s.1 = pending_chunks_ m /\ busy_ok s.1 /\
   requested_sequences (tracker_ s.1) = requested_sequences (tracker_ m) /\
   blast_complete_retries (tracker_ s.1) = blast_complete_retries (tracker_ m)).

Lemma send_chunk_spec q data (s : St) :
  busy_ok s.1 -> wp (send_chunk_ q data) (chunk_sent s.1) s.
Proof.
  intros Hb. unfold send_chunk_. wp_mgr;
    try (left; split; [done|]; by match goal with H : failed_with _ _ |- _ => apply H end);
    right; split_and!; try done; busy_solve.
Qed.

Lemma blast_complete_or_stay_inv (s : St) :
  state_ s.1 = BLASTING -> busy_ok s.1 -> quiet s.1 ->
  blast_complete_retries (tracker_ s.1) = 0 ->
  wp blast_complete_or_stay_ (fun _ => minv) s.
Proof.
  intros Hst Hb Hq Hr. unfold blast_complete_or_stay_. apply wp_bind.
  eapply wp_mono; [apply send_blast_complete_spec; [done|done|]|].
  { rewrite Hr. unfold ESPNOW_MAX_BLAST_COMPLETE_RETRIES. lia. }
  intros [|] s' Hs.
  - destruct Hs as (Hst' & Hb' & Hq'). wp_mgr; [|done].
    unfold minv, mgr_ok. cbn. split; [busy_solve|exact Hq'].
  - wp_mgr; [done|]. destruct Hs as [?|(Hst' & Hb' & Hq' & Hr')]; [by apply idle_mgr_ok|].
    unfold minv, mgr_ok. rewrite Hst', Hst. split; [done|congruence].
Qed.

Lemma blasting_inv (s : St) :
  state_ s.1 = BLASTING -> minv s -> busy_ok s.1 /\ blast_complete_retries (tracker_ s.1) = 0.
Proof. intros Hst Hi. unfold minv, mgr_ok in Hi. by rewrite Hst in Hi. Qed.

Lemma pump_queued_inv (s : St) : minv s -> wp pump_queued_chunks_ (fun _ => minv) s.
Proof.
  intros Hi. unfold pump_queued_chunks_. apply wp_bind, wp_mthis, wp_if; intros Hst; [by apply wp_ret|].
  zprop. apply state_is_true in Hst. destruct (blasting_inv s Hst Hi) as [Hb Hr].
  apply wp_bind, wp_mmillis, wp_if; intros _; [by apply wp_ret|].
  destruct (pending_chunks_ s.1) as [|[q data] rest] eqn:Hp.
  - apply wp_when; intros Hc; [|done]. zprop. rewrite bool_decide_eq_true in *.
    by apply blast_complete_or_stay_inv.
  - apply wp_bind. eapply wp_mono; [by apply send_chunk_spec|].
    intros ok s' Hs. wp_mgr.
    + destruct Hs as [[_ ?]|(Hst' & Hp' & Hb' & _ & Hr')]; [by apply idle_mgr_ok|].
      unfold minv, mgr_ok. rewrite Hst', Hst. split; [done|congruence].
    + destruct Hs as [[? _]|(Hst' & Hp' & Hb' & Hq' & Hr')]; [by subst|].
      zprop. rewrite !bool_decide_eq_true in *.
      apply blast_complete_or_stay_inv; [cbn; congruence| |done|cbn; congruence].
      busy_solve. apply Forall_drop, Hb'.
    + destruct Hs as [[? _]|(Hst' & Hp' & Hb' & Hq' & Hr')]; [by subst|].
      unfold minv, mgr_ok. cbn. rewrite Hst', Hst. split; [|congruence].
      busy_solve. apply Forall_drop, Hb'.
Qed.

Lemma request_chunks_keeps t :
  total_chunks (request_chunks t) = total_chunks t /\
  retransmit_round (request_chunks t) = retransmit_round t /\
  blast_complete_retries (request_chunks t) = blast_complete_retries t /\
  blast_complete_tx_history (request_chunks t) = blast_complete_tx_history t.
Proof. unfold request_chunks. by case_match. Qed.

Lemma busy_ok_request m : busy_ok m -> busy_ok (m <| tracker_ ::= request_chunks |>).
Proof.
  intros Hb. destruct (request_chunks_keeps (tracker_ m)) as (E1 & E2 & E3 & E4).
  apply (busy_ok_frame m); try reflexivity; try (exact Hb); try (apply Hb); cbn [tracker_ upd];
    rewrite ?E1, ?E2, ?E3, ?E4; apply Hb || done.
Qed.

Lemma pump_blasting_inv (s : St) : minv s -> wp pump_blasting_ (fun _ => minv) s.
Proof.
  intros Hi. unfold pump_blasting_. apply wp_bind, wp_mthis, wp_if; intros Hst; [by apply wp_ret|].
  zprop. apply state_is_true in Hst. destruct (blasting_inv s Hst Hi) as [Hb Hr].
  wp_mgr; try done. unfold minv, mgr_ok. cbn [fst state_ upd]. rewrite Hst.
  apply busy_ok_request in Hb. destruct (request_chunks_keeps (tracker_ s.1)) as (E1 & E2 & E3 & E4).
  split; [busy_solve|]. cbn. congruence.
Qed.

Lemma increment_progress_range m : 0 < file_size_ m -> 0 <= increment_progress m <= 99.
Proof.
  intros Hf. unfold increment_progress.
  set (x := u64 _ / file_size_ m).
  assert (0 <= x) by (apply Z.div_pos; [apply Z.mod_pos_bound; lia|lia]).
  rewrite u8_small by lia. zcase; lia.
Qed.

Lemma le_num_2 b0 b1 : byte_range b0 -> byte_range b1 -> 0 <= le_num [b0; b1] < 65536.
Proof. unfold byte_range. unfold le_num. lia. Qed.

Lemma set_geometry_keeps fs chunk kb t :
  retransmit_round (set_geometry fs chunk kb t) = retransmit_round t /\
  requested_sequences (set_geometry fs chunk kb t) = requested_sequences t.
Proof. done. Qed.

(** The tracker after an accepted announcement. *)
Definition accepted_tracker (fs chunk kb now : Z) (t : IncrementTracker) : IncrementTracker :=
  (set_geometry fs chunk kb t) <| current_increment := 0 |> <| retransmit_round := 0 |>
    <| blast_complete_retries := 0 |> <| blast_complete_tx_history := [] |>
    <| last_remote_activity_ms := now |>.

Lemma accepted_tracker_fields fs chunk kb now t :
  let t' := accepted_tracker fs chunk kb now t in
  retransmit_round t' = 0 /\ blast_complete_retries t' = 0 /\ blast_complete_tx_history t' = [] /\
  current_increment t' = 0.
Proof. done. Qed.

Lemma accepted_busy m chunk t :
  busy_ok m -> quiet m -> 0 < chunk <= requested_chunk_size_ m ->
  retransmit_round t = 0 -> blast_complete_retries t = 0 -> blast_complete_tx_history t = [] ->
  busy_ok (m <| negotiated_chunk_size_ := chunk |> <| tracker_ := t |> <| control_attempt_count_ := 0 |>
             <| progress_pct_ := 0 |> <| public_progress_pct_ := 0 |>
             <| public_state_ := str "TRANSFERRING" |> <| state_ := BLASTING |>).
Proof.
  intros [] [Hp _] Hc E1 E2 E3. constructor; cbn; rewrite ?E1, ?E2, ?E3, ?Hp; try done.
  all: cbn; lia || constructor.
Qed.

Lemma handle_accept_inv trailing (s : St) :
  bytes_ok trailing -> busy_ok s.1 -> quiet s.1 -> wp (handle_accept_ trailing) (fun _ => minv) s.
Proof.
  intros Ht Hb Hq. unfold handle_accept_.
  destruct trailing as [|b0 [|b1 [|kb [|action rest]]]]; try (wp_mgr; eauto using failed_inv; fail).
  apply Forall_cons in Ht as [Hb0 [Hb1 _]%Forall_cons].
  pose proof (le_num_2 b0 b1 Hb0 Hb1) as Hn.
  apply wp_bind, wp_mthis.
  do 3 (apply wp_if; intros ?; [wp_mgr; eauto using failed_inv|]). zprop.
  apply wp_bind, wp_mmillis, wp_bind, wp_mupdate, wp_bind, wp_mupdate_tracker. cbn [fst snd].
  destruct (accepted_tracker_fields (file_size_ s.1) (le_num [b0; b1]) kb (transport_millis s.2) (tracker_ s.1))
    as (E1 & E2 & E3 & _).
  match goal with |- wp _ _ (?m, _) => change m with (s.1 <| negotiated_chunk_size_ := le_num [b0; b1] |>
    <| tracker_ := accepted_tracker (file_size_ s.1) (le_num [b0; b1]) kb (transport_millis s.2) (tracker_ s.1) |>)
  end.
  generalize dependent (accepted_tracker (file_size_ s.1) (le_num [b0; b1]) kb (transport_millis s.2) (tracker_ s.1)).
  intros t E1 E2 E3. apply wp_bind, wp_mthis. cbn [fst snd].
  apply wp_if; intros ?; [wp_mgr; eauto using failed_inv|].
  apply wp_bind, wp_mupdate, wp_mupdate_tracker. cbn [fst snd].
  pose proof (accepted_busy s.1 (le_num [b0; b1]) t Hb Hq ltac:(lia) E1 E2 E3) as Hb'.
  destruct (request_chunks_keeps t) as (_ & _ & R3 & _).
  split; [exact (busy_ok_request _ Hb')|]. cbn. congruence.
Qed.

(** A tracker update that starts a new blast. *)
Lemma busy_ok_tracker m t :
  busy_ok m -> total_chunks t = total_chunks (tracker_ m) ->
  0 <= retransmit_round t <= ESPNOW_MAX_RETRANSMIT_ROUNDS -> blast_complete_retries t = 0 ->
  (length (blast_complete_tx_history t) <= 8)%nat ->
  busy_ok (m <| tracker_ := t |> <| state_ := BLASTING |>).
Proof.
  intros Hb E1 E2 E3 E4. apply (busy_ok_frame m); try done; try apply Hb.
  cbn. rewrite E3. unfold ESPNOW_MAX_BLAST_COMPLETE_RETRIES. lia.
Qed.

Lemma blast_again_inv m (w : W) t :
  busy_ok (m <| tracker_ := t |> <| state_ := BLASTING |>) -> blast_complete_retries t = 0 ->
  wp request_increment_chunks_ (fun _ => minv) (m <| tracker_ := t |> <| state_ := BLASTING |>, w).
Proof.
  intros Hb Hr. apply wp_mupdate_tracker. destruct (request_chunks_keeps t) as (_ & _ & R3 & _).
  split; [by apply (busy_ok_request (m <| tracker_ := t |> <| state_ := BLASTING |>))|]. cbn. congruence.
Qed.

Lemma note_progress_busy m : busy_ok m -> busy_ok (note_progress m).
Proof.
  intros Hb. pose proof (b_file _ Hb). pose proof (increment_progress_range m ltac:(lia)).
  apply (busy_ok_frame m); try done; try apply Hb.
Qed.

Lemma begin_end_busy m : busy_ok m -> busy_ok (begin_end m).
Proof. intros Hb. apply (busy_ok_frame m); try done; apply Hb. Qed.

Lemma advance_fields t :
  total_chunks (advance_tracker t) = total_chunks t /\ retransmit_round (advance_tracker t) = 0 /\
  blast_complete_retries (advance_tracker t) = 0 /\ blast_complete_tx_history (advance_tracker t) = [].
Proof. done. Qed.

Lemma no_gap_fields t :
  total_chunks (no_gap_tracker t) = total_chunks t /\ retransmit_round (no_gap_tracker t) = 0 /\
  blast_complete_retries (no_gap_tracker t) = 0 /\
  blast_complete_tx_history (no_gap_tracker t) = blast_complete_tx_history t.
Proof. done. Qed.

Lemma retransmit_fields t :
  total_chunks (retransmit_tracker t) = total_chunks t /\
  retransmit_round (retransmit_tracker t) = u8 (retransmit_round t + 1) /\
  blast_complete_retries (retransmit_tracker t) = 0 /\
  blast_complete_tx_history (retransmit_tracker t) = [].
Proof. done. Qed.

Lemma handle_gaps_inv trailing (s : St) :
  busy_ok s.1 -> quiet s.1 -> wp (handle_gaps_ack_ trailing) (fun _ => minv) s.
Proof.
  intros Hb Hq. unfold handle_gaps_ack_.
  destruct trailing as [|b0 [|b1 bitmap]]; try (wp_mgr; eauto using failed_inv; fail).
  pose proof (b_round _ Hb) as Hround. pose proof (b_history _ Hb) as Hhist.
  apply wp_if; intros _; [wp_mgr; eauto using failed_inv|]. apply wp_if; intros _.
  - apply wp_bind, wp_mupdate, wp_bind, wp_mthis. cbn [fst snd].
    apply note_progress_busy in Hb. assert (quiet (note_progress s.1)) as Hq' by exact Hq.
    generalize dependent (note_progress s.1). intros m1 Hb1 Hq1. apply wp_if; intros _.
    + apply wp_bind, wp_mupdate, wp_bind. cbn [fst snd]. apply begin_end_busy in Hb1.
      assert (quiet (begin_end m1) /\ state_ (begin_end m1) = ENDING) as [Hq2 Hs2] by (by split).
      generalize dependent (begin_end m1). intros m2 Hb2 Hq2 Hs2.
      eapply wp_mono; [apply send_end_inv; [done|done|]|intros; by apply wp_ret].
      unfold minv, mgr_ok. cbn [fst]. by rewrite Hs2.
    + apply wp_bind, wp_mupdate. cbn [fst snd].
      destruct (advance_fields (tracker_ m1)) as (A1 & A2 & A3 & A4).
      apply (blast_again_inv m1 _ (advance_tracker (tracker_ m1))); [|done].
      apply busy_ok_tracker; rewrite ?A2, ?A4; try done. cbn. lia.
  - apply wp_bind, wp_mthis, wp_if; intros ?; [wp_mgr; eauto using failed_inv|]. zprop.
    apply wp_bind, wp_mupdate_tracker, wp_bind, wp_mthis. cbn [fst snd].
    set (t1 := (tracker_ s.1) <| gap_sequences := compute_gaps (tracker_ s.1) (le_num [b0; b1]) bitmap |>).
    change (s.1 <| tracker_ ::= _ |>) with (s.1 <| tracker_ := t1 |>).
    assert (total_chunks t1 = total_chunks (tracker_ s.1) /\
      retransmit_round t1 = retransmit_round (tracker_ s.1) /\
      blast_complete_tx_history t1 = blast_complete_tx_history (tracker_ s.1)) as (T1 & T2 & T3) by done.
    clearbody t1. apply wp_if; intros _; apply wp_bind || idtac.
    + apply wp_mupdate. cbn [fst snd]. destruct (no_gap_fields t1) as (A1 & A2 & A3 & A4).
      apply (blast_again_inv s.1 _ (no_gap_tracker t1)); [|done].
      apply busy_ok_tracker; rewrite ?A1, ?A2, ?A4, ?T3; done.
    + apply wp_mupdate. cbn [fst snd]. destruct (retransmit_fields t1) as (A1 & A2 & A3 & A4).
      split; [|done]. apply (busy_ok_tracker s.1 (retransmit_tracker t1)); rewrite ?A1, ?A2, ?A4; try done.
      * apply u8_succ; [rewrite T2; lia|done].
      * cbn. lia.
Qed.

Lemma handle_complete_inv trailing (s : St) : wp (handle_complete_ trailing) (fun _ => minv) s.
Proof.
  unfold handle_complete_, reset_. wp_mgr; eauto using failed_inv; by apply idle_mgr_ok.
Qed.
Lemma handle_reject_inv trailing (s : St) : wp (handle_reject_ trailing) (fun _ => minv) s.
Proof. unfold handle_reject_. wp_mgr; eauto using failed_inv. Qed.
Lemma handle_abort_ack_inv trailing (s : St) : wp (handle_abort_ack_ trailing) (fun _ => minv) s.
Proof. unfold handle_abort_ack_. wp_mgr; eauto using failed_inv. Qed.

(** Noting that the remote was heard. *)
Definition heard (now : Z) m : Manager :=
  m <| last_activity_ms_ := now |> <| tracker_ ::= fun t => t <| last_remote_activity_ms := now |> |>.

Lemma heard_ok now m :
  mgr_ok m -> state_ m <> IDLE -> mgr_ok (heard now m) /\ state_ (heard now m) = state_ m.
Proof.
  intros Hm Hn. split; [|done]. unfold mgr_ok in *. cbn [heard state_ upd].
  destruct (state_ m); try done.
  all: destruct Hm as [Hb Hm]; split; [|exact Hm]; apply (busy_ok_frame m); try done; apply Hb.
Qed.

Lemma on_file_ack_inv leaf_mac ack trailing (s : St) :
  bytes_ok trailing -> minv s -> wp (on_file_ack leaf_mac ack trailing) (fun _ => minv) s.
Proof.
  intros Ht Hi. unfold on_file_ack. apply wp_bind, wp_mthis. apply wp_if; intros Hc; [by apply wp_ret|].
  do 2 (apply wp_if; intros ?; [by apply wp_ret|]). zprop. unfold is_busy in *. zprop.
  apply wp_bind, wp_mmillis, wp_bind, wp_mupdate, wp_bind, wp_mupdate_tracker. cbn [fst snd].
  destruct (heard_ok (transport_millis s.2) s.1) as [Hi' Hs']; [done|by apply state_is_false|].
  change (s.1 <| last_activity_ms_ := _ |> <| tracker_ ::= _ |>) with (heard (transport_millis s.2) s.1).
  rewrite <-Hs'.
  generalize dependent (heard (transport_millis s.2) s.1). intros m' Hi' Hs'.
  assert (forall (k : M St unit), wp k (fun _ => minv) (m', s.2) ->
            wp (k;; mret true) (fun _ => minv) (m', s.2)) as Hseq.
  { intros k Hk. apply wp_bind. eapply wp_mono; [exact Hk|]. intros. by apply wp_ret. }
  repeat (apply wp_if; intros ?);
    lazymatch goal with |- wp (mret _) _ _ => exact Hi' | _ => apply Hseq end;
    auto using handle_complete_inv, handle_reject_inv, handle_abort_ack_inv;
    zprop; match goal with H : state_is _ _ = true |- _ => apply state_is_true in H; rename H into Hst end;
    unfold mgr_ok in Hi'; rewrite Hst in Hi'.
  - apply handle_accept_inv; [done|apply Hi'|apply Hi'].
  - apply handle_gaps_inv; apply Hi'.
Qed.

Lemma on_source_chunk_inv q data (s : St) : minv s -> wp (on_source_chunk q data) (fun _ => minv) s.
Proof.
  intros Hi. unfold on_source_chunk. apply wp_bind, wp_mthis, wp_if; intros Hst; [by apply wp_ret|].
  zprop. apply state_is_true in Hst. destruct (blasting_inv s Hst Hi) as [Hb Hr].
  do 2 (apply wp_if; intros ?; [by apply wp_ret|]). zprop. wp_mgr.
  unfold minv, mgr_ok. cbn [fst state_ upd]. rewrite Hst. split; [|done].
  apply (busy_ok_frame s.1); try done; try apply Hb. cbn. apply Forall_app_2; [apply Hb|].
  constructor; [|constructor]. split; cbn; [done|].
  unfold expected_chunk_len_ in *. repeat case_match; try lia.
Qed.

Lemma on_source_abort_inv reason (s : St) : minv s -> wp (on_source_abort reason) (fun _ => minv) s.
Proof. intros Hi. unfold on_source_abort. wp_mgr; eauto using failed_inv. Qed.

(** The state in which [start_transfer] announces. *)
Lemma start_inv (leaf_mac md5 file_id : bytes) (file_size action max now : Z) m :
  0 < file_size <= 1073741824 -> 0 <= max < 65536 -> 64 <= clamp_chunk_size_ max ->
  tracker_ m = tracker_reset -> pending_chunks_ m = [] -> control_attempt_count_ m = 0 ->
  progress_pct_ m = 0 -> max_encrypted_plaintext_ m = espnow_max_plaintext max ->
  mgr_ok (m <| leaf_mac_ := leaf_mac |> <| status_leaf_mac_ := leaf_mac |> <| md5_ := md5 |>
    <| file_size_ := file_size |> <| requested_chunk_size_ := clamp_chunk_size_ max |>
    <| negotiated_chunk_size_ := clamp_chunk_size_ max |> <| action_ := action |>
    <| file_id_ := file_id |> <| transfer_started_ms_ := now |> <| last_activity_ms_ := now |>
    <| public_busy_ := true |> <| public_progress_pct_ := 0 |>
    <| public_state_ := str "START_RECEIVED" |> <| last_error_ := [] |> <| state_ := ANNOUNCING |>).
Proof.
  intros Hf Hmax Hc Ht Hp Ha Hpr He.
  assert (4 + clamp_chunk_size_ max <= espnow_max_plaintext max /\ clamp_chunk_size_ max < 65536) as [Hl Hu].
  { revert Hc. unfold clamp_chunk_size_, espnow_max_plaintext, ESPNOW_FILE_DATA_HEADER_OVERHEAD.
    unfold ESPNOW_HEADER_WITH_PSK_TAG_LEN, ESPNOW_SESSION_TAG_LEN. cbn. zcase; [lia|].
    rewrite !u16_small by lia. lia. }
  unfold mgr_ok. cbn [state_ upd]. split_and!.
  - constructor; cbn; rewrite ?Ht, ?Hp, ?Ha, ?Hpr, ?He; cbn; try done; try lia.
  - split; cbn; [done|]. by rewrite Ht.
  - done.
Qed.

Lemma start_transfer_inv leaf_mac file_size md5 action max file_id (s : St) :
  0 <= file_size -> 0 <= max < 65536 -> minv s ->
  wp (start_transfer leaf_mac file_size md5 action max file_id) (fun _ => minv) s.
Proof.
  intros Hf Hmax Hi. unfold start_transfer. apply wp_if; intros ?; [by apply wp_ret|].
  apply wp_bind, wp_mthis.
  assert (forall e, minv s -> minv (s.1 <| last_error_ := e |>, s.2)) as Herr.
  { intros e Hs. unfold minv, mgr_ok in *. cbn [fst state_ upd] in *. destruct (state_ s.1); try done;
      destruct Hs as [Hb Hs]; split; try done; apply (busy_ok_frame s.1); try done; apply Hb. }
  do 4 (apply wp_if; intros ?; [wp_mgr; by apply Herr|]). zprop.
  apply wp_bind, wp_mupdate, wp_bind, wp_mupdate, wp_bind, wp_mmillis, wp_bind, wp_mupdate, wp_bind.
  cbn [fst snd].
  eapply wp_mono; [apply send_announce_inv|].
  - unfold minv. cbn [fst]. apply start_inv; try done; lia.
  - intros ok s' Hs'. wp_mgr. done.
Qed.

Lemma loop_minv (s : St) : minv s -> wp loop (fun _ => minv) s.
Proof.
  intros Hi. unfold loop. apply wp_bind, wp_mthis, wp_if; intros Hbusy; [by apply wp_ret|].
  apply wp_bind, wp_mmillis, wp_bind, wp_gets.
  do 2 (apply wp_if; intros ?; [wp_mgr; eauto using failed_inv|]).
  apply wp_if; intros ?; [by apply wp_ret|]. apply wp_if; intros ?; [wp_mgr; eauto using failed_inv|].
  destruct (state_ s.1) eqn:Hst; try (by apply wp_ret).
  - apply wp_if; intros ?; [|by apply wp_ret]. apply wp_bind.
    eapply wp_mono; [by apply send_announce_inv|]. intros. by apply wp_ret.
  - apply wp_bind. eapply wp_mono; [by apply pump_blasting_inv|]. intros. by apply pump_queued_inv.
  - unfold minv, mgr_ok in Hi. rewrite Hst in Hi. destruct Hi as [Hb Hq].
    apply wp_if; intros ?; [|apply wp_ret; unfold minv, mgr_ok; by rewrite Hst].
    apply wp_if; intros ?; [wp_mgr; eauto using failed_inv|]. zprop. apply wp_bind.
    eapply wp_mono; [by apply send_blast_complete_spec|]. intros ok s' Hs. apply wp_ret.
    unfold minv, mgr_ok. destruct ok.
    + destruct Hs as (-> & ? & ?). by rewrite Hst.
    + destruct Hs as [?|(-> & ? & ? & _)]; [by apply idle_mgr_ok|by rewrite Hst].
  - apply wp_if; intros ?; [|by apply wp_ret]. apply wp_bind.
    eapply wp_mono; [apply send_end_inv|]; [| |done|intros; by apply wp_ret];
      unfold minv, mgr_ok in Hi; rewrite Hst in Hi; apply Hi.
Qed.

(** ** The manager as a state machine *)
Inductive mgr_step : St -> St -> Prop :=
  | mstep_start leaf_mac file_size md5 action max file_id s :
      0 <= file_size < 4294967296 -> 0 <= max < 65536 ->
      mgr_step s (start_transfer leaf_mac file_size md5 action max file_id s).2
  | mstep_chunk q data s : mgr_step s (on_source_chunk q data s).2
  | mstep_source_abort reason s : mgr_step s (on_source_abort reason s).2
  | mstep_ack leaf_mac ack trailing s :
      bytes_ok trailing -> mgr_step s (on_file_ack leaf_mac ack trailing s).2
  | mstep_loop s : mgr_step s (loop s).2
  | mstep_send_fn b s : mgr_step s (s.1 <| send_frame_fn_set := b |>, s.2)
  | mstep_reachable_fn b s : mgr_step s (s.1 <| target_reachable_fn_set := b |>, s.2)
  | mstep_world m w w' : mgr_step (m, w) (m, w').

Lemma mgr_step_inv (s s' : St) : minv s -> mgr_step s s' -> minv s'.
Proof.
  intros Hi Hstep. destruct Hstep as [leaf_mac fs md5 action max file_id s ? ?|q data s|reason s
    |leaf_mac ack trailing s ?|s|b s|b s|m w w'].
  - by apply (start_transfer_inv leaf_mac fs md5 action max file_id s); [lia|..].
  - by apply (on_source_chunk_inv q data s).
  - by apply (on_source_abort_inv reason s).
  - by apply (on_file_ack_inv leaf_mac ack trailing s).
  - by apply (loop_minv s).
  - unfold minv, mgr_ok in *. cbn [fst state_ upd] in *. destruct (state_ s.1); try done;
      destruct Hi as [Hb Hs]; split; try done; apply (busy_ok_frame s.1); try done; apply Hb.
  - unfold minv, mgr_ok in *. cbn [fst state_ upd] in *. destruct (state_ s.1); try done;
      destruct Hi as [Hb Hs]; split; try done; apply (busy_ok_frame s.1); try done; apply Hb.
  - done.
Qed.

Lemma new_manager_inv cfg (w : W) : minv (new_manager cfg, w).
Proof. done. Qed.

Lemma mgr_steps_inv (s s' : St) : minv s -> rtc mgr_step s s' -> minv s'.
Proof. induction 2; eauto using mgr_step_inv. Qed.

(** C29: In every state the manager reaches from construction its invariant holds: IDLE with
    an empty tracker and queue, or a transfer whose negotiated chunk fits the encrypted
    frame, with at most 3 control attempts, 10 retransmit rounds, 20 BLAST_COMPLETE retries
    and 8 remembered counters, progress at most 99, and every queued chunk of its exact
    length; the states ABORTING, COMPLETE and FAILED never persist. *)
Theorem manager_invariant cfg (w : W) (s : St) :
  rtc mgr_step (new_manager cfg, w) s -> mgr_ok s.1.
Proof. apply mgr_steps_inv, new_manager_inv. Qed.

(** Every source chunk that the manager has accepted fits an encrypted frame with its
    header, so no transfer fails because a chunk is too large. *)
Theorem queued_chunks_fit cfg (w : W) (s : St) q data :
  rtc mgr_step (new_manager cfg, w) s -> (q, data) ∈ pending_chunks_ s.1 ->
  Z.of_nat (length (to_bytes {| fdh_sequence := q |} ++ data)) <= max_encrypted_plaintext_ s.1.
Proof.
  intros Hs Hin. pose proof (mgr_steps_inv _ s (new_manager_inv cfg w) Hs) as Hi.
  assert (busy_ok s.1) as Hb.
  { unfold minv, mgr_ok, idle_ok in Hi. destruct (state_ s.1); try done; try apply Hi.
    destruct Hi as (_ & _ & Hp & _). rewrite Hp in Hin. by apply elem_of_nil in Hin. }
  pose proof (proj1 (Forall_forall _ _) (b_pending _ Hb) _ Hin) as [Hlen _]. cbn in Hlen.
  assert (expected_chunk_len_ s.1 q <= negotiated_chunk_size_ s.1).
  { pose proof (b_negotiated _ Hb). unfold expected_chunk_len_. repeat case_match; lia. }
  rewrite length_app. change (to_bytes {| fdh_sequence := q |}) with (le_bytes 4 q).
  rewrite length_le_bytes. destruct Hb. lia.
Qed.

(** A transfer that runs longer than the configured global timeout ends: the next [loop]
    fails it, and the manager is IDLE and reports the error. *)
Theorem global_timeout_fails (s : St) :
  is_busy s.1 = true ->
  negb (target_reachable_fn_set s.1) || target_reachable_fn (leaf_mac_ s.1) s.2 = true ->
  0 < global_timeout_ms (config_ s.1) < u32 (transport_millis s.2 - transfer_started_ms_ s.1) ->
  let s' := (loop s).2 in
  idle_ok s'.1 /\ last_error_ s'.1 = str "transfer global timeout" /\ public_state_ s'.1 = str "FAIL".
Proof.
  intros Hb Hr Ht.
  change (wp loop (fun _ => failed_with (str "transfer global timeout")) s).
  unfold loop. apply wp_bind, wp_mthis. rewrite Hb. cbn [negb].
  apply wp_bind, wp_mmillis, wp_bind, wp_gets. rewrite Hr. cbn [negb].
  apply wp_if; intros Hc; [by apply fail_transfer_spec|].
  exfalso. zprop. destruct Hc as [Hc|Hc]; zprop; lia.
Qed.
End preservation.

(** ** What both ends must agree on *)

(** The bridge and the receiver derive the same geometry from the file size, the
    negotiated chunk size and the announced buffer size. *)
Theorem geometry_agrees {H} (r : FileReceiver H) (t : IncrementTracker) :
  let r' := compute_increment_geometry_ r in
  let t' := set_geometry (FileReceiver.file_size_ r) (chunk_payload_size_ r) (buffer_size_kb_ r) t in
  chunks_per_increment t' = chunks_per_increment_ r' /\
  total_chunks t' = total_chunks_ r' /\
  total_increments t' = total_increments_ r' /\
  chunks_in_last_increment t' = chunks_in_last_increment_ r'.
Proof. done. Qed.

(** The trailing bytes of the receiver's GAPS acknowledgement. *)
Definition gaps_trailing (b : IncrementBuffer) : bytes :=
  let bitmap := IncrementBuffer.received_bitmap b in
  le_bytes 2 (u16 (Z.of_nat (length bitmap))) ++ bitmap.

Lemma bitmap_received_eq b i :
  buffer_ok b -> 0 <= i < chunks_expected b ->
  bitmap_received (Z.of_nat (length (IncrementBuffer.received_bitmap b)))
    (IncrementBuffer.received_bitmap b) i = is_chunk_received b i.
Proof.
  intros Hb Hi. destruct (bitmap_lookup_in_range b i Hb Hi) as (byte & E & _).
  unfold bitmap_received, is_chunk_received, bit_mask. rewrite E.
  apply lookup_lt_Some in E. assert (0 <= i / 8) by (apply Z.div_pos; lia).
  destruct (Z.ltb_spec (i / 8) (Z.of_nat (length (IncrementBuffer.received_bitmap b)))); [done|lia].
Qed.

Lemma elem_of_compute_gaps t len bitmap q :
  q ∈ compute_gaps t len bitmap <->
  exists i, 0 <= i < chunks_in_this_increment t /\ bitmap_received len bitmap i = false /\
            q = u32 (current_increment t * chunks_per_increment t + i).
Proof.
  unfold compute_gaps. rewrite elem_of_list_to_set, list_elem_of_fmap. split.
  - intros (i & -> & [Hr Hi%elem_of_zseq]%list_elem_of_filter). exists i. split_and!; try done; lia.
  - intros (i & Hi & Hr & ->). exists i. split; [done|]. apply list_elem_of_filter.
    split; [done|]. apply elem_of_zseq. lia.
Qed.

(** A GAPS acknowledgement carrying the receiver's bitmap makes the bridge blast again
    exactly the chunks the receiver is missing. *)
Theorem gaps_request_missing {W} `{!OtaTransport W} (s : Manager * W) (b : IncrementBuffer) :
  buffer_ok b -> 0 < chunks_expected b ->
  chunks_expected b = chunks_in_this_increment (tracker_ s.1) ->
  is_complete b = false ->
  0 <= retransmit_round (tracker_ s.1) < ESPNOW_MAX_RETRANSMIT_ROUNDS ->
  0 <= current_increment (tracker_ s.1) * chunks_per_increment (tracker_ s.1) ->
  current_increment (tracker_ s.1) * chunks_per_increment (tracker_ s.1) + chunks_expected b < 4294967296 ->
  let m' := (handle_gaps_ack_ (gaps_trailing b) s).2.1 in
  state_ m' = BLASTING /\
  forall q, q ∈ requested_sequences (tracker_ m') <->
    exists i, 0 <= i < chunks_expected b /\ is_chunk_received b i = false /\
      q = current_increment (tracker_ s.1) * chunks_per_increment (tracker_ s.1) + i.
Proof.
  intros Hb Hpos Hexp Hc Hround Hlo Hhi.
  pose proof (expected_range b Hb) as Hr. pose proof (bitmap_length b Hb) as Hlen.
  set (len := Z.of_nat (length (IncrementBuffer.received_bitmap b))).
  assert (1 <= len < 65536) as Hl.
  { unfold len. rewrite Hlen. pose proof (Z.div_le_lower_bound (chunks_expected b + 7) 8 1).
    pose proof (Z.div_lt_upper_bound (chunks_expected b + 7) 8 65536). lia. }
  set (gaps := compute_gaps (tracker_ s.1) len (IncrementBuffer.received_bitmap b)).
  assert (forall q, q ∈ gaps <-> exists i, 0 <= i < chunks_expected b /\ is_chunk_received b i = false /\
      q = current_increment (tracker_ s.1) * chunks_per_increment (tracker_ s.1) + i) as Hgaps.
  { intros q. unfold gaps. rewrite elem_of_compute_gaps, <-Hexp. unfold len. split.
    - intros (i & Hi & Hri & ->). exists i. rewrite bitmap_received_eq in Hri by done.
      rewrite u32_small by lia. done.
    - intros (i & Hi & Hri & ->). exists i. rewrite bitmap_received_eq by done.
      rewrite u32_small by lia. done. }
  assert (gaps <> ∅) as Hne.
  { intros Hemp. assert (is_complete b = true); [|congruence]. apply (is_complete_iff b Hb).
    intros i Hi. destruct (is_chunk_received b i) eqn:E; [done|]. exfalso.
    assert (current_increment (tracker_ s.1) * chunks_per_increment (tracker_ s.1) + i ∈ gaps) as Hin
      by (apply Hgaps; eauto). rewrite Hemp in Hin. by apply not_elem_of_empty in Hin. }
  change (wp (handle_gaps_ack_ (gaps_trailing b)) (fun _ s' => state_ s'.1 = BLASTING /\
    forall q, q ∈ requested_sequences (tracker_ s'.1) <->
    exists i, 0 <= i < chunks_expected b /\ is_chunk_received b i = false /\
      q = current_increment (tracker_ s.1) * chunks_per_increment (tracker_ s.1) + i) s).
  unfold handle_gaps_ack_, gaps_trailing. fold len. rewrite u16_small by lia.
  pose proof (le_num_le_bytes_small 2 len) as Hnum.
  destruct (le_bytes 2 len) as [|b0 [|b1 [|]]] eqn:E; pose proof (length_le_bytes 2 len) as Hl2;
    rewrite E in Hl2; try done. cbn [app]. rewrite Hnum by (cbn; lia).
  apply wp_if; intros C; zprop; [cbn in C; lia|clear C].
  apply wp_if; intros C; zprop; [lia|clear C].
  apply wp_bind, wp_mthis, wp_if; intros C; zprop; [lia|clear C].
  apply wp_bind, wp_mupdate_tracker, wp_bind, wp_mthis. cbn [fst snd].
  apply wp_if; intros C; zprop.
  { exfalso. rewrite bool_decide_eq_true in C. by apply Hne. }
  apply wp_mupdate. split; [done|]. exact Hgaps.
Qed.
