(* ===== verification/OtaTransfer.v ===== *)
(** * OtaTransfer: the bridge only sends what the receiver expects

    A bridge whose source provides the chunks of the file [F] sends, over any
    run, only frames that [FileContent.honest_step] allows: every FILE_DATA
    frame is the frame of a chunk of [F], and every announcement carries the
    size and the digest of [F].  Together with the theorems of [OtaReceive]
    this is the correctness of a whole transfer. *)
From S2P Require Import Prelude Wire IncrementBuffer FileReceiver FileReceiverInv FileContent OtaManager OtaManagerInv.
Import ESPNowOTAManager.

(** A transport whose sent frames can be observed. *)
Class ObservedTransport (W : Type) `{!OtaTransport W} := {
  sent : W -> list (Z * bytes);
  send_frame_sent mac type payload w :
    sent (send_frame_fn mac type payload w).2 = sent w ++ [(type, payload)]
}.

Section transfer.
Context {W : Type} `{!OtaTransport W} `{!ObservedTransport W}.
Context (F : bytes) (digest : bytes -> bytes).
Abbreviation St := (Manager * W)%type.
Implicit Types (m : Manager) (t : IncrementTracker) (w : W).

Definition FILE_DATA_CODE : Z := packet_type_code PKT_FILE_DATA.

(** A frame an honest sender of [F] may send. *)
Definition frame_honest (f : Z * bytes) : Prop :=
  if f.1 =? FILE_DATA_CODE
  then exists chunk q, 0 < chunk < 65536 /\ 0 <= q /\ q * chunk < Z.of_nat (length F) /\
         f.2 = data_frame F chunk q
  else honest_control (digest := digest) F f.2.

Definition log_honest w : Prop := Forall frame_honest (sent w).

(** ** Sending *)
Lemma wp_send_honest type payload (Q : esp_err_t * Z -> St -> Prop) (s : St) :
  log_honest s.2 -> frame_honest (packet_type_code type, payload) ->
  (forall err tx w', log_honest w' -> Q (err, tx) (s.1, w')) -> wp (send_frame type payload) Q s.
Proof.
  intros Hl Hf HQ. unfold wp, send_frame.
  pose proof (send_frame_sent (leaf_mac_ s.1) (packet_type_code type) payload s.2) as E.
  destruct (send_frame_fn _ _ _ _) as [[err tx] w']. apply HQ. unfold log_honest. cbn in E.
  rewrite E. apply Forall_app_2; [done|]. by constructor.
Qed.

Lemma control_honest phase rest :
  0 < phase < 256 -> bytes_ok rest ->
  frame_honest (packet_type_code PKT_FILE_TRANSFER, le_bytes 1 phase ++ rest).
Proof.
  intros Hp Hr. unfold frame_honest. cbn. split.
  - apply Forall_app_2; [apply le_bytes_ok|done].
  - intros H0. unfold le_bytes in H0. cbn in H0. rewrite Z.mod_small in H0 by lia.
    unfold ESPNOW_FILE_PHASE_ANNOUNCE in H0. injection H0. lia.
Qed.

Lemma abort_honest_frame reason :
  frame_honest (packet_type_code PKT_FILE_TRANSFER,
    to_bytes {| fab_phase := ESPNOW_FILE_PHASE_ABORT; fab_reason := reason |}).
Proof. apply control_honest; [done|apply le_bytes_ok]. Qed.

Lemma blast_honest_frame i :
  frame_honest (packet_type_code PKT_FILE_TRANSFER,
    to_bytes {| fbc_phase := ESPNOW_FILE_PHASE_BLAST_COMPLETE; fbc_increment_index := i |}).
Proof. apply control_honest; [done|apply le_bytes_ok]. Qed.

Lemma end_honest_frame :
  frame_honest (packet_type_code PKT_FILE_TRANSFER, to_bytes {| fe_phase := ESPNOW_FILE_PHASE_END |}).
Proof. apply (control_honest ESPNOW_FILE_PHASE_END []); [done|constructor]. Qed.

(** ** The invariant of an honest source *)
Record source_ok m : Prop := {
  s_size : file_size_ m = Z.of_nat (length F);
  s_md5 : md5_ m = digest F;
  s_action : 0 <= action_ m < 256;
  s_file_id : bytes_ok (file_id_ m);
  s_pending : Forall (fun c => 0 <= c.1 < 4294967296 /\ c.2 = file_chunk F (negotiated_chunk_size_ m) c.1)
                (pending_chunks_ m);
  s_requested : forall q, q ∈ requested_sequences (tracker_ m) -> 0 <= q < 4294967296;
  s_gaps : forall q, q ∈ gap_sequences (tracker_ m) -> 0 <= q < 4294967296
}.

Definition tinv (s : St) : Prop :=
  log_honest s.2 /\ (state_ s.1 <> IDLE -> source_ok s.1).

Lemma tinv_idle (s : St) : log_honest s.2 -> state_ s.1 = IDLE -> tinv s.
Proof. intros Hl Hs. by split. Qed.

Lemma wp_fail_honest reason message notify (Q : unit -> St -> Prop) (s : St) :
  log_honest s.2 -> (forall s', tinv s' -> Q tt s') -> wp (fail_transfer_ reason message notify) Q s.
Proof.
  intros Hl HQ. unfold fail_transfer_, send_abort_.
  apply wp_bind, wp_mupdate, wp_bind, wp_mthis. cbn [fst snd].
  assert (forall m' w', log_honest w' -> wp reset_ Q (m', w')) as Hreset
    by (intros m' w' Hl'; apply wp_mupdate, HQ; by apply tinv_idle).
  apply wp_bind. wp_mgr_step; [|by apply Hreset].
  apply wp_bind, wp_mupdate, wp_bind, wp_bind, wp_mthis. cbn [fst snd].
  apply wp_if; intros _; [apply wp_ret, wp_ret; by apply Hreset|].
  apply wp_bind, wp_send_honest; [done|apply abort_honest_frame|]. intros err tx w' Hl'. cbn [fst].
  apply wp_if; intros _; wp_mgr; by apply Hreset.
Qed.

Lemma source_ok_frame m m' :
  file_size_ m' = file_size_ m -> md5_ m' = md5_ m -> action_ m' = action_ m ->
  file_id_ m' = file_id_ m ->
  Forall (fun c => 0 <= c.1 < 4294967296 /\ c.2 = file_chunk F (negotiated_chunk_size_ m') c.1) (pending_chunks_ m') ->
  (forall q, q ∈ requested_sequences (tracker_ m') -> 0 <= q < 4294967296) ->
  (forall q, q ∈ gap_sequences (tracker_ m') -> 0 <= q < 4294967296) ->
  source_ok m -> source_ok m'.
Proof. intros E1 E2 E3 E4 H5 H6 H7 []. constructor; rewrite ?E1, ?E2, ?E3, ?E4; done. Qed.

(** Updates of times, counters and messages. *)
Lemma source_ok_same m m' :
  file_size_ m' = file_size_ m -> md5_ m' = md5_ m -> action_ m' = action_ m ->
  file_id_ m' = file_id_ m -> negotiated_chunk_size_ m' = negotiated_chunk_size_ m ->
  pending_chunks_ m' = pending_chunks_ m ->
  requested_sequences (tracker_ m') = requested_sequences (tracker_ m) ->
  gap_sequences (tracker_ m') = gap_sequences (tracker_ m) ->
  source_ok m -> source_ok m'.
Proof.
  intros E1 E2 E3 E4 E5 E6 E7 E8 Hs. apply (source_ok_frame m); try done; rewrite ?E5, ?E6, ?E7, ?E8;
    apply Hs.
Qed.

Lemma request_chunks_nonneg t :
  (forall q, q ∈ gap_sequences t -> 0 <= q < 4294967296) ->
  (forall q, q ∈ requested_sequences (request_chunks t) -> 0 <= q < 4294967296) /\
  gap_sequences (request_chunks t) = gap_sequences t.
Proof.
  intros Hg. unfold request_chunks. case_match; cbn; split; try done.
  intros q. unfold seq_range. rewrite elem_of_list_to_set, elem_of_zseq.
  assert (0 <= increment_start_seq t < 4294967296) by apply u32_range.
  assert (increment_end_seq t < 4294967296).
  { unfold increment_end_seq.
    pose proof (u32_range (increment_start_seq t + chunks_in_this_increment t)). lia. }
  lia.
Qed.

Context (digest_length : length (digest F) = 16%nat) (digest_bytes : bytes_ok (digest F)).

Lemma announce_honest_frame m chunk :
  source_ok m -> 0 <= file_size_ m < 4294967296 -> 0 <= chunk < 65536 ->
  frame_honest (packet_type_code PKT_FILE_TRANSFER, to_bytes
      {| fa_phase := ESPNOW_FILE_PHASE_ANNOUNCE; fa_file_size := file_size_ m; fa_md5 := md5_ m;
         fa_chunk_size := chunk; fa_action := action_ m;
         fa_file_id := pad_to FILE_ID_LEN (file_id_ m) |}).
Proof.
  intros [Hsz Hmd Hac Hid _ _ _] Hs Hc. unfold frame_honest. cbn [fst snd].
  set (a := {| fa_phase := _ |}).
  assert (struct_ok a) as Hok.
  { cbn. rewrite Hmd. split_and!; try done; try lia; [apply length_pad_to|by apply pad_to_ok]. }
  assert (of_bytes (to_bytes a) = a) as E by (rewrite <-(app_nil_r (to_bytes a)); by apply of_to_bytes).
  split; [|intros _; rewrite E; cbn; done].
  cbn. rewrite Hmd. repeat apply Forall_app_2; try apply le_bytes_ok; [done|by apply pad_to_ok].
Qed.

Lemma busy_minv (s : St) : minv s -> state_ s.1 <> IDLE -> busy_ok s.1.
Proof. unfold minv, mgr_ok. intros Hi Hn. destruct (state_ s.1); try done; apply Hi. Qed.

Lemma send_announce_honest (s : St) : minv s -> tinv s -> wp send_announce_ (fun _ => tinv) s.
Proof.
  intros Hi [Hl Hs]. unfold send_announce_. apply wp_bind, wp_mthis, wp_if; intros Hst; [by apply wp_ret|].
  zprop. apply state_is_true in Hst. specialize (Hs ltac:(congruence)).
  pose proof (busy_minv s Hi ltac:(congruence)) as Hb.
  apply wp_if; intros _; [apply wp_bind, wp_fail_honest; [done|]; intros; by apply wp_ret|].
  apply wp_bind, wp_send_honest; [done|apply announce_honest_frame; [done|destruct Hb; lia..]|].
  intros err tx w' Hl'. cbn [fst].
  assert (forall m', state_ m' = state_ s.1 -> source_ok m' -> tinv (m', w')) as Hdone
    by (intros; split; [done|by intros _]).
  apply wp_if; intros _; [wp_mgr; apply Hdone; [done|by apply (source_ok_same s.1)]|].
  apply wp_bind, wp_mupdate. cbn [fst snd]. apply wp_if; intros _.
  - apply wp_bind, wp_fail_honest; [done|]. intros. by apply wp_ret.
  - wp_mgr. apply Hdone; [done|by apply (source_ok_same s.1)].
Qed.

Lemma send_blast_complete_honest (s : St) :
  state_ s.1 <> IDLE -> tinv s ->
  wp send_blast_complete_ (fun _ s' => tinv s' /\ (state_ s'.1 = IDLE \/ state_ s'.1 = state_ s.1)) s.
Proof.
  intros Hn [Hl Hs]. specialize (Hs Hn). unfold send_blast_complete_.
  apply wp_bind, wp_mthis, wp_bind, wp_send_honest; [done|apply blast_honest_frame|].
  intros err tx w' Hl'. cbn [fst].
  assert (forall m', state_ m' = state_ s.1 -> source_ok m' ->
    tinv (m', w') /\ (state_ (m', w').1 = IDLE \/ state_ (m', w').1 = state_ s.1)) as Hdone
    by (intros; split; [split; [done|by intros _]|by right]).
  apply wp_if; intros _; [wp_mgr; apply Hdone; [done|by apply (source_ok_same s.1)]|].
  apply wp_bind, wp_mupdate. cbn [fst snd]. apply wp_if; intros _.
  - apply wp_bind, wp_if; intros _.
    + eapply wp_mono; [apply wp_and; [apply (wp_fail_honest _ _ _ (fun _ => tinv)); [done|auto]|
        apply fail_transfer_spec]|].
      intros [] s' [? [[? _] _]]. apply wp_ret. split; [done|by left].
    + apply wp_ret, wp_ret. apply Hdone; [done|by apply (source_ok_same s.1)].
  - wp_mgr. apply Hdone; [done|by apply (source_ok_same s.1)].
Qed.

Lemma send_end_honest (s : St) : state_ s.1 <> IDLE -> tinv s -> wp send_end_ (fun _ => tinv) s.
Proof.
  intros Hn [Hl Hs]. specialize (Hs Hn). unfold send_end_.
  apply wp_bind, wp_mthis, wp_if; intros _; [by apply wp_ret|].
  apply wp_if; intros _; [apply wp_bind, wp_fail_honest; [done|]; intros; by apply wp_ret|].
  apply wp_bind, wp_send_honest; [done|apply end_honest_frame|]. intros err tx w' Hl'. cbn [fst].
  apply wp_if; intros _.
  - unfold mark_no_mem_backoff_.
    apply wp_bind, wp_bind, wp_mupdate, wp_bind, wp_mmillis, wp_mupdate. cbn [fst snd].
    apply wp_bind, wp_fail_honest; [done|]. intros. by apply wp_ret.
  - apply wp_bind, wp_mupdate. cbn [fst snd]. apply wp_if; intros _.
    + apply wp_bind, wp_fail_honest; [done|]. intros. by apply wp_ret.
    + wp_mgr. split; [done|]. intros _. by apply (source_ok_same s.1).
Qed.

(** ** Blasting *)
Lemma data_honest_frame m q :
  busy_ok m -> source_ok m -> 0 <= q < 4294967296 -> 0 < expected_chunk_len_ m q ->
  frame_honest (packet_type_code PKT_FILE_DATA,
    to_bytes {| fdh_sequence := q |} ++ file_chunk F (negotiated_chunk_size_ m) q).
Proof.
  intros Hb Hs Hq He. unfold frame_honest. cbn [fst snd]. rewrite Z.eqb_refl.
  exists (negotiated_chunk_size_ m), q. pose proof (b_negotiated _ Hb). pose proof (b_requested _ Hb).
  split_and!; try lia; [|done].
  rewrite <-(s_size _ Hs). revert He. unfold expected_chunk_len_.
  rewrite u64_small by nia. repeat case_match; zprop; lia.
Qed.

(** Sending the head of the queue keeps the queue honest. *)
Lemma send_chunk_honest q (s : St) :
  state_ s.1 <> IDLE -> busy_ok s.1 -> tinv s -> 0 <= q < 4294967296 -> 0 < expected_chunk_len_ s.1 q ->
  wp (send_chunk_ q (file_chunk F (negotiated_chunk_size_ s.1) q)) (fun _ => tinv) s.
Proof.
  intros Hn Hb [Hl Hs] Hq He. specialize (Hs Hn). unfold send_chunk_. apply wp_bind, wp_mthis.
  apply wp_if; intros _; [apply wp_bind, wp_fail_honest; [done|]; intros; by apply wp_ret|].
  apply wp_bind, wp_send_honest; [done|by apply data_honest_frame|]. intros err tx w' Hl'. cbn [fst].
  wp_mgr; (split; [done|]); intros _; by apply (source_ok_same s.1).
Qed.

(** When a BLAST_COMPLETE has failed the manager is idle or where it was. *)
Lemma blast_or_stay_honest (s : St) :
  state_ s.1 = BLASTING -> busy_ok s.1 -> quiet s.1 -> blast_complete_retries (tracker_ s.1) = 0 ->
  tinv s -> wp blast_complete_or_stay_ (fun _ => tinv) s.
Proof.
  intros Hst Hb Hq Hr Hi. unfold blast_complete_or_stay_. apply wp_bind.
  eapply wp_mono; [apply wp_and; [apply send_blast_complete_honest; [congruence|done]|
    apply send_blast_complete_spec; [done|done|rewrite Hr; done]]|].
  intros ok s' [[[Hl Hs] _] Hsent]. wp_mgr; [|done].
  destruct ok; [|done]. destruct Hsent as (Hst' & _). split; [done|]. intros _. cbn [fst].
  apply (source_ok_same s'.1); try done. apply Hs. congruence.
Qed.

Lemma pump_queued_honest (s : St) : minv s -> tinv s -> wp pump_queued_chunks_ (fun _ => tinv) s.
Proof.
  intros Hi Ht. unfold pump_queued_chunks_. apply wp_bind, wp_mthis, wp_if; intros Hst; [by apply wp_ret|].
  zprop. apply state_is_true in Hst. destruct (blasting_inv s Hst Hi) as [Hb Hr].
  apply wp_bind, wp_mmillis, wp_if; intros _; [by apply wp_ret|].
  destruct (pending_chunks_ s.1) as [|[q data] rest] eqn:Hp.
  - apply wp_when; intros Hc; [|done]. zprop. rewrite bool_decide_eq_true in *.
    by apply blast_or_stay_honest.
  - pose proof (proj2 Ht ltac:(congruence)) as Hs. pose proof (s_pending _ Hs) as Hpend. rewrite Hp in Hpend.
    apply Forall_cons in Hpend as [[Hq Hd] Hrest]. cbn in Hq, Hd. subst data.
    pose proof (b_pending _ Hb) as Hcp. rewrite Hp in Hcp. apply Forall_cons in Hcp as [[_ He] _]. cbn in He.
    apply wp_bind. eapply wp_mono; [apply wp_and; [apply send_chunk_honest; try done; congruence|
      by apply send_chunk_spec]|].
    intros ok s' [Ht' Hsent].
    apply wp_if; intros Hok; [by apply wp_ret|]. zprop. subst ok.
    destruct Hsent as [[? _]|(Hst' & Hp' & Hb' & Hq' & Hr')]; [done|].
    pose proof (proj2 Ht' ltac:(congruence)) as Hs'.
    apply wp_bind, wp_mupdate_tracker, wp_bind, wp_mupdate, wp_bind, wp_mthis. cbn [fst snd].
    set (m1 := _ <| pending_chunks_ ::= drop 1 |>).
    assert (busy_ok m1) as Hb1.
    { unfold m1. apply (busy_ok_frame s'.1); try done; try apply Hb'. cbn. apply Forall_drop, Hb'. }
    assert (tinv (m1, s'.2)) as Ht1.
    { split; [apply Ht'|]. intros _. apply (source_ok_frame s'.1); try done; try apply Hs'.
      cbn. apply Forall_drop, Hs'. }
    assert (state_ m1 = BLASTING /\ blast_complete_retries (tracker_ m1) = 0) as [Hst1 Hr1]
      by (split; [cbn; congruence|cbn; congruence]).
    clearbody m1. apply wp_when; intros Hc; [|done]. zprop. rewrite !bool_decide_eq_true in *.
    by apply blast_or_stay_honest.
Qed.

Lemma tinv_request m w :
  tinv (m, w) -> tinv (m <| tracker_ ::= request_chunks |>, w).
Proof.
  intros [Hl Hs]. split; [done|]. intros Hn. specialize (Hs Hn).
  destruct (request_chunks_nonneg (tracker_ m) (s_gaps _ Hs)) as [R1 R2].
  apply (source_ok_frame m); try done; [apply Hs|]. cbn. rewrite R2. apply Hs.
Qed.

Lemma pump_blasting_honest (s : St) : tinv s -> wp pump_blasting_ (fun _ => tinv) s.
Proof.
  intros Ht. unfold pump_blasting_. wp_mgr; try done.
  pose proof (tinv_request s.1 s.2) as Hreq. destruct s as [m w]. cbn [fst snd] in *.
  destruct (Hreq Ht) as [Hl Hs]. split; [done|]. intros Hn. cbn [fst].
  apply (source_ok_same (m <| tracker_ ::= request_chunks |>)); try done. by apply Hs.
Qed.

(** ** Acknowledgements *)
Lemma malformed_honest message notify (s : St) :
  log_honest s.2 -> wp (malformed message notify) (fun _ => tinv) s.
Proof. intros Hl. unfold malformed. by apply wp_fail_honest. Qed.

Lemma handle_accept_honest trailing (s : St) :
  quiet s.1 -> state_ s.1 <> IDLE -> tinv s -> wp (handle_accept_ trailing) (fun _ => tinv) s.
Proof.
  intros [Hp Hr] Hn [Hl Hs]. specialize (Hs Hn). unfold handle_accept_.
  destruct trailing as [|b0 [|b1 [|kb [|action rest]]]]; try (by apply malformed_honest).
  apply wp_bind, wp_mthis. do 3 (apply wp_if; intros ?; [by apply malformed_honest|]).
  apply wp_bind, wp_mmillis, wp_bind, wp_mupdate, wp_bind, wp_mupdate_tracker. cbn [fst snd].
  match goal with |- wp _ _ (?m, _) => change m with (s.1 <| negotiated_chunk_size_ := le_num [b0; b1] |>
    <| tracker_ := accepted_tracker (file_size_ s.1) (le_num [b0; b1]) kb (transport_millis s.2) (tracker_ s.1) |>)
  end.
  set (t := accepted_tracker _ _ _ _ _).
  assert (requested_sequences t = requested_sequences (tracker_ s.1) /\
          gap_sequences t = gap_sequences (tracker_ s.1)) as [T1 T2] by done.
  clearbody t. apply wp_bind, wp_mthis, wp_if; intros _; [by apply malformed_honest|].
  apply wp_bind, wp_mupdate, wp_mupdate_tracker. cbn [fst snd]. apply tinv_request.
  split; [done|]. intros _. apply (source_ok_frame s.1); try done; cbn; rewrite ?Hp, ?T1, ?T2;
    [constructor|apply Hs|apply Hs].
Qed.

Lemma compute_gaps_range t len bitmap q : q ∈ compute_gaps t len bitmap -> 0 <= q < 4294967296.
Proof. rewrite elem_of_compute_gaps. intros (i & _ & _ & ->). apply u32_range. Qed.

Lemma handle_gaps_honest trailing (s : St) :
  state_ s.1 <> IDLE -> tinv s -> wp (handle_gaps_ack_ trailing) (fun _ => tinv) s.
Proof.
  intros Hn [Hl Hs]. specialize (Hs Hn). unfold handle_gaps_ack_.
  destruct trailing as [|b0 [|b1 bitmap]]; try (by apply malformed_honest).
  apply wp_if; intros _; [by apply malformed_honest|]. apply wp_if; intros _.
  - apply wp_bind, wp_mupdate, wp_bind, wp_mthis. cbn [fst snd].
    assert (source_ok (note_progress s.1) /\ state_ (note_progress s.1) = state_ s.1) as [Hs1 Hst1]
      by (split; [by apply (source_ok_same s.1)|done]).
    generalize dependent (note_progress s.1). intros m1 Hs1 Hst1. apply wp_if; intros _.
    + apply wp_bind, wp_mupdate, wp_bind. cbn [fst snd].
      eapply wp_mono; [apply send_end_honest; [done|]|intros; by apply wp_ret].
      split; [done|]. intros _. by apply (source_ok_same m1).
    + apply wp_bind, wp_mupdate, wp_mupdate_tracker. cbn [fst snd]. apply tinv_request.
      split; [done|]. intros _. apply (source_ok_frame m1); try done; apply Hs1.
  - apply wp_bind, wp_mthis, wp_if; intros _; [by apply wp_fail_honest|].
    apply wp_bind, wp_mupdate_tracker, wp_bind, wp_mthis. cbn [fst snd].
    change (s.1 <| tracker_ ::= _ |>) with (s.1 <| tracker_ := (tracker_ s.1)
      <| gap_sequences := compute_gaps (tracker_ s.1) (le_num [b0; b1]) bitmap |> |>).
    set (gaps := compute_gaps (tracker_ s.1) (le_num [b0; b1]) bitmap).
    assert (forall q, q ∈ gaps -> 0 <= q < 4294967296) as Hg by apply compute_gaps_range.
    clearbody gaps. apply wp_if; intros _.
    + apply wp_bind, wp_mupdate, wp_mupdate_tracker. cbn [fst snd]. apply tinv_request.
      split; [done|]. intros _. apply (source_ok_frame s.1); try done; apply Hs.
    + apply wp_mupdate. split; [done|]. intros _. apply (source_ok_frame s.1); try done; apply Hs.
Qed.

Lemma on_file_ack_honest leaf_mac ack trailing (s : St) :
  minv s -> tinv s -> wp (on_file_ack leaf_mac ack trailing) (fun _ => tinv) s.
Proof.
  intros Hi [Hl Hs]. unfold on_file_ack. apply wp_bind, wp_mthis. apply wp_if; intros Hc; [by apply wp_ret|].
  do 2 (apply wp_if; intros ?; [by apply wp_ret|]). zprop. unfold is_busy in *. zprop.
  match goal with H : state_is _ IDLE = false |- _ => apply state_is_false in H; rename H into Hn end.
  apply wp_bind, wp_mmillis, wp_bind, wp_mupdate, wp_bind, wp_mupdate_tracker. cbn [fst snd].
  destruct (heard_ok (transport_millis s.2) s.1 Hi Hn) as [Hi' Hs'].
  change (s.1 <| last_activity_ms_ := _ |> <| tracker_ ::= _ |>) with (heard (transport_millis s.2) s.1).
  assert (source_ok (heard (transport_millis s.2) s.1)) as Hso
    by (apply (source_ok_same s.1); try done; by apply Hs).
  rewrite <-Hs'. rewrite <-Hs' in Hn.
  generalize dependent (heard (transport_millis s.2) s.1). intros m' Hn Hi' Hs' Hso.
  assert (tinv (m', s.2)) as Ht by (split; [done|by intros _]).
  assert (forall (k : M St unit), wp k (fun _ => tinv) (m', s.2) ->
            wp (k;; mret true) (fun _ => tinv) (m', s.2)) as Hseq.
  { intros k Hk. apply wp_bind. eapply wp_mono; [exact Hk|]. intros. by apply wp_ret. }
  repeat (apply wp_if; intros ?);
    lazymatch goal with |- wp (mret _) _ _ => exact Ht | _ => apply Hseq end.
  - apply handle_accept_honest; [|done|done]. zprop.
    match goal with H : state_is _ ANNOUNCING = true |- _ => apply state_is_true in H; rename H into Hst end.
    unfold mgr_ok in Hi'. rewrite Hst in Hi'. apply Hi'.
  - unfold handle_reject_. destruct trailing as [|? [|]]; by apply wp_fail_honest.
  - by apply handle_gaps_honest.
  - unfold handle_complete_. destruct trailing as [|? [|]]; try (by apply malformed_honest).
    apply wp_bind, wp_mthis, wp_if; intros _; [by apply malformed_honest|].
    apply wp_if; intros _; [|by apply wp_fail_honest].
    apply wp_bind, wp_mupdate, wp_mupdate. by apply tinv_idle.
  - unfold handle_abort_ack_. by apply wp_fail_honest.
Qed.

Lemma on_source_chunk_honest q (s : St) :
  tinv s -> wp (on_source_chunk q (file_chunk F (negotiated_chunk_size_ s.1) q)) (fun _ => tinv) s.
Proof.
  intros [Hl Hs]. unfold on_source_chunk. apply wp_bind, wp_mthis, wp_if; intros Hst; [by apply wp_ret|].
  zprop. apply state_is_true in Hst. specialize (Hs ltac:(congruence)).
  apply wp_if; intros Hin; [by apply wp_ret|]. zprop. rewrite bool_decide_eq_true in Hin.
  apply wp_if; intros ?; [by apply wp_ret|]. wp_mgr. split; [done|]. intros _. cbn [fst].
  pose proof (s_requested _ Hs q Hin) as Hq.
  apply (source_ok_frame s.1); try done.
  - cbn. apply Forall_app_2; [apply Hs|]. constructor; [split; done|constructor].
  - cbn. intros q' Hq'. apply elem_of_difference in Hq' as [Hq' _]. by apply Hs.
  - apply Hs.
Qed.

Lemma loop_honest_bridge (s : St) : minv s -> tinv s -> wp loop (fun _ => tinv) s.
Proof.
  intros Hi Ht. pose proof Ht as [Hl Hs]. unfold loop.
  apply wp_bind, wp_mthis, wp_if; intros Hbusy; [by apply wp_ret|].
  apply wp_bind, wp_mmillis, wp_bind, wp_gets.
  do 2 (apply wp_if; intros ?; [by apply wp_fail_honest|]).
  apply wp_if; intros ?; [by apply wp_ret|]. apply wp_if; intros ?; [by apply wp_fail_honest|].
  destruct (state_ s.1) eqn:Hst; try (by apply wp_ret).
  - apply wp_if; intros ?; [|by apply wp_ret]. apply wp_bind.
    eapply wp_mono; [by apply send_announce_honest|]. intros. by apply wp_ret.
  - apply wp_bind. eapply wp_mono; [apply wp_and; [by apply pump_blasting_honest|by apply pump_blasting_inv]|].
    intros ? ? [? ?]. by apply pump_queued_honest.
  - apply wp_if; intros ?; [|by apply wp_ret]. apply wp_if; intros ?; [by apply wp_fail_honest|].
    apply wp_bind. eapply wp_mono; [apply send_blast_complete_honest; [congruence|done]|].
    intros ? ? [? _]. by apply wp_ret.
  - apply wp_if; intros ?; [|by apply wp_ret]. apply wp_bind.
    eapply wp_mono; [apply send_end_honest; [congruence|done]|intros; by apply wp_ret].
Qed.

Lemma start_transfer_honest leaf_mac action max file_id (s : St) :
  0 <= max < 65536 -> 0 <= action < 256 -> (forall id, file_id = Some id -> bytes_ok id) ->
  minv s -> tinv s ->
  wp (start_transfer leaf_mac (Z.of_nat (length F)) (digest F) action max file_id) (fun _ => tinv) s.
Proof.
  intros Hmax Hact Hid Hi Ht. pose proof Ht as [Hl Hs]. unfold start_transfer.
  apply wp_if; intros ?; [by apply wp_ret|]. apply wp_bind, wp_mthis.
  assert (forall e, tinv (s.1 <| last_error_ := e |>, s.2)) as Herr.
  { intros e. split; [done|]. intros Hn. apply (source_ok_same s.1); try done. by apply Hs. }
  do 4 (apply wp_if; intros ?; [wp_mgr; by apply Herr|]). zprop.
  apply wp_bind, wp_mupdate, wp_bind, wp_mupdate, wp_bind, wp_mmillis, wp_bind, wp_mupdate, wp_bind.
  cbn [fst snd].
  eapply wp_mono; [apply send_announce_honest|].
  - unfold minv. cbn [fst]. apply start_inv; try done; lia.
  - split; [done|]. intros _.
    constructor; try done; cbn; try (intros q Hq; by apply not_elem_of_empty in Hq).
    apply Forall_take. destruct file_id as [id|]; [by apply Hid|]. by apply byteb_ok.
  - intros ok s' Hs'. wp_mgr. done.
Qed.

(** ** Runs with an honest source *)
Inductive bridge_step : St -> St -> Prop :=
  | bs_start leaf_mac action max file_id s :
      0 <= max < 65536 -> 0 <= action < 256 -> (forall id, file_id = Some id -> bytes_ok id) ->
      bridge_step s (start_transfer leaf_mac (Z.of_nat (length F)) (digest F) action max file_id s).2
  | bs_chunk q s :
      bridge_step s (on_source_chunk q (file_chunk F (negotiated_chunk_size_ s.1) q) s).2
  | bs_source_abort reason s : bridge_step s (on_source_abort reason s).2
  | bs_ack leaf_mac ack trailing s :
      bytes_ok trailing -> bridge_step s (on_file_ack leaf_mac ack trailing s).2
  | bs_loop s : bridge_step s (loop s).2
  | bs_send_fn b s : bridge_step s (s.1 <| send_frame_fn_set := b |>, s.2)
  | bs_world m w w' : sent w' = sent w -> bridge_step (m, w) (m, w').

Lemma bridge_step_inv (s s' : St) :
  Z.of_nat (length F) < 4294967296 -> minv s -> tinv s -> bridge_step s s' -> minv s' /\ tinv s'.
Proof.
  intros HF Hi Ht Hstep. split.
  - destruct Hstep; try (eapply mgr_step_inv; [exact Hi|by constructor]).
    eapply mgr_step_inv; [exact Hi|]. constructor; lia.
  - destruct Hstep as [leaf_mac action max file_id s ? ? ?|q s|reason s|leaf_mac ack trailing s ?|s|b s|m w w' E].
    + by apply (start_transfer_honest leaf_mac action max file_id s).
    + by apply (on_source_chunk_honest q s).
    + change (wp (on_source_abort reason) (fun _ => tinv) s). unfold on_source_abort.
      apply wp_bind, wp_mthis, wp_if; intros _; [by apply wp_ret|]. apply wp_fail_honest; [apply Ht|done].
    + by apply (on_file_ack_honest leaf_mac ack trailing s).
    + by apply (loop_honest_bridge s).
    + destruct Ht as [Hl Hs]. split; [done|]. intros Hn. apply (source_ok_same s.1); try done. by apply Hs.
    + destruct Ht as [Hl Hs]. split; [|done]. unfold log_honest. cbn. by rewrite E.
Qed.

(** C27: Whatever the remote answers and however the run is scheduled, a bridge whose source
    provides the chunks of [F] only ever sends frames an honest sender of [F] sends: each
    FILE_DATA frame is the frame of a chunk of [F], each announcement carries the size and
    the digest of [F]. *)
Theorem bridge_sends_only_the_file cfg (w : W) (s : St) type payload :
  0 < Z.of_nat (length F) < 4294967296 -> sent w = [] ->
  rtc bridge_step (new_manager cfg, w) s -> (type, payload) ∈ sent s.2 ->
  if type =? FILE_DATA_CODE
  then exists chunk q, 0 < chunk < 65536 /\ 0 <= q /\ q * chunk < Z.of_nat (length F) /\
         payload = data_frame F chunk q
  else honest_control (digest := digest) F payload.
Proof.
  intros HF Hw Hsteps Hin.
  assert (minv s /\ tinv s) as [_ [Hl _]].
  { assert (minv (new_manager cfg, w) /\ tinv (new_manager cfg, w)) as Hinit.
    { split; [apply new_manager_inv|]. split; [|done]. unfold log_honest. cbn. by rewrite Hw. }
    induction Hsteps as [|s1 s2 s3 Hstep _ IH]; [done|]. apply IH; [done|].
    destruct Hinit. eapply bridge_step_inv; [lia|done|done|exact Hstep]. }
  exact (proj1 (Forall_forall _ _) Hl _ Hin).
Qed.
End transfer.

(** ** Acknowledgements and backoff: behaviour that deserves attention *)
Section behaviour.
Context {W : Type} `{!OtaTransport W}.

(** A COMPLETE acknowledgement with the result SUCCESS ends any transfer with the public
    state SUCCESS, in every busy state and for every reference counter: neither the state
    nor the counter of the acknowledged frame is checked, unlike for ACCEPT and GAPS. *)
Theorem complete_ack_is_ungated (s : Manager * W) ref rest :
  is_busy s.1 = true -> leaf_mac_ s.1 <> [] ->
  let ack := {| ack_type := packet_type_code PKT_FILE_TRANSFER;
                ack_result := ESPNOW_FILE_ACK_COMPLETE; ack_ref_tx_counter := ref |} in
  let res := on_file_ack (leaf_mac_ s.1) ack (action_ s.1 :: ESPNOW_FILE_COMPLETE_SUCCESS :: rest) s in
  res.1 = true /\ state_ res.2.1 = IDLE /\ public_state_ res.2.1 = str "SUCCESS" /\
  public_progress_pct_ res.2.1 = 100.
Proof.
  intros Hb Hm ack. cbv zeta.
  change (wp (on_file_ack (leaf_mac_ s.1) ack (action_ s.1 :: ESPNOW_FILE_COMPLETE_SUCCESS :: rest))
    (fun ok s' => ok = true /\ state_ s'.1 = IDLE /\ public_state_ s'.1 = str "SUCCESS" /\
       public_progress_pct_ s'.1 = 100) s).
  unfold on_file_ack. apply wp_bind, wp_mthis. rewrite Hb.
  rewrite bool_decide_eq_false_2 by done. cbn [negb orb ack_type ack].
  rewrite Z.eqb_refl. unfold same_leaf_, bytes_eqb. rewrite bool_decide_eq_true_2 by done. cbn [negb].
  apply wp_bind, wp_mmillis, wp_bind, wp_mupdate, wp_bind, wp_mupdate_tracker. cbn [fst snd ack_result].
  change (ESPNOW_FILE_ACK_COMPLETE =? ESPNOW_FILE_ACK_ACCEPT) with false.
  change (ESPNOW_FILE_ACK_COMPLETE =? ESPNOW_FILE_ACK_REJECT) with false.
  change (ESPNOW_FILE_ACK_COMPLETE =? ESPNOW_FILE_ACK_GAPS) with false.
  change (ESPNOW_FILE_ACK_COMPLETE =? ESPNOW_FILE_ACK_COMPLETE) with true. cbn match.
  unfold handle_complete_, reset_. apply wp_bind, wp_bind, wp_mthis. cbn [fst].
  match goal with |- wp (if negb (?a =? ?b) then _ else _) _ _ => change b with a end.
  rewrite Z.eqb_refl. cbn [negb]. apply wp_bind, wp_mupdate, wp_mupdate, wp_ret. done.
Qed.

Lemma u64_shiftl_small b k : 0 <= b < 2 ^ 32 -> 0 <= k <= 7 -> u64 (Z.shiftl b k) = b * 2 ^ k.
Proof.
  intros Hb Hk. rewrite Z.shiftl_mul_pow2 by lia. apply u64_small.
  assert (2 ^ k <= 2 ^ 7) by (apply Z.pow_le_mono_r; lia).
  assert (0 < 2 ^ k) by (apply Z.pow_pos_nonneg; lia). nia.
Qed.

(** The backoff after out-of-memory errors is exponential and capped: after the n-th
    consecutive error (n from 1 to 255) it is the base times 2^(n-1), with the exponent
    capped at 7 and the delay at the configured maximum. *)
Theorem backoff_exponential cfg n :
  0 <= no_mem_backoff_ms cfg < 2 ^ 32 -> 0 <= max_no_mem_backoff_ms cfg < 2 ^ 32 -> 1 <= n <= 255 ->
  backoff_ms cfg n = Z.min (no_mem_backoff_ms cfg * 2 ^ Z.min (n - 1) 7) (max_no_mem_backoff_ms cfg).
Proof.
  intros Hb Hm Hn. unfold backoff_ms. rewrite (u8_small (n - 1)) by lia.
  destruct (Z.ltb_spec 0 (Z.min (n - 1) 7)).
  - rewrite u64_shiftl_small, u32_small by lia. lia.
  - replace (Z.min (n - 1) 7) with 0 by lia. lia.
Qed.

(** The backoff deadline is compared without wrap-around: a deadline set just before the
    32-bit clock wraps blocks [loop] after the wrap (49 days of clock values) until the
    global timeout, since the retry and silence timers come after this test. *)
Theorem backoff_deadline_not_wrap_safe (s : Manager * W) :
  is_busy s.1 = true ->
  negb (target_reachable_fn_set s.1) || target_reachable_fn (leaf_mac_ s.1) s.2 = true ->
  u32 (transport_millis s.2 - transfer_started_ms_ s.1) <= global_timeout_ms (config_ s.1) ->
  no_mem_backoff_until_ms_ s.1 = 4294967290 -> 0 <= transport_millis s.2 < 4294967290 ->
  (loop s).2 = s.
Proof.
  intros Hb Hr Ht Hu Hm. change (wp loop (fun _ s' => s' = s) s).
  unfold loop. apply wp_bind, wp_mthis. rewrite Hb. cbn [negb].
  apply wp_bind, wp_mmillis, wp_bind, wp_gets. rewrite Hr. cbn [negb].
  apply wp_if; intros C; [zprop; lia|]. rewrite Hu.
  apply wp_if; intros C'; [by apply wp_ret|zprop; lia].
Qed.
End behaviour.

(** ** A simulated transport *)
Record SimT := { simt_now : Z; simt_tx : Z; simt_sent : list (Z * bytes) }.
#[export] Instance eta_simt : Eta SimT := fun s => Build_SimT (simt_now s) (simt_tx s) (simt_sent s).
#[export] Instance simt_transport : OtaTransport SimT := {|
  transport_millis := fun w => u32 (simt_now w);
  send_frame_fn := fun _ type payload w =>
    ((ESP_OK, simt_tx w), w <| simt_tx ::= Z.add 1 |> <| simt_sent ::= fun l => l ++ [(type, payload)] |>);
  target_reachable_fn := fun _ _ => true
|}.
#[export] Program Instance simt_observed : ObservedTransport SimT := {| sent := simt_sent |}.
Solve All Obligations with done.
Definition simt0 : SimT := {| simt_now := 1000; simt_tx := 40; simt_sent := [] |}.

Definition demo_image : bytes := replicate 150 233.
Definition demo_hash (l : bytes) : bytes := replicate 16 (Z.of_nat (length l) mod 256).
Definition demo_leaf : bytes := [2; 0; 0; 0; 0; 1].
Abbreviation BSt := (Manager * SimT)%type.
Definition bridge_start : BSt := (new_manager default_config, simt0).
Definition bridge_configured : BSt := (bridge_start.1 <| send_frame_fn_set := true |>, bridge_start.2).
Definition bridge_announced : BSt :=
  (start_transfer demo_leaf (Z.of_nat (length demo_image)) (demo_hash demo_image) 0 250 None
     bridge_configured).2.
Definition demo_accept : espnow_ack_t :=
  {| ack_type := packet_type_code PKT_FILE_TRANSFER; ack_result := ESPNOW_FILE_ACK_ACCEPT;
     ack_ref_tx_counter := 40 |}.
Definition bridge_blasting : BSt :=
  (on_file_ack demo_leaf demo_accept [100; 0; 8; 0] bridge_announced).2.
Definition bridge_queued : BSt :=
  (on_source_chunk 1 (file_chunk demo_image (negotiated_chunk_size_ bridge_blasting.1) 1) bridge_blasting).2.
Definition bridge_sent : BSt := (loop bridge_queued).2.

Example bridge_runs :
  state_ bridge_announced.1 = ANNOUNCING /\ state_ bridge_blasting.1 = BLASTING /\
  requested_sequences (tracker_ bridge_blasting.1) = {[0; 1]} /\
  last (sent bridge_sent.2) = Some (FILE_DATA_CODE, data_frame demo_image 100 1).
Proof. by vm_compute. Qed.

Lemma bridge_sent_steps :
  rtc (bridge_step demo_image demo_hash) bridge_start bridge_sent.
Proof.
  apply (rtc_l _ _ bridge_configured); [unfold bridge_configured; apply bs_send_fn|].
  apply (rtc_l _ _ bridge_announced); [unfold bridge_announced; apply bs_start; lia || done|].
  apply (rtc_l _ _ bridge_blasting); [unfold bridge_blasting; apply bs_ack; by apply byteb_ok|].
  apply (rtc_l _ _ bridge_queued); [unfold bridge_queued; apply bs_chunk|].
  apply rtc_once. unfold bridge_sent. apply bs_loop.
Qed.

Lemma bridge_queued_steps : rtc mgr_step bridge_start bridge_queued.
Proof.
  apply (rtc_l _ _ bridge_configured); [unfold bridge_configured; apply mstep_send_fn|].
  apply (rtc_l _ _ bridge_announced); [unfold bridge_announced; apply mstep_start; lia || done|].
  apply (rtc_l _ _ bridge_blasting); [unfold bridge_blasting; apply mstep_ack; by apply byteb_ok|].
  apply rtc_once. unfold bridge_queued. apply mstep_chunk.
Qed.

(** ** Witnesses *)
Lemma manager_invariant_witness : state_ bridge_queued.1 = BLASTING /\ mgr_ok bridge_queued.1.
Proof.
  split; [by vm_compute|].
  apply (manager_invariant default_config simt0). apply bridge_queued_steps.
Defined.

Lemma queued_chunks_fit_witness :
  Z.of_nat (length (to_bytes {| fdh_sequence := 1 |} ++ file_chunk demo_image 100 1))
  <= max_encrypted_plaintext_ bridge_queued.1.
Proof.
  apply (queued_chunks_fit default_config simt0 bridge_queued).
  - apply bridge_queued_steps.
  - assert (pending_chunks_ bridge_queued.1 = [(1, file_chunk demo_image 100 1)]) as ->
      by (vm_compute; reflexivity).
    apply list_elem_of_here.
Defined.

Lemma bridge_sends_only_the_file_witness :
  exists chunk q, 0 < chunk < 65536 /\ 0 <= q /\ q * chunk < Z.of_nat (length demo_image) /\
    data_frame demo_image 100 1 = data_frame demo_image chunk q.
Proof.
  apply (bridge_sends_only_the_file demo_image demo_hash eq_refl) with
    (cfg := default_config) (w := simt0) (s := bridge_sent) (type := FILE_DATA_CODE).
  - by apply byteb_ok.
  - by vm_compute.
  - done.
  - apply bridge_sent_steps.
  - apply list_elem_of_lookup. exists 1%nat. by vm_compute.
Defined.

Definition bridge_late : BSt := (bridge_queued.1, bridge_queued.2 <| simt_now := 901001 |>).
Lemma global_timeout_fails_witness :
  idle_ok (loop bridge_late).2.1 /\
  last_error_ (loop bridge_late).2.1 = str "transfer global timeout" /\
  public_state_ (loop bridge_late).2.1 = str "FAIL".
Proof. apply (global_timeout_fails bridge_late); by vm_compute. Defined.


Lemma demo_gap_buffer_ok : buffer_ok (mark_chunk_received (ib_reset 2 200) 0).
Proof. apply buffer_ok_mark; [by apply buffer_ok_reset|]. cbn. lia. Qed.

Definition bridge_waiting : BSt :=
  (bridge_blasting.1 <| state_ := WAITING_GAPS |>, bridge_blasting.2).
Lemma gaps_request_missing_witness :
  let m' := (handle_gaps_ack_ (gaps_trailing (mark_chunk_received (ib_reset 2 200) 0)) bridge_waiting).2.1 in
  state_ m' = BLASTING /\ 1 ∈ requested_sequences (tracker_ m').
Proof.
  destruct (gaps_request_missing bridge_waiting (mark_chunk_received (ib_reset 2 200) 0)) as [H1 H2].
  - apply demo_gap_buffer_ok.
  - by vm_compute.
  - by vm_compute.
  - by vm_compute.
  - by vm_compute.
  - by vm_compute.
  - by vm_compute.
  - split; [exact H1|]. apply H2. exists 1. by vm_compute.
Defined.

Lemma complete_ack_is_ungated_witness :
  let ack := {| ack_type := packet_type_code PKT_FILE_TRANSFER;
                ack_result := ESPNOW_FILE_ACK_COMPLETE; ack_ref_tx_counter := 12345 |} in
  let res := on_file_ack demo_leaf ack [0; 0] bridge_announced in
  state_ res.2.1 = IDLE /\ public_state_ res.2.1 = str "SUCCESS".
Proof.
  destruct (complete_ack_is_ungated bridge_announced 12345 []) as (_ & H1 & H2 & _).
  - by vm_compute.
  - by vm_compute.
  - split; [exact H1|exact H2].
Defined.

Lemma backoff_exponential_witness :
  backoff_ms default_config 3 = 20 /\ backoff_ms default_config 200 = 250.
Proof. split; (rewrite backoff_exponential; by vm_compute). Defined.

Definition bridge_blocked : BSt :=
  (bridge_queued.1 <| no_mem_backoff_until_ms_ := 4294967290 |>, bridge_queued.2).
Lemma backoff_deadline_not_wrap_safe_witness : (loop bridge_blocked).2 = bridge_blocked.
Proof. apply (backoff_deadline_not_wrap_safe bridge_blocked); by vm_compute. Defined.
