(* ===== verification/Crypto.v ===== *)
(** * Crypto: packet encryption, tags and key derivation

    Models [src/device_code/components/esp_tree_common/espnow_crypto.cpp] as it
    is built for the devices ([ESP_PLATFORM] / [ARDUINO_ARCH_ESP8266]): the
    AES-256 key schedule and block cipher, the counter mode, HKDF, the hex
    decoder, the module state (the pre-shared key) and the public operations.
    HMAC-SHA256 comes from mbedtls or BearSSL; it is the class [Hmac], with the
    documented fact the code relies on: a digest is an array of 32 bytes.

    [Module FIPS197] is the published cipher, written over the field
    GF(2^8) instead of tables; [aes_refines_fips197] relates the two. *)
From S2P Require Import Prelude Wire.

(** ** The block cipher *)
Definition kAesSBox : bytes :=
  [0x63;0x7c;0x77;0x7b;0xf2;0x6b;0x6f;0xc5;0x30;0x01;0x67;0x2b;0xfe;0xd7;0xab;0x76;
   0xca;0x82;0xc9;0x7d;0xfa;0x59;0x47;0xf0;0xad;0xd4;0xa2;0xaf;0x9c;0xa4;0x72;0xc0;
   0xb7;0xfd;0x93;0x26;0x36;0x3f;0xf7;0xcc;0x34;0xa5;0xe5;0xf1;0x71;0xd8;0x31;0x15;
   0x04;0xc7;0x23;0xc3;0x18;0x96;0x05;0x9a;0x07;0x12;0x80;0xe2;0xeb;0x27;0xb2;0x75;
   0x09;0x83;0x2c;0x1a;0x1b;0x6e;0x5a;0xa0;0x52;0x3b;0xd6;0xb3;0x29;0xe3;0x2f;0x84;
   0x53;0xd1;0x00;0xed;0x20;0xfc;0xb1;0x5b;0x6a;0xcb;0xbe;0x39;0x4a;0x4c;0x58;0xcf;
   0xd0;0xef;0xaa;0xfb;0x43;0x4d;0x33;0x85;0x45;0xf9;0x02;0x7f;0x50;0x3c;0x9f;0xa8;
   0x51;0xa3;0x40;0x8f;0x92;0x9d;0x38;0xf5;0xbc;0xb6;0xda;0x21;0x10;0xff;0xf3;0xd2;
   0xcd;0x0c;0x13;0xec;0x5f;0x97;0x44;0x17;0xc4;0xa7;0x7e;0x3d;0x64;0x5d;0x19;0x73;
   0x60;0x81;0x4f;0xdc;0x22;0x2a;0x90;0x88;0x46;0xee;0xb8;0x14;0xde;0x5e;0x0b;0xdb;
   0xe0;0x32;0x3a;0x0a;0x49;0x06;0x24;0x5c;0xc2;0xd3;0xac;0x62;0x91;0x95;0xe4;0x79;
   0xe7;0xc8;0x37;0x6d;0x8d;0xd5;0x4e;0xa9;0x6c;0x56;0xf4;0xea;0x65;0x7a;0xae;0x08;
   0xba;0x78;0x25;0x2e;0x1c;0xa6;0xb4;0xc6;0xe8;0xdd;0x74;0x1f;0x4b;0xbd;0x8b;0x8a;
   0x70;0x3e;0xb5;0x66;0x48;0x03;0xf6;0x0e;0x61;0x35;0x57;0xb9;0x86;0xc1;0x1d;0x9e;
   0xe1;0xf8;0x98;0x11;0x69;0xd9;0x8e;0x94;0x9b;0x1e;0x87;0xe9;0xce;0x55;0x28;0xdf;
   0x8c;0xa1;0x89;0x0d;0xbf;0xe6;0x42;0x68;0x41;0x99;0x2d;0x0f;0xb0;0x54;0xbb;0x16].

Definition kAesRcon : bytes :=
  [0x00;0x01;0x02;0x04;0x08;0x10;0x20;0x40;0x80;0x1B;0x36;0x6C;0xD8;0xAB;0x4D].

Definition sbox (b : Z) : Z := at_ kAesSBox (Z.to_nat b).

Definition xtime (x : Z) : Z :=
  u8 (Z.lxor (Z.shiftl x 1) (Z.land (Z.shiftr x 7) 1 * 0x1B)).

Definition xor_bytes (a b : bytes) : bytes := zip_with Z.lxor a b.

Definition sub_word (word : bytes) : bytes :=
  [sbox (at_ word 0); sbox (at_ word 1); sbox (at_ word 2); sbox (at_ word 3)].

Definition rot_word (word : bytes) : bytes :=
  [at_ word 1; at_ word 2; at_ word 3; at_ word 0].

(** One round of the [while] loop: four bytes are appended to the generated
    prefix of [round_keys], whose length is [bytes_generated]. *)
Definition key_expand_temp (bytes_generated rcon_iter : nat) (round_keys : bytes) :
    bytes * nat :=
  let temp := slice (bytes_generated - 4) 4 round_keys in
  if (bytes_generated mod 32 =? 0)%nat then
    let temp := sub_word (rot_word temp) in
    (<[0%nat := Z.lxor (at_ temp 0) (at_ kAesRcon rcon_iter)]> temp, S rcon_iter)
  else if (bytes_generated mod 32 =? 16)%nat then (sub_word temp, rcon_iter)
  else (temp, rcon_iter).

Definition key_expand_store (round_keys temp : bytes) : bytes :=
  foldl (fun rk t => rk ++ [Z.lxor (at_ rk (length rk - 32)) t]) round_keys temp.

Fixpoint key_expand_loop (fuel rcon_iter : nat) (round_keys : bytes) : bytes :=
  match fuel with
  | O => round_keys
  | S fuel =>
    let bytes_generated := length round_keys in
    if (bytes_generated <? 240)%nat then
      let '(temp, rcon_iter) := key_expand_temp bytes_generated rcon_iter round_keys in
      key_expand_loop fuel rcon_iter (key_expand_store round_keys temp)
    else round_keys
  end.

Definition aes256_key_expand (key : bytes) : bytes :=
  key_expand_loop 52 1 (take 32 key).

Definition add_round_key (state round_key : bytes) : bytes := xor_bytes state round_key.

Definition sub_bytes (state : bytes) : bytes := sbox <$> state.

Definition shift_rows (state : bytes) : bytes :=
  let temp := at_ state in
  [temp 0; temp 5; temp 10; temp 15; temp 4; temp 9; temp 14; temp 3;
   temp 8; temp 13; temp 2; temp 7; temp 12; temp 1; temp 6; temp 11]%nat.

Definition mix_column (a0 a1 a2 a3 : Z) : bytes :=
  let t := Z.lxor (Z.lxor (Z.lxor a0 a1) a2) a3 in
  let u := a0 in
  [Z.lxor a0 (Z.lxor t (xtime (Z.lxor a0 a1)));
   Z.lxor a1 (Z.lxor t (xtime (Z.lxor a1 a2)));
   Z.lxor a2 (Z.lxor t (xtime (Z.lxor a2 a3)));
   Z.lxor a3 (Z.lxor t (xtime (Z.lxor a3 u)))].

Definition mix_columns (state : bytes) : bytes :=
  [0; 1; 2; 3]%nat ≫= fun i =>
    mix_column (at_ state (i * 4)) (at_ state (i * 4 + 1))
               (at_ state (i * 4 + 2)) (at_ state (i * 4 + 3)).

(** [for (round = 1; round < 14; round++)] *)
Definition aes_rounds (round_keys : bytes) (from n : nat) (state : bytes) : bytes :=
  foldl (fun state round =>
    add_round_key (mix_columns (shift_rows (sub_bytes state)))
      (slice (round * 16) 16 round_keys)) state (seq from n).

Definition aes256_encrypt_block (round_keys input : bytes) : bytes :=
  let state := add_round_key input (slice 0 16 round_keys) in
  let state := aes_rounds round_keys 1 13 state in
  add_round_key (shift_rows (sub_bytes state)) (slice 224 16 round_keys).

(** ** Counter mode *)
(** [for (i = 15; i >= 0; i--) { counter[i]++; if (counter[i] != 0) break; }] *)
Fixpoint increment_from (i : nat) (counter : bytes) : bytes :=
  let v := u8 (at_ counter i + 1) in
  let counter := <[i := v]> counter in
  if v =? 0 then match i with O => counter | S i => increment_from i counter end
  else counter.

Definition increment_counter (counter : bytes) : bytes := increment_from 15 counter.

Definition initial_counter (tx_counter : Z) : bytes :=
  [u8 (Z.land tx_counter 0xFF);
   u8 (Z.land (Z.shiftr tx_counter 8) 0xFF);
   u8 (Z.land (Z.shiftr tx_counter 16) 0xFF);
   u8 (Z.land (Z.shiftr tx_counter 24) 0xFF)] ++ replicate 12 0.

Fixpoint ctr_loop (fuel : nat) (round_keys counter input : bytes) (offset : nat)
    (output : bytes) : bytes :=
  match fuel with
  | O => output
  | S fuel =>
    if (offset <? length input)%nat then
      let keystream := aes256_encrypt_block round_keys counter in
      let block_len := ((length input - offset) `min` 16)%nat in
      let output := output ++ xor_bytes (slice offset block_len input)
                                        (take block_len keystream) in
      ctr_loop fuel round_keys (increment_counter counter) input (offset + block_len) output
    else output
  end.

Definition aes256_ctr_crypt (key : bytes) (tx_counter : Z) (input : bytes) : bytes :=
  ctr_loop (length input) (aes256_key_expand key) (initial_counter tx_counter) input 0 [].

(** ** Comparison and hex decoding *)
(** [diff |= a[i] ^ b[i]; ...; return diff == 0] *)
Definition constant_time_equal (a b : bytes) (len : nat) : bool :=
  foldl (fun diff i => u8 (Z.lor diff (Z.lxor (at_ a i) (at_ b i)))) 0 (seq 0 len) =? 0.

Definition hex_nibble (c : Z) : Z :=
  if (97 <=? c) && (c <=? 102) then c - 97 + 10
  else if (65 <=? c) && (c <=? 70) then c - 65 + 10
  else if (48 <=? c) && (c <=? 57) then c - 48
  else -1.

(** The return code of [hex_to_bytes] and the buffer it leaves in [out]. *)
Fixpoint hex_loop (n i : nat) (hex out : bytes) : Z * bytes :=
  match n with
  | O => (0, out)
  | S n =>
    let hi_n := hex_nibble (at_ hex (i * 2)) in
    let lo_n := hex_nibble (at_ hex (i * 2 + 1)) in
    if (hi_n <? 0) || (lo_n <? 0) then (-1, out)
    else hex_loop n (S i) hex (<[i := u8 (Z.lor (Z.shiftl hi_n 4) lo_n)]> out)
  end.

Definition hex_to_bytes (hex out : bytes) : Z * bytes * nat :=
  let len := length hex in
  if negb (len mod 2 =? 0)%nat then (-1, out, 0%nat)
  else let '(rc, out) := hex_loop (len / 2) 0 hex out in (rc, out, (len / 2)%nat).

(** ** HMAC and key derivation *)
Class Hmac := {
  hmac : bytes -> bytes -> bytes;
  hmac_length key data : length (hmac key data) = 32%nat;
  hmac_ok key data : bytes_ok (hmac key data)
}.

Record CryptoState := {
  g_psk : bytes;
  g_psk_set : bool
}.
#[export] Instance eta_crypto_state : Eta CryptoState := fun s =>
  Build_CryptoState (g_psk s) (g_psk_set s).

Definition kHkdfSalt : bytes := replicate 32 0.

Section crypto.
  Context `{Hmac}.

Definition hmac_sha256 (key data : bytes) : bytes := hmac key data.

Definition espnow_crypto_hmac_sha256 (key data : bytes) : bytes := hmac_sha256 key data.

Definition hkdf_extract (salt ikm : bytes) : bytes := hmac_sha256 salt ikm.

Definition hkdf_block (counter : Z) (t info : bytes) : bytes :=
  (if counter =? 1 then info else t ++ info) ++ [counter].

Fixpoint hkdf_loop (fuel : nat) (prk info t out : bytes) (counter : Z)
    (offset out_len : nat) : bytes :=
  match fuel with
  | O => out
  | S fuel =>
    if (offset <? out_len)%nat then
      let counter := u8 (counter + 1) in
      let t := hmac_sha256 prk (hkdf_block counter t info) in
      let copy := if (offset + 32 <=? out_len)%nat then 32%nat else (out_len - offset)%nat in
      hkdf_loop fuel prk info t (out ++ take copy t) counter (offset + copy) out_len
    else out
  end.

Definition hkdf_expand (prk info : bytes) (out_len : nat) : bytes :=
  hkdf_loop out_len prk info [] [] 0 0 out_len.

(** ** The public operations *)
Definition derive_psk_from_string (input : bytes) : bytes :=
  hkdf_expand (hkdf_extract kHkdfSalt input) (str "esp-tree-psk") 32.

Definition espnow_crypto_init (psk_input : bytes) (s : CryptoState) : Z * CryptoState :=
  let input_len := length psk_input in
  let '(ok, psk) :=
    if (input_len =? 64)%nat then
      let '(rc, psk, len) := hex_to_bytes psk_input (g_psk s) in
      ((rc =? 0) && (len =? 32)%nat, psk)
    else (false, g_psk s) in
  if ok then (0, s <| g_psk := psk |> <| g_psk_set := true |>)
  else if (input_len =? 0)%nat then
    (-1, s <| g_psk := replicate 32 0 |> <| g_psk_set := false |>)
  else (0, s <| g_psk := derive_psk_from_string psk_input |> <| g_psk_set := true |>).

Definition espnow_crypto_derive_session_key (s : CryptoState)
    (bridge_nonce remote_nonce : bytes) : bytes :=
  if negb (g_psk_set s) then replicate 32 0
  else
    let info := take 16 bridge_nonce ++ take 16 remote_nonce in
    let prk := hkdf_extract kHkdfSalt (g_psk s) in
    hkdf_expand prk info 32.

(** The bytes a tag authenticates: header bytes 2 to 12 and the payload. *)
Definition tag_data (header_bytes payload : bytes) : bytes :=
  slice 2 11 header_bytes ++ payload.

Definition espnow_crypto_psk_tag (s : CryptoState) (header_bytes payload : bytes) : bytes :=
  if negb (g_psk_set s) then replicate (Z.to_nat ESPNOW_PSK_TAG_LEN) 0
  else take (Z.to_nat ESPNOW_PSK_TAG_LEN)
         (hmac_sha256 (g_psk s) (tag_data header_bytes payload)).

Definition espnow_crypto_verify_psk_tag (s : CryptoState)
    (header_bytes payload received_psk_tag : bytes) : Z :=
  if negb (g_psk_set s) then 0
  else
    let computed := espnow_crypto_psk_tag s header_bytes payload in
    if constant_time_equal computed received_psk_tag (Z.to_nat ESPNOW_PSK_TAG_LEN)
    then 1 else 0.

Definition espnow_crypto_session_tag (session_key header_bytes ciphertext : bytes) : bytes :=
  take (Z.to_nat ESPNOW_SESSION_TAG_LEN)
    (hmac_sha256 session_key (tag_data header_bytes ciphertext)).

Definition espnow_crypto_verify_session_tag
    (session_key header_bytes ciphertext received_session_tag : bytes) : Z :=
  let computed := espnow_crypto_session_tag session_key header_bytes ciphertext in
  if constant_time_equal computed received_session_tag (Z.to_nat ESPNOW_SESSION_TAG_LEN)
  then 1 else 0.

(** [None] is the return code -1; a null session key is the empty list. *)
Definition espnow_crypto_crypt (s : CryptoState) (session_key : bytes) (tx_counter : Z)
    (payload_in : bytes) : option bytes :=
  if negb (g_psk_set s) || (length session_key =? 0)%nat then None
  else Some (aes256_ctr_crypt session_key tx_counter payload_in).
End crypto.

(** ** The published cipher (FIPS 197)

    Bytes are elements of GF(2^8); the state is a 4x4 matrix stored column by
    column, [s[r, c]] at index [r + 4c]. *)
Module FIPS197.
Definition gf_double (b : Z) : Z :=
  let d := 2 * b in if d <? 256 then d else Z.lxor d 0x11B.

Fixpoint gf_mul_bits (n : nat) (a b : Z) : Z :=
  match n with
  | O => 0
  | S n => Z.lxor (if Z.odd a then b else 0) (gf_mul_bits n (a / 2) (gf_double b))
  end.
Definition gf_mul : Z -> Z -> Z := gf_mul_bits 8.

(** The multiplicative inverse, [b^254], with 0 mapped to 0. *)
Definition gf_inv (b : Z) : Z := Nat.iter 254 (gf_mul b) 1.

(** [b_i xor b_(i+4) xor b_(i+5) xor b_(i+6) xor b_(i+7) xor c_i], c = 0x63. *)
Definition affine_bit (b i : Z) : bool :=
  foldl xorb (Z.testbit 0x63 i) ((fun k => Z.testbit b ((i + k) mod 8)) <$> [0; 4; 5; 6; 7]).
Definition affine (b : Z) : Z :=
  foldr (fun i acc => 2 * acc + Z.b2z (affine_bit b i)) 0 (zseq 0 8).

Definition SubByte (b : Z) : Z := affine (gf_inv b).
Definition SubBytes (s : bytes) : bytes := SubByte <$> s.

Definition cell (s : bytes) (r c : nat) : Z := at_ s (r + 4 * c).
Definition by_cells (f : nat -> nat -> Z) : bytes :=
  (fun i => f (i mod 4)%nat (i / 4)%nat) <$> seq 0 16.

Definition ShiftRows (s : bytes) : bytes :=
  by_cells (fun r c => cell s r ((c + r) mod 4)).

(** The circulant matrix of the polynomial 03 x^3 + 01 x^2 + 01 x + 02. *)
Definition mix_coef (r k : nat) : Z := at_ [2; 3; 1; 1] ((k + 4 - r) mod 4).
Definition MixColumns (s : bytes) : bytes :=
  by_cells (fun r c =>
    foldr Z.lxor 0 ((fun k => gf_mul (mix_coef r k) (cell s k c)) <$> [0; 1; 2; 3]%nat)).

Definition SubWord (w : bytes) : bytes := SubByte <$> w.
Definition RotWord (w : bytes) : bytes := drop 1 w ++ take 1 w.
Definition Rcon (j : nat) : bytes := [Nat.iter (j - 1) gf_double 1; 0; 0; 0].

(** [w[i]] from the words before it, for Nk = 8. *)
Definition next_word (ws : list bytes) : bytes :=
  let i := length ws in
  let temp := nth (i - 1) ws [] in
  let temp :=
    if (i mod 8 =? 0)%nat then xor_bytes (SubWord (RotWord temp)) (Rcon (i / 8))
    else if (i mod 8 =? 4)%nat then SubWord temp
    else temp in
  xor_bytes (nth (i - 8) ws []) temp.

Definition KeyExpansion (key : bytes) : list bytes :=
  Nat.iter 52 (fun ws => ws ++ [next_word ws])
    ((fun i => slice (4 * i) 4 key) <$> seq 0 8).

Definition AddRoundKey (s : bytes) (ws : list bytes) (round : nat) : bytes :=
  xor_bytes s (mjoin (slice (4 * round) 4 ws)).

Definition Cipher (ws : list bytes) (input : bytes) : bytes :=
  let s := AddRoundKey input ws 0 in
  let s := foldl (fun s round =>
    AddRoundKey (MixColumns (ShiftRows (SubBytes s))) ws round) s (seq 1 13) in
  AddRoundKey (ShiftRows (SubBytes s)) ws 14.
End FIPS197.

(** ** Facts about bytes, by enumeration *)
Lemma sbox_spec b : byte_range b -> sbox b = FIPS197.SubByte b.
Proof.
  intros Hb. apply Z.eqb_eq.
  apply (byte_cases (fun b => sbox b =? FIPS197.SubByte b)); [by vm_compute|done].
Qed.

Lemma sbox_byte b : byte_range b -> byte_range (sbox b).
Proof.
  intros Hb. assert (byteb (sbox b) = true) as Hs.
  { apply (byte_cases (fun b => byteb (sbox b))); [by vm_compute|done]. }
  unfold byteb in Hs. zprop. done.
Qed.

Lemma xtime_spec b : byte_range b -> xtime b = FIPS197.gf_double b.
Proof.
  intros Hb. apply Z.eqb_eq.
  apply (byte_cases (fun b => xtime b =? FIPS197.gf_double b)); [by vm_compute|done].
Qed.

Lemma xtime_byte b : byte_range (xtime b).
Proof. apply u8_range. Qed.

Lemma xtime_lxor a b :
  byte_range a -> byte_range b -> xtime (Z.lxor a b) = Z.lxor (xtime a) (xtime b).
Proof.
  intros Ha Hb. apply Z.eqb_eq.
  apply (byte_cases (fun b => xtime (Z.lxor a b) =? Z.lxor (xtime a) (xtime b))); [|done].
  apply (byte_cases (fun a => forallb (fun b =>
    xtime (Z.lxor a b) =? Z.lxor (xtime a) (xtime b)) (zseq 0 256))); [by vm_compute|done].
Qed.

Lemma gf_mul_small b : byte_range b ->
  FIPS197.gf_mul 1 b = b /\ FIPS197.gf_mul 2 b = xtime b /\
  FIPS197.gf_mul 3 b = Z.lxor (xtime b) b.
Proof.
  intros Hb. rewrite <-!Z.eqb_eq, <-!andb_true_iff.
  apply (byte_cases (fun b => (FIPS197.gf_mul 1 b =? b) && ((FIPS197.gf_mul 2 b =? xtime b) &&
    (FIPS197.gf_mul 3 b =? Z.lxor (xtime b) b)))); [by vm_compute|done].
Qed.
#[export] Hint Resolve sbox_byte xtime_byte lxor_byte : esp.

(** Equalities of exclusive ors, bit by bit. *)
Ltac lxor_bits :=
  apply Z.bits_inj'; intros ? _; rewrite ?Z.lxor_spec, ?Z.bits_0;
  repeat match goal with |- context [Z.testbit ?a ?n] => destruct (Z.testbit a n) end;
  reflexivity.

(** ** The state keeps its shape *)
Definition block (s : bytes) : Prop := length s = 16%nat /\ bytes_ok s.

Lemma length_xor_bytes a b : length (xor_bytes a b) = (length a `min` length b)%nat.
Proof. apply length_zip_with. Qed.

Lemma xor_bytes_ok a b : bytes_ok a -> bytes_ok b -> bytes_ok (xor_bytes a b).
Proof.
  intros Ha Hb. unfold xor_bytes. apply Forall_zip_with_fst with (P := byte_range); [done|].
  eapply Forall_impl; [exact Hb|]. intros y Hy x Hx. by apply lxor_byte.
Qed.

Lemma block_xor a b : block a -> block b -> block (xor_bytes a b).
Proof.
  intros [La Ha] [Lb Hb]. split; [|by apply xor_bytes_ok].
  rewrite length_xor_bytes. lia.
Qed.

Lemma block_sub_bytes s : block s -> block (sub_bytes s).
Proof.
  intros [Hl Hs]. split; [by unfold sub_bytes; rewrite length_fmap|].
  unfold sub_bytes. apply Forall_fmap. eapply Forall_impl; [exact Hs|]. apply sbox_byte.
Qed.

Lemma block_shift_rows s : block s -> block (shift_rows s).
Proof. intros [Hl Hs]. split; [done|]. repeat constructor; by apply at_byte. Qed.

Lemma block_mix_columns s : block s -> block (mix_columns s).
Proof.
  intros [Hl Hs]. split; [done|].
  unfold mix_columns, mix_column. cbn.
  repeat constructor; repeat apply lxor_byte; eauto with esp.
Qed.

(** ** Each step is the published one *)
Lemma sub_bytes_spec s : bytes_ok s -> sub_bytes s = FIPS197.SubBytes s.
Proof. intros Hs. apply Forall_fmap_ext_1. eapply Forall_impl; [exact Hs|]. apply sbox_spec. Qed.

Lemma shift_rows_spec s : shift_rows s = FIPS197.ShiftRows s.
Proof. reflexivity. Qed.

Lemma mix_column_spec a0 a1 a2 a3 :
  byte_range a0 -> byte_range a1 -> byte_range a2 -> byte_range a3 ->
  mix_column a0 a1 a2 a3 =
    let g := FIPS197.gf_mul in
    [foldr Z.lxor 0 [g 2 a0; g 3 a1; g 1 a2; g 1 a3];
     foldr Z.lxor 0 [g 1 a0; g 2 a1; g 3 a2; g 1 a3];
     foldr Z.lxor 0 [g 1 a0; g 1 a1; g 2 a2; g 3 a3];
     foldr Z.lxor 0 [g 3 a0; g 1 a1; g 1 a2; g 2 a3]].
Proof.
  intros H0 H1 H2 H3. unfold mix_column. rewrite !xtime_lxor by done.
  destruct (gf_mul_small a0 H0) as (E01 & E02 & E03).
  destruct (gf_mul_small a1 H1) as (E11 & E12 & E13).
  destruct (gf_mul_small a2 H2) as (E21 & E22 & E23).
  destruct (gf_mul_small a3 H3) as (E31 & E32 & E33).
  cbv zeta. rewrite E01, E02, E03, E11, E12, E13, E21, E22, E23, E31, E32, E33.
  cbn [foldr]. repeat (apply (f_equal2 cons); [lxor_bits|]). reflexivity.
Qed.

Lemma mix_columns_spec s : bytes_ok s -> mix_columns s = FIPS197.MixColumns s.
Proof.
  intros Hs. unfold mix_columns. cbn [mbind list_bind].
  rewrite !mix_column_spec by (by apply at_byte). reflexivity.
Qed.

(** ** The key schedule *)
Definition word (w : bytes) : Prop := length w = 4%nat /\ bytes_ok w.

Lemma word_cells w : word w -> w = [at_ w 0; at_ w 1; at_ w 2; at_ w 3].
Proof. intros [Hl _]. by repeat (destruct w as [|? w]; try discriminate Hl). Qed.

Lemma mjoin_cons {A} (w : list A) ws : mjoin (w :: ws) = w ++ mjoin ws.
Proof. reflexivity. Qed.

Lemma length_words ws : Forall word ws -> length (mjoin ws) = (4 * length ws)%nat.
Proof.
  induction 1 as [|w ws [Hw _] Hws IH]; [done|]. rewrite mjoin_cons, length_app.
  cbn [length]. lia.
Qed.

Lemma words_ok ws : Forall word ws -> bytes_ok (mjoin ws).
Proof.
  induction 1 as [|w ws [_ Hw] Hws IH]; [constructor|]. by apply Forall_app_2.
Qed.

Lemma slice_words k n ws :
  Forall word ws -> slice (4 * k) (4 * n) (mjoin ws) = mjoin (slice k n ws).
Proof.
  intros Hws. revert k n.
  induction Hws as [|w ws [Hw _] Hws IH]; intros k n.
  { unfold slice. cbn. by rewrite !drop_nil, !take_nil. }
  rewrite mjoin_cons. destruct k as [|k].
  - destruct n as [|n]; [done|]. unfold slice. rewrite Nat.mul_0_r, !drop_0.
    rewrite firstn_cons, mjoin_cons, take_app_ge by lia. f_equal.
    specialize (IH 0%nat n). unfold slice in IH. rewrite Nat.mul_0_r, !drop_0 in IH.
    rewrite <-IH. f_equal. lia.
  - rewrite (slice_app_skip w (mjoin ws) _ _ 4) by (done || lia).
    replace (4 * S k - 4)%nat with (4 * k)%nat by lia. rewrite IH. done.
Qed.

Lemma slice_word k ws :
  Forall word ws -> (k < length ws)%nat -> slice (4 * k) 4 (mjoin ws) = nth k ws [].
Proof.
  intros Hws Hk. rewrite (slice_words k 1) by done.
  destruct (lookup_lt_is_Some_2 ws k Hk) as [w Hw].
  unfold slice. rewrite (drop_S _ w _ Hw). cbn. rewrite app_nil_r.
  by rewrite nth_lookup, Hw.
Qed.

Lemma nth_word k ws : Forall word ws -> (k < length ws)%nat -> word (nth k ws []).
Proof.
  intros Hws Hk. destruct (lookup_lt_is_Some_2 ws k Hk) as [w Hw].
  rewrite nth_lookup, Hw. by eapply Forall_lookup_1 in Hws.
Qed.

Lemma word_sub_word w : word w -> sub_word w = FIPS197.SubWord w /\ word (sub_word w).
Proof.
  intros [Hl Hw]. split.
  - transitivity (sbox <$> w); [|by apply (sub_bytes_spec w)].
    by repeat (destruct w as [|? w]; try discriminate Hl).
  - split; [done|]. repeat constructor; by apply sbox_byte, at_byte.
Qed.

Lemma word_rot_word w : word w -> rot_word w = FIPS197.RotWord w /\ word (rot_word w).
Proof.
  intros Hw. split.
  - by rewrite (word_cells w Hw).
  - split; [done|]. repeat constructor; apply at_byte, Hw.
Qed.

Lemma word_xor a b : word a -> word b -> word (xor_bytes a b).
Proof.
  intros [La Ha] [Lb Hb]. split; [rewrite length_xor_bytes; lia|by apply xor_bytes_ok].
Qed.

Lemma rcon_spec j : (1 <= j < 8)%nat ->
  FIPS197.Rcon j = [at_ kAesRcon j; 0; 0; 0] /\ word (FIPS197.Rcon j).
Proof.
  intros Hj. destruct j as [|[|[|[|[|[|[|[|j]]]]]]]]; try lia;
    (split; [reflexivity|split; [reflexivity|by apply byteb_ok]]).
Qed.

Lemma key_expand_store_spec rk w temp :
  (32 <= length rk)%nat -> word w -> word temp ->
  slice (length rk - 32) 4 rk = w ->
  key_expand_store rk temp = rk ++ xor_bytes w temp.
Proof.
  intros Hrk Hw Ht Hs.
  assert (forall k, (k < 4)%nat -> at_ rk (length rk - 32 + k) = at_ w k) as Hat
    by (intros k Hk; by rewrite <-Hs, at_slice).
  rewrite (word_cells w Hw), (word_cells temp Ht). unfold key_expand_store. cbn [foldl].
  rewrite <-!(assoc_L (++)). cbn [app xor_bytes zip_with].
  rewrite !length_app. cbn [length].
  rewrite !at_app_l by (rewrite ?length_app; cbn [length]; lia).
  replace (length rk - 32)%nat with (length rk - 32 + 0)%nat at 1 by lia.
  replace (length rk + 1 - 32)%nat with (length rk - 32 + 1)%nat by lia.
  replace (length rk + 2 - 32)%nat with (length rk - 32 + 2)%nat by lia.
  replace (length rk + 3 - 32)%nat with (length rk - 32 + 3)%nat by lia.
  by rewrite !Hat by lia.
Qed.

(** The temporary word of the loop, and the published one. *)
Definition fips_temp (ws : list bytes) : bytes :=
  let i := length ws in
  let temp := nth (i - 1) ws [] in
  if (i mod 8 =? 0)%nat then
    xor_bytes (FIPS197.SubWord (FIPS197.RotWord temp)) (FIPS197.Rcon (i / 8))
  else if (i mod 8 =? 4)%nat then FIPS197.SubWord temp else temp.

Lemma key_expand_temp_spec ws :
  Forall word ws -> (8 <= length ws < 60)%nat ->
  key_expand_temp (4 * length ws) ((length ws + 7) / 8) (mjoin ws) =
    (fips_temp ws, ((length ws + 8) / 8)%nat) /\ word (fips_temp ws).
Proof.
  intros Hws Hi. unfold key_expand_temp, fips_temp. set (i := length ws) in *.
  replace (4 * i - 4)%nat with (4 * (i - 1))%nat by lia.
  rewrite slice_word by (done || unfold i; lia).
  assert (word (nth (i - 1) ws [])) as Hw by (apply nth_word; [done|unfold i; lia]).
  set (w := nth (i - 1) ws []) in *. clearbody w i. clear ws Hws.
  destruct (word_rot_word w Hw) as [Er Hr]. destruct (word_sub_word w Hw) as [Es Hsw].
  destruct (word_sub_word _ Hr) as [Ers Hrs].
  replace ((4 * i) mod 32)%nat with (4 * (i mod 8))%nat
    by (change 32%nat with (4 * 8)%nat; rewrite Nat.Div0.mul_mod_distr_l; done).
  pose proof (Nat.div_mod_eq i 8) as Ei. pose proof (Nat.mod_upper_bound i 8 ltac:(lia)) as Hm.
  destruct (Nat.eqb_spec (i mod 8) 0) as [E0|E0].
  - rewrite E0, Nat.mul_0_r, Nat.eqb_refl.
    destruct (rcon_spec (i / 8)) as [Erc Hrc]; [lia|].
    replace ((i + 7) / 8)%nat with (i / 8)%nat
      by (apply (Nat.div_unique _ _ _ 7); lia).
    replace ((i + 8) / 8)%nat with (S (i / 8))
      by (apply (Nat.div_unique _ _ _ 0); lia).
    rewrite <-Er, <-Ers, Erc. split; [|apply word_xor; [done|by rewrite <-Erc]].
    f_equal. cbn. rewrite !Z.lxor_0_r. done.
  - destruct (Nat.eqb_spec (4 * (i mod 8)) 0) as [?|_]; [lia|].
    replace ((i + 7) / 8)%nat with ((i + 8) / 8)%nat
      by (rewrite <-(Nat.div_unique (i + 8) 8 (i / 8 + 1) (i mod 8)) by lia;
          apply (Nat.div_unique _ _ _ (i mod 8 - 1)); lia).
    destruct (Nat.eqb_spec (i mod 8) 4) as [E4|E4].
    + rewrite E4, Nat.eqb_refl, <-Es. done.
    + destruct (Nat.eqb_spec (4 * (i mod 8)) 16) as [?|_]; [lia|]. done.
Qed.

Definition add_word (ws : list bytes) : list bytes := ws ++ [FIPS197.next_word ws].

Lemma key_expand_loop_spec n ws :
  Forall word ws -> (8 <= length ws)%nat -> (length ws + n = 60)%nat ->
  key_expand_loop n ((length ws + 7) / 8) (mjoin ws) = mjoin (Nat.iter n add_word ws) /\
  Forall word (Nat.iter n add_word ws) /\ length (Nat.iter n add_word ws) = 60%nat.
Proof.
  revert ws. induction n as [|n IH]; intros ws Hws H8 Hn.
  { split_and!; [done|done|simpl; lia]. }
  destruct (key_expand_temp_spec ws) as [Et Ht]; [done|lia|].
  assert (word (nth (length ws - 8) ws [])) as Hw8 by (apply nth_word; [done|lia]).
  assert (word (FIPS197.next_word ws)) as Hnw by (by apply word_xor).
  rewrite Nat.iter_succ_r. destruct (IH (add_word ws)) as (IH1 & IH2 & IH3).
  { by apply Forall_app_2; [|constructor]. }
  { unfold add_word. rewrite length_app. simpl. lia. }
  { unfold add_word. rewrite length_app. simpl. lia. }
  split_and!; [|done|done]. rewrite <-IH1. cbn [key_expand_loop].
  rewrite length_words by done.
  destruct (Nat.ltb_spec (4 * length ws) 240) as [_|?]; [|lia].
  rewrite Et. f_equal.
  - unfold add_word. rewrite length_app. cbn [length]. f_equal. lia.
  - rewrite (key_expand_store_spec _ (nth (length ws - 8) ws [])).
    + unfold add_word. rewrite join_app. cbn. by rewrite app_nil_r.
    + rewrite length_words by done. lia.
    + done.
    + done.
    + rewrite length_words by done.
      replace (4 * length ws - 32)%nat with (4 * (length ws - 8))%nat by lia.
      apply slice_word; [done|lia].
Qed.

Lemma key_words key :
  length key = 32%nat -> bytes_ok key ->
  mjoin ((fun i => slice (4 * i) 4 key) <$> seq 0 8) = key /\
  Forall word ((fun i => slice (4 * i) 4 key) <$> seq 0 8).
Proof.
  intros Hl Hk. split.
  - cbn [seq fmap list_fmap mjoin list_join Nat.mul Nat.add]. rewrite app_nil_r.
    repeat (rewrite slice_join by reflexivity). cbn [Nat.add]. rewrite <-Hl. apply slice_0_all.
  - apply Forall_fmap, Forall_seq. intros i Hi. cbn. split; [|by apply slice_ok].
    apply length_slice_in. lia.
Qed.

Lemma key_expand_spec key :
  length key = 32%nat -> bytes_ok key ->
  aes256_key_expand key = mjoin (FIPS197.KeyExpansion key) /\
  Forall word (FIPS197.KeyExpansion key) /\ length (FIPS197.KeyExpansion key) = 60%nat.
Proof.
  intros Hl Hk. destruct (key_words key Hl Hk) as [Ej Hw].
  unfold aes256_key_expand. rewrite take_ge by lia. rewrite <-Ej at 1.
  apply (key_expand_loop_spec 52 _ Hw); cbn; lia.
Qed.

(** ** The cipher *)
Lemma round_key_block ws r :
  Forall word ws -> length ws = 60%nat -> (r < 15)%nat ->
  slice (16 * r) 16 (mjoin ws) = mjoin (slice (4 * r) 4 ws) /\
  block (slice (16 * r) 16 (mjoin ws)).
Proof.
  intros Hws Hl Hr. split.
  - replace (16 * r)%nat with (4 * (4 * r))%nat by lia. by apply (slice_words (4 * r) 4).
  - split; [apply length_slice_in; rewrite length_words by done; lia|].
    by apply slice_ok, words_ok.
Qed.

Lemma round_spec ws s r :
  Forall word ws -> length ws = 60%nat -> (r < 15)%nat -> block s ->
  add_round_key (mix_columns (shift_rows (sub_bytes s))) (slice (r * 16) 16 (mjoin ws)) =
    FIPS197.AddRoundKey (FIPS197.MixColumns (FIPS197.ShiftRows (FIPS197.SubBytes s))) ws r /\
  block (add_round_key (mix_columns (shift_rows (sub_bytes s))) (slice (r * 16) 16 (mjoin ws))).
Proof.
  intros Hws Hl Hr Hs. rewrite (Nat.mul_comm r 16).
  destruct (round_key_block ws r Hws Hl Hr) as [E Hb].
  split.
  - unfold add_round_key, FIPS197.AddRoundKey.
    rewrite E, sub_bytes_spec, shift_rows_spec, mix_columns_spec; [done| |apply Hs].
    rewrite <-shift_rows_spec, <-sub_bytes_spec by apply Hs.
    by apply block_shift_rows, block_sub_bytes.
  - apply block_xor; [|done]. by apply block_mix_columns, block_shift_rows, block_sub_bytes.
Qed.

Lemma rounds_spec ws l s :
  Forall word ws -> length ws = 60%nat -> Forall (fun r => r < 15)%nat l -> block s ->
  foldl (fun s r => add_round_key (mix_columns (shift_rows (sub_bytes s)))
                      (slice (r * 16) 16 (mjoin ws))) s l =
  foldl (fun s r => FIPS197.AddRoundKey
           (FIPS197.MixColumns (FIPS197.ShiftRows (FIPS197.SubBytes s))) ws r) s l /\
  block (foldl (fun s r => add_round_key (mix_columns (shift_rows (sub_bytes s)))
                      (slice (r * 16) 16 (mjoin ws))) s l).
Proof.
  intros Hws Hl Hrs. revert s. induction Hrs as [|r l Hr Hrs IH]; intros s Hs; [done|].
  cbn [foldl]. destruct (round_spec ws s r Hws Hl Hr Hs) as [E Hb].
  rewrite <-E. by apply IH.
Qed.

Lemma length_encrypt_block rk c :
  length rk = 240%nat -> length (aes256_encrypt_block rk c) = 16%nat.
Proof.
  intros Hl. unfold aes256_encrypt_block, add_round_key. rewrite length_xor_bytes.
  rewrite (length_slice_in rk) by lia. done.
Qed.

Lemma length_key_expand key : length key = 32%nat -> bytes_ok key ->
  length (aes256_key_expand key) = 240%nat.
Proof.
  intros Hl Hk. destruct (key_expand_spec key Hl Hk) as (-> & Hw & E).
  rewrite length_words by done. lia.
Qed.

Lemma cipher_spec key input :
  length key = 32%nat -> bytes_ok key -> block input ->
  aes256_encrypt_block (aes256_key_expand key) input =
    FIPS197.Cipher (FIPS197.KeyExpansion key) input /\
  block (aes256_encrypt_block (aes256_key_expand key) input).
Proof.
  intros Hl Hk Hin. destruct (key_expand_spec key Hl Hk) as (-> & Hws & H60).
  set (ws := FIPS197.KeyExpansion key) in *. clearbody ws.
  destruct (round_key_block ws 0 Hws H60) as [E0 B0]; [lia|].
  destruct (round_key_block ws 14 Hws H60) as [E14 B14]; [lia|].
  unfold aes256_encrypt_block, FIPS197.Cipher, aes_rounds.
  assert (block (xor_bytes input (slice 0 16 (mjoin ws)))) as Hb by (by apply block_xor).
  destruct (rounds_spec ws (seq 1 13) (xor_bytes input (slice 0 16 (mjoin ws))) Hws H60)
    as [Er Br]; [apply Forall_seq; lia|exact Hb|].
  unfold FIPS197.AddRoundKey at 1 3.
  change (4 * 0)%nat with 0%nat in *. change (16 * 0)%nat with 0%nat in *.
  change (4 * 14)%nat with 56%nat in *. change (16 * 14)%nat with 224%nat in *.
  rewrite <-E0, <-E14, <-Er. unfold add_round_key. split.
  - rewrite shift_rows_spec, sub_bytes_spec by apply Br. reflexivity.
  - apply block_xor; [|exact B14]. by apply block_shift_rows, block_sub_bytes.
Qed.

(** C33: the cipher of the firmware is AES-256: for every 32-byte key and 16-byte
    block, the table-driven key schedule and rounds compute the FIPS 197 cipher
    written over GF(2^8). *)
Theorem aes_refines_fips197 key input :
  length key = 32%nat -> bytes_ok key -> block input ->
  aes256_encrypt_block (aes256_key_expand key) input =
    FIPS197.Cipher (FIPS197.KeyExpansion key) input /\
  block (aes256_encrypt_block (aes256_key_expand key) input).
Proof. apply cipher_spec. Qed.

(** ** The counter *)
Definition be_num (c : bytes) : Z := le_num (rev c).

(** The counter after [i] blocks of a packet. *)
Definition counter_block (tx_counter : Z) (i : nat) : bytes :=
  Nat.iter i increment_counter (initial_counter tx_counter).

(** Incrementing the last byte of [c] with carry. *)
Fixpoint le_succ (l : bytes) : bytes :=
  match l with
  | [] => []
  | b :: l => if u8 (b + 1) =? 0 then 0 :: le_succ l else u8 (b + 1) :: l
  end.

Lemma le_succ_spec l : bytes_ok l ->
  le_num (le_succ l) = (le_num l + 1) mod 256 ^ Z.of_nat (length l) /\
  length (le_succ l) = length l /\ bytes_ok (le_succ l).
Proof.
  induction 1 as [|b l Hb Hl (IH1 & IH2 & IH3)].
  { split_and!; [by rewrite Z.mod_1_r|done|constructor]. }
  unfold byte_range in Hb. cbn [le_succ length]. unfold le_num. fold le_num.
  rewrite Nat2Z.inj_succ, Z.pow_succ_r by lia.
  pose proof (le_num_range l Hl) as Hr.
  assert (0 < 256 ^ Z.of_nat (length l)) by (apply Z.pow_pos_nonneg; lia).
  destruct (decide (b = 255)) as [->|Hne].
  - change (u8 (255 + 1) =? 0) with true. cbn iota. unfold le_num. fold le_num.
    rewrite IH1. split_and!; [|cbn [length]; by rewrite IH2|
      constructor; [unfold byte_range; lia|done]].
    replace (255 + 256 * le_num l + 1) with (256 * (le_num l + 1)) by lia.
    rewrite Z.mul_mod_distr_l by lia. lia.
  - rewrite u8_small by lia. destruct (Z.eqb_spec (b + 1) 0); [lia|].
    unfold le_num. fold le_num. split_and!; [|done|].
    + rewrite Z.mod_small; lia.
    + constructor; [unfold byte_range; lia|done].
Qed.

Lemma increment_from_spec pre b post :
  increment_from (length pre) (pre ++ b :: post) = rev (le_succ (b :: rev pre)) ++ post.
Proof.
  revert b post. induction pre as [|x pre IH] using rev_ind; intros b post.
  - cbn [length increment_from app rev le_succ]. unfold at_. cbn [nth list_insert app].
    destruct (u8 (b + 1) =? 0) eqn:E; cbn; [|done]. by apply Z.eqb_eq in E as ->.
  - rewrite length_app. cbn [length]. rewrite Nat.add_comm. cbn [Nat.add increment_from].
    assert (at_ ((pre ++ [x]) ++ b :: post) (S (length pre)) = b) as ->.
    { unfold at_. rewrite app_nth2 by (rewrite length_app; cbn; lia).
      rewrite length_app. cbn [length]. replace (_ - _)%nat with 0%nat by lia. done. }
    assert (forall v, <[S (length pre) := v]> ((pre ++ [x]) ++ b :: post)
                      = pre ++ x :: v :: post) as Ei.
    { intros v. rewrite insert_app_r_alt by (rewrite length_app; cbn; lia).
      rewrite length_app. cbn [length]. replace (_ - _)%nat with 0%nat by lia.
      by rewrite <-(assoc_L (++)). }
    rewrite Ei. rewrite rev_unit. cbn [le_succ].
    destruct (u8 (b + 1) =? 0) eqn:E.
    + apply Z.eqb_eq in E. rewrite E, IH. cbn [rev le_succ].
      by rewrite <-(assoc_L (++)).
    + cbn [rev]. rewrite rev_involutive. by rewrite <-!(assoc_L (++)).
Qed.

Lemma increment_counter_spec c :
  length c = 16%nat -> bytes_ok c ->
  be_num (increment_counter c) = (be_num c + 1) mod 2 ^ 128 /\ block (increment_counter c).
Proof.
  intros Hl Hc. assert (exists pre b, c = pre ++ [b] /\ length pre = 15%nat) as (pre & b & -> & Hp).
  { destruct c as [|b pre _] using rev_ind; [done|]. rewrite length_app in Hl.
    cbn in Hl. exists pre, b. split; [done|lia]. }
  unfold increment_counter. rewrite <-Hp, increment_from_spec, app_nil_r.
  unfold be_num. rewrite rev_involutive, rev_unit.
  assert (bytes_ok (b :: rev pre)) as Hr.
  { apply Forall_app in Hc as [Hpre Hb]. constructor; [by inversion Hb|].
    by apply Forall_rev. }
  destruct (le_succ_spec _ Hr) as (-> & Hlen & Hok). cbn [length] in *.
  rewrite length_rev, Hp in *. split; [done|]. split; [by rewrite length_rev|].
  by apply Forall_rev.
Qed.

Lemma initial_counter_block tx : block (initial_counter tx).
Proof. split; [done|]. by repeat constructor; try apply u8_range. Qed.

Lemma counter_block_num tx i :
  be_num (counter_block tx i) = (be_num (initial_counter tx) + Z.of_nat i) mod 2 ^ 128 /\
  block (counter_block tx i).
Proof.
  induction i as [|i [IH1 [IH2 IH3]]].
  - pose proof (initial_counter_block tx) as [Hl Hb]. split; [|done]. cbn [counter_block Nat.iter].
    rewrite Z.add_0_r, Z.mod_small; [done|].
    pose proof (le_num_range (rev (initial_counter tx)) ltac:(by apply Forall_rev)) as Hr.
    by rewrite length_rev in Hr.
  - change (counter_block tx (S i)) with (increment_counter (counter_block tx i)).
    destruct (increment_counter_spec _ IH2 IH3) as [-> Hb]. split; [|done].
    rewrite IH1, Zplus_mod_idemp_l. f_equal. lia.
Qed.

Lemma initial_counter_le tx :
  0 <= tx < 2 ^ 32 -> initial_counter tx = le_bytes 4 tx ++ replicate 12 0.
Proof.
  intros Htx. unfold initial_counter. f_equal.
  change 0xFF with (Z.ones 8). rewrite !Z.land_ones, !Z.shiftr_div_pow2 by lia.
  unfold u8, le_bytes. rewrite !Z.mod_mod by done. rewrite !Z.div_div by done. done.
Qed.

Lemma initial_counter_num tx : 0 <= tx < 2 ^ 32 ->
  be_num (initial_counter tx) = 2 ^ 96 * be_num (le_bytes 4 tx) /\
  0 <= be_num (le_bytes 4 tx) < 2 ^ 32.
Proof.
  intros Htx. rewrite initial_counter_le by done. split.
  - unfold be_num. rewrite rev_app_distr, le_num_app. reflexivity.
  - unfold be_num. pose proof (le_num_range (rev (le_bytes 4 tx))) as Hr.
    rewrite length_rev, length_le_bytes in Hr. apply Hr, Forall_rev, le_bytes_ok.
Qed.

Lemma be_num_inj a b :
  bytes_ok a -> bytes_ok b -> length a = length b -> be_num a = be_num b -> a = b.
Proof.
  intros Ha Hb Hl E. rewrite <-(rev_involutive a), <-(rev_involutive b). f_equal.
  rewrite <-(le_bytes_le_num (rev a)), <-(le_bytes_le_num (rev b)) by (by apply Forall_rev).
  unfold be_num in E. by rewrite E, !length_rev, Hl.
Qed.

Lemma counter_block_inj tx tx' i i' :
  0 <= tx < 2 ^ 32 -> 0 <= tx' < 2 ^ 32 ->
  Z.of_nat i < 2 ^ 96 -> Z.of_nat i' < 2 ^ 96 ->
  counter_block tx i = counter_block tx' i' -> tx = tx' /\ i = i'.
Proof.
  intros Ht Ht' Hi Hi' E.
  destruct (counter_block_num tx i) as [N _]. destruct (counter_block_num tx' i') as [N' _].
  rewrite E, N' in N. clear N'.
  destruct (initial_counter_num tx Ht) as [Et Hr].
  destruct (initial_counter_num tx' Ht') as [Et' Hr'].
  rewrite Et, Et', !Z.mod_small in N by lia.
  assert (be_num (le_bytes 4 tx) = be_num (le_bytes 4 tx') /\ i = i') as [Eb ->] by lia.
  split; [|done].
  apply be_num_inj in Eb; [|apply le_bytes_ok|apply le_bytes_ok|by rewrite !length_le_bytes].
  by apply (le_bytes_inj 4).
Qed.

(** ** Counter mode as a key stream *)
Fixpoint keystream_blocks (n : nat) (rk counter : bytes) : bytes :=
  match n with
  | O => []
  | S n => aes256_encrypt_block rk counter ++ keystream_blocks n rk (increment_counter counter)
  end.

Lemma length_keystream_blocks n rk c :
  length rk = 240%nat -> length (keystream_blocks n rk c) = (16 * n)%nat.
Proof.
  intros Hl. revert c. induction n as [|n IH]; intros c; [done|]. cbn [keystream_blocks].
  rewrite length_app, IH, length_encrypt_block by done. lia.
Qed.

Lemma zip_with_take_r {A B C} (f : A -> B -> C) l k :
  zip_with f l (take (length l) k) = zip_with f l k.
Proof.
  revert k. induction l as [|x l IH]; intros [|y k]; [done..|]. cbn. by rewrite IH.
Qed.

Lemma xor_stream_app a b ks ks' :
  length a = length ks -> xor_bytes (a ++ b) (ks ++ ks') = xor_bytes a ks ++ xor_bytes b ks'.
Proof. apply zip_with_app. Qed.

Lemma xor_bytes_nil ks : xor_bytes [] ks = [].
Proof. reflexivity. Qed.

#[local] Opaque aes256_encrypt_block.

Lemma ctr_loop_spec fuel rk c input offset output :
  length rk = 240%nat -> (length input - offset <= 16 * fuel)%nat ->
  ctr_loop fuel rk c input offset output =
    output ++ xor_bytes (drop offset input) (keystream_blocks fuel rk c).
Proof.
  intros Hl. revert c offset output. induction fuel as [|fuel IH]; intros c offset output Hf.
  { rewrite drop_ge by lia. rewrite xor_bytes_nil, app_nil_r. reflexivity. }
  cbn [ctr_loop]. destruct (Nat.ltb_spec offset (length input)) as [Ho|Ho].
  2: { rewrite drop_ge by lia. rewrite xor_bytes_nil, app_nil_r. reflexivity. }
  rewrite IH by lia. rewrite <-(assoc_L (++)). f_equal. cbn [keystream_blocks].
  destruct (Nat.min_spec (length input - offset) 16) as [[Hlt ->]|[Hge ->]].
  - rewrite (drop_ge input) by lia. rewrite xor_bytes_nil, app_nil_r.
    unfold slice. rewrite take_ge by (rewrite length_drop; lia).
    unfold xor_bytes.
    replace (length input - offset)%nat with (length (drop offset input)) by apply length_drop.
    rewrite zip_with_take_r. rewrite <-(zip_with_take_r _ _ (_ ++ _)).
    rewrite take_app_le by (rewrite length_drop, length_encrypt_block by done; lia).
    by rewrite zip_with_take_r.
  - rewrite (take_ge (aes256_encrypt_block rk c)) by (by rewrite length_encrypt_block).
    rewrite <-xor_stream_app by
      (rewrite length_slice_in by lia; by rewrite length_encrypt_block).
    f_equal. unfold slice. rewrite <-drop_drop. apply take_drop.
Qed.

(** The key stream of a packet. *)
Definition packet_keystream (key : bytes) (tx_counter : Z) (n : nat) : bytes :=
  keystream_blocks n (aes256_key_expand key) (initial_counter tx_counter).

Lemma ctr_crypt_stream key tx input :
  length key = 32%nat -> bytes_ok key ->
  aes256_ctr_crypt key tx input = xor_bytes input (packet_keystream key tx (length input)).
Proof.
  intros Hl Hk. unfold aes256_ctr_crypt. rewrite ctr_loop_spec; [done| |lia].
  by apply length_key_expand.
Qed.

Lemma length_ctr_crypt key tx input :
  length key = 32%nat -> bytes_ok key -> length (aes256_ctr_crypt key tx input) = length input.
Proof.
  intros Hl Hk. rewrite ctr_crypt_stream, length_xor_bytes by done.
  unfold packet_keystream. rewrite length_keystream_blocks by (by apply length_key_expand). lia.
Qed.

Lemma keystream_ok key n c :
  length key = 32%nat -> bytes_ok key -> block c ->
  bytes_ok (keystream_blocks n (aes256_key_expand key) c).
Proof.
  intros Hl Hk. revert c. induction n as [|n IH]; intros c Hc; [constructor|].
  cbn [keystream_blocks]. apply Forall_app. split.
  - by apply cipher_spec.
  - apply IH. destruct Hc. by apply increment_counter_spec.
Qed.

Lemma ctr_crypt_ok key tx input :
  length key = 32%nat -> bytes_ok key -> bytes_ok input ->
  bytes_ok (aes256_ctr_crypt key tx input).
Proof.
  intros Hl Hk Hi. rewrite ctr_crypt_stream by done. apply xor_bytes_ok; [done|].
  apply keystream_ok; [done..|apply initial_counter_block].
Qed.

Lemma xor_bytes_cancel a ks : (length a <= length ks)%nat -> xor_bytes (xor_bytes a ks) ks = a.
Proof.
  revert ks. induction a as [|x a IH]; intros [|y ks] Hl; cbn in *; [done..|lia|].
  f_equal; [lxor_bits|]. apply IH. lia.
Qed.

Lemma ctr_crypt_involutive key tx input :
  length key = 32%nat -> bytes_ok key ->
  aes256_ctr_crypt key tx (aes256_ctr_crypt key tx input) = input.
Proof.
  intros Hl Hk. rewrite (ctr_crypt_stream _ _ (aes256_ctr_crypt _ _ _)), length_ctr_crypt by done.
  rewrite ctr_crypt_stream by done. apply xor_bytes_cancel.
  unfold packet_keystream. rewrite length_keystream_blocks by (by apply length_key_expand). lia.
Qed.

Lemma keystream_blocks_at n rk c k j :
  length rk = 240%nat -> (k < n)%nat -> (j < 16)%nat ->
  at_ (keystream_blocks n rk c) (16 * k + j) =
    at_ (aes256_encrypt_block rk (Nat.iter k increment_counter c)) j.
Proof.
  intros Hl. revert c k. induction n as [|n IH]; intros c k Hk Hj; [lia|].
  cbn [keystream_blocks]. unfold at_ in *. destruct k as [|k].
  - rewrite app_nth1 by (rewrite length_encrypt_block by done; lia). done.
  - rewrite app_nth2 by (rewrite length_encrypt_block by done; lia).
    rewrite length_encrypt_block by done.
    replace (16 * S k + j - 16)%nat with (16 * k + j)%nat by lia.
    rewrite IH by lia. by rewrite Nat.iter_succ_r.
Qed.

Lemma xor_bytes_lookup a ks p b :
  a !! p = Some b -> (p < length ks)%nat -> xor_bytes a ks !! p = Some (Z.lxor b (at_ ks p)).
Proof.
  intros Ha Hp. unfold xor_bytes. rewrite lookup_zip_with, Ha, at_lookup.
  by destruct (lookup_lt_is_Some_2 ks p Hp) as [y ->].
Qed.

Lemma ctr_crypt_at key tx input p b :
  length key = 32%nat -> bytes_ok key -> input !! p = Some b ->
  aes256_ctr_crypt key tx input !! p =
    Some (Z.lxor b (at_ (aes256_encrypt_block (aes256_key_expand key)
                           (counter_block tx (p / 16))) (p mod 16))).
Proof.
  intros Hl Hk Hp. pose proof (length_key_expand key Hl Hk) as Hrk.
  pose proof (lookup_lt_Some _ _ _ Hp) as Hlt.
  pose proof (Nat.mod_upper_bound p 16 ltac:(lia)) as Hm.
  rewrite ctr_crypt_stream by done. unfold packet_keystream, counter_block.
  rewrite (xor_bytes_lookup _ _ _ b);
    [|exact Hp|rewrite length_keystream_blocks by exact Hrk; lia].
  rewrite <-(keystream_blocks_at (length input)); [|exact Hrk| |exact Hm].
  - rewrite <-Nat.div_mod_eq. reflexivity.
  - apply (Nat.le_lt_trans _ p); [|exact Hlt]. apply Nat.Div0.div_le_upper_bound. lia.
Qed.

(** ** Tag comparison *)
Lemma lxor_byte_zero a b : Z.lxor a b = 0 <-> a = b.
Proof. split; [apply Z.lxor_eq|intros ->; apply Z.lxor_nilpotent]. Qed.

Lemma compare_fold_spec a b l diff :
  bytes_ok a -> bytes_ok b -> byte_range diff ->
  foldl (fun diff i => u8 (Z.lor diff (Z.lxor (at_ a i) (at_ b i)))) diff l = 0 <->
  diff = 0 /\ Forall (fun i => at_ a i = at_ b i) l.
Proof.
  intros Ha Hb. revert diff. induction l as [|i l IH]; intros diff Hd; cbn [foldl].
  { by split; [intros ->|intros [-> _]]. }
  assert (byte_range (Z.lor diff (Z.lxor (at_ a i) (at_ b i)))) as Hr
    by (apply lor_byte; [done|]; apply lxor_byte; by apply at_byte).
  rewrite u8_small by exact Hr. rewrite IH by done.
  rewrite Z.lor_eq_0_iff, lxor_byte_zero, Forall_cons. tauto.
Qed.

Lemma at_ext a b n :
  (n <= length a)%nat -> (n <= length b)%nat ->
  Forall (fun i => at_ a i = at_ b i) (seq 0 n) <-> take n a = take n b.
Proof.
  intros La Lb. rewrite Forall_seq. split.
  - intros Hi. apply list_eq. intros i. destruct (decide (i < n)%nat) as [Hlt|Hge].
    + rewrite !lookup_take_lt by done.
      destruct (lookup_lt_is_Some_2 a i) as [x Hx]; [lia|].
      destruct (lookup_lt_is_Some_2 b i) as [y Hy]; [lia|].
      specialize (Hi i ltac:(lia)). cbn in Hi. rewrite !at_lookup, Hx, Hy in Hi. cbn in Hi.
      by rewrite Hx, Hy, Hi.
    + by rewrite !lookup_take_ge by lia.
  - intros E i [_ Hi]. cbn in Hi. rewrite !at_lookup.
    assert (take n a !! i = take n b !! i) as Ei by (by rewrite E).
    rewrite !lookup_take_lt in Ei by done. by rewrite Ei.
Qed.

Lemma constant_time_equal_spec a b n :
  bytes_ok a -> bytes_ok b -> (n <= length a)%nat -> (n <= length b)%nat ->
  constant_time_equal a b n = bool_decide (take n a = take n b).
Proof.
  intros Ha Hb La Lb. apply eq_bool_prop_intro. rewrite bool_decide_spec.
  unfold constant_time_equal. rewrite Is_true_true, Z.eqb_eq.
  rewrite compare_fold_spec by (done || (unfold byte_range; lia)).
  rewrite <-at_ext by done. tauto.
Qed.

(** ** Hex decoding: the reference decoder and encoder *)
Fixpoint hex_decode (hex : bytes) : option bytes :=
  match hex with
  | [] => Some []
  | hi :: lo :: hex =>
    if (hex_nibble hi <? 0) || (hex_nibble lo <? 0) then None
    else l ← hex_decode hex; Some (hex_nibble hi * 16 + hex_nibble lo :: l)
  | _ => None
  end.

Definition hex_digit (n : Z) : Z := if n <? 10 then 48 + n else 87 + n.
Definition hex_encode (l : bytes) : bytes :=
  l ≫= fun b => [hex_digit (b / 16); hex_digit (b mod 16)].

Lemma hex_nibble_range c : -1 <= hex_nibble c < 16.
Proof. unfold hex_nibble. repeat case_match; zprop; lia. Qed.

Lemma hex_decode_encode l : bytes_ok l -> hex_decode (hex_encode l) = Some l.
Proof.
  induction 1 as [|b l Hb Hl IH]; [done|]. change (hex_encode (b :: l)) with (hex_digit (b / 16) :: hex_digit (b mod 16) :: hex_encode l).
  cbn [hex_decode]. rewrite IH. cbn [mbind option_bind].
  assert (forall n, 0 <= n < 16 -> hex_nibble (hex_digit n) = n) as Hn.
  { intros n Hn. unfold hex_nibble, hex_digit. repeat case_match; zprop; lia. }
  unfold byte_range in Hb.
  assert (0 <= b / 16 < 16) by (split; [apply Z.div_pos|apply Z.div_lt_upper_bound]; lia).
  pose proof (Z.mod_pos_bound b 16 ltac:(lia)).
  rewrite !Hn by done.
  destruct (Z.ltb_spec (b / 16) 0), (Z.ltb_spec (b mod 16) 0); try lia. cbn. do 2 f_equal.
  rewrite (Z.div_mod b 16) at 3 by lia. lia.
Qed.

Lemma nibbles_byte hi lo : 0 <= hi < 16 -> 0 <= lo < 16 ->
  u8 (Z.lor (Z.shiftl hi 4) lo) = hi * 16 + lo.
Proof.
  intros Hhi Hlo. apply Z.eqb_eq.
  apply (zseq_cases (fun lo => u8 (Z.lor (Z.shiftl hi 4) lo) =? hi * 16 + lo) 0 16); [|lia].
  apply (zseq_cases (fun hi => forallb (fun lo =>
    u8 (Z.lor (Z.shiftl hi 4) lo) =? hi * 16 + lo) (zseq 0 16)) 0 16); [by vm_compute|lia].
Qed.

(** The loop writes the decoded prefix; its result agrees with the decoder. *)
Lemma hex_loop_spec n pre hex out :
  length hex = (2 * n)%nat -> (length out = length pre / 2 + n)%nat ->
  (length pre mod 2 = 0)%nat ->
  match hex_decode hex with
  | Some l => hex_loop n (length pre / 2) (pre ++ hex) out =
                (0, take (length pre / 2) out ++ l)
  | None => (hex_loop n (length pre / 2) (pre ++ hex) out).1 = -1
  end.
Proof.
  revert pre hex out. induction n as [|n IH]; intros pre hex out Hh Ho Hp.
  { destruct hex; [|done]. cbn [hex_loop hex_decode].
    rewrite !app_nil_r, take_ge by lia. done. }
  destruct hex as [|hi [|lo hex]]; [cbn in Hh; lia..|]. cbn [length] in Hh.
  pose proof (Nat.div_mod_eq (length pre) 2) as Ep.
  cbn [hex_loop hex_decode].
  assert (at_ (pre ++ hi :: lo :: hex) (length pre / 2 * 2) = hi) as ->.
  { unfold at_. rewrite app_nth2 by lia. by replace (_ - _)%nat with 0%nat by lia. }
  assert (at_ (pre ++ hi :: lo :: hex) (length pre / 2 * 2 + 1) = lo) as ->.
  { unfold at_. rewrite app_nth2 by lia. by replace (_ - _)%nat with 1%nat by lia. }
  destruct ((hex_nibble hi <? 0) || (hex_nibble lo <? 0)) eqn:E; [done|]. zprop.
  pose proof (hex_nibble_range hi). pose proof (hex_nibble_range lo).
  rewrite nibbles_byte by lia. set (b := hex_nibble hi * 16 + hex_nibble lo).
  specialize (IH (pre ++ [hi; lo]) hex (<[(length pre / 2)%nat := b]> out)).
  rewrite length_app, length_insert, <-(assoc_L (++)) in IH. cbn [length app] in IH.
  replace ((length pre + 2) / 2)%nat with (S (length pre / 2)) in IH
    by (apply (Nat.div_unique _ _ _ 0); lia).
  replace ((length pre + 2) mod 2)%nat with 0%nat in IH
    by (apply (Nat.mod_unique _ _ (S (length pre / 2))); lia).
  specialize (IH ltac:(lia) ltac:(lia) eq_refl).
  destruct (hex_decode hex) as [l|]; [|exact IH]. cbn [mbind option_bind]. rewrite IH. f_equal.
  rewrite (take_S_r _ _ b) by (apply list_lookup_insert_eq; lia).
  rewrite take_insert_ge by lia. by rewrite <-(assoc_L (++)).
Qed.

Lemma hex_decode_length hex l : hex_decode hex = Some l -> length hex = (2 * length l)%nat.
Proof.
  revert l. assert (forall n l hex, (length hex <= n)%nat -> hex_decode hex = Some l ->
    length hex = (2 * length l)%nat) as Hn; [|intros l; by apply (Hn (length hex))].
  clear hex. induction n as [|n IH]; intros l [|hi [|lo hex]] Hl Hd; cbn in *; simplify_eq; try done; try lia.
  destruct (_ || _); [done|]. destruct (hex_decode hex) as [l'|] eqn:E; [|done].
  cbn in Hd. simplify_eq. apply IH in E; cbn; lia.
Qed.

Lemma hex_to_bytes_spec hex out :
  length hex = 64%nat -> length out = 32%nat ->
  match hex_decode hex with
  | Some l => hex_to_bytes hex out = (0, l, 32%nat)
  | None => (hex_to_bytes hex out).1.1 = -1
  end.
Proof.
  intros Hh Ho. pose proof (hex_loop_spec 32 [] hex out) as Hs.
  unfold hex_to_bytes. rewrite Hh. cbn [Nat.modulo negb].
  specialize (Hs ltac:(lia) ltac:(done) eq_refl). cbn [length app] in Hs.
  change (0 / 2)%nat with 0%nat in Hs. change (64 / 2)%nat with 32%nat.
  change (negb _) with false. cbn iota.
  destruct (hex_decode hex) as [l|]; [by rewrite Hs|].
  by destruct (hex_loop 32 0 hex out).
Qed.

(** ** Key derivation *)
Section derivation.
  Context `{Hmac}.

(** RFC 5869: [T(0)] is empty, [T(i) = HMAC(PRK, T(i-1) | info | i)], and the
    output keying material is the prefix of [T(1) | T(2) | ...]. *)
Fixpoint rfc5869_T (prk info : bytes) (i : nat) : bytes :=
  match i with
  | O => []
  | S j => hmac prk (rfc5869_T prk info j ++ info ++ [Z.of_nat i])
  end.

Definition rfc5869_okm (prk info : bytes) (n : nat) : bytes :=
  mjoin (rfc5869_T prk info <$> seq 1 n).

Definition rfc5869_expand (prk info : bytes) (len : nat) : bytes :=
  take len (rfc5869_okm prk info ((len + 31) / 32)).

Lemma okm_S prk info n :
  rfc5869_okm prk info (S n) = rfc5869_okm prk info n ++ rfc5869_T prk info (S n).
Proof.
  unfold rfc5869_okm. rewrite seq_S, fmap_app, join_app. cbn [fmap list_fmap mjoin list_join].
  by rewrite app_nil_r.
Qed.

Lemma length_okm prk info n : length (rfc5869_okm prk info n) = (32 * n)%nat.
Proof.
  induction n as [|n IH]; [done|]. rewrite okm_S, length_app, IH. cbn [rfc5869_T].
  rewrite hmac_length. lia.
Qed.

Lemma okm_prefix prk info n m len :
  (len <= 32 * n)%nat -> (len <= 32 * m)%nat ->
  take len (rfc5869_okm prk info n) = take len (rfc5869_okm prk info m).
Proof.
  assert (forall d n, (len <= 32 * n)%nat ->
    take len (rfc5869_okm prk info (n + d)) = take len (rfc5869_okm prk info n)) as Hd.
  { intros d k Hk. induction d as [|d IH]; [by rewrite Nat.add_0_r|].
    rewrite Nat.add_succ_r, okm_S, take_app_le; [done|]. rewrite length_okm. lia. }
  intros Hn Hm. destruct (decide (n <= m)%nat).
  - rewrite <-(Hd (m - n)%nat n) by done. do 2 f_equal. lia.
  - rewrite <-(Hd (n - m)%nat m) by done. do 2 f_equal. lia.
Qed.

Lemma hkdf_loop_spec fuel prk info k len :
  (32 * k <= len)%nat -> (len <= 32 * 255)%nat -> (len <= 32 * (k + fuel))%nat ->
  hkdf_loop fuel prk info (rfc5869_T prk info k) (rfc5869_okm prk info k)
    (Z.of_nat k) (32 * k) len = take len (rfc5869_okm prk info (k + fuel)).
Proof.
  revert k. induction fuel as [|fuel IH]; intros k Hk Hlen Hf.
  { cbn [hkdf_loop]. rewrite Nat.add_0_r in *. rewrite take_ge; [done|]. rewrite length_okm. lia. }
  cbn [hkdf_loop]. destruct (Nat.ltb_spec (32 * k) len) as [Hlt|Hge].
  2: { rewrite (okm_prefix _ _ _ k), take_ge by (rewrite ?length_okm; lia). done. }
  rewrite u8_small by lia.
  assert (hmac_sha256 prk (hkdf_block (Z.of_nat k + 1) (rfc5869_T prk info k) info) =
    rfc5869_T prk info (S k)) as ->.
  { cbn [rfc5869_T]. unfold hmac_sha256, hkdf_block. f_equal.
    replace (Z.of_nat (S k)) with (Z.of_nat k + 1) by lia.
    destruct k as [|k]; [done|]. destruct (Z.eqb_spec (Z.of_nat (S k) + 1) 1); [lia|].
    by rewrite <-(assoc_L (++)). }
  assert (length (rfc5869_T prk info (S k)) = 32%nat) as HT by (cbn; apply hmac_length).
  destruct (Nat.leb_spec (32 * k + 32) len) as [Hle|Hgt].
  - rewrite take_ge, <-okm_S by lia.
    replace (32 * k + 32)%nat with (32 * S k)%nat by lia.
    replace (Z.of_nat k + 1) with (Z.of_nat (S k)) by lia.
    rewrite IH by lia. do 2 f_equal. lia.
  - rewrite (okm_prefix _ _ _ (S k)), okm_S by lia.
    rewrite take_app_ge by (rewrite length_okm; lia). rewrite length_okm.
    destruct fuel as [|fuel]; cbn [hkdf_loop]; [done|].
    destruct (Nat.ltb_spec (32 * k + (len - 32 * k)) len); [lia|done].
Qed.

Lemma hkdf_expand_32 prk info : hkdf_expand prk info 32 = hmac prk (info ++ [1]).
Proof.
  unfold hkdf_expand.
  etransitivity; [apply (hkdf_loop_spec 32 prk info 0 32); lia|].
  rewrite (okm_prefix _ _ _ 1) by lia. unfold rfc5869_okm. cbn [seq fmap list_fmap mjoin list_join].
  rewrite app_nil_r. cbn [rfc5869_T app]. by rewrite take_ge by (by rewrite hmac_length).
Qed.

Lemma length_session_key s bn rn : length (espnow_crypto_derive_session_key s bn rn) = 32%nat.
Proof.
  unfold espnow_crypto_derive_session_key. destruct (negb _); [done|].
  by rewrite hkdf_expand_32, hmac_length.
Qed.

Lemma session_key_ok s bn rn : bytes_ok (espnow_crypto_derive_session_key s bn rn).
Proof.
  unfold espnow_crypto_derive_session_key. destruct (negb _).
  - apply Forall_replicate. unfold byte_range. lia.
  - rewrite hkdf_expand_32. apply hmac_ok.
Qed.

(** [hkdf_expand] is HKDF-Expand of RFC 5869 for every output length the
    RFC allows (at most 255 blocks): the counter never wraps and the loop ends. *)
Theorem hkdf_expand_rfc5869 prk info len :
  (len <= 255 * 32)%nat -> hkdf_expand prk info len = rfc5869_expand prk info len.
Proof.
  intros Hlen. unfold hkdf_expand, rfc5869_expand.
  etransitivity; [apply (hkdf_loop_spec len prk info 0 len); lia|].
  apply okm_prefix; [lia|].
  pose proof (Nat.div_mod_eq (len + 31) 32).
  pose proof (Nat.mod_upper_bound (len + 31) 32 ltac:(lia)). lia.
Qed.

(** The pre-shared key a configuration string denotes: 64 hex digits are the
    key itself, any other non-empty string is stretched with HKDF. *)
Definition psk_of (input : bytes) : option bytes :=
  let derived := Some (hmac (hmac (replicate 32 0) input) (str "esp-tree-psk" ++ [1])) in
  match input with
  | [] => None
  | _ =>
    if (length input =? 64)%nat then
      match hex_decode input with Some k => Some k | None => derived end
    else derived
  end.

(** [espnow_crypto_init]: the empty string is the only error and clears the
    key; 64 hex digits (either case) are decoded; every other string, a
    malformed 64-character one included, is stretched by HKDF, with no trace of
    the partially decoded buffer; the stored key is 32 bytes long. *)
Theorem crypto_init_spec input s :
  length (g_psk s) = 32%nat ->
  espnow_crypto_init input s =
    match psk_of input with
    | None => (-1, Build_CryptoState (replicate 32 0) false)
    | Some k => (0, Build_CryptoState k true)
    end /\
  length (g_psk (espnow_crypto_init input s).2) = 32%nat /\
  (forall l, bytes_ok l -> length l = 32%nat -> psk_of (hex_encode l) = Some l).
Proof.
  intros Hs. assert (derive_psk_from_string input =
    hmac (hmac (replicate 32 0) input) (str "esp-tree-psk" ++ [1])) as Ed by apply hkdf_expand_32.
  assert (espnow_crypto_init input s =
    match psk_of input with
    | None => (-1, Build_CryptoState (replicate 32 0) false)
    | Some k => (0, Build_CryptoState k true)
    end) as E.
  { unfold espnow_crypto_init, psk_of. rewrite <-Ed.
    destruct (Nat.eqb_spec (length input) 64) as [H64|H64].
    - pose proof (hex_to_bytes_spec input (g_psk s) H64 Hs) as Hx.
      destruct input as [|c input]; [done|].
      destruct (hex_decode (c :: input)) as [l|]; [by rewrite Hx|].
      destruct (hex_to_bytes (c :: input) (g_psk s)) as [[rc psk] len]. cbn in Hx.
      subst rc. by rewrite H64.
    - by destruct input as [|c input]. }
  split; [exact E|]. rewrite E. split.
  - unfold psk_of. destruct input as [|c input]; [done|].
    destruct (Nat.eqb_spec (length (c :: input)) 64) as [H64|_]; [|apply hmac_length].
    destruct (hex_decode (c :: input)) as [l|] eqn:El; [|apply hmac_length].
    apply hex_decode_length in El. cbn [snd g_psk]. lia.
  - intros l Hl H32. pose proof (hex_decode_encode l Hl) as Hd. unfold psk_of.
    pose proof (hex_decode_length _ _ Hd) as Hlen. rewrite H32 in Hlen.
    destruct (hex_encode l) as [|c t]; [done|]. by rewrite Hlen, Hd.
Qed.
End derivation.

(** ** Properties of the packet operations *)


Section packets.
  Context `{Hmac}.

Lemma psk_tag_ok s h p :
  length (espnow_crypto_psk_tag s h p) = 4%nat /\ bytes_ok (espnow_crypto_psk_tag s h p).
Proof.
  unfold espnow_crypto_psk_tag. destruct (negb _).
  - split; [done|]. apply Forall_replicate. unfold byte_range. lia.
  - split; [|apply Forall_take, hmac_ok]. rewrite length_take. unfold hmac_sha256.
    rewrite hmac_length. done.
Qed.

Lemma session_tag_ok k h c :
  length (espnow_crypto_session_tag k h c) = 8%nat /\
  bytes_ok (espnow_crypto_session_tag k h c).
Proof.
  unfold espnow_crypto_session_tag. split; [|apply Forall_take, hmac_ok].
  rewrite length_take. unfold hmac_sha256. rewrite hmac_length. done.
Qed.

Lemma verify_psk_tag_iff s h p tag :
  bytes_ok tag -> (4 <= length tag)%nat ->
  espnow_crypto_verify_psk_tag s h p tag = 1 <->
  g_psk_set s = true /\ take 4 tag = espnow_crypto_psk_tag s h p.
Proof.
  intros Ht Hl. destruct (psk_tag_ok s h p) as [Lp Op].
  unfold espnow_crypto_verify_psk_tag. change (Z.to_nat ESPNOW_PSK_TAG_LEN) with 4%nat.
  destruct (g_psk_set s); cbn [negb]; [|split; [done|intros [? _]; done]].
  rewrite constant_time_equal_spec by (done || lia). rewrite (take_ge _ 4) by lia.
  case_bool_decide; split; intuition congruence.
Qed.

Lemma verify_session_tag_iff k h c tag :
  bytes_ok tag -> (8 <= length tag)%nat ->
  espnow_crypto_verify_session_tag k h c tag = 1 <->
  take 8 tag = espnow_crypto_session_tag k h c.
Proof.
  intros Ht Hl. destruct (session_tag_ok k h c) as [Lp Op].
  unfold espnow_crypto_verify_session_tag. change (Z.to_nat ESPNOW_SESSION_TAG_LEN) with 8%nat.
  rewrite constant_time_equal_spec by (done || lia). rewrite (take_ge _ 8) by lia.
  case_bool_decide; split; intuition congruence.
Qed.

(** Tag verification accepts exactly the tag that would have been computed:
    the constant-time comparison is equality, a sender's own tag is always
    accepted, and without a pre-shared key every frame is refused. *)
Theorem tags_verify_exactly s k h p ptag stag :
  bytes_ok ptag -> length ptag = 4%nat -> bytes_ok stag -> length stag = 8%nat ->
  (espnow_crypto_verify_psk_tag s h p ptag = 1 <->
     g_psk_set s = true /\ ptag = espnow_crypto_psk_tag s h p) /\
  (espnow_crypto_verify_session_tag k h p stag = 1 <->
     stag = espnow_crypto_session_tag k h p) /\
  (g_psk_set s = true ->
     espnow_crypto_verify_psk_tag s h p (espnow_crypto_psk_tag s h p) = 1) /\
  espnow_crypto_verify_session_tag k h p (espnow_crypto_session_tag k h p) = 1.
Proof.
  intros Hp Lp Hs Ls. destruct (psk_tag_ok s h p) as [Lc Oc].
  destruct (session_tag_ok k h p) as [Ld Od].
  rewrite !verify_psk_tag_iff, !verify_session_tag_iff by (done || lia).
  rewrite !take_ge by lia. tauto.
Qed.

(** encryption round trip: decrypting with the same session key and counter
    gives the plaintext back, byte for byte and with the same length, and the
    operation fails only without a pre-shared key or a session key. *)
Theorem crypt_roundtrip s key tx payload :
  length key = 32%nat -> bytes_ok key -> g_psk_set s = true ->
  exists cipher,
    espnow_crypto_crypt s key tx payload = Some cipher /\
    length cipher = length payload /\
    espnow_crypto_crypt s key tx cipher = Some payload.
Proof.
  intros Hl Hk Hs. exists (aes256_ctr_crypt key tx payload).
  unfold espnow_crypto_crypt. rewrite Hs, Hl. cbn [negb orb Nat.eqb].
  by rewrite ctr_crypt_involutive, length_ctr_crypt.
Qed.

(** No key-stream block is used twice: byte [p] of a packet is encrypted
    with byte [p mod 16] of the cipher of counter block [p / 16], and under one
    session key two packets with different transmit counters, or two positions
    of one packet in different blocks, never share a counter block (up to 2^96
    blocks per packet, far beyond the radio's payload). *)
Theorem ctr_never_reuses_a_block key tx tx' input p b i i' :
  length key = 32%nat -> bytes_ok key -> input !! p = Some b ->
  0 <= tx < 2 ^ 32 -> 0 <= tx' < 2 ^ 32 ->
  Z.of_nat i < 2 ^ 96 -> Z.of_nat i' < 2 ^ 96 ->
  aes256_ctr_crypt key tx input !! p =
    Some (Z.lxor b (at_ (aes256_encrypt_block (aes256_key_expand key)
                           (counter_block tx (p / 16))) (p mod 16))) /\
  (counter_block tx i = counter_block tx' i' -> tx = tx' /\ i = i').
Proof.
  intros Hl Hk Hp Ht Ht' Hi Hi'.
  split; [by apply ctr_crypt_at|by apply counter_block_inj].
Qed.
(** What a tag authenticates of a frame header, read off its memory image. *)
Lemma tag_data_header h p :
  struct_ok h ->
  tag_data (to_bytes h) p =
    le_bytes 1 (packet_type h) ++ leaf_mac h ++ le_bytes 4 (tx_counter h) ++ p.
Proof.
  intros (_ & _ & _ & Hm & _ & _ & Ht & _). unfold tag_data. cbn [to_bytes packed_frame_header].
  rewrite (slice_app_skip _ _ _ _ 1) by (apply length_le_bytes || lia).
  rewrite (slice_app_skip _ _ _ _ 1) by (apply length_le_bytes || lia).
  cbn [Nat.sub]. rewrite !(assoc_L (++)).
  rewrite (slice_app_hit _ (psk_tag h)); [done|].
  rewrite !length_app, !length_le_bytes, Hm. done.
Qed.

(** a tag covers exactly the end-to-end fields: a relay may rewrite the
    protocol version, the hop byte and the tag field and both tags stay valid,
    while two frames whose authenticated bytes agree have the same packet
    type, leaf address, transmit counter and payload. *)
Theorem tags_cover_end_to_end_fields s k h h' p p' :
  struct_ok h -> struct_ok h' ->
  (packet_type h = packet_type h' -> leaf_mac h = leaf_mac h' ->
     tx_counter h = tx_counter h' ->
     espnow_crypto_psk_tag s (to_bytes h) p = espnow_crypto_psk_tag s (to_bytes h') p /\
     espnow_crypto_session_tag k (to_bytes h) p = espnow_crypto_session_tag k (to_bytes h') p) /\
  (tag_data (to_bytes h) p = tag_data (to_bytes h') p' ->
     packet_type h = packet_type h' /\ leaf_mac h = leaf_mac h' /\
     tx_counter h = tx_counter h' /\ p = p').
Proof.
  intros Hh Hh'. split.
  - intros Et Em Ec. unfold espnow_crypto_psk_tag, espnow_crypto_session_tag.
    rewrite !tag_data_header by done. by rewrite Et, Em, Ec.
  - rewrite !tag_data_header by done. intros E.
    destruct Hh as (_ & _ & Ht & Hm & _ & Hc & _), Hh' as (_ & _ & Ht' & Hm' & _ & Hc' & _).
    apply app_inj_1 in E as [Et E]; [|by rewrite !length_le_bytes].
    apply app_inj_1 in E as [Em E]; [|congruence].
    apply app_inj_1 in E as [Ec E]; [|by rewrite !length_le_bytes].
    by apply (le_bytes_inj 1) in Et; [|simpl; lia..]; apply (le_bytes_inj 4) in Ec; [|simpl; lia..].
Qed.
End packets.

(** ** Witnesses *)
(** A digest with the documented shape, for the concrete runs. *)
Definition toy_digest (key data : bytes) : bytes :=
  pad_to 32 ((fun b => b mod 256) <$> rev (key ++ data)).

#[local] Program Instance toy_hmac : Hmac := {| hmac := toy_digest |}.
Next Obligation. intros. apply length_pad_to. Qed.
Next Obligation.
  intros. apply pad_to_ok, Forall_fmap, Forall_true. intros x. apply Z.mod_pos_bound. lia.
Qed.

Definition demo_key : bytes := zseq 0 32.

Lemma demo_key_ok : bytes_ok demo_key.
Proof. by apply byteb_ok. Qed.

(** The example vector of FIPS 197, appendix C.3. *)
Definition fips_block : bytes :=
  [0x00;0x11;0x22;0x33;0x44;0x55;0x66;0x77;0x88;0x99;0xaa;0xbb;0xcc;0xdd;0xee;0xff].

Lemma aes_refines_fips197_witness :
  aes256_encrypt_block (aes256_key_expand demo_key) fips_block =
    [0x8e;0xa2;0xb7;0xca;0x51;0x67;0x45;0xbf;0xea;0xfc;0x49;0x90;0x4b;0x49;0x60;0x89] /\
  (aes256_encrypt_block (aes256_key_expand demo_key) fips_block =
    FIPS197.Cipher (FIPS197.KeyExpansion demo_key) fips_block /\
  block (aes256_encrypt_block (aes256_key_expand demo_key) fips_block)).
Proof.
  split; [by vm_compute|].
  apply aes_refines_fips197; [done|apply demo_key_ok|split; [done|by apply byteb_ok]].
Defined.

Definition demo_crypto : CryptoState := Build_CryptoState demo_key true.

Lemma hkdf_expand_rfc5869_witness :
  length (hkdf_expand demo_key [7] 80) = 80%nat /\
  hkdf_expand demo_key [7] 80 = rfc5869_expand demo_key [7] 80.
Proof. split; [by vm_compute|apply hkdf_expand_rfc5869; lia]. Defined.

Lemma crypto_init_spec_witness :
  espnow_crypto_init (hex_encode demo_key) demo_crypto =
    match psk_of (hex_encode demo_key) with
    | None => (-1, Build_CryptoState (replicate 32 0) false)
    | Some k => (0, Build_CryptoState k true)
    end /\
  length (g_psk (espnow_crypto_init (hex_encode demo_key) demo_crypto).2) = 32%nat /\
  (forall l, bytes_ok l -> length l = 32%nat -> psk_of (hex_encode l) = Some l).
Proof. apply (crypto_init_spec (hex_encode demo_key) demo_crypto). reflexivity. Defined.

Lemma tags_verify_exactly_witness :
  let h := zseq 0 17 in let ptag := [1; 2; 3; 4] in let stag := zseq 0 8 in
  (espnow_crypto_verify_psk_tag demo_crypto h [9] ptag = 1 <->
     g_psk_set demo_crypto = true /\ ptag = espnow_crypto_psk_tag demo_crypto h [9]) /\
  (espnow_crypto_verify_session_tag demo_key h [9] stag = 1 <->
     stag = espnow_crypto_session_tag demo_key h [9]) /\
  (g_psk_set demo_crypto = true -> espnow_crypto_verify_psk_tag demo_crypto h [9]
     (espnow_crypto_psk_tag demo_crypto h [9]) = 1) /\
  espnow_crypto_verify_session_tag demo_key h [9]
    (espnow_crypto_session_tag demo_key h [9]) = 1.
Proof.
  intros h ptag stag.
  apply (tags_verify_exactly demo_crypto demo_key h [9] ptag stag);
    [by apply byteb_ok|done|by apply byteb_ok|done].
Defined.

Lemma crypt_roundtrip_witness :
  exists cipher,
    espnow_crypto_crypt demo_crypto demo_key 5 (zseq 0 40) = Some cipher /\
    length cipher = length (zseq 0 40) /\
    espnow_crypto_crypt demo_crypto demo_key 5 cipher = Some (zseq 0 40).
Proof. apply crypt_roundtrip; [done|apply demo_key_ok|done]. Defined.

Lemma ctr_never_reuses_a_block_witness :
  aes256_ctr_crypt demo_key 5 (zseq 0 40) !! 33%nat =
    Some (Z.lxor 33 (at_ (aes256_encrypt_block (aes256_key_expand demo_key)
                           (counter_block 5 (33 / 16))) (33 mod 16))) /\
  (counter_block 5 2 = counter_block 6 0 -> 5 = 6 /\ 2%nat = 0%nat).
Proof.
  apply (ctr_never_reuses_a_block demo_key 5 6 (zseq 0 40) 33 33 2 0);
    [done|apply demo_key_ok|done|lia..].
Defined.

Definition demo_header : espnow_frame_header_t := {|
  protocol_version := 3; hop_count := 2; packet_type := 4; leaf_mac := [1; 2; 3; 4; 5; 6];
  tx_counter := 77; psk_tag := [0; 0; 0; 0] |}.

Lemma tags_cover_end_to_end_fields_witness :
  let h := demo_header in let h' := demo_header <| hop_count := 1 |> in
  (packet_type h = packet_type h' -> leaf_mac h = leaf_mac h' ->
     tx_counter h = tx_counter h' ->
     espnow_crypto_psk_tag demo_crypto (to_bytes h) [9] =
       espnow_crypto_psk_tag demo_crypto (to_bytes h') [9] /\
     espnow_crypto_session_tag demo_key (to_bytes h) [9] =
       espnow_crypto_session_tag demo_key (to_bytes h') [9]) /\
  (tag_data (to_bytes h) [9] = tag_data (to_bytes h') [8] ->
     packet_type h = packet_type h' /\ leaf_mac h = leaf_mac h' /\
     tx_counter h = tx_counter h' /\ [9] = [8]).
Proof.
  intros h h'. apply (tags_cover_end_to_end_fields demo_crypto demo_key h h' [9] [8]);
    (repeat split; try (by apply byteb_ok); cbn; lia).
Defined.
