(* ===== verification/ProtoMessages.v ===== *)
(** * ProtoMessages: the protobuf codec of the bridge's runtime API

    Models [src/device_code/components/esp_tree_bridge/bridge_api_proto_messages.h]
    and [.cpp]: the varint and field readers, the [Writer], the parsed messages,
    every [parse_*] function and every envelope encoder.

    A [(const uint8_t *, size_t)] pair is a byte list; a pointer that may be null
    is an [option].  A reader that returns [false] is [None]: its callers return
    at once and do not look at its outputs.  The [while (pos < len)] skeleton that
    every parser repeats is [parse_loop]; the body of each loop is a definition of
    its own ([envelope_field], [auth_field], ...).  The fuel of the loop is the
    length of the input plus one, enough because every field consumes a byte
    ([parse_loop_total]). *)
From S2P Require Import Prelude.

Definition kRuntimeApiVersion : Z := 2.
Definition kRuntimeHmacBytes : nat := 32.

Inductive EnvelopeField :=
  | AUTH_CHALLENGE | AUTH_RESPONSE | AUTH_OK | AUTH_FAILED | CLIENT_HELLO | FULL_SNAPSHOT
  | EVENT_BATCH | COMMAND_REQUEST | COMMAND_RESULT | CONFIG_COMMAND_REQUEST
  | CONFIG_COMMAND_RESULT | PING | PONG | STATE_RECEIPT | OTA_START_REQUEST
  | OTA_CHUNK_BATCH | OTA_ABORT_REQUEST | OTA_ACCEPTED | OTA_CHUNK_REQUEST | OTA_STATUS
  | OTA_ABORTED | ERROR.

Definition envelope_field_number (f : EnvelopeField) : Z :=
  match f with
  | AUTH_CHALLENGE => 10 | AUTH_RESPONSE => 11 | AUTH_OK => 12 | AUTH_FAILED => 13
  | CLIENT_HELLO => 14 | FULL_SNAPSHOT => 15 | EVENT_BATCH => 16 | COMMAND_REQUEST => 17
  | COMMAND_RESULT => 18 | CONFIG_COMMAND_REQUEST => 19 | CONFIG_COMMAND_RESULT => 20
  | PING => 21 | PONG => 22 | STATE_RECEIPT => 23 | OTA_START_REQUEST => 30
  | OTA_CHUNK_BATCH => 31 | OTA_ABORT_REQUEST => 32 | OTA_ACCEPTED => 33
  | OTA_CHUNK_REQUEST => 34 | OTA_STATUS => 35 | OTA_ABORTED => 36 | ERROR => 99
  end.

Inductive OtaState :=
  | OTA_STATE_UNSPECIFIED | OTA_STATE_IDLE | OTA_STATE_ANNOUNCING | OTA_STATE_TRANSFERRING
  | OTA_STATE_VERIFYING | OTA_STATE_SUCCESS | OTA_STATE_FAILED | OTA_STATE_ABORTED.

Definition ota_state_number (s : OtaState) : Z :=
  match s with
  | OTA_STATE_UNSPECIFIED => 0 | OTA_STATE_IDLE => 1 | OTA_STATE_ANNOUNCING => 2
  | OTA_STATE_TRANSFERRING => 3 | OTA_STATE_VERIFYING => 4 | OTA_STATE_SUCCESS => 5
  | OTA_STATE_FAILED => 6 | OTA_STATE_ABORTED => 7
  end.

(** ** Reading *)
Definition zigzag32 (value : Z) : Z :=
  Z.lxor (u32 (Z.shiftl (u32 value) 1)) (u32 (Z.shiftr value 31)).

Definition zigzag64 (value : Z) : Z :=
  Z.lxor (u64 (Z.shiftl (u64 value) 1)) (u64 (Z.shiftr value 63)).

(** [shift] takes the values 0, 7, ..., 63: ten rounds. *)
Fixpoint read_varint_loop (fuel : nat) (data : bytes) (pos : nat) (shift out : Z) :
    option (Z * nat) :=
  match fuel with
  | O => None
  | S fuel =>
    if (pos <? length data)%nat && (shift <? 64) then
      let byte := at_ data pos in
      let out := Z.lor out (u64 (Z.shiftl (Z.land byte 0x7F) shift)) in
      if Z.land byte 0x80 =? 0 then Some (out, S pos)
      else read_varint_loop fuel data (S pos) (u8 (shift + 7)) out
    else None
  end.

Definition read_varint (data : bytes) (pos : nat) : option (Z * nat) :=
  read_varint_loop 10 data pos 0 0.

(** The outputs of [read_field]; [value_len] is the length of [value]. *)
Record Field := {
  field : Z;
  wire : Z;
  value : option bytes;
  varint_value : Z
}.

Definition read_field (data : bytes) (pos : nat) : option (Field * nat) :=
  match read_varint data pos with
  | None => None
  | Some (tag, pos) =>
    let field := u32 (Z.shiftr tag 3) in
    let wire := u8 (Z.land tag 0x07) in
    if wire =? 0 then
      match read_varint data pos with
      | None => None
      | Some (v, pos) => Some (Build_Field field wire None v, pos)
      end
    else if wire =? 1 then
      if (length data <? pos + 8)%nat then None
      else Some (Build_Field field wire (Some (slice pos 8 data)) 0, (pos + 8)%nat)
    else if wire =? 2 then
      match read_varint data pos with
      | None => None
      | Some (n, pos) =>
        if Z.of_nat (length data - pos) <? n then None
        else
          let value_len := Z.to_nat n in
          Some (Build_Field field wire (Some (slice pos value_len data)) 0,
                (pos + value_len)%nat)
      end
    else None
  end.

Definition as_string (value : option bytes) : bytes := default [] value.

(** [std::to_string(uint64_t)] *)
Fixpoint decimal_loop (fuel : nat) (n : Z) (acc : bytes) : bytes :=
  match fuel with
  | O => acc
  | S fuel =>
    let acc := (48 + n mod 10) :: acc in
    if n / 10 =? 0 then acc else decimal_loop fuel (n / 10) acc
  end.
Definition to_string_u64 (n : Z) : bytes := decimal_loop 20 n [].

(** [std::to_string(double)], that is ["%f"]: the exact binary64 value rounded
    half to even to six decimals. *)
Definition round_div (n d : Z) : Z :=
  let q := n / d in let r := n mod d in
  if (d <? 2 * r) || ((2 * r =? d) && Z.odd q) then q + 1 else q.

Definition to_string_double (image : bytes) : bytes :=
  let b := le_num image in
  let sign := if Z.testbit b 63 then str "-" else [] in
  let exponent := Z.land (Z.shiftr b 52) 2047 in
  let fraction := Z.land b (Z.ones 52) in
  if exponent =? 2047 then sign ++ (if fraction =? 0 then str "inf" else str "nan")
  else
    let mantissa := if exponent =? 0 then fraction else fraction + 2 ^ 52 in
    let e := (if exponent =? 0 then 1 else exponent) - 1075 in
    let micro :=
      if 0 <=? e then mantissa * 2 ^ e * 10 ^ 6
      else round_div (mantissa * 10 ^ 6) (2 ^ (- e)) in
    let int_digits := decimal_loop 310 (micro / 10 ^ 6) [] in
    let frac_digits := decimal_loop 7 (10 ^ 6 + micro mod 10 ^ 6) [] in
    sign ++ int_digits ++ str "." ++ drop 1 frac_digits.

Definition value_to_string (f : Field) : bytes :=
  if wire f =? 0 then to_string_u64 (varint_value f)
  else if (wire f =? 1) && (length (as_string (value f)) =? 8)%nat then
    to_string_double (as_string (value f))
  else if wire f =? 2 then as_string (value f)
  else [].

(** ** Writing

    A [Writer] is the vector it appends to. *)
Abbreviation Writer := bytes.

Fixpoint raw_varint_loop (fuel : nat) (value : Z) (out_ : Writer) : Writer :=
  match fuel with
  | O => out_
  | S fuel =>
    if 0x80 <=? value then
      raw_varint_loop fuel (Z.shiftr value 7) (out_ ++ [u8 (Z.lor value 0x80)])
    else out_ ++ [u8 value]
  end.

(** A 64-bit value has at most ten groups of seven bits. *)
Definition raw_varint (value : Z) (out_ : Writer) : Writer := raw_varint_loop 10 value out_.

Definition tag (field wire_type : Z) (out_ : Writer) : Writer :=
  raw_varint (Z.lor (u64 (Z.shiftl field 3)) wire_type) out_.

Definition varint (field value : Z) (out_ : Writer) : Writer :=
  raw_varint value (tag field 0 out_).

Definition sint32 (field value : Z) (out_ : Writer) : Writer :=
  raw_varint (zigzag32 value) (tag field 0 out_).

Definition sint64 (field value : Z) (out_ : Writer) : Writer :=
  raw_varint (zigzag64 value) (tag field 0 out_).

Definition boolean (field : Z) (value : bool) (out_ : Writer) : Writer :=
  varint field (if value then 1 else 0) out_.

Definition fixed64 (field value : Z) (out_ : Writer) : Writer :=
  foldl (fun out i => out ++ [u8 (Z.land (Z.shiftr value (8 * i)) 0xFF)])
    (tag field 1 out_) (zseq 0 8).

Definition bytes_ (field : Z) (data : option bytes) (len : nat) (out_ : Writer) : Writer :=
  match data with
  | None => if negb (len =? 0)%nat then out_
            else raw_varint (Z.of_nat len) (tag field 2 out_)
  | Some data =>
    let out_ := raw_varint (Z.of_nat len) (tag field 2 out_) in
    if (0 <? len)%nat then out_ ++ take len data else out_
  end.

Definition string_ (field : Z) (value : bytes) (out_ : Writer) : Writer :=
  if (length value =? 0)%nat then out_ else bytes_ field (Some value) (length value) out_.

Definition message (field : Z) (builder : Writer -> Writer) (out_ : Writer) : Writer :=
  let nested := builder [] in
  bytes_ field (Some nested) (length nested) out_.

(** Statements of a builder, in order. *)
Notation "f ;> g" := (fun w : Writer => g (f w)) (at level 60, right associativity) : esp_scope.

(** ** The parsed messages *)
Record ParsedEnvelope := {
  request_id : bytes;
  api_version : Z;
  msg_field : Z;
  msg_data : option bytes
}.
#[export] Instance eta_envelope : Eta ParsedEnvelope := fun r =>
  Build_ParsedEnvelope (request_id r) (api_version r) (msg_field r) (msg_data r).

Record ParsedAuthResponse := {
  client_kind : bytes;
  client_name : bytes;
  client_nonce : bytes;
  hmac_sha256 : bytes
}.
#[export] Instance eta_auth : Eta ParsedAuthResponse := fun r =>
  Build_ParsedAuthResponse (client_kind r) (client_name r) (client_nonce r) (hmac_sha256 r).

Record ParsedCommandArgument := { arg_name : bytes; arg_value : bytes }.
#[export] Instance eta_argument : Eta ParsedCommandArgument := fun r =>
  Build_ParsedCommandArgument (arg_name r) (arg_value r).

Record ParsedCommandRequest := {
  cr_remote_mac : bytes;
  cr_object_id : bytes;
  cr_command : bytes;
  cr_args : list ParsedCommandArgument
}.
#[export] Instance eta_command : Eta ParsedCommandRequest := fun r =>
  Build_ParsedCommandRequest (cr_remote_mac r) (cr_object_id r) (cr_command r) (cr_args r).

Record ParsedConfigCommandRequest := {
  cc_remote_mac : bytes;
  cc_command : bytes;
  cc_interval_seconds : Z;
  cc_parent_mac : bytes;
  cc_clear_parent : bool;
  cc_relay_enable : bool
}.
#[export] Instance eta_config_command : Eta ParsedConfigCommandRequest := fun r =>
  Build_ParsedConfigCommandRequest (cc_remote_mac r) (cc_command r) (cc_interval_seconds r)
    (cc_parent_mac r) (cc_clear_parent r) (cc_relay_enable r).

Record ParsedOtaStartRequest := {
  os_target_mac : bytes;
  os_file_size : Z;
  os_md5 : bytes;
  os_sha256 : bytes;
  os_filename : bytes;
  os_preferred_chunk_size : Z
}.
#[export] Instance eta_ota_start : Eta ParsedOtaStartRequest := fun r =>
  Build_ParsedOtaStartRequest (os_target_mac r) (os_file_size r) (os_md5 r) (os_sha256 r)
    (os_filename r) (os_preferred_chunk_size r).

Record ParsedOtaChunk := {
  oc_sequence : Z;
  oc_offset : Z;
  oc_payload : option bytes;
  oc_flags : Z;
  oc_crc32 : Z
}.
#[export] Instance eta_ota_chunk : Eta ParsedOtaChunk := fun r =>
  Build_ParsedOtaChunk (oc_sequence r) (oc_offset r) (oc_payload r) (oc_flags r) (oc_crc32 r).

Record ParsedOtaChunkBatch := {
  ob_job_id : bytes;
  ob_response_request_id : bytes;
  ob_chunks : list ParsedOtaChunk
}.
#[export] Instance eta_ota_batch : Eta ParsedOtaChunkBatch := fun r =>
  Build_ParsedOtaChunkBatch (ob_job_id r) (ob_response_request_id r) (ob_chunks r).

Record ParsedOtaAbortRequest := { oa_job_id : bytes; oa_reason : bytes }.
#[export] Instance eta_ota_abort : Eta ParsedOtaAbortRequest := fun r =>
  Build_ParsedOtaAbortRequest (oa_job_id r) (oa_reason r).

Record ParsedStateReceipt := {
  rc_remote_mac : bytes;
  rc_bridge_mac : bytes;
  rc_session_id : bytes;
  rc_state_tx_counter : Z;
  rc_entity_index : Z
}.
#[export] Instance eta_receipt : Eta ParsedStateReceipt := fun r =>
  Build_ParsedStateReceipt (rc_remote_mac r) (rc_bridge_mac r) (rc_session_id r)
    (rc_state_tx_counter r) (rc_entity_index r).

(** ** The parsers *)

(** [while (pos < len) { if (!read_field(...)) return false; body }]: the result
    says whether the loop ran to the end, with the message as far as it got. *)
Fixpoint parse_loop {A} (fuel : nat) (body : Field -> A -> bool * A) (data : bytes)
    (pos : nat) (out : A) : bool * A :=
  match fuel with
  | O => (false, out)
  | S fuel =>
    if (pos <? length data)%nat then
      match read_field data pos with
      | None => (false, out)
      | Some (f, pos) =>
        let '(ok, out) := body f out in
        if ok then parse_loop fuel body data pos out else (false, out)
      end
    else (true, out)
  end.

Definition parse_fields {A} (body : Field -> A -> bool * A) (data : bytes) (out : A) : bool * A :=
  parse_loop (S (length data)) body data 0 out.

Definition nonempty (l : bytes) : bool := negb (length l =? 0)%nat.

Definition is_field (f : Field) (n w : Z) : bool := (field f =? n) && (wire f =? w).

Definition envelope_field (f : Field) (out : ParsedEnvelope) : bool * ParsedEnvelope :=
  (true,
    if is_field f 1 2 then out <| request_id := as_string (value f) |>
    else if is_field f 2 0 then out <| api_version := u32 (varint_value f) |>
    else if (10 <=? field f) && (wire f =? 2) then
      out <| msg_field := field f |> <| msg_data := value f |>
    else out).

Definition parse_envelope (data : bytes) : bool * ParsedEnvelope :=
  let '(ok, out) := parse_fields envelope_field data (Build_ParsedEnvelope [] 0 0 None) in
  (ok && negb (msg_field out =? 0), out).

Definition auth_field (f : Field) (out : ParsedAuthResponse) : bool * ParsedAuthResponse :=
  (true,
    if negb (wire f =? 2) then out
    else if field f =? 1 then out <| client_kind := as_string (value f) |>
    else if field f =? 2 then out <| client_name := as_string (value f) |>
    else if field f =? 3 then out <| client_nonce := as_string (value f) |>
    else if field f =? 4 then out <| hmac_sha256 := as_string (value f) |>
    else out).

Definition parse_auth_response (data : bytes) : bool * ParsedAuthResponse :=
  let '(ok, out) := parse_fields auth_field data (Build_ParsedAuthResponse [] [] [] []) in
  (ok && (nonempty (client_kind out) && nonempty (client_nonce out)
          && (length (hmac_sha256 out) =? kRuntimeHmacBytes)%nat), out).

Definition argument_field (f : Field) (arg : ParsedCommandArgument) :
    bool * ParsedCommandArgument :=
  (true,
    if is_field f 1 2 then arg <| arg_name := as_string (value f) |>
    else if 10 <=? field f then arg <| arg_value := value_to_string f |>
    else arg).

Definition command_field (f : Field) (out : ParsedCommandRequest) : bool * ParsedCommandRequest :=
  if is_field f 1 2 then (true, out <| cr_remote_mac := as_string (value f) |>)
  else if is_field f 2 2 then (true, out <| cr_object_id := as_string (value f) |>)
  else if is_field f 3 2 then (true, out <| cr_command := as_string (value f) |>)
  else if is_field f 4 2 then
    let '(ok, arg) := parse_fields argument_field (as_string (value f))
                        (Build_ParsedCommandArgument [] []) in
    if ok then (true, out <| cr_args ::= fun args => args ++ [arg] |>) else (false, out)
  else (true, out).

Definition parse_command_request (data : bytes) : bool * ParsedCommandRequest :=
  let '(ok, out) := parse_fields command_field data (Build_ParsedCommandRequest [] [] [] []) in
  (ok && (nonempty (cr_remote_mac out) && nonempty (cr_object_id out)
          && nonempty (cr_command out)), out).

Definition config_command_field (f : Field) (out : ParsedConfigCommandRequest) :
    bool * ParsedConfigCommandRequest :=
  (true,
    if is_field f 1 2 then out <| cc_remote_mac := as_string (value f) |>
    else if is_field f 2 2 then out <| cc_command := as_string (value f) |>
    else if is_field f 3 0 then out <| cc_interval_seconds := u32 (varint_value f) |>
    else if is_field f 4 2 then out <| cc_parent_mac := as_string (value f) |>
    else if is_field f 5 0 then out <| cc_clear_parent := negb (varint_value f =? 0) |>
    else if is_field f 6 0 then out <| cc_relay_enable := negb (varint_value f =? 0) |>
    else out).

Definition parse_config_command_request (data : bytes) : bool * ParsedConfigCommandRequest :=
  let '(ok, out) := parse_fields config_command_field data
                      (Build_ParsedConfigCommandRequest [] [] 0 [] false false) in
  (ok && (nonempty (cc_remote_mac out) && nonempty (cc_command out)), out).

Definition state_receipt_field (f : Field) (out : ParsedStateReceipt) : bool * ParsedStateReceipt :=
  (true,
    if is_field f 1 2 then out <| rc_remote_mac := as_string (value f) |>
    else if is_field f 2 2 then out <| rc_bridge_mac := as_string (value f) |>
    else if is_field f 3 2 then out <| rc_session_id := as_string (value f) |>
    else if is_field f 4 0 then out <| rc_state_tx_counter := u32 (varint_value f) |>
    else if is_field f 5 0 then out <| rc_entity_index := u8 (varint_value f) |>
    else out).

Definition parse_state_receipt (data : bytes) : bool * ParsedStateReceipt :=
  let '(ok, out) := parse_fields state_receipt_field data (Build_ParsedStateReceipt [] [] [] 0 0) in
  (ok && nonempty (rc_remote_mac out), out).

Definition ota_start_field (f : Field) (out : ParsedOtaStartRequest) :
    bool * ParsedOtaStartRequest :=
  (true,
    if is_field f 1 2 then out <| os_target_mac := as_string (value f) |>
    else if is_field f 2 0 then out <| os_file_size := u32 (varint_value f) |>
    else if is_field f 3 2 then out <| os_md5 := as_string (value f) |>
    else if is_field f 4 2 then out <| os_sha256 := as_string (value f) |>
    else if is_field f 5 2 then out <| os_filename := as_string (value f) |>
    else if is_field f 6 0 then out <| os_preferred_chunk_size := u16 (varint_value f) |>
    else out).

Definition parse_ota_start_request (data : bytes) : bool * ParsedOtaStartRequest :=
  let '(ok, out) := parse_fields ota_start_field data (Build_ParsedOtaStartRequest [] 0 [] [] [] 0) in
  (ok && (nonempty (os_target_mac out) && (0 <? os_file_size out) && nonempty (os_md5 out)), out).

Definition ota_chunk_field (f : Field) (out : ParsedOtaChunk) : bool * ParsedOtaChunk :=
  (true,
    if is_field f 1 0 then out <| oc_sequence := u32 (varint_value f) |>
    else if is_field f 2 0 then out <| oc_offset := u32 (varint_value f) |>
    else if is_field f 3 2 then out <| oc_payload := value f |>
    else if is_field f 4 0 then out <| oc_flags := u32 (varint_value f) |>
    else if is_field f 5 0 then out <| oc_crc32 := u32 (varint_value f) |>
    else out).

Definition parse_ota_chunk_message (data : bytes) : bool * ParsedOtaChunk :=
  let '(ok, out) := parse_fields ota_chunk_field data (Build_ParsedOtaChunk 0 0 None 0 0) in
  (ok && bool_decide (is_Some (oc_payload out)), out).

Definition ota_batch_field (f : Field) (out : ParsedOtaChunkBatch) : bool * ParsedOtaChunkBatch :=
  if is_field f 1 2 then (true, out <| ob_job_id := as_string (value f) |>)
  else if is_field f 2 2 then (true, out <| ob_response_request_id := as_string (value f) |>)
  else if is_field f 3 2 then
    let '(ok, chunk) := parse_ota_chunk_message (as_string (value f)) in
    if ok then (true, out <| ob_chunks ::= fun chunks => chunks ++ [chunk] |>) else (false, out)
  else (true, out).

Definition parse_ota_chunk_batch (data : bytes) : bool * ParsedOtaChunkBatch :=
  let '(ok, out) := parse_fields ota_batch_field data (Build_ParsedOtaChunkBatch [] [] []) in
  (ok && (nonempty (ob_job_id out) && nonempty (ob_response_request_id out)
          && negb (length (ob_chunks out) =? 0)%nat), out).

Definition ota_abort_field (f : Field) (out : ParsedOtaAbortRequest) :
    bool * ParsedOtaAbortRequest :=
  (true,
    if is_field f 1 2 then out <| oa_job_id := as_string (value f) |>
    else if is_field f 2 2 then out <| oa_reason := as_string (value f) |>
    else out).

Definition parse_ota_abort_request (data : bytes) : bool * ParsedOtaAbortRequest :=
  let '(ok, out) := parse_fields ota_abort_field data (Build_ParsedOtaAbortRequest [] []) in
  if ok then (true, if nonempty (oa_reason out) then out else out <| oa_reason := str "user" |>)
  else (false, out).

(** The early [return varint_value] stops the loop: the body answers [false]
    with the value, and every other way out leaves 0. *)
Definition ping_field (f : Field) (out : Z) : bool * Z :=
  if is_field f 1 0 then (false, varint_value f) else (true, out).

Definition ping_monotonic_ms (data : bytes) : Z := (parse_fields ping_field data 0).2.

(** ** The encoders *)
Definition envelope (request_id : bytes) (msg_field : EnvelopeField)
    (builder : Writer -> Writer) : bytes :=
  (string_ 1 request_id ;>
   varint 2 kRuntimeApiVersion ;>
   message (envelope_field_number msg_field) builder) [].

Definition encode_ota_accepted (request_id job_id target_mac : bytes)
    (max_chunk_size total_chunks max_chunks_per_batch : Z) : bytes :=
  envelope request_id OTA_ACCEPTED
    (string_ 1 job_id ;>
     string_ 2 target_mac ;>
     varint 3 max_chunk_size ;>
     varint 4 total_chunks ;>
     varint 5 max_chunks_per_batch).

Definition encode_ota_chunk_request (request_id job_id chunk_request_id : bytes)
    (sequences : list Z) (chunks_sent chunks_confirmed current_increment total_increments
     retransmit_round buffer_size_kb percent : Z) : bytes :=
  envelope request_id OTA_CHUNK_REQUEST
    (string_ 1 job_id ;>
     string_ 2 chunk_request_id ;>
     (fun w => foldl (fun w seq => varint 3 seq w) w sequences) ;>
     message 4
       (varint 1 chunks_sent ;>
        varint 2 chunks_confirmed ;>
        varint 3 current_increment ;>
        varint 4 total_increments ;>
        varint 5 retransmit_round ;>
        varint 6 buffer_size_kb ;>
        varint 7 percent)).

Definition encode_ota_status (request_id job_id : bytes) (state : OtaState)
    (percent bytes_received file_size : Z) (error_detail : bytes) : bytes :=
  envelope request_id OTA_STATUS
    (string_ 1 job_id ;>
     varint 2 (ota_state_number state) ;>
     varint 3 percent ;>
     varint 4 bytes_received ;>
     varint 5 file_size ;>
     string_ 6 error_detail).

Definition encode_ota_aborted (request_id job_id reason : bytes) : bytes :=
  envelope request_id OTA_ABORTED (string_ 1 job_id ;> string_ 2 reason).

Definition error_envelope (request_id code msg : bytes) : bytes :=
  envelope request_id ERROR (string_ 1 code ;> string_ 2 msg).

Definition auth_failed_envelope (request_id code msg : bytes) : bytes :=
  envelope request_id AUTH_FAILED (string_ 1 code ;> string_ 2 msg).

(** ** Varints *)
Fixpoint vbytes (n : nat) (v : Z) : bytes :=
  match n with
  | O => []
  | S n => if 0x80 <=? v then (v mod 128 + 128) :: vbytes n (v / 128) else [v]
  end.

(** The image of a 64-bit value. *)
Definition varint_bytes (v : Z) : bytes := vbytes 10 v.
#[global] Arguments varint_bytes : simpl never.

Definition u64_ok (v : Z) : Prop := 0 <= v < 2 ^ 64.
Definition u32_ok (v : Z) : Prop := 0 <= v < 2 ^ 32.

Lemma continuation_byte v : 0 <= v -> u8 (Z.lor v 0x80) = v mod 128 + 128.
Proof.
  intros Hv. assert (u8 (Z.lor v 0x80) = u8 (Z.lor (v mod 256) 0x80)) as ->.
  { unfold u8. rewrite <-!Z.land_ones by lia.
    change 256 with (2 ^ 8). rewrite <-(Z.land_ones v) by lia.
    rewrite !Z.land_lor_distr_l. f_equal. by rewrite <-Z.land_assoc, Z.land_diag. }
  rewrite <-(Z.mod_mod_divide v 256 128) by (by exists 2).
  apply Z.eqb_eq. apply (byte_cases (fun r => u8 (Z.lor r 0x80) =? r mod 128 + 128));
    [by vm_compute|]. apply Z.mod_pos_bound. lia.
Qed.

Lemma raw_varint_loop_spec n v out :
  0 <= v < 2 ^ (7 * Z.of_nat n) -> (0 < n)%nat -> raw_varint_loop n v out = out ++ vbytes n v.
Proof.
  revert v out. induction n as [|n IH]; intros v out Hv Hn; [lia|].
  cbn [raw_varint_loop vbytes]. destruct (Z.leb_spec 0x80 v) as [Hge|Hlt].
  - rewrite continuation_byte, Z.shiftr_div_pow2 by lia. change (2 ^ 7) with 128.
    rewrite IH; [by rewrite <-(assoc_L (++))| |].
    + split; [apply Z.div_pos; lia|]. apply Z.div_lt_upper_bound; [lia|].
      replace (7 * Z.of_nat (S n)) with (7 + 7 * Z.of_nat n) in Hv by lia.
      rewrite Z.pow_add_r in Hv by lia. exact (proj2 Hv).
    + destruct n; [|lia]. change (2 ^ (7 * Z.of_nat 1)) with 128 in Hv. lia.
  - by rewrite u8_small by lia.
Qed.

Lemma raw_varint_spec v out : u64_ok v -> raw_varint v out = out ++ varint_bytes v.
Proof. intros Hv. apply raw_varint_loop_spec; [|lia]. unfold u64_ok in Hv. simpl. lia. Qed.

Lemma vbytes_length n v : (0 < n)%nat -> (1 <= length (vbytes n v) <= n)%nat.
Proof.
  revert v. induction n as [|n IH]; intros v Hn; [lia|]. cbn [vbytes].
  destruct (0x80 <=? v); cbn [length]; [|lia]. destruct n; [cbn; lia|].
  specialize (IH (v / 128) ltac:(lia)). lia.
Qed.

Lemma data_byte b : byte_range b -> (Z.land b 0x80 =? 0) = (b <? 128) /\ Z.land b 0x7F = b mod 128.
Proof.
  intros Hb. split.
  - apply eqb_prop. apply (byte_cases (fun b => eqb (Z.land b 0x80 =? 0) (b <? 128))); [by vm_compute|done].
  - change 0x7F with (Z.ones 7). by rewrite Z.land_ones by lia.
Qed.

Lemma at_app_here pre b post : at_ (pre ++ b :: post) (length pre) = b.
Proof. unfold at_. rewrite app_nth2 by lia. by rewrite Nat.sub_diag. Qed.

Lemma read_varint_loop_spec n fuel v pre post shift out :
  0 <= v < 2 ^ (7 * Z.of_nat n) -> (0 < n <= fuel)%nat ->
  0 <= shift < 64 -> v * 2 ^ shift < 2 ^ 64 -> 0 <= out < 2 ^ shift ->
  read_varint_loop fuel (pre ++ vbytes n v ++ post) (length pre) shift out =
    Some (out + v * 2 ^ shift, (length pre + length (vbytes n v))%nat).
Proof.
  revert fuel v pre shift out. induction n as [|n IH];
    intros fuel v pre shift out Hv Hn Hs Hlt Ho; [lia|].
  destruct fuel as [|fuel]; [lia|]. cbn [read_varint_loop vbytes].
  assert (0 < 2 ^ shift) by (apply Z.pow_pos_nonneg; lia).
  destruct (Z.ltb_spec shift 64) as [_|?]; [|lia].
  destruct (Z.leb_spec 0x80 v) as [Hge|Hsm].
  - cbn [app]. rewrite at_app_here. rewrite !length_app. cbn [length].
    destruct (Nat.ltb_spec (length pre)
      (length pre + S (length (vbytes n (v / 128) ++ post)))) as [_|?]; [|lia].
    cbn [andb]. pose proof (Z.mod_pos_bound v 128 ltac:(lia)) as Hm.
    pose proof (Z.div_mod v 128 ltac:(lia)) as Edm.
    assert (1 <= v / 128) as Hd by (apply Z.div_le_lower_bound; lia).
    destruct (data_byte (v mod 128 + 128)) as [-> ->]; [unfold byte_range; lia|].
    destruct (Z.ltb_spec (v mod 128 + 128) 128) as [?|_]; [lia|].
    replace ((v mod 128 + 128) mod 128) with (v mod 128)
      by (apply (Z.mod_unique_pos _ _ 1); lia).
    rewrite u64_small by (rewrite Z.shiftl_mul_pow2 by lia; nia).
    rewrite lor_shift_add by lia.
    assert (2 ^ (shift + 7) = 128 * 2 ^ shift) as E7 by (rewrite Z.pow_add_r by lia; lia).
    assert (shift + 7 < 64) as H7.
    { apply (Z.pow_lt_mono_r_iff 2); [lia..|]. rewrite E7. nia. }
    rewrite u8_small by lia.
    specialize (IH fuel (v / 128) (pre ++ [v mod 128 + 128]) (shift + 7)
                  (out + v mod 128 * 2 ^ shift)).
    rewrite <-(assoc_L (++)), length_app in IH. cbn [app length] in IH.
    replace (S (length pre)) with (length pre + 1)%nat by lia.
    assert (0 < n)%nat as Hn0.
    { destruct n; [|lia]. change (2 ^ (7 * Z.of_nat 1)) with 128 in Hv. lia. }
    rewrite IH; [f_equal; f_equal; [rewrite E7; nia|lia]| |lia|lia|rewrite E7; nia|rewrite E7; nia].
    split; [lia|]. apply Z.div_lt_upper_bound; [lia|].
    replace (7 * Z.of_nat (S n)) with (7 + 7 * Z.of_nat n) in Hv by lia.
    rewrite Z.pow_add_r in Hv by lia. exact (proj2 Hv).
  - cbn [app]. rewrite at_app_here. rewrite !length_app. cbn [length].
    destruct (Nat.ltb_spec (length pre) (length pre + S (length post))) as [_|?]; [|lia].
    cbn [andb]. destruct (data_byte v) as [-> ->]; [unfold byte_range; lia|].
    destruct (Z.ltb_spec v 128) as [_|?]; [|lia]. rewrite Z.mod_small by lia.
    rewrite u64_small by (rewrite Z.shiftl_mul_pow2 by lia; nia).
    rewrite lor_shift_add by lia. f_equal. f_equal. lia.
Qed.

Lemma read_varint_spec v pre post :
  u64_ok v ->
  read_varint (pre ++ varint_bytes v ++ post) (length pre) =
    Some (v, (length pre + length (varint_bytes v))%nat).
Proof.
  intros Hv. unfold read_varint, varint_bytes. unfold u64_ok in Hv.
  rewrite read_varint_loop_spec by (simpl; lia). f_equal. f_equal. lia.
Qed.

(** ** Messages as lists of fields: the reference view *)
Inductive proto_value := PVarint (v : Z) | PFixed64 (v : Z) | PBytes (l : bytes).
Abbreviation proto_field := (Z * proto_value)%type.

Definition wire_type (v : proto_value) : Z :=
  match v with PVarint _ => 0 | PFixed64 _ => 1 | PBytes _ => 2 end.

Definition value_bytes (v : proto_value) : bytes :=
  match v with
  | PVarint v => varint_bytes v
  | PFixed64 v => le_bytes 8 v
  | PBytes l => varint_bytes (Z.of_nat (length l)) ++ l
  end.

(** The image of a message. *)
Definition field_bytes (f : proto_field) : bytes :=
  varint_bytes (8 * f.1 + wire_type f.2) ++ value_bytes f.2.
Definition message_bytes (fs : list proto_field) : bytes := fs ≫= field_bytes.

Definition value_ok (v : proto_value) : Prop :=
  match v with
  | PVarint v | PFixed64 v => u64_ok v
  | PBytes l => u32_ok (Z.of_nat (length l))
  end.
Definition field_ok (f : proto_field) : Prop := u32_ok f.1 /\ value_ok f.2.

(** What the reader reports of a field. *)
Definition field_read (f : proto_field) : Field :=
  match f.2 with
  | PVarint v => Build_Field f.1 0 None v
  | PFixed64 v => Build_Field f.1 1 (Some (le_bytes 8 v)) 0
  | PBytes l => Build_Field f.1 2 (Some l) 0
  end.

(** The effect of a loop body on a list of fields. *)
Fixpoint run_fields {A} (body : Field -> A -> bool * A) (fs : list proto_field) (out : A) :
    bool * A :=
  match fs with
  | [] => (true, out)
  | f :: fs =>
    let '(ok, out) := body (field_read f) out in
    if ok then run_fields body fs out else (false, out)
  end.

Lemma wire_type_range v : 0 <= wire_type v < 8.
Proof. destruct v; cbn; lia. Qed.

Lemma tag_value_ok n w : u32_ok n -> 0 <= w < 8 -> u64_ok (8 * n + w).
Proof. unfold u32_ok, u64_ok. lia. Qed.

Lemma tag_field n w : u32_ok n -> 0 <= w < 8 -> u32 (Z.shiftr (8 * n + w) 3) = n.
Proof.
  unfold u32_ok. intros Hn Hw. rewrite Z.shiftr_div_pow2 by lia. change (2 ^ 3) with 8.
  rewrite Z.add_comm, Z.mul_comm, Z.div_add, Z.div_small by lia. apply u32_small. lia.
Qed.

Lemma tag_wire n w : 0 <= w < 8 -> u8 (Z.land (8 * n + w) 0x07) = w.
Proof.
  intros Hw. change 0x07 with (Z.ones 3). rewrite Z.land_ones by lia. change (2 ^ 3) with 8.
  rewrite Z.add_comm, Z.mul_comm, Z.mod_add, Z.mod_small by lia. apply u8_small. lia.
Qed.

Lemma slice_here {A} (pre l post : list A) :
  slice (length pre) (length l) (pre ++ l ++ post) = l.
Proof. unfold slice. by rewrite drop_app_length, take_app_length. Qed.

Lemma read_field_spec f pre post :
  field_ok f ->
  read_field (pre ++ field_bytes f ++ post) (length pre) =
    Some (field_read f, (length pre + length (field_bytes f))%nat).
Proof.
  destruct f as [n v]. intros [Hn Hv]. unfold read_field, field_bytes. cbn [fst snd] in *.
  rewrite <-(assoc_L (++)). pose proof (wire_type_range v) as Hw.
  rewrite read_varint_spec by (by apply tag_value_ok).
  set (t := varint_bytes (8 * n + wire_type v)).
  rewrite tag_field, tag_wire by done.
  assert (pre ++ t ++ value_bytes v ++ post = (pre ++ t) ++ value_bytes v ++ post) as ->
    by (by rewrite <-(assoc_L (++))).
  rewrite <-(length_app pre t).
  destruct v as [x|x|l]; cbn [wire_type value_bytes value_ok] in *;
    unfold field_read; cbn [snd fst].
  - rewrite read_varint_spec by done. cbn. do 2 f_equal. unfold t. rewrite !length_app, ?length_le_bytes. lia.
  - cbn [Z.eqb].
    assert (length ((pre ++ t) ++ le_bytes 8 x ++ post) = length (pre ++ t) + (8 + length post))%nat
      as -> by (rewrite !length_app, length_le_bytes; lia).
    destruct (Nat.ltb_spec (length (pre ++ t) + (8 + length post)) (length (pre ++ t) + 8));
      [lia|].
    pose proof (slice_here (pre ++ t) (le_bytes 8 x) post) as E.
    rewrite length_le_bytes in E. rewrite E. cbn. do 2 f_equal. unfold t. rewrite !length_app, ?length_le_bytes. lia.
  - cbn [Z.eqb]. rewrite <-(assoc_L (++) (varint_bytes _) l post).
    rewrite read_varint_spec by (unfold u32_ok, u64_ok in *; lia).
    rewrite Nat2Z.id. rewrite <-(length_app (pre ++ t)).
    set (q := (pre ++ t) ++ varint_bytes (Z.of_nat (length l))).
    assert ((pre ++ t) ++ varint_bytes (Z.of_nat (length l)) ++ l ++ post = q ++ l ++ post) as ->
      by (by unfold q; rewrite <-!(assoc_L (++))).
    destruct (Z.ltb_spec (Z.of_nat (length (q ++ l ++ post) - length q)) (Z.of_nat (length l)))
      as [Hlt|_]; [rewrite !length_app in Hlt; lia|].
    rewrite slice_here. cbn. do 2 f_equal. unfold q, t. rewrite !length_app. lia.
Qed.

Lemma field_bytes_nonempty f : (1 <= length (field_bytes f))%nat.
Proof.
  unfold field_bytes. rewrite length_app.
  pose proof (vbytes_length 10 (8 * f.1 + wire_type f.2) ltac:(lia)). unfold varint_bytes. lia.
Qed.

Lemma message_bytes_cons f fs : message_bytes (f :: fs) = field_bytes f ++ message_bytes fs.
Proof. reflexivity. Qed.

Lemma message_bytes_app fs gs : message_bytes (fs ++ gs) = message_bytes fs ++ message_bytes gs.
Proof. unfold message_bytes. by rewrite bind_app. Qed.

Lemma length_message fs : (length fs <= length (message_bytes fs))%nat.
Proof.
  induction fs as [|f fs IH]; [done|]. rewrite message_bytes_cons, length_app. cbn [length].
  pose proof (field_bytes_nonempty f). lia.
Qed.

Lemma parse_loop_fields {A} (body : Field -> A -> bool * A) fuel fs pre out :
  Forall field_ok fs -> (length fs < fuel)%nat ->
  parse_loop fuel body (pre ++ message_bytes fs) (length pre) out = run_fields body fs out.
Proof.
  revert fuel pre out. induction fs as [|f fs IH]; intros fuel pre out Hfs Hf;
    (destruct fuel as [|fuel]; [cbn in Hf; lia|]); cbn [parse_loop run_fields].
  - rewrite app_nil_r. by rewrite Nat.ltb_irrefl.
  - apply Forall_cons_1 in Hfs as [Hok Hfs]. rewrite message_bytes_cons.
    pose proof (field_bytes_nonempty f).
    destruct (Nat.ltb_spec (length pre)
      (length (pre ++ field_bytes f ++ message_bytes fs))) as [_|Hge];
      [|rewrite !length_app in Hge; lia].
    rewrite read_field_spec by done.
    destruct (body (field_read f) out) as [[] out']; [|done].
    rewrite <-length_app, (assoc_L (++)). apply IH; [done|cbn in Hf; lia].
Qed.

Lemma parse_fields_spec {A} (body : Field -> A -> bool * A) fs out :
  Forall field_ok fs -> parse_fields body (message_bytes fs) out = run_fields body fs out.
Proof.
  intros Hfs. apply (parse_loop_fields body _ fs []); [done|].
  pose proof (length_message fs). lia.
Qed.

Lemma run_fields_app {A} (body : Field -> A -> bool * A) fs gs out :
  run_fields body (fs ++ gs) out =
    let '(ok, out) := run_fields body fs out in
    if ok then run_fields body gs out else (false, out).
Proof.
  revert out. induction fs as [|f fs IH]; intros out; cbn [app run_fields]; [done|].
  by destruct (body (field_read f) out) as [[] out'].
Qed.

(** ** The writer appends fields *)
Lemma tag_spec n w out :
  u32_ok n -> 0 <= w < 8 -> tag n w out = out ++ varint_bytes (8 * n + w).
Proof.
  intros Hn Hw. unfold tag.
  assert (Z.lor (u64 (Z.shiftl n 3)) w = 8 * n + w) as ->.
  { rewrite Z.lor_comm, u64_small by (unfold u32_ok in Hn; rewrite Z.shiftl_mul_pow2 by lia; lia).
    rewrite lor_shift_add by (unfold u32_ok in Hn; lia). lia. }
  apply raw_varint_spec, tag_value_ok; done.
Qed.

Lemma varint_spec n v out :
  u32_ok n -> u64_ok v -> varint n v out = out ++ message_bytes [(n, PVarint v)].
Proof.
  intros Hn Hv. unfold varint. rewrite raw_varint_spec, tag_spec by (done || lia).
  rewrite <-(assoc_L (++)). unfold message_bytes, field_bytes.
  cbn [mbind list_bind fst snd wire_type value_bytes]. by rewrite app_nil_r.
Qed.

Lemma bytes_spec n l out :
  u32_ok n -> u32_ok (Z.of_nat (length l)) ->
  bytes_ n (Some l) (length l) out = out ++ message_bytes [(n, PBytes l)].
Proof.
  intros Hn Hl. unfold bytes_.
  rewrite raw_varint_spec, tag_spec by (unfold u32_ok, u64_ok in *; lia || done).
  unfold message_bytes, field_bytes. cbn [mbind list_bind fst snd wire_type value_bytes].
  rewrite app_nil_r. destruct (Nat.ltb_spec 0 (length l)) as [H0|H0].
  - rewrite take_ge by lia. by rewrite <-!(assoc_L (++)).
  - destruct l; [|cbn in H0; lia]. by rewrite app_nil_r, <-!(assoc_L (++)).
Qed.

(** An empty string is not written. *)
Definition string_fields (n : Z) (l : bytes) : list proto_field :=
  if nonempty l then [(n, PBytes l)] else [].

Lemma string_spec n l out :
  u32_ok n -> u32_ok (Z.of_nat (length l)) ->
  string_ n l out = out ++ message_bytes (string_fields n l).
Proof.
  intros Hn Hl. unfold string_, string_fields, nonempty. destruct (length l =? 0)%nat; cbn [negb].
  - cbn. by rewrite app_nil_r.
  - by apply bytes_spec.
Qed.

Lemma message_spec n builder fs out :
  u32_ok n -> builder [] = message_bytes fs -> u32_ok (Z.of_nat (length (message_bytes fs))) ->
  message n builder out = out ++ message_bytes [(n, PBytes (message_bytes fs))].
Proof. intros Hn Hb Hl. unfold message. rewrite Hb. by apply bytes_spec. Qed.

Lemma fixed64_spec n v out :
  u32_ok n -> u64_ok v -> fixed64 n v out = out ++ message_bytes [(n, PFixed64 v)].
Proof.
  intros Hn Hv. unfold fixed64. rewrite tag_spec by (done || lia).
  unfold message_bytes, field_bytes. cbn [mbind list_bind fst snd wire_type value_bytes].
  rewrite app_nil_r, (assoc_L (++)). generalize (out ++ varint_bytes (8 * n + 1)). intros t.
  change (zseq 0 8) with [0; 1; 2; 3; 4; 5; 6; 7]. cbn [foldl].
  rewrite <-!(assoc_L (++)). f_equal. cbn [app]. unfold u8. change 0xFF with (Z.ones 8).
  rewrite !Z.land_ones, !Z.shiftr_div_pow2, !Z.mod_mod by lia.
  unfold le_bytes. rewrite !Z.div_div by lia. change (2 ^ (8 * 0)) with 1. by rewrite Z.div_1_r.
Qed.

(** ** Termination and bounds *)
Lemma lor_u64 a b : u64_ok a -> u64_ok b -> u64_ok (Z.lor a b).
Proof.
  unfold u64_ok. intros Ha Hb. split; [apply Z.lor_nonneg; lia|].
  destruct (decide (Z.lor a b = 0)) as [->|Hne]; [lia|].
  assert (0 <= Z.lor a b) by (apply Z.lor_nonneg; lia).
  apply Z.log2_lt_pow2; [lia|]. rewrite Z.log2_lor by lia.
  assert (forall z, 0 <= z < 2 ^ 64 -> Z.log2 z < 64) as Hl.
  { intros z Hz. destruct (decide (z = 0)) as [->|]; [simpl; lia|]. apply Z.log2_lt_pow2; lia. }
  specialize (Hl a Ha) as Hla. specialize (Hl b Hb) as Hlb. lia.
Qed.

Lemma read_varint_loop_bounds fuel data pos shift out v pos' :
  read_varint_loop fuel data pos shift out = Some (v, pos') -> u64_ok out ->
  (pos < pos' <= length data)%nat /\ u64_ok v.
Proof.
  revert pos shift out. induction fuel as [|fuel IH]; intros pos shift out; cbn [read_varint_loop]; [done|].
  destruct (Nat.ltb_spec pos (length data)) as [Hlt|]; cbn [andb]; [|done].
  destruct (shift <? 64); [|done]. intros E Ho.
  assert (u64_ok (Z.lor out (u64 (Z.shiftl (Z.land (at_ data pos) 127) shift)))) as Ho'.
  { apply lor_u64; [done|]. unfold u64_ok, u64. apply Z.mod_pos_bound. lia. }
  destruct (Z.land (at_ data pos) 128 =? 0).
  - simplify_eq. split; [lia|done].
  - apply IH in E; [|done]. split; [lia|apply E].
Qed.

Lemma read_varint_bounds data pos v pos' :
  read_varint data pos = Some (v, pos') -> (pos < pos' <= length data)%nat /\ u64_ok v.
Proof. intros E. eapply read_varint_loop_bounds; [exact E|]. unfold u64_ok. lia. Qed.

(** What a field read off a buffer satisfies. *)
Definition field_inside (data : bytes) (pos pos' : nat) (f : Field) : Prop :=
  (pos < pos' <= length data)%nat /\ u32_ok (field f) /\ u64_ok (varint_value f) /\
  (wire f = 0 \/ wire f = 1 \/ wire f = 2) /\
  (forall v, value f = Some v ->
     (length v <= pos')%nat /\ (pos < pos' - length v)%nat /\
     v = slice (pos' - length v) (length v) data).

Lemma read_field_bounds data pos f pos' :
  read_field data pos = Some (f, pos') -> field_inside data pos pos' f.
Proof.
  unfold read_field. destruct (read_varint data pos) as [[tg p1]|] eqn:Et; [|done].
  apply read_varint_bounds in Et as [Hp1 Ht].
  assert (u32_ok (u32 (Z.shiftr tg 3))) as Hf by apply u32_range.
  generalize dependent (u32 (Z.shiftr tg 3)). intros n Hn.
  destruct (Z.eqb_spec (u8 (Z.land tg 7)) 0) as [E0|_].
  { destruct (read_varint data p1) as [[v p2]|] eqn:Ev; [|done].
    apply read_varint_bounds in Ev as [Hp2 Hv]. intros E. simplify_eq.
    unfold field_inside. cbn. rewrite E0. split_and!; [lia|lia|done|done|tauto|done]. }
  destruct (Z.eqb_spec (u8 (Z.land tg 7)) 1) as [E1|_].
  { destruct (Nat.ltb_spec (length data) (p1 + 8)); [done|]. intros E. simplify_eq.
    unfold field_inside. cbn. rewrite E1.
    split_and!; [lia|lia|done|unfold u64_ok; lia|tauto|].
    intros v ?. simplify_eq. rewrite length_slice_in by lia.
    split_and!; [lia|lia|f_equal; lia]. }
  destruct (Z.eqb_spec (u8 (Z.land tg 7)) 2) as [E2|_]; [|done].
  destruct (read_varint data p1) as [[m p2]|] eqn:Em; [|done].
  apply read_varint_bounds in Em as [Hp2 Hm].
  destruct (Z.ltb_spec (Z.of_nat (length data - p2)) m); [done|]. intros E. simplify_eq.
  unfold u64_ok in Hm. unfold field_inside. cbn. rewrite E2.
  split_and!; [lia|lia|done|unfold u64_ok; lia|tauto|].
  intros v ?. simplify_eq. rewrite length_slice_in by lia. split_and!; [lia|lia|f_equal; lia].
Qed.

Lemma parse_loop_fuel {A} (body : Field -> A -> bool * A) fuel fuel' data pos out :
  (length data - pos < fuel)%nat -> (length data - pos < fuel')%nat ->
  parse_loop fuel body data pos out = parse_loop fuel' body data pos out.
Proof.
  revert fuel' pos out. induction fuel as [|fuel IH]; intros fuel' pos out Hf Hf'; [lia|].
  destruct fuel' as [|fuel']; [lia|]. cbn [parse_loop].
  destruct (Nat.ltb_spec pos (length data)) as [Hlt|]; [|done].
  destruct (read_field data pos) as [[f pos']|] eqn:E; [|done].
  apply read_field_bounds in E as [Hp _].
  destruct (body f out) as [[] out']; [|done]. apply IH; lia.
Qed.

(** C39: every parser terminates and stays inside its input: a field is read
    strictly forward, its value is a contiguous part of the input that ends at
    the new position, and the loop's result does not depend on the fuel as soon
    as it covers the remaining bytes, on any input whatsoever. *)
Theorem parsers_terminate_in_bounds {A} (body : Field -> A -> bool * A) data pos out f pos' fuel :
  read_field data pos = Some (f, pos') -> (length data < fuel)%nat ->
  field_inside data pos pos' f /\
  parse_loop fuel body data 0 out = parse_fields body data out.
Proof.
  intros Hr Hf. split; [by apply read_field_bounds|]. apply parse_loop_fuel; lia.
Qed.

(** ** Round trips *)
Lemma envelope_message rid mf builder fs :
  u32_ok (Z.of_nat (length rid)) -> builder [] = message_bytes fs ->
  u32_ok (Z.of_nat (length (message_bytes fs))) ->
  envelope rid mf builder =
    message_bytes (string_fields 1 rid ++
      [(2, PVarint kRuntimeApiVersion);
       (envelope_field_number mf, PBytes (message_bytes fs))]).
Proof.
  intros Hr Hb Hl. unfold envelope.
  assert (u32_ok (envelope_field_number mf)) by (destruct mf; unfold u32_ok; cbn; lia).
  rewrite (message_spec _ _ fs), varint_spec, string_spec
    by (done || (unfold u32_ok, u64_ok, kRuntimeApiVersion; lia)).
  rewrite app_nil_l, <-!message_bytes_app, <-!(assoc_L (++)). done.
Qed.

Lemma string_fields_ok n l : u32_ok n -> u32_ok (Z.of_nat (length l)) ->
  Forall field_ok (string_fields n l).
Proof.
  intros Hn Hl. unfold string_fields. destruct (nonempty l); [|by apply Forall_nil].
  apply Forall_cons. split; [by split|by apply Forall_nil].
Qed.

Lemma parse_envelope_fields rid mf data :
  u32_ok (Z.of_nat (length rid)) -> u32_ok (Z.of_nat (length data)) ->
  parse_envelope (message_bytes (string_fields 1 rid ++
      [(2, PVarint kRuntimeApiVersion); (envelope_field_number mf, PBytes data)])) =
    (true, Build_ParsedEnvelope rid kRuntimeApiVersion (envelope_field_number mf) (Some data)).
Proof.
  intros Hr Hl. unfold parse_envelope. rewrite parse_fields_spec.
  2: { apply Forall_app_2; [by apply string_fields_ok; [unfold u32_ok; lia|]|].
       repeat constructor; unfold field_ok, u32_ok, u64_ok, kRuntimeApiVersion; cbn; try lia.
       all: try (destruct mf; cbn; lia); apply Hl. }
  unfold string_fields, nonempty.
  destruct rid as [|b rid]; destruct mf; reflexivity.
Qed.

(** envelope round trip: whatever a builder writes, [parse_envelope] gives
    back the request id, version 2, the message's field number and the exact
    bytes of the nested message. *)
Theorem envelope_roundtrip rid mf builder fs :
  u32_ok (Z.of_nat (length rid)) -> builder [] = message_bytes fs ->
  u32_ok (Z.of_nat (length (message_bytes fs))) ->
  parse_envelope (envelope rid mf builder) =
    (true, Build_ParsedEnvelope rid kRuntimeApiVersion (envelope_field_number mf)
             (Some (message_bytes fs))).
Proof.
  intros Hr Hb Hl. rewrite (envelope_message rid mf builder fs) by done.
  by apply parse_envelope_fields.
Qed.

(** *** The messages of a client, written as the repository's codec test does *)
Definition write_chunk (c : ParsedOtaChunk) : Writer -> Writer :=
  let payload := as_string (oc_payload c) in
  varint 1 (oc_sequence c) ;>
  varint 2 (oc_offset c) ;>
  bytes_ 3 (Some payload) (length payload) ;>
  varint 4 (oc_flags c) ;>
  varint 5 (oc_crc32 c).

Definition write_batch (b : ParsedOtaChunkBatch) : Writer -> Writer :=
  string_ 1 (ob_job_id b) ;>
  string_ 2 (ob_response_request_id b) ;>
  (fun w => foldl (fun w c => message 3 (write_chunk c) w) w (ob_chunks b)).

Definition write_ota_start (r : ParsedOtaStartRequest) : Writer -> Writer :=
  string_ 1 (os_target_mac r) ;>
  varint 2 (os_file_size r) ;>
  string_ 3 (os_md5 r) ;>
  string_ 4 (os_sha256 r) ;>
  string_ 5 (os_filename r) ;>
  varint 6 (os_preferred_chunk_size r).

Definition write_auth_response (r : ParsedAuthResponse) : Writer -> Writer :=
  string_ 1 (client_kind r) ;>
  string_ 2 (client_name r) ;>
  bytes_ 3 (Some (client_nonce r)) (length (client_nonce r)) ;>
  bytes_ 4 (Some (hmac_sha256 r)) (length (hmac_sha256 r)).

Definition str_ok (l : bytes) : Prop := u32_ok (Z.of_nat (length l)).

Definition chunk_ok (c : ParsedOtaChunk) : Prop :=
  u32_ok (oc_sequence c) /\ u32_ok (oc_offset c) /\ u32_ok (oc_flags c) /\
  u32_ok (oc_crc32 c) /\ is_Some (oc_payload c) /\ str_ok (write_chunk c []).

Definition chunk_fields (c : ParsedOtaChunk) : list proto_field :=
  [(1, PVarint (oc_sequence c)); (2, PVarint (oc_offset c));
   (3, PBytes (as_string (oc_payload c))); (4, PVarint (oc_flags c));
   (5, PVarint (oc_crc32 c))].

Lemma u32_u64 v : u32_ok v -> u64_ok v.
Proof. unfold u32_ok, u64_ok. lia. Qed.

Lemma u32_id v : u32_ok v -> u32 v = v.
Proof. apply u32_small. Qed.

Lemma literal_ok n : (0 <=? n) && (n <? 2 ^ 32) = true -> u32_ok n.
Proof. intros E. unfold u32_ok. zprop. lia. Qed.

Create HintDb proto discriminated.
#[local] Hint Extern 1 (u32_ok _) => by apply literal_ok : proto.
#[local] Hint Resolve u32_u64 : proto.

Lemma length_bytes_field n l out :
  (length l <= length (bytes_ n (Some l) (length l) out))%nat.
Proof.
  unfold bytes_. destruct (Nat.ltb_spec 0 (length l)); [|lia].
  rewrite length_app, take_ge by lia. lia.
Qed.

Lemma length_raw_varint v out : (length out <= length (raw_varint v out))%nat.
Proof.
  unfold raw_varint. generalize 10%nat. intros n. revert v out.
  induction n as [|n IH]; intros v out; cbn [raw_varint_loop]; [lia|].
  destruct (0x80 <=? v).
  - specialize (IH (Z.shiftr v 7) (out ++ [u8 (Z.lor v 0x80)])). rewrite length_app in IH. lia.
  - rewrite length_app. lia.
Qed.

Lemma length_varint n v out : (length out <= length (varint n v out))%nat.
Proof.
  unfold varint, tag. etransitivity; [apply length_raw_varint|apply length_raw_varint].
Qed.

Lemma chunk_payload_ok c : chunk_ok c -> str_ok (as_string (oc_payload c)).
Proof.
  intros (_ & _ & _ & _ & _ & Hl). unfold str_ok, u32_ok in *. split; [lia|].
  eapply Z.le_lt_trans; [|apply Hl]. apply inj_le. unfold write_chunk.
  etransitivity; [|apply length_varint]. etransitivity; [|apply length_varint].
  apply length_bytes_field.
Qed.

Lemma chunk_fields_ok c : chunk_ok c -> Forall field_ok (chunk_fields c).
Proof.
  intros Hc. pose proof (chunk_payload_ok c Hc) as Hp. destruct Hc as (H1 & H2 & H3 & H4 & _).
  unfold chunk_fields. rewrite !Forall_cons. unfold field_ok. cbn [fst snd value_ok].
  split_and!; auto with proto.
Qed.

Lemma write_chunk_spec c : chunk_ok c -> write_chunk c [] = message_bytes (chunk_fields c).
Proof.
  intros Hc. pose proof (chunk_payload_ok c Hc) as Hp. destruct Hc as (H1 & H2 & H3 & H4 & _).
  unfold write_chunk. rewrite !varint_spec, bytes_spec, ?varint_spec by auto with proto.
  rewrite app_nil_l, <-!message_bytes_app. reflexivity.
Qed.

Lemma parse_chunk_spec c :
  chunk_ok c -> parse_ota_chunk_message (message_bytes (chunk_fields c)) = (true, c).
Proof.
  intros Hc. unfold parse_ota_chunk_message.
  rewrite parse_fields_spec by (by apply chunk_fields_ok).
  destruct Hc as (H1 & H2 & H3 & H4 & [p Hp] & _). destruct c as [sq off pl fl crc].
  cbn in *. subst pl. cbn. by rewrite !u32_id by done.
Qed.

Lemma write_chunks_spec cs out :
  Forall chunk_ok cs ->
  foldl (fun w c => message 3 (write_chunk c) w) out cs =
    out ++ message_bytes ((fun c => (3, PBytes (message_bytes (chunk_fields c)))) <$> cs).
Proof.
  intros Hcs. revert out. induction Hcs as [|c cs Hc Hcs IH]; intros out; cbn [foldl].
  { cbn. by rewrite app_nil_r. }
  rewrite IH, (message_spec _ _ (chunk_fields c)).
  - rewrite <-(assoc_L (++)), <-message_bytes_app. reflexivity.
  - auto with proto.
  - by apply write_chunk_spec.
  - rewrite <-write_chunk_spec by done. apply Hc.
Qed.

Definition batch_fields (b : ParsedOtaChunkBatch) : list proto_field :=
  string_fields 1 (ob_job_id b) ++ string_fields 2 (ob_response_request_id b) ++
  ((fun c => (3, PBytes (message_bytes (chunk_fields c)))) <$> ob_chunks b).

Definition batch_ok (b : ParsedOtaChunkBatch) : Prop :=
  ob_job_id b <> [] /\ ob_response_request_id b <> [] /\ ob_chunks b <> [] /\
  str_ok (ob_job_id b) /\ str_ok (ob_response_request_id b) /\
  Forall chunk_ok (ob_chunks b) /\ str_ok (write_batch b []).

Lemma write_batch_spec b : batch_ok b -> write_batch b [] = message_bytes (batch_fields b).
Proof.
  intros (_ & _ & _ & Hj & Hr & Hcs & _). unfold write_batch, batch_fields.
  rewrite write_chunks_spec, !string_spec by auto with proto.
  by rewrite app_nil_l, !message_bytes_app, <-!(assoc_L (++)).
Qed.

Lemma run_chunks cs out :
  Forall chunk_ok cs ->
  run_fields ota_batch_field ((fun c => (3, PBytes (message_bytes (chunk_fields c)))) <$> cs) out =
    (true, out <| ob_chunks ::= fun l => l ++ cs |>).
Proof.
  intros Hcs. revert out. induction Hcs as [|c cs Hc Hcs IH]; intros out.
  { destruct out. unfold upd. cbn. by rewrite app_nil_r. }
  rewrite fmap_cons. cbn [run_fields].
  assert (ota_batch_field (field_read (3, PBytes (message_bytes (chunk_fields c)))) out =
    (true, out <| ob_chunks ::= fun chunks => chunks ++ [c] |>)) as ->.
  { transitivity (let '(ok, chunk) := parse_ota_chunk_message (message_bytes (chunk_fields c)) in
      if ok then (true, out <| ob_chunks ::= fun chunks => chunks ++ [chunk] |>) else (false, out)).
    - reflexivity.
    - by rewrite parse_chunk_spec. }
  rewrite IH. f_equal. destruct out. unfold upd. cbn. by rewrite <-(assoc_L (++)).
Qed.

Lemma parse_batch_spec b :
  batch_ok b -> parse_ota_chunk_batch (message_bytes (batch_fields b)) = (true, b).
Proof.
  intros (Hj0 & Hr0 & Hc0 & Hj & Hr & Hcs & _). unfold parse_ota_chunk_batch.
  rewrite parse_fields_spec.
  2: { unfold batch_fields. repeat apply Forall_app_2; try (apply string_fields_ok; auto with proto).
       apply Forall_fmap. eapply Forall_impl; [exact Hcs|]. intros c Hc. split; cbn [fst snd value_ok].
       - auto with proto.
       - rewrite <-write_chunk_spec by done. apply Hc. }
  unfold batch_fields. destruct b as [job rid cs]. cbn [ob_job_id ob_response_request_id ob_chunks] in *.
  unfold string_fields, nonempty.
  destruct job as [|j job]; [done|]. destruct rid as [|r rid]; [done|].
  cbn [length Nat.eqb negb app run_fields].
  change (ota_batch_field (field_read (1, PBytes (j :: job))) (Build_ParsedOtaChunkBatch [] [] []))
    with (true, Build_ParsedOtaChunkBatch (j :: job) [] []). cbn iota beta.
  change (ota_batch_field (field_read (2, PBytes (r :: rid)))
            (Build_ParsedOtaChunkBatch (j :: job) [] []))
    with (true, Build_ParsedOtaChunkBatch (j :: job) (r :: rid) []). cbn iota beta.
  rewrite run_chunks by done. destruct cs as [|c cs]; [done|]. reflexivity.
Qed.

(** C38: firmware chunks survive the client link: a batch of chunks written by a
    client and wrapped in an envelope is parsed back to the same job, request
    id and chunks, in order, each with its sequence number, offset, payload,
    flags and checksum. *)
Theorem ota_chunk_batch_roundtrip rid b :
  str_ok rid -> batch_ok b ->
  exists data,
    parse_envelope (envelope rid OTA_CHUNK_BATCH (write_batch b)) =
      (true, Build_ParsedEnvelope rid kRuntimeApiVersion
               (envelope_field_number OTA_CHUNK_BATCH) (Some data)) /\
    parse_ota_chunk_batch data = (true, b).
Proof.
  intros Hr Hb. exists (message_bytes (batch_fields b)). pose proof (write_batch_spec b Hb) as Ew.
  assert (str_ok (message_bytes (batch_fields b))) as Hl by (rewrite <-Ew; apply Hb).
  split; [|by apply parse_batch_spec].
  rewrite (envelope_message _ _ _ (batch_fields b)) by done.
  by apply parse_envelope_fields.
Qed.

Definition ota_start_ok (r : ParsedOtaStartRequest) : Prop :=
  os_target_mac r <> [] /\ os_md5 r <> [] /\ 0 < os_file_size r < 2 ^ 32 /\
  0 <= os_preferred_chunk_size r < 65536 /\ str_ok (os_target_mac r) /\ str_ok (os_md5 r) /\
  str_ok (os_sha256 r) /\ str_ok (os_filename r).

Definition auth_ok (r : ParsedAuthResponse) : Prop :=
  client_kind r <> [] /\ client_nonce r <> [] /\ length (hmac_sha256 r) = kRuntimeHmacBytes /\
  str_ok (client_kind r) /\ str_ok (client_name r) /\ str_ok (client_nonce r) /\
  str_ok (hmac_sha256 r).

Ltac solve_fields :=
  repeat first
    [ apply Forall_app_2 | apply string_fields_ok
    | apply Forall_nil_2 | apply Forall_cons_2; [split; cbn [fst snd value_ok]|] ];
  auto with proto.

(** the requests that open a session and a transfer survive the client
    link: a well-formed authentication response (a 32-byte digest, a nonce and a
    client kind) and a well-formed OTA start request are parsed back field by
    field, optional strings included. *)
Theorem client_requests_roundtrip a r :
  auth_ok a -> ota_start_ok r ->
  parse_auth_response (write_auth_response a []) = (true, a) /\
  parse_ota_start_request (write_ota_start r []) = (true, r).
Proof.
  intros (Hk & Hn & Hh & S1 & S2 & S3 & S4) (Ht & Hm & Hf & Hp & T1 & T2 & T3 & T4). split.
  - unfold write_auth_response. rewrite !bytes_spec, !string_spec by auto with proto.
    rewrite app_nil_l, <-!message_bytes_app. unfold parse_auth_response.
    rewrite parse_fields_spec by solve_fields.
    destruct a as [kind name nonce mac]. cbn in Hk, Hn, Hh. cbn [client_kind client_name
      client_nonce hmac_sha256]. unfold string_fields, nonempty.
    destruct kind as [|k kind]; [done|]. destruct nonce as [|x nonce]; [done|].
    destruct name as [|c name]; cbn; by rewrite Hh.
  - assert (u64_ok (os_file_size r)) by (unfold u64_ok; lia).
    assert (u64_ok (os_preferred_chunk_size r)) by (unfold u64_ok; lia).
    unfold write_ota_start. rewrite !varint_spec, !string_spec, ?varint_spec by auto with proto.
    rewrite app_nil_l, <-!message_bytes_app. unfold parse_ota_start_request.
    rewrite parse_fields_spec by solve_fields.
    destruct r as [mac size md5 sha file chunk]. cbn in Ht, Hm, Hf, Hp.
    cbn [os_target_mac os_file_size os_md5 os_sha256 os_filename os_preferred_chunk_size].
    unfold string_fields, nonempty.
    destruct mac as [|m mac]; [done|]. destruct md5 as [|d md5]; [done|].
    destruct (Z.ltb_spec 0 size) as [_|?]; [|lia].
    destruct sha as [|s sha], file as [|f file]; cbn; unfold upd; cbn;
      rewrite u32_small, u16_small by lia; (destruct (Z.ltb_spec 0 size); [done|lia]).
Qed.

(** ** Signed values: the published zigzag map *)
Definition zigzag (v : Z) : Z := if 0 <=? v then 2 * v else - 2 * v - 1.

Lemma lxor_ones w x : 0 <= w -> 0 <= x < 2 ^ w -> Z.lxor x (Z.ones w) = Z.ones w - x.
Proof.
  intros Hw Hx.
  assert (forall n, w <= n -> Z.testbit x n = false) as Hhi.
  { intros n Hn. destruct (decide (x = 0)) as [->|]; [apply Z.bits_0|].
    apply Z.bits_above_log2; [lia|]. apply Z.lt_le_trans with w; [|lia].
    apply Z.log2_lt_pow2; lia. }
  rewrite Z.sub_nocarry_ldiff.
  - apply Z.bits_inj'. intros n Hn. rewrite Z.lxor_spec, Z.ldiff_spec, Z.testbit_ones by lia.
    destruct (Z.leb_spec 0 n); [|lia]. destruct (Z.ltb_spec n w); cbn [andb].
    + by destruct (Z.testbit x n).
    + by rewrite Hhi.
  - apply Z.bits_inj'. intros n Hn. rewrite Z.ldiff_spec, Z.bits_0, Z.testbit_ones by lia.
    destruct (Z.leb_spec 0 n); [|lia]. destruct (Z.ltb_spec n w); cbn [andb negb].
    + by rewrite andb_false_r.
    + by rewrite Hhi.
Qed.

Lemma zigzag_w w v :
  0 < w -> - 2 ^ (w - 1) <= v < 2 ^ (w - 1) ->
  Z.lxor (Z.shiftl (v mod 2 ^ w) 1 mod 2 ^ w) (Z.shiftr v (w - 1) mod 2 ^ w) = zigzag v.
Proof.
  intros Hw Hv. assert (2 ^ w = 2 * 2 ^ (w - 1)) as Ew
    by (rewrite <-Z.pow_succ_r by lia; f_equal; lia).
  assert (Z.shiftl (v mod 2 ^ w) 1 mod 2 ^ w = (2 * v) mod 2 ^ w) as ->.
  { rewrite Z.shiftl_mul_pow2 by lia. change (2 ^ 1) with 2.
    rewrite Z.mul_mod_idemp_l by lia. f_equal. lia. }
  rewrite Z.shiftr_div_pow2 by lia. unfold zigzag. destruct (Z.leb_spec 0 v).
  - rewrite (Z.div_small v), Z.mod_0_l, Z.lxor_0_r, Z.mod_small by lia. done.
  - replace (v / 2 ^ (w - 1)) with (-1) by (apply (Z.div_unique_pos _ _ _ (v + 2 ^ (w - 1))); lia).
    replace (-1 mod 2 ^ w) with (Z.ones w)
      by (rewrite Z.ones_equiv; apply (Z.mod_unique_pos _ _ (-1)); lia).
    replace ((2 * v) mod 2 ^ w) with (2 * v + 2 ^ w)
      by (apply (Z.mod_unique_pos _ _ (-1)); lia).
    assert (Z.lxor (2 * v + 2 ^ w) (Z.ones w) = Z.ones w - (2 * v + 2 ^ w)) as ->.
    { apply lxor_ones; lia. }
    rewrite Z.ones_equiv. lia.
Qed.

(** signed integers are written as protobuf's zigzag varints, for the full
    range of both widths: the bit trick of the code is [2v] for [v >= 0] and
    [-2v - 1] otherwise, and the value fits the varint of its width. *)
Theorem signed_values_zigzag n v out :
  u32_ok n ->
  (- 2 ^ 31 <= v < 2 ^ 31 -> sint32 n v out = varint n (zigzag v) out /\ u32_ok (zigzag v)) /\
  (- 2 ^ 63 <= v < 2 ^ 63 -> sint64 n v out = varint n (zigzag v) out /\ u64_ok (zigzag v)).
Proof.
  intros Hn. unfold sint32, sint64, varint, zigzag32, zigzag64, u32, u64. split; intros Hv.
  - rewrite (zigzag_w 32) by lia. split; [done|]. unfold zigzag, u32_ok.
    destruct (Z.leb_spec 0 v); lia.
  - rewrite (zigzag_w 64) by lia. split; [done|]. unfold zigzag, u64_ok.
    destruct (Z.leb_spec 0 v); lia.
Qed.

(** ** Witnesses *)
Definition demo_chunk (n : Z) (payload : bytes) : ParsedOtaChunk :=
  Build_ParsedOtaChunk n (n * 2048) (Some payload) 0 0x55aa.
Definition demo_batch : ParsedOtaChunkBatch :=
  Build_ParsedOtaChunkBatch (str "b7f1") (str "chunk-42") [demo_chunk 7 [1; 2; 3]; demo_chunk 8 []].

Lemma small_len l : (length l <? 1000)%nat = true -> str_ok l.
Proof. intros E. unfold str_ok, u32_ok. zprop. lia. Qed.

Lemma demo_batch_ok : batch_ok demo_batch.
Proof.
  unfold batch_ok. split_and!; try discriminate; try (by apply small_len).
  repeat (constructor; [unfold chunk_ok; split_and!; first
    [by apply small_len | by eexists | by apply literal_ok]|]). constructor.
Qed.

Lemma ota_chunk_batch_roundtrip_witness :
  exists data,
    parse_envelope (envelope (str "ota-batch-1") OTA_CHUNK_BATCH (write_batch demo_batch)) =
      (true, Build_ParsedEnvelope (str "ota-batch-1") kRuntimeApiVersion
               (envelope_field_number OTA_CHUNK_BATCH) (Some data)) /\
    parse_ota_chunk_batch data = (true, demo_batch).
Proof. apply ota_chunk_batch_roundtrip; [by apply small_len|apply demo_batch_ok]. Defined.

Lemma envelope_roundtrip_witness :
  let fs := [(1, PBytes (str "b7f1")); (2, PBytes (str "user"))] in
  parse_envelope (envelope (str "r") OTA_ABORTED (string_ 1 (str "b7f1") ;> string_ 2 (str "user"))) =
    (true, Build_ParsedEnvelope (str "r") kRuntimeApiVersion (envelope_field_number OTA_ABORTED)
             (Some (message_bytes fs))).
Proof.
  intros fs. apply (envelope_roundtrip (str "r") OTA_ABORTED _ fs);
    [by apply (small_len (str "r"))|by vm_compute|by apply (small_len (message_bytes fs))].
Defined.

Definition demo_start : ParsedOtaStartRequest :=
  Build_ParsedOtaStartRequest (str "AA:BB:CC:DD:EE:FF") 4097
    (str "00112233445566778899aabbccddeeff") [] (str "firmware.ota.bin") 1024.
Definition demo_auth : ParsedAuthResponse :=
  Build_ParsedAuthResponse (str "ha_integration") [] (zseq 0 16) (zseq 0 32).

Lemma client_requests_roundtrip_witness :
  parse_auth_response (write_auth_response demo_auth []) = (true, demo_auth) /\
  parse_ota_start_request (write_ota_start demo_start []) = (true, demo_start).
Proof.
  apply client_requests_roundtrip.
  - unfold auth_ok. split_and!; first [by apply small_len|discriminate|reflexivity].
  - unfold ota_start_ok. split_and!; first [by apply small_len|discriminate|cbn; lia].
Defined.

Lemma parsers_terminate_in_bounds_witness :
  let data := write_batch demo_batch [] in
  let f := Build_Field 1 2 (Some (str "b7f1")) 0 in
  field_inside data 0 6 f /\
  parse_loop 1000 ota_batch_field data 0 (Build_ParsedOtaChunkBatch [] [] []) =
    parse_fields ota_batch_field data (Build_ParsedOtaChunkBatch [] [] []).
Proof.
  intros data f.
  apply (parsers_terminate_in_bounds ota_batch_field data 0 _ f 6 1000);
    [by vm_compute|apply Nat.ltb_lt; by vm_compute].
Defined.

Lemma signed_values_zigzag_witness :
  (- 2 ^ 31 <= -5 < 2 ^ 31 -> sint32 4 (-5) [] = varint 4 (zigzag (-5)) [] /\ u32_ok (zigzag (-5))) /\
  (- 2 ^ 63 <= -5 < 2 ^ 63 -> sint64 4 (-5) [] = varint 4 (zigzag (-5)) [] /\ u64_ok (zigzag (-5))).
Proof. apply signed_values_zigzag. by apply literal_ok. Defined.
