(* ===== verification/Frames.v ===== *)
(** * Frames: headers and relaying

    What both ends of the radio link use about frame headers: their length, the
    fields that enter the tags, and the bytes a relay may rewrite. *)
From S2P Require Import Prelude Wire Crypto.

(** A frame a relay passes on: the hop byte is rewritten and, when its parent
    bit is set, the parent's address goes between header and payload. *)
Definition relayed (hop : Z) (parent frame : bytes) : bytes :=
  take 1 frame ++ [hop] ++ slice 2 15 frame ++
  (if has_parent_check hop then parent else []) ++ drop 17 frame.

Lemma le_bytes_1 z : 0 <= z < 256 -> le_bytes 1 z = [z].
Proof. intros H. unfold le_bytes. by rewrite Z.mod_small. Qed.

Lemma length_header (h : espnow_frame_header_t) : struct_ok h -> length (to_bytes h) = 17%nat.
Proof. intros H. by rewrite (length_to_bytes h H). Qed.

Lemma relayed_header (h : espnow_frame_header_t) hop parent rest :
  struct_ok h -> 0 <= hop < 256 ->
  relayed hop parent (to_bytes h ++ rest) =
    to_bytes (h <| hop_count := hop |>) ++ (if has_parent_check hop then parent else []) ++ rest.
Proof.
  intros Hok Hhop. pose proof (length_header h Hok) as Hl.
  unfold relayed. rewrite take_app_le, drop_app_length' by lia.
  assert (take 1 (to_bytes h) ++ [hop] ++ slice 2 15 (to_bytes h ++ rest) =
          to_bytes (h <| hop_count := hop |>)) as <-.
  { unfold slice. rewrite drop_app_le, take_app_le by (rewrite ?length_drop; lia).
    rewrite (take_ge (drop 2 _)) by (rewrite length_drop; lia).
    unfold upd. destruct Hok as (Hv & Hh & Ht & _). cbn.
    by rewrite !le_bytes_1 by lia. }
  by rewrite <-!(assoc_L (++)).
Qed.

Lemma tag_data_app (h : espnow_frame_header_t) rest d : struct_ok h ->
  tag_data (to_bytes h ++ rest) d = tag_data (to_bytes h) d.
Proof.
  intros Hok. pose proof (length_header h Hok). unfold tag_data, slice. f_equal.
  rewrite drop_app_le, take_app_le by (rewrite ?length_drop; lia). done.
Qed.

(** Only type, leaf and counter of a header enter its tags. *)
Lemma tag_data_same (h h' : espnow_frame_header_t) d :
  struct_ok h -> struct_ok h' -> packet_type h = packet_type h' -> leaf_mac h = leaf_mac h' ->
  tx_counter h = tx_counter h' -> tag_data (to_bytes h) d = tag_data (to_bytes h') d.
Proof. intros ?? Et Em Ec. rewrite !tag_data_header by done. by rewrite Et, Em, Ec. Qed.
