(* ===== verification/Fragments.v ===== *)
(** * Fragments: reassembly of fragmented entity values

    Models the fragment assembly of
    [src/device_code/components/esp_tree_common/espnow_types.h] and the file
    static functions of [esp_tree_bridge/bridge_protocol.cpp] that fill it.
    The theorems say that the fragments of a value, arriving in any order and
    any number of times, give the value back, and that no sequence of
    fragments makes the code read or write outside the assembly buffer. *)
From S2P Require Import Prelude Wire.

Record espnow_fragment_assembly_t := {
  asm_entity_index : Z;
  asm_flags : Z;
  asm_fragment_count : Z;
  asm_message_tx_base : Z;
  asm_first_seen_ms : Z;
  asm_last_seen_ms : Z;
  asm_bytes_received : Z;
  asm_lengths : list Z;
  asm_received : list Z;
  asm_data : bytes;
  asm_active : bool
}.
#[export] Instance eta_assembly : Eta espnow_fragment_assembly_t := fun a =>
  Build_espnow_fragment_assembly_t (asm_entity_index a) (asm_flags a) (asm_fragment_count a)
    (asm_message_tx_base a) (asm_first_seen_ms a) (asm_last_seen_ms a) (asm_bytes_received a)
    (asm_lengths a) (asm_received a) (asm_data a) (asm_active a).

Definition fresh_assembly : espnow_fragment_assembly_t :=
  {| asm_entity_index := 0; asm_flags := 0; asm_fragment_count := 0; asm_message_tx_base := 0;
     asm_first_seen_ms := 0; asm_last_seen_ms := 0; asm_bytes_received := 0; asm_lengths := [];
     asm_received := []; asm_data := []; asm_active := false |}.

Definition reset_fragment_assembly_ (assembly : espnow_fragment_assembly_t) :=
  fresh_assembly.

(** The first branch of [store_fragment_]: the assembly the fragment goes to,
    [None] when the fragment is refused. *)
Definition enter_assembly (assembly : espnow_fragment_assembly_t) (view : EntityPayloadView)
    (message_tx_base now_ms max_entity_fragment max_assembly_bytes : Z)
    : option espnow_fragment_assembly_t :=
  if negb (asm_active assembly) then
    let reserved := view_fragment_count view * max_entity_fragment in
    if max_assembly_bytes <? reserved then None
    else Some {|
      asm_entity_index := view_entity_index view; asm_flags := view_flags view;
      asm_fragment_count := view_fragment_count view; asm_message_tx_base := message_tx_base;
      asm_first_seen_ms := now_ms; asm_last_seen_ms := now_ms; asm_bytes_received := 0;
      asm_lengths := replicate (Z.to_nat (view_fragment_count view)) 0;
      asm_received := replicate (Z.to_nat (view_fragment_count view)) 0;
      asm_data := replicate (Z.to_nat reserved) 0; asm_active := true |}
  else if negb (asm_message_tx_base assembly =? message_tx_base)
          || negb (asm_fragment_count assembly =? view_fragment_count view) then None
  else Some (assembly <| asm_last_seen_ms := now_ms |>).

(** The rest of [store_fragment_]: the result and the assembly it leaves. *)
Definition put_fragment (assembly : espnow_fragment_assembly_t) (view : EntityPayloadView)
    (max_entity_fragment max_assembly_bytes : Z) : bool * espnow_fragment_assembly_t :=
  let assembly := if view_fragment_index view =? asm_fragment_count assembly - 1
                  then assembly <| asm_flags := view_flags view |> else assembly in
  let i := Z.to_nat (view_fragment_index view) in
  if asm_fragment_count assembly <=? view_fragment_index view then (false, assembly)
  else if negb (nth i (asm_received assembly) 0 =? 0) then (true, assembly)
  else
    let offset := Z.to_nat (view_fragment_index view * max_entity_fragment) in
    if (length (asm_data assembly) <? offset + length (view_value view))%nat then (false, assembly)
    else
      let assembly := assembly
        <| asm_data ::= splice offset (view_value view) |>
        <| asm_received ::= <[i := 1]> |>
        <| asm_lengths ::= <[i := u16 (Z.of_nat (length (view_value view)))]> |>
        <| asm_bytes_received ::= fun n => u32 (n + Z.of_nat (length (view_value view))) |> in
      (asm_bytes_received assembly <=? max_assembly_bytes, assembly).

Definition store_fragment_ (assembly : espnow_fragment_assembly_t) (view : EntityPayloadView)
    (message_tx_base now_ms max_entity_fragment max_assembly_bytes : Z)
    : bool * espnow_fragment_assembly_t :=
  match enter_assembly assembly view message_tx_base now_ms max_entity_fragment
          max_assembly_bytes with
  | None => (false, assembly)
  | Some assembly => put_fragment assembly view max_entity_fragment max_assembly_bytes
  end.

Definition fragment_assembly_complete_ (assembly : espnow_fragment_assembly_t) : bool :=
  asm_active assembly && negb (asm_fragment_count assembly =? 0) &&
  forallb (fun i => negb (nth i (asm_received assembly) 0 =? 0))
    (seq 0 (Z.to_nat (asm_fragment_count assembly))).

Definition assemble_fragment_payload_ (assembly : espnow_fragment_assembly_t)
    (max_entity_fragment : Z) : bytes :=
  mjoin ((fun i => slice (Z.to_nat (Z.of_nat i * max_entity_fragment))
                     (Z.to_nat (nth i (asm_lengths assembly) 0)) (asm_data assembly))
         <$> seq 0 (Z.to_nat (asm_fragment_count assembly))).

(** The pieces [send_command_fragments_] cuts a value into. *)
Definition chunk_count (frag_size : Z) (value : bytes) : Z :=
  Z.max 1 ((Z.of_nat (length value) + frag_size - 1) / frag_size).
Definition fragment_value (frag_size : Z) (value : bytes) (chunk : nat) : bytes :=
  slice (Z.to_nat (Z.of_nat chunk * frag_size)) (Z.to_nat frag_size) value.

(** The view a receiver parses from piece [i], sent with [flags i]. *)
Definition fragment_view (entity_index frag_size : Z) (flags : nat -> Z) (value : bytes)
    (i : nat) : EntityPayloadView := {|
  view_entity_index := entity_index; view_flags := flags i;
  view_fragment_index := Z.of_nat i; view_fragment_count := chunk_count frag_size value;
  view_value := fragment_value frag_size value i |}.

(** A run of the receiver over fragments with their arrival times. *)
Fixpoint store_all (assembly : espnow_fragment_assembly_t) (base frag maxb : Z)
    (arrivals : list (EntityPayloadView * Z)) : bool * espnow_fragment_assembly_t :=
  match arrivals with
  | [] => (true, assembly)
  | (view, now) :: arrivals =>
    let '(ok, assembly) := store_fragment_ assembly view base now frag maxb in
    let '(oks, assembly) := store_all assembly base frag maxb arrivals in
    (ok && oks, assembly)
  end.

(** ** Memory safety

    What holds of every assembly, whatever fragments it was given: every
    fragment that counts as received lies inside the buffer. *)
Record assembly_ok (frag maxb : Z) (a : espnow_fragment_assembly_t) : Prop := {
  ok_count : 0 <= asm_fragment_count a;
  ok_lengths : length (asm_lengths a) = Z.to_nat (asm_fragment_count a);
  ok_received : length (asm_received a) = Z.to_nat (asm_fragment_count a);
  ok_data : Z.of_nat (length (asm_data a)) =
            if asm_active a then asm_fragment_count a * frag else 0;
  ok_cap : Z.of_nat (length (asm_data a)) <= maxb;
  ok_inside i : (i < Z.to_nat (asm_fragment_count a))%nat ->
    Z.of_nat i * frag + nth i (asm_lengths a) 0 <= Z.of_nat (length (asm_data a));
  ok_nonneg i : 0 <= nth i (asm_lengths a) 0
}.

Definition view_ok (view : EntityPayloadView) : Prop :=
  0 <= view_fragment_index view < view_fragment_count view.

Lemma fresh_assembly_ok frag maxb : 0 <= maxb -> assembly_ok frag maxb fresh_assembly.
Proof. intros ?. constructor; cbn; intros; try lia. by destruct i. Qed.

Lemma nth_replicate_0 n i : nth i (replicate n 0) 0 = 0.
Proof. revert i. induction n as [|n IH]; intros [|i]; cbn; auto. Qed.

Lemma nth_insert (l : list Z) i j x :
  nth j (<[i := x]> l) 0 = if decide (i = j /\ (i < length l)%nat) then x else nth j l 0.
Proof.
  rewrite !nth_lookup. case_decide as D.
  - destruct D as [<- ?]. by rewrite list_lookup_insert_eq.
  - destruct (decide (i = j)) as [<-|?].
    + rewrite list_insert_ge by lia. done.
    + by rewrite list_lookup_insert_ne.
Qed.

Lemma enter_assembly_ok frag maxb a view base now a' :
  0 <= frag -> view_ok view -> assembly_ok frag maxb a ->
  enter_assembly a view base now frag maxb = Some a' ->
  assembly_ok frag maxb a' /\ asm_active a' = true /\
  asm_fragment_count a' = view_fragment_count view.
Proof.
  intros Hf Hv [] E. unfold view_ok in Hv. unfold enter_assembly in E. destruct (asm_active a) eqn:Ha; cbn in E.
  - destruct (_ || _) eqn:Hb in E; [done|]. injection E as <-. unfold upd; cbn.
    apply orb_false_iff in Hb as [_ Hb]. apply negb_false_iff, Z.eqb_eq in Hb.
    split; [constructor; cbn; rewrite ?Ha; auto|done].
  - destruct (Z.ltb_spec maxb (view_fragment_count view * frag)); [done|]. injection E as <-.
    split; [|done]. constructor; cbn; rewrite ?length_replicate; try lia.
    all: intros; rewrite ?nth_replicate_0; nia.
Qed.

Lemma put_fragment_ok frag maxb a view :
  0 <= frag -> maxb < 65536 -> 0 <= view_fragment_index view -> asm_active a = true ->
  assembly_ok frag maxb a -> assembly_ok frag maxb (put_fragment a view frag maxb).2.
Proof.
  intros Hf Hm Hi Ha Hok. unfold put_fragment.
  set (a1 := if _ =? _ then _ else a).
  assert (assembly_ok frag maxb a1 /\ asm_active a1 = true) as [Hok1 Ha1]
    by (destruct Hok; subst a1; destruct (view_fragment_index view =? _);
        unfold upd; cbn; split; try done; constructor; cbn; auto).
  clearbody a1. clear Hok Ha a.
  destruct (Z.leb_spec (asm_fragment_count a1) (view_fragment_index view)); [done|].
  destruct (negb _); [done|]. destruct (Nat.ltb_spec (length (asm_data a1))
    (Z.to_nat (view_fragment_index view * frag) + length (view_value view))) as [|Hin]; [done|].
  destruct Hok1 as [h1 h2 h3 h4 h5 h6 h7]. unfold upd; cbn [snd].
  constructor; cbn; rewrite ?length_insert, ?length_splice by lia; try done.
  - intros i Hlt. rewrite nth_insert. case_decide as D; [|auto].
    destruct D as [<- _]. rewrite u16_small by nia. nia.
  - intros i. rewrite nth_insert. case_decide; [|auto]. pose proof (u16_range (Z.of_nat (length (view_value view)))). lia.
Qed.

(** C31: Memory safety of reassembly.  Whatever sequence of parsed fragments an
    assembly is given, the buffer never exceeds the session's assembly limit,
    every fragment is copied inside the buffer (its size never changes while
    the assembly is active) and every range [assemble_fragment_payload_] reads
    lies inside the buffer, so the value it returns has exactly the sum of the
    recorded lengths. *)
Theorem reassembly_stays_in_bounds frag maxb base arrivals :
  0 <= frag -> 0 <= maxb < 65536 -> Forall (fun '(view, _) => view_ok view) arrivals ->
  let a := (store_all fresh_assembly base frag maxb arrivals).2 in
  assembly_ok frag maxb a /\
  length (assemble_fragment_payload_ a frag) =
    sum_list (Z.to_nat <$> asm_lengths a).
Proof.
  intros Hf Hm Hv. cbn zeta.
  assert (forall a, assembly_ok frag maxb a ->
    assembly_ok frag maxb (store_all a base frag maxb arrivals).2) as Hall.
  { induction Hv as [|[view now] l Hview Hl IH]; intros a Hok; [done|]. cbn.
    assert (assembly_ok frag maxb (store_fragment_ a view base now frag maxb).2) as Hs.
    { unfold store_fragment_. destruct (enter_assembly _ _ _ _ _ _) as [a'|] eqn:E; [|done].
      destruct (enter_assembly_ok frag maxb a view base now a') as (? & ? & ?); auto.
      apply put_fragment_ok; auto; try lia. destruct Hview; lia. }
    destruct (store_fragment_ _ _ _ _ _ _) as [ok a']. cbn in Hs. specialize (IH a' Hs).
    by destruct (store_all _ _ _ _ _). }
  specialize (Hall fresh_assembly (fresh_assembly_ok frag maxb ltac:(lia))). split; [done|].
  set (a := (store_all _ _ _ _ _).2) in *. clearbody a. clear - Hf Hall.
  destruct Hall as [h1 h2 h3 h4 h5 h6 h7]. unfold assemble_fragment_payload_.
  rewrite <-h2. rewrite length_join.
  f_equal. apply list_eq. intros i. rewrite !list_lookup_fmap.
  destruct (decide (i < length (asm_lengths a))%nat) as [Hi|Hi].
  - rewrite lookup_seq_lt by done. cbn. destruct (asm_lengths a !! i) as [n|] eqn:En.
    2: { apply lookup_ge_None in En. lia. }
    cbn. f_equal. specialize (h6 i). specialize (h7 i). rewrite (nth_lookup_Some _ _ _ _ En) in *.
    rewrite length_slice. rewrite h2 in Hi. specialize (h6 Hi). nia.
  - rewrite lookup_seq_ge by lia. by rewrite (lookup_ge_None_2 (asm_lengths a)) by lia.
Qed.

(** ** Reassembly gives the value back *)
Section reassembly.
Context (entity frag maxb base : Z) (flags : nat -> Z) (value : bytes).
Hypothesis frag_pos : 0 < frag.
Abbreviation n := (Z.to_nat (chunk_count frag value)).
Abbreviation F := (Z.to_nat frag).
Abbreviation piece := (fragment_value frag value).
Abbreviation view := (fragment_view entity frag flags value).

Lemma piece_offset i : Z.to_nat (Z.of_nat i * frag) = (i * F)%nat.
Proof. clear -frag_pos. lia. Qed.

Lemma chunk_count_covers : (0 < n)%nat /\ (length value <= n * F)%nat.
Proof.
  unfold chunk_count. set (len := Z.of_nat (length value)).
  pose proof (Z.mod_pos_bound (len + frag - 1) frag frag_pos).
  pose proof (Z.div_mod (len + frag - 1) frag ltac:(lia)).
  set (q := (len + frag - 1) / frag) in *. split; [lia|].
  apply Nat2Z.inj_le. rewrite Nat2Z.inj_mul, !Z2Nat.id by lia. fold len.
  destruct (Z.max_spec 1 q) as [[? ->]|[? ->]]; nia.
Qed.

Lemma length_piece i : (length (piece i) <= F)%nat.
Proof. unfold fragment_value. rewrite length_slice. lia. Qed.

Lemma pieces_take m : mjoin (piece <$> seq 0 m) = take (m * F) value.
Proof.
  induction m as [|m IH]; [done|].
  rewrite seq_S, fmap_app, join_app, IH. unfold fragment_value. cbn.
  rewrite app_nil_r. rewrite piece_offset.
  pose proof (slice_slice_app 0 (m * F) F value) as E. unfold slice in *. rewrite drop_0 in E. cbn in E.
  rewrite E. f_equal. lia.
Qed.

(** The assembly holds exactly the pieces of [got]. *)
Record holds (got : list nat) (a : espnow_fragment_assembly_t) : Prop := {
  holds_active : asm_active a = true;
  holds_count : asm_fragment_count a = chunk_count frag value;
  holds_base : asm_message_tx_base a = base;
  holds_received : asm_received a =
    (fun i => if bool_decide (i ∈ got) then 1 else 0) <$> seq 0 n;
  holds_lengths : asm_lengths a =
    (fun i => if bool_decide (i ∈ got) then Z.of_nat (length (piece i)) else 0) <$> seq 0 n;
  holds_size : length (asm_data a) = (n * F)%nat;
  holds_pieces i : i ∈ got -> slice (i * F) (length (piece i)) (asm_data a) = piece i;
  holds_bytes : asm_bytes_received a = foldr Z.add 0 (asm_lengths a);
  holds_flags : (n - 1)%nat ∈ got -> asm_flags a = flags (n - 1)
}.

Lemma fold_insert (l : list Z) i x : nth i l 0 = 0 -> (i < length l)%nat ->
  foldr Z.add 0 (<[i := x]> l) = foldr Z.add 0 l + x.
Proof.
  revert i. induction l as [|y l IH]; intros [|i] Hn Hi; cbn in *; try lia.
  change (list_insert i x l) with (<[i := x]> l). rewrite IH by (done || lia). lia.
Qed.

Lemma fold_bound (l : list Z) b : (forall x, x ∈ l -> 0 <= x <= b) ->
  0 <= foldr Z.add 0 l <= Z.of_nat (length l) * b.
Proof.
  induction l as [|y l IH]; intros H; cbn; [lia|].
  assert (0 <= y <= b) by (apply H; left).
  assert (0 <= foldr Z.add 0 l <= Z.of_nat (length l) * b) by (apply IH; intros; apply H; by right).
  nia.
Qed.

Lemma nth_marks (f : nat -> Z) (got : list nat) i : (i < n)%nat ->
  nth i ((fun i => if bool_decide (i ∈ got) then f i else 0) <$> seq 0 n) 0 =
  if bool_decide (i ∈ got) then f i else 0.
Proof. intros Hi. rewrite nth_lookup, list_lookup_fmap, lookup_seq_lt by done. done. Qed.

Lemma no_marks (f : nat -> Z) m :
  (fun i => if bool_decide (i ∈ @nil nat) then f i else 0) <$> seq 0 m = replicate m 0.
Proof.
  apply list_eq. intros j. rewrite list_lookup_fmap. destruct (decide (j < m)%nat).
  - rewrite lookup_seq_lt, lookup_replicate_2 by done. done.
  - by rewrite lookup_seq_ge, (lookup_ge_None_2 (replicate _ _)) by (rewrite ?length_replicate; lia).
Qed.

Lemma mark_cons (got : list nat) i j : i <> j \/ i ∈ got ->
  bool_decide (j ∈ i :: got) = bool_decide (j ∈ got).
Proof.
  intros H. apply bool_decide_ext. rewrite elem_of_cons. split; [|by right].
  intros [->|]; [destruct H; [congruence|done]|done].
Qed.

Lemma insert_marks (f : nat -> Z) (got : list nat) i x : f i = x ->
  <[i := x]> ((fun i => if bool_decide (i ∈ got) then f i else 0) <$> seq 0 n) =
  (fun j => if bool_decide (j ∈ i :: got) then f j else 0) <$> seq 0 n.
Proof.
  intros <-. apply list_eq. intros j. destruct (decide (i = j)) as [<-|Hne].
  - destruct (decide (i < n)%nat) as [Hi|Hi].
    + rewrite list_lookup_insert_eq by (rewrite length_fmap, length_seq; lia).
      rewrite list_lookup_fmap, lookup_seq_lt by done. cbn.
      by rewrite bool_decide_true by left.
    + rewrite list_insert_ge by (rewrite length_fmap, length_seq; lia).
      by rewrite !list_lookup_fmap, lookup_seq_ge by lia.
  - rewrite list_lookup_insert_ne by done. rewrite !list_lookup_fmap.
    destruct (seq 0 n !! j) as [k|] eqn:E; [|done]. cbn.
    apply lookup_seq in E as [-> ?]. cbn.
    by rewrite mark_cons by auto.
Qed.

Lemma put_holds got a i : (i < n)%nat -> chunk_count frag value * frag <= maxb -> maxb < 65536 ->
  holds got a ->
  exists a', put_fragment a (view i) frag maxb = (true, a') /\ holds (i :: got) a'.
Proof.
  intros Hi Hcap Hmax [ha hc hb hr hl hs hp hby hf].
  pose proof chunk_count_covers as [Hn Hcov]. pose proof (length_piece i) as Hlen.
  unfold put_fragment. set (a1 := if _ =? _ then _ else a).
  assert (a1 = a <| asm_flags := if decide (i = n - 1)%nat then flags i else asm_flags a |>) as Ea1.
  { subst a1. cbn. rewrite hc. destruct (Z.eqb_spec (Z.of_nat i) (chunk_count frag value - 1));
      case_decide; try lia; [done|by destruct a]. }
  rewrite Ea1. clear a1 Ea1. unfold upd; cbn [asm_fragment_count asm_received asm_data asm_lengths
    asm_bytes_received view_fragment_index view_value fragment_view].
  rewrite hc. destruct (Z.leb_spec (chunk_count frag value) (Z.of_nat i)); [lia|].
  rewrite Nat2Z.id, hr, (nth_marks (fun _ => 1)) by done.
  destruct (bool_decide_reflect (i ∈ got)) as [Hgot|Hgot]; cbn [negb Z.eqb].
  { eexists; split; [done|]. constructor; cbn; auto.
    - apply list_fmap_ext. intros ? j _. by rewrite mark_cons by auto.
    - rewrite hl. apply list_fmap_ext. intros ? j _. by rewrite mark_cons by auto.
    - intros j [->|]%elem_of_cons; auto.
    - intros [->|]%elem_of_cons; case_decide; subst; auto; lia. }
  rewrite piece_offset. destruct (Nat.ltb_spec (length (asm_data a)) (i * F + length (piece i))); [nia|].
  assert (Z.of_nat (length (piece i)) < 65536) as Hsmall.
  { assert (1 <= chunk_count frag value) by lia. nia. }
  rewrite u16_small by lia.
  set (lens := <[i := _]> (asm_lengths a)).
  assert (lens = (fun j => if bool_decide (j ∈ i :: got) then Z.of_nat (length (piece j)) else 0) <$> seq 0 n)
    as Elens by (subst lens; rewrite hl; by apply (insert_marks (fun j => Z.of_nat (length (piece j))))).
  assert (foldr Z.add 0 lens = asm_bytes_received a + Z.of_nat (length (piece i))) as Esum.
  { subst lens. rewrite fold_insert, hby; [done| |rewrite hl, length_fmap, length_seq; done].
    rewrite hl, (nth_marks (fun j => Z.of_nat (length (piece j)))) by done. by rewrite bool_decide_false. }
  assert (0 <= foldr Z.add 0 lens <= maxb) as Hsum.
  { destruct (fold_bound lens frag) as [B1 B2].
    - intros x Hx. rewrite Elens in Hx. apply list_elem_of_fmap in Hx as (j & -> & _).
      pose proof (length_piece j). case_bool_decide; lia.
    - rewrite Elens in B2 at 2. rewrite length_fmap, length_seq in B2. lia. }
  rewrite u32_small by lia. eexists. split.
  { f_equal. apply Z.leb_le. lia. }
  constructor; cbn; auto.
  - by apply (insert_marks (fun _ => 1)).
  - rewrite length_splice; lia.
  - intros j [->|Hj]%elem_of_cons; [apply slice_splice_same; nia|].
    destruct (decide (j = i)) as [->|Hne]; [apply slice_splice_same; nia|].
    rewrite slice_splice_disjoint; auto; pose proof (length_piece j); nia.
  - intros [->|]%elem_of_cons; case_decide; subst; auto; lia.
Qed.

Lemma enter_holds got a i now : holds got a ->
  enter_assembly a (view i) base now frag maxb = Some (a <| asm_last_seen_ms := now |>) /\
  holds got (a <| asm_last_seen_ms := now |>).
Proof.
  intros []. unfold enter_assembly. rewrite holds_active0, holds_count0, holds_base0. cbn.
  rewrite !Z.eqb_refl. split; [done|]. unfold upd. constructor; cbn; auto.
Qed.

Lemma enter_fresh i now : chunk_count frag value * frag <= maxb ->
  exists a, enter_assembly fresh_assembly (view i) base now frag maxb = Some a /\ holds [] a.
Proof.
  intros Hcap. unfold enter_assembly. cbn. destruct (Z.ltb_spec maxb (chunk_count frag value * frag)); [lia|].
  eexists; split; [done|]. constructor; cbn; auto.
  - by rewrite (no_marks (fun _ => 1)).
  - by rewrite (no_marks (fun j => Z.of_nat (length (piece j)))).
  - rewrite length_replicate. unfold chunk_count. lia.
  - by intros ? ?%elem_of_nil.
  - induction (Z.to_nat _); cbn; lia.
  - by intros ?%elem_of_nil.
Qed.

Lemma store_all_holds got a arrivals : holds got a ->
  chunk_count frag value * frag <= maxb -> maxb < 65536 ->
  Forall (fun '(i, _) => i < n)%nat arrivals ->
  exists a', store_all a base frag maxb ((fun '(i, now) => (view i, now)) <$> arrivals) = (true, a') /\
             holds (rev arrivals.*1 ++ got) a'.
Proof.
  intros Ha Hcap Hmax Hl. revert got a Ha. induction Hl as [|[i now] l Hi Hl IH]; intros got a Ha.
  { by exists a. }
  cbn. unfold store_fragment_. destruct (enter_holds got a i now Ha) as [-> Ha1].
  destruct (put_holds got _ i Hi Hcap Hmax Ha1) as (a2 & -> & Ha2).
  destruct (IH _ _ Ha2) as (a' & -> & Ha'). exists a'. split; [done|].
  by rewrite <-app_assoc.
Qed.

Lemma holds_complete got a : holds got a ->
  fragment_assembly_complete_ a = true <-> forall i, (i < n)%nat -> i ∈ got.
Proof.
  intros [ha hc hb hr hl hs hp hby hf]. pose proof chunk_count_covers as [Hn _].
  unfold fragment_assembly_complete_. rewrite ha, hc, hr.
  destruct (Z.eqb_spec (chunk_count frag value) 0); [lia|]. cbn [andb negb].
  rewrite forallb_forall. setoid_rewrite <-list_elem_of_In. setoid_rewrite elem_of_seq.
  split; intros H i Hi; specialize (H i).
  - specialize (H ltac:(lia)). rewrite (nth_marks (fun _ => 1)) in H by done.
    by destruct (bool_decide_reflect (i ∈ got)).
  - rewrite (nth_marks (fun _ => 1)) by lia. rewrite bool_decide_true; [done|]. apply H. lia.
Qed.

Lemma holds_value got a : holds got a -> (forall i, (i < n)%nat -> i ∈ got) ->
  assemble_fragment_payload_ a frag = value.
Proof.
  intros [ha hc hb hr hl hs hp hby hf] Hall. unfold assemble_fragment_payload_. rewrite hc.
  transitivity (mjoin (piece <$> seq 0 n)).
  - f_equal. apply list_fmap_ext. intros j i [-> Hi]%lookup_seq. cbn.
    rewrite piece_offset, hl, (nth_marks (fun j => Z.of_nat (length (piece j)))) by done.
    rewrite bool_decide_true, Nat2Z.id by auto. auto.
  - rewrite pieces_take. apply take_ge. apply chunk_count_covers.
Qed.
End reassembly.

(** The payload of piece [i] as [send_command_fragments_] builds it. *)
Definition fragment_payload (entity_index frag_size : Z) (flags : nat -> Z) (value : bytes)
    (i : nat) : bytes :=
  append_entity_payload entity_index (flags i) (Z.of_nat i) (chunk_count frag_size value)
    (fragment_value frag_size value i).

#[local] Arguments fragment_payload : simpl never.

(** What a receiver does with the payloads of one message: parse, store. *)
Definition receive_all (base frag maxb : Z) (arrivals : list (bytes * Z))
    : option (bool * espnow_fragment_assembly_t) :=
  store_all fresh_assembly base frag maxb <$>
    mapM (fun '(payload, now) => view ← parse_entity_payload payload; Some (view, now)) arrivals.

Lemma parse_fragment_payload entity frag flags value i :
  0 <= entity < 256 -> 0 <= flags i < 256 -> Z.of_nat i < chunk_count frag value < 256 ->
  parse_entity_payload (fragment_payload entity frag flags value i) =
  Some (fragment_view entity frag flags value i).
Proof. intros. apply parse_append_entity_payload; lia. Qed.

(** C30: Reassembly refines the value.  A value that fits the assembly limit is
    cut into pieces and sent; the receiver gets any sequence of these pieces,
    in any order, with any repetition (retransmissions), at any times.  Every
    piece is accepted; the assembly is complete exactly when each piece has
    arrived at least once; and then [assemble_fragment_payload_] returns the
    value, byte for byte, with the flags of its last piece. *)
Theorem reassembly_any_order entity frag maxb base flags value arrivals :
  0 < frag -> maxb < 65536 -> chunk_count frag value * frag <= maxb ->
  chunk_count frag value < 256 -> 0 <= entity < 256 -> (forall i, 0 <= flags i < 256) ->
  arrivals <> [] ->
  Forall (fun '(i, _) => Z.of_nat i < chunk_count frag value) arrivals ->
  exists a,
    receive_all base frag maxb
      ((fun '(i, now) => (fragment_payload entity frag flags value i, now)) <$> arrivals)
      = Some (true, a) /\
    (fragment_assembly_complete_ a = true <->
     forall i, Z.of_nat i < chunk_count frag value -> i ∈ arrivals.*1) /\
    (fragment_assembly_complete_ a = true ->
     assemble_fragment_payload_ a frag = value /\
     asm_flags a = flags (Z.to_nat (chunk_count frag value) - 1)%nat).
Proof.
  intros Hf Hm Hcap Hc He Hfl Hne Hl. unfold receive_all.
  assert (Forall (fun '(i, _) => i < Z.to_nat (chunk_count frag value))%nat arrivals) as Hl'.
  { eapply Forall_impl; [exact Hl|]. intros [i now] ?. lia. }
  assert (mapM (fun '(payload, now) => view ← parse_entity_payload payload; Some (view, now))
    ((fun '(i, now) => (fragment_payload entity frag flags value i, now)) <$> arrivals) =
    Some ((fun '(i, now) => (fragment_view entity frag flags value i, now)) <$> arrivals)) as ->.
  { clear Hl' Hne. induction Hl as [|[i now] l Hi Hl IH]; [done|]. cbn.
    rewrite (parse_fragment_payload entity frag flags value i) by (auto; lia). cbn. by rewrite IH. }
  cbn [fmap option_fmap option_map]. destruct arrivals as [|[i now] l]; [done|]. clear Hne.
  apply Forall_cons in Hl' as [Hi Hl'].
  destruct (enter_fresh entity frag maxb base flags value Hf i now Hcap) as (a0 & E0 & H0).
  destruct (put_holds entity frag maxb base flags value Hf [] a0 i Hi Hcap Hm H0) as (a1 & E1 & H1).
  destruct (store_all_holds entity frag maxb base flags value Hf _ a1 l H1 Hcap Hm Hl') as (a & E & Ha).
  exists a. cbn. unfold store_fragment_ at 1. rewrite E0, E1, E. split; [done|].
  pose proof (holds_complete _ _ _ _ Hf _ _ Ha) as Hcomp.
  assert (forall j, j ∈ rev l.*1 ++ [i] <-> j ∈ i :: l.*1) as Hin.
  { intros j. rewrite !list_elem_of_In, in_app_iff, <-in_rev. cbn. tauto. }
  split.
  - rewrite Hcomp. split; intros H j Hj; specialize (H j ltac:(lia)); by apply Hin.
  - intros Hd. pose proof (proj1 Hcomp Hd) as Hall. split; [by eapply holds_value|].
    eapply holds_flags; [done|]. apply Hall. pose proof (chunk_count_covers frag value Hf). lia.
Qed.

(** ** Tables of partly received messages *)
(** Partly received messages of one kind, by entity, and the bytes reserved. *)
Record Reassembly := {
  assemblies : gmap Z espnow_fragment_assembly_t;
  reserved_bytes : Z
}.
#[export] Instance eta_reassembly : Eta Reassembly := fun r =>
  Build_Reassembly (assemblies r) (reserved_bytes r).
Definition no_reassembly : Reassembly := {| assemblies := ∅; reserved_bytes := 0 |}.

(** *** Admission

    What [handle_schema_push_] and [handle_state_] do, in the same words, with
    a parsed fragment: find or make the assembly of its entity, replace an
    older message, check the session's cap and store. *)
Definition store_admitted (r : Reassembly) (view : EntityPayloadView)
    (message_tx_base now max_entity_fragment max_assembly_bytes max_total_fragment_bytes : Z)
    : bool * Reassembly :=
  let assembly := default fresh_assembly (assemblies r !! view_entity_index view) in
  let reserved_after := u32 (reserved_bytes r + view_fragment_count view * max_entity_fragment) in
  if negb (asm_active assembly) && (max_total_fragment_bytes <? reserved_after) then (false, r)
  else
    let '(ok, assembly) := store_fragment_ assembly view message_tx_base now
                             max_entity_fragment max_assembly_bytes in
    (ok, r <| assemblies ::= <[view_entity_index view := assembly]> |>).

Definition admit_fragment (r : Reassembly) (view : EntityPayloadView)
    (message_tx_base now max_entity_fragment max_assembly_bytes max_total_fragment_bytes : Z)
    : bool * Reassembly :=
  match assemblies r !! view_entity_index view with
  | None =>
    if (Z.to_nat ESPNOW_MAX_PENDING_FRAGMENT_ASSEMBLIES <=? size (assemblies r))%nat then (false, r)
    else store_admitted
           (r <| assemblies ::= <[view_entity_index view := fresh_assembly]> |>
              <| reserved_bytes ::= fun n =>
                   u32 (n + view_fragment_count view * max_entity_fragment) |>)
           view message_tx_base now max_entity_fragment max_assembly_bytes max_total_fragment_bytes
  | Some assembly =>
    let r := if asm_active assembly && negb (asm_message_tx_base assembly =? message_tx_base)
                && (asm_message_tx_base assembly <? message_tx_base)
             then r <| assemblies ::= <[view_entity_index view :=
                                          reset_fragment_assembly_ assembly]> |>
             else r in
    store_admitted r view message_tx_base now max_entity_fragment max_assembly_bytes
      max_total_fragment_bytes
  end.

(** The completed message leaves the table; [release] is what the handler
    subtracts from the reservation. *)
Definition take_assembly (r : Reassembly) (entity release : Z) : Reassembly :=
  r <| reserved_bytes ::= fun n => u32 (n - release) |> <| assemblies ::= delete entity |>.

(** The expiry loops of [loop]. *)
Definition assembly_expired (now : Z) (a : espnow_fragment_assembly_t) : bool :=
  asm_active a &&
  (ESPNOW_FRAGMENT_ASSEMBLY_TIMEOUT_MS <=? u32 (now - asm_last_seen_ms a)).

Definition expire_assemblies (now : Z) (release : espnow_fragment_assembly_t -> Z)
    (r : Reassembly) : Reassembly :=
  let expired := filter (fun '(_, a) => assembly_expired now a = true) (map_to_list (assemblies r)) in
  foldl (fun r '(entity, a) => take_assembly r entity (release a)) r expired.

Definition data_size (a : espnow_fragment_assembly_t) : Z := Z.of_nat (length (asm_data a)).
Definition fragment_reserve (max_entity_fragment : Z) (a : espnow_fragment_assembly_t) : Z :=
  asm_fragment_count a * max_entity_fragment.

(** *** Their invariant *)

(** At most eight messages of a kind, each inside its limits. *)
Definition table_ok (frag maxb : Z) (r : Reassembly) : Prop :=
  (size (assemblies r) <= Z.to_nat ESPNOW_MAX_PENDING_FRAGMENT_ASSEMBLIES)%nat /\
  map_Forall (fun _ a => assembly_ok frag maxb a) (assemblies r).

Lemma no_reassembly_ok frag maxb : table_ok frag maxb no_reassembly.
Proof. split; cbn; [rewrite map_size_empty; lia|apply map_Forall_empty]. Qed.

Lemma parse_entity_view_ok payload view :
  bytes_ok payload -> parse_entity_payload payload = Some view -> view_ok view.
Proof.
  intros Hok. unfold parse_entity_payload.
  destruct (Nat.ltb_spec (length payload) (sizeof espnow_entity_packet_header_t)) as [|Hl]; [done|].
  pose proof (of_bytes_ok (T := espnow_entity_packet_header_t) payload Hok Hl) as H. cbn zeta.
  set (h := of_bytes payload) in *. clearbody h. cbn in H.
  destruct (_ =? 0); [done|]. destruct (Z.leb_spec (eh_fragment_count h) (eh_fragment_index h)); [done|].
  intros [= <-]. unfold view_ok. cbn. lia.
Qed.

Lemma store_fragment_ok frag maxb a view base now :
  0 <= frag -> 0 <= maxb < 65536 -> view_ok view -> assembly_ok frag maxb a ->
  assembly_ok frag maxb (store_fragment_ a view base now frag maxb).2.
Proof.
  intros Hf Hm Hv Hok. unfold store_fragment_.
  destruct (enter_assembly _ _ _ _ _ _) as [a'|] eqn:E; [|done].
  destruct (enter_assembly_ok frag maxb a view base now a' Hf Hv Hok E) as (? & ? & ?).
  apply put_fragment_ok; try done; [lia|]. by destruct Hv.
Qed.

Lemma store_admitted_ok frag maxb cap r view base now :
  0 <= frag -> 0 <= maxb < 65536 -> view_ok view -> table_ok frag maxb r ->
  is_Some (assemblies r !! view_entity_index view) ->
  table_ok frag maxb (store_admitted r view base now frag maxb cap).2.
Proof.
  intros Hf Hm Hv [Hs Ha] [a Hin]. unfold store_admitted. rewrite Hin. cbn [default].
  destruct (_ && _); [done|].
  pose proof (store_fragment_ok frag maxb a view base now Hf Hm Hv (Ha _ _ Hin)) as Hst.
  destruct (store_fragment_ _ _ _ _ _ _) as [ok a']. unfold upd; cbn in *. split; cbn.
  - rewrite map_size_insert_Some; [done|by exists a].
  - by apply map_Forall_insert_2.
Qed.

Lemma admit_fragment_ok frag maxb cap r view base now :
  0 <= frag -> 0 <= maxb < 65536 -> view_ok view -> table_ok frag maxb r ->
  table_ok frag maxb (admit_fragment r view base now frag maxb cap).2.
Proof.
  intros Hf Hm Hv Hr. unfold admit_fragment.
  pose proof (fresh_assembly_ok frag maxb ltac:(lia)) as Hfresh.
  destruct Hr as [Hs Ha]. destruct (assemblies r !! view_entity_index view) as [a|] eqn:Hin.
  - apply store_admitted_ok; try done.
    + destruct (_ && _); [|done]. unfold upd; split; cbn.
      * by rewrite map_size_insert_Some by (by exists a).
      * by apply map_Forall_insert_2.
    + destruct (_ && _); [|by exists a]. unfold upd; cbn. rewrite lookup_insert_eq. by eexists.
  - destruct (Nat.leb_spec (Z.to_nat ESPNOW_MAX_PENDING_FRAGMENT_ASSEMBLIES) (size (assemblies r)));
      [done|].
    apply store_admitted_ok; try done; unfold upd; cbn.
    + split; cbn; [rewrite map_size_insert_None by done; lia|by apply map_Forall_insert_2].
    + rewrite lookup_insert_eq. by eexists.
Qed.

Lemma take_assembly_ok frag maxb r entity n :
  table_ok frag maxb r -> table_ok frag maxb (take_assembly r entity n).
Proof.
  intros [Hs Ha]. unfold take_assembly, upd; split; cbn.
  - destruct (assemblies r !! entity) eqn:E.
    + rewrite map_size_delete_Some by (by eexists). lia.
    + by rewrite map_size_delete_None.
  - by apply map_Forall_delete.
Qed.

Lemma expire_assemblies_ok frag maxb now release r :
  table_ok frag maxb r -> table_ok frag maxb (expire_assemblies now release r).
Proof.
  unfold expire_assemblies. generalize (filter (fun '(_, a) => assembly_expired now a = true)
    (map_to_list (assemblies r))). intros l. revert r.
  induction l as [|[e a] l IH]; intros r Hr; [done|]. cbn. apply IH. by apply take_assembly_ok.
Qed.
#[export] Hint Resolve no_reassembly_ok take_assembly_ok expire_assemblies_ok : esp.

(** ** Witnesses *)
Lemma reassembly_stays_in_bounds_witness :
  let view i n v := {| view_entity_index := 1; view_flags := 0; view_fragment_index := i;
                       view_fragment_count := n; view_value := replicate v 7 |} in
  let a := (store_all fresh_assembly 5 10 50 [(view 1 3 25%nat, 0); (view 0 3 10%nat, 1); (view 0 2 1%nat, 2)]).2 in
  assembly_ok 10 50 a /\
  length (assemble_fragment_payload_ a 10) = sum_list (Z.to_nat <$> asm_lengths a).
Proof.
  apply reassembly_stays_in_bounds; [lia|lia|].
  repeat constructor; unfold view_ok; cbn; lia.
Defined.

Definition demo_value : bytes := zseq 0 25.

Lemma reassembly_any_order_witness :
  exists a,
    receive_all 9 10 60
      ((fun '(i, now) => (fragment_payload 4 10 (fun _ => 0) demo_value i, now))
       <$> [(2%nat, 5); (0%nat, 6); (2%nat, 8); (1%nat, 9)]) = Some (true, a) /\
    (fragment_assembly_complete_ a = true <->
     forall i, Z.of_nat i < chunk_count 10 demo_value -> i ∈ [2; 0; 2; 1]%nat) /\
    (fragment_assembly_complete_ a = true ->
     assemble_fragment_payload_ a 10 = demo_value /\ asm_flags a = 0).
Proof.
  apply (reassembly_any_order 4 10 60 9 (fun _ => 0) demo_value
           [(2%nat, 5); (0%nat, 6); (2%nat, 8); (1%nat, 9)]);
    [lia|lia|vm_compute; discriminate|vm_compute; reflexivity|lia|intros; lia|discriminate|].
  repeat constructor; vm_compute; reflexivity.
Defined.
