(* ===== verification/ReceiverWorld.v ===== *)
(** * ReceiverWorld: what the file receiver does to its world

    The entry points of [FileReceiver] act on the world only through
    acknowledgements, calls of the action handler and resets: a preorder these
    keep is kept by every entry point. *)
From S2P Require Import Prelude Wire IncrementBuffer FileReceiver OTAFlashHandler.

(** Every operation of an action handler is an [R] step of the world. *)
Class HandlerWorld (H : Type) {W} (R : relation W) `{!ActionHandler H W} := {
  hw_announce a b c d e f : keeps (fun s s' => R s.2 s'.2) (on_announce a b c d e f);
  hw_data q d : keeps (fun s s' => R s.2 s'.2) (on_data q d);
  hw_end : keeps (fun s s' => R s.2 s'.2) on_end;
  hw_abort r : keeps (fun s s' => R s.2 s'.2) (on_abort r)
}.

(** Acknowledgements and resets are [R] steps of the world. *)
Class ReceiverWorld {W} (R : relation W) `{!ReceiverEnv W} := {
  rw_send_ack payload w : R w (send_ack_fn payload w).2;
  rw_restart w : R w (esp_restart w)
}.

Definition on_world_R {H W} (R : relation W) (s s' : FileReceiver H * W) : Prop := R s.2 s'.2.
#[export] Instance on_world_R_preorder {H W} (R : relation W) `{!PreOrder R} :
  PreOrder (@on_world_R H W R).
Proof. split; unfold on_world_R; [intros s; reflexivity|intros s1 s2 s3; apply transitivity]. Qed.

Create HintDb world discriminated.

Section receiver_world.
Context {H W : Type} `{!ReceiverEnv W} `{!ActionHandler H W}.
Context (R : relation W) `{!PreOrder R} `{!ReceiverWorld R} `{!HandlerWorld H R}.
Abbreviation St := (FileReceiver H * W)%type.
Abbreviation worldly m := (keeps (on_world_R (H := H) R) m).

Lemma worldly_update f : worldly (update f).
Proof. intros s. apply (reflexivity (R := R)). Qed.
Lemma worldly_this : worldly this.
Proof. intros s. apply (reflexivity (R := R)). Qed.
Lemma worldly_millis : worldly millis_.
Proof. intros s. apply (reflexivity (R := R)). Qed.
Lemma worldly_restart : worldly (modify (fun s => (s.1, esp_restart s.2))).
Proof. intros s. apply rw_restart. Qed.
Lemma worldly_invoke {A} p (d : A) (op : M (H * W) A) :
  keeps (fun s s' => R s.2 s'.2) op -> worldly (invoke p d op).
Proof.
  intros Hop s. unfold invoke, on_world_R. destruct (handler_heap s.1 !! p) as [h|]; [|reflexivity].
  specialize (Hop (h, s.2)). by destruct (op (h, s.2)) as [a [h' w']].
Qed.
Lemma worldly_send_ack result trailing : worldly (send_ack_ result trailing).
Proof.
  intros s. unfold send_ack_, mbind, M_bind, this, gets, on_world_R.
  destruct (negb _); [reflexivity|]. pose proof rw_send_ack as Hack.
  set (payload := _ ++ _). specialize (Hack payload s.2). clearbody payload.
  by destruct (send_ack_fn payload s.2).
Qed.
#[local] Hint Resolve worldly_update worldly_this worldly_millis worldly_restart worldly_invoke
  worldly_send_ack hw_announce hw_data hw_end hw_abort : world.
Ltac worldly_go := keeps_go ltac:(solve [eauto with world nocore]).

Lemma worldly_invoke_active {A} (d : A) (op : M (H * W) A) :
  keeps (fun s s' => R s.2 s'.2) op -> worldly (invoke_active d op).
Proof. intros Hop. unfold invoke_active. worldly_go. Qed.
Lemma worldly_reset : worldly reset_.
Proof. apply worldly_update. Qed.
#[local] Hint Resolve worldly_invoke_active worldly_reset : world.
Lemma worldly_abort reason notify : worldly (abort reason notify).
Proof. unfold abort, send_ack_abort_. worldly_go. Qed.
#[local] Hint Resolve worldly_abort : world.

Lemma worldly_write_chunk n i : worldly (write_chunk_ n i).
Proof. unfold write_chunk_. worldly_go. Qed.
#[local] Hint Resolve worldly_write_chunk : world.
Lemma worldly_retry n js : worldly (retry_chunks_ n js).
Proof. induction js; cbn [retry_chunks_]; worldly_go. Qed.
#[local] Hint Resolve worldly_retry : world.
Lemma worldly_write_chunks n js : worldly (write_chunks_ n js).
Proof. induction js; cbn [write_chunks_]; worldly_go. Qed.
#[local] Hint Resolve worldly_write_chunks : world.
Lemma worldly_write_increment : worldly write_increment_to_flash_.
Proof. unfold write_increment_to_flash_, send_gaps_ack_. worldly_go. Qed.
#[local] Hint Resolve worldly_write_increment : world.

Lemma worldly_accept a p chunk kb : worldly (accept_announce_ a p chunk kb).
Proof. unfold accept_announce_, send_ack_reject_, send_ack_accept_. worldly_go. Qed.
#[local] Hint Resolve worldly_accept : world.
Lemma worldly_announce a : worldly (handle_announce_ a).
Proof. unfold handle_announce_, send_ack_reject_, send_ack_accept_. worldly_go. Qed.
Lemma worldly_blast bc : worldly (handle_blast_complete_ bc).
Proof. unfold handle_blast_complete_, send_gaps_ack_. worldly_go. Qed.
Lemma worldly_end e : worldly (handle_end_ e).
Proof. unfold handle_end_, send_ack_complete_. worldly_go. Qed.
Lemma worldly_abort_packet a : worldly (handle_abort_ a).
Proof. unfold handle_abort_. worldly_go. Qed.
#[local] Hint Resolve worldly_announce worldly_blast worldly_end worldly_abort_packet : world.

Lemma worldly_file_transfer payload : worldly (handle_file_transfer payload).
Proof. unfold handle_file_transfer. worldly_go. Qed.
Lemma worldly_file_data payload : worldly (handle_file_data payload).
Proof. unfold handle_file_data. worldly_go. Qed.
Lemma worldly_restart_if_due : worldly perform_restart_if_due_.
Proof. unfold perform_restart_if_due_. worldly_go. Qed.
Lemma worldly_complete_phase : worldly complete_phase_.
Proof. unfold complete_phase_, schedule_restart_, send_ack_complete_. worldly_go. Qed.
#[local] Hint Resolve worldly_restart_if_due worldly_complete_phase : world.
Lemma worldly_loop : worldly loop.
Proof. unfold loop, loop_rest_. worldly_go. Qed.
End receiver_world.
