(* ===== verification/RemoteSession.v ===== *)
(** * RemoteSession: the remote's data, its frames and what it sends

    Models the data of [class RemoteProtocol]
    ([src/device_code/components/esp_tree_remote/remote_protocol.h]) and, of
    [remote_protocol.cpp], the frame level, the table of outstanding requests,
    the routes of a relay and every [send_*] function.  Radio, clock, random
    numbers, Wi-Fi, partition table and reset are the interface [RemoteEnv].
    The embedded [FileReceiver] talks to the rest of the object through its own
    interface [ReceiverEnv], which the remote implements at the end of this
    file.  Logging is left out; [state_name_] is kept. *)
From S2P Require Import Prelude Wire IncrementBuffer FileReceiver OTAFlashHandler Crypto Fragments.

(** ** Data *)
Record OutstandingRequest := {
  req_packet_type : Z;
  req_tx_counter : Z;
  req_fingerprint : bytes
}.
Definition no_request : OutstandingRequest :=
  {| req_packet_type := packet_type_code PKT_DISCOVER; req_tx_counter := 0;
     req_fingerprint := replicate 4 0 |}.

Record RemoteRouteEntry := {
  route_leaf_mac : bytes;
  route_next_hop_mac : bytes;
  route_expiry_ms : Z;
  route_has_logged : bool
}.
#[export] Instance eta_route : Eta RemoteRouteEntry := fun r =>
  Build_RemoteRouteEntry (route_leaf_mac r) (route_next_hop_mac r) (route_expiry_ms r)
    (route_has_logged r).

Record DiscoverCandidate := {
  cand_next_hop_mac : bytes;
  cand_responder_role : Z;
  cand_bridge_reachable : bool;
  cand_flags : Z;
  cand_channel : Z;
  cand_rssi : Z;
  cand_hops_to_bridge : Z;
  cand_valid : bool;
  cand_preferred_index : Z
}.
Definition no_candidate : DiscoverCandidate :=
  {| cand_next_hop_mac := replicate 6 0; cand_responder_role := ESPNOW_NODE_ROLE_RELAY;
     cand_bridge_reachable := false; cand_flags := 0; cand_channel := 1; cand_rssi := -127;
     cand_hops_to_bridge := 255; cand_valid := false; cand_preferred_index := 255 |}.

Record PendingDiscover := { pd_leaf_mac : bytes; pd_expiry_ms : Z }.

Record PendingAnnounce := {
  pa_leaf_mac : bytes;
  pa_sender_mac : bytes;
  pa_responder_role : Z;
  pa_hops_to_bridge : Z;
  pa_deadline_ms : Z;
  pa_valid : bool
}.
#[export] Instance eta_pending_announce : Eta PendingAnnounce := fun a =>
  Build_PendingAnnounce (pa_leaf_mac a) (pa_sender_mac a) (pa_responder_role a)
    (pa_hops_to_bridge a) (pa_deadline_ms a) (pa_valid a).
Definition no_announce : PendingAnnounce :=
  {| pa_leaf_mac := replicate 6 0; pa_sender_mac := replicate 6 0; pa_responder_role := 0;
     pa_hops_to_bridge := 0; pa_deadline_ms := 0; pa_valid := false |}.
Definition ANNOUNCE_QUEUE_SIZE : nat := 8.

Record EntityRecord := {
  er_schema : espnow_entity_schema_t;
  er_current_value : bytes;
  er_dirty : bool;
  er_current_text : bytes;
  er_last_completed : Z
}.
#[export] Instance eta_entity_record : Eta EntityRecord := fun r =>
  Build_EntityRecord (er_schema r) (er_current_value r) (er_dirty r) (er_current_text r)
    (er_last_completed r).

(** [pending_commands_] is [pending_command_assemblies_] with
    [pending_command_reserved_bytes_]; [crypto] is the key of the crypto module;
    the [_set] fields say whether a callback is present. *)
Record RemoteProtocol := {
  crypto : CryptoState;
  send_fn_set : bool;
  command_fn_set : bool;
  parent_mac_ : bytes;
  parent_valid_ : bool;
  last_parent_mac : bytes;
  leaf_mac_ : bytes;
  bridge_mac_ : bytes;
  remote_nonce_ : bytes;
  bridge_nonce_ : bytes;
  session_key_ : bytes;
  session_key_valid_ : bool;
  joined_ : bool;
  local_session_flags_ : Z;
  bridge_session_flags_ : Z;
  session_max_payload_ : Z;
  max_entity_fragment_ : Z;
  max_assembly_bytes_ : Z;
  max_total_fragment_bytes_ : Z;
  discovering_ : bool;
  join_in_flight_ : bool;
  discover_announce_pending_ : bool;
  announce_queue_head_ : Z;
  announce_queue_tail_ : Z;
  announce_queue_ : list PendingAnnounce;
  relay_enabled_ : bool;
  ota_over_espnow_ : bool;
  can_relay_ : bool;
  max_hops_ : Z;
  max_discover_pending_ : Z;
  preferred_parents_ : list bytes;
  hop_count_ : Z;
  hops_to_bridge_ : Z;
  tx_counter_ : Z;
  last_seen_counter_ : Z;
  last_tx_ms_ : Z;
  last_successful_outbound_ms_ : Z;
  last_successful_state_ms_ : Z;
  last_successful_heartbeat_ms_ : Z;
  last_heartbeat_tx_ms_ : Z;
  last_join_attempt_ms_ : Z;
  join_delay_until_ms_ : Z;
  joined_started_ms_ : Z;
  heartbeat_interval_ : Z;
  route_ttl_seconds_ : Z;
  boot_epoch_ms_ : Z;
  network_id_ : bytes;
  esphome_name_ : bytes;
  node_label_ : bytes;
  firmware_epoch_ : Z;
  project_name_ : bytes;
  project_version_ : bytes;
  chip_model_ : Z;
  build_date_ : bytes;
  build_time_ : bytes;
  firmware_md5_ : bytes;
  entities_ : list espnow_entity_schema_t;
  outstanding_requests_ : list OutstandingRequest;
  outstanding_count_ : Z;
  routes_ : list RemoteRouteEntry;
  pending_discovers_ : list PendingDiscover;
  best_parent_ : DiscoverCandidate;
  file_receiver_ : FileReceiver OTAFlashHandler;
  state_name_ : string;
  heartbeat_due_ms_ : Z;
  discover_due_ms_ : Z;
  state_push_enabled_ : bool;
  normal_ : bool;
  waiting_for_state_ack_ : bool;
  discover_retry_count_ : Z;
  join_retry_count_ : Z;
  wait_reject_count_ : Z;
  state_retry_count_ : Z;
  consecutive_send_failures_ : Z;
  last_state_tx_ms_ : Z;
  last_state_rtt_ms_ : Z;
  pending_state_message_tx_base_ : Z;
  last_config_tx_counter_ : Z;
  last_config_command_ : Z;
  last_config_result_ : Z;
  last_config_valid_ : bool;
  pending_state_field_index_ : Z;
  pending_state_value_ : bytes;
  pending_state_fragment_count_ : Z;
  pending_state_payload_len_ : Z;
  channel_index_ : Z;
  last_known_channel_ : Z;
  sweep_complete_ : bool;
  fast_rejoin_ : bool;
  discovery_resume_normal_after_success_ : bool;
  discovery_current_channel_only_ : bool;
  wifi_waiting_ : bool;
  wifi_wait_deadline_ms_ : Z;
  discover_retry_pending_ : bool;
  discover_phase_ : Z;
  initial_discovery_pending_ : bool;
  parent_link_rssi_ema_ : Z;
  topology_refresh_due_ms_ : Z;
  ota_last_activity_ms_ : Z;
  entity_records_ : list EntityRecord;
  pending_commands_ : Reassembly
}.
#[export] Instance eta_remote : Eta RemoteProtocol := fun p =>
  Build_RemoteProtocol (crypto p) (send_fn_set p) (command_fn_set p) (parent_mac_ p)
  (parent_valid_ p) (last_parent_mac p) (leaf_mac_ p) (bridge_mac_ p) (remote_nonce_ p)
  (bridge_nonce_ p) (session_key_ p) (session_key_valid_ p) (joined_ p) (local_session_flags_ p)
  (bridge_session_flags_ p) (session_max_payload_ p) (max_entity_fragment_ p) (max_assembly_bytes_
  p) (max_total_fragment_bytes_ p) (discovering_ p) (join_in_flight_ p)
  (discover_announce_pending_ p) (announce_queue_head_ p) (announce_queue_tail_ p)
  (announce_queue_ p) (relay_enabled_ p) (ota_over_espnow_ p) (can_relay_ p) (max_hops_ p)
  (max_discover_pending_ p) (preferred_parents_ p) (hop_count_ p) (hops_to_bridge_ p) (tx_counter_
  p) (last_seen_counter_ p) (last_tx_ms_ p) (last_successful_outbound_ms_ p)
  (last_successful_state_ms_ p) (last_successful_heartbeat_ms_ p) (last_heartbeat_tx_ms_ p)
  (last_join_attempt_ms_ p) (join_delay_until_ms_ p) (joined_started_ms_ p) (heartbeat_interval_
  p) (route_ttl_seconds_ p) (boot_epoch_ms_ p) (network_id_ p) (esphome_name_ p) (node_label_ p)
  (firmware_epoch_ p) (project_name_ p) (project_version_ p) (chip_model_ p) (build_date_ p)
  (build_time_ p) (firmware_md5_ p) (entities_ p) (outstanding_requests_ p) (outstanding_count_ p)
  (routes_ p) (pending_discovers_ p) (best_parent_ p) (file_receiver_ p) (state_name_ p)
  (heartbeat_due_ms_ p) (discover_due_ms_ p) (state_push_enabled_ p) (normal_ p)
  (waiting_for_state_ack_ p) (discover_retry_count_ p) (join_retry_count_ p) (wait_reject_count_
  p) (state_retry_count_ p) (consecutive_send_failures_ p) (last_state_tx_ms_ p)
  (last_state_rtt_ms_ p) (pending_state_message_tx_base_ p) (last_config_tx_counter_ p)
  (last_config_command_ p) (last_config_result_ p) (last_config_valid_ p)
  (pending_state_field_index_ p) (pending_state_value_ p) (pending_state_fragment_count_ p)
  (pending_state_payload_len_ p) (channel_index_ p) (last_known_channel_ p) (sweep_complete_ p)
  (fast_rejoin_ p) (discovery_resume_normal_after_success_ p) (discovery_current_channel_only_ p)
  (wifi_waiting_ p) (wifi_wait_deadline_ms_ p) (discover_retry_pending_ p) (discover_phase_ p)
  (initial_discovery_pending_ p) (parent_link_rssi_ema_ p) (topology_refresh_due_ms_ p)
  (ota_last_activity_ms_ p) (entity_records_ p) (pending_commands_ p).

(** The default member initialisers. *)
Definition new_remote : RemoteProtocol :=
  {| crypto := {| g_psk := replicate 32 0; g_psk_set := false |}; send_fn_set := false;
  command_fn_set := false; parent_mac_ := replicate 6 0; parent_valid_ := false; last_parent_mac
  := replicate 6 0; leaf_mac_ := replicate 6 0; bridge_mac_ := replicate 6 0; remote_nonce_ :=
  replicate 16 0; bridge_nonce_ := replicate 16 0; session_key_ := replicate 32 0;
  session_key_valid_ := false; joined_ := false; local_session_flags_ := 0; bridge_session_flags_
  := 0; session_max_payload_ := ESPNOW_V1_MAX_PAYLOAD; max_entity_fragment_ :=
  ESPNOW_MAX_ENTITY_FRAGMENT_LEN; max_assembly_bytes_ := ESPNOW_MAX_FRAGMENT_ASSEMBLY_BYTES;
  max_total_fragment_bytes_ := ESPNOW_MAX_TOTAL_FRAGMENT_BYTES_PER_SESSION; discovering_ := true;
  join_in_flight_ := false; discover_announce_pending_ := false; announce_queue_head_ := 0;
  announce_queue_tail_ := 0; announce_queue_ := replicate ANNOUNCE_QUEUE_SIZE no_announce;
  relay_enabled_ := true; ota_over_espnow_ := false; can_relay_ := false; max_hops_ :=
  ESPNOW_MAX_HOPS_DEFAULT; max_discover_pending_ := ESPNOW_MAX_PENDING_DISCOVER;
  preferred_parents_ := []; hop_count_ := 0; hops_to_bridge_ := 255; tx_counter_ := 1;
  last_seen_counter_ := 0; last_tx_ms_ := 0; last_successful_outbound_ms_ := 0;
  last_successful_state_ms_ := 0; last_successful_heartbeat_ms_ := 0; last_heartbeat_tx_ms_ := 0;
  last_join_attempt_ms_ := 0; join_delay_until_ms_ := 0; joined_started_ms_ := 0;
  heartbeat_interval_ := 60; route_ttl_seconds_ := ESPNOW_ROUTE_TTL_DEFAULT_SECONDS;
  boot_epoch_ms_ := 0; network_id_ := []; esphome_name_ := []; node_label_ := []; firmware_epoch_
  := 0; project_name_ := []; project_version_ := []; chip_model_ := 0; build_date_ := [];
  build_time_ := []; firmware_md5_ := replicate 16 0; entities_ := []; outstanding_requests_ :=
  replicate 8 no_request; outstanding_count_ := 0; routes_ := []; pending_discovers_ := [];
  best_parent_ := no_candidate; file_receiver_ := new_file_receiver; state_name_ := "DISCOVERING";
  heartbeat_due_ms_ := 0; discover_due_ms_ := 0; state_push_enabled_ := false; normal_ := false;
  waiting_for_state_ack_ := false; discover_retry_count_ := 0; join_retry_count_ := 0;
  wait_reject_count_ := 0; state_retry_count_ := 0; consecutive_send_failures_ := 0;
  last_state_tx_ms_ := 0; last_state_rtt_ms_ := 0; pending_state_message_tx_base_ := 0;
  last_config_tx_counter_ := 0; last_config_command_ := 0; last_config_result_ := CFG_RESULT_OK;
  last_config_valid_ := false; pending_state_field_index_ := 0; pending_state_value_ := [];
  pending_state_fragment_count_ := 0; pending_state_payload_len_ := 0; channel_index_ := 0;
  last_known_channel_ := 1; sweep_complete_ := false; fast_rejoin_ := false;
  discovery_resume_normal_after_success_ := false; discovery_current_channel_only_ := false;
  wifi_waiting_ := false; wifi_wait_deadline_ms_ := 0; discover_retry_pending_ := false;
  discover_phase_ := 0; initial_discovery_pending_ := false; parent_link_rssi_ema_ := -127;
  topology_refresh_due_ms_ := 0; ota_last_activity_ms_ := 0; entity_records_ := [];
  pending_commands_ := no_reassembly |}.

(** ** The environment *)
Inductive wifi_err_t := WIFI_OK | WIFI_NOT_STARTED | WIFI_CONN | WIFI_FAILED.
#[export] Instance wifi_err_eq_dec : EqDecision wifi_err_t.
Proof. solve_decision. Defined.

(** [esp_wifi_get_channel] is [None] when the call fails; [wifi_component] is
    [None] without a Wi-Fi component, else whether it is connected;
    [esp_app_description] is the date and the time in the running image. *)
Class RemoteEnv (W : Type) := {
  env_millis : W -> Z;
  env_delay : Z -> W -> W;
  env_esp_random : W -> Z * W;
  env_fill_random_bytes : nat -> W -> bytes * W;
  env_send_fn : bytes -> bytes -> W -> bool * W;
  env_command_fn : Z -> Z -> bytes -> W -> W;
  esp_wifi_set_channel : Z -> W -> wifi_err_t * W;
  esp_wifi_start : W -> wifi_err_t * W;
  esp_wifi_get_channel : W -> option Z;
  wifi_component : W -> option bool;
  env_esp_restart : W -> W;
  env_safe_reboot : W -> W;
  esp_app_description : W -> option (bytes * bytes);
  running_partition_size : W -> option Z;
  esp_partition_read : Z -> Z -> W -> option bytes;
  chip_id : Z
}.

(** The digests of mbedtls and of ESPHome. *)
Class Digests := {
  md5 : bytes -> bytes;
  md5_length data : length (md5 data) = 16%nat;
  sha256 : bytes -> bytes;
  sha256_length data : length (sha256 data) = 32%nat;
  sha256_ok data : bytes_ok (sha256 data)
}.

(** ** Frames *)
Definition parse_frame_ (frame : bytes) : option ParsedFrame :=
  let len := length frame in
  if (len <? sizeof espnow_frame_header_t)%nat then None
  else if (Z.to_nat ESPNOW_V2_MAX_PAYLOAD <? len)%nat then None
  else
    let header : espnow_frame_header_t := of_bytes frame in
    if negb (protocol_version header =? ESPNOW_PROTOCOL_VER) then None
    else if negb (is_valid_packet_type (packet_type header)) then None
    else
      let parent_check := has_parent_check (hop_count header) in
      let header_size := (sizeof espnow_frame_header_t +
                          (if parent_check then Z.to_nat ESPNOW_PARENT_MAC_LEN else 0))%nat in
      if (len <? header_size)%nat then None
      else
        let parent_mac := if parent_check then slice (sizeof espnow_frame_header_t) 6 frame
                          else replicate 6 0 in
        let payload := drop header_size frame in
        let tag_len := Z.to_nat ESPNOW_SESSION_TAG_LEN in
        if is_encrypted_packet (packet_type header) then
          if (length payload <? tag_len)%nat then None
          else Some {| pf_header := header;
                       pf_payload := take (length payload - tag_len) payload;
                       pf_session_tag := Some (drop (len - tag_len) frame);
                       pf_parent_mac := parent_mac |}
        else Some {| pf_header := header; pf_payload := payload; pf_session_tag := None;
                     pf_parent_mac := parent_mac |}.

Section frames.
Context `{Hmac}.

Definition validate_psk_ (p : RemoteProtocol) (header : espnow_frame_header_t) (payload : bytes)
    : bool :=
  negb (espnow_crypto_verify_psk_tag (crypto p) (to_bytes header) payload (psk_tag header) =? 0).

Definition validate_session_ (p : RemoteProtocol) (header : espnow_frame_header_t)
    (ciphertext : bytes) (session_tag : option bytes) : bool :=
  match session_tag with
  | Some tag =>
    session_key_valid_ p &&
    negb (espnow_crypto_verify_session_tag (session_key_ p) (to_bytes header) ciphertext tag =? 0)
  | None => false
  end.

(** [validate_session_] and the decryption that follows it in every handler. *)
Definition decrypt_ (p : RemoteProtocol) (header : espnow_frame_header_t) (ciphertext : bytes)
    (session_tag : option bytes) : option bytes :=
  if negb (validate_session_ p header ciphertext session_tag) then None
  else espnow_crypto_crypt (crypto p) (session_key_ p) (tx_counter header) ciphertext.

(** A header with an empty tag, as [send_frame_] and its callers start it. *)
Definition blank_header (p : RemoteProtocol) (type hop tx : Z) : espnow_frame_header_t :=
  {| protocol_version := ESPNOW_PROTOCOL_VER; hop_count := hop; packet_type := type;
     leaf_mac := leaf_mac_ p; tx_counter := tx; psk_tag := replicate 4 0 |}.

(** The buffer of [send_frame_]; [None] when the encryption fails. *)
Definition build_frame (p : RemoteProtocol) (type hop tx : Z) (payload : bytes) (encrypted : bool)
    (pre_ciphertext : option bytes) : option bytes :=
  let header := blank_header p type hop tx in
  payload_out ← (if encrypted then
                   match pre_ciphertext with
                   | Some ciphertext => Some (take (length payload) ciphertext)
                   | None => espnow_crypto_crypt (crypto p) (session_key_ p) tx payload
                   end
                 else Some payload);
  let header := header <| psk_tag := espnow_crypto_psk_tag (crypto p) (to_bytes header) payload_out |> in
  Some (to_bytes header ++ payload_out ++
        (if encrypted
         then espnow_crypto_session_tag (session_key_ p) (to_bytes header) payload_out else [])).

(** [update_outstanding_request_]: the last eight requests. *)
Definition outstanding_request (p : RemoteProtocol) (type tx : Z) (header : espnow_frame_header_t)
    (payload : bytes) : OutstandingRequest :=
  {| req_packet_type := type; req_tx_counter := tx;
     req_fingerprint := espnow_crypto_psk_tag (crypto p) (to_bytes header) payload |}.

Definition update_outstanding_request_ (type tx : Z) (header : espnow_frame_header_t)
    (payload : bytes) (p : RemoteProtocol) : RemoteProtocol :=
  if (length payload =? 0)%nat || (length (outstanding_requests_ p) =? 0)%nat then p
  else
    let req := outstanding_request p type tx header payload in
    if outstanding_count_ p <? Z.of_nat (length (outstanding_requests_ p)) then
      p <| outstanding_requests_ ::= <[Z.to_nat (outstanding_count_ p) := req]> |>
        <| outstanding_count_ := u8 (outstanding_count_ p + 1) |>
    else p <| outstanding_requests_ ::= fun l => drop 1 l ++ [req] |>.

Definition record_outstanding_request_ (type : espnow_packet_type_t) (tx : Z) (payload : bytes)
    (p : RemoteProtocol) : RemoteProtocol :=
  let type := packet_type_code type in
  update_outstanding_request_ type tx (blank_header p type ESPNOW_HOPS_DIR_UP tx) payload p.

Definition request_matches_outstanding_ (p : RemoteProtocol) (payload : bytes) : bool :=
  (length payload =? sizeof espnow_deauth_t)%nat &&
  let deauth : espnow_deauth_t := of_bytes payload in
  existsb (fun req => (req_packet_type req =? da_response_to_packet_type deauth)
                      && (req_tx_counter req =? da_response_to_tx_counter deauth)
                      && bytes_eqb (req_fingerprint req) (da_request_fingerprint deauth))
    (take (Z.to_nat (outstanding_count_ p)) (outstanding_requests_ p)).
End frames.

(** ** Pure operations *)
Definition refresh_can_relay_ (p : RemoteProtocol) : RemoteProtocol :=
  p <| can_relay_ := relay_enabled_ p && normal_ p && parent_valid_ p
                     && negb (hops_to_bridge_ p =? 255) |>.

Definition update_mtu_from_route_ (p : RemoteProtocol) : RemoteProtocol :=
  p <| max_entity_fragment_ := espnow_max_entity_fragment (session_max_payload_ p) |>
    <| max_assembly_bytes_ := espnow_max_assembly_bytes (session_max_payload_ p) |>
    <| max_total_fragment_bytes_ := espnow_max_total_fragment_bytes (session_max_payload_ p) |>
    <| file_receiver_ ::= set_max_chunk_size (session_max_payload_ p) |>.

Definition find_route_ (leaf : bytes) (p : RemoteProtocol) : option RemoteRouteEntry :=
  List.find (fun r => bytes_eqb (route_leaf_mac r) leaf) (routes_ p).

(** [find_route_mut_] and an assignment through the pointer. *)
Fixpoint update_route (leaf : bytes) (f : RemoteRouteEntry -> RemoteRouteEntry)
    (l : list RemoteRouteEntry) : list RemoteRouteEntry :=
  match l with
  | [] => []
  | r :: l => if bytes_eqb (route_leaf_mac r) leaf then f r :: l else r :: update_route leaf f l
  end.

Definition direct_child_count_ (p : RemoteProtocol) : Z :=
  u8 (Z.of_nat (length (filter (fun r => bytes_eqb (route_leaf_mac r) (leaf_mac_ p) = false /\
    bytes_eqb (route_next_hop_mac r) (route_leaf_mac r) = true) (routes_ p)))).

(** Does following the next hops from [next_hop] end at this node? *)
Fixpoint reaches_self (fuel : nat) (p : RemoteProtocol) (next_hop : bytes) : bool :=
  match fuel with
  | O => false
  | S fuel =>
    if bytes_eqb next_hop (leaf_mac_ p) then true
    else match find_route_ next_hop p with
    | None => false
    | Some r => reaches_self fuel p (route_next_hop_mac r)
    end
  end.

Definition total_children_count_ (p : RemoteProtocol) : Z :=
  if negb (can_relay_ p) then 0
  else u16 (Z.of_nat (length (filter (fun r =>
         bytes_eqb (route_leaf_mac r) (leaf_mac_ p) = false /\
         reaches_self (S (length (routes_ p))) p (route_leaf_mac r) = true) (routes_ p)))).

Definition get_total_children_count := total_children_count_.

Definition sweep_channel_from_index (channel_index : Z) : Z := u8 (channel_index mod 13 + 1).

Definition discover_backoff_delay_ms (stage : Z) : Z :=
  let kBackoff := [ESPNOW_DISCOVER_BACKOFF_START_MS; ESPNOW_DISCOVER_BACKOFF_2_MS;
                   ESPNOW_DISCOVER_BACKOFF_3_MS; ESPNOW_DISCOVER_BACKOFF_4_MS;
                   ESPNOW_DISCOVER_BACKOFF_CAP_MS] in
  nth (Z.to_nat stage) kBackoff ESPNOW_DISCOVER_BACKOFF_CAP_MS.

Definition elapsed_ms_since (now then_ : Z) : Z :=
  if (then_ =? 0) || (now <? then_) then 0 else now - then_.

(** The bytes [compute_schema_hash_] feeds into the digest. *)
Definition schema_hash_entity (total i : nat) (schema : espnow_entity_schema_t) : bytes :=
  take ESPNOW_SCHEMA_HASH_LEN
    (append_schema_push_payload ESPNOW_DESCRIPTOR_TYPE_ENTITY (u8 (Z.of_nat i)) (u8 (Z.of_nat i))
       (u8 (Z.of_nat total)) (entity_type schema) (entity_name schema) (entity_unit schema)
       (entity_id schema) (entity_options schema)).

Definition schema_hash_input (p : RemoteProtocol) : bytes :=
  esphome_name_ p ++ [0] ++ node_label_ p ++ [0] ++ le_bytes 4 (firmware_epoch_ p) ++
  project_name_ p ++ [0] ++ project_version_ p ++ [0] ++ le_bytes 4 (chip_model_ p) ++
  build_date_ p ++ [0] ++ build_time_ p ++ [0] ++
  mjoin (imap (fun i r => schema_hash_entity (length (entity_records_ p)) i (er_schema r))
           (entity_records_ p)).

Definition compute_schema_hash_ `{Digests} (p : RemoteProtocol) : bytes :=
  sha256 (schema_hash_input p).

Definition fill_discover_announce_ (p : RemoteProtocol) (responder_role hops_to_bridge : Z)
    : espnow_discover_announce_t :=
  {| announce_network_id := pad_to 32 (network_id_ p);
     announce_network_id_len := u8 (Z.of_nat (length (network_id_ p)));
     announce_responder_mac := leaf_mac_ p; announce_responder_role := responder_role;
     announce_hops_to_bridge := hops_to_bridge; announce_bridge_reachable := 1;
     announce_flags := 0 |}.

Definition is_text (schema : espnow_entity_schema_t) : bool :=
  type_is (entity_type schema) FIELD_TYPE_TEXT || type_is (entity_type schema) FIELD_TYPE_TEXT_SENSOR.

Definition BROADCAST_MAC : bytes := replicate 6 255.

(** ** The remote *)
Section remote.
Context {W : Type} `{!RemoteEnv W} `{!Hmac} `{!Digests}.
Abbreviation St := (RemoteProtocol * W)%type.

Definition this : M St RemoteProtocol := gets fst.
Definition update (f : RemoteProtocol -> RemoteProtocol) : M St unit :=
  modify (fun s => (f s.1, s.2)).
Definition env (f : W -> W) : M St unit := modify (fun s => (s.1, f s.2)).
Definition ask {A} (f : W -> A * W) : M St A := fun s => let '(a, w) := f s.2 in (a, (s.1, w)).
Definition millis : M St Z := gets (fun s => env_millis s.2).
(** [tx_counter_++]. *)
Definition next_tx_counter : M St Z :=
  p ← this; update (fun p => p <| tx_counter_ := u32 (tx_counter_ p + 1) |>);; mret (tx_counter_ p).

(** ** Set-up *)
Definition init (psk_hex network_id esphome_name node_label : bytes) (firmware_epoch : Z)
    (project_name project_version : bytes) (heartbeat_interval : Z) : M St Z :=
  now ← millis;
  update (fun p => p <| network_id_ := network_id |> <| esphome_name_ := esphome_name |>
    <| node_label_ := node_label |> <| firmware_epoch_ := firmware_epoch |>
    <| project_name_ := project_name |> <| project_version_ := project_version |>
    <| heartbeat_interval_ := heartbeat_interval |> <| boot_epoch_ms_ := now |>
    <| initial_discovery_pending_ := true |>
    <| file_receiver_ ::= fun r => r <| send_ack_fn_set := true |>
                                     <| ota_enabled_ := ota_over_espnow_ p |> |>);;
  p ← this;
  let '(rc, c) := espnow_crypto_init psk_hex (crypto p) in
  update (fun p => p <| crypto := c |>);;
  mret rc.

Definition set_local_mac (mac : bytes) : M St unit :=
  if (length mac =? 0)%nat then mret tt
  else update (fun p => p <| leaf_mac_ := take 6 mac |>
                          <| file_receiver_ ::= fun r => r <| local_mac_ := mac |> |>).

Definition set_relay_config (relay_enabled : bool) (max_hops max_discover_pending : Z) : M St unit :=
  update (fun p => refresh_can_relay_ (p <| relay_enabled_ := relay_enabled |>
    <| max_hops_ := if max_hops =? 0 then ESPNOW_MAX_HOPS_DEFAULT else max_hops |>
    <| max_discover_pending_ := if max_discover_pending =? 0 then 1 else max_discover_pending |>)).

Definition set_route_ttl (route_ttl_seconds : Z) : M St unit :=
  update (fun p => p <| route_ttl_seconds_ := route_ttl_seconds |>).
Definition add_preferred_parent (mac : bytes) : M St unit :=
  update (fun p => p <| preferred_parents_ ::= fun l => l ++ [mac] |>).
Definition set_send_fn (is_set : bool) : M St unit := update (fun p => p <| send_fn_set := is_set |>).
Definition set_command_fn (is_set : bool) : M St unit :=
  update (fun p => p <| command_fn_set := is_set |>).
Definition set_session_flags (flags : Z) : M St unit :=
  update (fun p => p <| local_session_flags_ := flags |>).
Definition set_relay_enabled_runtime (enabled : bool) : M St unit :=
  update (fun p => refresh_can_relay_ (p <| relay_enabled_ := enabled |>)).
Definition set_ota_over_espnow (enabled : bool) : M St unit :=
  update (fun p => p <| ota_over_espnow_ := enabled |>
                     <| file_receiver_ ::= fun r => r <| ota_enabled_ := enabled |> |>).
Definition get_uptime_s : M St Z :=
  p ← this; now ← millis; mret (u32 (now - boot_epoch_ms_ p) / 1000).

(** ** Entities *)
Definition register_entity (type : espnow_field_type_t) (name unit_ options id : bytes) : M St Z :=
  p ← this;
  let schema := {| entity_index := u8 (Z.of_nat (length (entities_ p)));
                   entity_type := field_type_code type; entity_name := name;
                   entity_unit := unit_; entity_options := options; entity_id := id |} in
  update (fun p => p <| entities_ ::= fun l => l ++ [schema] |>
    <| entity_records_ ::= fun l => l ++ [{| er_schema := schema; er_current_value := [];
         er_dirty := true; er_current_text := []; er_last_completed := 0 |}] |>);;
  mret (entity_index schema).

Definition with_record (i : Z) (f : EntityRecord -> EntityRecord) : M St unit :=
  update (fun p => p <| entity_records_ ::= alter f (Z.to_nat i) |>).

Definition set_schema_options (options : bytes) (schema : espnow_entity_schema_t)
    : espnow_entity_schema_t :=
  {| entity_index := entity_index schema; entity_type := entity_type schema;
     entity_name := entity_name schema; entity_unit := entity_unit schema;
     entity_options := options; entity_id := entity_id schema |}.

Definition set_entity_options (field_index : Z) (options : bytes) : M St unit :=
  p ← this;
  if (Z.of_nat (length (entities_ p)) <=? field_index)
     || (Z.of_nat (length (entity_records_ p)) <=? field_index) then mret tt
  else
    update (fun p => p <| entities_ ::= alter (set_schema_options options) (Z.to_nat field_index) |>);;
    with_record field_index (fun r => r <| er_schema ::= set_schema_options options |>).

(** [value] is null exactly when it is empty. *)
Definition on_entity_state_change (field_index : Z) (value : bytes) : M St unit :=
  p ← this;
  if (Z.of_nat (length (entity_records_ p)) <=? field_index) || (length value =? 0)%nat then mret tt
  else with_record field_index (fun r => r <| er_current_value := value |> <| er_dirty := true |>).

Definition on_entity_text_change (field_index : Z) (value : bytes) : M St unit :=
  p ← this;
  if Z.of_nat (length (entity_records_ p)) <=? field_index then mret tt
  else with_record field_index (fun r =>
    r <| er_current_text := value |> <| er_current_value := value |> <| er_dirty := true |>).

Definition mark_all_entities_dirty_ (p : RemoteProtocol) : RemoteProtocol :=
  p <| entity_records_ ::= fmap (fun r => r <| er_dirty := true |>) |>.

(** ** Sending *)
Definition upstream_hops (p : RemoteProtocol) : Z :=
  ESPNOW_HOPS_MAKE ESPNOW_HOPS_DIR_UP (hops_to_bridge_ p).

Definition send_frame_ (mac : bytes) (type : espnow_packet_type_t) (hop_count tx_counter : Z)
    (payload : bytes) (encrypted : bool) (pre_ciphertext : option bytes) : M St bool :=
  p ← this;
  if negb (send_fn_set p) || (length mac =? 0)%nat then mret false
  else if encrypted && (espnow_max_plaintext (session_max_payload_ p) <? Z.of_nat (length payload))
  then mret false
  else
    match build_frame p (packet_type_code type) hop_count tx_counter payload encrypted
            pre_ciphertext with
    | None => mret false
    | Some frame =>
      now ← millis;
      update (fun p => p <| last_tx_ms_ := now |>);;
      sent ← ask (env_send_fn mac frame);
      update (fun p =>
        if (sent : bool)
        then p <| last_successful_outbound_ms_ := now |> <| consecutive_send_failures_ := 0 |>
        else p <| consecutive_send_failures_ := u8 (Z.min 255 (consecutive_send_failures_ p + 1)) |>);;
      mret sent
    end.

(** [uint8_t count]: the number of dirty entities. *)
Definition dirty_count (p : RemoteProtocol) : Z :=
  u8 (Z.of_nat (length (filter (fun r => er_dirty r = true) (entity_records_ p)))).

Definition join_payload (p : RemoteProtocol) : espnow_join_t :=
  {| join_remote_nonce := remote_nonce_ p; join_schema_hash := compute_schema_hash_ p;
     join_hops_to_bridge := hops_to_bridge_ p; join_dirty_count := dirty_count p;
     join_session_flags := local_session_flags_ p |}.

Definition send_join_ : M St bool :=
  p ← this;
  if negb (parent_valid_ p) || negb (cand_valid (best_parent_ p)) then mret false
  else
    update (fun p => p <| join_delay_until_ms_ := 0 |>);;
    tx ← next_tx_counter;
    sent ← send_frame_ (parent_mac_ p) PKT_JOIN (upstream_hops p) tx (to_bytes (join_payload p))
             false None;
    now ← millis;
    update (fun p => p <| join_in_flight_ := sent |> <| last_join_attempt_ms_ := now |>);;
    when sent (update (fun p => p <| join_retry_count_ := u8 (join_retry_count_ p + 1) |>));;
    mret sent.

Definition send_deauth_ (mac : bytes) (trigger : espnow_frame_header_t) (payload : bytes)
    : M St bool :=
  p ← this;
  tx ← next_tx_counter;
  send_frame_ mac PKT_DEAUTH (ESPNOW_HOPS_MAKE ESPNOW_HOPS_DIR_UP 0) tx
    (to_bytes {| da_reason := 1; da_response_to_packet_type := packet_type trigger;
                 da_response_to_tx_counter := tx_counter trigger;
                 da_request_fingerprint :=
                   espnow_crypto_psk_tag (crypto p) (to_bytes trigger) payload |}) false None.

(** Note the request under its ciphertext, then send it: the common end of the
    functions that send ACK and STATE. [None]: the encryption failed. *)
Definition send_noted (type : espnow_packet_type_t) (tx : Z) (plaintext : bytes)
    : M St (option bool) :=
  p ← this;
  match espnow_crypto_crypt (crypto p) (session_key_ p) tx plaintext with
  | None => mret None
  | Some ciphertext =>
    let header := blank_header p (packet_type_code type) (upstream_hops p) tx in
    update (update_outstanding_request_ (packet_type_code type) tx header ciphertext);;
    sent ← send_frame_ (parent_mac_ p) type (upstream_hops p) tx plaintext true None;
    mret (Some sent)
  end.

Definition send_command_ack_ (field_index result ref_tx_counter : Z) : M St bool :=
  p ← this;
  if negb (joined_ p) || negb (parent_valid_ p) then mret false
  else
    tx ← next_tx_counter;
    res ← send_noted PKT_ACK tx (to_bytes {| ack_type := ACK_COMMAND; ack_result := result;
                                             ack_ref_tx_counter := ref_tx_counter |});
    mret (default false res).

Definition send_ack_ (payload : bytes) (ref_tx_counter : Z) : M St bool :=
  p ← this;
  if negb (joined_ p) || negb (parent_valid_ p)
     || (length payload <? sizeof espnow_ack_t)%nat then mret false
  else
    let ack : espnow_ack_t := of_bytes payload in
    let ack := ack <| ack_ref_tx_counter ::= fun old =>
                       if negb (ref_tx_counter =? 0) then ref_tx_counter else old |> in
    tx ← next_tx_counter;
    res ← send_noted PKT_ACK tx (to_bytes ack ++ drop (sizeof espnow_ack_t) payload);
    mret (default false res).

Definition send_config_ack_ (command result ref_tx_counter : Z) : M St bool :=
  p ← this;
  if negb (joined_ p) || negb (parent_valid_ p) then mret false
  else send_ack_ (to_bytes {| ack_type := packet_type_code PKT_CONFIG; ack_result := result;
                              ack_ref_tx_counter := ref_tx_counter |} ++ [command]) ref_tx_counter.

Definition send_heartbeat_ : M St bool :=
  p ← this;
  if negb (joined_ p) || negb (parent_valid_ p) || negb (normal_ p) then mret false
  else
    uptime ← get_uptime_s;
    tx ← next_tx_counter;
    sent ← send_frame_ (parent_mac_ p) PKT_HEARTBEAT (upstream_hops p) tx
      (to_bytes {| hb_uptime_seconds := uptime;
         hb_expected_contact_interval_seconds := heartbeat_interval_ p;
         hb_parent_mac := parent_mac_ p; hb_direct_child_count := direct_child_count_ p;
         hb_total_child_count := if can_relay_ p then get_total_children_count p else 0;
         hb_remote_rssi_dbm := parent_link_rssi_ema_ p |}) true None;
    now ← millis;
    update (fun p =>
      if (sent : bool)
      then p <| last_heartbeat_tx_ms_ := now |> <| last_successful_heartbeat_ms_ := now |>
             <| heartbeat_due_ms_ := u32 (now + heartbeat_interval_ p * 1000) |>
      else p <| heartbeat_due_ms_ := u32 (now + 1000) |>);;
    mret sent.

(** The value [send_state_] sends. *)
Definition state_payload (record : EntityRecord) (value : bytes) : bytes :=
  if is_text (er_schema record) then er_current_text record else value.

(** The flags of piece [chunk] of [chunks]. *)
Definition state_flags (records : list EntityRecord) (field_index chunks : Z) (chunk : nat) : Z :=
  if Z.of_nat chunk + 1 <? chunks then ESPNOW_ENTITY_FLAG_MORE_FRAGMENTS
  else if existsb er_dirty (drop (Z.to_nat field_index + 1) records)
  then ESPNOW_ENTITY_FLAG_MORE_DIRTY else 0.

(** The loop of [send_state_] from piece [chunk] on; [fuel] is the number of
    pieces left.  The base of the message, [None] when the loop returned false. *)
Fixpoint send_state_loop (fuel chunk : nat) (field_index : Z) (payload : bytes)
    (frag_size chunks message_tx_base : Z) : M St (option Z) :=
  match fuel with
  | O => mret (Some message_tx_base)
  | S fuel =>
    p ← this;
    tx ← next_tx_counter;
    let message_tx_base := if (chunk =? 0)%nat then tx else message_tx_base in
    res ← send_noted PKT_STATE tx
      (append_entity_payload field_index (state_flags (entity_records_ p) field_index chunks chunk)
         (u8 (Z.of_nat chunk)) (u8 chunks) (fragment_value frag_size payload chunk));
    match res with
    | None => mret None
    | Some false =>
      with_record field_index (fun r => r <| er_dirty := true |>);;
      now ← millis;
      update (fun p => p <| waiting_for_state_ack_ := false |> <| last_state_tx_ms_ := now |>);;
      mret None
    | Some true =>
      send_state_loop fuel (S chunk) field_index payload frag_size chunks message_tx_base
    end
  end.

Definition send_state_ (field_index : Z) (value : bytes) (reset_retry_state : bool) : M St bool :=
  p ← this;
  match entity_records_ p !! Z.to_nat field_index with
  | None => mret false
  | Some record =>
    if negb (joined_ p) || negb (parent_valid_ p) || negb (state_push_enabled_ p) then mret false
    else
      let payload := state_payload record value in
      let frag_size := max_entity_fragment_ p in
      let chunks := chunk_count frag_size payload in
      res ← send_state_loop (Z.to_nat chunks) 0 field_index payload frag_size chunks 0;
      match res with
      | None => mret false
      | Some message_tx_base =>
        now ← millis;
        update (fun p => p <| pending_state_message_tx_base_ := message_tx_base |>
          <| pending_state_field_index_ := field_index |> <| pending_state_value_ := value |>
          <| pending_state_fragment_count_ := u8 chunks |>
          <| pending_state_payload_len_ := Z.of_nat (length payload) |>
          <| last_state_tx_ms_ := now |>);;
        when reset_retry_state (update (fun p => p <| state_retry_count_ := 0 |>));;
        mret true
      end
  end.

(** The loop that reads the running image in blocks of 4096 bytes. *)
Fixpoint read_image (fuel : nat) (offset image_size : Z) (acc : bytes) (w : W) : bytes :=
  match fuel with
  | O => acc
  | S fuel =>
    if offset <? image_size then
      let read_len := Z.min 4096 (image_size - offset) in
      match esp_partition_read offset read_len w with
      | Some data => read_image fuel (offset + read_len) image_size (acc ++ data) w
      | None => acc
      end
    else acc
  end.

Definition firmware_digest (w : W) : bytes :=
  match running_partition_size w with
  | Some size => md5 (read_image (Z.to_nat (size / 4096) + 1) 0 size [] w)
  | None => replicate 16 0
  end.

Definition send_identity_descriptor_ : M St bool :=
  p ← this;
  if negb (joined_ p) || negb (parent_valid_ p) then mret false
  else
    w ← gets snd;
    let '(date, time) := match running_partition_size w, esp_app_description w with
                         | Some _, Some (date, time) => (cstring 16 date, cstring 16 time)
                         | _, _ => ([], [])
                         end in
    let digest := firmware_digest w in
    update (fun p => p <| chip_model_ := chip_id |> <| build_date_ := date |>
                       <| build_time_ := time |> <| firmware_md5_ := digest |>);;
    let push := append_identity_descriptor_payload (esphome_name_ p) (node_label_ p)
      (firmware_epoch_ p) (project_name_ p) (project_version_ p)
      (u8 (Z.of_nat (length (entity_records_ p)))) (session_max_payload_ p) chip_id date time
      digest in
    tx ← next_tx_counter;
    send_frame_ (parent_mac_ p) PKT_SCHEMA_PUSH (upstream_hops p) tx
      (append_entity_payload 0 0 0 1 push) true None.

(** The descriptor; [entity_options] goes with its terminating zero. *)
Definition schema_push (total : nat) (entity_index : Z) (schema : espnow_entity_schema_t) : bytes :=
  append_schema_push_payload ESPNOW_DESCRIPTOR_TYPE_ENTITY entity_index entity_index
    (u8 (Z.of_nat total)) (entity_type schema) (entity_name schema) (entity_unit schema)
    (entity_id schema) (entity_options schema ++ [0]).

Definition schema_flags (chunks : Z) (chunk : nat) : Z :=
  if Z.of_nat chunk + 1 <? chunks then ESPNOW_ENTITY_FLAG_MORE_FRAGMENTS else 0.

Fixpoint send_schema_loop (fuel chunk : nat) (entity_index : Z) (push : bytes)
    (frag_size chunks : Z) : M St bool :=
  match fuel with
  | O => mret true
  | S fuel =>
    p ← this;
    tx ← next_tx_counter;
    let fragment := append_entity_payload entity_index (schema_flags chunks chunk)
      (u8 (Z.of_nat chunk)) (u8 chunks) (fragment_value frag_size push chunk) in
    match espnow_crypto_crypt (crypto p) (session_key_ p) tx fragment with
    | None => mret false
    | Some _ =>
      sent ← send_frame_ (parent_mac_ p) PKT_SCHEMA_PUSH (upstream_hops p) tx fragment true None;
      if negb sent then mret false
      else send_schema_loop fuel (S chunk) entity_index push frag_size chunks
    end
  end.

Definition send_schema_push_ (entity_index : Z) : M St bool :=
  p ← this;
  if negb (joined_ p) || negb (parent_valid_ p) then mret false
  else match entity_records_ p !! Z.to_nat entity_index with
  | None => mret false
  | Some record =>
    let push := schema_push (length (entity_records_ p)) entity_index (er_schema record) in
    let frag_size := max_entity_fragment_ p in
    let chunks := chunk_count frag_size push in
    send_schema_loop (Z.to_nat chunks) 0 entity_index push frag_size chunks
  end.

(** ** Discovery answers of a relay *)
Definition send_discover_announce_with_jitter_ (sender_mac leaf : bytes)
    (responder_role hops_to_bridge : Z) : M St bool :=
  p ← this;
  if (length sender_mac =? 0)%nat || (length leaf =? 0)%nat then mret false
  else
    let next_tail := (announce_queue_tail_ p + 1) mod Z.of_nat ANNOUNCE_QUEUE_SIZE in
    if next_tail =? announce_queue_head_ p then mret false
    else
      r ← ask env_esp_random;
      now ← millis;
      let entry := {| pa_leaf_mac := take 6 leaf; pa_sender_mac := take 6 sender_mac;
        pa_responder_role := responder_role; pa_hops_to_bridge := hops_to_bridge;
        pa_deadline_ms := u32 (now + r mod (ESPNOW_DISCOVER_ANNOUNCE_JITTER_MS + 1));
        pa_valid := true |} in
      update (fun p => p
        <| announce_queue_ ::= <[Z.to_nat (announce_queue_tail_ p) := entry]> |>
        <| announce_queue_tail_ := next_tail |> <| discover_announce_pending_ := true |>);;
      mret true.

(** The frame [flush_pending_discover_announce_] sends for an entry. *)
Definition announce_frame (p : RemoteProtocol) (entry : PendingAnnounce) : bytes :=
  let header := {| protocol_version := ESPNOW_PROTOCOL_VER;
    hop_count := ESPNOW_HOPS_MAKE ESPNOW_HOPS_DIR_DOWN 0;
    packet_type := packet_type_code PKT_DISCOVER_ANNOUNCE; leaf_mac := pa_leaf_mac entry;
    tx_counter := 0; psk_tag := replicate 4 0 |} in
  let payload := to_bytes (fill_discover_announce_ p (pa_responder_role entry)
                             (pa_hops_to_bridge entry)) in
  to_bytes (header <| psk_tag := espnow_crypto_psk_tag (crypto p) (to_bytes header) payload |>)
  ++ payload.

Definition flush_pending_discover_announce_ : M St unit :=
  p ← this;
  if announce_queue_head_ p =? announce_queue_tail_ p then mret tt
  else
    let head := Z.to_nat (announce_queue_head_ p) in
    let entry := nth head (announce_queue_ p) no_announce in
    now ← millis;
    if negb (pa_valid entry) || (now <? pa_deadline_ms entry) then mret tt
    else
      when (send_fn_set p) (ask (env_send_fn (pa_sender_mac entry) (announce_frame p entry));; mret tt);;
      update (fun p =>
        let next_head := (announce_queue_head_ p + 1) mod Z.of_nat ANNOUNCE_QUEUE_SIZE in
        p <| announce_queue_ ::= <[head := entry <| pa_valid := false |>]> |>
          <| announce_queue_head_ := next_head |>
          <| discover_announce_pending_ ::= fun b =>
               if next_head =? announce_queue_tail_ p then false else b |>).

(** ** Routes and relaying *)
Definition refresh_route_ (leaf next_hop : bytes) : M St bool :=
  p ← this;
  if (length leaf =? 0)%nat || (length next_hop =? 0)%nat then mret false
  else if bytes_eqb leaf (leaf_mac_ p) then mret false
  else if bytes_eqb next_hop (leaf_mac_ p) then mret false
  else
    now ← millis;
    let refresh r := r <| route_next_hop_mac := next_hop |>
      <| route_expiry_ms := u32 (now + u32 (route_ttl_seconds_ p * 1000)) |> in
    update (fun p => p <| routes_ ::= fun l =>
      match find_route_ leaf p with
      | Some _ => update_route leaf refresh l
      | None => l ++ [refresh {| route_leaf_mac := leaf; route_next_hop_mac := replicate 6 0;
                                 route_expiry_ms := 0; route_has_logged := false |}]
      end |>);;
    mret true.

(** The buffer of [forward_frame_]; only the hop byte, the parent address and
    the PSK tag are new. *)
Definition forwarded_hops (hop delta : Z) : Z :=
  Z.lor (ESPNOW_HOPS_MAKE (Z.land hop ESPNOW_HOPS_DIR_BIT) (ESPNOW_HOPS_COUNT hop + delta))
    (Z.land hop ESPNOW_HOPS_PARENT_CHECK_BIT).

Definition forwarded_frame (p : RemoteProtocol) (header : espnow_frame_header_t) (payload : bytes)
    (session_tag : option bytes) (hop_count_delta : Z) : bytes :=
  let header := header <| hop_count ::= fun h => forwarded_hops h hop_count_delta |> in
  to_bytes (header <| psk_tag := espnow_crypto_psk_tag (crypto p) (to_bytes header) payload |>) ++
  (if has_parent_check (hop_count header) then replicate (Z.to_nat ESPNOW_PARENT_MAC_LEN) 0 else [])
  ++ payload ++ default [] session_tag.

Definition forward_frame_ (mac : bytes) (header : espnow_frame_header_t) (payload : bytes)
    (session_tag : option bytes) (hop_count_delta : Z) : M St bool :=
  p ← this;
  if negb (send_fn_set p) || (length mac =? 0)%nat then mret false
  else
    now ← millis;
    sent ← ask (env_send_fn mac (forwarded_frame p header payload session_tag hop_count_delta));
    when sent (update (fun p => p <| last_successful_outbound_ms_ := now |>));;
    mret sent.

Definition forward_packet_ (header : espnow_frame_header_t) (payload : bytes)
    (session_tag : option bytes) : M St bool :=
  p ← this;
  if ESPNOW_HOPS_IS_UPSTREAM (hop_count header) then
    if negb (parent_valid_ p) then mret false
    else forward_frame_ (parent_mac_ p) header payload session_tag 0
  else match find_route_ (leaf_mac header) p with
  | None => mret false
  | Some route =>
    refresh_route_ (leaf_mac header) (route_next_hop_mac route);;
    forward_frame_ (route_next_hop_mac route) header payload session_tag 1
  end.

Definition prune_routes_ (now : Z) (p : RemoteProtocol) : RemoteProtocol :=
  p <| routes_ ::= filter (fun r => (route_expiry_ms r <=? now) = false) |>.
Definition prune_pending_discovers_ (now : Z) (p : RemoteProtocol) : RemoteProtocol :=
  p <| pending_discovers_ ::= filter (fun d => (pd_expiry_ms d <=? now) = false) |>.
Definition prune_pending_command_fragments_ (now : Z) (p : RemoteProtocol) : RemoteProtocol :=
  p <| pending_commands_ ::= expire_assemblies now data_size |>.
End remote.

(** ** The receiver's surroundings

    For the embedded [FileReceiver] the rest of the remote is the world: its
    acknowledgements go out through [send_ack_] with the callback [init]
    installs. *)
#[export] Instance remote_receiver_env {W} `{!RemoteEnv W} `{!Hmac}
    : ReceiverEnv (RemoteProtocol * W) := {|
  FileReceiver.millis s := env_millis s.2;
  send_ack_fn payload s := send_ack_ payload 0 s;
  esp_restart s := (s.1, env_esp_restart s.2)
|}.

Definition on_world {A W} (f : W -> A * W) (s : RemoteProtocol * W) : A * (RemoteProtocol * W) :=
  let '(a, w) := f s.2 in (a, (s.1, w)).
#[export] Instance remote_ota_platform {W} `{!OtaPlatform W} : OtaPlatform (RemoteProtocol * W) := {|
  esp_ota_get_next_update_partition s := esp_ota_get_next_update_partition s.2;
  esp_ota_begin size := on_world (esp_ota_begin size);
  esp_ota_write handle data := on_world (esp_ota_write handle data);
  esp_ota_end handle := on_world (esp_ota_end handle);
  esp_ota_set_boot_partition := on_world esp_ota_set_boot_partition;
  esp_ota_abort handle s := (s.1, esp_ota_abort handle s.2);
  heap_caps_get_largest_free_block s := heap_caps_get_largest_free_block s.2
|}.
#[export] Instance remote_ota_handler {W} `{!OtaPlatform W} `{!Digests}
    : ActionHandler OTAFlashHandler (RemoteProtocol * W) := ota_action_handler md5.

(** A call into [file_receiver_]. *)
Definition with_receiver {A W} (op : M (FileReceiver OTAFlashHandler * (RemoteProtocol * W)) A)
    : M (RemoteProtocol * W) A := fun s =>
  let '(a, (r, s')) := op (file_receiver_ s.1, s) in
  (a, (s'.1 <| file_receiver_ := r |>, s'.2)).
