(* ===== verification/RemoteProtocol.v ===== *)
(** * RemoteProtocol: the remote's session life cycle and frame handlers

    Models discovery, joining and the frame handlers of
    [src/device_code/components/esp_tree_remote/remote_protocol.cpp], over the
    data and send functions of RemoteSession.  A handler reads the session tag
    as [payload + payload_len]; here it is the tag [parse_frame_] found there. *)
From S2P Require Import Prelude Wire IncrementBuffer FileReceiver OTAFlashHandler Crypto Fragments RemoteSession.

(** ** Storing a fragment of a command *)

(** [store_fragment_] of this file: unlike the bridge's it does not take the
    flags of the last fragment and leaves the index check to the parser. *)
Definition put_fragment (assembly : espnow_fragment_assembly_t) (view : EntityPayloadView)
    (max_entity_fragment max_assembly_bytes : Z) : bool * espnow_fragment_assembly_t :=
  let i := Z.to_nat (view_fragment_index view) in
  if negb (nth i (asm_received assembly) 0 =? 0) then (true, assembly)
  else
    let offset := Z.to_nat (view_fragment_index view * max_entity_fragment) in
    if (length (asm_data assembly) <? offset + length (view_value view))%nat then (false, assembly)
    else
      let assembly := assembly
        <| asm_data ::= splice offset (view_value view) |>
        <| asm_received ::= <[i := 1]> |>
        <| asm_lengths ::= <[i := u16 (Z.of_nat (length (view_value view)))]> |>
        <| asm_bytes_received ::= fun n => u32 (n + Z.of_nat (length (view_value view))) |> in
      (asm_bytes_received assembly <=? max_assembly_bytes, assembly).

Definition store_fragment_ (assembly : espnow_fragment_assembly_t) (view : EntityPayloadView)
    (message_tx_base now_ms max_entity_fragment max_assembly_bytes : Z)
    : bool * espnow_fragment_assembly_t :=
  match enter_assembly assembly view message_tx_base now_ms max_entity_fragment
          max_assembly_bytes with
  | None => (false, assembly)
  | Some assembly => put_fragment assembly view max_entity_fragment max_assembly_bytes
  end.

Definition store_command (r : Reassembly) (view : EntityPayloadView)
    (message_tx_base now max_entity_fragment max_assembly_bytes max_total_fragment_bytes : Z)
    : bool * Reassembly :=
  let assembly := default fresh_assembly (assemblies r !! view_entity_index view) in
  let reserved_after := u32 (reserved_bytes r + view_fragment_count view * max_entity_fragment) in
  if negb (asm_active assembly) && (max_total_fragment_bytes <? reserved_after) then (false, r)
  else
    let '(ok, assembly) := store_fragment_ assembly view message_tx_base now
                             max_entity_fragment max_assembly_bytes in
    (ok, r <| assemblies ::= <[view_entity_index view := assembly]> |>).

(** The part of [handle_command_] that finds the assembly and stores. *)
Definition admit_command (r : Reassembly) (view : EntityPayloadView)
    (message_tx_base now max_entity_fragment max_assembly_bytes max_total_fragment_bytes : Z)
    : bool * Reassembly :=
  match assemblies r !! view_entity_index view with
  | None =>
    if (Z.to_nat ESPNOW_MAX_PENDING_FRAGMENT_ASSEMBLIES <=? size (assemblies r))%nat then (false, r)
    else store_command
           (r <| assemblies ::= <[view_entity_index view := fresh_assembly]> |>
              <| reserved_bytes ::= fun n =>
                   u32 (n + view_fragment_count view * max_entity_fragment) |>)
           view message_tx_base now max_entity_fragment max_assembly_bytes max_total_fragment_bytes
  | Some assembly =>
    let r := if asm_active assembly && negb (asm_message_tx_base assembly =? message_tx_base)
                && (asm_message_tx_base assembly <? message_tx_base)
             then r <| assemblies ::= <[view_entity_index view :=
                                          reset_fragment_assembly_ assembly]> |>
             else r in
    store_command r view message_tx_base now max_entity_fragment max_assembly_bytes
      max_total_fragment_bytes
  end.

(** ** The life cycle, without effects *)

(** [adopt_best_parent_candidate_]. *)
Definition adopt_best_parent_candidate_ (resume_normal_after_success : bool) (p : RemoteProtocol)
    : RemoteProtocol :=
  if negb (cand_valid (best_parent_ p)) then p
  else
    refresh_can_relay_ (p
      <| parent_mac_ := cand_next_hop_mac (best_parent_ p) |> <| parent_valid_ := true |>
      <| hop_count_ := 0 |> <| hops_to_bridge_ := u8 (cand_hops_to_bridge (best_parent_ p) + 1) |>
      <| last_known_channel_ := cand_channel (best_parent_ p) |>
      <| discovering_ := false |> <| sweep_complete_ := false |> <| fast_rejoin_ := false |>
      <| discover_retry_pending_ := false |> <| discover_retry_count_ := 0 |>
      <| discovery_resume_normal_after_success_ := resume_normal_after_success |>
      <| normal_ := resume_normal_after_success |> <| joined_ := resume_normal_after_success |>
      <| state_push_enabled_ := resume_normal_after_success |>
      <| last_successful_state_ms_ := 0 |> <| last_successful_outbound_ms_ := 0 |>)
      <| parent_link_rssi_ema_ := -127 |> <| topology_refresh_due_ms_ := 0 |>
      <| state_name_ := "NORMAL"%string |>.

Definition route_recovery_fields (now : Z) (p : RemoteProtocol) : RemoteProtocol :=
  refresh_can_relay_ (p
    <| discovering_ := true |> <| fast_rejoin_ := true |>
    <| discovery_resume_normal_after_success_ := true |>
    <| discovery_current_channel_only_ := true |> <| normal_ := false |>)
    <| best_parent_ := no_candidate |> <| state_push_enabled_ := false |>
    <| join_in_flight_ := false |> <| join_retry_count_ := 0 |> <| join_delay_until_ms_ := 0 |>
    <| waiting_for_state_ack_ := false |> <| state_retry_count_ := 0 |>
    <| heartbeat_due_ms_ := 0 |> <| last_heartbeat_tx_ms_ := 0 |>
    <| last_successful_state_ms_ := 0 |> <| last_successful_outbound_ms_ := 0 |>
    <| last_successful_heartbeat_ms_ := 0 |> <| wifi_waiting_ := false |>
    <| wifi_wait_deadline_ms_ := 0 |> <| discover_retry_pending_ := false |>
    <| discover_retry_count_ := 0 |> <| discover_phase_ := 0 |> <| channel_index_ := 0 |>
    <| discover_due_ms_ := now |> <| topology_refresh_due_ms_ := 0 |>
    <| sweep_complete_ := false |> <| state_name_ := "DISCOVERING"%string |>.

(** What [clear_session_state_] resets unless the route is preserved. *)
Definition clear_route_fields (p : RemoteProtocol) : RemoteProtocol :=
  p <| parent_valid_ := false |> <| best_parent_ := no_candidate |>
    <| bridge_mac_ := replicate 6 0 |> <| bridge_nonce_ := replicate 16 0 |>
    <| hop_count_ := 0 |> <| hops_to_bridge_ := 255 |> <| fast_rejoin_ := false |>
    <| discovery_resume_normal_after_success_ := false |>
    <| discovery_current_channel_only_ := false |> <| wifi_waiting_ := false |>
    <| wifi_wait_deadline_ms_ := 0 |> <| discover_retry_pending_ := false |>.

Definition clear_session_fields (preserve_route : bool) (p : RemoteProtocol) : RemoteProtocol :=
  let p := if preserve_route then p else clear_route_fields p in
  refresh_can_relay_ (p
    <| ota_last_activity_ms_ := 0 |> <| joined_ := false |> <| join_in_flight_ := false |>
    <| discovering_ := negb preserve_route |> <| session_key_valid_ := false |>
    <| last_seen_counter_ := 0 |> <| last_config_tx_counter_ := 0 |>
    <| last_config_command_ := 0 |> <| last_config_result_ := CFG_RESULT_OK |>
    <| last_config_valid_ := false |> <| outstanding_count_ := 0 |> <| join_retry_count_ := 0 |>
    <| wait_reject_count_ := 0 |> <| join_delay_until_ms_ := 0 |>
    <| state_push_enabled_ := false |> <| last_heartbeat_tx_ms_ := 0 |>
    <| heartbeat_due_ms_ := 0 |> <| waiting_for_state_ack_ := false |>
    <| state_retry_count_ := 0 |> <| last_state_tx_ms_ := 0 |>
    <| pending_state_message_tx_base_ := 0 |> <| pending_state_field_index_ := 0 |>
    <| pending_state_value_ := [] |> <| pending_state_fragment_count_ := 0 |>
    <| pending_state_payload_len_ := 0 |> <| normal_ := false |>)
    <| joined_started_ms_ := 0 |> <| last_successful_outbound_ms_ := 0 |>
    <| last_successful_state_ms_ := 0 |> <| last_successful_heartbeat_ms_ := 0 |>
    <| consecutive_send_failures_ := 0 |> <| pending_commands_ := no_reassembly |>
    <| announce_queue_head_ := 0 |> <| announce_queue_tail_ := 0 |>
    <| announce_queue_ := replicate ANNOUNCE_QUEUE_SIZE no_announce |>
    <| discover_announce_pending_ := false |>.

(** The candidate an announcement makes and when it replaces the best one. *)
Definition preferred_index_of (p : RemoteProtocol) (sender_mac responder_mac : bytes) : Z :=
  match list_find (fun mac => bytes_eqb mac sender_mac || bytes_eqb mac responder_mac = true)
          (preferred_parents_ p) with
  | Some (i, _) => u8 (Z.of_nat i)
  | None => 255
  end.

Definition better_candidate (preferred_index hops rssi : Z) (best : DiscoverCandidate) : bool :=
  negb (cand_valid best) ||
  (preferred_index <? cand_preferred_index best) ||
  ((preferred_index =? cand_preferred_index best) &&
   ((hops <? cand_hops_to_bridge best) ||
    ((hops =? cand_hops_to_bridge best) && (cand_rssi best <? rssi)))).

Definition candidate_of (sender_mac : bytes) (announce : espnow_discover_announce_t)
    (rssi channel preferred_index : Z) : DiscoverCandidate :=
  {| cand_next_hop_mac := take 6 sender_mac; cand_responder_role := announce_responder_role announce;
     cand_bridge_reachable := negb (announce_bridge_reachable announce =? 0);
     cand_flags := announce_flags announce; cand_channel := channel; cand_rssi := rssi;
     cand_hops_to_bridge := announce_hops_to_bridge announce; cand_valid := true;
     cand_preferred_index := preferred_index |}.

(** ** The life cycle *)
Section remote.
Context {W : Type} `{!RemoteEnv W} `{!OtaPlatform W} `{!Hmac} `{!Digests}.
Abbreviation St := (RemoteProtocol * W)%type.

Definition wifi_connected_ (w : W) : bool := default false (wifi_component w).

Definition current_wifi_channel_ (w : W) : Z :=
  match esp_wifi_get_channel w with
  | Some ch => if (ch =? 0) || (13 <? ch) then 1 else ch
  | None => 1
  end.

Definition set_wifi_channel_with_recovery (channel : Z) : M St wifi_err_t :=
  err ← ask (esp_wifi_set_channel channel);
  if bool_decide (err = WIFI_NOT_STARTED) then
    start_err ← ask esp_wifi_start;
    if negb (bool_decide (start_err = WIFI_OK)) && negb (bool_decide (start_err = WIFI_CONN))
    then mret err
    else ask (esp_wifi_set_channel channel)
  else mret err.

Definition clear_session_state_ (clear_entities preserve_route : bool) : M St unit :=
  p ← this;
  when (is_receiving (file_receiver_ p))
    (with_receiver (FileReceiver.abort ESPNOW_FILE_ABORT_SESSION_LOST false));;
  update (clear_session_fields preserve_route);;
  when clear_entities (update (fun p => p <| entities_ := [] |> <| entity_records_ := [] |>)).

Definition new_remote_nonce : M St unit :=
  nonce ← ask (env_fill_random_bytes 16);
  update (fun p => p <| remote_nonce_ := nonce |>).

Definition start_route_recovery_cycle_ : M St unit :=
  now ← millis; update (route_recovery_fields now).

Definition start_discovery_cycle_ (wifi_wait_expired : bool) : M St unit :=
  clear_session_state_ false false;;
  update (fun p => p <| discovering_ := true |> <| fast_rejoin_ := false |>
    <| discovery_resume_normal_after_success_ := false |>
    <| discovery_current_channel_only_ := false |> <| discover_retry_pending_ := false |>
    <| discover_retry_count_ := 0 |> <| discover_phase_ := 0 |> <| sweep_complete_ := false |>
    <| topology_refresh_due_ms_ := 0 |>);;
  new_remote_nonce;;
  w ← gets snd;
  now ← millis;
  if negb wifi_wait_expired && bool_decide (is_Some (wifi_component w)) && negb (wifi_connected_ w)
  then
    let deadline := u32 (now + ESPNOW_WIFI_DISCOVER_WAIT_MS) in
    update (fun p => p <| wifi_waiting_ := true |> <| wifi_wait_deadline_ms_ := deadline |>
      <| state_name_ := "WAIT_WIFI"%string |> <| discover_due_ms_ := deadline |>)
  else
    update (fun p => p <| wifi_waiting_ := false |> <| wifi_wait_deadline_ms_ := 0 |>
      <| discovery_current_channel_only_ := wifi_connected_ w |> <| channel_index_ := 0 |>
      <| state_name_ := "DISCOVERING"%string |> <| discover_due_ms_ := now |>);;
    set_wifi_channel_with_recovery
      (if wifi_connected_ w then current_wifi_channel_ w else sweep_channel_from_index 0);;
    mret tt.

Definition start_config_full_rediscovery_ : M St unit :=
  clear_session_state_ false true;;
  now ← millis;
  update (fun p => p <| discovering_ := true |> <| sweep_complete_ := false |>
    <| fast_rejoin_ := false |> <| discovery_resume_normal_after_success_ := false |>
    <| discovery_current_channel_only_ := false |> <| wifi_waiting_ := false |>
    <| wifi_wait_deadline_ms_ := 0 |> <| discover_retry_pending_ := false |>
    <| discover_retry_count_ := 0 |> <| discover_phase_ := 0 |> <| channel_index_ := 0 |>
    <| discover_due_ms_ := now |> <| topology_refresh_due_ms_ := 0 |>);;
  new_remote_nonce;;
  update (fun p => p <| state_name_ := "DISCOVERING"%string |>);;
  set_wifi_channel_with_recovery (sweep_channel_from_index 0);;
  mret tt.

(** [esp_restart] does not return. *)
Definition rejoin_due_to_transmit_stall_ (now : Z) (reason : string) : M St unit :=
  if String.eqb reason "no outbound progress" then
    clear_session_state_ false true;;
    env (env_delay 10000);;
    env env_esp_restart
  else
    start_route_recovery_cycle_;;
    update (fun p => p <| discover_due_ms_ := now |>).

(** ** Discovery *)
Definition discover_payload (p : RemoteProtocol) : bytes :=
  to_bytes {| discover_network_id := pad_to 32 (network_id_ p);
              discover_network_id_len := u8 (Z.of_nat (length (network_id_ p)));
              discover_capability_flags := if relay_enabled_ p then 1 else 0 |}.

Definition send_on_channel (now channel : Z) : M St bool :=
  set_wifi_channel_with_recovery channel;;
  p ← this;
  sent ← send_frame_ BROADCAST_MAC PKT_DISCOVER (ESPNOW_HOPS_MAKE ESPNOW_HOPS_DIR_UP 0) 0
           (discover_payload p) false None;
  update (fun p => p <| discover_due_ms_ := u32 (now + ESPNOW_DISCOVER_COLLECTION_WINDOW_MS) |>);;
  mret sent.

Definition last_channel (p : RemoteProtocol) : Z :=
  if (1 <=? last_known_channel_ p) && (last_known_channel_ p <=? 13)
  then last_known_channel_ p else 1.

(** The next step of the sweep over all channels. *)
Definition sweep_next (now : Z) : M St bool :=
  p ← this;
  update (fun p => p <| channel_index_ := u8 (channel_index_ p + 1) |>);;
  send_on_channel now (sweep_channel_from_index (channel_index_ p)).

Definition schedule_discover_retry (now : Z) (p : RemoteProtocol) : RemoteProtocol :=
  p <| discover_retry_pending_ := true |>
    <| discover_due_ms_ := u32 (now + discover_backoff_delay_ms (discover_phase_ p)) |>
    <| discover_phase_ ::= fun n => if n <? 4 then u8 (n + 1) else n |>.

Definition send_discover_ : M St bool :=
  now ← millis;
  w ← gets snd;
  update (fun p => p <| state_name_ := "DISCOVERING"%string |>);;
  p ← this;
  if discover_retry_pending_ p then
    update (fun p => p <| discover_retry_pending_ := false |>);;
    if fast_rejoin_ p then
      update (fun p => p <| discover_retry_count_ := u8 (discover_retry_count_ p + 1) |>);;
      send_on_channel now (last_channel p)
    else if discovery_current_channel_only_ p then
      update (fun p => p <| discover_retry_count_ := u8 (discover_retry_count_ p + 1) |>);;
      send_on_channel now (current_wifi_channel_ w)
    else
      when (13 <=? channel_index_ p) (update (fun p => p <| channel_index_ := 0 |>));;
      sweep_next now
  else if fast_rejoin_ p then
    if discover_retry_count_ p =? 0 then
      update (fun p => p <| discover_retry_count_ := 1 |>);;
      send_on_channel now (last_channel p)
    else if discover_retry_count_ p =? 1 then
      update (fun p => p <| discover_retry_pending_ := true |>
                         <| discover_due_ms_ := u32 (now + ESPNOW_DISCOVER_BACKOFF_START_MS) |>);;
      mret true
    else
      update (fun p => p <| fast_rejoin_ := false |> <| discover_retry_count_ := 0 |>
        <| discover_phase_ := 0 |> <| discovery_current_channel_only_ := false |>
        <| discovery_resume_normal_after_success_ := true |> <| channel_index_ := 0 |>);;
      sweep_next now
  else if discovery_current_channel_only_ p then
    if discover_retry_count_ p =? 0 then
      update (fun p => p <| discover_retry_count_ := 1 |>);;
      send_on_channel now (current_wifi_channel_ w)
    else
      update (schedule_discover_retry now);; mret true
  else if 13 <=? channel_index_ p then
    if cand_valid (best_parent_ p) then
      update (fun p => p <| sweep_complete_ := true |>);; mret true
    else
      update (fun p => schedule_discover_retry now p <| channel_index_ := 0 |>);; mret true
  else sweep_next now.

Definition select_parent_candidate_ (sender_mac : bytes) (announce : espnow_discover_announce_t)
    (rssi : Z) : M St unit :=
  p ← this;
  let preferred_index := preferred_index_of p sender_mac (announce_responder_mac announce) in
  if negb (better_candidate preferred_index (announce_hops_to_bridge announce) rssi (best_parent_ p))
  then mret tt
  else
    w ← gets snd;
    update (fun p => p <| best_parent_ := candidate_of sender_mac announce rssi
                            (default 1 (esp_wifi_get_channel w)) preferred_index |>).

(** ** Discovery frames *)
Definition network_id_matches (p : RemoteProtocol) (network_id : bytes) (network_id_len : Z) : bool :=
  (network_id_len =? Z.of_nat (length (network_id_ p)))
  && bytes_eqb (take (length (network_id_ p)) network_id) (network_id_ p).

Definition handle_discover_ (sender_mac : bytes) (header : espnow_frame_header_t)
    (payload : bytes) : M St bool :=
  p ← this;
  if (length sender_mac =? 0)%nat then mret false
  else if bytes_eqb sender_mac (leaf_mac_ p) then mret false
  else if negb (length payload =? sizeof espnow_discover_t)%nat then mret false
  else
    let discover : espnow_discover_t := of_bytes payload in
    if negb (network_id_matches p (discover_network_id discover) (discover_network_id_len discover))
    then mret false
    else if negb (can_relay_ p) then mret false
    else if max_hops_ p <? hops_to_bridge_ p then mret false
    else if existsb (fun d => bytes_eqb (pd_leaf_mac d) (leaf_mac header)) (pending_discovers_ p)
    then mret true
    else if max_discover_pending_ p <=? Z.of_nat (length (pending_discovers_ p)) then mret false
    else
      now ← millis;
      update (fun p => p <| pending_discovers_ ::= fun l =>
        l ++ [{| pd_leaf_mac := leaf_mac header; pd_expiry_ms := u32 (now + 500) |}] |>);;
      send_discover_announce_with_jitter_ sender_mac (leaf_mac header) ESPNOW_NODE_ROLE_RELAY
        (hops_to_bridge_ p).

Definition handle_discover_announce_ (sender_mac : bytes) (payload : bytes) (rssi : Z) : M St bool :=
  p ← this;
  if (length sender_mac =? 0)%nat then mret false
  else if negb (length payload =? sizeof espnow_discover_announce_t)%nat then mret false
  else
    let announce : espnow_discover_announce_t := of_bytes payload in
    if negb (network_id_matches p (announce_network_id announce) (announce_network_id_len announce))
    then mret false
    else if announce_bridge_reachable announce =? 0 then mret false
    else if max_hops_ p <? announce_hops_to_bridge announce then mret false
    else select_parent_candidate_ sender_mac announce rssi;; mret true.

(** ** Joining *)
Definition handle_join_ : M St bool := mret false.

(** The branch of [handle_join_ack_] for a refusal. *)
Definition join_rejected (ack : espnow_join_ack_t) : M St bool :=
  update (fun p => p <| session_key_valid_ := false |> <| fast_rejoin_ := false |>);;
  (if ja_reason ack =? ESPNOW_JOIN_REASON_WAIT then
     now ← millis;
     let wait_until_ms := u32 (now + ESPNOW_WAIT_REJECT_DELAY_MS) in
     update (fun p => p <| wait_reject_count_ := u8 (wait_reject_count_ p + 1) |>);;
     p ← this;
     if ESPNOW_MAX_RETRIES <=? wait_reject_count_ p then
       update (fun p => p <| join_in_flight_ := false |> <| wait_reject_count_ := 0 |>);;
       start_discovery_cycle_ false;;
       now ← millis;
       update (fun p => p <| discover_due_ms_ := u32 (now + 1000) |>)
     else
       update (fun p => p <| join_in_flight_ := false |> <| join_delay_until_ms_ := wait_until_ms |>
                          <| join_retry_count_ := 0 |> <| discover_due_ms_ := wait_until_ms |>)
   else
     update (fun p => p <| join_in_flight_ := false |>);;
     start_discovery_cycle_ false);;
  mret false.

(** What an acceptance does to the session whatever its stage. *)
Definition accept_session `{Hmac} (tx : Z) (ack : espnow_join_ack_t) (p : RemoteProtocol)
    : RemoteProtocol :=
  let flags := ja_session_flags ack in
  let p := p <| bridge_nonce_ := ja_bridge_nonce ack |> <| bridge_session_flags_ := flags |>
             <| local_session_flags_ := flags |> in
  let p := p <| session_max_payload_ :=
      if negb (Z.land (local_session_flags_ p) ESPNOW_SESSION_FLAG_V2_MTU =? 0)
         && negb (Z.land (bridge_session_flags_ p) ESPNOW_SESSION_FLAG_V2_MTU =? 0)
      then ESPNOW_V2_MAX_PAYLOAD else ESPNOW_V1_MAX_PAYLOAD |> in
  let p := update_mtu_from_route_ p in
  p <| session_key_ := espnow_crypto_derive_session_key (crypto p) (bridge_nonce_ p) (remote_nonce_ p) |>
    <| session_key_valid_ := true |> <| joined_ := true |> <| fast_rejoin_ := false |>
    <| discovering_ := false |> <| join_in_flight_ := false |> <| join_retry_count_ := 0 |>
    <| last_seen_counter_ := tx |>.

(** The stages a session goes through. *)
Definition enter_joined (now : Z) (p : RemoteProtocol) : RemoteProtocol :=
  refresh_can_relay_ (p <| normal_ := false |>)
    <| state_push_enabled_ := false |> <| state_name_ := "JOINED"%string |>
    <| joined_started_ms_ := now |>.

Definition enter_state_sync (now : Z) (p : RemoteProtocol) : RemoteProtocol :=
  mark_all_entities_dirty_ (refresh_can_relay_ (p <| normal_ := false |>)
    <| state_push_enabled_ := true |> <| waiting_for_state_ack_ := false |>
    <| state_retry_count_ := 0 |> <| state_name_ := "STATE_SYNC"%string |>
    <| joined_started_ms_ := now |>).

Definition enter_normal (p : RemoteProtocol) : RemoteProtocol :=
  refresh_can_relay_ (p
    <| normal_ := true |> <| joined_started_ms_ := 0 |> <| state_push_enabled_ := true |>
    <| last_successful_outbound_ms_ := 0 |> <| consecutive_send_failures_ := 0 |>
    <| last_successful_state_ms_ := 0 |> <| parent_mac_ := cand_next_hop_mac (best_parent_ p) |>
    <| parent_valid_ := true |> <| hop_count_ := 0 |>
    <| hops_to_bridge_ := u8 (cand_hops_to_bridge (best_parent_ p) + 1) |>)
    <| state_name_ := "NORMAL"%string |>.

Definition join_accepted (header : espnow_frame_header_t) (ack : espnow_join_ack_t) : M St bool :=
  update (accept_session (tx_counter header) ack);;
  p ← this;
  now ← millis;
  (if ja_stage ack =? ESPNOW_JOIN_STATUS_SCHEMA_REFRESH then
     when (negb (normal_ p)) (update (enter_joined now))
   else if ja_stage ack =? ESPNOW_JOIN_STATUS_SEND_STATE then
     when (negb (normal_ p)) (update (enter_state_sync now))
   else if ja_stage ack =? ESPNOW_JOIN_STATUS_COMPLETE then
     update enter_normal;; send_heartbeat_;; mret tt
   else update (enter_joined now));;
  mret true.

Definition handle_join_ack_ (header : espnow_frame_header_t) (payload : bytes) : M St bool :=
  p ← this;
  if joined_ p && negb (counter_is_newer (tx_counter header) (last_seen_counter_ p)) then mret false
  else if negb (length payload =? sizeof espnow_join_ack_t)%nat then mret false
  else
    let ack : espnow_join_ack_t := of_bytes payload in
    if negb (ja_accepted ack =? 1) then join_rejected ack else join_accepted header ack.

(** ** Encrypted frames from the bridge *)
Definition state_acked (now : Z) (p : RemoteProtocol) : RemoteProtocol :=
  p <| last_state_rtt_ms_ := u32 (now - last_state_tx_ms_ p) |>
    <| last_successful_state_ms_ := now |> <| waiting_for_state_ack_ := false |>
    <| state_retry_count_ := 0 |>
    <| entity_records_ ::= alter (fun r => r <| er_dirty := false |>)
                             (Z.to_nat (pending_state_field_index_ p)) |>.

Definition handle_ack_ (header : espnow_frame_header_t) (payload : bytes)
    (session_tag : option bytes) : M St bool :=
  p ← this;
  if negb (joined_ p) || negb (counter_is_newer (tx_counter header) (last_seen_counter_ p))
  then mret false
  else match decrypt_ p header payload session_tag with
  | None => mret false
  | Some plaintext =>
    if (length plaintext <? sizeof espnow_ack_t)%nat then mret false
    else
      let ack : espnow_ack_t := of_bytes plaintext in
      if ack_type ack =? ACK_STATE then
        update (fun p => p <| last_seen_counter_ := tx_counter header |>);;
        when (waiting_for_state_ack_ p
              && (ack_ref_tx_counter ack =? pending_state_message_tx_base_ p))
          (now ← millis; update (state_acked now));;
        mret true
      else mret true
  end.

Definition command_done (value : bytes) (message_tx_base : Z) (r : EntityRecord) : EntityRecord :=
  r <| er_current_value := value |>
    <| er_current_text ::= fun old => if is_text (er_schema r) then value else old |>
    <| er_dirty := false |> <| er_last_completed := message_tx_base |>.

Definition handle_command_ (header : espnow_frame_header_t) (payload : bytes)
    (session_tag : option bytes) : M St bool :=
  p ← this;
  if negb (joined_ p) then mret false
  else match decrypt_ p header payload session_tag with
  | None => mret false
  | Some plaintext =>
    match parse_entity_payload plaintext with
    | None => mret false
    | Some command =>
      let entity := view_entity_index command in
      let message_tx_base := fragment_message_tx_base header command in
      match entity_records_ p !! Z.to_nat entity with
      | None => send_command_ack_ entity 2 message_tx_base
      | Some record =>
        if negb (counter_is_newer message_tx_base (er_last_completed record)) then
          if message_tx_base =? er_last_completed record
          then send_command_ack_ entity 0 message_tx_base else mret true
        else
          now ← millis;
          let '(ok, pending) := admit_command (pending_commands_ p) command message_tx_base now
            (max_entity_fragment_ p) (max_assembly_bytes_ p) (max_total_fragment_bytes_ p) in
          update (fun p => p <| pending_commands_ := pending |>);;
          if negb ok then mret false
          else
            update (fun p => p <| last_seen_counter_ ::= fun n => Z.max n (tx_counter header) |>);;
            let assembly := default fresh_assembly (assemblies pending !! entity) in
            if negb (fragment_assembly_complete_ assembly) then mret true
            else
              let value := assemble_fragment_payload_ assembly (max_entity_fragment_ p) in
              update (fun p => p <| pending_commands_ ::= fun r =>
                                      take_assembly r entity (data_size assembly) |>);;
              with_record entity (command_done value message_tx_base);;
              when (command_fn_set p) (env (env_command_fn entity (view_flags command) value));;
              send_command_ack_ entity 0 message_tx_base
      end
    end
  end.

Definition ack_and_remember (header : espnow_frame_header_t) (command result : Z) : M St bool :=
  update (fun p => p <| last_config_tx_counter_ := tx_counter header |>
    <| last_config_command_ := command |> <| last_config_result_ := result |>
    <| last_config_valid_ := true |>);;
  send_config_ack_ command result (tx_counter header).

(** [effect] runs when the acknowledgement of success was sent. *)
Definition config_ok (header : espnow_frame_header_t) (command : Z) (effect : M St unit) : M St bool :=
  sent ← ack_and_remember header command CFG_RESULT_OK;
  if negb sent then mret false else effect;; mret true.

Definition prefer_parent (preferred : bytes) (clear : bool) (p : RemoteProtocol) : RemoteProtocol :=
  p <| preferred_parents_ ::= fun l =>
    let l := if clear then [] else l in
    let l := match list_find (eq preferred) l with Some (i, _) => delete i l | None => l end in
    preferred :: l |>.

Definition run_config (header : espnow_frame_header_t) (command : Z) (cmd_payload : bytes)
    : M St bool :=
  let invalid := ack_and_remember header command CFG_RESULT_INVALID_PAYLOAD in
  if command =? CFG_CMD_REBOOT then
    if negb (length cmd_payload =? 0)%nat then invalid
    else config_ok header command (env env_safe_reboot)
  else if (command =? CFG_CMD_OTA_ENABLE) || (command =? CFG_CMD_WIFI_CONNECT) then
    ack_and_remember header command CFG_RESULT_UNSUPPORTED
  else if command =? CFG_CMD_HEARTBEAT_INTERVAL then
    if negb (length cmd_payload =? 4)%nat then invalid
    else
      let interval := le_num cmd_payload in
      if (interval <? 5) || (3600 <? interval) then invalid
      else config_ok header command
        (now ← millis;
         update (fun p => p <| heartbeat_interval_ := u16 interval |>
                            <| heartbeat_due_ms_ := u32 (now + interval * 1000) |>))
  else if command =? CFG_CMD_FORCE_REDISCOVER then
    if negb (length cmd_payload =? 0)%nat then invalid
    else config_ok header command start_config_full_rediscovery_
  else if command =? CFG_CMD_SET_PARENT_MAC then
    if negb (length cmd_payload =? 7)%nat then invalid
    else
      let flags := at_ cmd_payload 0 in
      if negb (Z.land flags (Z.lnot SET_PARENT_MAC_FLAG_CLEAR) =? 0) then invalid
      else config_ok header command
        (update (prefer_parent (drop 1 cmd_payload)
                   (negb (Z.land flags SET_PARENT_MAC_FLAG_CLEAR =? 0)));;
         start_route_recovery_cycle_;;
         update (fun p => p <| fast_rejoin_ := false |>
                            <| discovery_current_channel_only_ := false |>))
  else if command =? CFG_CMD_RELAY then
    if negb (length cmd_payload =? 1)%nat || (1 <? at_ cmd_payload 0) then invalid
    else config_ok header command (set_relay_enabled_runtime (negb (at_ cmd_payload 0 =? 0)))
  else ack_and_remember header command CFG_RESULT_UNSUPPORTED.

Definition handle_config_ (header : espnow_frame_header_t) (payload : bytes)
    (session_tag : option bytes) : M St bool :=
  p ← this;
  if negb (joined_ p) then mret false
  else match decrypt_ p header payload session_tag with
  | None => mret false
  | Some plaintext =>
    if last_config_valid_ p && (tx_counter header =? last_config_tx_counter_ p) then
      send_config_ack_ (last_config_command_ p) (last_config_result_ p) (tx_counter header)
    else if negb (counter_is_newer (tx_counter header) (last_seen_counter_ p)) then mret false
    else
      update (fun p => p <| last_seen_counter_ := tx_counter header |>);;
      if (length plaintext <? sizeof espnow_config_t)%nat then
        ack_and_remember header 0 CFG_RESULT_INVALID_PAYLOAD
      else
        let cfg : espnow_config_t := of_bytes plaintext in
        let cmd_payload := drop (sizeof espnow_config_t) plaintext in
        if negb (cfg_payload_len cfg =? Z.of_nat (length cmd_payload)) then
          ack_and_remember header (cfg_command cfg) CFG_RESULT_INVALID_PAYLOAD
        else if negb (normal_ p) then ack_and_remember header (cfg_command cfg) CFG_RESULT_BUSY
        else run_config header (cfg_command cfg) cmd_payload
  end.

Definition handle_schema_request_ (header : espnow_frame_header_t) (payload : bytes)
    (session_tag : option bytes) : M St bool :=
  p ← this;
  if negb (joined_ p) || negb (counter_is_newer (tx_counter header) (last_seen_counter_ p))
  then mret false
  else match decrypt_ p header payload session_tag with
  | None => mret false
  | Some plaintext =>
    if negb (length plaintext =? sizeof espnow_schema_request_t)%nat then mret false
    else
      let request : espnow_schema_request_t := of_bytes plaintext in
      update (fun p => p <| last_seen_counter_ := tx_counter header |>
        <| state_push_enabled_ := false |> <| last_heartbeat_tx_ms_ := 0 |>
        <| heartbeat_due_ms_ := 0 |> <| last_successful_state_ms_ := 0 |>
        <| last_successful_heartbeat_ms_ := 0 |>);;
      if sr_descriptor_type request =? ESPNOW_DESCRIPTOR_TYPE_IDENTITY then
        if sr_descriptor_index request =? 0 then send_identity_descriptor_ else mret false
      else if sr_descriptor_type request =? ESPNOW_DESCRIPTOR_TYPE_ENTITY then
        send_schema_push_ (sr_descriptor_index request)
      else mret false
  end.

(** ** File transfer *)
Definition handle_file_transfer_ (header : espnow_frame_header_t) (payload : bytes)
    (session_tag : option bytes) : M St bool :=
  p ← this;
  if negb (bytes_eqb (leaf_mac header) (leaf_mac_ p)) then mret false
  else if negb (joined_ p) then mret false
  else match decrypt_ p header payload session_tag with
  | None => mret false
  | Some plaintext =>
    now ← millis;
    update (fun p => p <| ota_last_activity_ms_ := now |>);;
    let phase := match plaintext with b :: _ => Some b | [] => None end in
    when (bool_decide (phase = Some ESPNOW_FILE_PHASE_ANNOUNCE))
      (with_receiver (set_announce_tx_counter (tx_counter header)));;
    when (bool_decide (phase = Some ESPNOW_FILE_PHASE_BLAST_COMPLETE))
      (with_receiver (set_blast_complete_tx_counter (tx_counter header)));;
    with_receiver (handle_file_transfer plaintext)
  end.

Definition handle_file_data_ (header : espnow_frame_header_t) (payload : bytes)
    (session_tag : option bytes) : M St bool :=
  p ← this;
  if negb (bytes_eqb (leaf_mac header) (leaf_mac_ p)) then mret false
  else if negb (joined_ p) then mret false
  else match decrypt_ p header payload session_tag with
  | None => mret false
  | Some plaintext =>
    now ← millis;
    update (fun p => p <| ota_last_activity_ms_ := now |>);;
    with_receiver (handle_file_data plaintext)
  end.

(** ** Dispatch *)
Definition should_handle_locally_ (p : RemoteProtocol) (header : espnow_frame_header_t) : bool :=
  bytes_eqb (leaf_mac header) (leaf_mac_ p)
  || match packet_type_of (packet_type header) with
     | Some PKT_DISCOVER => relay_enabled_ p && normal_ p
     | Some PKT_DISCOVER_ANNOUNCE => true
     | _ => false
     end.

Definition handle_deauth_ (header : espnow_frame_header_t) (payload : bytes) : M St bool :=
  p ← this;
  if negb (should_handle_locally_ p header) then mret false
  else if negb (length payload =? sizeof espnow_deauth_t)%nat then mret false
  else
    let have_route := parent_valid_ p && cand_valid (best_parent_ p) in
    clear_session_state_ false true;;
    update (fun p => p <| discovering_ := true |> <| sweep_complete_ := true |>
      <| fast_rejoin_ := false |> <| discovery_resume_normal_after_success_ := false |>
      <| discovery_current_channel_only_ := true |>);;
    new_remote_nonce;;
    sent ← (if have_route then send_join_ else mret false);
    if (sent : bool) then update (fun p => p <| state_name_ := "JOINING"%string |>);; mret true
    else start_discovery_cycle_ false;; mret true.

Definition handle_upstream_ (sender_mac : bytes) (header : espnow_frame_header_t)
    (payload : bytes) (session_tag : option bytes) : M St bool :=
  p ← this;
  if negb (parent_valid_ p) || (length sender_mac =? 0)%nat then mret false
  else
    refresh_route_ (leaf_mac header) sender_mac;;
    when (bool_decide (packet_type_of (packet_type header) = Some PKT_JOIN)
          || bool_decide (packet_type_of (packet_type header) = Some PKT_HEARTBEAT))
      (update (fun p => p <| routes_ ::= update_route (leaf_mac header)
                               (fun r => r <| route_has_logged := true |>) |>));;
    forward_packet_ header payload session_tag.

(** The first branch is not reached: [on_espnow_frame] handles these itself. *)
Definition handle_downstream_ (header : espnow_frame_header_t) (payload : bytes)
    (session_tag : option bytes) : M St bool :=
  p ← this;
  if should_handle_locally_ p header then
    match packet_type_of (packet_type header) with
    | Some PKT_CONFIG => handle_config_ header payload session_tag
    | Some PKT_FILE_TRANSFER =>
      if ota_over_espnow_ p then handle_file_transfer_ header payload session_tag else mret false
    | Some PKT_FILE_DATA =>
      if ota_over_espnow_ p then handle_file_data_ header payload session_tag else mret false
    | _ => mret false
    end
  else forward_packet_ header payload session_tag.

(** The moving average of the parent's signal strength. *)
Definition parent_rssi (rssi ema : Z) : Z :=
  if ema =? -127 then rssi
  else i8 (Z.quot (rssi + (ESPNOW_RSSI_EMA_ALPHA - 1) * ema) ESPNOW_RSSI_EMA_ALPHA).

Definition update_rssi (sender_mac : bytes) (rssi : Z) (p : RemoteProtocol) : RemoteProtocol :=
  if parent_valid_ p && bytes_eqb sender_mac (parent_mac_ p)
  then p <| parent_link_rssi_ema_ ::= parent_rssi rssi |> else p.

(** [hops_to_bridge_] follows frames that carry this node's own address. *)
Definition observe_hops (header : espnow_frame_header_t) (p : RemoteProtocol) : RemoteProtocol :=
  let observed_hops := ESPNOW_HOPS_COUNT (hop_count header) in
  if bytes_eqb (leaf_mac header) (leaf_mac_ p) && ESPNOW_HOPS_IS_UPSTREAM (hop_count header)
     && (observed_hops <? hops_to_bridge_ p)
  then p <| hops_to_bridge_ := observed_hops |> else p.

Definition handle_locally (sender_mac : bytes) (f : ParsedFrame) (rssi : Z) : M St bool :=
  let header := pf_header f in
  let payload := pf_payload f in
  match packet_type_of (packet_type header) with
  | Some PKT_DISCOVER => handle_discover_ sender_mac header payload
  | Some PKT_DISCOVER_ANNOUNCE => handle_discover_announce_ sender_mac payload rssi
  | Some PKT_JOIN_ACK => handle_join_ack_ header payload
  | Some PKT_ACK => handle_ack_ header payload (pf_session_tag f)
  | Some PKT_COMMAND => handle_command_ header payload (pf_session_tag f)
  | Some PKT_CONFIG => handle_config_ header payload (pf_session_tag f)
  | Some PKT_SCHEMA_REQUEST => handle_schema_request_ header payload (pf_session_tag f)
  | Some PKT_DEAUTH => handle_deauth_ header payload
  | Some PKT_FILE_TRANSFER => handle_file_transfer_ header payload (pf_session_tag f)
  | Some PKT_FILE_DATA => handle_file_data_ header payload (pf_session_tag f)
  | _ => mret false
  end.

Definition is_file_packet (b : Z) : bool :=
  bool_decide (packet_type_of b = Some PKT_FILE_TRANSFER)
  || bool_decide (packet_type_of b = Some PKT_FILE_DATA).

(** The checks of [on_espnow_frame] before a frame changes anything. *)
Definition admit_frame (p : RemoteProtocol) (data : bytes) : option ParsedFrame :=
  f ← parse_frame_ data;
  if negb (validate_psk_ p (pf_header f) (pf_payload f)) then None
  else if max_hops_ p <=? ESPNOW_HOPS_COUNT (hop_count (pf_header f)) then None
  else if has_parent_check (hop_count (pf_header f))
          && negb (espnow_is_parent_mac_all_zeros (pf_parent_mac f))
          && negb (bytes_eqb (pf_parent_mac f) (leaf_mac_ p)) then None
  else Some f.

Definition on_espnow_frame (sender_mac data : bytes) (rssi : Z) : M St bool :=
  p ← this;
  match admit_frame p data with
  | None => mret false
  | Some f =>
    let header := pf_header f in
    when (has_parent_check (hop_count header))
      (update (fun p => p <| last_parent_mac := pf_parent_mac f |>));;
    update (update_rssi sender_mac rssi);;
    if is_encrypted_packet (packet_type header)
       && (session_max_payload_ p <? Z.of_nat (length data)) then mret false
    else if should_handle_locally_ p header then
      update (observe_hops header);;
      if is_file_packet (packet_type header) && negb (ota_over_espnow_ p) then mret false
      else handle_locally sender_mac f rssi
    else if negb (can_relay_ p) then mret false
    else if ESPNOW_HOPS_IS_UPSTREAM (hop_count header)
    then handle_upstream_ sender_mac header (pf_payload f) (pf_session_tag f)
    else handle_downstream_ header (pf_payload f) (pf_session_tag f)
  end.
End remote.
