(* ===== verification/RemoteLoop.v ===== *)
(** * RemoteLoop: the remote's periodic work

    Models [RemoteProtocol::loop] of
    [src/device_code/components/esp_tree_remote/remote_protocol.cpp].  The body
    is cut at its early returns: each part returns [true] where the source
    returns from [loop]. *)
From S2P Require Import Prelude Wire IncrementBuffer FileReceiver OTAFlashHandler Crypto Fragments RemoteSession RemoteProtocol.

Definition OTA_SESSION_TIMEOUT_MS : Z := 30000.

Section loop.
Context {W : Type} `{!RemoteEnv W} `{!OtaPlatform W} `{!Hmac} `{!Digests}.
Abbreviation St := (RemoteProtocol * W)%type.

(** Run the parts until one returns. *)
Fixpoint first_of (parts : list (M St bool)) : M St unit :=
  match parts with
  | [] => mret tt
  | part :: parts => returned ← part; if (returned : bool) then mret tt else first_of parts
  end.

Definition retry_jitter_ : M St Z :=
  r ← ask env_esp_random; mret (r mod (ESPNOW_RETRY_JITTER_MS * 2 + 1)).

(** Abort a file transfer without traffic. *)
Definition ota_timer (now : Z) : M St unit :=
  p ← this;
  if is_receiving (file_receiver_ p) then
    if ota_last_activity_ms_ p =? 0 then update (fun p => p <| ota_last_activity_ms_ := now |>)
    else when (OTA_SESSION_TIMEOUT_MS <=? elapsed_ms_since now (ota_last_activity_ms_ p))
      (with_receiver (FileReceiver.abort ESPNOW_FILE_ABORT_SESSION_LOST true);;
       update (fun p => p <| ota_last_activity_ms_ := 0 |>))
  else update (fun p => p <| ota_last_activity_ms_ := 0 |>).

Definition initial_discovery : M St bool :=
  p ← this;
  if initial_discovery_pending_ p then
    update (fun p => p <| initial_discovery_pending_ := false |>);;
    start_discovery_cycle_ false;; mret true
  else mret false.

Definition wait_for_wifi (now : Z) : M St bool :=
  p ← this;
  w ← gets snd;
  if negb (wifi_waiting_ p) then mret false
  else if wifi_connected_ w then start_discovery_cycle_ true;; mret true
  else if now <? wifi_wait_deadline_ms_ p then mret true
  else start_discovery_cycle_ true;; mret true.

Definition tx_queue_clear (p : RemoteProtocol) : bool :=
  negb (waiting_for_state_ack_ p) && (consecutive_send_failures_ p =? 0) && negb (discovering_ p).

(** Look for a better parent when [wanted]. *)
Definition topology_refresh (now : Z) (wanted : RemoteProtocol -> bool) : M St bool :=
  p ← this;
  if negb (normal_ p && tx_queue_clear p && wanted p) then mret false
  else
    when (topology_refresh_due_ms_ p =? 0) (update (fun p =>
      p <| topology_refresh_due_ms_ := u32 (now + ESPNOW_TOPOLOGY_REFRESH_INTERVAL_MS) |>));;
    p ← this;
    if now <? topology_refresh_due_ms_ p then mret false
    else
      update (fun p =>
        p <| topology_refresh_due_ms_ := u32 (now + ESPNOW_TOPOLOGY_REFRESH_INTERVAL_MS) |>);;
      start_route_recovery_cycle_;; mret true.

Definition weak_parent (p : RemoteProtocol) : bool :=
  parent_link_rssi_ema_ p <? ESPNOW_PREFERRED_RSSI_FLOOR_DBM.
Definition has_preferences (p : RemoteProtocol) : bool := negb (length (preferred_parents_ p) =? 0)%nat.

(** The end of a recovery: go on with the parent that was found. *)
Definition resume_normal : M St bool :=
  p ← this;
  if discovering_ p && sweep_complete_ p && cand_valid (best_parent_ p)
     && discovery_resume_normal_after_success_ p then
    update (adopt_best_parent_candidate_ true);; send_heartbeat_;; mret true
  else mret false.

Definition begin_join_attempt (p : RemoteProtocol) : RemoteProtocol :=
  refresh_can_relay_ (p <| parent_mac_ := cand_next_hop_mac (best_parent_ p) |>
    <| parent_valid_ := true |> <| hop_count_ := 0 |>
    <| hops_to_bridge_ := u8 (cand_hops_to_bridge (best_parent_ p) + 1) |>).

Definition attempt_join (now join_retry_jitter : Z) : M St bool :=
  p ← this;
  if negb (discovering_ p && negb (discovery_resume_normal_after_success_ p) && sweep_complete_ p
           && cand_valid (best_parent_ p) && negb (joined_ p)) then mret false
  else
    let due := retry_backoff (join_retry_count_ p) + join_retry_jitter
                 <=? u32 (now - last_join_attempt_ms_ p) in
    let join_retry_due :=
      (join_retry_count_ p <? ESPNOW_MAX_RETRIES) && (negb (join_in_flight_ p) || due) in
    if negb ((join_delay_until_ms_ p =? 0) || (join_delay_until_ms_ p <=? now)) then mret false
    else if negb join_retry_due then mret false
    else
      update (fun p => p <| last_known_channel_ := cand_channel (best_parent_ p) |>);;
      when (join_in_flight_ p && due) (update (fun p => p <| join_in_flight_ := false |>));;
      update begin_join_attempt;;
      sent ← send_join_;
      if (sent : bool) then update (fun p => p <| state_name_ := "JOINING"%string |>);; mret true
      else mret false.

Definition collect_candidates (now : Z) : M St bool :=
  p ← this;
  if negb (discovering_ p && negb (sweep_complete_ p) && (discover_due_ms_ p <=? now)) then mret false
  else if cand_valid (best_parent_ p) then
    update (fun p => p <| sweep_complete_ := true |>);; mret true
  else send_discover_;; mret true.

Definition restart_discovery (now : Z) : M St unit :=
  update (fun p => p <| fast_rejoin_ := false |>);;
  start_discovery_cycle_ false;;
  update (fun p => p <| discover_due_ms_ := u32 (now + 1000) |>).

Definition join_exhausted (now : Z) : M St bool :=
  p ← this;
  when (join_in_flight_ p && (ESPNOW_MAX_RETRIES <=? join_retry_count_ p) && negb (joined_ p))
    (update (fun p => p <| join_in_flight_ := false |>);; restart_discovery now);;
  mret false.

(** The rest of [loop] runs for a joined remote only. *)
Definition unless_joined : M St bool := p ← this; mret (negb (joined_ p)).

Definition joined_timeout (now : Z) : M St bool :=
  p ← this;
  if negb (normal_ p) && (0 <? joined_started_ms_ p)
     && (ESPNOW_JOINED_TO_NORMAL_TIMEOUT_MS <=? u32 (now - joined_started_ms_ p)) then
    clear_session_state_ false false;; restart_discovery now;; mret true
  else mret false.

Definition transmit_stall (now : Z) : M St bool :=
  p ← this;
  let state_stall_timeout_ms := Z.max (ESPNOW_RETRY_INTERVAL_MS * 16) 30000 in
  let outbound_stall_timeout_ms := Z.max (heartbeat_interval_ p * 4000) 120000 in
  if ESPNOW_MAX_RETRIES <=? consecutive_send_failures_ p then
    rejoin_due_to_transmit_stall_ now "repeated send failures";; mret true
  else if waiting_for_state_ack_ p && (0 <? last_successful_state_ms_ p)
     && (state_stall_timeout_ms <=? elapsed_ms_since now (last_successful_state_ms_ p)) then
    rejoin_due_to_transmit_stall_ now "state stalled waiting for ack";; mret true
  else if (0 <? last_successful_outbound_ms_ p)
     && (outbound_stall_timeout_ms <=? elapsed_ms_since now (last_successful_outbound_ms_ p)) then
    rejoin_due_to_transmit_stall_ now "no outbound progress";; mret true
  else mret false.

Definition state_retry (now : Z) : M St bool :=
  p ← this;
  if negb (waiting_for_state_ack_ p) then mret false
  else if state_retry_count_ p <? ESPNOW_MAX_RETRIES then
    jitter ← retry_jitter_;
    if u32 (now - last_state_tx_ms_ p) <? retry_backoff (state_retry_count_ p) + jitter
    then mret false
    else
      sent ← send_state_ (pending_state_field_index_ p) (pending_state_value_ p) false;
      t ← millis;
      update (fun p => if (sent : bool)
                       then p <| state_retry_count_ := u8 (state_retry_count_ p + 1) |>
                       else p <| last_state_tx_ms_ := t |>);;
      mret false
  else
    update (fun p => p <| waiting_for_state_ack_ := false |> <| state_retry_count_ := 0 |>);;
    with_record (pending_state_field_index_ p) (fun r => r <| er_dirty := true |>);;
    start_route_recovery_cycle_;;
    mret true.

Definition push_disabled : M St bool := p ← this; mret (negb (state_push_enabled_ p)).

Definition heartbeat_timer (now : Z) : M St bool :=
  p ← this;
  if negb (normal_ p) then mret false
  else
    when (heartbeat_due_ms_ p =? 0)
      (update (fun p => p <| heartbeat_due_ms_ := u32 (now + heartbeat_interval_ p * 1000) |>));;
    p ← this;
    if now <? heartbeat_due_ms_ p then mret false else send_heartbeat_;; mret true.

(** The loop over [entity_records_] sends the first dirty one. *)
Definition push_state : M St bool :=
  p ← this;
  if waiting_for_state_ack_ p then mret false
  else match List.find er_dirty (entity_records_ p) with
  | None => mret false
  | Some record =>
    sent ← send_state_ (entity_index (er_schema record)) (er_current_value record) true;
    when sent (update (fun p => p <| waiting_for_state_ack_ := true |>));;
    mret false
  end.

Definition loop_parts (now join_retry_jitter : Z) : list (M St bool) :=
  [initial_discovery; wait_for_wifi now; topology_refresh now weak_parent;
   topology_refresh now has_preferences; resume_normal; attempt_join now join_retry_jitter;
   collect_candidates now; join_exhausted now; unless_joined; joined_timeout now;
   transmit_stall now; state_retry now; push_disabled; heartbeat_timer now; push_state].

Definition loop : M St unit :=
  now ← millis;
  join_retry_jitter ← retry_jitter_;
  update (fun p => prune_pending_command_fragments_ now
                     (prune_pending_discovers_ now (prune_routes_ now p)));;
  with_receiver FileReceiver.loop;;
  now ← millis;
  ota_timer now;;
  flush_pending_discover_announce_;;
  first_of (loop_parts now join_retry_jitter).
End loop.
