(* ===== verification/RemoteFrames.v ===== *)
(** * RemoteFrames: what the remote parses, builds and forwards

    [parse_frame_] is the inverse of laying a frame out; every frame the remote
    builds or forwards parses again, with a valid PSK tag; a forwarded frame is
    the frame received but for the hop byte and the parent address. *)
From S2P Require Import Prelude Wire IncrementBuffer FileReceiver OTAFlashHandler Crypto Frames Fragments RemoteSession.

(** The layout of a frame. *)
Definition frame_parts (h : espnow_frame_header_t) (parent payload tag : bytes) : bytes :=
  to_bytes h ++ parent ++ payload ++ tag.

(** Lengths that go with the header, within the largest frame. *)
Record parts_ok (h : espnow_frame_header_t) (parent payload tag : bytes) : Prop := {
  po_header : struct_ok h;
  po_version : protocol_version h = ESPNOW_PROTOCOL_VER;
  po_type : is_valid_packet_type (packet_type h) = true;
  po_parent : length parent = (if has_parent_check (hop_count h) then 6 else 0)%nat;
  po_tag : length tag = (if is_encrypted_packet (packet_type h) then 8 else 0)%nat;
  po_length : (17 + length parent + length payload + length tag <= 1470)%nat
}.

Definition parsed (h : espnow_frame_header_t) (parent payload tag : bytes) : ParsedFrame :=
  {| pf_header := h; pf_payload := payload;
     pf_session_tag := if is_encrypted_packet (packet_type h) then Some tag else None;
     pf_parent_mac := if has_parent_check (hop_count h) then parent else replicate 6 0 |}.

Lemma parse_parts h parent payload tag :
  parts_ok h parent payload tag ->
  parse_frame_ (frame_parts h parent payload tag) = Some (parsed h parent payload tag).
Proof.
  intros [Hok Hv Ht Hp Htag Hlen]. pose proof (length_header h Hok) as Hl.
  unfold parse_frame_, frame_parts, parsed. change (sizeof espnow_frame_header_t) with 17%nat.
  change (Z.to_nat ESPNOW_V2_MAX_PAYLOAD) with 1470%nat.
  change (Z.to_nat ESPNOW_PARENT_MAC_LEN) with 6%nat.
  change (Z.to_nat ESPNOW_SESSION_TAG_LEN) with 8%nat. cbn zeta.
  rewrite (of_to_bytes h) by done. rewrite Hv, Ht. cbn [negb Z.eqb].
  assert (length (to_bytes h ++ parent ++ payload ++ tag) =
    17 + length parent + length payload + length tag)%nat as Hall by (rewrite !length_app; lia).
  rewrite Hall, Hp. set (hs := (17 + _)%nat).
  assert (hs = length (to_bytes h ++ parent)) as Ehs
    by (subst hs; rewrite length_app, Hl, Hp; by destruct (has_parent_check _)).
  rewrite (proj2 (Nat.ltb_ge _ 17)) by lia.
  rewrite (proj2 (Nat.ltb_ge 1470 _)) by lia.
  rewrite (proj2 (Nat.ltb_ge _ hs)) by (subst hs; destruct (has_parent_check _); lia).
  rewrite (assoc_L (++) (to_bytes h) parent), (drop_app_length' (to_bytes h ++ parent)) by done.
  assert ((if has_parent_check (hop_count h)
           then slice 17 6 ((to_bytes h ++ parent) ++ payload ++ tag) else replicate 6 0)
          = (if has_parent_check (hop_count h) then parent else replicate 6 0)) as ->.
  { destruct (has_parent_check _); [|done].
    rewrite <-(assoc_L (++)), (slice_app_skip _ _ _ _ 17), slice_app_hit by lia. done. }
  destruct (is_encrypted_packet (packet_type h)); cbn [length] in Htag.
  - rewrite length_app, Htag. rewrite (proj2 (Nat.ltb_ge _ 8)) by lia.
    rewrite Nat.add_sub, take_app_length. repeat f_equal.
    rewrite (assoc_L (++)), drop_app_length'; [done|]. rewrite !length_app. lia.
  - destruct tag; [|done]. by rewrite app_nil_r.
Qed.

(** Whatever [parse_frame_] accepts has this layout. *)
Lemma parse_frame_parts frame f :
  bytes_ok frame -> parse_frame_ frame = Some f ->
  exists parent tag, frame = frame_parts (pf_header f) parent (pf_payload f) tag /\
    parts_ok (pf_header f) parent (pf_payload f) tag /\
    f = parsed (pf_header f) parent (pf_payload f) tag /\
    bytes_ok parent /\ bytes_ok (pf_payload f) /\ bytes_ok tag.
Proof.
  intros Hok. unfold parse_frame_. change (sizeof espnow_frame_header_t) with 17%nat.
  change (Z.to_nat ESPNOW_V2_MAX_PAYLOAD) with 1470%nat.
  change (Z.to_nat ESPNOW_PARENT_MAC_LEN) with 6%nat.
  change (Z.to_nat ESPNOW_SESSION_TAG_LEN) with 8%nat. cbn zeta.
  destruct (Nat.ltb_spec (length frame) 17) as [|H17]; [done|].
  destruct (Nat.ltb_spec 1470 (length frame)) as [|Hmax]; [done|].
  set (h := of_bytes frame : espnow_frame_header_t).
  pose proof (of_bytes_ok (T := espnow_frame_header_t) frame Hok H17 : struct_ok h) as Hh.
  pose proof (to_of_bytes (T := espnow_frame_header_t) frame Hok H17 : to_bytes h = take 17 frame) as Eh.
  clearbody h. destruct (Z.eqb_spec (protocol_version h) ESPNOW_PROTOCOL_VER) as [Hv|]; [|done].
  destruct (is_valid_packet_type (packet_type h)) eqn:Ht; [|done]. cbn [negb].
  set (n := if has_parent_check (hop_count h) then 6%nat else 0%nat).
  destruct (Nat.ltb_spec (length frame) (17 + n)) as [|Hn]; [done|].
  set (rest := drop (17 + n) frame).
  assert (frame = to_bytes h ++ slice 17 n frame ++ rest) as Ef.
  { rewrite Eh. unfold slice, rest. rewrite <-drop_drop, take_drop, take_drop. done. }
  assert (length (slice 17 n frame) = n) as Hpl by (apply length_slice_in; lia).
  assert (length rest + (17 + n) = length frame)%nat as Hr by (unfold rest; rewrite length_drop; lia).
  assert ((if has_parent_check (hop_count h) then slice 17 6 frame else replicate 6 0) =
          (if has_parent_check (hop_count h) then slice 17 n frame else replicate 6 0)) as Epar
    by (subst n; by destruct (has_parent_check _)).
  assert (bytes_ok rest) as Hro by (by apply Forall_drop).
  destruct (is_encrypted_packet (packet_type h)) eqn:He.
  - destruct (Nat.ltb_spec (length rest) 8) as [|H8]; [done|]. intros E. apply (inj Some) in E as <-.
    cbn [pf_header pf_payload]. exists (slice 17 n frame), (drop (length rest - 8) rest).
    assert (drop (length frame - 8) frame = drop (length rest - 8) rest) as Etag.
    { unfold rest at 2. rewrite drop_drop. f_equal. lia. }
    unfold frame_parts, parsed. rewrite He, take_drop. split_and!; auto using slice_ok, Forall_take, Forall_drop.
    + constructor; rewrite ?He, ?length_take, ?length_drop; auto; lia.
    + by rewrite Epar, Etag.
  - intros E. apply (inj Some) in E as <-. cbn [pf_header pf_payload].
    exists (slice 17 n frame), []. unfold frame_parts, parsed. rewrite He, app_nil_r.
    split_and!; auto using slice_ok.
    + constructor; rewrite ?He; cbn [length]; auto; lia.
    + by rewrite Epar.
Qed.

Section frames.
Context `{Hmac}.

(** A frame any receiver with the pre-shared key of [c] parses and accepts. *)
Definition frame_ok (c : CryptoState) (frame : bytes) : Prop :=
  exists f, parse_frame_ frame = Some f /\ struct_ok (pf_header f) /\
    psk_tag (pf_header f) = espnow_crypto_psk_tag c (to_bytes (pf_header f)) (pf_payload f).

Lemma validate_psk_iff p h payload : struct_ok h ->
  validate_psk_ p h payload = true <->
  g_psk_set (crypto p) = true /\ psk_tag h = espnow_crypto_psk_tag (crypto p) (to_bytes h) payload.
Proof.
  intros Hok. assert (length (psk_tag h) = 4%nat /\ bytes_ok (psk_tag h)) as [Hl Hb]
    by (cbn in Hok; naive_solver). unfold validate_psk_.
  rewrite <-(take_ge (psk_tag h) 4) at 2 by lia.
  rewrite <-verify_psk_tag_iff by (done || lia). unfold espnow_crypto_verify_psk_tag.
  destruct (negb (g_psk_set _)); [by split|]. destruct (constant_time_equal _ _ _); by split.
Qed.

(** Tagging a header does not change what the tag covers. *)
Lemma psk_tag_retagged c (h h' : espnow_frame_header_t) payload :
  struct_ok h -> struct_ok h' -> packet_type h = packet_type h' -> leaf_mac h = leaf_mac h' ->
  tx_counter h = tx_counter h' ->
  espnow_crypto_psk_tag c (to_bytes h) payload = espnow_crypto_psk_tag c (to_bytes h') payload.
Proof. intros. unfold espnow_crypto_psk_tag. by rewrite (tag_data_same h h'). Qed.

Lemma header_with_tag (h : espnow_frame_header_t) tag :
  struct_ok h -> length tag = 4%nat -> bytes_ok tag -> struct_ok (h <| psk_tag := tag |>).
Proof. intros Hok Hl Hb. cbn in Hok |- *. naive_solver. Qed.

Lemma frame_parts_ok c h parent payload tag :
  parts_ok h parent payload tag ->
  psk_tag h = espnow_crypto_psk_tag c (to_bytes h) payload ->
  frame_ok c (frame_parts h parent payload tag).
Proof.
  intros Hp Ht. exists (parsed h parent payload tag). split; [by apply parse_parts|].
  cbn. split; [by apply po_header in Hp|done].
Qed.

Lemma tagged_parts_ok c h parent payload tag :
  parts_ok h parent payload tag ->
  frame_ok c (frame_parts (h <| psk_tag := espnow_crypto_psk_tag c (to_bytes h) payload |>)
                parent payload tag).
Proof.
  intros []. destruct (psk_tag_ok c (to_bytes h) payload) as [Hl Hb].
  pose proof (header_with_tag h _ po_header0 Hl Hb) as Hok.
  apply frame_parts_ok; [by constructor|]. by apply psk_tag_retagged.
Qed.

Lemma blank_header_ok p type hop tx :
  length (leaf_mac_ p) = 6%nat -> bytes_ok (leaf_mac_ p) -> 0 <= type < 256 -> 0 <= hop < 256 ->
  0 <= tx < 4294967296 -> struct_ok (blank_header p type hop tx).
Proof.
  intros. cbn. split_and!; try done; try lia.
  by apply byteb_ok.
Qed.

Lemma build_frame_parts p type hop tx payload enc frame :
  build_frame p type hop tx payload enc None = Some frame ->
  length (leaf_mac_ p) = 6%nat -> bytes_ok (leaf_mac_ p) ->
  length (session_key_ p) = 32%nat -> bytes_ok (session_key_ p) ->
  is_valid_packet_type type = true -> enc = is_encrypted_packet type -> 0 <= type < 256 ->
  0 <= hop < 256 -> has_parent_check hop = false -> 0 <= tx < 4294967296 ->
  (17 + length payload + (if enc then 8 else 0) <= 1470)%nat ->
  frame_ok (crypto p) frame /\
  length frame = (17 + length payload + (if enc then 8 else 0))%nat.
Proof.
  intros Hb Hl Ho Kl Ko Ht -> Hty Hhop Hpc Htx Hlen. unfold build_frame in Hb.
  assert (exists out, (if is_encrypted_packet type
            then espnow_crypto_crypt (crypto p) (session_key_ p) tx payload else Some payload)
          = Some out /\ length out = length payload) as (out & Eout & Lout).
  { destruct (is_encrypted_packet type); [|by eexists].
    unfold espnow_crypto_crypt in Hb |- *. destruct (_ || _); [done|].
    eexists. split; [done|]. by apply length_ctr_crypt. }
  rewrite Eout in Hb. cbn [mbind option_bind] in Hb. apply (inj Some) in Hb as <-.
  set (h0 := blank_header p type hop tx).
  pose proof (blank_header_ok p type hop tx Hl Ho Hty Hhop Htx) as Hok.
  set (tag := if is_encrypted_packet type then _ else _).
  assert (length tag = if is_encrypted_packet type then 8 else 0)%nat as Ltag.
  { subst tag. destruct (is_encrypted_packet type); [|done]. apply session_tag_ok. }
  pose proof (tagged_parts_ok (crypto p) h0 [] out tag) as Hf.
  assert (parts_ok h0 [] out tag) as Hparts.
  { constructor; cbn [length]; try done; [by change (hop_count h0) with hop; rewrite Hpc|]. rewrite Lout, Ltag. lia. }
  specialize (Hf Hparts). destruct (psk_tag_ok (crypto p) (to_bytes h0) out) as [Tl Tb].
  split; [exact Hf|]. rewrite !length_app, length_header, Lout, Ltag; [lia|].
  by apply header_with_tag.
Qed.

Lemma announce_frame_ok p entry :
  length (leaf_mac_ p) = 6%nat -> length (pa_leaf_mac entry) = 6%nat ->
  bytes_ok (pa_leaf_mac entry) -> frame_ok (crypto p) (announce_frame p entry).
Proof.
  intros Hl Hpl Hpo. unfold announce_frame.
  set (payload := to_bytes (fill_discover_announce_ p _ _)).
  set (h := Build_espnow_frame_header_t _ _ _ _ _ _).
  assert (length payload = 43%nat) as Lp.
  { subst payload. unfold fill_discover_announce_. cbn. rewrite !length_app, !length_le_bytes.
    cbn. rewrite length_pad_to, Hl. done. }
  assert (parts_ok h [] payload []) as Hparts.
  { constructor; cbn [length]; try done; [|lia]. subst h. cbn. split_and!; try done; try lia.
    by apply byteb_ok. }
  apply (tagged_parts_ok (crypto p)) in Hparts. unfold frame_parts in Hparts.
  by rewrite app_nil_r in Hparts.
Qed.

(** ** Forwarding *)
Lemma forwarded_hops_range hop delta :
  0 <= hop < 256 -> delta = 0 \/ delta = 1 -> 0 <= forwarded_hops hop delta < 256.
Proof.
  intros Hh Hd. assert (byteb (forwarded_hops hop delta) = true) as Hb.
  { apply (byte_cases (fun b => byteb (forwarded_hops b delta))); [|exact Hh].
    destruct Hd as [-> | ->]; by vm_compute. }
  unfold byteb in Hb. zprop. lia.
Qed.

(** Forwarding keeps the direction and the parent bit and adds [delta] to the count. *)
Lemma forwarded_hops_spec hop delta :
  0 <= hop < 256 -> delta = 0 \/ delta = 1 ->
  has_parent_check (forwarded_hops hop delta) = has_parent_check hop /\
  ESPNOW_HOPS_IS_UPSTREAM (forwarded_hops hop delta) = ESPNOW_HOPS_IS_UPSTREAM hop /\
  ESPNOW_HOPS_COUNT (forwarded_hops hop delta) = (ESPNOW_HOPS_COUNT hop + delta) mod 16.
Proof.
  intros Hh Hd.
  set (P := fun b => Bool.eqb (has_parent_check (forwarded_hops b delta)) (has_parent_check b) &&
    Bool.eqb (ESPNOW_HOPS_IS_UPSTREAM (forwarded_hops b delta)) (ESPNOW_HOPS_IS_UPSTREAM b) &&
    (ESPNOW_HOPS_COUNT (forwarded_hops b delta) =? (ESPNOW_HOPS_COUNT b + delta) mod 16)).
  assert (P hop = true) as HP.
  { apply byte_cases; [|exact Hh]. subst P. destruct Hd as [-> | ->]; by vm_compute. }
  subst P. cbn beta in HP. zprop. rewrite !Bool.eqb_true_iff in *. auto.
Qed.

(** The frame a relay sends on is the frame it received, the hop byte replaced
    and the parent address zeroed; the PSK tag it computes is the one that was
    there. *)
Lemma forwarded_is_relayed p data f delta :
  bytes_ok data -> parse_frame_ data = Some f -> validate_psk_ p (pf_header f) (pf_payload f) = true ->
  delta = 0 \/ delta = 1 ->
  exists parent tag, data = frame_parts (pf_header f) parent (pf_payload f) tag /\
    parts_ok (pf_header f) parent (pf_payload f) tag /\
    psk_tag (pf_header f) =
      espnow_crypto_psk_tag (crypto p) (to_bytes (pf_header f)) (pf_payload f) /\
    forwarded_frame p (pf_header f) (pf_payload f) (pf_session_tag f) delta =
    relayed (forwarded_hops (hop_count (pf_header f)) delta) (replicate 6 0)
      (frame_parts (pf_header f) [] (pf_payload f) tag).
Proof.
  intros Hd Hp Hv Hdelta. destruct (parse_frame_parts data f Hd Hp) as (parent & tag & Ed & Hok & Ef & _).
  exists parent, tag. split; [done|]. split; [done|]. pose proof (po_header _ _ _ _ Hok) as Hh.
  apply validate_psk_iff in Hv as [_ Hv]; [|done]. split; [exact Hv|].
  set (h := pf_header f) in *. set (payload := pf_payload f) in *.
  assert (0 <= hop_count h < 256) as Hhop by (cbn in Hh; naive_solver).
  pose proof (forwarded_hops_range _ delta Hhop Hdelta) as Hr.
  unfold frame_parts. cbn [app]. rewrite relayed_header by done.
  set (h' := h <| hop_count := forwarded_hops (hop_count h) delta |>).
  assert (struct_ok h') as Hh' by (unfold h', upd; cbn in Hh |- *; naive_solver).
  unfold forwarded_frame. change (h <| hop_count ::= _ |>) with h'. cbv zeta.
  rewrite <-(psk_tag_retagged (crypto p) h h'), <-Hv by done.
  change (h' <| psk_tag := psk_tag h |>) with h'.
  change (hop_count h') with (forwarded_hops (hop_count h) delta).
  assert (default [] (pf_session_tag f) = tag) as ->; [|done].
  rewrite Ef. unfold parsed. cbn [pf_session_tag]. destruct Hok as [_ _ _ _ Ht _].
  destruct (is_encrypted_packet _); [done|]. by destruct tag.
Qed.

Lemma forwarded_frame_ok p data f delta :
  bytes_ok data -> parse_frame_ data = Some f -> validate_psk_ p (pf_header f) (pf_payload f) = true ->
  delta = 0 \/ delta = 1 ->
  frame_ok (crypto p) (forwarded_frame p (pf_header f) (pf_payload f) (pf_session_tag f) delta).
Proof.
  intros Hd Hp Hv Hdelta.
  destruct (forwarded_is_relayed p data f delta Hd Hp Hv Hdelta) as (parent & tag & _ & Hok & Ht & ->).
  destruct Hok as [Hh Hver Hty Hpar Htag Hlen].
  assert (0 <= hop_count (pf_header f) < 256) as Hhop by (cbn in Hh; naive_solver).
  pose proof (forwarded_hops_range _ delta Hhop Hdelta) as Hr.
  destruct (forwarded_hops_spec _ delta Hhop Hdelta) as (Epc & _ & _).
  unfold frame_parts. cbn [app]. rewrite relayed_header by done.
  set (h' := _ <| hop_count := _ |>).
  assert (struct_ok h') as Hh' by (unfold h', upd; cbn in Hh |- *; naive_solver).
  apply (frame_parts_ok _ h' (if has_parent_check _ then replicate 6 0 else [])).
  - constructor; try done; change (hop_count h') with (forwarded_hops (hop_count (pf_header f)) delta);
      rewrite Epc, Hpar in *; by destruct (has_parent_check (hop_count (pf_header f))).
  - change (psk_tag h') with (psk_tag (pf_header f)). rewrite Ht. by apply psk_tag_retagged.
Qed.
End frames.
