(* ===== verification/RemoteInv.v ===== *)
(** * RemoteInv: the remote's state invariant and the frames it sends

    [remote_ok] is what every entry point of RemoteSession, RemoteProtocol and
    RemoteLoop keeps: no route names this node, the tables and the queue of
    announcements stay within their arrays, relaying needs a finished join and
    a parent, the sizes of fragments belong to one frame version, and the
    embedded receiver keeps its own invariant.  The same proofs show that every
    frame handed to the radio parses and carries a valid PSK tag: they are
    about the relation [safe], whose second half says that the world moved by
    steps of [R], and [R] allows a transmission only for a [frame_ok] frame. *)
From S2P Require Import Prelude Wire IncrementBuffer FileReceiver OTAFlashHandler FileReceiverInv FileContent OtaReceive Crypto Frames Fragments ReceiverWorld RemoteSession RemoteProtocol RemoteLoop RemoteFrames.

(** ** The invariant *)
Definition route_ok (leaf : bytes) (r : RemoteRouteEntry) : Prop :=
  route_leaf_mac r <> leaf /\ route_next_hop_mac r <> leaf.

(** Payload limit and fragment sizes of an ESP-NOW v1 and of a v2 session; the
    first are the values a node starts with, smaller than those a v1 session
    gets from [update_mtu_from_route_]. *)
Definition mtu_ok (p : RemoteProtocol) : Prop :=
  let sizes := (session_max_payload_ p, max_entity_fragment_ p, max_assembly_bytes_ p,
                max_total_fragment_bytes_ p) in
  sizes = (250, 220, 1024, 4096) \/ sizes = (250, 220, 1320, 5280) \/
  sizes = (1470, 1440, 8640, 34560).

(** The entries of the ring buffer from [head] up to [tail], oldest first. *)
Definition ring_items (queue : list PendingAnnounce) (head tail : Z) : list PendingAnnounce :=
  (fun i => nth (Z.to_nat ((head + i) mod 8)) queue no_announce) <$>
  zseq 0 (Z.to_nat ((tail - head) mod 8)).
Definition announces (p : RemoteProtocol) : list PendingAnnounce :=
  ring_items (announce_queue_ p) (announce_queue_head_ p) (announce_queue_tail_ p).

Definition announce_ok (a : PendingAnnounce) : Prop :=
  pa_valid a = true /\ length (pa_leaf_mac a) = 6%nat /\ bytes_ok (pa_leaf_mac a).
Record ring_ok (p : RemoteProtocol) : Prop := {
  ri_length : length (announce_queue_ p) = ANNOUNCE_QUEUE_SIZE;
  ri_head : 0 <= announce_queue_head_ p < 8;
  ri_tail : 0 <= announce_queue_tail_ p < 8;
  ri_items : Forall announce_ok (announces p);
  ri_pending : discover_announce_pending_ p =
               negb (announce_queue_head_ p =? announce_queue_tail_ p)
}.

Section invariant.
Context {W : Type} `{!OtaPlatform W} `{!Digests}.
#[local] Instance remote_handler_laws : HandlerLaws OTAFlashHandler (RemoteProtocol * W) :=
  ota_handler_laws md5.

Record remote_ok (c : CryptoState) (p : RemoteProtocol) : Prop := {
  ro_crypto : crypto p = c;
  ro_leaf : length (leaf_mac_ p) = 6%nat /\ bytes_ok (leaf_mac_ p);
  ro_key : length (session_key_ p) = 32%nat /\ bytes_ok (session_key_ p);
  ro_nonce : length (remote_nonce_ p) = 16%nat;
  ro_tx : 0 <= tx_counter_ p < 4294967296;
  ro_mtu : mtu_ok p;
  ro_routes : Forall (route_ok (leaf_mac_ p)) (routes_ p);
  ro_route_leaves : NoDup (route_leaf_mac <$> routes_ p);
  ro_requests : length (outstanding_requests_ p) = 8%nat;
  ro_request_count : 0 <= outstanding_count_ p <= 8;
  ro_ring : ring_ok p;
  ro_relay : can_relay_ p = true ->
    relay_enabled_ p = true /\ normal_ p = true /\ parent_valid_ p = true /\
    hops_to_bridge_ p <> 255;
  ro_normal : normal_ p = true -> joined_ p = true;
  ro_pending : NoDup (pd_leaf_mac <$> pending_discovers_ p);
  ro_commands : (size (assemblies (pending_commands_ p)) <= 8)%nat;
  ro_entities : er_schema <$> entity_records_ p = entities_ p;
  ro_receiver : recv_ok (file_receiver_ p)
}.
End invariant.

(** ** The world *)

(** [R] holds across every effect of the platform; a frame may be sent when any
    receiver with the PSK of [c] accepts it. *)
Class RemoteWorld {W} `{!RemoteEnv W} `{!OtaPlatform W} `{!Hmac} (c : CryptoState)
    (R : relation W) := {
  rw_delay ms w : R w (env_delay ms w);
  rw_random w : R w (env_esp_random w).2;
  rw_nonce n w : R w (env_fill_random_bytes n w).2 /\ length (env_fill_random_bytes n w).1 = n;
  rw_send mac frame w : frame_ok c frame -> R w (env_send_fn mac frame w).2;
  rw_command i flags value w : R w (env_command_fn i flags value w);
  rw_set_channel channel w : R w (esp_wifi_set_channel channel w).2;
  rw_wifi_start w : R w (esp_wifi_start w).2;
  rw_esp_restart w : R w (env_esp_restart w);
  rw_safe_reboot w : R w (env_safe_reboot w);
  rw_ota_begin size w : R w (esp_ota_begin size w).2;
  rw_ota_write handle data w : R w (esp_ota_write handle data w).2;
  rw_ota_end handle w : R w (esp_ota_end handle w).2;
  rw_ota_boot w : R w (esp_ota_set_boot_partition w).2;
  rw_ota_abort handle w : R w (esp_ota_abort handle w)
}.

Definition safe {W} `{!OtaPlatform W} `{!Digests} (c : CryptoState) (R : relation W)
    (s s' : RemoteProtocol * W) : Prop :=
  remote_ok (W := W) c s.1 -> remote_ok (W := W) c s'.1 /\ R s.2 s'.2.
#[export] Instance safe_preorder {W} `{!OtaPlatform W} `{!Digests} c (R : relation W) `{!PreOrder R} :
  PreOrder (safe c R).
Proof.
  split; unfold safe; [intros s Hs; split; [done|reflexivity]|].
  intros s1 s2 s3 H12 H23 H1. destruct (H12 H1) as [H2 R12]. destruct (H23 H2) as [H3 R23].
  split; [done|]. by etrans.
Qed.

(** Updates that touch none of the constrained fields, or set them well. *)
Lemma ring_ok_same p p' :
  ring_ok p ->
  announce_queue_ p' = announce_queue_ p -> announce_queue_head_ p' = announce_queue_head_ p ->
  announce_queue_tail_ p' = announce_queue_tail_ p ->
  discover_announce_pending_ p' = discover_announce_pending_ p -> ring_ok p'.
Proof.
  intros [] E1 E2 E3 E4. constructor; unfold announces in *; rewrite ?E1, ?E2, ?E3, ?E4; done.
Qed.
Lemma mtu_ok_same p p' :
  mtu_ok p ->
  (session_max_payload_ p', max_entity_fragment_ p', max_assembly_bytes_ p',
   max_total_fragment_bytes_ p') =
  (session_max_payload_ p, max_entity_fragment_ p, max_assembly_bytes_ p,
   max_total_fragment_bytes_ p) -> mtu_ok p'.
Proof. intros Hp E. unfold mtu_ok in *. by rewrite E. Qed.

Ltac remote_update :=
  match goal with
  | |- remote_ok _ _ => constructor
  end;
  first [ assumption
        | eapply ring_ok_same; [eassumption|reflexivity..]
        | eapply mtu_ok_same; [eassumption|reflexivity]
        | cbn; first [ assumption | done | tauto | lia | apply u32_range
                     | intros ?; zprop; split_and!; done ]
        | idtac ].

Ltac recv_config Hr :=
  destruct Hr as [[] Hs]; split; [by constructor|]; cbn in *; destruct (state_ _); try done;
  destruct Hs as (?&[]&?); split_and!; try done; by constructor.

Create HintDb remote_safe discriminated.
#[export] Hint Constants Opaque : remote_safe.

(** *** The receiver's configuration *)
Section receiver_config.
Context {W : Type} `{!OtaPlatform W} `{!Digests}.
#[local] Existing Instance remote_handler_laws.
Abbreviation recv_ok := (recv_ok (W := RemoteProtocol * W)).

Lemma recv_ok_ota_enabled r b : recv_ok r -> recv_ok (r <| ota_enabled_ := b |>).
Proof. intros Hr. recv_config Hr. Qed.
Lemma recv_ok_send_ack r b : recv_ok r -> recv_ok (r <| send_ack_fn_set := b |>).
Proof. intros Hr. recv_config Hr. Qed.
Lemma recv_ok_local_mac r m : recv_ok r -> recv_ok (r <| local_mac_ := m |>).
Proof. intros Hr. recv_config Hr. Qed.

(** A change of the frame version changes the limit of the handler as well. *)
Lemma recv_ok_max_chunk r m : 0 <= m < 65536 -> recv_ok r -> recv_ok (set_max_chunk_size m r).
Proof.
  intros Hm [[H1 H2 H3 H4] Hs]. unfold set_max_chunk_size. split.
  - constructor; cbn.
    + intros p Hp. apply lookup_alter_is_Some. by apply H1.
    + intros a p Hp. apply lookup_alter_is_Some. by eapply H2.
    + intros p h Hp. apply lookup_alter_Some in Hp as [(<- & h0 & Hh0 & ->)|[_ Hp]]; [|by eapply H3].
      destruct (H3 _ _ Hh0). by constructor.
    + intros p h Hp Ha. apply lookup_alter_Some in Hp as [(<- & h0 & Hh0 & ->)|[_ Hp]]; [|by eapply H4].
      by apply (H4 _ _ Hh0).
  - cbn in *. assert (forall b, active_busy b r -> active_busy b (r <| max_chunk_size_ := m |>
      <| handler_heap ::= alter (fun h => h <| hmax_chunk_size_ := m |>) 0 |>)) as Hb.
    { intros b (p & h & Ha & Hp & Hr & Han). exists p. destruct (decide (p = 0)) as [->|Hne].
      - exists (h <| hmax_chunk_size_ := m |>). cbn. rewrite lookup_alter_eq, Hp. auto.
      - exists h. cbn. by rewrite lookup_alter_ne by done. }
    destruct (state_ r); try done; try (destruct Hs as (?&[]&?); split_and!; auto; by constructor).
    destruct Hs; auto.
Qed.
End receiver_config.

(** ** Sending *)
Lemma hops_make_ok dir count :
  0 <= ESPNOW_HOPS_MAKE dir count < 256 /\ has_parent_check (ESPNOW_HOPS_MAKE dir count) = false.
Proof.
  split; [apply u8_range|]. unfold has_parent_check, ESPNOW_HOPS_MAKE, u8.
  change ESPNOW_HOPS_PARENT_CHECK_BIT with (Z.shiftl 1 6). rewrite land_bit_zero by lia.
  rewrite Z.mod_pow2_bits_low, Z.lor_spec, !Z.land_spec by lia.
  change (Z.testbit ESPNOW_HOPS_DIR_BIT 6) with false.
  change (Z.testbit ESPNOW_HOPS_COUNT_MASK 6) with false. by rewrite !andb_false_r.
Qed.

Lemma valid_code type : is_valid_packet_type (packet_type_code type) = true.
Proof. by destruct type. Qed.
Lemma code_range type : 0 <= packet_type_code type < 256.
Proof. by destruct type. Qed.

Lemma max_plaintext_bound p :
  mtu_ok p -> espnow_max_plaintext (session_max_payload_ p) <= 1445.
Proof. intros [E|[E|E]]; injection E as E _ _ _; rewrite E; by vm_compute. Qed.

Lemma length_join (p : RemoteProtocol) `{!Digests} : length (remote_nonce_ p) = 16%nat ->
  length (to_bytes (join_payload p)) = 51%nat.
Proof.
  intros Hn. unfold join_payload. cbn. rewrite !length_app, !length_le_bytes. cbn.
  unfold compute_schema_hash_. rewrite Hn, sha256_length. done.
Qed.

Section sends.
Context {W : Type} `{!RemoteEnv W} `{!OtaPlatform W} `{!Hmac} `{!Digests}.
Context (c : CryptoState) (R : relation W) `{!PreOrder R} `{!RemoteWorld c R}.
Abbreviation St := (RemoteProtocol * W)%type.
Abbreviation remote_ok := (remote_ok (W := W) c).
Abbreviation safely m := (keeps (safe c R) m).

Lemma safe_remote_update f : (forall p, remote_ok p -> remote_ok (f p)) -> safely (update f).
Proof. intros Hf [p w] Hp. split; [by apply Hf|]. cbn. reflexivity. Qed.
Lemma safe_remote_env f : (forall w, R w (f w)) -> safely (env f).
Proof. intros Hf [p w] Hp. split; [done|apply Hf]. Qed.
Lemma safe_remote_ask {A} (f : W -> A * W) : (forall w, R w (f w).2) -> safely (ask f).
Proof. intros Hf [p w] Hp. specialize (Hf w). unfold ask. cbn. by destruct (f w). Qed.
Lemma safe_remote_this : safely this.
Proof. intros s Hs. split; [done|reflexivity]. Qed.
Lemma safe_remote_millis : safely millis.
Proof. intros s Hs. split; [done|reflexivity]. Qed.
Lemma safe_gets {A} (f : St -> A) : safely (gets f).
Proof. intros s Hs. split; [done|reflexivity]. Qed.
Lemma safe_remote_this_bind {A} (k : RemoteProtocol -> M St A) :
  (forall p, remote_ok p -> safely (k p)) -> safely (p ← this; k p).
Proof. intros Hk [p w] Hp. by apply (Hk p). Qed.
Lemma safe_next_tx_bind {A} (k : Z -> M St A) :
  (forall tx, 0 <= tx < 4294967296 -> safely (k tx)) -> safely (tx ← next_tx_counter; k tx).
Proof.
  intros Hk [p w] Hp. unfold next_tx_counter, mbind, M_bind, this, gets, update, modify; cbn [fst snd].
  assert (remote_ok (p <| tx_counter_ := u32 (tx_counter_ p + 1) |>)) as Hp'
    by (destruct Hp; remote_update).
  apply (Hk _ (ro_tx _ _ Hp) (_, w) Hp').
Qed.
End sends.

#[export] Hint Resolve safe_remote_this safe_remote_millis safe_gets : remote_safe.
(** Effects of the platform. *)
Ltac world_step :=
  first [ apply rw_delay | apply rw_random | apply rw_command | apply rw_set_channel
        | apply rw_wifi_start | apply rw_esp_restart | apply rw_safe_reboot | apply rw_nonce ].
#[export] Hint Extern 1 (keeps (safe _ _) (update _)) =>
  apply safe_remote_update; [exact _|intros ? []; remote_update; fail] : remote_safe.
#[export] Hint Extern 1 (keeps (safe _ _) (env _)) =>
  apply safe_remote_env; intros; world_step : remote_safe.
#[export] Hint Extern 1 (keeps (safe _ _) (ask _)) =>
  apply safe_remote_ask; intros; world_step : remote_safe.

Ltac stay_step :=
  lazymatch goal with
  | |- keeps (safe _ _) (mbind _ this) => apply safe_remote_this_bind; intros ? ?
  | |- keeps (safe _ _) (mbind _ next_tx_counter) => apply safe_next_tx_bind; intros ? ?
  | |- _ => keeps_step ltac:(solve [eauto with remote_safe nocore])
  end.
Ltac stay_safe := repeat stay_step.

Section safe_sends.
Context {W : Type} `{!RemoteEnv W} `{!OtaPlatform W} `{!Hmac} `{!Digests}.
Context (c : CryptoState) (R : relation W) `{!PreOrder R} `{!RemoteWorld c R}.
Abbreviation St := (RemoteProtocol * W)%type.
Abbreviation remote_ok := (remote_ok (W := W) c).
Abbreviation safely m := (keeps (safe c R) m).

Lemma safe_send_frame mac type hop tx payload enc :
  0 <= hop < 256 -> has_parent_check hop = false -> 0 <= tx < 4294967296 ->
  enc = is_encrypted_packet (packet_type_code type) ->
  (enc = false -> (length payload <= 1453)%nat) ->
  safely (send_frame_ mac type hop tx payload enc None).
Proof.
  intros Hhop Hpc Htx He Hlen. unfold send_frame_. apply safe_remote_this_bind. intros p Hp.
  stay_step; [stay_step|]. stay_step; [stay_step|].
  destruct (build_frame p (packet_type_code type) hop tx payload enc None) as [frame|] eqn:Hb;
    [|stay_safe].
  assert (frame_ok c frame) as Hok.
  { destruct (ro_leaf c p Hp), (ro_key c p Hp). rewrite <-(ro_crypto c p Hp).
    eapply build_frame_parts; try done; [apply valid_code|apply code_range|].
    destruct enc; [|specialize (Hlen eq_refl); lia]. cbn [andb] in *. zprop.
    pose proof (max_plaintext_bound p (ro_mtu c p Hp)). lia. }
  stay_step; [stay_safe|]. stay_step; [stay_safe|]. stay_step.
  { apply safe_remote_ask. intros w. by apply rw_send. }
  stay_step; [|stay_safe]. apply safe_remote_update; [done|]. intros p' []. destruct a1; remote_update.
Qed.
#[local] Hint Extern 1 (keeps (safe _ _) (send_frame_ _ _ _ _ _ _ None)) =>
  apply safe_send_frame; [apply hops_make_ok|apply hops_make_ok|done|done|done] : remote_safe.

Lemma update_outstanding_ok type tx h payload p :
  remote_ok p -> remote_ok (update_outstanding_request_ type tx h payload p).
Proof.
  intros Hp. unfold update_outstanding_request_. destruct (_ || _); [done|]. cbv zeta.
  destruct Hp. rewrite ro_requests0.
  destruct (Z.ltb_spec (outstanding_count_ p) (Z.of_nat 8)); remote_update.
  - change (length (<[Z.to_nat (outstanding_count_ p) := outstanding_request p type tx h payload]>
      (outstanding_requests_ p)) = 8%nat). by rewrite length_insert.
  - change (0 <= u8 (outstanding_count_ p + 1) <= 8). rewrite u8_small; lia.
  - change (length (drop 1 (outstanding_requests_ p) ++ [outstanding_request p type tx h payload]) = 8%nat).
    rewrite length_app, length_drop, ro_requests0. done.
Qed.

Lemma safe_record i f : (forall r, er_schema (f r) = er_schema r) -> safely (with_record i f).
Proof.
  intros Hf. apply safe_remote_update; [done|]. intros p []. remote_update.
  change (er_schema <$> alter f (Z.to_nat i) (entity_records_ p) = entities_ p).
  rewrite <-ro_entities0. clear -Hf. generalize (Z.to_nat i). generalize (entity_records_ p).
  intros l. induction l as [|r l IH]; intros [|n]; cbn; rewrite ?Hf, ?IH; done.
Qed.
#[local] Hint Extern 1 (keeps (safe _ _) (with_record _ _)) =>
  apply safe_record; intros; reflexivity : remote_safe.

Lemma safe_send_noted type tx plaintext :
  is_encrypted_packet (packet_type_code type) = true -> 0 <= tx < 4294967296 ->
  safely (send_noted type tx plaintext).
Proof.
  intros He Htx. unfold send_noted. stay_safe.
  apply safe_remote_update; [done|]. intros p' Hp'. by apply update_outstanding_ok.
Qed.
#[local] Hint Resolve safe_send_noted : remote_safe.
#[local] Hint Extern 0 (is_encrypted_packet _ = true) => reflexivity : remote_safe.

Lemma safe_send_command_ack i r tx : safely (send_command_ack_ i r tx).
Proof. unfold send_command_ack_. stay_safe. Qed.
Lemma safe_send_ack payload tx : safely (send_ack_ payload tx).
Proof. unfold send_ack_. stay_safe. Qed.
#[local] Hint Resolve safe_send_ack : remote_safe.
Lemma safe_send_config_ack cmd r tx : safely (send_config_ack_ cmd r tx).
Proof. unfold send_config_ack_. stay_safe. Qed.
Lemma safe_send_heartbeat : safely send_heartbeat_.
Proof.
  unfold send_heartbeat_, get_uptime_s. stay_safe.
  apply safe_remote_update; [done|]. intros p' []. match goal with a : bool |- _ => destruct a end; remote_update.
Qed.
Lemma safe_send_join : safely send_join_.
Proof.
  unfold send_join_. stay_safe.
  apply safe_send_frame; [apply hops_make_ok..|done|done|].
  intros _. rewrite length_join; [lia|]. by eapply ro_nonce.
Qed.
Lemma safe_remote_send_deauth mac h payload : safely (send_deauth_ mac h payload).
Proof.
  unfold send_deauth_. stay_safe. apply safe_send_frame; [apply hops_make_ok..|done|done|].
  intros _. cbn. rewrite !length_app, !length_le_bytes, (proj1 (psk_tag_ok _ _ _)). lia.
Qed.

Lemma safe_state_loop n k i payload frag chunks base :
  safely (send_state_loop n k i payload frag chunks base).
Proof. revert k base. induction n as [|n IH]; intros k base; cbn [send_state_loop]; stay_safe. Qed.
#[local] Hint Resolve safe_state_loop : remote_safe.
Lemma safe_send_state i value b : safely (send_state_ i value b).
Proof. unfold send_state_. stay_safe. Qed.
Lemma safe_send_identity : safely send_identity_descriptor_.
Proof. unfold send_identity_descriptor_. stay_safe. Qed.
Lemma safe_schema_loop n k i push frag chunks : safely (send_schema_loop n k i push frag chunks).
Proof. revert k. induction n as [|n IH]; intros k; cbn [send_schema_loop]; stay_safe. Qed.
#[local] Hint Resolve safe_schema_loop : remote_safe.
Lemma safe_send_schema i : safely (send_schema_push_ i).
Proof. unfold send_schema_push_. stay_safe. Qed.
End safe_sends.
#[export] Hint Extern 1 (keeps (safe _ _) (send_frame_ _ _ _ _ _ _ None)) =>
  apply safe_send_frame; [exact _|exact _|apply hops_make_ok|apply hops_make_ok|done|done|done] : remote_safe.
#[export] Hint Extern 1 (keeps (safe _ _) (with_record _ _)) =>
  apply safe_record; [exact _|intros; reflexivity] : remote_safe.
#[export] Hint Resolve safe_send_command_ack safe_send_ack safe_send_config_ack
  safe_send_heartbeat safe_send_join safe_remote_send_deauth safe_send_state safe_send_identity
  safe_send_schema : remote_safe.

(** ** The queue of announcements *)
Ltac eight x :=
  let H := fresh in
  assert (x = 0 \/ x = 1 \/ x = 2 \/ x = 3 \/ x = 4 \/ x = 5 \/ x = 6 \/ x = 7) as H by lia;
  destruct H as [-> | [-> | [-> | [-> | [-> | [-> | [-> | ->]]]]]]].
Ltac eight_slots q :=
  do 8 (destruct q as [|? q]; [done|]); destruct q; [|done].

Lemma ring_push q head tail e :
  length q = 8%nat -> 0 <= head < 8 -> 0 <= tail < 8 -> (tail + 1) mod 8 <> head ->
  ring_items (<[Z.to_nat tail := e]> q) head ((tail + 1) mod 8) = ring_items q head tail ++ [e].
Proof.
  intros Hq Hh Ht Hne. eight_slots q. eight head; eight tail; first [reflexivity|by destruct Hne].
Qed.

Lemma ring_pop q head tail :
  length q = 8%nat -> 0 <= head < 8 -> 0 <= tail < 8 -> head <> tail ->
  ring_items q head tail = nth (Z.to_nat head) q no_announce :: ring_items q ((head + 1) mod 8) tail.
Proof. intros Hq Hh Ht Hne. eight_slots q. eight head; eight tail; first [reflexivity|done]. Qed.

Lemma ring_pop_slot q head tail e :
  length q = 8%nat -> 0 <= head < 8 -> 0 <= tail < 8 -> head <> tail ->
  ring_items (<[Z.to_nat head := e]> q) ((head + 1) mod 8) tail =
  ring_items q ((head + 1) mod 8) tail.
Proof. intros Hq Hh Ht Hne. eight_slots q. eight head; eight tail; first [reflexivity|done]. Qed.

Lemma ring_empty q head tail :
  0 <= head < 8 -> 0 <= tail < 8 -> ring_items q head tail = [] <-> head = tail.
Proof.
  intros Hh Ht. split; [|intros ->; unfold ring_items; by rewrite Z.sub_diag].
  eight head; eight tail; done.
Qed.

Lemma ring_length q head tail :
  0 <= head < 8 -> 0 <= tail < 8 -> Z.of_nat (length (ring_items q head tail)) = (tail - head) mod 8.
Proof.
  intros Hh Ht. unfold ring_items. rewrite length_fmap, length_zseq, Z2Nat.id; [done|].
  apply Z.mod_pos_bound. lia.
Qed.

Lemma find_route_none leaf p :
  find_route_ leaf p = None -> leaf ∉ (route_leaf_mac <$> routes_ p).
Proof.
  unfold find_route_. intros Hf Hin. apply list_elem_of_fmap in Hin as (r & -> & Hr).
  apply list_elem_of_In in Hr. pose proof (find_none _ _ Hf r Hr) as Hn. cbn in Hn.
  by rewrite bytes_eqb_refl in Hn.
Qed.

Lemma update_route_leaves leaf f l :
  (forall r, route_leaf_mac (f r) = route_leaf_mac r) ->
  route_leaf_mac <$> update_route leaf f l = route_leaf_mac <$> l.
Proof.
  intros Hf. induction l as [|r l IH]; [done|]. cbn. destruct (bytes_eqb _ _); cbn; [by rewrite Hf|].
  by rewrite IH.
Qed.

Lemma update_route_Forall (P : RemoteRouteEntry -> Prop) leaf f l :
  Forall P l -> (forall r, P r -> P (f r)) -> Forall P (update_route leaf f l).
Proof.
  intros Hl Hf. induction Hl as [|r l Hr Hl IH]; [constructor|]. cbn.
  destruct (bytes_eqb _ _); constructor; auto.
Qed.

(** The two operations on the queue. *)
Definition push_announce (entry : PendingAnnounce) (next_tail : Z) (p : RemoteProtocol)
    : RemoteProtocol :=
  p <| announce_queue_ ::= <[Z.to_nat (announce_queue_tail_ p) := entry]> |>
    <| announce_queue_tail_ := next_tail |> <| discover_announce_pending_ := true |>.
Definition pop_announce (entry : PendingAnnounce) (next_head : Z) (p : RemoteProtocol)
    : RemoteProtocol :=
  p <| announce_queue_ ::= <[Z.to_nat (announce_queue_head_ p) := entry]> |>
    <| announce_queue_head_ := next_head |>
    <| discover_announce_pending_ ::= fun b =>
         if next_head =? announce_queue_tail_ p then false else b |>.

Lemma push_announce_ok p e :
  let next := (announce_queue_tail_ p + 1) mod 8 in
  ring_ok p -> next <> announce_queue_head_ p -> announce_ok e ->
  ring_ok (push_announce e next p) /\ announces (push_announce e next p) = announces p ++ [e].
Proof.
  intros next [H1 H2 H3 H4 H5] Hroom He.
  assert (announces (push_announce e next p) = announces p ++ [e]) as Ha by (by apply ring_push).
  split; [|exact Ha]. constructor; [|exact H2| | |].
  - change (length (<[Z.to_nat (announce_queue_tail_ p) := e]> (announce_queue_ p)) = 8%nat).
    by rewrite length_insert.
  - apply Z.mod_pos_bound. done.
  - rewrite Ha. apply Forall_app. split; [done|]. by constructor.
  - change (true = negb (announce_queue_head_ p =? next)).
    by rewrite (proj2 (Z.eqb_neq _ _)) by (intros E; by destruct Hroom).
Qed.

Lemma pop_announce_ok p e :
  let next := (announce_queue_head_ p + 1) mod 8 in
  ring_ok p -> announce_queue_head_ p <> announce_queue_tail_ p ->
  ring_ok (pop_announce e next p) /\
  announces p = nth (Z.to_nat (announce_queue_head_ p)) (announce_queue_ p) no_announce
                :: announces (pop_announce e next p).
Proof.
  intros next [H1 H2 H3 H4 H5] Hne.
  assert (announces (pop_announce e next p) =
          ring_items (announce_queue_ p) next (announce_queue_tail_ p)) as Ha by (by apply ring_pop_slot).
  assert (announces p = nth (Z.to_nat (announce_queue_head_ p)) (announce_queue_ p) no_announce
                :: announces (pop_announce e next p)) as Hp by (rewrite Ha; by apply ring_pop).
  split; [|exact Hp]. constructor; [| |exact H3| |].
  - change (length (<[Z.to_nat (announce_queue_head_ p) := e]> (announce_queue_ p)) = 8%nat).
    by rewrite length_insert.
  - apply Z.mod_pos_bound. done.
  - rewrite Hp in H4. by apply Forall_cons in H4 as [_ H4].
  - change ((if next =? announce_queue_tail_ p then false else discover_announce_pending_ p) =
            negb (next =? announce_queue_tail_ p)).
    destruct (Z.eqb_spec next (announce_queue_tail_ p)); [done|]. rewrite H5.
    by rewrite (proj2 (Z.eqb_neq _ _)).
Qed.

Lemma take_assembly_size r entity n :
  (size (assemblies (take_assembly r entity n)) <= size (assemblies r))%nat.
Proof.
  unfold take_assembly, upd; cbn. destruct (assemblies r !! entity) eqn:E.
  - rewrite map_size_delete_Some by (by eexists). lia.
  - by rewrite map_size_delete_None.
Qed.

Lemma expire_size now release r :
  (size (assemblies (expire_assemblies now release r)) <= size (assemblies r))%nat.
Proof.
  unfold expire_assemblies. generalize (filter (fun '(_, a) => assembly_expired now a = true)
    (map_to_list (assemblies r))). intros l. revert r.
  induction l as [|[e a] l IH]; intros r; [done|]. cbn.
  etrans; [apply IH|apply take_assembly_size].
Qed.

Lemma store_command_size r v b now f m t n :
  (size (assemblies r) <= n)%nat -> is_Some (assemblies r !! view_entity_index v) ->
  (size (assemblies (store_command r v b now f m t).2) <= n)%nat.
Proof.
  intros Hn Hs. unfold store_command. destruct (_ && _); [done|].
  destruct (store_fragment_ _ _ _ _ _ _) as [ok a]. cbn. by rewrite map_size_insert_Some.
Qed.

(** At most eight commands are being assembled. *)
Lemma admit_command_size r v b now f m t :
  (size (assemblies r) <= 8)%nat -> (size (assemblies (admit_command r v b now f m t).2) <= 8)%nat.
Proof.
  intros Hs. unfold admit_command. destruct (assemblies r !! view_entity_index v) as [a|] eqn:E.
  - cbv zeta. destruct (_ && _); (apply store_command_size; [|cbn; rewrite ?lookup_insert_eq, ?E; by eexists]).
    + cbn. rewrite map_size_insert_Some; [done|by eexists].
    + done.
  - destruct (Nat.leb_spec (Z.to_nat ESPNOW_MAX_PENDING_FRAGMENT_ASSEMBLIES) (size (assemblies r)))
      as [|Hlt]; [done|].
    change (Z.to_nat ESPNOW_MAX_PENDING_FRAGMENT_ASSEMBLIES) with 8%nat in Hlt.
    apply store_command_size; cbn.
    + rewrite map_size_insert_None by done. lia.
    + rewrite lookup_insert_eq. by eexists.
Qed.

(** ** Routes, queue and set-up *)
Section safe_tables.
Context {W : Type} `{!RemoteEnv W} `{!OtaPlatform W} `{!Hmac} `{!Digests}.
Context (c : CryptoState) (R : relation W) `{!PreOrder R} `{!RemoteWorld c R}.
Abbreviation St := (RemoteProtocol * W)%type.
Abbreviation remote_ok := (remote_ok (W := W) c).
Abbreviation safely m := (keeps (safe c R) m).

(** Execution from a known state. *)
Definition safe_at {A} (p : RemoteProtocol) (m : M St A) : Prop :=
  forall w, safe c R (p, w) (m (p, w)).2.

Lemma safely_at {A} (m : M St A) : (forall p, remote_ok p -> safe_at p m) -> safely m.
Proof. intros Hm [p w] Hp. by apply Hm. Qed.
Lemma at_safely {A} p (m : M St A) : safely m -> safe_at p m.
Proof. intros Hm w. apply Hm. Qed.
Lemma at_this {A} p (k : RemoteProtocol -> M St A) : safe_at p (k p) -> safe_at p (p ← this; k p).
Proof. intros Hk w. apply Hk. Qed.
Lemma at_gets {A B} p (f : St -> B) (k : B -> M St A) :
  (forall b, safe_at p (k b)) -> safe_at p (b ← gets f; k b).
Proof. intros Hk w. apply Hk. Qed.
Lemma at_ask {A B} p (f : W -> B * W) (k : B -> M St A) :
  (forall w, R w (f w).2) -> (forall b, safe_at p (k b)) -> safe_at p (b ← ask f; k b).
Proof.
  intros Hf Hk w Hp. specialize (Hf w). unfold mbind, M_bind, ask. cbn [fst snd].
  destruct (f w) as [b w1]. destruct (Hk b w1 Hp) as [H1 H2]. split; [done|]. cbn in *. by etrans.
Qed.
Lemma at_update {A} p f (k : unit -> M St A) :
  (remote_ok p -> remote_ok (f p)) -> safe_at (f p) (k tt) -> safe_at p (u ← update f; k u).
Proof. intros Hf Hk w Hp. apply Hk. by apply Hf. Qed.
Lemma at_update_last p f : (remote_ok p -> remote_ok (f p)) -> safe_at p (update f).
Proof. intros Hf w Hp. split; [by apply Hf|]. cbn. reflexivity. Qed.
(** A computation that only moves the world. *)
Definition still {A} (p : RemoteProtocol) (m : M St A) : Prop :=
  forall w, (m (p, w)).2.1 = p /\ R w (m (p, w)).2.2.
Lemma at_still {A B} p (m : M St B) (k : B -> M St A) :
  still p m -> (forall b, safe_at p (k b)) -> safe_at p (b ← m; k b).
Proof.
  intros Hm Hk w Hp. destruct (Hm w) as [E Hr]. unfold mbind, M_bind.
  destruct (m (p, w)) as [b [p' w']]. cbn [fst snd] in *. subst p'.
  destruct (Hk b w' Hp) as [H1 H2]. split; [done|]. cbn in *. by etrans.
Qed.
Lemma at_ret {A} p (a : A) : safe_at p (mret a).
Proof. intros w Hp. split; [done|]. cbn. reflexivity. Qed.
Lemma at_if {A} p (b : bool) (m1 m2 : M St A) :
  (b = true -> safe_at p m1) -> (b = false -> safe_at p m2) -> safe_at p (if b then m1 else m2).
Proof. destruct b; auto. Qed.
Lemma at_when p (b : bool) (m : M St unit) : (b = true -> safe_at p m) -> safe_at p (when b m).
Proof. destruct b; [auto|intros _; apply at_ret]. Qed.
Lemma at_then {A B} p (m : M St B) (k : B -> M St A) :
  safe_at p m -> (forall b, safely (k b)) -> safe_at p (b ← m; k b).
Proof.
  intros Hm Hk w. unfold mbind, M_bind. specialize (Hm w). destruct (m (p, w)) as [b s'].
  etrans; [exact Hm|apply Hk].
Qed.

Lemma safe_announce_with_jitter sender leaf role hops :
  length leaf = 6%nat -> bytes_ok leaf ->
  safely (send_discover_announce_with_jitter_ sender leaf role hops).
Proof.
  intros Hl Ho. apply safely_at. intros p Hp. unfold send_discover_announce_with_jitter_.
  apply at_this. destruct (_ || _); [apply at_ret|]. cbv zeta.
  destruct (Z.eqb_spec ((announce_queue_tail_ p + 1) mod Z.of_nat ANNOUNCE_QUEUE_SIZE)
              (announce_queue_head_ p)) as [|Hroom]; [apply at_ret|].
  apply at_ask; [apply rw_random|]. intros r. apply at_gets. intros now. cbv zeta.
  apply at_update; [|apply at_ret]. intros []. remote_update.
  apply (push_announce_ok p); [done..|]. split; [done|]. cbn.
  rewrite take_ge by lia. done.
Qed.

Lemma safe_flush : safely flush_pending_discover_announce_.
Proof.
  apply safely_at. intros p Hp. unfold flush_pending_discover_announce_.
  apply at_this. destruct (Z.eqb_spec (announce_queue_head_ p) (announce_queue_tail_ p)) as [|Hne];
    [apply at_ret|]. cbv zeta. set (entry := nth _ _ _).
  assert (announce_ok entry) as (_ & Hl & Ho).
  { destruct (ro_ring c p Hp). destruct (pop_announce_ok p no_announce) as [_ E]; [done..|].
    rewrite E in ri_items0. by apply Forall_cons in ri_items0 as [? _]. }
  apply at_gets. intros now. destruct (_ || _); [apply at_ret|]. clearbody entry.
  apply at_still; [|intros _; apply at_update_last].
  { intros w. unfold when. destruct (send_fn_set p); [|split; [done|]; cbn; reflexivity].
    unfold mbind, M_bind, ask. cbn [fst snd].
    pose proof (rw_send (c := c) (R := R) (pa_sender_mac entry) (announce_frame p entry) w) as Hs.
    destruct (env_send_fn _ _ w) as [ok w']. split; [done|]. cbn in *. apply Hs.
    rewrite <-(ro_crypto c p Hp). apply announce_frame_ok; [|done..]. apply (ro_leaf c p Hp). }
  intros []. remote_update.
  apply (pop_announce_ok p); done.
Qed.

Lemma refresh_route_ok p leaf next_hop now :
  remote_ok p -> leaf <> leaf_mac_ p -> next_hop <> leaf_mac_ p ->
  remote_ok (p <| routes_ ::= fun l =>
    let refresh r := r <| route_next_hop_mac := next_hop |>
      <| route_expiry_ms := u32 (now + u32 (route_ttl_seconds_ p * 1000)) |> in
    match find_route_ leaf p with
    | Some _ => update_route leaf refresh l
    | None => l ++ [refresh {| route_leaf_mac := leaf; route_next_hop_mac := replicate 6 0;
                               route_expiry_ms := 0; route_has_logged := false |}]
    end |>).
Proof.
  intros [] Hl Hn. destruct (find_route_ leaf p) as [r0|] eqn:Ef; remote_update; cbn.
  - apply update_route_Forall; [done|]. intros r [Hr _]. by split.
  - by rewrite update_route_leaves.
  - apply Forall_app. split; [done|]. by repeat constructor.
  - rewrite fmap_app. apply NoDup_app. split; [done|]. split; [|apply NoDup_singleton].
    intros x Hx ->%list_elem_of_singleton. by eapply find_route_none.
Qed.

Lemma safe_refresh_route leaf next_hop : safely (refresh_route_ leaf next_hop).
Proof.
  apply safely_at. intros p Hp. unfold refresh_route_. apply at_this.
  destruct (_ || _); [apply at_ret|].
  destruct (bytes_eqb leaf (leaf_mac_ p)) eqn:E1; [apply at_ret|].
  destruct (bytes_eqb next_hop (leaf_mac_ p)) eqn:E2; [apply at_ret|].
  apply bytes_eqb_false in E1, E2. apply at_gets. intros now. cbv zeta.
  apply at_update; [|apply at_ret]. intros Hp'. by apply refresh_route_ok.
Qed.
#[local] Hint Resolve safe_refresh_route : remote_safe.

(** A received frame with a valid PSK tag. *)
Definition accepted (data : bytes) (f : ParsedFrame) : Prop :=
  bytes_ok data /\ parse_frame_ data = Some f /\
  forall p, crypto p = c -> validate_psk_ p (pf_header f) (pf_payload f) = true.

Lemma safe_forward_frame data f mac delta :
  accepted data f -> delta = 0 \/ delta = 1 ->
  safely (forward_frame_ mac (pf_header f) (pf_payload f) (pf_session_tag f) delta).
Proof.
  intros (Ho & Hf & Hv) Hd. unfold forward_frame_. apply safe_remote_this_bind. intros p Hp.
  pose proof (forwarded_frame_ok p data f delta Ho Hf (Hv p (ro_crypto c p Hp)) Hd) as Hok.
  rewrite (ro_crypto c p Hp) in Hok. stay_safe.
  apply safe_remote_ask. intros w. by apply rw_send.
Qed.

Lemma safe_forward_packet data f :
  accepted data f -> safely (forward_packet_ (pf_header f) (pf_payload f) (pf_session_tag f)).
Proof.
  intros Ha. unfold forward_packet_. stay_safe; (eapply safe_forward_frame; [done|]); auto.
Qed.
#[local] Hint Resolve safe_forward_packet : remote_safe.

Lemma safe_upstream data f sender :
  accepted data f ->
  safely (handle_upstream_ sender (pf_header f) (pf_payload f) (pf_session_tag f)).
Proof.
  intros Ha. unfold handle_upstream_. stay_safe; try by eapply safe_forward_packet.
  apply safe_remote_update; [done|]. intros p' []. remote_update; cbn.
  - by apply update_route_Forall.
  - by rewrite update_route_leaves.
Qed.

Lemma prune_ok now p :
  remote_ok p -> remote_ok (prune_pending_command_fragments_ now
    (prune_pending_discovers_ now (prune_routes_ now p))).
Proof.
  intros []. remote_update; cbn.
  - apply Forall_forall. intros r [_ Hr]%list_elem_of_filter.
    by apply (proj1 (Forall_forall _ _) ro_routes0).
  - eapply sublist_NoDup; [exact ro_route_leaves0|]. apply fmap_sublist, sublist_filter.
  - eapply sublist_NoDup; [exact ro_pending0|]. apply fmap_sublist, sublist_filter.
  - etrans; [apply expire_size|done].
Qed.

(** *** Set-up by the owner *)
Lemma safe_relay_config b h d : safely (set_relay_config b h d).
Proof. apply safe_remote_update; [done|]. intros p []. remote_update. Qed.
Lemma safe_relay_runtime b : safely (set_relay_enabled_runtime b).
Proof. apply safe_remote_update; [done|]. intros p []. remote_update. Qed.
Lemma safe_ota_over_espnow b : safely (set_ota_over_espnow b).
Proof. apply safe_remote_update; [done|]. intros p []. remote_update. by apply recv_ok_ota_enabled. Qed.

Lemma safe_register t n u o i : safely (register_entity t n u o i).
Proof.
  apply safely_at. intros p Hp. unfold register_entity. apply at_this. cbv zeta.
  apply at_update; [|apply at_ret]. intros []. remote_update. cbn. by rewrite fmap_app, ro_entities0.
Qed.

Lemma fmap_alter {A B} (f : A -> B) (g : A -> A) (h : B -> B) (i : nat) (l : list A) :
  (forall a, f (g a) = h (f a)) -> f <$> alter g i l = alter h i (f <$> l).
Proof.
  intros Hf. revert i. induction l as [|a l IH]; intros [|i]; cbn; rewrite ?Hf; [done..|].
  f_equal. apply IH.
Qed.

Lemma safe_entity_options i o : safely (set_entity_options i o).
Proof.
  apply safely_at. intros p Hp. unfold set_entity_options. apply at_this.
  destruct (_ || _); [apply at_ret|]. intros w Hr.
  assert (remote_ok ((p <| entities_ ::= alter (set_schema_options o) (Z.to_nat i) |>)
    <| entity_records_ ::= alter (fun r => r <| er_schema ::= set_schema_options o |>) (Z.to_nat i) |>))
    as Hok; [|split; [exact Hok|]; cbn; reflexivity].
  destruct Hp. remote_update. cbn.
  rewrite <-ro_entities0. by apply fmap_alter.
Qed.

Lemma safe_state_change i v : safely (on_entity_state_change i v).
Proof. unfold on_entity_state_change. stay_safe. Qed.
Lemma safe_text_change i v : safely (on_entity_text_change i v).
Proof. unfold on_entity_text_change. stay_safe. Qed.
End safe_tables.
(** Decompose a handler from a known state, down to the steps that move it. *)
Ltac at_step :=
  lazymatch goal with
  | |- safe_at _ _ _ (mret _) => apply at_ret; exact _
  | |- safe_at _ _ _ (mbind _ this) => apply at_this
  | |- safe_at _ _ _ (mbind _ (gets _)) => apply at_gets; intros ?
  | |- safe_at _ _ _ (mbind _ millis) => apply at_gets; intros ?
  | |- safe_at _ _ _ (let _ := _ in _) => cbv zeta
  | |- safe_at _ _ _ (when _ _) => apply at_when; [exact _|intros ?]
  | |- safe_at _ _ _ (if _ then _ else _) => apply at_if; intros ?
  | |- safe_at _ _ _ (match ?x with _ => _ end) => destruct x eqn:?
  end.
Ltac at_go := repeat at_step.
#[export] Hint Resolve safe_flush safe_refresh_route safe_relay_runtime safe_upstream
  safe_forward_packet : remote_safe.

(** Run the straight-line parts of a handler. *)
Ltac run_steps :=
  unfold mbind, M_bind, millis, this, ask, update, env, gets, modify; cbn [mret M_ret fst snd].
