(* ===== verification/RemoteSafe.v ===== *)
(** * RemoteSafe: every entry point keeps the remote's invariant

    The handlers, the loop and the embedded receiver are [safe] in the sense of
    RemoteInv: they keep the invariant, and act on the world only in ways the
    relation of a [RemoteWorld] allows.  RemoteRun draws the conclusions. *)
From S2P Require Import Prelude Wire IncrementBuffer FileReceiver OTAFlashHandler FileReceiverInv FileContent OtaReceive Crypto Frames Fragments ReceiverWorld RemoteSession RemoteProtocol RemoteLoop RemoteFrames RemoteInv.

(** ** Calls into the file receiver *)
Section receiver.
Context {W : Type} `{!RemoteEnv W} `{!OtaPlatform W} `{!Hmac} `{!Digests}.
Context (c : CryptoState) (R : relation W) `{!PreOrder R} `{!RemoteWorld c R}.
Abbreviation St := (RemoteProtocol * W)%type.
Abbreviation remote_ok := (remote_ok (W := W) c).
Abbreviation safely m := (keeps (safe c R) m).
#[local] Existing Instance remote_handler_laws.

#[local] Instance receiver_world : ReceiverWorld (safe c R).
Proof.
  split.
  - intros payload s. apply (safe_send_ack c R payload 0 s).
  - intros [p w] Hp. split; [done|]. apply rw_esp_restart.
Qed.

Lemma platform_safe {A} (f : W -> A * W) :
  (forall w, R w (f w).2) ->
  keeps (fun s s' : OTAFlashHandler * St => safe c R s.2 s'.2) (platform (on_world f)).
Proof.
  intros Hf [h [p w]] Hp. unfold platform, on_world. cbn [fst snd]. specialize (Hf w).
  destruct (f w) as [a w']. by split.
Qed.

#[local] Instance ota_world_preorder :
  PreOrder (fun s s' : OTAFlashHandler * St => safe c R s.2 s'.2).
Proof. split; [intros s; reflexivity|]. intros s1 s2 s3 H12 H23. by etrans. Qed.

Ltac ota_safe := keeps_go ltac:(first
  [ solve [intros ?; reflexivity]
  | solve [apply platform_safe; intros ?; first [apply rw_ota_begin|apply rw_ota_write|apply rw_ota_end|apply rw_ota_boot]]
  | solve [intros [h [p w]] Hp; split; [exact Hp|apply rw_ota_abort]] ]).

#[local] Instance ota_world : HandlerWorld OTAFlashHandler (safe c R).
Proof.
  split; intros.
  - unfold on_announce; cbn. unfold ota_on_announce, begin_md5_. ota_safe.
  - unfold on_data; cbn. unfold ota_on_data, update_md5_. ota_safe.
  - unfold on_end; cbn. unfold ota_on_end, finish_md5_, reset_state_. ota_safe.
  - unfold on_abort; cbn. unfold ota_on_abort, reset_state_. ota_safe.
Qed.

Lemma safe_with_receiver {A} (op : M (FileReceiver OTAFlashHandler * St) A) :
  keeps (on_world_R (safe c R)) op -> (forall s, inv s -> inv (op s).2) -> safely (with_receiver op).
Proof.
  intros Hw Hi s Hs. unfold with_receiver.
  specialize (Hw (file_receiver_ s.1, s)). specialize (Hi (file_receiver_ s.1, s) (ro_receiver c _ Hs)).
  destruct (op (file_receiver_ s.1, s)) as [a [r s']]. cbn [fst snd] in *.
  destruct (Hw Hs) as [[] HR]. split; [|exact HR]. cbn [fst snd] in *. remote_update.
Qed.

Lemma safe_receiver_transfer payload : bytes_ok payload ->
  safely (with_receiver (handle_file_transfer payload)).
Proof.
  intros Hp. apply safe_with_receiver; [by apply worldly_file_transfer; exact _|].
  intros s Hs. by apply (handle_file_transfer_inv payload s).
Qed.
Lemma safe_receiver_data payload : bytes_ok payload ->
  safely (with_receiver (handle_file_data payload)).
Proof.
  intros Hp. apply safe_with_receiver; [by apply worldly_file_data; exact _|].
  intros s Hs. by apply (handle_file_data_inv payload s).
Qed.
Lemma safe_receiver_loop : safely (with_receiver FileReceiver.loop).
Proof.
  apply safe_with_receiver; [by apply worldly_loop; exact _|]. intros s Hs. by apply (loop_inv s).
Qed.
Lemma safe_receiver_abort reason b : safely (with_receiver (FileReceiver.abort reason b)).
Proof.
  apply safe_with_receiver; [by apply worldly_abort; exact _|].
  intros s Hs. by apply (abort_entry_inv reason b s).
Qed.
Lemma safe_receiver_announce_counter n : safely (with_receiver (set_announce_tx_counter n)).
Proof.
  apply safe_with_receiver; [by apply worldly_update; exact _|].
  intros s Hs. eapply recv_step_inv; [exact Hs|constructor].
Qed.
Lemma safe_receiver_blast_counter n : safely (with_receiver (set_blast_complete_tx_counter n)).
Proof.
  apply safe_with_receiver; [by apply worldly_update; exact _|].
  intros s Hs. eapply recv_step_inv; [exact Hs|constructor].
Qed.
End receiver.
#[export] Hint Resolve safe_receiver_transfer safe_receiver_data safe_receiver_loop
  safe_receiver_abort safe_receiver_announce_counter safe_receiver_blast_counter : remote_safe.

(** ** Life cycle and discovery *)
Ltac update_safe := apply safe_remote_update; [exact _|]; intros ? []; remote_update.

Section safe_handlers.
Context {W : Type} `{!RemoteEnv W} `{!OtaPlatform W} `{!Hmac} `{!Digests}.
Context (c : CryptoState) (R : relation W) `{!PreOrder R} `{!RemoteWorld c R}.
Abbreviation St := (RemoteProtocol * W)%type.
Abbreviation remote_ok := (remote_ok (W := W) c).
Abbreviation safely m := (keeps (safe c R) m).

Lemma safe_set_channel channel : safely (set_wifi_channel_with_recovery channel).
Proof. unfold set_wifi_channel_with_recovery. stay_safe. Qed.
#[local] Hint Resolve safe_set_channel : remote_safe.

Lemma empty_ring_ok p : ring_ok (p
  <| announce_queue_head_ := 0 |> <| announce_queue_tail_ := 0 |>
  <| announce_queue_ := replicate ANNOUNCE_QUEUE_SIZE no_announce |>
  <| discover_announce_pending_ := false |>).
Proof. by constructor. Qed.

Lemma clear_session_ok b p : remote_ok p -> remote_ok (clear_session_fields b p).
Proof.
  intros []. unfold clear_session_fields. destruct b; remote_update.
  all: try apply empty_ring_ok.
  all: change (0 <= 8)%nat; lia.
Qed.

Lemma safe_clear_fields b : safely (update (clear_session_fields b)).
Proof. apply safe_remote_update; [done|apply clear_session_ok]. Qed.
#[local] Hint Resolve safe_clear_fields | 0 : remote_safe.

Lemma safe_clear_session b1 b2 : safely (clear_session_state_ b1 b2).
Proof.
  unfold clear_session_state_. stay_safe.
Qed.
#[local] Hint Resolve safe_clear_session : remote_safe.

Lemma safe_remote_nonce : safely new_remote_nonce.
Proof.
  apply safely_at. intros p Hp w Hr. unfold new_remote_nonce, mbind, M_bind, ask, update, modify.
  cbn [fst snd]. destruct (rw_nonce (c := c) (R := R) 16 w) as [HR Hl].
  destruct (env_fill_random_bytes 16 w) as [nonce w']. cbn [fst snd] in *.
  split; [|exact HR]. destruct Hp. remote_update.
Qed.
#[local] Hint Resolve safe_remote_nonce : remote_safe.

Lemma route_recovery_ok now p : remote_ok p -> remote_ok (route_recovery_fields now p).
Proof. intros []. unfold route_recovery_fields. remote_update. Qed.
Lemma safe_recovery_fields now : safely (update (route_recovery_fields now)).
Proof. apply safe_remote_update; [done|apply route_recovery_ok]. Qed.
#[local] Hint Resolve safe_recovery_fields | 0 : remote_safe.
Lemma safe_route_recovery : safely start_route_recovery_cycle_.
Proof. unfold start_route_recovery_cycle_. stay_safe. Qed.
#[local] Hint Resolve safe_route_recovery : remote_safe.
Lemma safe_start_discovery b : safely (start_discovery_cycle_ b).
Proof. unfold start_discovery_cycle_. stay_safe. Qed.
Lemma safe_full_rediscovery : safely start_config_full_rediscovery_.
Proof. unfold start_config_full_rediscovery_. stay_safe. Qed.
#[local] Hint Resolve safe_start_discovery safe_full_rediscovery : remote_safe.
Lemma safe_rejoin now reason : safely (rejoin_due_to_transmit_stall_ now reason).
Proof. unfold rejoin_due_to_transmit_stall_. stay_safe. Qed.
#[local] Hint Resolve safe_rejoin : remote_safe.

Lemma length_discover p : length (discover_payload p) = 34%nat.
Proof. unfold discover_payload. cbn. rewrite !length_app, !length_le_bytes, length_pad_to. done. Qed.
Lemma safe_send_on_channel now channel : safely (send_on_channel now channel).
Proof.
  unfold send_on_channel. stay_safe. apply safe_send_frame; [exact _|exact _|apply hops_make_ok..|lia|done|].
  intros _. rewrite length_discover. lia.
Qed.
#[local] Hint Resolve safe_send_on_channel : remote_safe.
Lemma safe_sweep now : safely (sweep_next now).
Proof. unfold sweep_next. stay_safe. Qed.
#[local] Hint Resolve safe_sweep : remote_safe.
Lemma safe_send_discover : safely send_discover_.
Proof. unfold send_discover_, schedule_discover_retry. stay_safe. Qed.
Lemma safe_select_parent sender a rssi : safely (select_parent_candidate_ sender a rssi).
Proof. unfold select_parent_candidate_. stay_safe. Qed.
#[local] Hint Resolve safe_select_parent safe_send_discover : remote_safe.

Lemma safe_remote_discover sender h payload :
  length (leaf_mac h) = 6%nat -> bytes_ok (leaf_mac h) -> safely (handle_discover_ sender h payload).
Proof.
  intros Hl Ho. apply safely_at. intros p Hp. unfold handle_discover_. at_go.
  apply at_update; [|apply at_safely, safe_announce_with_jitter; [exact _..|done|done]].
  intros []. remote_update. cbn. rewrite fmap_app. apply NoDup_app.
  split; [done|]. split; [|apply NoDup_singleton]. intros x Hx ->%list_elem_of_singleton. cbn in Hx.
  apply list_elem_of_fmap in Hx as (d & Ed & Hd). apply list_elem_of_In in Hd.
  assert (existsb (fun d => bytes_eqb (pd_leaf_mac d) (leaf_mac h)) (pending_discovers_ p) = true)
    by (apply existsb_exists; exists d; split; [done|by apply bytes_eqb_true]).
  congruence.
Qed.

Lemma safe_discover_announce sender payload rssi :
  safely (handle_discover_announce_ sender payload rssi).
Proof. unfold handle_discover_announce_. stay_safe. Qed.
#[local] Hint Resolve safe_remote_discover safe_discover_announce : remote_safe.

(** ** Joining *)
Lemma safe_join_rejected ack : safely (join_rejected ack).
Proof. unfold join_rejected. stay_safe. Qed.

Lemma mtu_of_payload p :
  session_max_payload_ p = 250 \/ session_max_payload_ p = 1470 ->
  mtu_ok (update_mtu_from_route_ p).
Proof. intros [E|E]; right; [left|right]; unfold update_mtu_from_route_; cbn; by rewrite E. Qed.

Lemma accept_session_ok tx ack p : remote_ok p -> remote_ok (accept_session tx ack p).
Proof.
  intros []. unfold accept_session. cbv zeta.
  set (m := if negb _ && negb _ then ESPNOW_V2_MAX_PAYLOAD else ESPNOW_V1_MAX_PAYLOAD).
  assert (m = 250 \/ m = 1470) as Hm by (subst m; destruct (_ && _); auto). clearbody m.
  remote_update.
  - split; [apply length_session_key|apply session_key_ok].
  - refine (mtu_ok_same _ _ (mtu_of_payload (p <| session_max_payload_ := m |>) Hm) _). by cbn.
  - apply recv_ok_max_chunk; [cbn; lia|done].
Qed.
Lemma enter_joined_ok now p : remote_ok p -> remote_ok (enter_joined now p).
Proof. intros []. unfold enter_joined. remote_update. Qed.
Lemma enter_state_sync_ok now p : remote_ok p -> remote_ok (enter_state_sync now p).
Proof.
  intros []. unfold enter_state_sync. remote_update. cbn. by rewrite <-ro_entities, <-list_fmap_compose.
Qed.
Lemma enter_normal_ok p : remote_ok p -> joined_ p = true -> remote_ok (enter_normal p).
Proof. intros [] Hj. unfold enter_normal. remote_update. Qed.

Lemma safe_join_accepted h ack : safely (join_accepted h ack).
Proof.
  apply safely_at. intros p Hp. unfold join_accepted.
  apply at_update; [intros _; by apply accept_session_ok|].
  apply (accept_session_ok (tx_counter h) ack) in Hp.
  assert (joined_ (accept_session (tx_counter h) ack p) = true) as Hj by done.
  revert Hp Hj. generalize (accept_session (tx_counter h) ack p). intros q Hq Hj. at_go.
  apply at_then; [exact _| |intros a; stay_safe]. at_go.
  - apply at_update_last; [exact _|]; apply enter_joined_ok.
  - apply at_update_last; [exact _|]; apply enter_state_sync_ok.
  - apply at_update; [intros _; by apply enter_normal_ok|]. apply at_safely. stay_safe.
  - apply at_update_last; [exact _|]; apply enter_joined_ok.
Qed.
#[local] Hint Resolve safe_join_rejected safe_join_accepted : remote_safe.

Lemma safe_join_ack h payload : safely (handle_join_ack_ h payload).
Proof. unfold handle_join_ack_. stay_safe. Qed.

(** ** Encrypted frames from the bridge *)
Lemma decrypt_ok p h payload tag plain :
  remote_ok p -> bytes_ok payload -> decrypt_ p h payload tag = Some plain -> bytes_ok plain.
Proof.
  intros Hp Ho. unfold decrypt_, espnow_crypto_crypt. destruct (negb _); [done|].
  destruct (_ || _); [done|]. intros E%(inj Some). subst plain.
  destruct (ro_key c p Hp). by apply ctr_crypt_ok.
Qed.

Lemma state_acked_ok now p : remote_ok p -> remote_ok (state_acked now p).
Proof.
  intros []. unfold state_acked. remote_update. cbn. rewrite <-ro_entities.
  rewrite (fmap_alter _ _ id) by done. generalize (er_schema <$> entity_records_ p).
  intros l. generalize (Z.to_nat (pending_state_field_index_ p)). induction l as [|x l IH]; intros [|n]; cbn; congruence.
Qed.
Lemma safe_remote_ack h payload tag : safely (handle_ack_ h payload tag).
Proof.
  unfold handle_ack_. stay_safe. apply safe_remote_update; [done|]. apply state_acked_ok.
Qed.

Lemma safe_take_assembly entity n :
  safely (update (fun p => p <| pending_commands_ ::= fun r => take_assembly r entity n |>)).
Proof.
  apply safe_remote_update; [done|]. intros p []. remote_update. cbn.
  etrans; [apply (take_assembly_size _ entity n)|done].
Qed.
#[local] Hint Resolve safe_take_assembly | 0 : remote_safe.

Lemma admit_command_bound r v b now f m t ok r' :
  (size (assemblies r) <= 8)%nat -> admit_command r v b now f m t = (ok, r') ->
  (size (assemblies r') <= 8)%nat.
Proof. intros Hs E. change r' with (ok, r').2. rewrite <-E. by apply admit_command_size. Qed.

Lemma safe_command h payload tag : safely (handle_command_ h payload tag).
Proof.
  apply safely_at. intros p Hp. unfold handle_command_. at_go; try (apply at_safely; solve [stay_safe]).
  apply at_update; [|apply at_safely; stay_safe].
  intros []. remote_update. change (size (assemblies r) <= 8)%nat.
  by eapply admit_command_bound.
Qed.
#[local] Hint Resolve safe_join_ack safe_remote_ack safe_command : remote_safe.

(** ** Configuration *)
Lemma safe_ack_and_remember h command result : safely (ack_and_remember h command result).
Proof. unfold ack_and_remember. stay_safe. Qed.
#[local] Hint Resolve safe_ack_and_remember : remote_safe.
Lemma safe_config_ok h command effect : safely effect -> safely (config_ok h command effect).
Proof. intros He. unfold config_ok. stay_safe. Qed.
#[local] Hint Resolve safe_config_ok : remote_safe.

Lemma safe_run_config h command payload : safely (run_config h command payload).
Proof.
  unfold run_config. stay_safe; apply safe_config_ok; stay_safe.
Qed.
#[local] Hint Resolve safe_run_config : remote_safe.
Lemma safe_config h payload tag : safely (handle_config_ h payload tag).
Proof. unfold handle_config_. stay_safe. Qed.
Lemma safe_schema_request h payload tag : safely (handle_schema_request_ h payload tag).
Proof. unfold handle_schema_request_. stay_safe. Qed.
#[local] Hint Resolve safe_config safe_schema_request : remote_safe.

(** ** File transfer *)
Lemma safe_file_transfer h payload tag :
  bytes_ok payload -> safely (handle_file_transfer_ h payload tag).
Proof.
  intros Ho. unfold handle_file_transfer_. apply safe_remote_this_bind. intros p Hp. stay_safe.
  apply safe_receiver_transfer; [exact _|exact _|]. by eapply decrypt_ok.
Qed.
Lemma safe_file_data h payload tag : bytes_ok payload -> safely (handle_file_data_ h payload tag).
Proof.
  intros Ho. unfold handle_file_data_. apply safe_remote_this_bind. intros p Hp. stay_safe.
  apply safe_receiver_data; [exact _|]. by eapply decrypt_ok.
Qed.
#[local] Hint Resolve safe_file_transfer safe_file_data : remote_safe.

(** ** Dispatch *)
Lemma safe_deauth h payload : safely (handle_deauth_ h payload).
Proof. unfold handle_deauth_. stay_safe. Qed.
Lemma safe_downstream data f :
  accepted c data f -> bytes_ok (pf_payload f) ->
  safely (handle_downstream_ (pf_header f) (pf_payload f) (pf_session_tag f)).
Proof. intros Ha Ho. unfold handle_downstream_. stay_safe. Qed.
#[local] Hint Resolve safe_deauth : remote_safe.
#[local] Hint Resolve safe_downstream : remote_safe.

Lemma admit_frame_ok p data f :
  remote_ok p -> bytes_ok data -> admit_frame p data = Some f ->
  accepted c data f /\ bytes_ok (pf_payload f) /\
  length (leaf_mac (pf_header f)) = 6%nat /\ bytes_ok (leaf_mac (pf_header f)).
Proof.
  intros Hp Ho Ha. unfold admit_frame in Ha.
  destruct (parse_frame_ data) as [f'|] eqn:Hf; [|done]. cbn in Ha.
  destruct (negb (validate_psk_ _ _ _)) eqn:Hv; [done|]. zprop.
  destruct (_ <=? _); [done|]. destruct (_ && _); [done|]. apply (inj Some) in Ha. subst f'.
  destruct (parse_frame_parts data f Ho Hf) as (parent & tag & _ & [(_ & _ & _ & Hl & Hb & _) _ _ _ _ _] & _ & _ & Hpay & _).
  unfold accepted. split_and!; try done. intros q Hq. unfold validate_psk_ in *. by rewrite Hq, <-(ro_crypto c p Hp).
Qed.

Lemma safe_rssi sender rssi : safely (update (update_rssi sender rssi)).
Proof.
  apply safe_remote_update; [done|]. intros p []. unfold update_rssi. destruct (_ && _); remote_update.
Qed.
Lemma hops_count_range h : 0 <= ESPNOW_HOPS_COUNT h < 16.
Proof.
  unfold ESPNOW_HOPS_COUNT. change ESPNOW_HOPS_COUNT_MASK with (Z.ones 4).
  rewrite Z.land_ones by lia. pose proof (Z.mod_pos_bound h (2 ^ 4) eq_refl).
  rewrite u8_small; lia.
Qed.
Lemma observe_hops_ok h p : remote_ok p -> remote_ok (observe_hops h p).
Proof.
  intros []. unfold observe_hops. cbv zeta.
  destruct (Z.ltb_spec (ESPNOW_HOPS_COUNT (hop_count h)) (hops_to_bridge_ p)) as [Hlt|];
    [|rewrite andb_false_r; by constructor].
  destruct (_ && _); [|by constructor]. remote_update. cbn. intros Hr.
  destruct (ro_relay Hr) as (?&?&?&?). split_and!; try done.
  pose proof (hops_count_range (hop_count h)). lia.
Qed.
Lemma safe_observe_hops h : safely (update (observe_hops h)).
Proof. apply safe_remote_update; [done|]. apply observe_hops_ok. Qed.
#[local] Hint Resolve safe_rssi safe_observe_hops | 0 : remote_safe.

Lemma safe_handle_locally sender data f rssi :
  accepted c data f -> bytes_ok (pf_payload f) ->
  length (leaf_mac (pf_header f)) = 6%nat -> bytes_ok (leaf_mac (pf_header f)) ->
  safely (handle_locally sender f rssi).
Proof. intros Ha Ho Hl Hb. unfold handle_locally. cbv zeta. stay_safe. Qed.

Lemma safe_remote_frame sender data rssi : bytes_ok data -> safely (on_espnow_frame sender data rssi).
Proof.
  intros Ho. unfold on_espnow_frame. apply safe_remote_this_bind. intros p Hp.
  destruct (admit_frame p data) as [f|] eqn:Ha; [|stay_safe]. cbv zeta.
  destruct (admit_frame_ok p data f Hp Ho Ha) as (Hacc & Hpay & Hl & Hb).
  stay_safe. by eapply safe_handle_locally.
Qed.

(** ** The loop *)
Lemma safe_first_of parts : Forall (fun m => safely m) parts -> safely (first_of parts).
Proof. induction 1; cbn [first_of]; stay_safe. Qed.

Lemma safe_prune now : safely (update (fun p => prune_pending_command_fragments_ now
  (prune_pending_discovers_ now (prune_routes_ now p)))).
Proof. apply safe_remote_update; [done|]. apply prune_ok. Qed.
#[local] Hint Resolve safe_prune | 0 : remote_safe.

Lemma safe_ota_timer now : safely (ota_timer now).
Proof. unfold ota_timer. stay_safe. Qed.
Lemma safe_adopt b : safely (update (adopt_best_parent_candidate_ b)).
Proof.
  apply safe_remote_update; [done|]. intros p []. unfold adopt_best_parent_candidate_.
  destruct (negb _); [by constructor|]. remote_update.
Qed.
Lemma safe_begin_join : safely (update begin_join_attempt).
Proof. apply safe_remote_update; [done|]. intros p []. unfold begin_join_attempt. remote_update. Qed.
#[local] Hint Resolve safe_ota_timer : remote_safe.
#[local] Hint Resolve safe_adopt safe_begin_join | 0 : remote_safe.

Lemma safe_restart now : safely (restart_discovery now).
Proof. unfold restart_discovery. stay_safe. Qed.
Lemma safe_jitter : safely retry_jitter_.
Proof. unfold retry_jitter_. stay_safe. Qed.
#[local] Hint Resolve safe_restart safe_jitter : remote_safe.

Lemma safe_loop_parts now jitter : Forall (fun m => safely m) (loop_parts now jitter).
Proof.
  unfold loop_parts. repeat apply Forall_cons_2; [..|done].
  - unfold initial_discovery. stay_safe.
  - unfold wait_for_wifi. stay_safe.
  - unfold topology_refresh. stay_safe.
  - unfold topology_refresh. stay_safe.
  - unfold resume_normal. stay_safe.
  - unfold attempt_join. stay_safe.
  - unfold collect_candidates. stay_safe.
  - unfold join_exhausted. stay_safe.
  - unfold unless_joined. stay_safe.
  - unfold joined_timeout. stay_safe.
  - unfold transmit_stall. stay_safe.
  - unfold state_retry. stay_safe. apply safe_remote_update; [done|]. intros p0 [].
    match goal with a : bool |- _ => destruct a end; remote_update.
  - unfold push_disabled. stay_safe.
  - unfold heartbeat_timer. stay_safe.
  - unfold push_state. stay_safe.
Qed.

Lemma safe_remote_loop : safely loop.
Proof. unfold loop. stay_safe. apply safe_first_of, safe_loop_parts. Qed.
End safe_handlers.
