(* ===== verification/RemoteRun.v ===== *)
(** * RemoteRun: the remote's runs

    [owner_step] is a call by the component that owns the protocol object,
    [remote_step] adds received frames, the periodic [loop] and the passing of
    time.  The two theorems say what holds in every state that these reach after
    [set_local_mac], the owner's configuration and [init]: the invariant
    [remote_ok], and that each frame ever handed to the radio parses and
    carries the pre-shared key's tag.  For the second the world is paired with
    a log of transmissions. *)
From S2P Require Import Prelude Wire IncrementBuffer FileReceiver OTAFlashHandler FileReceiverInv FileContent OtaReceive Crypto Frames Fragments ReceiverWorld RemoteSession RemoteProtocol RemoteLoop RemoteFrames RemoteInv RemoteSafe.

(** ** Steps *)
Section steps.
Context {W : Type} `{!RemoteEnv W} `{!OtaPlatform W} `{!Hmac} `{!Digests}.
Abbreviation St := (RemoteProtocol * W)%type.

Inductive owner_step : relation St :=
  | owner_register t n u o i s : owner_step s (register_entity t n u o i s).2
  | owner_options i o s : owner_step s (set_entity_options i o s).2
  | owner_state_change i v s : owner_step s (on_entity_state_change i v s).2
  | owner_text_change i v s : owner_step s (on_entity_text_change i v s).2
  | owner_relay_config b h d s : owner_step s (set_relay_config b h d s).2
  | owner_relay_runtime b s : owner_step s (set_relay_enabled_runtime b s).2
  | owner_route_ttl n s : owner_step s (set_route_ttl n s).2
  | owner_parent mac s : owner_step s (add_preferred_parent mac s).2
  | owner_send_fn b s : owner_step s (set_send_fn b s).2
  | owner_command_fn b s : owner_step s (set_command_fn b s).2
  | owner_flags flags s : owner_step s (set_session_flags flags s).2
  | owner_ota b s : owner_step s (set_ota_over_espnow b s).2.

(** [elapse] is what may happen to the world between two calls. *)
Inductive remote_step (elapse : relation W) : relation St :=
  | remote_owner s s' : owner_step s s' -> remote_step elapse s s'
  | remote_frame sender data rssi s :
      bytes_ok data -> remote_step elapse s (on_espnow_frame sender data rssi s).2
  | remote_loop s : remote_step elapse s (loop s).2
  | remote_elapse p w w' : elapse w w' -> remote_step elapse (p, w) (p, w').
End steps.

(** ** Every step is safe *)
Section runs.
Context {W : Type} `{!RemoteEnv W} `{!OtaPlatform W} `{!Hmac} `{!Digests}.
Context (c : CryptoState) (R : relation W) `{!PreOrder R}.
Abbreviation St := (RemoteProtocol * W)%type.
Abbreviation remote_ok := (remote_ok (W := W) c).

Lemma owner_step_safe s s' : owner_step s s' -> safe c R s s'.
Proof.
  destruct 1.
  - by apply safe_register.
  - by apply safe_entity_options.
  - by apply safe_state_change.
  - by apply safe_text_change.
  - by apply safe_relay_config.
  - by apply safe_relay_runtime.
  - apply (safe_remote_update c R). intros p []. remote_update.
  - apply (safe_remote_update c R). intros p []. remote_update.
  - apply (safe_remote_update c R). intros p []. remote_update.
  - apply (safe_remote_update c R). intros p []. remote_update.
  - apply (safe_remote_update c R). intros p []. remote_update.
  - by apply safe_ota_over_espnow.
Qed.

Lemma remote_step_safe `{!RemoteWorld c R} (elapse : relation W) s s' :
  (forall w w', elapse w w' -> R w w') -> remote_step elapse s s' -> safe c R s s'.
Proof.
  intros He. destruct 1 as [s s' H1|sender data rssi s Ho|s|p w w' Hw].
  - by apply owner_step_safe.
  - by apply (safe_remote_frame c R).
  - by apply (safe_remote_loop c R).
  - intros Hs. split; [done|]. by apply He.
Qed.

Lemma rtc_safe (step : relation St) s s' :
  (forall s s', step s s' -> safe c R s s') -> rtc step s s' -> safe c R s s'.
Proof. intros Hs. induction 1 as [|x y z Hxy _ IH]; [reflexivity|]. etrans; [by apply Hs|done]. Qed.
End runs.

(** ** The state before [init] *)
Section start.
Context {W : Type} `{!RemoteEnv W} `{!OtaPlatform W} `{!Hmac} `{!Digests}.
Abbreviation St := (RemoteProtocol * W)%type.
Abbreviation no_psk := (crypto new_remote).

Lemma new_receiver_ok : recv_ok (W := RemoteProtocol * W) (HandlerLaws0 := remote_handler_laws) new_file_receiver.
Proof.
  split; [|done]. constructor.
  - done.
  - intros action p Hp. change (({[ESPNOW_FILE_ACTION_OTA_FLASH := 0]} : gmap Z Z) !! action = Some p) in Hp.
    apply lookup_singleton_Some in Hp as [_ <-]. cbn. rewrite lookup_singleton_eq. by eexists.
  - intros p h Hp. change (({[0 := new_ota_flash_handler]} : gmap Z _) !! p = Some h) in Hp.
    apply lookup_singleton_Some in Hp as [_ <-]. by constructor.
  - intros p h Hp. change (({[0 := new_ota_flash_handler]} : gmap Z _) !! p = Some h) in Hp.
    apply lookup_singleton_Some in Hp as [_ <-]. done.
Qed.

Lemma zeros_ok n : bytes_ok (replicate n 0).
Proof. apply Forall_replicate. unfold byte_range. lia. Qed.

Lemma new_remote_ok : remote_ok (W := W) no_psk new_remote.
Proof.
  constructor; try done.
  - split; [done|]. apply zeros_ok.
  - split; [done|]. apply zeros_ok.
  - by left.
  - cbn. constructor.
  - cbn. constructor.
  - change (0 <= 8)%nat. lia.
  - apply new_receiver_ok.
Qed.

Lemma local_mac_ok mac (w : W) :
  length mac = 6%nat -> bytes_ok mac ->
  remote_ok (W := W) no_psk (set_local_mac mac (new_remote, w)).2.1.
Proof.
  intros Hl Ho. unfold set_local_mac. rewrite Hl. cbn [Nat.eqb].
  change (remote_ok (W := W) no_psk (new_remote <| leaf_mac_ := take 6 mac |>
    <| file_receiver_ ::= fun r => r <| local_mac_ := mac |> |>)).
  rewrite take_ge by lia. destruct new_remote_ok. remote_update. by apply recv_ok_local_mac.
Qed.

(** [init] sets the key of the crypto module once. *)
Lemma init_ok c psk network name label epoch pn pv hb (s : St) :
  remote_ok (W := W) c s.1 ->
  let s' := (init psk network name label epoch pn pv hb s).2 in
  remote_ok (W := W) (crypto s'.1) s'.1 /\ s'.2 = s.2.
Proof.
  intros []. cbv zeta. unfold init, mbind, M_bind, millis, this, gets, update, modify. cbn [fst snd].
  match goal with |- context [espnow_crypto_init psk ?x] =>
    destruct (espnow_crypto_init psk x) as [rc c'] end. cbn [mret M_ret fst snd].
  split; [|done]. remote_update. by apply recv_ok_ota_enabled, recv_ok_send_ack.
Qed.
End start.

(** ** The log of transmissions *)
Section log.
Context {W : Type} `{!RemoteEnv W} `{!OtaPlatform W} `{!Hmac} `{!Digests}.
Abbreviation Logged := (W * list (bytes * bytes))%type.

Definition lift {A} (f : W -> A * W) (w : Logged) : A * Logged :=
  let '(a, w') := f w.1 in (a, (w', w.2)).

(** The same platform; [env_send_fn] also writes the address and the frame down. *)
#[export] Instance logged_env : RemoteEnv Logged := {|
  env_millis w := env_millis w.1;
  env_delay ms w := (env_delay ms w.1, w.2);
  env_esp_random := lift env_esp_random;
  env_fill_random_bytes n := lift (env_fill_random_bytes n);
  env_send_fn mac frame w :=
    let '(ok, w') := env_send_fn mac frame w.1 in (ok, (w', w.2 ++ [(mac, frame)]));
  env_command_fn i flags value w := (env_command_fn i flags value w.1, w.2);
  esp_wifi_set_channel channel := lift (esp_wifi_set_channel channel);
  esp_wifi_start := lift esp_wifi_start;
  esp_wifi_get_channel w := esp_wifi_get_channel w.1;
  wifi_component w := wifi_component w.1;
  env_esp_restart w := (env_esp_restart w.1, w.2);
  env_safe_reboot w := (env_safe_reboot w.1, w.2);
  esp_app_description w := esp_app_description w.1;
  running_partition_size w := running_partition_size w.1;
  esp_partition_read offset n w := esp_partition_read offset n w.1;
  RemoteSession.chip_id := RemoteSession.chip_id (W := W)
|}.
#[export] Instance logged_platform : OtaPlatform Logged := {|
  esp_ota_get_next_update_partition w := esp_ota_get_next_update_partition w.1;
  esp_ota_begin size := lift (esp_ota_begin size);
  esp_ota_write handle data := lift (esp_ota_write handle data);
  esp_ota_end handle := lift (esp_ota_end handle);
  esp_ota_set_boot_partition := lift esp_ota_set_boot_partition;
  esp_ota_abort handle w := (esp_ota_abort handle w.1, w.2);
  heap_caps_get_largest_free_block w := heap_caps_get_largest_free_block w.1
|}.

(** Time passes without transmissions. *)
Definition quiet (elapse : relation W) : relation Logged :=
  fun w w' => elapse w.1 w'.1 /\ w'.2 = w.2.

Definition sends_ok (c : CryptoState) : relation Logged := fun w w' =>
  exists sent, w'.2 = w.2 ++ sent /\ Forall (fun m => frame_ok c m.2) sent.
#[export] Instance sends_ok_preorder c : PreOrder (sends_ok c).
Proof.
  split.
  - intros w. exists []. by rewrite app_nil_r.
  - intros w1 w2 w3 (l1 & E1 & H1) (l2 & E2 & H2). exists (l1 ++ l2).
    rewrite E2, E1. split; [by rewrite (assoc_L (++))|]. by apply Forall_app.
Qed.

Lemma sends_none c w w' : w'.2 = w.2 -> sends_ok c w w'.
Proof. intros E. exists []. by rewrite app_nil_r. Qed.
Lemma sends_lift c {A} (f : W -> A * W) w : sends_ok c w (lift f w).2.
Proof. apply sends_none. unfold lift. by destruct (f w.1). Qed.

Lemma logged_world c :
  (forall n w, length (env_fill_random_bytes (W := W) n w).1 = n) -> RemoteWorld c (sends_ok c).
Proof.
  intros Hn. split; intros; try by apply sends_none.
  - apply (sends_lift c env_esp_random).
  - split; [apply (sends_lift c (env_fill_random_bytes n))|].
    cbn. unfold lift. pose proof (Hn n w.1) as Hl.
    destruct (env_fill_random_bytes n w.1). exact Hl.
  - cbn. destruct (env_send_fn mac frame w.1) as [ok w']. exists [(mac, frame)].
    split; [done|]. by repeat constructor.
  - apply (sends_lift c (esp_wifi_set_channel channel)).
  - apply (sends_lift c esp_wifi_start).
  - apply (sends_lift c (esp_ota_begin size)).
  - apply (sends_lift c (esp_ota_write handle data)).
  - apply (sends_lift c (esp_ota_end handle)).
  - apply (sends_lift c esp_ota_set_boot_partition).
Qed.
End log.

(** ** The theorems *)
Section theorems.
Context {W : Type} `{!RemoteEnv W} `{!OtaPlatform W} `{!Hmac} `{!Digests}.
Abbreviation St := (RemoteProtocol * W)%type.

(** The owner sets the address, configures the object and initialises it. *)
Definition booted (mac : bytes) (w : W) (s : St) : Prop :=
  exists psk network name label epoch pn pv hb s1,
    rtc owner_step (set_local_mac mac (new_remote, w)).2 s1 /\
    s = (init psk network name label epoch pn pv hb s1).2.

Lemma booted_ok mac (w : W) (s : St) :
  length mac = 6%nat -> bytes_ok mac -> booted mac w s ->
  remote_ok (W := W) (crypto s.1) s.1 /\ s.2 = w.
Proof.
  intros Hl Ho (psk & network & name & label & epoch & pn & pv & hb & s1 & Hs & ->).
  destruct (rtc_safe (crypto new_remote) eq owner_step (set_local_mac mac (new_remote, w)).2 s1) as [H1 H2];
    [apply owner_step_safe; exact _|done|by apply local_mac_ok|].
  destruct (init_ok _ psk network name label epoch pn pv hb s1 H1) as [H3 H4].
  split; [done|]. rewrite H4, <-H2. unfold set_local_mac. by rewrite Hl.
Qed.

(** C9: In every state that the remote reaches from its start by any frames, loops and calls of
    its owner, whatever the platform does, the invariant of its tables holds: routes are
    unique per leaf and never name the node itself, the announcement ring and the table of
    outstanding requests stay within their arrays, at most eight commands are being
    assembled, the sizes of fragments belong to one frame version, relaying implies a
    completed join and a parent, and the embedded receiver keeps its own invariant. *)
Theorem remote_invariant elapse mac (w : W) (s s' : St) :
  length mac = 6%nat -> bytes_ok mac ->
  (forall n (w : W), length (env_fill_random_bytes n w).1 = n) ->
  booted mac w s -> rtc (remote_step elapse) s s' -> remote_ok (W := W) (crypto s.1) s'.1.
Proof.
  intros Hl Ho Hn Hb Hs. destruct (booted_ok mac w s Hl Ho Hb) as [Hok _].
  assert (PreOrder (fun _ _ : W => True)) by (split; red; auto).
  assert (RemoteWorld (crypto s.1) (fun _ _ : W => True)) by (split; auto).
  apply (rtc_safe (crypto s.1) (fun _ _ : W => True) (remote_step elapse) s s'); [|done|done].
  intros t t'. by apply remote_step_safe.
Qed.
End theorems.

Section sent.
Context {W : Type} `{!RemoteEnv W} `{!OtaPlatform W} `{!Hmac} `{!Digests}.

(** C10: Every frame that the remote ever hands to the radio, from its start on and whatever it
    receives, is well formed: it parses as a frame of this protocol version with a known
    type and a length within the radio's limit, its header's fields fit their widths, and
    it carries the tag that the pre-shared key given to [init] makes. *)
Theorem sent_frames_well_formed elapse mac (w : W) (s s' : RemoteProtocol * (W * list (bytes * bytes))) :
  length mac = 6%nat -> bytes_ok mac ->
  (forall n (w : W), length (env_fill_random_bytes n w).1 = n) ->
  booted mac (w, []) s -> rtc (remote_step (quiet elapse)) s s' ->
  Forall (fun m => frame_ok (crypto s.1) m.2) s'.2.2.
Proof.
  intros Hl Ho Hn Hb Hs. destruct (booted_ok mac (w, []) s Hl Ho Hb) as [Hok Hw].
  pose proof (logged_world (crypto s.1) Hn) as Hworld.
  destruct (rtc_safe (crypto s.1) (sends_ok (crypto s.1)) (remote_step (quiet elapse)) s s')
    as [_ (sent & E & Hsent)]; [|done|done|].
  - intros t t'. apply remote_step_safe; [exact _|exact _|]. intros w1 w2 [_ E]. by apply sends_none.
  - by rewrite E, Hw.
Qed.
End sent.
