(* ===== verification/RemoteProps.v ===== *)
(** * RemoteProps: what the remote's parts promise

    The queue of announcements refines a bounded queue; the parent chosen among
    the announcements heard is the best one; frames without a valid tag change
    nothing that matters; a relay hands a frame on unchanged; and the count of
    all children, which is always zero. *)
From S2P Require Import Prelude Wire IncrementBuffer FileReceiver OTAFlashHandler FileReceiverInv FileContent OtaReceive Crypto Frames Fragments ReceiverWorld RemoteSession RemoteProtocol RemoteLoop RemoteFrames RemoteInv RemoteSafe.

(** ** The queue of announcements *)
Section queue.
Context {W : Type} `{!RemoteEnv W} `{!Hmac}.
Abbreviation St := (RemoteProtocol * W)%type.

Lemma queue_full p : ring_ok p ->
  (7 <= length (announces p))%nat <->
  (announce_queue_tail_ p + 1) mod Z.of_nat ANNOUNCE_QUEUE_SIZE = announce_queue_head_ p.
Proof.
  intros [_ Hh Ht _ _]. unfold announces, ring_items. rewrite length_fmap, length_zseq.
  revert Hh Ht. generalize (announce_queue_head_ p) (announce_queue_tail_ p). intros h t Hh Ht.
  eight h; eight t; split; intros Hx; vm_compute in Hx |- *; first [done|lia].
Qed.

(** The ring buffer of discover announcements refines a queue of at most seven.
    An announcement to send is appended with the address that asked, the role and the hops
    as given, and refused without effect when seven wait; a flush does nothing while the
    oldest is not due, and otherwise sends the oldest and leaves the rest in order. *)
Theorem announce_queue_fifo p (w : W) sender leaf role hops :
  ring_ok p -> length sender = 6%nat -> length leaf = 6%nat -> bytes_ok leaf ->
  let pushed := send_discover_announce_with_jitter_ sender leaf role hops (p, w) in
  let flushed := flush_pending_discover_announce_ (p, w) in
  (if (7 <=? length (announces p))%nat then pushed = (false, (p, w))
   else pushed.1 = true /\ ring_ok pushed.2.1 /\
     exists e, announces pushed.2.1 = announces p ++ [e] /\ pa_leaf_mac e = leaf /\
       pa_sender_mac e = sender /\ pa_responder_role e = role /\ pa_hops_to_bridge e = hops) /\
  match announces p with
  | [] => flushed = (tt, (p, w))
  | e :: rest =>
    if env_millis w <? pa_deadline_ms e then flushed = (tt, (p, w))
    else ring_ok flushed.2.1 /\ announces flushed.2.1 = rest /\
         flushed.2.2 = if send_fn_set p
                       then (env_send_fn (pa_sender_mac e) (announce_frame p e) w).2 else w
  end.
Proof.
  intros Hr Hs Hl Ho. pose proof (queue_full p Hr) as Hfull. cbv zeta. split.
  - unfold send_discover_announce_with_jitter_. run_steps. rewrite Hs, Hl. cbn [Nat.eqb orb].
    destruct (Nat.leb_spec 7 (length (announces p))) as [H7|H7].
    + by rewrite (proj1 Hfull H7), Z.eqb_refl.
    + destruct (Z.eqb_spec ((announce_queue_tail_ p + 1) mod Z.of_nat ANNOUNCE_QUEUE_SIZE)
                  (announce_queue_head_ p)) as [E|Hne]; [apply Hfull in E; lia|].
      run_steps. destruct (env_esp_random w) as [r w']. run_steps. split; [done|].
      match goal with |- context [<[_ := ?e]>] => set (entry := e) end.
      destruct (push_announce_ok p entry Hr Hne) as [H1 H2].
      { split; [done|]. unfold entry. cbn. by rewrite take_ge by lia. }
      split; [exact H1|]. exists entry. split; [exact H2|].
      unfold entry. cbn. by rewrite !take_ge by lia.
  - unfold flush_pending_discover_announce_. run_steps.
    destruct (Z.eqb_spec (announce_queue_head_ p) (announce_queue_tail_ p)) as [E|Hne].
    + unfold announces. destruct Hr as [_ Hh Ht _ _]. by rewrite (proj2 (ring_empty _ _ _ Hh Ht) E).
    + set (entry := nth _ _ _).
      destruct (pop_announce_ok p (entry <| pa_valid := false |>) Hr Hne) as [H1 H2].
      change (nth (Z.to_nat _) _ _) with entry in H2.
      pose proof (ri_items p Hr) as Hi. rewrite H2 in Hi |- *.
      apply Forall_cons in Hi as [(Hv & _) _]. rewrite Hv. cbn [negb orb].
      destruct (_ <? _); [done|]. unfold when. run_steps.
      destruct (send_fn_set p); run_steps; [|by split_and!].
      destruct (env_send_fn _ _ w) as [ok w']. by split_and!.
Qed.
End queue.

(** ** The choice of the parent *)
Definition better (c best : DiscoverCandidate) : bool :=
  better_candidate (cand_preferred_index c) (cand_hops_to_bridge c) (cand_rssi c) best.

Lemma better_iff c d : cand_valid d = true ->
  better c d = true <->
  cand_preferred_index c < cand_preferred_index d \/
  cand_preferred_index c = cand_preferred_index d /\
    (cand_hops_to_bridge c < cand_hops_to_bridge d \/
     cand_hops_to_bridge c = cand_hops_to_bridge d /\ cand_rssi d < cand_rssi c).
Proof.
  intros Hv. unfold better, better_candidate. rewrite Hv. cbn [negb orb].
  rewrite !orb_true_iff, !andb_true_iff, !orb_true_iff, !andb_true_iff, !Z.ltb_lt, !Z.eqb_eq. tauto.
Qed.

(** [best] is what [l] leaves: it beats all before it and none after it beats it. *)
Definition best_of (l : list DiscoverCandidate) (best : DiscoverCandidate) : Prop :=
  exists l1 l2, l = l1 ++ best :: l2 /\
    Forall (fun d => better best d = true) l1 /\ Forall (fun d => better d best = false) l2.

Definition pick (best c : DiscoverCandidate) : DiscoverCandidate := if better c best then c else best.

Lemma pick_best l b : l <> [] -> cand_valid b = false -> Forall (fun c => cand_valid c = true) l ->
  best_of l (foldl pick b l).
Proof.
  intros Hne Hb Hl. induction l as [|x l IH] using rev_ind; [done|]. clear Hne.
  apply Forall_app in Hl as [Hl Hx]. apply Forall_cons in Hx as [Hx _]. rewrite foldl_app. cbn [foldl].
  destruct (decide (l = [])) as [-> |Hne].
  { exists [], []. cbn. unfold pick, better, better_candidate. by rewrite Hb. }
  destruct (IH Hne Hl) as (l1 & l2 & E & H1 & H2). set (m := foldl pick b l) in *.
  rewrite E in Hl. apply Forall_app in Hl as [Hv1 Hl]. apply Forall_cons in Hl as [Hm Hv2].
  unfold pick. destruct (better x m) eqn:Hxm.
  - exists l, []. split; [done|]. split; [|done]. rewrite E. apply (better_iff x m Hm) in Hxm.
    rewrite Forall_forall in H1, H2, Hv1, Hv2. apply Forall_forall.
    intros d [Hd|[-> |Hd]%elem_of_cons]%elem_of_app.
    + specialize (H1 d Hd). rewrite better_iff in H1 |- * by auto. lia.
    + by apply better_iff.
    + apply better_iff; [by auto|]. destruct (better d m) eqn:Hdm; [by rewrite H2 in Hdm|].
      assert (~ better d m = true) as Hn by congruence. rewrite (better_iff d m Hm) in Hn. lia.
  - exists l1, (l2 ++ [x]). rewrite E, <-(assoc_L (++)). split; [done|]. split; [done|].
    apply Forall_app. split; [done|]. by constructor.
Qed.

Section parent.
Context {W : Type} `{!RemoteEnv W}.
Abbreviation St := (RemoteProtocol * W)%type.

(** One announcement heard: its sender, its content and its signal strength. *)
Abbreviation Heard := (bytes * espnow_discover_announce_t * Z)%type.
Definition heard_candidate (p : RemoteProtocol) (w : W) (a : Heard) : DiscoverCandidate :=
  candidate_of a.1.1 a.1.2 a.2 (default 1 (esp_wifi_get_channel w))
    (preferred_index_of p a.1.1 (announce_responder_mac a.1.2)).

Fixpoint hear (l : list Heard) : M St unit :=
  match l with
  | [] => mret tt
  | a :: l => select_parent_candidate_ a.1.1 a.1.2 a.2;; hear l
  end.

Lemma select_picks p w a : select_parent_candidate_ a.1.1 a.1.2 a.2 (p, w) =
  (tt, (p <| best_parent_ := pick (best_parent_ p) (heard_candidate p w a) |>, w)).
Proof.
  unfold select_parent_candidate_, pick. run_steps.
  change (better (heard_candidate p w a) (best_parent_ p)) with
    (better_candidate (preferred_index_of p a.1.1 (announce_responder_mac a.1.2))
       (announce_hops_to_bridge a.1.2) a.2 (best_parent_ p)).
  destruct (better_candidate _ _ _ _); [done|]. by destruct p.
Qed.

Lemma hear_picks l p w : hear l (p, w) =
  (tt, (p <| best_parent_ := foldl pick (best_parent_ p) (heard_candidate p w <$> l) |>, w)).
Proof.
  revert p. induction l as [|a l IH]; intros p; [by destruct p|]. cbn [hear].
  unfold mbind, M_bind. rewrite select_picks. rewrite IH. by destruct p.
Qed.

(** The parent candidate a discovery ends with is the best announcement heard: first the
    lowest index among the preferred parents, then the fewest hops to the bridge, then
    the strongest signal, and among equals the one heard first; nothing else changes. *)
Theorem parent_is_best p (w : W) l :
  cand_valid (best_parent_ p) = false -> l <> [] ->
  exists best, hear l (p, w) = (tt, (p <| best_parent_ := best |>, w)) /\
    best_of (heard_candidate p w <$> l) best.
Proof.
  intros Hb Hl. rewrite hear_picks. eexists. split; [done|]. apply pick_best; [by destruct l|done|].
  apply Forall_fmap. by apply Forall_true.
Qed.
End parent.

(** ** The count of all children *)
Section children.
Context {W : Type} `{!OtaPlatform W} `{!Digests}.

Lemma reaches_self_false n p next_hop :
  Forall (route_ok (leaf_mac_ p)) (routes_ p) -> next_hop <> leaf_mac_ p ->
  reaches_self n p next_hop = false.
Proof.
  intros Hr. revert next_hop. induction n as [|n IH]; intros next_hop Hn; [done|]. cbn [reaches_self].
  destruct (bytes_eqb next_hop (leaf_mac_ p)) eqn:E; [by apply bytes_eqb_true in E|].
  destruct (find_route_ next_hop p) as [r|] eqn:Ef; [|done]. apply IH.
  apply List.find_some in Ef as [Hin _]. apply list_elem_of_In in Hin.
  by apply (proj1 (Forall_forall _ _) Hr) in Hin as [_ ?].
Qed.

(** In every state that keeps the invariant, so in every reachable one,
    [total_children_count_] answers 0, however many routes the relay has learned: no route
    names the node itself as next hop, which is what the count looks for. *)
Theorem total_children_always_zero c p : remote_ok (W := W) c p -> total_children_count_ p = 0.
Proof.
  intros Hp. pose proof (ro_routes c p Hp) as Hr. unfold total_children_count_.
  destruct (negb _); [done|].
  assert (filter (fun r => bytes_eqb (route_leaf_mac r) (leaf_mac_ p) = false /\
         reaches_self (S (length (routes_ p))) p (route_leaf_mac r) = true) (routes_ p) = []) as ->;
    [|done].
  apply elem_of_nil_inv. intros r [[_ Ht] Hin]%list_elem_of_filter.
  rewrite reaches_self_false in Ht; [done|done|]. by apply (proj1 (Forall_forall _ _) Hr) in Hin as [? _].
Qed.
End children.

(** ** Frames without a valid tag *)
Section forged.
Context {W : Type} `{!RemoteEnv W} `{!OtaPlatform W} `{!Hmac} `{!Digests}.
Abbreviation St := (RemoteProtocol * W)%type.

Lemma undecryptable_inert sender f rssi p (w : W) :
  is_encrypted_packet (packet_type (pf_header f)) = true ->
  decrypt_ p (pf_header f) (pf_payload f) (pf_session_tag f) = None ->
  handle_locally sender f rssi (p, w) = (false, (p, w)).
Proof.
  unfold is_encrypted_packet. intros He Hd. unfold handle_locally.
  destruct (packet_type_of _) as [[]|]; try done;
    unfold handle_ack_, handle_command_, handle_config_, handle_schema_request_,
      handle_file_transfer_, handle_file_data_; run_steps; rewrite Hd;
    repeat match goal with |- context [if ?b then _ else _] => destruct b end; done.
Qed.

(** What the remote keeps of every admitted frame, whatever becomes of it. *)
Definition noticed (p p' : RemoteProtocol) : Prop :=
  p' = p <| last_parent_mac := last_parent_mac p' |>
         <| parent_link_rssi_ema_ := parent_link_rssi_ema_ p' |>
         <| hops_to_bridge_ := hops_to_bridge_ p' |> /\
  hops_to_bridge_ p' <= hops_to_bridge_ p.

Lemma noticed_decrypt p p' h payload tag :
  noticed p p' -> decrypt_ p' h payload tag = decrypt_ p h payload tag.
Proof. intros [-> _]. done. Qed.

Definition note_sender (sender : bytes) (rssi : Z) (h : espnow_frame_header_t) (parent : bytes)
    (p : RemoteProtocol) : RemoteProtocol :=
  update_rssi sender rssi
    (if has_parent_check (hop_count h) then p <| last_parent_mac := parent |> else p).

Lemma note_noticed sender rssi h parent p :
  noticed p (note_sender sender rssi h parent p) /\
  noticed p (observe_hops h (note_sender sender rssi h parent p)).
Proof.
  unfold note_sender, update_rssi, observe_hops, noticed. destruct p. cbv zeta.
  repeat match goal with |- context [if ?b then _ else _] => destruct b eqn:? end; zprop;
    (split; (split; [reflexivity|cbn in *; lia])).
Qed.

Lemma note_sender_runs sender rssi f p (w : W) :
  (when (has_parent_check (hop_count (pf_header f)))
     (update (fun p => p <| last_parent_mac := pf_parent_mac f |>));;
   update (update_rssi sender rssi)) (p, w) =
  (tt, (note_sender sender rssi (pf_header f) (pf_parent_mac f) p, w)).
Proof. unfold note_sender. by destruct (has_parent_check _). Qed.

(** The frame once it is admitted. *)
Lemma admitted_frame_runs sender data rssi f p (w : W) :
  admit_frame p data = Some f ->
  let h := pf_header f in
  let p1 := note_sender sender rssi h (pf_parent_mac f) p in
  on_espnow_frame sender data rssi (p, w) =
  (if is_encrypted_packet (packet_type h) && (session_max_payload_ p <? Z.of_nat (length data))
   then mret false
   else if should_handle_locally_ p h then
     update (observe_hops h);;
     if is_file_packet (packet_type h) && negb (ota_over_espnow_ p) then mret false
     else handle_locally sender f rssi
   else if negb (can_relay_ p) then mret false
   else if ESPNOW_HOPS_IS_UPSTREAM (hop_count h)
   then handle_upstream_ sender h (pf_payload f) (pf_session_tag f)
   else handle_downstream_ h (pf_payload f) (pf_session_tag f)) (p1, w).
Proof.
  intros Ha. cbv zeta. pose proof (note_sender_runs sender rssi f p w) as Hn.
  unfold on_espnow_frame, note_sender, mbind, M_bind, this, gets in *. cbn [fst snd]. rewrite Ha.
  by destruct (has_parent_check _).
Qed.

End forged.

(** ** Relaying *)
Section relay.
Context {W : Type} `{!RemoteEnv W} `{!OtaPlatform W} `{!Hmac} `{!Digests}.
Abbreviation St := (RemoteProtocol * W)%type.

(** A relay's copy of a frame: only the hop byte and the parent's address differ. *)
Definition relay_copy (h : espnow_frame_header_t) (payload tag : bytes) (delta : Z) : bytes :=
  frame_parts (h <| hop_count := forwarded_hops (hop_count h) delta |>)
    (if has_parent_check (hop_count h) then replicate 6 0 else []) payload tag.

Lemma find_refreshed leaf f l :
  (forall r, route_leaf_mac (f r) = route_leaf_mac r) ->
  List.find (fun r => bytes_eqb (route_leaf_mac r) leaf) (update_route leaf f l) =
  f <$> List.find (fun r => bytes_eqb (route_leaf_mac r) leaf) l.
Proof.
  intros Hf. induction l as [|r l IH]; [done|]. cbn. destruct (bytes_eqb (route_leaf_mac r) leaf) eqn:E.
  - cbn. by rewrite Hf, E.
  - cbn. by rewrite E.
Qed.
Lemma find_appended leaf r l :
  List.find (fun r => bytes_eqb (route_leaf_mac r) leaf) l = None -> route_leaf_mac r = leaf ->
  List.find (fun r => bytes_eqb (route_leaf_mac r) leaf) (l ++ [r]) = Some r.
Proof.
  intros Hn Hr. induction l as [|x l IH]; cbn in *; [by rewrite Hr, bytes_eqb_refl|].
  by destruct (bytes_eqb (route_leaf_mac x) leaf); [|apply IH].
Qed.

(** The routes after [refresh_route_]; nothing else moves. *)
Lemma refresh_route_runs leaf next_hop p (w : W) :
  exists routes ok, refresh_route_ leaf next_hop (p, w) = (ok, (p <| routes_ := routes |>, w)) /\
    (length leaf = 6%nat -> length next_hop = 6%nat -> leaf <> leaf_mac_ p -> next_hop <> leaf_mac_ p ->
     route_next_hop_mac <$> List.find (fun r => bytes_eqb (route_leaf_mac r) leaf) routes = Some next_hop).
Proof.
  unfold refresh_route_. run_steps. destruct (_ || _) eqn:E0.
  { exists (routes_ p), false. split; [by destruct p|]. intros H1 H2. by rewrite H1, H2 in E0. }
  destruct (bytes_eqb leaf (leaf_mac_ p)) eqn:E1.
  { exists (routes_ p), false. split; [by destruct p|]. apply bytes_eqb_true in E1. done. }
  destruct (bytes_eqb next_hop (leaf_mac_ p)) eqn:E2.
  { exists (routes_ p), false. split; [by destruct p|]. apply bytes_eqb_true in E2. done. }
  run_steps. eexists _, true. split; [reflexivity|]. intros _ _ _ _. fold (find_route_ leaf p).
  destruct (find_route_ leaf p) as [r|] eqn:Ef.
  - rewrite find_refreshed by done. unfold find_route_ in Ef. by rewrite Ef.
  - rewrite (find_appended leaf); done.
Qed.

Lemma forward_frame_runs mac h payload tag delta p (w : W) :
  send_fn_set p = true -> length mac = 6%nat ->
  let r := env_send_fn mac (forwarded_frame p h payload tag delta) w in
  exists t, forward_frame_ mac h payload tag delta (p, w) =
    (r.1, (p <| last_successful_outbound_ms_ := t |>, r.2)).
Proof.
  intros Hs Hl. unfold forward_frame_. run_steps. rewrite Hs, Hl. cbn [Nat.eqb negb orb]. run_steps.
  destruct (env_send_fn mac _ w) as [ok w']. cbn [fst snd]. destruct ok; run_steps.
  - by eexists.
  - exists (last_successful_outbound_ms_ p). by destruct p.
Qed.

Lemma forwarded_copy p data f delta :
  bytes_ok data -> parse_frame_ data = Some f -> validate_psk_ p (pf_header f) (pf_payload f) = true ->
  delta = 0 \/ delta = 1 ->
  exists parent tag, data = frame_parts (pf_header f) parent (pf_payload f) tag /\
    forwarded_frame p (pf_header f) (pf_payload f) (pf_session_tag f) delta =
    relay_copy (pf_header f) (pf_payload f) tag delta.
Proof.
  intros Hd Hp Hv Hdelta.
  destruct (forwarded_is_relayed p data f delta Hd Hp Hv Hdelta) as (parent & tag & E & Hok & _ & ->).
  exists parent, tag. split; [exact E|]. destruct Hok as [Hh _ _ _ _ _].
  assert (0 <= hop_count (pf_header f) < 256) as Hhop by (cbn in Hh; naive_solver).
  pose proof (forwarded_hops_range _ delta Hhop Hdelta). unfold relay_copy, frame_parts. cbn [app].
  rewrite relayed_header by done. by rewrite (proj1 (forwarded_hops_spec _ delta Hhop Hdelta)).
Qed.

(** Where a relay sends a frame. *)
Definition relay_target (p : RemoteProtocol) (h : espnow_frame_header_t) : option bytes :=
  if ESPNOW_HOPS_IS_UPSTREAM (hop_count h) then Some (parent_mac_ p)
  else route_next_hop_mac <$> find_route_ (leaf_mac h) p.

Lemma forward_packet_runs p h payload tag target (w : W) :
  parent_valid_ p = true -> send_fn_set p = true -> relay_target p h = Some target ->
  length target = 6%nat ->
  let delta := if ESPNOW_HOPS_IS_UPSTREAM (hop_count h) then 0 else 1 in
  let r := env_send_fn target (forwarded_frame p h payload tag delta) w in
  exists routes t, forward_packet_ h payload tag (p, w) =
    (r.1, (p <| routes_ := routes |> <| last_successful_outbound_ms_ := t |>, r.2)) /\
    (ESPNOW_HOPS_IS_UPSTREAM (hop_count h) = true -> routes = routes_ p).
Proof.
  intros Hv Hs Ht Hl. unfold forward_packet_, relay_target in *. run_steps.
  destruct (ESPNOW_HOPS_IS_UPSTREAM (hop_count h)).
  - apply (inj Some) in Ht. subst target. rewrite Hv. cbn [negb].
    destruct (forward_frame_runs (parent_mac_ p) h payload tag 0 p w Hs Hl) as (t & E).
    exists (routes_ p), t. split; [|done]. rewrite E. by destruct p.
  - destruct (find_route_ (leaf_mac h) p) as [route|]; [|done]. apply (inj Some) in Ht. subst target.
    destruct (refresh_route_runs (leaf_mac h) (route_next_hop_mac route) p w) as (routes & ok & E & _).
    unfold mbind, M_bind. rewrite E. exists routes.
    destruct (forward_frame_runs (route_next_hop_mac route) h payload tag 1 (p <| routes_ := routes |>) w)
      as (t & Et); [done|done|]. exists t. by rewrite Et.
Qed.

Lemma find_next_marked leaf l :
  route_next_hop_mac <$> List.find (fun r => bytes_eqb (route_leaf_mac r) leaf)
    (update_route leaf (fun r => r <| route_has_logged := true |>) l) =
  route_next_hop_mac <$> List.find (fun r => bytes_eqb (route_leaf_mac r) leaf) l.
Proof. rewrite find_refreshed by done. by destruct (List.find _ l). Qed.

Lemma upstream_runs sender h payload tag p (w : W) :
  parent_valid_ p = true -> send_fn_set p = true -> length sender = 6%nat ->
  ESPNOW_HOPS_IS_UPSTREAM (hop_count h) = true -> length (parent_mac_ p) = 6%nat ->
  let r := env_send_fn (parent_mac_ p) (forwarded_frame p h payload tag 0) w in
  exists routes t, handle_upstream_ sender h payload tag (p, w) =
    (r.1, (p <| routes_ := routes |> <| last_successful_outbound_ms_ := t |>, r.2)) /\
    (length (leaf_mac h) = 6%nat -> leaf_mac h <> leaf_mac_ p -> sender <> leaf_mac_ p ->
     route_next_hop_mac <$> List.find (fun r => bytes_eqb (route_leaf_mac r) (leaf_mac h)) routes = Some sender).
Proof.
  intros Hv Hs Hl Hup Hpl. unfold handle_upstream_. run_steps. rewrite Hv, Hl. cbn [Nat.eqb negb orb].
  destruct (refresh_route_runs (leaf_mac h) sender p w) as (routes & ok & E & Hr).
  unfold mbind, M_bind. rewrite E.
  assert (exists routes', when (bool_decide (packet_type_of (packet_type h) = Some PKT_JOIN)
          || bool_decide (packet_type_of (packet_type h) = Some PKT_HEARTBEAT))
      (update (fun p => p <| routes_ ::= update_route (leaf_mac h)
                               (fun r => r <| route_has_logged := true |>) |>)) (p <| routes_ := routes |>, w) =
      (tt, (p <| routes_ := routes' |>, w)) /\
      route_next_hop_mac <$> List.find (fun r => bytes_eqb (route_leaf_mac r) (leaf_mac h)) routes' =
      route_next_hop_mac <$> List.find (fun r => bytes_eqb (route_leaf_mac r) (leaf_mac h)) routes)
    as (routes' & E2 & Hr2).
  { destruct (_ || _); [|by exists routes]. eexists. split; [reflexivity|]. apply find_next_marked. }
  unfold update, modify in E2. rewrite E2.
  destruct (forward_packet_runs (p <| routes_ := routes' |>) h payload tag (parent_mac_ p) w)
    as (routes'' & t & E3 & Hr3); [done|done| |done|].
  { unfold relay_target. by rewrite Hup. }
  rewrite Hup in E3. exists routes', t. rewrite E3. rewrite (Hr3 Hup).
  split; [done|]. intros Hll H1 H2. rewrite Hr2. by apply Hr.
Qed.

(** C12: A relay hands on every admitted frame of another node, unchanged but for the hop byte and
    the parent's address: towards the bridge it goes to the parent with the same hop byte, away
    from it to the next hop of the leaf's route with one hop more; both tags stay what they
    were, so relays need no session key.  A frame towards the bridge also teaches the route
    to its leaf by way of the node it came from. *)
Theorem relay_forwards_unchanged c sender data rssi f p (w : W) target :
  remote_ok (W := W) c p -> bytes_ok data -> admit_frame p data = Some f ->
  should_handle_locally_ p (pf_header f) = false -> can_relay_ p = true -> send_fn_set p = true ->
  Z.of_nat (length data) <= session_max_payload_ p ->
  length sender = 6%nat -> sender <> leaf_mac_ p ->
  relay_target p (pf_header f) = Some target -> length target = 6%nat ->
  let h := pf_header f in
  let up := ESPNOW_HOPS_IS_UPSTREAM (hop_count h) in
  let delta := if up then 0 else 1 in
  exists parent tag p', data = frame_parts h parent (pf_payload f) tag /\
    let r := env_send_fn target (relay_copy h (pf_payload f) tag delta) w in
    on_espnow_frame sender data rssi (p, w) = (r.1, (p', r.2)) /\
    ESPNOW_HOPS_COUNT (forwarded_hops (hop_count h) delta) = (ESPNOW_HOPS_COUNT (hop_count h) + delta) mod 16 /\
    (up = true -> route_next_hop_mac <$> find_route_ (leaf_mac h) p' = Some sender).
Proof.
  intros Hp Hd Ha Hlocal Hrelay Hs Hlen Hsl Hsn Ht Htl h up delta.
  destruct (admit_frame_ok c p data f Hp Hd Ha) as ((_ & Hf & Hv) & _ & Hll & _).
  assert (delta = 0 \/ delta = 1) as Hdelta by (subst delta; destruct up; auto).
  destruct (forwarded_copy p data f delta Hd Hf (Hv p (ro_crypto c p Hp)) Hdelta) as (parent & tag & E & Ecopy).
  exists parent, tag. rewrite (admitted_frame_runs sender data rssi f p w Ha). fold h in E, Ecopy |- *.
  destruct (ro_relay c p Hp Hrelay) as (_ & _ & Hpv & _).
  destruct (note_noticed sender rssi h (pf_parent_mac f) p) as [[En _] _].
  set (p1 := note_sender _ _ _ _ _) in *. fold h in Hlocal. rewrite Hlocal, Hrelay.
  rewrite (proj2 (Z.ltb_ge _ _)), andb_false_r by done. cbn [negb].
  assert (leaf_mac h <> leaf_mac_ p) as Hnl.
  { intros El. unfold should_handle_locally_ in Hlocal. by rewrite El, bytes_eqb_refl in Hlocal. }
  assert (0 <= hop_count h < 256) as Hhop.
  { destruct (parse_frame_parts data f Hd Hf) as (? & ? & _ & [Hh _ _ _ _ _] & _).
    cbn in Hh. naive_solver. }
  pose proof (proj2 (proj2 (forwarded_hops_spec _ delta Hhop Hdelta))) as Hcount.
  unfold relay_target in Ht. fold h up in Ht. fold up. rewrite En. subst delta. destruct up eqn:Hup.
  - apply (inj Some) in Ht. subst target.
    match goal with |- context [handle_upstream_ _ _ _ _ (?q, _)] =>
      destruct (upstream_runs sender h (pf_payload f) (pf_session_tag f) q w) as (routes & t & Er & Hr);
        [done..|] end.
    eexists. split; [exact E|]. rewrite Er. split; [by rewrite <-Ecopy|]. split; [done|].
    intros _. by apply Hr.
  - match goal with |- context [handle_downstream_ _ _ _ (?q, _)] =>
      assert (handle_downstream_ h (pf_payload f) (pf_session_tag f) (q, w) =
              forward_packet_ h (pf_payload f) (pf_session_tag f) (q, w)) as ->;
      [|destruct (forward_packet_runs q h (pf_payload f) (pf_session_tag f) target w) as (routes & t & Er & _)] end.
    + unfold handle_downstream_. run_steps.
      match goal with |- context [should_handle_locally_ ?q h] =>
        change (should_handle_locally_ q h) with (should_handle_locally_ p h) end. by rewrite Hlocal.
    + done.
    + done.
    + unfold relay_target. fold up. by rewrite Hup.
    + done.
    + fold up in Er. rewrite Hup in Er. eexists. split; [exact E|]. rewrite Er.
      split; [by rewrite <-Ecopy|]. by split.
Qed.
End relay.
