(* ===== verification/RemoteConfig.v ===== *)
(** * RemoteConfig: CONFIG frames and their repetition

    What a transmission changes of the remote's state, and from it that a
    configuration is carried out at most once, and not at all when the radio
    refused its acknowledgement. *)
From S2P Require Import Prelude Wire IncrementBuffer FileReceiver OTAFlashHandler FileReceiverInv FileContent OtaReceive Crypto Frames Fragments ReceiverWorld RemoteSession RemoteProtocol RemoteLoop RemoteFrames RemoteInv RemoteSafe.

(** ** What a transmission changes of the state *)
Section sent_only.
Context {W : Type} `{!RemoteEnv W} `{!OtaPlatform W} `{!Hmac} `{!Digests}.
Abbreviation St := (RemoteProtocol * W)%type.

(** Only the counter, the table of outstanding requests and the statistics move. *)
Definition sent_only (s s' : St) : Prop :=
  s'.1 = s.1 <| tx_counter_ := tx_counter_ s'.1 |> <| last_tx_ms_ := last_tx_ms_ s'.1 |>
    <| last_successful_outbound_ms_ := last_successful_outbound_ms_ s'.1 |>
    <| consecutive_send_failures_ := consecutive_send_failures_ s'.1 |>
    <| outstanding_requests_ := outstanding_requests_ s'.1 |>
    <| outstanding_count_ := outstanding_count_ s'.1 |>.
#[export] Instance sent_only_preorder : PreOrder sent_only.
Proof.
  split; unfold sent_only; [by intros [[] w]|]. intros [p1 w1] [p2 w2] [p3 w3]. cbn [fst snd].
  intros -> H23. rewrite H23. reflexivity.
Qed.

Lemma sent_update f : (forall p w, sent_only (p, w) (f p, w)) -> keeps sent_only (update f).
Proof. intros Hf [p w]. apply Hf. Qed.
Lemma sent_ask {A} (f : W -> A * W) : keeps sent_only (ask f).
Proof. intros [p w]. unfold ask. cbn. destruct (f w) as [a w']. unfold sent_only. by destruct p. Qed.
Ltac sent_step :=
  lazymatch goal with
  | |- keeps _ (ask _) => apply sent_ask
  | |- keeps _ this => apply keeps_gets; exact _
  | |- keeps _ millis => apply keeps_gets; exact _
  | |- keeps _ (update _) => apply sent_update; intros q w; unfold sent_only; cbn [fst snd];
      repeat match goal with |- context [if ?b then _ else _] => destruct b end; by destruct q
  end.
Ltac sent_go := keeps_go ltac:(idtac; sent_step).

Lemma sent_send_frame mac t h tx payload e pre : keeps sent_only (send_frame_ mac t h tx payload e pre).
Proof. unfold send_frame_. sent_go. Qed.
Lemma sent_send_noted t tx plaintext : keeps sent_only (send_noted t tx plaintext).
Proof.
  unfold send_noted. sent_go; [|apply sent_send_frame].
  apply sent_update. intros q w. unfold sent_only, update_outstanding_request_. cbn [fst snd].
  repeat match goal with |- context [if ?b then _ else _] => destruct b end; by destruct q.
Qed.
(** A counter chosen by the caller leaves [tx_counter_] alone. *)
Definition same_tx (s s' : St) : Prop := tx_counter_ s'.1 = tx_counter_ s.1.
#[local] Instance same_tx_preorder : PreOrder same_tx.
Proof. split; unfold same_tx; [by intros s|]. intros s1 s2 s3 H12 H23. congruence. Qed.
Lemma tx_send_noted t tx plaintext : keeps same_tx (send_noted t tx plaintext).
Proof.
  unfold send_noted, send_frame_. keeps_go ltac:(idtac; lazymatch goal with
  | |- keeps _ (ask ?f) => intros s; unfold ask, same_tx; by destruct (f s.2)
  | |- keeps _ (update _) => intros s; unfold same_tx, update_outstanding_request_; cbn;
      repeat match goal with |- context [if ?b then _ else _] => destruct b end; reflexivity
  | |- keeps _ this => by intros s
  | |- keeps _ millis => by intros s
  end).
Qed.
Lemma sent_send_ack payload tx : keeps sent_only (send_ack_ payload tx).
Proof. unfold send_ack_, next_tx_counter. sent_go. apply sent_send_noted. Qed.
Lemma sent_send_config_ack command result tx : keeps sent_only (send_config_ack_ command result tx).
Proof. unfold send_config_ack_. sent_go. apply sent_send_ack. Qed.
Lemma sent_send_command_ack i result tx : keeps sent_only (send_command_ack_ i result tx).
Proof. unfold send_command_ack_, next_tx_counter. sent_go. apply sent_send_noted. Qed.
End sent_only.

(** ** A configuration is applied once *)
Section config.
Context {W : Type} `{!RemoteEnv W} `{!OtaPlatform W} `{!Hmac} `{!Digests}.
Abbreviation St := (RemoteProtocol * W)%type.

(** What decides how a CONFIG frame is answered. *)
Definition config_view (p : RemoteProtocol) :=
  (crypto p, session_key_ p, session_key_valid_ p, joined_ p,
   (last_config_tx_counter_ p, last_config_command_ p, last_config_result_ p, last_config_valid_ p)).
Definition same_config (s s' : St) : Prop := config_view s'.1 = config_view s.1.
#[local] Instance same_config_preorder : PreOrder same_config.
Proof. split; unfold same_config; [by intros s|]. intros s1 s2 s3 H12 H23. by rewrite H23. Qed.

Lemma config_update f : (forall p, config_view (f p) = config_view p) -> keeps same_config (update f).
Proof. intros Hf s. apply Hf. Qed.
Lemma config_env (f : W -> W) : keeps same_config (env f).
Proof. by intros s. Qed.
Lemma config_ask {A} (f : W -> A * W) : keeps same_config (ask f).
Proof. intros s. unfold ask. by destruct (f s.2). Qed.
Lemma config_get {A} (f : St -> A) : keeps same_config (gets f).
Proof. by intros s. Qed.
Ltac config_step :=
  lazymatch goal with
  | |- keeps _ (env _) => apply config_env
  | |- keeps _ (ask _) => apply config_ask
  | |- keeps _ this => apply config_get
  | |- keeps _ millis => apply config_get
  | |- keeps _ (update _) => apply config_update; intros ?; unfold config_view; cbn;
      repeat match goal with |- context [if ?b then _ else _] => destruct b end; reflexivity
  end.

Lemma config_send_config_ack command result tx : keeps same_config (send_config_ack_ command result tx).
Proof. intros s. unfold same_config. by rewrite (sent_send_config_ack command result tx s). Qed.

(** The session is gone, or nothing of the view moved. *)
Definition left_or_same (s s' : St) : Prop := joined_ s'.1 = false \/ same_config s s'.
#[local] Instance left_or_same_preorder : PreOrder left_or_same.
Proof.
  split; [intros s; by right|]. intros s1 s2 s3 [H1|H1] [H2|H2]; [by left| |by left|right; by etrans].
  left. unfold same_config, config_view in H2. congruence.
Qed.
Lemma left_same {A} (m : M St A) : keeps same_config m -> keeps left_or_same m.
Proof. intros Hm s. right. apply Hm. Qed.
Ltac left_go := keeps_go ltac:(apply left_same; config_step).

Lemma left_clear b1 b2 : keeps left_or_same (clear_session_state_ b1 b2).
Proof.
  intros s. left. unfold clear_session_state_, mbind, M_bind, this, gets.
  destruct (when (is_receiving _) _ s) as [u s1]. by destruct b1, b2.
Qed.
Lemma left_full_rediscovery : keeps left_or_same start_config_full_rediscovery_.
Proof.
  unfold start_config_full_rediscovery_, new_remote_nonce, set_wifi_channel_with_recovery.
  left_go. apply left_clear.
Qed.
Lemma left_route_recovery : keeps left_or_same start_route_recovery_cycle_.
Proof. unfold start_route_recovery_cycle_. left_go. Qed.

(** What an answered CONFIG frame leaves behind. *)
Definition remembered (p : RemoteProtocol) (tx : Z) (s : St) : Prop :=
  joined_ s.1 = false \/
  ((crypto s.1, session_key_ s.1, session_key_valid_ s.1, joined_ s.1) =
   (crypto p, session_key_ p, session_key_valid_ p, joined_ p) /\
   last_config_tx_counter_ s.1 = tx /\ last_config_valid_ s.1 = true).

Lemma remembered_step p tx s s' : left_or_same s s' -> remembered p tx s -> remembered p tx s'.
Proof.
  intros [Hj|Hv] Hr; [by left|]. unfold same_config, config_view in Hv. unfold remembered in *.
  injection Hv as -> -> -> -> -> _ _ ->. done.
Qed.

Lemma wp_ack_and_remember h command result p (s : St) :
  (crypto s.1, session_key_ s.1, session_key_valid_ s.1, joined_ s.1) =
  (crypto p, session_key_ p, session_key_valid_ p, joined_ p) ->
  wp (ack_and_remember h command result) (fun _ => remembered p (tx_counter h)) s.
Proof.
  intros Hs. unfold ack_and_remember. apply wp_bind. unfold wp at 1. run_steps.
  match goal with |- wp _ _ ?s0 => set (s1 := s0) end.
  apply (remembered_step p _ s1); [right; apply config_send_config_ack|]. right. by split_and!.
Qed.

Lemma wp_config_ok h command effect p (s : St) :
  keeps left_or_same effect ->
  (crypto s.1, session_key_ s.1, session_key_valid_ s.1, joined_ s.1) =
  (crypto p, session_key_ p, session_key_valid_ p, joined_ p) ->
  wp (config_ok h command effect) (fun _ => remembered p (tx_counter h)) s.
Proof.
  intros He Hs. unfold config_ok. apply wp_bind.
  eapply wp_mono; [by apply (wp_ack_and_remember h command _ p)|]. intros sent s1 H1. cbn beta.
  destruct (negb sent); [by apply wp_ret|]. apply wp_bind. unfold wp at 1.
  apply wp_ret. eapply remembered_step; [apply He|done].
Qed.

Lemma wp_run_config h command payload p (s : St) :
  (crypto s.1, session_key_ s.1, session_key_valid_ s.1, joined_ s.1) =
  (crypto p, session_key_ p, session_key_valid_ p, joined_ p) ->
  wp (run_config h command payload) (fun _ => remembered p (tx_counter h)) s.
Proof.
  intros Hs. unfold run_config. cbv zeta.
  repeat (apply wp_if; intros ?); try (by apply wp_ack_and_remember); apply wp_config_ok; try done.
  all: unfold prefer_parent, set_relay_enabled_runtime; try solve [left_go].
  - apply left_full_rediscovery.
  - left_go. apply left_route_recovery.
Qed.

(** The repetition of the frame answered last. *)
Lemma config_repeat h payload tag plaintext (s : St) :
  joined_ s.1 = true -> decrypt_ s.1 h payload tag = Some plaintext ->
  last_config_valid_ s.1 = true -> last_config_tx_counter_ s.1 = tx_counter h ->
  handle_config_ h payload tag s =
  send_config_ack_ (last_config_command_ s.1) (last_config_result_ s.1) (tx_counter h) s.
Proof. intros Hj Hd Hv Ht. unfold handle_config_. run_steps. by rewrite Hj, Hd, Hv, Ht, Z.eqb_refl. Qed.


(** A radio that refuses every frame. *)
Section radio_off.
Hypothesis radio_off : forall mac frame (w : W), (env_send_fn mac frame w).1 = false.

Lemma off_send_frame mac t h tx payload e pre (s : St) :
  wp (send_frame_ mac t h tx payload e pre) (fun sent _ => sent = false) s.
Proof.
  unfold wp, send_frame_. run_steps. destruct (negb _ || _); [done|]. destruct (e && _); [done|].
  destruct (build_frame _ _ _ _ _ _ _) as [frame|]; [|done]. run_steps.
  pose proof (radio_off mac frame s.2) as Hoff. by destruct (env_send_fn mac frame s.2).
Qed.
Lemma off_send_config_ack command result tx (s : St) :
  wp (send_config_ack_ command result tx) (fun sent _ => sent = false) s.
Proof.
  unfold send_config_ack_, send_ack_, send_noted, next_tx_counter, this, update. wp_go; try done.
  eapply wp_mono; [apply off_send_frame|]. intros sent s' ->. cbn beta. by wp_go.
Qed.
End radio_off.

End config.
