(* ===== verification/RemoteSending.v ===== *)
(** * RemoteSending: the frames a state change becomes

    [send_state_] in the world with a log of transmissions (RemoteRun): when it
    succeeds, the frames it has sent are the pieces of the value, each under its
    own counter, encrypted with the session key. *)
From S2P Require Import Prelude Wire IncrementBuffer FileReceiver OTAFlashHandler FileReceiverInv FileContent OtaReceive Crypto Frames Fragments ReceiverWorld RemoteSession RemoteProtocol RemoteLoop RemoteFrames RemoteInv RemoteSafe RemoteRun RemoteConfig.

Section sending.
Context {W : Type} `{!RemoteEnv W} `{!OtaPlatform W} `{!Hmac} `{!Digests}.
Abbreviation Logged := (W * list (bytes * bytes))%type.
Abbreviation St := (RemoteProtocol * Logged)%type.

(** The frame of [send_noted]. *)
Definition noted_frame (p : RemoteProtocol) (t : espnow_packet_type_t) (tx : Z) (plaintext : bytes)
    : option bytes :=
  build_frame p (packet_type_code t) (upstream_hops p) tx plaintext true None.

Lemma send_frame_logged mac t h tx payload e (s s' : St) :
  send_frame_ mac t h tx payload e None s = (true, s') ->
  exists frame, build_frame s.1 (packet_type_code t) h tx payload e None = Some frame /\
    s'.2.2 = s.2.2 ++ [(mac, frame)].
Proof.
  unfold send_frame_. run_steps. destruct (negb _ || _); [done|]. destruct (e && _); [done|].
  destruct (build_frame _ _ _ _ _ _ _) as [frame|]; [|done]. run_steps.
  intros E. exists frame. split; [done|]. revert E. cbn [env_send_fn logged_env].
  destruct (env_send_fn mac frame s.2.1) as [ok w']. by intros [= -> <-].
Qed.

Lemma send_noted_logged t tx plaintext (s s' : St) :
  send_noted t tx plaintext s = (Some true, s') ->
  exists frame, noted_frame s.1 t tx plaintext = Some frame /\
    s'.2.2 = s.2.2 ++ [(parent_mac_ s.1, frame)].
Proof.
  unfold send_noted. run_steps. destruct (espnow_crypto_crypt _ _ _ _) as [ct|]; [|done]. run_steps.
  set (s1 := (update_outstanding_request_ _ _ _ _ _, _)).
  destruct (send_frame_ _ _ _ _ _ _ _ s1) as [sent s2] eqn:E. intros [= -> ->].
  apply send_frame_logged in E as (frame & Hb & El). exists frame. split; [|exact El].
  unfold noted_frame. rewrite <-Hb. subst s1. cbn [fst].
  unfold update_outstanding_request_. repeat match goal with |- context [if ?b then _ else _] => destruct b end; done.
Qed.

(** Piece [j] of the message that starts under the counter [base]. *)
Definition state_piece (p : RemoteProtocol) (field : Z) (payload : bytes) (base : Z) (j : nat)
    : option bytes :=
  let frag := max_entity_fragment_ p in
  let chunks := chunk_count frag payload in
  noted_frame p PKT_STATE (u32 (base + Z.of_nat j))
    (append_entity_payload field (state_flags (entity_records_ p) field chunks j)
       (u8 (Z.of_nat j)) (u8 chunks) (fragment_value frag payload j)).

Lemma piece_same (s s' : St) field payload base j :
  sent_only s s' -> state_piece s'.1 field payload base j = state_piece s.1 field payload base j.
Proof. unfold sent_only. intros ->. done. Qed.

Lemma state_loop_logged fuel k field payload base mb b (s s' : St) :
  tx_counter_ s.1 = u32 (base + Z.of_nat k) ->
  send_state_loop fuel k field payload (max_entity_fragment_ s.1)
    (chunk_count (max_entity_fragment_ s.1) payload) mb s = (Some b, s') ->
  sent_only s s' /\ (k <> O -> b = mb) /\ (k = O -> (0 < fuel)%nat -> b = u32 base) /\
  exists frames, Forall2 (fun j frame => state_piece s.1 field payload base j = Some frame)
    (seq k fuel) frames /\ s'.2.2 = s.2.2 ++ ((parent_mac_ s.1,.) <$> frames).
Proof.
  revert k mb s. induction fuel as [|fuel IH]; intros k mb s Htx; cbn [send_state_loop seq].
  { intros [= -> ->]. split; [reflexivity|]. split; [done|]. split; [lia|]. exists []. by rewrite app_nil_r. }
  unfold next_tx_counter. run_steps. set (s1 := (_, s.2)).
  assert (sent_only s s1) as H1 by (by destruct s as [[] w]).
  destruct (send_noted _ _ _ s1) as [res s2] eqn:E.
  match type of E with send_noted ?t ?tx ?x _ = _ =>
    pose proof (sent_send_noted t tx x s1) as H2; pose proof (tx_send_noted t tx x s1) as H3 end.
  rewrite E in H2, H3. cbn [snd] in H2, H3.
  destruct res as [[|]|]; [|done..]. apply send_noted_logged in E as (frame & Ef & El).
  intros Hrun. assert (sent_only s s2) as H4 by (transitivity s1; [exact H1|exact H2]).
  assert (max_entity_fragment_ s2.1 = max_entity_fragment_ s.1 /\ parent_mac_ s2.1 = parent_mac_ s.1)
    as [Hfrag Hpar] by (unfold sent_only in H4; by rewrite H4).
  destruct (IH (S k) (if (k =? 0)%nat then tx_counter_ s.1 else mb) s2) as (H5 & Hb & _ & frames & Hf & Hl);
    [|by rewrite Hfrag|].
  { unfold same_tx in H3. rewrite H3. change (tx_counter_ s1.1) with (u32 (tx_counter_ s.1 + 1)).
    rewrite Htx. unfold u32. rewrite Zplus_mod_idemp_l. f_equal. lia. }
  split; [transitivity s2; [exact H4|exact H5]|]. specialize (Hb ltac:(lia)).
  split; [intros Hk; rewrite Hb; by destruct k|].
  split; [intros -> _; rewrite Hb, Htx; cbn; f_equal; lia|].
  exists (frame :: frames). split.
  - constructor; [|eapply Forall2_impl; [exact Hf|]; intros j fr <-; symmetry; by apply piece_same].
    rewrite <-Ef. unfold state_piece. by rewrite <-Htx.
  - rewrite Hl, El, Hpar, <-(assoc_L (++)). done.
Qed.

Lemma send_state_logged field value reset record (s s' : St) :
  entity_records_ s.1 !! Z.to_nat field = Some record -> 0 <= tx_counter_ s.1 < 4294967296 ->
  send_state_ field value reset s = (true, s') ->
  let payload := state_payload record value in
  let chunks := chunk_count (max_entity_fragment_ s.1) payload in
  joined_ s.1 = true /\
  pending_state_message_tx_base_ s'.1 = tx_counter_ s.1 /\
  exists frames, Forall2 (fun j frame => state_piece s.1 field payload (tx_counter_ s.1) j = Some frame)
    (seq 0 (Z.to_nat chunks)) frames /\ s'.2.2 = s.2.2 ++ ((parent_mac_ s.1,.) <$> frames).
Proof.
  intros Hr Htx. unfold send_state_. run_steps. rewrite Hr.
  destruct (joined_ s.1) eqn:Hj; [|done]. destruct (_ || _); [done|]. cbn [negb orb].
  destruct (send_state_loop _ _ _ _ _ _ _ s) as [[b|] s1] eqn:E; [|done].
  assert (1 <= chunk_count (max_entity_fragment_ s.1) (state_payload record value))
    as Hpos by (unfold chunk_count; lia).
  apply (state_loop_logged _ _ _ _ (tx_counter_ s.1)) in E as (_ & _ & Hb & frames & Hf & Hl);
    [|rewrite Z.add_0_r; symmetry; by apply u32_small].
  rewrite Hb in * by lia. destruct reset; intros [= <-]; cbv zeta;
    (split; [done|]; split; [by apply u32_small|]; by exists frames).
Qed.
End sending.
