(* ===== verification/RemoteCommand.v ===== *)
(** * RemoteCommand: a command on its way to the owner

    The fragments of a command, decrypted one by one, arrive in any order and
    are repeated at will: the owner's callback runs exactly once, with exactly
    the value the bridge cut up.  The remote stores fragments with its own
    [put_fragment]; it is compared with the bridge's of Fragments, whose lemmas
    then apply. *)
From S2P Require Import Prelude Wire IncrementBuffer FileReceiver OTAFlashHandler FileReceiverInv FileContent OtaReceive Crypto Frames Fragments ReceiverWorld RemoteSession RemoteProtocol RemoteLoop RemoteFrames RemoteInv RemoteConfig.

(** ** The remote's way to store a fragment *)
Section storing.
Context (entity frag maxb base : Z) (flags : nat -> Z) (value : bytes).
Hypothesis frag_pos : 0 < frag.
Hypothesis fits : chunk_count frag value * frag <= maxb.
Hypothesis maxb_small : maxb < 65536.
Abbreviation n := (Z.to_nat (chunk_count frag value)).
Abbreviation view := (fragment_view entity frag flags value).

(** The pieces [got], but for the flags, which the remote does not track. *)
Definition remote_holds (got : list nat) (a : espnow_fragment_assembly_t) : Prop :=
  exists f, holds frag base flags value got (a <| asm_flags := f |>).

Lemma remote_put got a i : (i < n)%nat -> remote_holds got a ->
  exists a', put_fragment a (view i) frag maxb = (true, a') /\ remote_holds (i :: got) a'.
Proof.
  intros Hi [f Hh]. destruct (put_holds entity frag maxb base flags value frag_pos got _ i Hi fits maxb_small Hh)
    as (a' & E & Ha').
  pose proof (holds_count _ _ _ _ _ _ Hh) as Hc. cbn in Hc.
  unfold Fragments.put_fragment in E. set (b := if _ =? _ then _ else _) in E.
  assert (exists f', b = a <| asm_flags := f' |>) as [f' Eb].
  { subst b. destruct (_ =? _); [by eexists|by exists f]. }
  clearbody b. subst b.
  change (asm_fragment_count (a <| asm_flags := f' |>)) with (asm_fragment_count a) in E.
  rewrite Hc in E. change (view_fragment_index (view i)) with (Z.of_nat i) in E.
  rewrite (proj2 (Z.leb_gt _ _)) in E by lia.
  unfold put_fragment. change (view_fragment_index (view i)) with (Z.of_nat i).
  change (asm_received (a <| asm_flags := f' |>)) with (asm_received a) in E.
  change (asm_data (a <| asm_flags := f' |>)) with (asm_data a) in E.
  cbv zeta in *. destruct (negb (nth _ (asm_received a) 0 =? 0)).
  { injection E as <-. exists a. split; [done|]. by exists f'. }
  destruct (_ <? _)%nat; [done|].
  injection E as Ebool <-.
  eexists. split; [f_equal; exact Ebool|]. exists f'. exact Ha'.
Qed.

Lemma remote_enter got a i now : remote_holds got a ->
  enter_assembly a (view i) base now frag maxb = Some (a <| asm_last_seen_ms := now |>) /\
  remote_holds got (a <| asm_last_seen_ms := now |>).
Proof.
  intros [f Hh]. destruct (enter_holds entity frag maxb base flags value got _ i now Hh) as [E H1].
  split; [|by exists f]. destruct Hh. unfold enter_assembly. cbn in *.
  rewrite holds_active, holds_count, holds_base, !Z.eqb_refl. done.
Qed.

Lemma remote_store got a i now : (i < n)%nat -> remote_holds got a ->
  exists a', store_fragment_ a (view i) base now frag maxb = (true, a') /\ remote_holds (i :: got) a'.
Proof.
  intros Hi Hh. destruct (remote_enter got a i now Hh) as [E H1]. unfold store_fragment_. rewrite E.
  by apply remote_put.
Qed.
Lemma remote_store_fresh i now : (i < n)%nat ->
  exists a', store_fragment_ fresh_assembly (view i) base now frag maxb = (true, a') /\ remote_holds [i] a'.
Proof.
  intros Hi. destruct (enter_fresh entity frag maxb base flags value frag_pos i now fits) as (a & E & Ha).
  unfold store_fragment_. rewrite E. apply remote_put; [done|]. exists (asm_flags a). by destruct a.
Qed.

(** The table has room for the message, or holds the pieces [got]. *)
Context (cap : Z).
Hypothesis cap_small : cap < 65536.
Definition commands_hold (got : list nat) (r : Reassembly) : Prop :=
  match got with
  | [] => assemblies r !! entity = None /\ (size (assemblies r) < 8)%nat /\
          0 <= reserved_bytes r /\ reserved_bytes r + 2 * (chunk_count frag value * frag) <= cap
  | _ => exists a, assemblies r !! entity = Some a /\ remote_holds got a
  end.

Lemma store_command_holds r a got i now : (i < n)%nat ->
  assemblies r !! entity = Some a ->
  u32 (reserved_bytes r + chunk_count frag value * frag) <= cap \/ asm_active a = true ->
  (exists a', store_fragment_ a (view i) base now frag maxb = (true, a') /\ remote_holds (i :: got) a') ->
  exists r' a', store_command r (view i) base now frag maxb cap = (true, r') /\
    assemblies r' !! entity = Some a' /\ remote_holds (i :: got) a'.
Proof.
  intros Hi Ha Hroom (a' & Es & Hh). unfold store_command.
  cbn [view_entity_index view_fragment_count fragment_view]. rewrite Ha. cbn [default from_option id].
  assert (negb (asm_active a) && (cap <? u32 (reserved_bytes r + chunk_count frag value * frag)) = false) as ->.
  { destruct Hroom as [Hr| ->]; [|done]. rewrite (proj2 (Z.ltb_ge _ _)) by done. apply andb_false_r. }
  rewrite Es. eexists _, a'. split; [done|]. split; [|done]. unfold upd; cbn. by rewrite lookup_insert_eq.
Qed.

Lemma admit_command_holds got r i now : (i < n)%nat -> commands_hold got r ->
  exists r' a, admit_command r (view i) base now frag maxb cap = (true, r') /\
    assemblies r' !! entity = Some a /\ remote_holds (i :: got) a.
Proof.
  intros Hi Ht. unfold admit_command. cbn [view_entity_index view_fragment_count fragment_view].
  assert (0 < chunk_count frag value) as Hn by (unfold chunk_count; lia).
  destruct got as [|g got].
  - destruct Ht as (Hnone & Hsize & Hr0 & Hr). rewrite Hnone.
    change (Z.to_nat ESPNOW_MAX_PENDING_FRAGMENT_ASSEMBLIES) with 8%nat.
    rewrite (proj2 (Nat.leb_gt _ _)) by done.
    eapply (store_command_holds _ fresh_assembly); [done| | |by apply remote_store_fresh].
    + unfold upd; cbn. by rewrite lookup_insert_eq.
    + left. unfold upd; cbn. rewrite (u32_small (reserved_bytes r + _)) by nia. rewrite u32_small by nia. lia.
  - destruct Ht as (a & Ha & Hh). rewrite Ha. pose proof Hh as [f Hf].
    pose proof (holds_active _ _ _ _ _ _ Hf) as Hact. pose proof (holds_base _ _ _ _ _ _ Hf) as Hbase.
    cbn in Hact, Hbase. rewrite Hact, Hbase, Z.eqb_refl. cbn [andb negb].
    apply (store_command_holds _ a); [done|done|by right|]. by apply remote_store.
Qed.

Lemma remote_complete got a : remote_holds got a ->
  fragment_assembly_complete_ a = true <-> forall i, (i < n)%nat -> i ∈ got.
Proof. intros [f Hh]. by apply holds_complete in Hh. Qed.
Lemma remote_value got a : remote_holds got a -> (forall i, (i < n)%nat -> i ∈ got) ->
  assemble_fragment_payload_ a frag = value.
Proof.
  intros [f Hh] Hall. transitivity (assemble_fragment_payload_ (a <| asm_flags := f |>) frag); [done|].
  by eapply holds_value.
Qed.
End storing.

(** ** The handler *)
Section command.
Context {W : Type} `{!RemoteEnv W} `{!OtaPlatform W} `{!Hmac} `{!Digests}.
Abbreviation St := (RemoteProtocol * W)%type.

(** What the owner's callback does to its own state, which sending a frame leaves alone. *)
Context {X : Type} (owner_state : W -> X) (run : Z -> Z -> bytes -> X -> X).
Hypothesis command_run : forall i flags value w,
  owner_state (env_command_fn i flags value w) = run i flags value (owner_state w).
Hypothesis send_silent : forall mac frame w, owner_state (env_send_fn mac frame w).2 = owner_state w.

Definition silent (s s' : St) : Prop := owner_state s'.2 = owner_state s.2.
#[local] Instance silent_preorder : PreOrder silent.
Proof. split; unfold silent; [by intros s|congruence]. Qed.
Lemma silent_ack i r tx : keeps silent (send_command_ack_ i r tx).
Proof.
  unfold send_command_ack_, next_tx_counter, send_noted, send_frame_.
  keeps_go ltac:(idtac; lazymatch goal with
  | |- keeps _ (ask (env_send_fn ?mac ?frame)) => intros s; unfold ask, silent;
      pose proof (send_silent mac frame s.2); by destruct (env_send_fn mac frame s.2)
  | |- keeps _ (update _) => by intros s
  | |- keeps _ this => by intros s
  | |- keeps _ millis => by intros s
  end).
Qed.

Section message.
Context (p0 : RemoteProtocol) (entity base : Z) (flags : nat -> Z) (value : bytes).
Abbreviation frag := (max_entity_fragment_ p0).
Abbreviation n := (Z.to_nat (chunk_count frag value)).
Hypothesis frag_pos : 0 < frag.
Hypothesis fits : chunk_count frag value * frag <= max_assembly_bytes_ p0.
Hypothesis maxb_small : max_assembly_bytes_ p0 < 65536.
Hypothesis cap_small : max_total_fragment_bytes_ p0 < 65536.
Hypothesis joined : joined_ p0 = true.
Hypothesis owner : command_fn_set p0 = true.
Hypothesis entity_byte : 0 <= entity < 256.
Hypothesis flags_byte : forall i, 0 <= flags i < 256.
Hypothesis few : chunk_count frag value < 256.
Hypothesis base_word : 0 <= base < 4294967296.

(** The arrival of a fragment, as [handle_command_] sees it. *)
Record CommandArrival := {
  cmd_piece : nat;
  cmd_header : espnow_frame_header_t;
  cmd_payload : bytes;
  cmd_tag : option bytes
}.
Record command_ok (a : CommandArrival) : Prop := {
  co_piece : (cmd_piece a < n)%nat;
  co_counter : tx_counter (cmd_header a) = u32 (base + Z.of_nat (cmd_piece a));
  co_plain : decrypt_ p0 (cmd_header a) (cmd_payload a) (cmd_tag a) =
             Some (fragment_payload entity frag flags value (cmd_piece a))
}.

(** What the message depends on and no fragment changes. *)
Definition command_view (p : RemoteProtocol) :=
  (crypto p, session_key_ p, session_key_valid_ p, joined_ p, command_fn_set p,
   (max_entity_fragment_ p, max_assembly_bytes_ p, max_total_fragment_bytes_ p)).

(** Before the last piece, with [got]; and once the command has run. *)
Definition collecting (x : X) (got : list nat) (s : St) : Prop :=
  command_view s.1 = command_view p0 /\ owner_state s.2 = x /\
  commands_hold entity frag base flags value (max_total_fragment_bytes_ p0) got (pending_commands_ s.1) /\
  exists r, entity_records_ s.1 !! Z.to_nat entity = Some r /\
    counter_is_newer base (er_last_completed r) = true.
Definition executed (x : X) (s : St) : Prop :=
  command_view s.1 = command_view p0 /\
  (exists i, (i < n)%nat /\ owner_state s.2 = run entity (flags i) value x) /\
  exists r, entity_records_ s.1 !! Z.to_nat entity = Some r /\
    er_last_completed r = base /\ er_current_value r = value /\ er_dirty r = false.

Lemma sent_collecting x got s s' : sent_only s s' -> silent s s' ->
  collecting x got s -> collecting x got s'.
Proof. unfold sent_only, silent, collecting. intros -> ->. done. Qed.
Lemma sent_executed x s s' : sent_only s s' -> silent s s' -> executed x s -> executed x s'.
Proof. unfold sent_only, silent, executed. intros -> ->. done. Qed.

Lemma newer_irrefl x : counter_is_newer x x = false.
Proof. unfold counter_is_newer. by rewrite Z.sub_diag. Qed.

Definition receive_command (a : CommandArrival) : M St bool :=
  handle_command_ (cmd_header a) (cmd_payload a) (cmd_tag a).

(** The handler up to the comparison with the last command that ran. *)
Lemma command_runs a r (s : St) :
  command_ok a -> command_view s.1 = command_view p0 ->
  entity_records_ s.1 !! Z.to_nat entity = Some r ->
  receive_command a s =
  (if negb (counter_is_newer base (er_last_completed r)) then
     if base =? er_last_completed r then send_command_ack_ entity 0 base else mret true
   else
     now ← millis;
     let '(ok, pending) := admit_command (pending_commands_ s.1)
       (fragment_view entity frag flags value (cmd_piece a)) base now frag
       (max_assembly_bytes_ p0) (max_total_fragment_bytes_ p0) in
     update (fun p => p <| pending_commands_ := pending |>);;
     if negb ok then mret false
     else
       update (fun p => p <| last_seen_counter_ ::= fun n => Z.max n (tx_counter (cmd_header a)) |>);;
       let assembly := default fresh_assembly (assemblies pending !! entity) in
       if negb (fragment_assembly_complete_ assembly) then mret true
       else
         let v := assemble_fragment_payload_ assembly frag in
         update (fun p => p <| pending_commands_ ::= fun r => take_assembly r entity (data_size assembly) |>);;
         with_record entity (command_done v base);;
         env (env_command_fn entity (flags (cmd_piece a)) v);;
         send_command_ack_ entity 0 base) s.
Proof.
  intros [Hp Hc Hd] Hv Hr. unfold receive_command, handle_command_.
  unfold command_view in Hv. injection Hv as Ec Ek Ekv Ej Eo Ef Em Et.
  unfold mbind at 1, M_bind at 1, this at 1, gets at 1. rewrite Ej, joined. cbn [negb].
  assert (decrypt_ s.1 (cmd_header a) (cmd_payload a) (cmd_tag a) =
          decrypt_ p0 (cmd_header a) (cmd_payload a) (cmd_tag a)) as ->
    by (unfold decrypt_, validate_session_; by rewrite Ec, Ek, Ekv).
  rewrite Hd, parse_fragment_payload by (done || lia). cbn zeta.
  assert (fragment_message_tx_base (cmd_header a) (fragment_view entity frag flags value (cmd_piece a)) = base)
    as ->.
  { unfold fragment_message_tx_base. rewrite Hc. cbn [view_fragment_index fragment_view].
    unfold u32. rewrite Zminus_mod_idemp_l, Z.mod_small; lia. }
  change (view_entity_index (fragment_view entity frag flags value (cmd_piece a))) with entity.
  change (view_flags (fragment_view entity frag flags value (cmd_piece a))) with (flags (cmd_piece a)).
  rewrite Hr, Ef, Em, Et, Eo, owner. done.
Qed.

Lemma executed_step x a (s : St) :
  command_ok a -> executed x s -> executed x (receive_command a s).2.
Proof.
  intros Ha Hx. pose proof Hx as (Hv & _ & r & Hr & Hl & _).
  rewrite (command_runs a r s Ha Hv Hr), Hl, newer_irrefl, Z.eqb_refl. cbn [negb].
  apply (sent_executed x s); [apply sent_send_command_ack|apply silent_ack|done].
Qed.

Lemma collecting_step x got a (s : St) :
  command_ok a -> collecting x got s ->
  (~ (forall i, (i < n)%nat -> i ∈ cmd_piece a :: got) /\
   collecting x (cmd_piece a :: got) (receive_command a s).2) \/
  executed x (receive_command a s).2.
Proof.
  intros Ha (Hv & Hc & Ht & r & Hr & Hl). pose proof (co_piece a Ha) as Hi.
  destruct (receive_command a s) as [ok s'] eqn:Hrun. cbn [snd].
  rewrite (command_runs a r s Ha Hv Hr), Hl in Hrun. cbn [negb] in Hrun. revert Hrun.
  destruct (admit_command_holds entity frag (max_assembly_bytes_ p0) base flags value frag_pos fits maxb_small
    (max_total_fragment_bytes_ p0) cap_small got (pending_commands_ s.1) (cmd_piece a) (env_millis s.2) Hi Ht)
    as (r' & a' & E & Ha' & Hh).
  run_steps. rewrite E. cbn [negb]. rewrite Ha'. cbn [default from_option id].
  pose proof (remote_complete frag base flags value frag_pos _ _ Hh) as Hcomp.
  destruct (fragment_assembly_complete_ a') eqn:Hdone; cbn [negb].
  - pose proof (proj1 Hcomp eq_refl) as Hall.
    rewrite (remote_value frag base flags value frag_pos _ _ Hh Hall).
    unfold with_record. run_steps. intros Hrun. right.
    match type of Hrun with send_command_ack_ ?i ?z ?b ?s1 = _ =>
      assert (s' = (send_command_ack_ i z b s1).2) as -> by (by rewrite Hrun);
      apply (sent_executed x s1); [apply sent_send_command_ack|apply silent_ack|] end.
    split; [exact Hv|]. split.
    + exists (cmd_piece a). split; [done|]. cbn [snd]. by rewrite command_run, Hc.
    + exists (command_done value base r). split; [|by destruct r].
      cbn. by rewrite list_lookup_alter_eq, Hr.
  - intros [= _ <-]. left. split; [intros Hall; by apply Hcomp in Hall|].
    split; [exact Hv|]. split; [exact Hc|]. split; [by exists a'|]. by exists r.
Qed.

Fixpoint receive_commands (l : list CommandArrival) : M St unit :=
  match l with [] => mret tt | a :: l => receive_command a;; receive_commands l end.

Lemma executed_all x l (s : St) :
  Forall command_ok l -> executed x s -> executed x (receive_commands l s).2.
Proof.
  intros Hl. revert s. induction Hl as [|a l Ha Hl IH]; intros s Hs; [done|]. cbn [receive_commands].
  unfold mbind, M_bind. pose proof (executed_step x a s Ha Hs) as H1.
  destruct (receive_command a s) as [b s1]. by apply IH.
Qed.

Lemma collecting_all x l got (s : St) :
  Forall command_ok l -> (forall i, (i < n)%nat -> i ∈ (cmd_piece <$> l) ++ got) ->
  ~ (forall i, (i < n)%nat -> i ∈ got) -> collecting x got s ->
  executed x (receive_commands l s).2.
Proof.
  intros Hl. revert got s. induction Hl as [|a l Ha Hl IH]; intros got s Hall Hnot Hs; [done|].
  cbn [receive_commands]. unfold mbind, M_bind.
  pose proof (collecting_step x got a s Ha Hs) as H1. destruct (receive_command a s) as [b s1].
  cbn [snd] in H1. destruct H1 as [[Hn Hc]|Hx]; [|by apply executed_all].
  apply (IH (cmd_piece a :: got)); [|done|done]. intros j Hj. specialize (Hall j Hj). cbn in Hall. set_solver.
Qed.
End message.

(** A command whose fragments all arrive is run once by the owner. *)
Lemma command_runs_once c p (w : W) entity base flags value record l :
  remote_ok (W := W) c p -> joined_ p = true -> command_fn_set p = true ->
  0 <= entity < 256 -> (forall i, 0 <= flags i < 256) -> 0 <= base < 4294967296 ->
  chunk_count (max_entity_fragment_ p) value * max_entity_fragment_ p <= max_assembly_bytes_ p ->
  entity_records_ p !! Z.to_nat entity = Some record ->
  counter_is_newer base (er_last_completed record) = true ->
  commands_hold entity (max_entity_fragment_ p) base flags value (max_total_fragment_bytes_ p) []
    (pending_commands_ p) ->
  Forall (command_ok p entity base flags value) l ->
  (forall i, Z.of_nat i < chunk_count (max_entity_fragment_ p) value -> i ∈ cmd_piece <$> l) ->
  let s' := (receive_commands l (p, w)).2 in
  (exists i, owner_state s'.2 = run entity (flags i) value (owner_state w)) /\
  exists r, entity_records_ s'.1 !! Z.to_nat entity = Some r /\
    er_current_value r = value /\ er_last_completed r = base /\ er_dirty r = false.
Proof.
  intros Hp Hj Hown Hent Hfl Hbase Hfit Hrec Hnew Hroom Hl Hall s'.
  assert (0 < max_entity_fragment_ p /\ max_assembly_bytes_ p < 65536 /\
          max_total_fragment_bytes_ p < 65536 /\
          chunk_count (max_entity_fragment_ p) value < 256) as (Hf & Hm & Hc & Hn).
  { destruct (ro_mtu c p Hp) as [E|[E|E]]; injection E as _ E1 E2 E3; rewrite E1, ?E2, ?E3 in *; nia. }
  destruct (collecting_all p entity base flags value Hf Hfit Hm Hc Hj Hown Hent Hfl Hn Hbase
              (owner_state w) l [] (p, w) Hl) as (_ & (i & _ & Ei) & r & Hr & ? & ? & ?).
  - rewrite app_nil_r. intros i Hi. apply Hall. lia.
  - intros Hx. assert (0 < Z.to_nat (chunk_count (max_entity_fragment_ p) value))%nat as Hpos
      by (unfold chunk_count; lia). by apply Hx, elem_of_nil in Hpos.
  - split; [done|]. split; [done|]. split; [done|]. by exists record.
  - split; [by exists i|]. by exists r.
Qed.
End command.

(** ** The property *)
Section once.
Context {W : Type} `{!RemoteEnv W} `{!OtaPlatform W} `{!Hmac} `{!Digests}.

(** The calls of the owner's callback, which sending a frame does not make. *)
Context (commands : W -> list (Z * Z * bytes)).
Hypothesis command_recorded : forall i flags value w,
  commands (env_command_fn i flags value w) = commands w ++ [(i, flags, value)].
Hypothesis send_silent : forall mac frame w, commands (env_send_fn mac frame w).2 = commands w.

(** C7: A command is executed exactly once.  The fragments of a value, each decrypted under its
    own counter, reach [handle_command_] in any order and any number of times, also after
    the command has run: the owner's callback is called once, with exactly the value and the
    flags of one of the fragments, and the entity's record shows the value as current and
    the command as the last completed. *)
Theorem command_executed_once c p (w : W) entity base flags value record l :
  remote_ok (W := W) c p -> joined_ p = true -> command_fn_set p = true ->
  0 <= entity < 256 -> (forall i, 0 <= flags i < 256) -> 0 <= base < 4294967296 ->
  chunk_count (max_entity_fragment_ p) value * max_entity_fragment_ p <= max_assembly_bytes_ p ->
  entity_records_ p !! Z.to_nat entity = Some record ->
  counter_is_newer base (er_last_completed record) = true ->
  commands_hold entity (max_entity_fragment_ p) base flags value (max_total_fragment_bytes_ p) []
    (pending_commands_ p) ->
  Forall (command_ok p entity base flags value) l ->
  (forall i, Z.of_nat i < chunk_count (max_entity_fragment_ p) value -> i ∈ cmd_piece <$> l) ->
  let s' := (receive_commands l (p, w)).2 in
  (exists i, commands s'.2 = commands w ++ [(entity, flags i, value)]) /\
  exists r, entity_records_ s'.1 !! Z.to_nat entity = Some r /\
    er_current_value r = value /\ er_last_completed r = base /\ er_dirty r = false.
Proof.
  apply (command_runs_once commands (fun i flags value l => l ++ [(i, flags, value)])); auto.
Qed.
End once.
