(* ===== verification/BridgeSession.v ===== *)
(** * BridgeSession: the bridge's sessions and the frames it sends and accepts

    Models the data of [class BridgeProtocol]
    ([src/device_code/components/esp_tree_bridge/bridge_protocol.h]), the
    frame level of [bridge_protocol.cpp] ([parse_frame_],
    [validate_session_packet_], the [send_*] functions) and the bookkeeping of
    partly received messages.  The radio, the clock, the random source, the
    heap and the publishing callbacks are the interface [BridgeEnv].  The
    packet log ([queue_log_], [queue_state_log_], [ESP_LOG*]) only serves
    diagnostics and is left out. *)
From stdpp Require Import sorting.
From S2P Require Import Prelude Wire Crypto Frames Fragments OtaManager.

(** ** Constants *)
Definition ESPNOW_MQTT_CONFIRM_TIMEOUT_MS : Z := 2000.
Definition ESPNOW_STATE_SYNC_TIMEOUT_MS : Z := 30000.
Definition ESPNOW_NODE_ID_LEN : nat := 32.
Definition ESPNOW_NODE_LABEL_LEN : nat := 64.
Definition ESPNOW_PROJECT_NAME_LEN : nat := 32.
Definition ESPNOW_PROJECT_VERSION_LEN : nat := 16.
Definition ESPNOW_SCHEMA_OPTIONS_LEN : nat := 145.
Definition ESPNOW_ENTITY_ID_LEN : nat := 32.
Definition SEND_YIELD_MS : Z := 1.
Definition DIAG_PUBLISH_INTERVAL_MS : Z := 10000.
Definition OFFLINE_TIMEOUT_GRACE_MS : Z := 5000.
Definition MAX_SESSIONS : nat := 128.
Definition SESSION_CLEANUP_INTERVAL_MS : Z := 60000.
Definition RAM_EVICTION_BUFFER_BYTES : Z := 10240.
Definition MIN_SESSIONS_TO_PROTECT : nat := 8.
Definition CONFIG_ACK_TIMEOUT_MS : Z := 500.
Definition CONFIG_MAX_RETRIES : Z := 3.
Definition COMMAND_MAX_RETRIES : Z := ESPNOW_MAX_RETRIES.

(** ** Data *)
Inductive espnow_log_state_t :=
  | NONE | DISCOVERING | JOINING | JOINED | STATE_SYNC | NORMAL | PROVIDING_RELAY.
#[export] Instance log_state_eq_dec : EqDecision espnow_log_state_t.
Proof. solve_decision. Defined.
Definition remote_is (a b : espnow_log_state_t) : bool := bool_decide (a = b).

(** What the identity descriptor says of the leaf. *)
Record Identity := {
  esphome_name : bytes;
  node_label : bytes;
  firmware_epoch : Z;
  build_date : bytes;
  build_time : bytes;
  project_name : bytes;
  project_version : bytes;
  chip_model : Z;
  firmware_md5 : bytes
}.
#[export] Instance eta_identity : Eta Identity := fun i =>
  Build_Identity (esphome_name i) (node_label i) (firmware_epoch i) (build_date i) (build_time i)
    (project_name i) (project_version i) (chip_model i) (firmware_md5 i).
Definition no_identity : Identity :=
  {| esphome_name := []; node_label := []; firmware_epoch := 0; build_date := [];
     build_time := []; project_name := []; project_version := []; chip_model := 0;
     firmware_md5 := replicate 16 0 |}.

Record BridgeSession := {
  s_leaf_mac : bytes;
  s_parent_mac : bytes;
  s_session_key : bytes;
  s_bridge_nonce : bytes;
  s_remote_nonce : bytes;
  s_schema_hash : bytes;
  s_next_hop_mac : bytes;
  s_last_seen_counter : Z;
  s_tx_counter : Z;
  s_last_seen_bridge_uptime_s : Z;
  s_discover_announce_deadline_ms : Z;
  s_discover_announce_leaf_mac : bytes;
  s_joined_ms : Z;
  s_expected_contact_interval_s : Z;
  s_uptime_seconds : Z;
  s_hops_to_bridge : Z;
  s_last_reported_hops_to_bridge : Z;
  s_total_entities : Z;
  s_session_max_payload : Z;
  s_max_entity_fragment : Z;
  s_max_assembly_bytes : Z;
  s_max_total_fragment_bytes : Z;
  s_leaf_session_flags : Z;
  s_pending_schema_index : Z;
  s_pending_schema_descriptor_type : Z;
  s_schema_request_retries : Z;
  s_join_complete_retry_count : Z;
  s_direct_child_count : Z;
  s_total_child_count : Z;
  s_last_rssi : Z;
  s_rx_packets : Z;
  s_tx_packets : Z;
  s_last_schema_request_ms : Z;
  s_last_join_complete_ms : Z;
  s_last_completed_state_message_tx_base : Z;
  s_session_key_valid : bool;
  s_bridge_nonce_valid : bool;
  s_remote_nonce_valid : bool;
  s_online : bool;
  s_remote_state : espnow_log_state_t;
  s_schema_received : bool;
  s_schema_request_in_flight : bool;
  s_awaiting_discovery_confirm : bool;
  s_pending_schema_request_index : Z;
  s_last_discovery_confirm_ms : Z;
  s_join_complete_pending : bool;
  s_state_sync_pending : bool;
  s_awaiting_more_dirty : bool;
  s_join_in_progress : bool;
  s_pending_discovery_count : Z;
  s_discovery_all_confirmed : bool;
  s_identity : Identity;
  s_mac_hex_key : bytes;
  s_parent_mac_hex_key : bytes;
  s_last_offline_reason : bytes;
  s_schema_entities : list espnow_entity_schema_t;
  s_state_assemblies : Reassembly;
  s_schema_assemblies : Reassembly
}.
#[export] Instance eta_session : Eta BridgeSession := fun s =>
  Build_BridgeSession (s_leaf_mac s) (s_parent_mac s) (s_session_key s) (s_bridge_nonce s)
    (s_remote_nonce s) (s_schema_hash s) (s_next_hop_mac s) (s_last_seen_counter s)
    (s_tx_counter s) (s_last_seen_bridge_uptime_s s) (s_discover_announce_deadline_ms s)
    (s_discover_announce_leaf_mac s) (s_joined_ms s) (s_expected_contact_interval_s s)
    (s_uptime_seconds s) (s_hops_to_bridge s) (s_last_reported_hops_to_bridge s)
    (s_total_entities s) (s_session_max_payload s) (s_max_entity_fragment s)
    (s_max_assembly_bytes s) (s_max_total_fragment_bytes s) (s_leaf_session_flags s)
    (s_pending_schema_index s) (s_pending_schema_descriptor_type s) (s_schema_request_retries s)
    (s_join_complete_retry_count s) (s_direct_child_count s) (s_total_child_count s)
    (s_last_rssi s) (s_rx_packets s) (s_tx_packets s) (s_last_schema_request_ms s)
    (s_last_join_complete_ms s) (s_last_completed_state_message_tx_base s) (s_session_key_valid
    s) (s_bridge_nonce_valid s) (s_remote_nonce_valid s) (s_online s) (s_remote_state s)
    (s_schema_received s) (s_schema_request_in_flight s) (s_awaiting_discovery_confirm s)
    (s_pending_schema_request_index s) (s_last_discovery_confirm_ms s) (s_join_complete_pending
    s) (s_state_sync_pending s) (s_awaiting_more_dirty s) (s_join_in_progress s)
    (s_pending_discovery_count s) (s_discovery_all_confirmed s) (s_identity s) (s_mac_hex_key s)
    (s_parent_mac_hex_key s) (s_last_offline_reason s) (s_schema_entities s) (s_state_assemblies
    s) (s_schema_assemblies s).

(** The default member initialisers. *)
Definition new_session : BridgeSession :=
  {| s_leaf_mac := replicate 6 0; s_parent_mac := replicate 6 0; s_session_key := replicate 32
     0; s_bridge_nonce := replicate 16 0; s_remote_nonce := replicate 16 0; s_schema_hash :=
     replicate 32 0; s_next_hop_mac := replicate 6 0; s_last_seen_counter := 0; s_tx_counter :=
     1; s_last_seen_bridge_uptime_s := 0; s_discover_announce_deadline_ms := 0;
     s_discover_announce_leaf_mac := replicate 6 0; s_joined_ms := 0;
     s_expected_contact_interval_s := 0; s_uptime_seconds := 0; s_hops_to_bridge := 0;
     s_last_reported_hops_to_bridge := 0; s_total_entities := 0; s_session_max_payload :=
     ESPNOW_V1_MAX_PAYLOAD; s_max_entity_fragment := ESPNOW_MAX_ENTITY_FRAGMENT_LEN;
     s_max_assembly_bytes := ESPNOW_MAX_FRAGMENT_ASSEMBLY_BYTES; s_max_total_fragment_bytes :=
     ESPNOW_MAX_TOTAL_FRAGMENT_BYTES_PER_SESSION; s_leaf_session_flags := 0;
     s_pending_schema_index := 255; s_pending_schema_descriptor_type :=
     ESPNOW_DESCRIPTOR_TYPE_ENTITY; s_schema_request_retries := 0; s_join_complete_retry_count
     := 0; s_direct_child_count := 0; s_total_child_count := 0; s_last_rssi := -128;
     s_rx_packets := 0; s_tx_packets := 0; s_last_schema_request_ms := 0;
     s_last_join_complete_ms := 0; s_last_completed_state_message_tx_base := 0;
     s_session_key_valid := false; s_bridge_nonce_valid := false; s_remote_nonce_valid := false;
     s_online := false; s_remote_state := NONE; s_schema_received := false;
     s_schema_request_in_flight := false; s_awaiting_discovery_confirm := false;
     s_pending_schema_request_index := 255; s_last_discovery_confirm_ms := 0;
     s_join_complete_pending := false; s_state_sync_pending := false; s_awaiting_more_dirty :=
     true; s_join_in_progress := false; s_pending_discovery_count := 0;
     s_discovery_all_confirmed := false; s_identity := no_identity; s_mac_hex_key := [];
     s_parent_mac_hex_key := []; s_last_offline_reason := []; s_schema_entities := [];
     s_state_assemblies := no_reassembly; s_schema_assemblies := no_reassembly |}.

(** [BridgeSession::update_from_mtu]. *)
Definition update_from_mtu (s : BridgeSession) : BridgeSession :=
  s <| s_max_entity_fragment := espnow_max_entity_fragment (s_session_max_payload s) |>
    <| s_max_assembly_bytes := espnow_max_assembly_bytes (s_session_max_payload s) |>
    <| s_max_total_fragment_bytes := espnow_max_total_fragment_bytes (s_session_max_payload s) |>.

(** [session_max_payload] travels with the identity in the cache. *)
Record CachedSessionData := {
  cached_schema_entities : list espnow_entity_schema_t;
  cached_identity : Identity;
  cached_session_max_payload : Z
}.

Record ConfigAckResult := {
  acked : bool;
  timed_out : bool;
  no_session : bool;
  cfg_result : Z;
  command_echo : Z
}.
Definition no_config_ack : ConfigAckResult :=
  {| acked := false; timed_out := false; no_session := false;
     cfg_result := CFG_RESULT_REJECTED; command_echo := 0 |}.

Record PendingCommand := {
  cmd_field_index : Z;
  cmd_value : bytes;
  cmd_leaf_mac : bytes;
  cmd_next_hop_mac : bytes;
  cmd_tx_base : Z;
  cmd_last_tx_ms : Z;
  cmd_retry_count : Z
}.
#[export] Instance eta_command : Eta PendingCommand := fun c =>
  Build_PendingCommand (cmd_field_index c) (cmd_value c) (cmd_leaf_mac c) (cmd_next_hop_mac c)
    (cmd_tx_base c) (cmd_last_tx_ms c) (cmd_retry_count c).

(** The callback is an identifier of the environment, [None] when absent. *)
Record PendingConfig := {
  pc_leaf_mac : bytes;
  pc_next_hop_mac : bytes;
  pc_command : Z;
  pc_payload : bytes;
  pc_tx_base : Z;
  pc_retry_count : Z;
  pc_next_retry_ms : Z;
  pc_ack_timeout_ms : Z;
  pc_callback : option Z
}.
#[export] Instance eta_config_pending : Eta PendingConfig := fun c =>
  Build_PendingConfig (pc_leaf_mac c) (pc_next_hop_mac c) (pc_command c) (pc_payload c)
    (pc_tx_base c) (pc_retry_count c) (pc_next_retry_ms c) (pc_ack_timeout_ms c) (pc_callback c).

(** Which [std::function] members are set. *)
Record Callbacks := {
  send_fn_set : bool;
  send_err_fn_set : bool;
  publish_state_fn_set : bool;
  publish_discovery_fn_set : bool;
  publish_availability_fn_set : bool;
  publish_topology_changed_fn_set : bool;
  publish_bridge_diag_fn_set : bool;
  clear_entities_fn_set : bool;
  schema_complete_fn_set : bool;
  file_ack_fn_set : bool
}.

Record BridgeProtocol := {
  crypto : CryptoState;
  callbacks : Callbacks;
  network_id_ : bytes;
  heartbeat_interval_ : Z;
  psk_valid_ : bool;
  bridge_mac_ : bytes;
  bridge_mac_valid_ : bool;
  joining_in_progress_ : bool;
  joining_leaf_mac_ : bytes;
  join_started_ms_ : Z;
  sessions_ : gmap Z BridgeSession;
  schema_cache_ : gmap bytes CachedSessionData;
  schema_hash_cache_ : gmap bytes bytes;
  bridge_uptime_s_ : Z;
  last_diag_publish_ms_ : Z;
  last_uptime_tick_ms_ : Z;
  last_session_cleanup_ms_ : Z;
  last_diag_online_count_ : Z;
  bridge_session_flags_ : Z;
  command_queue_ : list PendingCommand;
  pending_configs_ : list PendingConfig
}.
#[export] Instance eta_bridge : Eta BridgeProtocol := fun p =>
  Build_BridgeProtocol (crypto p) (callbacks p) (network_id_ p) (heartbeat_interval_ p)
    (psk_valid_ p) (bridge_mac_ p) (bridge_mac_valid_ p) (joining_in_progress_ p)
    (joining_leaf_mac_ p) (join_started_ms_ p) (sessions_ p) (schema_cache_ p)
    (schema_hash_cache_ p) (bridge_uptime_s_ p) (last_diag_publish_ms_ p)
    (last_uptime_tick_ms_ p) (last_session_cleanup_ms_ p) (last_diag_online_count_ p)
    (bridge_session_flags_ p) (command_queue_ p) (pending_configs_ p).

Definition no_callbacks : Callbacks :=
  {| send_fn_set := false; send_err_fn_set := false; publish_state_fn_set := false;
     publish_discovery_fn_set := false; publish_availability_fn_set := false;
     publish_topology_changed_fn_set := false; publish_bridge_diag_fn_set := false;
     clear_entities_fn_set := false; schema_complete_fn_set := false; file_ack_fn_set := false |}.

(** A [BridgeProtocol] before [init]. *)
Definition new_bridge : BridgeProtocol :=
  {| crypto := {| g_psk := replicate 32 0; g_psk_set := false |}; callbacks := no_callbacks;
     network_id_ := []; heartbeat_interval_ := ESPNOW_HEARTBEAT_INTERVAL_S; psk_valid_ := false;
     bridge_mac_ := replicate 6 0; bridge_mac_valid_ := false; joining_in_progress_ := false;
     joining_leaf_mac_ := replicate 6 0; join_started_ms_ := 0; sessions_ := ∅;
     schema_cache_ := ∅; schema_hash_cache_ := ∅; bridge_uptime_s_ := 0;
     last_diag_publish_ms_ := 0; last_uptime_tick_ms_ := 0; last_session_cleanup_ms_ := 0;
     last_diag_online_count_ := 255; bridge_session_flags_ := 0; command_queue_ := [];
     pending_configs_ := [] |}.

(** ** Keys *)
Definition mac_to_key_ (mac : bytes) : Z :=
  foldl (fun key i => Z.lor key (Z.shiftl (at_ mac i) (Z.of_nat i * 8))) 0 [0; 1; 2; 3; 4; 5]%nat.

Definition mac_hex (mac : bytes) : bytes := mjoin (ESPNowOTAManager.hex02 <$> take 6 mac).

Definition schema_cache_key_ (s : BridgeSession) : bytes :=
  if (length (esphome_name (s_identity s)) =? 0)%nat then mac_hex (s_leaf_mac s)
  else esphome_name (s_identity s).

Definition get_session (leaf_mac : bytes) (p : BridgeProtocol) : option BridgeSession :=
  sessions_ p !! mac_to_key_ leaf_mac.

(** [uint8_t count] wraps. *)
Definition get_active_remote_count (p : BridgeProtocol) : Z :=
  u8 (Z.of_nat (length (filter (fun s => s_online s = true) (map_to_list (sessions_ p)).*2))).
Definition get_direct_remote_count (p : BridgeProtocol) : Z :=
  u8 (Z.of_nat (length (filter (fun s => s_online s = true /\ s_hops_to_bridge s = 1)
                          (map_to_list (sessions_ p)).*2))).

(** The order in which a [std::map] is iterated. *)
Definition session_keys (p : BridgeProtocol) : list Z :=
  merge_sort Z.le (map_to_list (sessions_ p)).*1.

(** [ensure_session_] on the session it finds or creates. *)
Definition ensured_session (leaf_mac : bytes) (found : option BridgeSession) : BridgeSession :=
  let s := default new_session found in
  (if (length (s_mac_hex_key s) =? 0)%nat then s <| s_mac_hex_key := mac_hex leaf_mac |> else s)
    <| s_leaf_mac := take 6 leaf_mac |>.

(** ** Frames *)
Section frames.
Context `{Hmac}.

Definition parse_frame_ (c : CryptoState) (frame : bytes) : option ParsedFrame :=
  let len := length frame in
  if (len <? sizeof espnow_frame_header_t)%nat then None
  else if (Z.to_nat ESPNOW_V2_MAX_PAYLOAD <? len)%nat then None
  else
    let header : espnow_frame_header_t := of_bytes frame in
    if negb (protocol_version header =? ESPNOW_PROTOCOL_VER) then None
    else if negb (is_valid_packet_type (packet_type header)) then None
    else
      let parent_check := has_parent_check (hop_count header) in
      let header_size := (sizeof espnow_frame_header_t +
                          (if parent_check then Z.to_nat ESPNOW_PARENT_MAC_LEN else 0))%nat in
      if (len <? header_size)%nat then None
      else
        let parent_mac := if parent_check then slice (sizeof espnow_frame_header_t) 6 frame
                          else replicate 6 0 in
        let payload := drop header_size frame in
        let tag_len := Z.to_nat ESPNOW_SESSION_TAG_LEN in
        if is_encrypted_packet (packet_type header) then
          if (length payload <? tag_len)%nat then None
          else
            let tag := drop (len - tag_len) frame in
            let payload := take (length payload - tag_len) payload in
            if espnow_crypto_verify_psk_tag c frame payload (psk_tag header) =? 0 then None
            else Some {| pf_header := header; pf_payload := payload;
                         pf_session_tag := Some tag; pf_parent_mac := parent_mac |}
        else if espnow_crypto_verify_psk_tag c frame payload (psk_tag header) =? 0 then None
        else Some {| pf_header := header; pf_payload := payload; pf_session_tag := None;
                     pf_parent_mac := parent_mac |}.

(** The plaintext, [None] when the packet is refused. *)
Definition validate_session_packet_ (c : CryptoState) (s : BridgeSession)
    (header : espnow_frame_header_t) (ciphertext : bytes) (session_tag : option bytes)
    : option bytes :=
  if negb (s_session_key_valid s) then None
  else match session_tag with
  | None => None
  | Some tag =>
    if espnow_crypto_verify_session_tag (s_session_key s) (to_bytes header) ciphertext tag =? 0
    then None
    else espnow_crypto_crypt c (s_session_key s) (tx_counter header) ciphertext
  end.

(** The buffer [send_encrypted_] and [send_encrypted_with_tx_counter_result_]
    fill; both tags are computed over the buffer being filled. *)
Definition encrypted_frame (c : CryptoState) (session_key leaf : bytes) (type hop tx : Z)
    (plaintext : bytes) : option bytes :=
  let header := {| protocol_version := ESPNOW_PROTOCOL_VER; hop_count := hop;
                   packet_type := type; leaf_mac := leaf; tx_counter := tx;
                   psk_tag := replicate 4 0 |} in
  ciphertext ← espnow_crypto_crypt c session_key tx plaintext;
  let header := header <| psk_tag := espnow_crypto_psk_tag c (to_bytes header) ciphertext |> in
  Some (to_bytes header ++ ciphertext ++
        espnow_crypto_session_tag session_key (to_bytes header) ciphertext).

(** The buffer [send_plain_psk_] fills. *)
Definition plain_frame (c : CryptoState) (leaf : bytes) (type hop tx : Z) (payload : bytes)
    : bytes :=
  let header := {| protocol_version := ESPNOW_PROTOCOL_VER; hop_count := hop;
                   packet_type := type; leaf_mac := leaf; tx_counter := tx;
                   psk_tag := replicate 4 0 |} in
  let header := header <| psk_tag := espnow_crypto_psk_tag c (to_bytes header) payload |> in
  to_bytes header ++ payload.

(** The fingerprint [send_deauth_] puts into its reply. *)
Definition deauth_fingerprint (c : CryptoState) (leaf : bytes) (response_type response_tx : Z)
    (request_payload : bytes) : bytes :=
  espnow_crypto_psk_tag c (to_bytes {| protocol_version := ESPNOW_PROTOCOL_VER; hop_count := 0;
    packet_type := response_type; leaf_mac := leaf; tx_counter := response_tx;
    psk_tag := replicate 4 0 |}) request_payload.
End frames.

(** ** The environment

    What the platform and the owner of the protocol object provide.  A
    callback acts on the environment: one that calls back into the protocol
    object while a handler runs is not described ([publish_state_fn] and
    [file_ack_fn] are called last in their handlers, so there it is a further
    call; the configuration callback of [loop] is called inside the loop over
    the queue). *)
Class BridgeEnv (W : Type) := {
  bridge_millis : W -> Z;
  bridge_delay : Z -> W -> W;
  esp_random : W -> Z * W;
  fill_random_bytes : nat -> W -> bytes * W;
  esp_get_free_heap_size : W -> Z * W;
  ram_below : bool -> W -> bool;
  send_fn : bytes -> bytes -> W -> bool * W;
  send_err_fn : bytes -> bytes -> W -> esp_err_t * W;
  publish_state_fn : bytes -> espnow_entity_schema_t -> bytes -> Z -> bytes -> Z -> bytes -> W -> W;
  publish_discovery_fn : bytes -> espnow_entity_schema_t -> Z -> bool -> W -> W;
  publish_availability_fn : bytes -> bool -> bytes -> W -> W;
  publish_topology_changed_fn : bytes -> bytes -> W -> W;
  publish_bridge_diag_fn : Z -> Z -> W -> W;
  clear_entities_fn : bytes -> list espnow_entity_schema_t -> W -> W;
  schema_complete_fn : bytes -> Z -> W -> W;
  file_ack_fn : bytes -> espnow_ack_t -> bytes -> W -> W;
  config_callback : Z -> ConfigAckResult -> W -> W
}.

Section bridge.
Context {W : Type} `{!BridgeEnv W} `{!Hmac}.
Abbreviation St := (BridgeProtocol * W)%type.

Definition this : M St BridgeProtocol := gets fst.
Definition update (f : BridgeProtocol -> BridgeProtocol) : M St unit :=
  modify (fun s => (f s.1, s.2)).
Definition env (f : W -> W) : M St unit := modify (fun s => (s.1, f s.2)).
Definition ask {A} (f : W -> A * W) : M St A := fun s => let '(a, w) := f s.2 in (a, (s.1, w)).
Definition millis : M St Z := gets (fun s => bridge_millis s.2).
Definition delay (ms : Z) : M St unit := env (bridge_delay ms).

(** A [BridgeSession &] is the key of the session in the map. *)
Definition session (key : Z) : M St BridgeSession :=
  gets (fun s => default new_session (sessions_ s.1 !! key)).
Definition with_session (key : Z) (f : BridgeSession -> BridgeSession) : M St unit :=
  update (fun p => p <| sessions_ ::= alter f key |>).

Definition notify (is_set : Callbacks -> bool) (f : W -> W) : M St unit :=
  p ← this; when (is_set (callbacks p)) (env f).
Definition publish_availability (mac : bytes) (online : bool) (reason : string) : M St unit :=
  notify publish_availability_fn_set (publish_availability_fn mac online (str reason)).
Definition publish_topology (mac : bytes) (reason : string) : M St unit :=
  notify publish_topology_changed_fn_set (publish_topology_changed_fn mac (str reason)).
Definition clear_entities (mac : bytes) (entities : list espnow_entity_schema_t) : M St unit :=
  notify clear_entities_fn_set (clear_entities_fn mac entities).

(** ** Set-up *)
Definition init (psk_hex network_id : bytes) (heartbeat_interval : Z) : M St Z :=
  p ← this;
  let '(rc, c) := espnow_crypto_init psk_hex (crypto p) in
  update (fun p => p <| network_id_ := network_id |> <| heartbeat_interval_ := heartbeat_interval |>
                     <| crypto := c |> <| psk_valid_ := (rc =? 0) |>);;
  mret (if rc =? 0 then 0 else -1).

Definition set_bridge_mac (mac : bytes) : M St unit :=
  if (length mac =? 0)%nat then mret tt
  else update (fun p => p <| bridge_mac_ := take 6 mac |> <| bridge_mac_valid_ := true |>).

Definition set_session_flags (flags : Z) : M St unit :=
  update (fun p => p <| bridge_session_flags_ := flags |>).

Definition ensure_session_ (leaf_mac : bytes) : M St (option Z) :=
  if (length leaf_mac =? 0)%nat then mret None
  else
    let key := mac_to_key_ leaf_mac in
    update (fun p => p <| sessions_ ::= fun m => <[key := ensured_session leaf_mac (m !! key)]> m |>);;
    mret (Some key).

(** ** Sending *)
Definition downstream_hop_count : Z := ESPNOW_HOPS_MAKE ESPNOW_HOPS_DIR_DOWN 0.

Definition send_encrypted_ (sender_mac : bytes) (key : Z) (type : espnow_packet_type_t)
    (hop_count : Z) (plaintext : bytes) : M St bool :=
  p ← this;
  s ← session key;
  if negb (send_fn_set (callbacks p)) || negb (s_session_key_valid s) then mret false
  else if espnow_max_plaintext (s_session_max_payload s) <? Z.of_nat (length plaintext)
  then mret false
  else
    with_session key (fun s => s <| s_tx_counter ::= fun n => u32 (n + 1) |>);;
    match encrypted_frame (crypto p) (s_session_key s) (s_leaf_mac s) (packet_type_code type)
            hop_count (s_tx_counter s) plaintext with
    | None => mret false
    | Some frame =>
      with_session key (fun s => s <| s_tx_packets ::= fun n => u32 (n + 1) |>);;
      ask (send_fn sender_mac frame)
    end.

Definition send_encrypted_with_tx_counter_result_ (sender_mac : bytes) (key : Z)
    (type : espnow_packet_type_t) (hop_count tx_counter : Z) (plaintext : bytes)
    : M St esp_err_t :=
  p ← this;
  s ← session key;
  if (negb (send_fn_set (callbacks p)) && negb (send_err_fn_set (callbacks p)))
     || negb (s_session_key_valid s) then mret ESP_FAIL
  else if espnow_max_plaintext (s_session_max_payload s) <? Z.of_nat (length plaintext)
  then mret ESP_FAIL
  else
    free_heap ← ask esp_get_free_heap_size;
    let needed := Z.of_nat (sizeof espnow_frame_header_t) + Z.of_nat (length plaintext)
                  + ESPNOW_SESSION_TAG_LEN in
    if free_heap <? needed + 4096 then mret ESP_ERR_ESPNOW_NO_MEM
    else
      match encrypted_frame (crypto p) (s_session_key s) (s_leaf_mac s) (packet_type_code type)
              hop_count tx_counter plaintext with
      | None => mret ESP_FAIL
      | Some frame =>
        with_session key (fun s => s <| s_tx_packets ::= fun n => u32 (n + 1) |>);;
        err ← (if send_err_fn_set (callbacks p) then ask (send_err_fn sender_mac frame)
               else ok ← ask (send_fn sender_mac frame);
                    mret (if (ok : bool) then ESP_OK else ESP_FAIL));
        delay SEND_YIELD_MS;;
        mret err
      end.

Definition send_encrypted_with_tx_counter_ (sender_mac : bytes) (key : Z)
    (type : espnow_packet_type_t) (hop_count tx_counter : Z) (plaintext : bytes) : M St bool :=
  err ← send_encrypted_with_tx_counter_result_ sender_mac key type hop_count tx_counter plaintext;
  mret (err_is err ESP_OK).

Definition send_plain_psk_ (sender_mac leaf : bytes) (type : espnow_packet_type_t)
    (hop_count tx_counter : Z) (payload : bytes) : M St bool :=
  p ← this;
  if negb (send_fn_set (callbacks p)) then mret false
  else
    ok ← ask (send_fn sender_mac (plain_frame (crypto p) leaf (packet_type_code type) hop_count
                                    tx_counter payload));
    delay SEND_YIELD_MS;;
    mret ok.

Definition fill_discover_announce_ (p : BridgeProtocol) (hops_to_bridge : Z)
    : espnow_discover_announce_t :=
  {| announce_network_id := pad_to 32 (network_id_ p);
     announce_network_id_len := u8 (Z.of_nat (length (network_id_ p)));
     announce_responder_mac := bridge_mac_ p; announce_responder_role := ESPNOW_NODE_ROLE_BRIDGE;
     announce_hops_to_bridge := hops_to_bridge; announce_bridge_reachable := 1;
     announce_flags := 0 |}.

Definition send_discover_announce_ (sender_mac leaf : bytes) (hops_to_bridge : Z) : M St bool :=
  p ← this;
  send_plain_psk_ sender_mac leaf PKT_DISCOVER_ANNOUNCE downstream_hop_count 0
    (to_bytes (fill_discover_announce_ p hops_to_bridge)).

(** [session.tx_counter++]. *)
Definition next_tx_counter (key : Z) : M St Z :=
  s ← session key;
  with_session key (fun s => s <| s_tx_counter ::= fun n => u32 (n + 1) |>);;
  mret (s_tx_counter s).

Definition send_join_ack_ (sender_mac : bytes) (key accepted reason schema_status : Z)
    : M St bool :=
  p ← this;
  s ← session key;
  when (negb (accepted =? 0))
    (with_session key (fun s => s <| s_join_in_progress := true |>);;
     when (negb (joining_in_progress_ p))
       (now ← millis;
        update (fun p => p <| joining_in_progress_ := true |>
                           <| joining_leaf_mac_ := s_leaf_mac s |>
                           <| join_started_ms_ := now |>)));;
  tx ← next_tx_counter key;
  send_plain_psk_ sender_mac (s_leaf_mac s) PKT_JOIN_ACK downstream_hop_count tx
    (to_bytes {| ja_accepted := accepted; ja_reason := reason; ja_stage := schema_status;
                 ja_bridge_nonce := s_bridge_nonce s;
                 ja_session_flags := bridge_session_flags_ p |}).

Definition send_join_complete_ (sender_mac : bytes) (key : Z) (reset_retry_state : bool)
    : M St bool :=
  sent ← send_join_ack_ sender_mac key 1 0 ESPNOW_JOIN_STATUS_COMPLETE;
  with_session key (fun s => s <| s_join_complete_pending := true |>
                               <| s_join_in_progress := false |>);;
  update (fun p => p <| joining_in_progress_ := false |>
                     <| joining_leaf_mac_ := replicate 6 0 |> <| join_started_ms_ := 0 |>);;
  now ← millis;
  with_session key (fun s => s <| s_last_join_complete_ms := now |>);;
  when reset_retry_state (with_session key (fun s => s <| s_join_complete_retry_count := 0 |>));;
  mret sent.

Definition check_and_complete_join_ (leaf : bytes) : M St unit :=
  p ← this;
  match get_session leaf p with
  | None => mret tt
  | Some s =>
    let key := mac_to_key_ leaf in
    if negb (s_state_sync_pending s) then mret tt
    else when (s_discovery_all_confirmed s && negb (s_awaiting_more_dirty s))
      (with_session key (fun s => s <| s_state_sync_pending := false |>);;
       send_join_complete_ (s_next_hop_mac s) key true;;
       mret tt)
  end.

Definition get_joining_leaf_mac (p : BridgeProtocol) : option bytes :=
  if joining_in_progress_ p then Some (joining_leaf_mac_ p) else None.

Definition send_state_ack_ (sender_mac : bytes) (key rx_counter result : Z) : M St bool :=
  send_encrypted_ sender_mac key PKT_ACK downstream_hop_count
    (to_bytes {| ack_type := ACK_STATE; ack_result := result; ack_ref_tx_counter := rx_counter |}).

Definition send_command_ack_ (sender_mac : bytes) (key field_index result : Z) : M St bool :=
  s ← session key;
  send_encrypted_ sender_mac key PKT_ACK downstream_hop_count
    (to_bytes {| ack_type := ACK_COMMAND; ack_result := result;
                 ack_ref_tx_counter := s_tx_counter s |}).

Definition send_schema_request_ (sender_mac : bytes) (key descriptor_type descriptor_index : Z)
    : M St bool :=
  sent ← send_encrypted_ sender_mac key PKT_SCHEMA_REQUEST downstream_hop_count
    (to_bytes {| sr_descriptor_type := descriptor_type; sr_descriptor_index := descriptor_index |});
  now ← millis;
  with_session key (fun s => s <| s_pending_schema_descriptor_type := descriptor_type |>
                               <| s_pending_schema_index := descriptor_index |>
                               <| s_last_schema_request_ms := now |>);;
  mret sent.

(** The loop of [send_command_fragments_] from piece [chunk] on; [fuel] is the
    number of pieces left. *)
Fixpoint send_fragments_loop (fuel chunk : nat) (sender_mac : bytes) (key field_index : Z)
    (value : bytes) (frag_size chunks tx_base : Z) (consume_tx_counter : bool) : M St bool :=
  match fuel with
  | O => mret true
  | S fuel =>
    let flags := if Z.of_nat chunk + 1 <? chunks then ESPNOW_ENTITY_FLAG_MORE_FRAGMENTS else 0 in
    let command := append_entity_payload field_index flags (u8 (Z.of_nat chunk)) (u8 chunks)
                     (fragment_value frag_size value chunk) in
    let tx_counter := u32 (tx_base + Z.of_nat chunk) in
    when consume_tx_counter
      (with_session key (fun s => s <| s_tx_counter := u32 (tx_counter + 1) |>));;
    sent ← send_encrypted_with_tx_counter_ sender_mac key PKT_COMMAND downstream_hop_count
             tx_counter command;
    if negb sent then mret false
    else
      delay SEND_YIELD_MS;;
      send_fragments_loop fuel (S chunk) sender_mac key field_index value frag_size chunks tx_base
        consume_tx_counter
  end.

Definition send_command_fragments_ (sender_mac : bytes) (key field_index : Z) (value : bytes)
    (tx_base : Z) (consume_tx_counter : bool) : M St bool :=
  s ← session key;
  let frag_size := s_max_entity_fragment s in
  let chunks := chunk_count frag_size value in
  send_fragments_loop (Z.to_nat chunks) 0 sender_mac key field_index value frag_size chunks
    tx_base consume_tx_counter.

Definition send_command_ (sender_mac : bytes) (key field_index : Z) (value : bytes)
    : M St bool :=
  s ← session key;
  sent ← send_command_fragments_ sender_mac key field_index value (s_tx_counter s) true;
  if negb sent then mret false
  else
    now ← millis;
    update (fun p => p <| command_queue_ ::= fun q => q ++ [
      {| cmd_field_index := field_index; cmd_value := value; cmd_leaf_mac := s_leaf_mac s;
         cmd_next_hop_mac := take 6 sender_mac; cmd_tx_base := s_tx_counter s;
         cmd_last_tx_ms := now; cmd_retry_count := 0 |}] |>);;
    mret true.

Definition session_usable (s : BridgeSession) : bool := s_online s && s_session_key_valid s.

Definition send_command_to_leaf (leaf : bytes) (field_index : Z) (value : bytes) : M St bool :=
  p ← this;
  match get_session leaf p with
  | None => mret false
  | Some s =>
    if negb (session_usable s) then mret false
    else send_command_ (s_next_hop_mac s) (mac_to_key_ leaf) field_index value
  end.

(** The longest configuration payload: a fragment less the packet header. *)
Definition max_config_payload : Z :=
  ESPNOW_MAX_ENTITY_FRAGMENT_LEN - Z.of_nat (sizeof espnow_config_t).

Definition send_config_frame_ (key : Z) (pending : PendingConfig) : M St bool :=
  s ← session key;
  if negb (s_session_key_valid s) || negb (s_online s) then mret false
  else if max_config_payload <? Z.of_nat (length (pc_payload pending)) then mret false
  else
    send_encrypted_with_tx_counter_ (pc_next_hop_mac pending) key PKT_CONFIG downstream_hop_count
      (pc_tx_base pending)
      (to_bytes {| cfg_command := pc_command pending; cfg_flags := 0;
                   cfg_payload_len := u8 (Z.of_nat (length (pc_payload pending))) |}
       ++ pc_payload pending).

Definition send_config_to_leaf (leaf : bytes) (command : Z) (payload : bytes)
    (callback : option Z) : M St bool :=
  if (length leaf =? 0)%nat then mret false
  else if max_config_payload <? Z.of_nat (length payload) then mret false
  else
    p ← this;
    match get_session leaf p with
    | None => mret false
    | Some s =>
      if negb (session_usable s) then mret false
      else
        let key := mac_to_key_ leaf in
        tx ← next_tx_counter key;
        now ← millis;
        let pending := {|
          pc_leaf_mac := s_leaf_mac s; pc_next_hop_mac := s_next_hop_mac s; pc_command := command;
          pc_payload := payload; pc_tx_base := tx; pc_retry_count := 0;
          pc_next_retry_ms := u32 (now + CONFIG_ACK_TIMEOUT_MS);
          pc_ack_timeout_ms := CONFIG_ACK_TIMEOUT_MS; pc_callback := callback |} in
        sent ← send_config_frame_ key pending;
        if negb sent then mret false
        else
          update (fun p => p <| pending_configs_ ::= fun l => l ++ [pending] |>);;
          mret true
    end.

(** The result and the counter written to [tx_counter_out]. *)
Definition send_ota_frame (leaf : bytes) (type : espnow_packet_type_t) (payload : bytes)
    : M St (esp_err_t * Z) :=
  if (length leaf =? 0)%nat || (length payload =? 0)%nat
     || negb (bool_decide (type = PKT_FILE_TRANSFER) || bool_decide (type = PKT_FILE_DATA))
  then mret (ESP_ERR_INVALID_ARG, 0)
  else
    p ← this;
    match get_session leaf p with
    | None => mret (ESP_ERR_NOT_FOUND, 0)
    | Some s =>
      if negb (s_session_key_valid s) then mret (ESP_ERR_NOT_FOUND, 0)
      else
        let key := mac_to_key_ leaf in
        tx ← next_tx_counter key;
        err ← send_encrypted_with_tx_counter_result_ (s_next_hop_mac s) key type
                downstream_hop_count tx payload;
        mret (err, tx)
    end.

(** [send_deauth_] to [leaf], which is told to answer [response_type]; the
    counter is the one the session spends. *)
Definition send_deauth_ (sender_mac leaf : bytes) (tx response_type response_tx : Z)
    (request_payload : bytes) : M St bool :=
  p ← this;
  send_plain_psk_ sender_mac leaf PKT_DEAUTH downstream_hop_count tx
    (to_bytes {| da_reason := 1; da_response_to_packet_type := response_type;
                 da_response_to_tx_counter := response_tx;
                 da_request_fingerprint :=
                   deauth_fingerprint (crypto p) leaf response_type response_tx request_payload |}).

Definition send_session_deauth (sender_mac : bytes) (key response_type response_tx : Z)
    (request_payload : bytes) : M St bool :=
  s ← session key;
  tx ← next_tx_counter key;
  send_deauth_ sender_mac (s_leaf_mac s) tx response_type response_tx request_payload.
End bridge.

(** ** Lemmas: keys *)
Lemma mac_to_key_num mac : length mac = 6%nat -> bytes_ok mac -> mac_to_key_ mac = le_num mac.
Proof.
  intros Hl Hok.
  assert (forall x y s, 0 <= s -> 0 <= x < 2 ^ s -> 0 <= y -> Z.lor x (Z.shiftl y s) = x + 2 ^ s * y)
    as Hor.
  { intros x y s Hs Hx Hy. pose proof (Z.add_lor_land x (Z.shiftl y s)) as E.
    assert (Z.land x (Z.shiftl y s) = 0) as E0; [|rewrite Z.shiftl_mul_pow2 in * by lia; lia].
    apply Z.bits_inj'. intros n Hn. rewrite Z.land_spec, Z.bits_0.
    destruct (decide (n < s)); [by rewrite Z.shiftl_spec_low, andb_false_r|].
    destruct (decide (x = 0)) as [->|]; [by rewrite Z.bits_0|].
    rewrite (Z.bits_above_log2 x n); [done|lia|]. apply Z.log2_lt_pow2; [lia|].
    eapply Z.lt_le_trans; [apply Hx|]. apply Z.pow_le_mono_r; lia. }
  destruct mac as [|a [|b [|c [|d [|e [|f [|]]]]]]]; try discriminate Hl.
  repeat match goal with H : Forall _ (_ :: _) |- _ => apply Forall_cons in H as [? H] end.
  unfold byte_range in *. unfold mac_to_key_, at_. cbn [foldl nth Z.of_nat].
  rewrite Z.mul_0_l, Z.shiftl_0_r, Z.lor_0_l.
  change (Z.of_nat 1 * 8) with 8. change (Z.of_nat 2 * 8) with 16.
  change (Z.of_nat 3 * 8) with 24. change (Z.of_nat 4 * 8) with 32.
  change (Z.of_nat 5 * 8) with 40.
  rewrite (Hor a b 8), (Hor _ c 16), (Hor _ d 24), (Hor _ e 32), (Hor _ f 40) by lia.
  unfold le_num. lia.
Qed.

Lemma mac_to_key_inj a b : length a = 6%nat -> bytes_ok a -> length b = 6%nat -> bytes_ok b ->
  mac_to_key_ a = mac_to_key_ b -> a = b.
Proof.
  intros La Oa Lb Ob. rewrite !mac_to_key_num by done. intros E.
  rewrite <-(le_bytes_le_num a), <-(le_bytes_le_num b) by done. by rewrite La, Lb, E.
Qed.

(** ** Lemmas: frames *)
Section frame_lemmas.
Context `{Hmac}.

(** What [parse_frame_] does with a well-formed header and what follows. *)
Lemma parse_frame_header c frame f :
  parse_frame_ c frame = Some f ->
  pf_header f = of_bytes frame /\ (17 <= length frame)%nat.
Proof.
  unfold parse_frame_.
  destruct (Nat.ltb_spec (length frame) (sizeof espnow_frame_header_t)) as [|Hl]; [done|].
  cbn zeta. destruct (_ <? _)%nat; [done|]. destruct (negb _); [done|]. destruct (negb _); [done|].
  destruct (_ <? _)%nat; [done|]. destruct (is_encrypted_packet _).
  - destruct (_ <? _)%nat; [done|]. destruct (_ =? 0); [done|]. by intros [= <-].
  - destruct (_ =? 0); [done|]. by intros [= <-].
Qed.

Lemma parse_frame_version c frame f :
  parse_frame_ c frame = Some f ->
  protocol_version (of_bytes (T := espnow_frame_header_t) frame) = ESPNOW_PROTOCOL_VER.
Proof.
  unfold parse_frame_. destruct (_ <? _)%nat; [done|]. destruct (_ <? _)%nat; [done|]. cbn zeta.
  destruct (Z.eqb_spec (protocol_version (of_bytes (T := espnow_frame_header_t) frame))
    ESPNOW_PROTOCOL_VER); [done|]. by cbn [negb].
Qed.

Lemma parse_encrypted c (h : espnow_frame_header_t) parent ciphertext tag :
  struct_ok h -> protocol_version h = ESPNOW_PROTOCOL_VER ->
  is_encrypted_packet (packet_type h) = true ->
  length parent = (if has_parent_check (hop_count h) then 6 else 0)%nat ->
  length tag = 8%nat -> (length parent + length ciphertext <= 1445)%nat ->
  g_psk_set c = true -> psk_tag h = espnow_crypto_psk_tag c (to_bytes h) ciphertext ->
  parse_frame_ c (to_bytes h ++ parent ++ ciphertext ++ tag) = Some {|
    pf_header := h; pf_payload := ciphertext; pf_session_tag := Some tag;
    pf_parent_mac := if has_parent_check (hop_count h) then parent else replicate 6 0 |}.
Proof.
  intros Hok Hv Ht Hp Htag Hlen Hpsk Hpt. pose proof (length_header h Hok) as Hl.
  unfold parse_frame_. change (sizeof espnow_frame_header_t) with 17%nat.
  change (Z.to_nat ESPNOW_V2_MAX_PAYLOAD) with 1470%nat.
  change (Z.to_nat ESPNOW_PARENT_MAC_LEN) with 6%nat.
  change (Z.to_nat ESPNOW_SESSION_TAG_LEN) with 8%nat. cbn zeta.
  rewrite (of_to_bytes h) by done. rewrite Hv, Ht, (is_encrypted_is_valid _ Ht). cbn [negb Z.eqb].
  assert (length (to_bytes h ++ parent ++ ciphertext ++ tag) =
    17 + length parent + length ciphertext + 8)%nat as Hall by (rewrite !length_app; lia).
  rewrite Hall, Hp.
  set (hs := (17 + _)%nat).
  assert (hs = length (to_bytes h ++ parent)) as Ehs
    by (subst hs; rewrite length_app, Hl, Hp; by destruct (has_parent_check _)).
  rewrite (proj2 (Nat.ltb_ge _ 17)) by lia.
  rewrite (proj2 (Nat.ltb_ge 1470 _)) by lia.
  rewrite (proj2 (Nat.ltb_ge _ hs)) by (subst hs; destruct (has_parent_check _); lia).
  rewrite (assoc_L (++) (to_bytes h) parent), (drop_app_length' (to_bytes h ++ parent)) by done.
  rewrite length_app, Htag. rewrite (proj2 (Nat.ltb_ge _ 8)) by lia.
  rewrite Nat.add_sub, take_app_length.
  replace (drop _ ((to_bytes h ++ parent) ++ ciphertext ++ tag)) with tag.
  2: { rewrite (assoc_L (++)), drop_app_length'; [done|]. rewrite !length_app. lia. }
  assert (espnow_crypto_verify_psk_tag c ((to_bytes h ++ parent) ++ ciphertext ++ tag) ciphertext
            (psk_tag h) = 1) as ->.
  { destruct Hok as (? & ? & ? & ? & ? & ? & ? & ?). apply verify_psk_tag_iff; [done|lia|].
    split; [done|]. rewrite take_ge by lia. rewrite Hpt at 1.
    unfold espnow_crypto_psk_tag. rewrite <-(assoc_L (++)), tag_data_app; [done|].
    cbn; auto 10. }
  cbn [Z.eqb]. do 2 f_equal. destruct (has_parent_check _); [|done].
  rewrite <-(assoc_L (++)). rewrite (slice_app_skip _ _ _ _ 17) by lia.
  rewrite slice_app_hit by lia. done.
Qed.
End frame_lemmas.

(** ** The secure channel *)
Section channel.
Context `{Hmac}.

Lemma parse_frame_tagged c frame f :
  bytes_ok frame -> parse_frame_ c frame = Some f ->
  g_psk_set c = true /\
  psk_tag (pf_header f) = espnow_crypto_psk_tag c (to_bytes (pf_header f)) (pf_payload f) /\
  match pf_session_tag f with
  | Some tag => is_encrypted_packet (packet_type (pf_header f)) = true /\
                bytes_ok tag /\ length tag = 8%nat
  | None => is_encrypted_packet (packet_type (pf_header f)) = false
  end.
Proof.
  intros Hok Hp. destruct (parse_frame_header c frame f Hp) as [Hh Hl].
  pose proof (of_bytes_ok (T := espnow_frame_header_t) frame Hok Hl) as Hhok.
  rewrite <-Hh in Hhok.
  assert (tag_data frame (pf_payload f) = tag_data (to_bytes (pf_header f)) (pf_payload f)) as Htd.
  { rewrite Hh, to_of_bytes by done. unfold tag_data. f_equal. unfold slice.
    rewrite skipn_firstn_comm, take_take. done. }
  assert (espnow_crypto_verify_psk_tag c frame (pf_payload f) (psk_tag (pf_header f)) <> 0 /\
          match pf_session_tag f with
          | Some tag => is_encrypted_packet (packet_type (pf_header f)) = true /\
                        bytes_ok tag /\ length tag = 8%nat
          | None => is_encrypted_packet (packet_type (pf_header f)) = false
          end) as [Hne Htag].
  { clear Htd Hhok. unfold parse_frame_ in Hp. cbn zeta in Hp.
    repeat (case_match; simplify_eq; cbn [pf_header pf_payload pf_session_tag] in *; try done).
    all: rewrite ?Z.eqb_neq, ?Nat.ltb_ge in *; (split; [assumption|]); try assumption.
    all: (split; [assumption|]); (split; [by apply Forall_drop|]).
    all: rewrite length_drop in *; change (Z.to_nat ESPNOW_SESSION_TAG_LEN) with 8%nat in *; lia. }
  destruct Hhok as (_ & _ & _ & _ & _ & _ & Htl & Hto).
  assert (espnow_crypto_verify_psk_tag c frame (pf_payload f) (psk_tag (pf_header f)) = 1) as H1.
  { revert Hne. unfold espnow_crypto_verify_psk_tag. destruct (negb _); [done|].
    by destruct (constant_time_equal _ _ _). }
  apply verify_psk_tag_iff in H1 as [Hpsk Etk]; [|done|lia]. rewrite take_ge in Etk by lia.
  split; [done|]. split; [|done]. rewrite Etk at 1. unfold espnow_crypto_psk_tag. by rewrite Htd.
Qed.

Lemma validate_accepts c s header payload stag plaintext :
  (forall tag, stag = Some tag -> bytes_ok tag /\ length tag = 8%nat) ->
  validate_session_packet_ c s header payload stag = Some plaintext ->
  s_session_key_valid s = true /\
  exists tag, stag = Some tag /\
    tag = espnow_crypto_session_tag (s_session_key s) (to_bytes header) payload /\
    plaintext = aes256_ctr_crypt (s_session_key s) (tx_counter header) payload.
Proof.
  intros Hs. unfold validate_session_packet_.
  destruct (s_session_key_valid s); [|done]. destruct stag as [tag|]; [|done]. cbn [negb].
  destruct (Hs tag eq_refl) as [Hto Htl].
  destruct (Z.eqb_spec (espnow_crypto_verify_session_tag (s_session_key s) (to_bytes header)
    payload tag) 0) as [|Hne]; [done|].
  assert (espnow_crypto_verify_session_tag (s_session_key s) (to_bytes header) payload tag = 1)
    as H1.
  { revert Hne. unfold espnow_crypto_verify_session_tag. by destruct (constant_time_equal _ _ _). }
  apply verify_session_tag_iff in H1; [|done|lia]. rewrite take_ge in H1 by lia.
  unfold espnow_crypto_crypt. destruct (_ || _); [done|]. intros E. apply (inj Some) in E.
  split; [done|]. by exists tag.
Qed.

Lemma length_encrypted_frame c key leaf type hop tx plaintext frame :
  g_psk_set c = true -> length key = 32%nat -> bytes_ok key -> length leaf = 6%nat ->
  bytes_ok leaf -> 0 <= tx < 4294967296 -> 0 <= hop < 256 -> 0 <= type < 256 ->
  encrypted_frame c key leaf type hop tx plaintext = Some frame ->
  length frame = (17 + length plaintext + 8)%nat.
Proof.
  intros Hpsk Hkl Hko Hll Hlo Htx Hhop Hty. unfold encrypted_frame, espnow_crypto_crypt.
  rewrite Hpsk, Hkl. cbn [negb orb Nat.eqb mbind option_bind].
  set (ct := aes256_ctr_crypt key tx plaintext).
  assert (length ct = length plaintext) as <- by (by apply length_ctr_crypt).
  set (h0 := Build_espnow_frame_header_t _ _ _ _ _ _).
  destruct (psk_tag_ok c (to_bytes h0) ct) as [Htl Hto].
  set (h := h0 <| psk_tag := espnow_crypto_psk_tag c (to_bytes h0) ct |>).
  assert (struct_ok h) as Hok by (subst h h0; unfold upd; cbn; split_and!; try done; lia).
  intros E. apply (inj Some) in E as <-. rewrite !length_app, length_header by done.
  rewrite (proj1 (session_tag_ok _ _ _)). lia.
Qed.

(** A frame encrypted with the receiver's keys is accepted, however it was relayed. *)
Lemma channel_complete c s leaf type hop tx plaintext frame hop' parent :
  g_psk_set c = true -> s_session_key_valid s = true ->
  length (s_session_key s) = 32%nat -> bytes_ok (s_session_key s) ->
  length leaf = 6%nat -> bytes_ok leaf -> 0 <= tx < 4294967296 ->
  0 <= hop < 256 -> 0 <= hop' < 256 -> is_encrypted_packet (packet_type_code type) = true ->
  length parent = 6%nat ->
  (length plaintext + (if has_parent_check hop' then 6 else 0) <= 1445)%nat ->
  encrypted_frame c (s_session_key s) leaf (packet_type_code type) hop tx plaintext = Some frame ->
  exists f,
    parse_frame_ c (relayed hop' parent frame) = Some f /\
    packet_type_of (packet_type (pf_header f)) = Some type /\ leaf_mac (pf_header f) = leaf /\
    tx_counter (pf_header f) = tx /\ hop_count (pf_header f) = hop' /\
    pf_parent_mac f = (if has_parent_check hop' then parent else replicate 6 0) /\
    validate_session_packet_ c s (pf_header f) (pf_payload f) (pf_session_tag f)
      = Some plaintext.
Proof.
  intros Hpsk Hkv Hkl Hko Hll Hlo Htx Hhop Hhop' Henc Hpar Hlen Hframe.
  unfold encrypted_frame, espnow_crypto_crypt in Hframe. rewrite Hpsk, Hkl in Hframe.
  cbn [negb orb Nat.eqb mbind option_bind] in Hframe.
  set (ct := aes256_ctr_crypt (s_session_key s) tx plaintext) in *.
  assert (length ct = length plaintext) as Hct by (by apply length_ctr_crypt).
  assert (0 <= packet_type_code type < 256) as Hty by (by destruct type).
  set (h0 := Build_espnow_frame_header_t _ _ _ _ _ _) in *.
  assert (struct_ok h0) as Hok0.
  { subst h0. cbn. split_and!; try done; try lia. by apply byteb_ok. }
  set (h := h0 <| psk_tag := espnow_crypto_psk_tag c (to_bytes h0) ct |>) in *.
  destruct (psk_tag_ok c (to_bytes h0) ct) as [Htl Hto].
  assert (struct_ok h) as Hok by (subst h h0; unfold upd; cbn; split_and!; try done; lia).
  apply (inj Some) in Hframe as <-.
  set (h' := h <| hop_count := hop' |>).
  assert (struct_ok h') as Hok' by (subst h' h h0; unfold upd; cbn; split_and!; try done; lia).
  destruct (session_tag_ok (s_session_key s) (to_bytes h) ct) as [Hsl Hso].
  rewrite relayed_header by done. fold h'.
  assert (psk_tag h' = espnow_crypto_psk_tag c (to_bytes h') ct) as Ept.
  { change (psk_tag h') with (espnow_crypto_psk_tag c (to_bytes h0) ct).
    unfold espnow_crypto_psk_tag. by rewrite (tag_data_same h0 h') by done. }
  rewrite (parse_encrypted c h' (if has_parent_check hop' then parent else []) ct); try done.
  2: { change (hop_count h') with hop'. by destruct (has_parent_check hop'). }
  2: { destruct (has_parent_check hop'); cbn [length]; lia. }
  eexists. split; [done|]. cbn [pf_header pf_parent_mac pf_payload pf_session_tag].
  change (packet_type h') with (packet_type_code type). rewrite packet_type_of_code.
  split_and!; try done.
  { change (hop_count h') with hop'. by destruct (has_parent_check hop'). }
  unfold validate_session_packet_. rewrite Hkv. cbn [negb].
  assert (espnow_crypto_verify_session_tag (s_session_key s) (to_bytes h') ct
            (espnow_crypto_session_tag (s_session_key s) (to_bytes h) ct) = 1) as ->.
  { apply verify_session_tag_iff; [done|lia|]. rewrite take_ge by lia.
    unfold espnow_crypto_session_tag. by rewrite (tag_data_same h h') by done. }
  cbn [Z.eqb]. unfold espnow_crypto_crypt. rewrite Hpsk, Hkl. cbn [negb orb Nat.eqb].
  change (tx_counter h') with tx. f_equal. by apply ctr_crypt_involutive.
Qed.

(** C16: The secure channel, completeness.  A frame the bridge encrypts for a
    leaf ([send_encrypted_]) is accepted, whatever hop byte the relays on the
    way give it and whatever parent address they insert, by every receiver with
    the same pre-shared key and session key: [parse_frame_] returns the type,
    leaf and counter it was sent with and [validate_session_packet_] the
    plaintext, byte for byte. *)
Theorem relayed_frame_accepted c s leaf type hop tx plaintext frame hop' parent :
  g_psk_set c = true -> s_session_key_valid s = true ->
  length (s_session_key s) = 32%nat -> bytes_ok (s_session_key s) ->
  length leaf = 6%nat -> bytes_ok leaf -> 0 <= tx < 4294967296 ->
  0 <= hop < 256 -> 0 <= hop' < 256 -> is_encrypted_packet (packet_type_code type) = true ->
  length parent = 6%nat ->
  (length plaintext + (if has_parent_check hop' then 6 else 0) <= 1445)%nat ->
  encrypted_frame c (s_session_key s) leaf (packet_type_code type) hop tx plaintext = Some frame ->
  exists f,
    parse_frame_ c (relayed hop' parent frame) = Some f /\
    packet_type_of (packet_type (pf_header f)) = Some type /\ leaf_mac (pf_header f) = leaf /\
    tx_counter (pf_header f) = tx /\ hop_count (pf_header f) = hop' /\
    pf_parent_mac f = (if has_parent_check hop' then parent else replicate 6 0) /\
    validate_session_packet_ c s (pf_header f) (pf_payload f) (pf_session_tag f)
      = Some plaintext.
Proof. apply channel_complete. Qed.

(** C15: The secure channel, soundness.  A frame that [parse_frame_] and
    [validate_session_packet_] accept was tagged with both keys: its 4-byte PSK
    tag and its 8-byte session tag are the tags of its own type, leaf, counter
    and ciphertext, and the plaintext is the decryption of the ciphertext under
    that counter.  Without a pre-shared key or a session key nothing is
    accepted. *)
Theorem accepted_frame_authentic c s frame f plaintext :
  bytes_ok frame -> parse_frame_ c frame = Some f ->
  validate_session_packet_ c s (pf_header f) (pf_payload f) (pf_session_tag f)
    = Some plaintext ->
  g_psk_set c = true /\ s_session_key_valid s = true /\
  psk_tag (pf_header f) = espnow_crypto_psk_tag c (to_bytes (pf_header f)) (pf_payload f) /\
  pf_session_tag f =
    Some (espnow_crypto_session_tag (s_session_key s) (to_bytes (pf_header f)) (pf_payload f)) /\
  is_encrypted_packet (packet_type (pf_header f)) = true /\
  plaintext = aes256_ctr_crypt (s_session_key s) (tx_counter (pf_header f)) (pf_payload f).
Proof.
  intros Hok Hp Hv. destruct (parse_frame_tagged c frame f Hok Hp) as (Hpsk & Htag & Henc).
  destruct (validate_accepts c s (pf_header f) (pf_payload f) (pf_session_tag f) plaintext)
    as (Hkv & tag & Ht & Hst & Hpl); [|done|].
  { intros tag Ht. rewrite Ht in Henc. apply Henc. }
  rewrite Ht in Henc |- *. destruct Henc as (Henc & _). by rewrite Hst.
Qed.
End channel.
