(* ===== verification/BridgeProtocol.v ===== *)
(** * BridgeProtocol: the bridge's frame handlers

    Models the frame handlers, the join procedure, schema synchronisation and
    state delivery of
    [src/device_code/components/esp_tree_bridge/bridge_protocol.cpp], over the
    sessions and send functions of BridgeSession. *)
From stdpp Require Import sorting.
From S2P Require Import Prelude Wire Crypto Frames Fragments OtaManager BridgeSession.

(** ** Entity types *)

(** Entity types no discovery is published for. *)
Definition unimplemented_type (b : Z) : bool :=
  type_is b FIELD_TYPE_CLIMATE || type_is b FIELD_TYPE_HUMIDIFIER
  || type_is b FIELD_TYPE_DEHUMIDIFIER || type_is b FIELD_TYPE_TIME
  || type_is b FIELD_TYPE_DATETIME.
Definition is_commandable (b : Z) : bool :=
  negb (type_is b FIELD_TYPE_SENSOR || type_is b FIELD_TYPE_BINARY || type_is b FIELD_TYPE_BUTTON
        || type_is b FIELD_TYPE_EVENT || type_is b FIELD_TYPE_TEXT_SENSOR).

(** ** Session updates without effects *)

(** The stage a repeated JOIN is answered with. *)
Definition retry_stage (s : BridgeSession) : Z :=
  if s_join_complete_pending s then ESPNOW_JOIN_STATUS_COMPLETE
  else if s_state_sync_pending s || s_schema_received s then ESPNOW_JOIN_STATUS_SEND_STATE
  else ESPNOW_JOIN_STATUS_SCHEMA_REFRESH.

Definition same_join (s : BridgeSession) (join : espnow_join_t) : bool :=
  bytes_eqb (s_remote_nonce s) (join_remote_nonce join)
  && bytes_eqb (s_schema_hash s) (join_schema_hash join).

(** The names are cleared, the build strings and the chip stay. *)
Definition forget_names (i : Identity) : Identity :=
  i <| esphome_name := [] |> <| node_label := [] |> <| firmware_epoch := 0 |>
    <| project_name := [] |> <| project_version := [] |>.

(** The frame size both ends of the session can use. *)
Definition negotiate_mtu (bridge_flags leaf_flags : Z) (s : BridgeSession) : BridgeSession :=
  let s := s <| s_session_max_payload := ESPNOW_V1_MAX_PAYLOAD |>
             <| s_max_entity_fragment := ESPNOW_MAX_ENTITY_FRAGMENT_LEN |>
             <| s_max_assembly_bytes := ESPNOW_MAX_FRAGMENT_ASSEMBLY_BYTES |>
             <| s_max_total_fragment_bytes := ESPNOW_MAX_TOTAL_FRAGMENT_BYTES_PER_SESSION |>
             <| s_leaf_session_flags := leaf_flags |> in
  if negb (Z.land leaf_flags ESPNOW_SESSION_FLAG_V2_MTU =? 0)
     && negb (Z.land bridge_flags ESPNOW_SESSION_FLAG_V2_MTU =? 0)
  then update_from_mtu (s <| s_session_max_payload := ESPNOW_V2_MAX_PAYLOAD |>)
  else s <| s_session_max_payload := ESPNOW_V1_MAX_PAYLOAD |>.

Definition adopt_cached (c : CachedSessionData) (s : BridgeSession) : BridgeSession :=
  s <| s_schema_entities := cached_schema_entities c |> <| s_identity := cached_identity c |>
    <| s_session_max_payload := cached_session_max_payload c |>.

(** [join_in_progress_] and the session are given up when a send fails. *)
Definition abandon_join (s : BridgeSession) : BridgeSession :=
  s <| s_join_in_progress := false |> <| s_online := false |> <| s_remote_state := NONE |>
    <| s_schema_request_in_flight := false |> <| s_session_key_valid := false |>.

Definition resize_entities (n : nat) (l : list espnow_entity_schema_t) :=
  l ++ replicate (n - length l) blank_entity.

(** The entity of a schema descriptor. *)
Definition entity_of_push (push : SchemaPushView) : espnow_entity_schema_t :=
  {| entity_index := spv_entity_index push; entity_type := spv_entity_type push;
     entity_name := cstring 32 (spv_entity_name push);
     entity_unit := cstring 8 (spv_entity_unit push);
     entity_options := cstring (Nat.min (length (spv_entity_options push)) ESPNOW_SCHEMA_OPTIONS_LEN)
                         (spv_entity_options push);
     entity_id := cstring ESPNOW_ENTITY_ID_LEN (spv_entity_id push) |}.

Definition store_entity (push : SchemaPushView) (s : BridgeSession) : BridgeSession :=
  let i := Z.to_nat (spv_entity_index push) in
  let entities := if (length (s_schema_entities s) <=? i)%nat
                  then resize_entities (S i) (s_schema_entities s) else s_schema_entities s in
  s <| s_schema_entities := <[i := entity_of_push push]> entities |>
    <| s_total_entities := spv_total_entities push |>.

Definition adopt_identity (v : IdentityDescriptorView) (s : BridgeSession) : BridgeSession :=
  s <| s_identity := {|
         esphome_name := cstring ESPNOW_NODE_ID_LEN (idv_esphome_name v);
         node_label := cstring ESPNOW_NODE_LABEL_LEN (idv_node_label v);
         firmware_epoch := idv_firmware_epoch v;
         build_date := cstring 16 (idv_build_date v); build_time := cstring 16 (idv_build_time v);
         project_name := cstring ESPNOW_PROJECT_NAME_LEN (idv_project_name v);
         project_version := cstring ESPNOW_PROJECT_VERSION_LEN (idv_project_version v);
         chip_model := idv_chip_model v; firmware_md5 := take 16 (idv_firmware_md5 v) |} |>
    <| s_total_entities := idv_total_entities v |>.

Section handlers.
Context {W : Type} `{!BridgeEnv W} `{!Hmac}.
Abbreviation St := (BridgeProtocol * W)%type.

(** ** Availability and the caches *)
Definition mark_online_ (key rssi tx_counter remote_reported_rssi : Z) : M St unit :=
  s ← session key;
  now ← millis;
  with_session key (fun s => s <| s_online := true |> <| s_last_seen_counter := tx_counter |>
    <| s_joined_ms := now |>
    <| s_last_rssi := if remote_reported_rssi =? 0 then rssi else remote_reported_rssi |>
    <| s_last_offline_reason := [] |>);;
  publish_availability (s_leaf_mac s) true (if s_joined_ms s =? 0 then "joined" else "rejoined");;
  publish_topology (s_leaf_mac s) "node_joined".

Definition go_offline (key : Z) : M St unit :=
  s ← session key;
  publish_availability (s_leaf_mac s) false "timeout";;
  publish_topology (s_leaf_mac s) "node_offline".

Definition refresh_schema_cache_ (key : Z) : M St unit :=
  s ← session key;
  let cache_key := schema_cache_key_ s in
  update (fun p => p
    <| schema_cache_ ::= <[cache_key := {|
         cached_schema_entities := s_schema_entities s; cached_identity := s_identity s;
         cached_session_max_payload := s_session_max_payload s |}]> |>
    <| schema_hash_cache_ ::= <[cache_key := s_schema_hash s]> |>).

Definition drop_caches (s : BridgeSession) : M St unit :=
  update (fun p => p <| schema_cache_ ::= delete (schema_cache_key_ s) |>
                     <| schema_hash_cache_ ::= delete (schema_cache_key_ s) |>).

Definition publish_entity (s : BridgeSession) (e : espnow_entity_schema_t) : M St unit :=
  when (negb (entity_type e =? 0) && negb (unimplemented_type (entity_type e)))
    (env (publish_discovery_fn (s_leaf_mac s) e (s_total_entities s)
            (is_commandable (entity_type e)))).

Definition publish_discovery_for_entity_ (key index : Z) : M St unit :=
  p ← this;
  s ← session key;
  if negb (publish_discovery_fn_set (callbacks p)) then mret tt
  else match s_schema_entities s !! Z.to_nat index with
  | None => mret tt
  | Some e => publish_entity s e
  end.

Fixpoint publish_entities (s : BridgeSession) (l : list espnow_entity_schema_t) : M St unit :=
  match l with
  | [] => mret tt
  | e :: l => publish_entity s e;; publish_entities s l
  end.
Definition publish_all_entities_ (key : Z) : M St unit :=
  p ← this;
  s ← session key;
  when (publish_discovery_fn_set (callbacks p)) (publish_entities s (s_schema_entities s)).

Definition schema_complete (key : Z) : M St unit :=
  s ← session key;
  notify schema_complete_fn_set (schema_complete_fn (s_leaf_mac s) (s_total_entities s)).

(** ** Discovery *)
Definition handle_discover_ (sender_mac : bytes) (header : espnow_frame_header_t)
    (payload : bytes) : M St bool :=
  p ← this;
  if (length sender_mac =? 0)%nat then mret false
  else if negb (length payload =? sizeof espnow_discover_t)%nat then mret false
  else
    let discover : espnow_discover_t := of_bytes payload in
    if negb (discover_network_id_len discover =? Z.of_nat (length (network_id_ p)))
    then mret false
    else if negb (bytes_eqb (take (length (network_id_ p)) (discover_network_id discover))
                    (network_id_ p)) then mret false
    else
      key ← ensure_session_ (leaf_mac header);
      match key with
      | None => mret false
      | Some key =>
        random ← ask esp_random;
        now ← millis;
        with_session key (fun s => s
          <| s_discover_announce_deadline_ms :=
               u32 (now + random mod (ESPNOW_DISCOVER_ANNOUNCE_JITTER_MS + 1)) |>
          <| s_discover_announce_leaf_mac := take 6 sender_mac |>);;
        mret true
      end.

(** ** Joining *)

(** The session a fresh JOIN starts with. *)
Definition begin_join (p : BridgeProtocol) (sender_mac : bytes) (header : espnow_frame_header_t)
    (join : espnow_join_t) (rssi now : Z) (bridge_nonce : bytes) (s : BridgeSession)
    : BridgeSession :=
  let s := s
    <| s_join_in_progress := false |>
    <| s_remote_nonce := join_remote_nonce join |> <| s_remote_nonce_valid := true |>
    <| s_bridge_nonce := bridge_nonce |> <| s_bridge_nonce_valid := true |>
    <| s_join_complete_pending := false |> <| s_join_complete_retry_count := 0 |>
    <| s_session_key := espnow_crypto_derive_session_key (crypto p) bridge_nonce
                          (join_remote_nonce join) |>
    <| s_session_key_valid := true |> <| s_identity ::= forget_names |> in
  let s := negotiate_mtu (bridge_session_flags_ p) (join_session_flags join) s in
  s <| s_schema_hash := join_schema_hash join |> <| s_next_hop_mac := take 6 sender_mac |>
    <| s_hops_to_bridge := ESPNOW_HOPS_COUNT (hop_count header) |>
    <| s_last_reported_hops_to_bridge := ESPNOW_HOPS_COUNT (hop_count header) |>
    <| s_remote_state := JOINED |> <| s_last_seen_bridge_uptime_s := now / 1000 |>
    <| s_last_seen_counter := tx_counter header |> <| s_last_rssi := rssi |>
    <| s_pending_schema_index := 255 |>
    <| s_pending_schema_descriptor_type := ESPNOW_DESCRIPTOR_TYPE_ENTITY |>
    <| s_schema_request_retries := 0 |> <| s_schema_request_in_flight := false |>
    <| s_last_completed_state_message_tx_base := 0 |> <| s_state_sync_pending := false |>
    <| s_state_assemblies := no_reassembly |> <| s_schema_assemblies := no_reassembly |>.

(** A leaf whose schema is known goes on with its state. *)
Definition join_cached (sender_mac : bytes) (join : espnow_join_t) (key : Z)
    (cached : option CachedSessionData) : M St bool :=
  with_session key (fun s =>
    let s := match cached with Some c => adopt_cached c s | None => s end in
    s <| s_schema_received := true |>
      <| s_total_entities := u8 (Z.of_nat (length (s_schema_entities s))) |>);;
  schema_complete key;;
  if join_dirty_count join =? 0 then send_join_complete_ sender_mac key true
  else
    with_session key (fun s => s <| s_state_sync_pending := true |>
                                 <| s_awaiting_more_dirty := true |>);;
    sent ← send_join_ack_ sender_mac key 1 0 ESPNOW_JOIN_STATUS_SEND_STATE;
    if negb sent then
      with_session key (fun s => abandon_join s <| s_schema_received := false |>);; mret false
    else mret true.

(** Any other leaf is asked for its schema, identity first. *)
Definition join_refresh (sender_mac : bytes) (key : Z) : M St bool :=
  with_session key (fun s => s <| s_schema_entities := [] |> <| s_schema_received := false |>
    <| s_pending_schema_descriptor_type := ESPNOW_DESCRIPTOR_TYPE_IDENTITY |>
    <| s_pending_schema_index := 0 |>);;
  join_ack_ok ← send_join_ack_ sender_mac key 1 0 ESPNOW_JOIN_STATUS_SCHEMA_REFRESH;
  if negb join_ack_ok then with_session key abandon_join;; mret false
  else
    with_session key (fun s => s <| s_schema_request_retries := 0 |>);;
    sent ← send_schema_request_ sender_mac key ESPNOW_DESCRIPTOR_TYPE_IDENTITY 0;
    with_session key (fun s => s <| s_schema_request_in_flight := sent |>);;
    if negb sent then
      with_session key (fun s => abandon_join s <| s_schema_received := false |>);; mret false
    else
      now ← millis;
      with_session key (fun s => s <| s_last_schema_request_ms := now |>);;
      mret true.

Definition fresh_join (sender_mac : bytes) (header : espnow_frame_header_t)
    (join : espnow_join_t) (rssi key : Z) : M St bool :=
  bridge_nonce ← ask (fill_random_bytes 16);
  p ← this;
  now ← millis;
  s ← session key;
  let prior_esphome_name := esphome_name (s_identity s) in
  with_session key (begin_join p sender_mac header join rssi now bridge_nonce);;
  s ← session key;
  let cache_key := if (length prior_esphome_name =? 0)%nat then schema_cache_key_ s
                   else prior_esphome_name in
  if bool_decide (schema_hash_cache_ p !! cache_key = Some (s_schema_hash s))
  then join_cached sender_mac join key (schema_cache_ p !! cache_key)
  else join_refresh sender_mac key.

Definition handle_join_ (sender_mac : bytes) (header : espnow_frame_header_t)
    (payload : bytes) (rssi : Z) : M St bool :=
  if (length sender_mac =? 0)%nat then mret false
  else if negb (length payload =? sizeof espnow_join_t)%nat then mret false
  else
    let join : espnow_join_t := of_bytes payload in
    key ← ensure_session_ (leaf_mac header);
    match key with
    | None => mret false
    | Some key =>
      p ← this;
      s ← session key;
      if joining_in_progress_ p && negb (bytes_eqb (leaf_mac header) (joining_leaf_mac_ p))
      then send_join_ack_ sender_mac key 0 ESPNOW_JOIN_REASON_WAIT 0
      else if s_join_in_progress s && same_join s join then
        now ← millis;
        with_session key (fun s => s <| s_next_hop_mac := take 6 sender_mac |>
          <| s_last_seen_bridge_uptime_s := now / 1000 |>
          <| s_last_seen_counter := tx_counter header |> <| s_last_rssi := rssi |>);;
        send_join_ack_ sender_mac key 1 0 (retry_stage s)
      else fresh_join sender_mac header join rssi key
    end.

(** ** Schema synchronisation *)
Definition schema_identity (sender_mac : bytes) (key : Z) (complete : bytes) : M St bool :=
  match parse_identity_descriptor_payload complete with
  | None => mret false
  | Some (identity, descriptor_index) =>
    if negb (descriptor_index =? 0) then mret false
    else
      with_session key (fun s => adopt_identity identity s
        <| s_pending_schema_descriptor_type := ESPNOW_DESCRIPTOR_TYPE_ENTITY |>
        <| s_pending_schema_index := 0 |> <| s_schema_request_retries := 0 |>);;
      s ← session key;
      when (negb (length (s_schema_entities s) =? 0)%nat)
        (clear_entities (s_leaf_mac s) (s_schema_entities s));;
      if idv_total_entities identity =? 0 then
        with_session key (fun s => s <| s_schema_received := true |>
          <| s_schema_request_in_flight := false |> <| s_pending_schema_index := 255 |>);;
        refresh_schema_cache_ key;;
        publish_all_entities_ key;;
        schema_complete key;;
        send_join_complete_ sender_mac key true
      else
        sent ← send_schema_request_ sender_mac key ESPNOW_DESCRIPTOR_TYPE_ENTITY 0;
        with_session key (fun s => s <| s_schema_request_in_flight := sent |>);;
        now ← millis;
        when sent (with_session key (fun s => s <| s_last_schema_request_ms := now |>));;
        mret sent
  end.

(** The last entity has arrived: publish and wait for the leaf's state. *)
Definition schema_finished (sender_mac : bytes) (key total_entities : Z) : M St bool :=
  with_session key (fun s => s <| s_schema_received := true |>
    <| s_schema_request_in_flight := false |> <| s_pending_schema_index := 255 |>
    <| s_pending_schema_descriptor_type := ESPNOW_DESCRIPTOR_TYPE_ENTITY |>);;
  refresh_schema_cache_ key;;
  publish_all_entities_ key;;
  with_session key (fun s => s <| s_pending_discovery_count := 0 |>
    <| s_discovery_all_confirmed := true |>);;
  schema_complete key;;
  if total_entities =? 0 then send_join_complete_ sender_mac key true
  else
    with_session key (fun s => s <| s_state_sync_pending := true |>
                                 <| s_awaiting_more_dirty := true |>);;
    send_join_ack_ sender_mac key 1 0 ESPNOW_JOIN_STATUS_SEND_STATE.

Definition schema_entity (sender_mac : bytes) (key : Z) (complete : bytes) : M St bool :=
  match parse_schema_push_payload complete with
  | None => mret false
  | Some push =>
    if negb (spv_descriptor_type push =? ESPNOW_DESCRIPTOR_TYPE_ENTITY) then mret false
    else
      with_session key (fun s => store_entity push s <| s_next_hop_mac := take 6 sender_mac |>);;
      if (spv_total_entities push =? 0)
         || (spv_total_entities push <=? spv_entity_index push + 1)
      then schema_finished sender_mac key (spv_total_entities push)
      else
        with_session key (fun s => s <| s_awaiting_discovery_confirm := false |>
          <| s_pending_schema_request_index := 255 |> <| s_last_discovery_confirm_ms := 0 |>
          <| s_pending_schema_descriptor_type := ESPNOW_DESCRIPTOR_TYPE_ENTITY |>
          <| s_pending_schema_index := spv_entity_index push |>
          <| s_schema_request_retries := 1 |>);;
        publish_discovery_for_entity_ key (spv_entity_index push);;
        sent ← send_schema_request_ sender_mac key ESPNOW_DESCRIPTOR_TYPE_ENTITY
                 (u8 (spv_entity_index push + 1));
        with_session key (fun s => s <| s_schema_request_in_flight := sent |>);;
        now ← millis;
        when sent (with_session key (fun s => s <| s_last_schema_request_ms := now |>));;
        mret sent
  end.

(** The fragment of a descriptor goes to its assembly; the assembly comes back. *)
Definition admit_schema_fragment (key : Z) (view : EntityPayloadView) (message_tx_base now : Z)
    : M St (bool * espnow_fragment_assembly_t) :=
  s ← session key;
  let '(ok, table) := admit_fragment (s_schema_assemblies s) view message_tx_base now
    (s_max_entity_fragment s) (s_max_assembly_bytes s) (s_max_total_fragment_bytes s) in
  with_session key (fun s => s <| s_schema_assemblies := table |>);;
  mret (ok, default fresh_assembly (assemblies table !! view_entity_index view)).

Definition handle_schema_push_ (sender_mac : bytes) (header : espnow_frame_header_t)
    (payload : bytes) (session_tag : option bytes) : M St bool :=
  p ← this;
  match get_session (leaf_mac header) p with
  | None => mret false
  | Some s =>
    let key := mac_to_key_ (leaf_mac header) in
    if negb (counter_is_newer (tx_counter header) (s_last_seen_counter s)) then mret false
    else match validate_session_packet_ (crypto p) s header payload session_tag with
    | None => mret false
    | Some plaintext =>
      match parse_entity_payload plaintext with
      | None => mret false
      | Some view =>
        now ← millis;
        '(ok, assembly) ← admit_schema_fragment key view (fragment_message_tx_base header view) now;
        if negb ok then mret false
        else
          with_session key (fun s => s
            <| s_last_seen_counter ::= fun c => Z.max c (tx_counter header) |>
            <| s_last_seen_bridge_uptime_s := now / 1000 |>
            <| s_pending_schema_index := view_entity_index view |>
            <| s_schema_request_retries := 0 |> <| s_last_schema_request_ms := 0 |>);;
          if negb (fragment_assembly_complete_ assembly) then mret true
          else
            let complete := assemble_fragment_payload_ assembly (s_max_entity_fragment s) in
            with_session key (fun s => s <| s_schema_assemblies ::= fun r =>
              take_assembly r (view_entity_index view)
                (fragment_reserve (s_max_entity_fragment s) assembly) |>);;
            if (length complete <? 2)%nat then mret false
            else if at_ complete 0 =? ESPNOW_DESCRIPTOR_TYPE_IDENTITY
            then schema_identity sender_mac key complete
            else schema_entity sender_mac key complete
      end
    end
  end.

(** ** State *)
Definition admit_state_fragment (key : Z) (view : EntityPayloadView) (message_tx_base now : Z)
    : M St (bool * espnow_fragment_assembly_t) :=
  s ← session key;
  let '(ok, table) := admit_fragment (s_state_assemblies s) view message_tx_base now
    (s_max_entity_fragment s) (s_max_assembly_bytes s) (s_max_total_fragment_bytes s) in
  with_session key (fun s => s <| s_state_assemblies := table |>);;
  mret (ok, default fresh_assembly (assemblies table !! view_entity_index view)).

Definition handle_state_ (sender_mac : bytes) (header : espnow_frame_header_t)
    (payload : bytes) (rssi : Z) (session_tag : option bytes) : M St bool :=
  p ← this;
  match get_session (leaf_mac header) p with
  | None => mret false
  | Some s =>
    let key := mac_to_key_ (leaf_mac header) in
    if negb (s_session_key_valid s) then mret false
    else match validate_session_packet_ (crypto p) s header payload session_tag with
    | None =>
      send_session_deauth sender_mac key (packet_type header) (tx_counter header) payload;;
      mret false
    | Some plaintext =>
      match parse_entity_payload plaintext with
      | None => mret false
      | Some state =>
        let message_tx_base := fragment_message_tx_base header state in
        if negb (counter_is_newer message_tx_base (s_last_completed_state_message_tx_base s)) then
          if message_tx_base =? s_last_completed_state_message_tx_base s
          then send_state_ack_ sender_mac key message_tx_base 0
          else mret true
        else
          now ← millis;
          '(ok, assembly) ← admit_state_fragment key state message_tx_base now;
          if negb ok then mret false
          else
            with_session key (fun s => s
              <| s_last_seen_counter ::= fun c => Z.max c (tx_counter header) |>
              <| s_last_seen_bridge_uptime_s := now / 1000 |>);;
            if negb (fragment_assembly_complete_ assembly) then mret true
            else
              when (s_state_sync_pending s)
                (with_session key (fun s => s <| s_awaiting_more_dirty :=
                   negb (Z.land (asm_flags assembly) ESPNOW_ENTITY_FLAG_MORE_DIRTY =? 0) |>));;
              let entity := default blank_entity
                (s_schema_entities s !! Z.to_nat (view_entity_index state)) in
              let complete := assemble_fragment_payload_ assembly (s_max_entity_fragment s) in
              let text_value := if type_is (entity_type entity) FIELD_TYPE_TEXT
                                   || type_is (entity_type entity) FIELD_TYPE_EVENT
                                then complete else [] in
              with_session key (fun s => s <| s_state_assemblies ::= fun r =>
                take_assembly r (view_entity_index state) (data_size assembly) |>);;
              when (remote_is (s_remote_state s) NORMAL && negb (s_online s))
                (mark_online_ key rssi (tx_counter header) 0);;
              notify publish_state_fn_set (publish_state_fn (leaf_mac header) entity complete
                (entity_type entity) text_value message_tx_base sender_mac);;
              mret true
      end
    end
  end.

(** The owner reports that every consumer has the state. *)
Definition confirm_state_delivery_ (leaf : bytes) (message_tx_base : Z) (next_hop : bytes)
    : M St bool :=
  p ← this;
  match get_session leaf p with
  | None => mret false
  | Some s =>
    let key := mac_to_key_ leaf in
    if (length next_hop =? 0)%nat then mret false
    else
      when (counter_is_newer message_tx_base (s_last_completed_state_message_tx_base s))
        (with_session key (fun s => s <| s_last_completed_state_message_tx_base := message_tx_base |>);;
         when (s_state_sync_pending s && negb (s_awaiting_more_dirty s)
               && s_discovery_all_confirmed s)
           (with_session key (fun s => s <| s_state_sync_pending := false |>);;
            send_join_complete_ next_hop key true;;
            mret tt));;
      send_state_ack_ next_hop key message_tx_base 0
  end.

(** ** Heartbeats *)
Definition handle_heartbeat_ (sender_mac : bytes) (header : espnow_frame_header_t)
    (payload : bytes) (rssi : Z) (session_tag : option bytes) : M St bool :=
  p ← this;
  if (length sender_mac =? 0)%nat then mret false
  else match get_session (leaf_mac header) p with
  | None => mret false
  | Some s =>
    let key := mac_to_key_ (leaf_mac header) in
    if negb (s_session_key_valid s) then mret false
    else if negb (counter_is_newer (tx_counter header) (s_last_seen_counter s)) then mret false
    else match validate_session_packet_ (crypto p) s header payload session_tag with
    | None => mret false
    | Some plaintext =>
      if negb (length plaintext =? sizeof espnow_heartbeat_t)%nat then mret false
      else
        now ← millis;
        let heartbeat : espnow_heartbeat_t := of_bytes plaintext in
        with_session key (fun s => s
          <| s_last_seen_counter := tx_counter header |>
          <| s_last_seen_bridge_uptime_s := now / 1000 |>
          <| s_uptime_seconds := hb_uptime_seconds heartbeat |>
          <| s_expected_contact_interval_s := hb_expected_contact_interval_seconds heartbeat |>
          <| s_parent_mac := hb_parent_mac heartbeat |>
          <| s_parent_mac_hex_key := mac_hex (hb_parent_mac heartbeat) |>);;
        when (negb (bytes_eqb (s_parent_mac s) (hb_parent_mac heartbeat)) && s_online s)
          (publish_topology (s_leaf_mac s) "route_changed");;
        with_session key (fun s => s
          <| s_direct_child_count := hb_direct_child_count heartbeat |>
          <| s_total_child_count := hb_total_child_count heartbeat |>
          <| s_last_rssi := hb_remote_rssi_dbm heartbeat |>
          <| s_next_hop_mac := take 6 sender_mac |>);;
        when (negb (remote_is (s_remote_state s) NORMAL))
          (with_session key (fun s => s <| s_remote_state := NORMAL |>);;
           mark_online_ key rssi (tx_counter header) (hb_remote_rssi_dbm heartbeat));;
        with_session key (fun s =>
          (if s_join_complete_pending s
           then s <| s_join_complete_pending := false |> <| s_join_complete_retry_count := 0 |>
                  <| s_last_join_complete_ms := 0 |>
           else s) <| s_join_in_progress := false |>);;
        mret true
    end
  end.

(** ** Acknowledgements *)
Definition acks_config (leaf : bytes) (ack : espnow_ack_t) (c : PendingConfig) : bool :=
  (ack_ref_tx_counter ack =? pc_tx_base c) && bytes_eqb leaf (pc_leaf_mac c).
Definition acks_command (leaf : bytes) (ack : espnow_ack_t) (c : PendingCommand) : bool :=
  (ack_ref_tx_counter ack =? cmd_tx_base c) && bytes_eqb leaf (cmd_leaf_mac c).

(** The first element that matches and the list without it. *)
Fixpoint remove_first {A} (f : A -> bool) (l : list A) : option (A * list A) :=
  match l with
  | [] => None
  | a :: l => if f a then Some (a, l)
              else '(b, l) ← remove_first f l; Some (b, a :: l)
  end.

Definition config_ack_result (ack : espnow_ack_t) (trailing : bytes) (c : PendingConfig)
    : ConfigAckResult :=
  let echo := at_ trailing 0 in
  {| acked := true; timed_out := false; no_session := false;
     cfg_result := if (0 <? length trailing)%nat && (echo =? pc_command c)
                   then ack_result ack else CFG_RESULT_INVALID_PAYLOAD;
     command_echo := echo |}.

Definition mark_back_online (key rssi tx_counter : Z) : M St unit :=
  s ← session key;
  when (remote_is (s_remote_state s) NORMAL && negb (s_online s))
    (mark_online_ key rssi tx_counter 0).

Definition run_config_callback (c : PendingConfig) (result : ConfigAckResult) : M St unit :=
  match pc_callback c with
  | None => mret tt
  | Some callback => env (config_callback callback result)
  end.

Definition handle_ack_ (sender_mac : bytes) (header : espnow_frame_header_t)
    (payload : bytes) (rssi : Z) (session_tag : option bytes) : M St bool :=
  p ← this;
  match get_session (leaf_mac header) p with
  | None => mret false
  | Some s =>
    let key := mac_to_key_ (leaf_mac header) in
    if negb (s_session_key_valid s) then mret false
    else if negb (counter_is_newer (tx_counter header) (s_last_seen_counter s)) then mret false
    else match validate_session_packet_ (crypto p) s header payload session_tag with
    | None => mret false
    | Some plaintext =>
      now ← millis;
      with_session key (fun s => s <| s_last_seen_counter := tx_counter header |>
                                   <| s_last_seen_bridge_uptime_s := now / 1000 |>);;
      if (length plaintext <? sizeof espnow_ack_t)%nat then mret false
      else
        let ack : espnow_ack_t := of_bytes plaintext in
        let trailing := drop (sizeof espnow_ack_t) plaintext in
        if (ack_type ack =? packet_type_code PKT_FILE_TRANSFER) && file_ack_fn_set (callbacks p)
        then env (file_ack_fn (s_leaf_mac s) ack trailing);; mret true
        else if ack_type ack =? packet_type_code PKT_CONFIG then
          match remove_first (acks_config (s_leaf_mac s) ack) (pending_configs_ p) with
          | None => mret true
          | Some (c, rest) =>
            update (fun p => p <| pending_configs_ := rest |>);;
            mark_back_online key rssi (tx_counter header);;
            run_config_callback c (config_ack_result ack trailing c);;
            mret true
          end
        else
          when ((ack_type ack =? ACK_COMMAND) && (ack_result ack =? 0))
            (update (fun p => p <| command_queue_ ::= fun q =>
               match remove_first (acks_command (s_leaf_mac s) ack) q with
               | None => q
               | Some (_, rest) => rest
               end |>));;
          mark_back_online key rssi (tx_counter header);;
          mret true
    end
  end.

(** ** Every frame *)

(** The route a frame of the session came by. *)
Definition routed (sender_mac : bytes) (header : espnow_frame_header_t) (rssi : Z)
    (s : BridgeSession) : BridgeSession :=
  s <| s_next_hop_mac := take 6 sender_mac |> <| s_rx_packets ::= fun n => u32 (n + 1) |>
    <| s_last_rssi := rssi |> <| s_hops_to_bridge := ESPNOW_HOPS_COUNT (hop_count header) |>.

(** What [on_espnow_frame] does before the handler of a session's frame; false
    when the frame is longer than the session allows. *)
Definition route_frame (sender_mac : bytes) (header : espnow_frame_header_t) (rssi : Z)
    (len : nat) (s : BridgeSession) : M St bool :=
  with_session (mac_to_key_ (leaf_mac header)) (routed sender_mac header rssi);;
  when (negb (ESPNOW_HOPS_COUNT (hop_count header) =? s_hops_to_bridge s))
    (publish_availability (s_leaf_mac s) true "hop_count_changed");;
  ensure_session_ (leaf_mac header);;
  mret (Z.of_nat len <=? s_session_max_payload s).

Definition on_espnow_frame (sender_mac data : bytes) (rssi : Z) : M St bool :=
  p ← this;
  if (length data <? sizeof espnow_frame_header_t)%nat then mret false
  else if negb (protocol_version (of_bytes data) =? ESPNOW_PROTOCOL_VER) then mret false
  else match parse_frame_ (crypto p) data with
  | None => mret false
  | Some f =>
    let header := pf_header f in
    let payload := pf_payload f in
    if has_parent_check (hop_count header)
       && negb (espnow_is_parent_mac_all_zeros (pf_parent_mac f))
       && negb (bytes_eqb (pf_parent_mac f) (bridge_mac_ p)) then mret false
    else match packet_type_of (packet_type header) with
    | Some PKT_DISCOVER => handle_discover_ sender_mac header payload
    | Some PKT_JOIN => handle_join_ sender_mac header payload rssi
    | Some PKT_SCHEMA_PUSH => handle_schema_push_ sender_mac header payload (pf_session_tag f)
    | Some ((PKT_STATE | PKT_HEARTBEAT | PKT_ACK) as type) =>
      let key := mac_to_key_ (leaf_mac header) in
      match get_session (leaf_mac header) p with
      | None => send_deauth_ sender_mac (leaf_mac header) 1 (packet_type header)
                  (tx_counter header) payload
      | Some s =>
        if negb (s_session_key_valid s) then
          with_session key (fun s => s <| s_next_hop_mac := take 6 sender_mac |>
                                       <| s_last_rssi := rssi |>);;
          send_session_deauth sender_mac key (packet_type header) (tx_counter header) payload
        else
          fits ← route_frame sender_mac header rssi (length data) s;
          if negb fits then mret false
          else match type with
          | PKT_STATE => handle_state_ sender_mac header payload rssi (pf_session_tag f)
          | PKT_HEARTBEAT => handle_heartbeat_ sender_mac header payload rssi (pf_session_tag f)
          | _ => handle_ack_ sender_mac header payload rssi (pf_session_tag f)
          end
      end
    | _ => mret false
    end
  end.
End handlers.
