(* ===== verification/BridgeLoop.v ===== *)
(** * BridgeLoop: timers, retries and eviction of the bridge

    Models [on_discovery_confirmed_], [invalidate_all_sessions],
    [evict_sessions_for_ram_] and [loop] of
    [src/device_code/components/esp_tree_bridge/bridge_protocol.cpp]. *)
From stdpp Require Import sorting.
From S2P Require Import Prelude Wire Crypto Frames Fragments OtaManager BridgeSession BridgeProtocol.

Section loop.
Context {W : Type} `{!BridgeEnv W} `{!Hmac}.
Abbreviation St := (BridgeProtocol * W)%type.

(** ** Discovery confirmations *)
Definition count_confirmation (s : BridgeSession) : BridgeSession :=
  if 0 <? s_pending_discovery_count s then
    let s := s <| s_pending_discovery_count ::= fun n => n - 1 |> in
    if s_pending_discovery_count s =? 0 then s <| s_discovery_all_confirmed := true |> else s
  else s.

Definition on_discovery_confirmed_ (mac : bytes) (entity : Z) (success : bool) : M St unit :=
  p ← this;
  match get_session mac p with
  | None => mret tt
  | Some s =>
    let key := mac_to_key_ mac in
    let next_hop := s_next_hop_mac s in
    now ← millis;
    if negb (s_awaiting_discovery_confirm s)
    then when success (with_session key count_confirmation)
    else if negb success
            || (ESPNOW_MQTT_CONFIRM_TIMEOUT_MS <? u32 (now - s_last_discovery_confirm_ms s)) then
      with_session key (fun s => s <| s_schema_request_retries := 1 |>);;
      sent ← send_schema_request_ next_hop key ESPNOW_DESCRIPTOR_TYPE_ENTITY entity;
      with_session key (fun s => s <| s_schema_request_in_flight := sent |>
        <| s_last_schema_request_ms := now |> <| s_last_discovery_confirm_ms := now |>)
    else
      with_session key (fun s => count_confirmation s <| s_awaiting_discovery_confirm := false |>);;
      if s_pending_schema_request_index s =? 255 then mret tt
      else
        with_session key (fun s => s <| s_schema_request_retries := 1 |>);;
        sent ← send_schema_request_ next_hop key ESPNOW_DESCRIPTOR_TYPE_ENTITY
                 (s_pending_schema_request_index s);
        with_session key (fun s => s <| s_schema_request_in_flight := sent |>
                                     <| s_last_schema_request_ms := now |>)
  end.

(** [ESPTreeBridge::send_force_rejoin], which writes the session directly. *)
Definition send_force_rejoin (mac : bytes) : M St unit :=
  with_session (mac_to_key_ mac) (fun s => s <| s_state_sync_pending := true |>).

(** ** Removing sessions *)
Fixpoint for_each {A} (l : list A) (f : A -> M St unit) : M St unit :=
  match l with
  | [] => mret tt
  | a :: l => f a;; for_each l f
  end.

Definition erase_session (key : Z) : M St unit :=
  update (fun p => p <| sessions_ ::= delete key |>).

Definition invalidate_session (key : Z) : M St unit :=
  s ← session key;
  publish_availability (s_leaf_mac s) false "manual";;
  publish_topology (s_leaf_mac s) "node_removed";;
  clear_entities (s_leaf_mac s) (s_schema_entities s);;
  erase_session key.

Definition invalidate_all_sessions : M St unit :=
  p ← this;
  for_each (session_keys p) invalidate_session;;
  update (fun p => p <| schema_cache_ := ∅ |> <| schema_hash_cache_ := ∅ |>).

Definition has_active_assemblies (s : BridgeSession) : bool :=
  negb (size (assemblies (s_state_assemblies s)) =? 0)%nat
  || negb (size (assemblies (s_schema_assemblies s)) =? 0)%nat.

(** Erase one session for its memory. *)
Definition evict_session (key : Z) (s : BridgeSession) : M St unit :=
  when (s_online s) (publish_availability (s_leaf_mac s) false "evicted");;
  publish_topology (s_leaf_mac s) "node_removed";;
  clear_entities (s_leaf_mac s) (s_schema_entities s);;
  drop_caches s;;
  erase_session key.

(** The eviction loop; [evicted] is [evicted_count], which the source subtracts
    from the size of a map that shrinks with every eviction. *)
Fixpoint evict_loop (candidates : list Z) (aggressive : bool) (target_free : Z) (evicted : nat)
    : M St nat :=
  match candidates with
  | [] => mret evicted
  | key :: candidates =>
    free ← ask esp_get_free_heap_size;
    if target_free <=? free then mret evicted
    else
      p ← this;
      if u32 (Z.of_nat (size (sessions_ p)) - Z.of_nat evicted) <=? Z.of_nat MIN_SESSIONS_TO_PROTECT
      then mret evicted
      else match sessions_ p !! key with
      | None => evict_loop candidates aggressive target_free evicted
      | Some s =>
        if negb aggressive && has_active_assemblies s
        then evict_loop candidates aggressive target_free evicted
        else
          evict_session key s;;
          evict_loop candidates aggressive target_free (S evicted)
      end
  end.

(** Oldest contact first; [std::sort] leaves the order of equals open, the
    model takes the stable one. *)
Definition last_seen_le (a b : Z * BridgeSession) : Prop :=
  s_last_seen_bridge_uptime_s a.2 <= s_last_seen_bridge_uptime_s b.2.
#[export] Instance last_seen_le_dec a b : Decision (last_seen_le a b).
Proof. unfold last_seen_le. apply _. Defined.
Definition by_key (a b : Z * BridgeSession) : Prop := a.1 <= b.1.
#[export] Instance by_key_dec a b : Decision (by_key a b).
Proof. unfold by_key. apply _. Defined.
Definition eviction_candidates (p : BridgeProtocol) : list Z :=
  (merge_sort last_seen_le (merge_sort by_key (map_to_list (sessions_ p)))).*1.

Definition evict_sessions_for_ram_ (aggressive : bool) : M St bool :=
  free_heap ← ask esp_get_free_heap_size;
  low ← gets (fun s => ram_below aggressive s.2);
  if negb low then mret false
  else
    p ← this;
    evicted ← evict_loop (eviction_candidates p) aggressive
                (u32 (free_heap + RAM_EVICTION_BUFFER_BYTES)) 0;
    mret (0 <? evicted)%nat.

(** The trim of [loop]: offline sessions go until the limit holds. *)
Fixpoint trim_sessions (keys : list Z) : M St unit :=
  match keys with
  | [] => mret tt
  | key :: keys =>
    s ← session key;
    if s_online s then trim_sessions keys
    else
      publish_topology (s_leaf_mac s) "node_removed";;
      clear_entities (s_leaf_mac s) (s_schema_entities s);;
      drop_caches s;;
      erase_session key;;
      p ← this;
      if (size (sessions_ p) <=? MAX_SESSIONS)%nat then mret tt else trim_sessions keys
  end.

(** ** The timers of one session *)
Definition expire_schema (now : Z) (s : BridgeSession) : BridgeSession :=
  s <| s_schema_assemblies ::=
         expire_assemblies now (fragment_reserve (s_max_entity_fragment s)) |>.
Definition expire_state (now : Z) (s : BridgeSession) : BridgeSession :=
  s <| s_state_assemblies ::= expire_assemblies now data_size |>.

Definition offline_timeout_ms (heartbeat_interval : Z) (s : BridgeSession) : Z :=
  Z.max (u32 (heartbeat_interval * 1000 + OFFLINE_TIMEOUT_GRACE_MS))
    (if 0 <? s_expected_contact_interval_s s
     then u32 (s_expected_contact_interval_s s * 3000 + OFFLINE_TIMEOUT_GRACE_MS)
     else u32 (heartbeat_interval * 3000 + OFFLINE_TIMEOUT_GRACE_MS)).

(** Seconds since the leaf was last heard. *)
Definition silence_s (now : Z) (s : BridgeSession) : Z :=
  u32 (now / 1000 - s_last_seen_bridge_uptime_s s).

Definition offline_timer (now key : Z) : M St unit :=
  p ← this;
  s ← session key;
  when (s_online s && (0 <? s_last_seen_bridge_uptime_s s)
        && (offline_timeout_ms (heartbeat_interval_ p) s / 1000 <? silence_s now s))
    (with_session key (fun s => s <| s_online := false |> <| s_remote_state := NONE |>
                                  <| s_last_offline_reason := str "timeout" |>);;
     go_offline key).

Definition resend_schema_request (key : Z) (s : BridgeSession) : M St unit :=
  sent ← send_schema_request_ (s_next_hop_mac s) key (s_pending_schema_descriptor_type s)
           (s_pending_schema_index s);
  with_session key (fun s => s <| s_schema_request_in_flight := sent |>).

Definition schema_retry_timer (now key : Z) : M St unit :=
  s ← session key;
  if s_online s && negb (s_schema_received s) && s_schema_request_in_flight s
     && (0 <? s_last_schema_request_ms s) then
    random ← ask esp_random;
    if retry_backoff (s_schema_request_retries s) + retry_jitter random
       <=? u32 (now - s_last_schema_request_ms s) then
      if s_schema_request_retries s <? ESPNOW_MAX_RETRIES then
        with_session key (fun s => s <| s_schema_request_retries ::= fun n => u8 (n + 1) |>);;
        resend_schema_request key s
      else
        with_session key (fun s => abandon_join s <| s_last_offline_reason := str "timeout" |>);;
        go_offline key
    else mret tt
  else mret tt.

Definition state_sync_timer (now key : Z) : M St unit :=
  s ← session key;
  when (s_state_sync_pending s && negb (s_join_complete_pending s)
        && (0 <? s_last_seen_bridge_uptime_s s)
        && (ESPNOW_STATE_SYNC_TIMEOUT_MS / 1000 <=? silence_s now s))
    (with_session key (fun s => s <| s_state_sync_pending := false |>
       <| s_join_in_progress := false |> <| s_state_assemblies := no_reassembly |>)).

(** Nobody confirmed the join: the leaf is offline. *)
Definition join_timed_out (key : Z) (s : BridgeSession) : M St unit :=
  with_session key (fun s => s <| s_join_complete_pending := false |>
    <| s_join_complete_retry_count := 0 |> <| s_last_join_complete_ms := 0 |>
    <| s_join_in_progress := false |> <| s_online := false |> <| s_remote_state := NONE |>
    <| s_schema_request_in_flight := false |>
    <| s_last_offline_reason := str "timeout" |>);;
  go_offline key;;
  clear_entities (s_leaf_mac s) (s_schema_entities s).

Definition join_retry_timer (now key : Z) : M St unit :=
  s ← session key;
  if s_join_complete_pending s then
    random ← ask esp_random;
    if (0 <? s_last_join_complete_ms s)
       && (retry_backoff (s_join_complete_retry_count s) + retry_jitter random
           <=? u32 (now - s_last_join_complete_ms s)) then
      if s_join_complete_retry_count s <? ESPNOW_MAX_RETRIES then
        sent ← send_join_complete_ (s_next_hop_mac s) key false;
        when sent
          (with_session key (fun s => s <| s_join_complete_retry_count ::= fun n => u8 (n + 1) |>))
      else
        join_timed_out key s
    else mret tt
  else mret tt.

Definition session_timers (now key : Z) : M St unit :=
  with_session key (expire_state now);;
  with_session key (expire_schema now);;
  offline_timer now key;;
  schema_retry_timer now key;;
  state_sync_timer now key;;
  join_retry_timer now key.

Definition announce_timer (now key : Z) : M St unit :=
  s ← session key;
  if (0 <? s_discover_announce_deadline_ms s) && (s_discover_announce_deadline_ms s <=? now) then
    send_discover_announce_ (s_discover_announce_leaf_mac s) (s_leaf_mac s) 0;;
    with_session key (fun s => s <| s_discover_announce_deadline_ms := 0 |>
                                 <| s_discover_announce_leaf_mac := replicate 6 0 |>)
  else mret tt.

(** ** The queues *)
Definition config_failed (c : PendingConfig) (is_timeout : bool) : ConfigAckResult :=
  {| acked := false; timed_out := is_timeout; no_session := negb is_timeout;
     cfg_result := CFG_RESULT_REJECTED; command_echo := pc_command c |}.

(** One entry of [pending_configs_]: what stays of it. *)
Definition config_timer (now : Z) (c : PendingConfig) : M St (option PendingConfig) :=
  if now <? pc_next_retry_ms c then mret (Some c)
  else if CONFIG_MAX_RETRIES <=? pc_retry_count c then
    run_config_callback c (config_failed c true);; mret None
  else
    p ← this;
    match get_session (pc_leaf_mac c) p with
    | Some s =>
      if negb (session_usable s) then run_config_callback c (config_failed c false);; mret None
      else
        let c := c <| pc_retry_count ::= fun n => u8 (n + 1) |>
                   <| pc_next_hop_mac := s_next_hop_mac s |> in
        send_config_frame_ (mac_to_key_ (pc_leaf_mac c)) c;;
        mret (Some (c <| pc_next_retry_ms := u32 (now + pc_ack_timeout_ms c) |>))
    | None => run_config_callback c (config_failed c false);; mret None
    end.

(** One entry of [command_queue_]: what stays of it. *)
Definition command_timer (now : Z) (c : PendingCommand) : M St (option PendingCommand) :=
  p ← this;
  let found := get_session (cmd_leaf_mac c) p in
  let key := mac_to_key_ (cmd_leaf_mac c) in
  if COMMAND_MAX_RETRIES <=? cmd_retry_count c then
    match found with
    | None => mret None
    | Some s =>
      with_session key (fun s => s <| s_online := false |>
                                   <| s_last_offline_reason := str "timeout" |>);;
      publish_availability (cmd_leaf_mac c) false "timeout";;
      publish_topology (cmd_leaf_mac c) "node_offline";;
      mret None
    end
  else
    random ← ask esp_random;
    if nth (Z.to_nat (cmd_retry_count c)) RETRY_BACKOFF_MS 0 + retry_jitter random
       <=? u32 (now - cmd_last_tx_ms c) then
      match found with
      | None => mret None
      | Some s =>
        if negb (session_usable s) then mret None
        else
          send_command_fragments_ (cmd_next_hop_mac c) key (cmd_field_index c) (cmd_value c)
            (cmd_tx_base c) false;;
          mret (Some (c <| cmd_retry_count ::= fun n => u8 (n + 1) |> <| cmd_last_tx_ms := now |>))
      end
    else mret (Some c).

Fixpoint filter_queue {A} (timer : A -> M St (option A)) (l : list A) : M St (list A) :=
  match l with
  | [] => mret []
  | a :: l =>
    kept ← timer a;
    rest ← filter_queue timer l;
    mret (match kept with Some a => a :: rest | None => rest end)
  end.

(** ** The loop *)
Definition tick_uptime (now : Z) (p : BridgeProtocol) : BridgeProtocol :=
  let p := if last_uptime_tick_ms_ p =? 0 then p <| last_uptime_tick_ms_ := now |> else p in
  if last_uptime_tick_ms_ p <? now then
    let elapsed := now - last_uptime_tick_ms_ p in
    p <| bridge_uptime_s_ ::= fun n => u32 (n + elapsed / 1000) |>
      <| last_uptime_tick_ms_ := now - elapsed mod 1000 |>
  else p.

Definition cleanup (now : Z) : M St unit :=
  update (fun p => p <| last_session_cleanup_ms_ := now |>);;
  evict_sessions_for_ram_ false;;
  p ← this;
  when (MAX_SESSIONS <? size (sessions_ p))%nat (trim_sessions (session_keys p));;
  p ← this;
  for_each (session_keys p) (fun key => with_session key (expire_schema now)).

Definition join_slot_timer (now : Z) : M St unit :=
  p ← this;
  when (joining_in_progress_ p && (0 <? join_started_ms_ p)
        && (45000 <=? u32 (now - join_started_ms_ p)))
    (update (fun p => p <| joining_in_progress_ := false |>
                        <| joining_leaf_mac_ := replicate 6 0 |> <| join_started_ms_ := 0 |>)).

Definition publish_diag (now : Z) : M St unit :=
  p ← this;
  let online_count := get_active_remote_count p in
  when (publish_bridge_diag_fn_set (callbacks p)
        && ((DIAG_PUBLISH_INTERVAL_MS <=? u32 (now - last_diag_publish_ms_ p))
            || negb (online_count =? last_diag_online_count_ p)))
    (update (fun p => p <| last_diag_publish_ms_ := now |>
                        <| last_diag_online_count_ := online_count |>);;
     env (publish_bridge_diag_fn (bridge_uptime_s_ p) online_count)).

Definition loop : M St unit :=
  now ← millis;
  update (tick_uptime now);;
  p ← this;
  when (SESSION_CLEANUP_INTERVAL_MS <=? u32 (now - last_session_cleanup_ms_ p)) (cleanup now);;
  p ← this;
  for_each (session_keys p) (session_timers now);;
  join_slot_timer now;;
  p ← this;
  for_each (session_keys p) (announce_timer now);;
  critical ← gets (fun s => ram_below true s.2);
  when critical (evict_sessions_for_ram_ true;; mret tt);;
  p ← this;
  configs ← filter_queue (config_timer now) (pending_configs_ p);
  update (fun p => p <| pending_configs_ := configs |>);;
  p ← this;
  commands ← filter_queue (command_timer now) (command_queue_ p);
  update (fun p => p <| command_queue_ := commands |>);;
  publish_diag now.
End loop.
