(* ===== verification/BridgeInv.v ===== *)
(** * BridgeInv: isolation of the bridge's sessions

    Every handler of BridgeProtocol changes at most the session of the leaf it
    is given; so does a frame from the radio. *)
From S2P Require Import Prelude Wire Crypto Frames Fragments OtaManager BridgeSession BridgeProtocol BridgeLoop.

(** ** Isolation *)
Create HintDb isolation discriminated.

Section isolation.
Context {W : Type} `{!BridgeEnv W} `{!Hmac}.
Abbreviation St := (BridgeProtocol * W)%type.

(** At most the session of key [k] differs. *)
Definition only_session (k : Z) (s s' : St) : Prop :=
  forall k', k' <> k -> sessions_ s'.1 !! k' = sessions_ s.1 !! k'.

#[export] Instance only_session_preorder k : PreOrder (only_session k).
Proof.
  split; [by intros s k' _|]. intros s1 s2 s3 H12 H23 k' Hk.
  by rewrite H23, H12.
Qed.

Lemma only_with_session k f : keeps (only_session k) (with_session (W := W) k f).
Proof. intros [p w] k' Hk. cbn. unfold upd; cbn. by rewrite lookup_alter_ne. Qed.

Lemma only_update k f : (forall p, sessions_ (f p) = sessions_ p) ->
  keeps (only_session k) (update (W := W) f).
Proof. intros Hf [p w] k' Hk. cbn. by rewrite Hf. Qed.

Lemma only_env k (f : W -> W) : keeps (only_session k) (env f).
Proof. by intros [p w] k' Hk. Qed.

Lemma only_ask {A} k (f : W -> A * W) : keeps (only_session k) (ask f).
Proof. intros [p w] k' Hk. unfold ask. cbn. by destruct (f w). Qed.

Lemma only_this k : keeps (only_session k) (this (W := W)).
Proof. by intros s k' Hk. Qed.
Lemma only_read k k0 : keeps (only_session k) (session (W := W) k0).
Proof. by intros s k' Hk. Qed.
Lemma only_millis k : keeps (only_session k) (millis (W := W)).
Proof. by intros s k' Hk. Qed.

Lemma only_notify k b (f : W -> W) : keeps (only_session k) (notify b f).
Proof. unfold notify. keeps_go ltac:(apply only_env || apply only_this). Qed.
End isolation.
#[export] Hint Resolve only_this only_read only_millis only_with_session only_env only_ask only_notify : isolation.
#[export] Hint Extern 1 (keeps (only_session _) (update _)) =>
  apply only_update; intros ?; reflexivity : isolation.

Ltac isolate := keeps_go ltac:(solve [eauto with isolation nocore]).

Section isolation_handlers.
Context {W : Type} `{!BridgeEnv W} `{!Hmac}.
Abbreviation St := (BridgeProtocol * W)%type.
Abbreviation only k m := (keeps (only_session (W := W) k) m).

Lemma only_publish_availability k mac b r : only k (publish_availability mac b r).
Proof. apply only_notify. Qed.
Lemma only_publish_topology k mac r : only k (publish_topology mac r).
Proof. apply only_notify. Qed.
Lemma only_clear_entities k mac l : only k (clear_entities mac l).
Proof. apply only_notify. Qed.
Lemma only_delay k ms : only k (delay ms).
Proof. apply only_env. Qed.
#[local] Hint Resolve only_publish_availability only_publish_topology only_clear_entities
  only_delay : isolation.

Lemma only_next_tx_counter k : only k (next_tx_counter k).
Proof. unfold next_tx_counter. isolate. Qed.
Lemma only_send_encrypted k mac t h d : only k (send_encrypted_ mac k t h d).
Proof. unfold send_encrypted_. isolate. Qed.
Lemma only_send_tx_result k mac t h tx d :
  only k (send_encrypted_with_tx_counter_result_ mac k t h tx d).
Proof. unfold send_encrypted_with_tx_counter_result_. isolate. Qed.
#[local] Hint Resolve only_next_tx_counter only_send_encrypted only_send_tx_result : isolation.
Lemma only_send_tx k mac t h tx d : only k (send_encrypted_with_tx_counter_ mac k t h tx d).
Proof. unfold send_encrypted_with_tx_counter_. isolate. Qed.
Lemma only_send_plain k mac leaf t h tx d : only k (send_plain_psk_ mac leaf t h tx d).
Proof. unfold send_plain_psk_. isolate. Qed.
#[local] Hint Resolve only_send_tx only_send_plain : isolation.

Lemma only_send_join_ack k mac a r st : only k (send_join_ack_ mac k a r st).
Proof. unfold send_join_ack_. isolate. Qed.
#[local] Hint Resolve only_send_join_ack : isolation.
Lemma only_send_join_complete k mac b : only k (send_join_complete_ mac k b).
Proof. unfold send_join_complete_. isolate. Qed.
Lemma only_send_schema_request k mac t i : only k (send_schema_request_ mac k t i).
Proof. unfold send_schema_request_. isolate. Qed.
Lemma only_send_state_ack k mac c r : only k (send_state_ack_ mac k c r).
Proof. unfold send_state_ack_. isolate. Qed.
Lemma only_send_deauth k mac leaf tx a b d : only k (send_deauth_ mac leaf tx a b d).
Proof. unfold send_deauth_. isolate. Qed.
#[local] Hint Resolve only_send_join_complete only_send_schema_request only_send_state_ack
  only_send_deauth : isolation.
Lemma only_session_deauth k mac a b d : only k (send_session_deauth mac k a b d).
Proof. unfold send_session_deauth. isolate. Qed.
Lemma only_mark_online k r tx rr : only k (mark_online_ k r tx rr).
Proof. unfold mark_online_. isolate. Qed.
#[local] Hint Resolve only_session_deauth only_mark_online : isolation.
Lemma only_mark_back_online k r tx : only k (mark_back_online k r tx).
Proof. unfold mark_back_online. isolate. Qed.
Lemma only_refresh k : only k (refresh_schema_cache_ k).
Proof. unfold refresh_schema_cache_. isolate. Qed.
Lemma only_publish_entity k s e : only k (publish_entity s e).
Proof. unfold publish_entity. isolate. Qed.
#[local] Hint Resolve only_mark_back_online only_refresh only_publish_entity : isolation.
Lemma only_publish_entities k s l : only k (publish_entities s l).
Proof. induction l; cbn [publish_entities]; isolate. Qed.
#[local] Hint Resolve only_publish_entities : isolation.
Lemma only_publish_all k : only k (publish_all_entities_ k).
Proof. unfold publish_all_entities_. isolate. Qed.
Lemma only_publish_discovery k i : only k (publish_discovery_for_entity_ k i).
Proof. unfold publish_discovery_for_entity_. isolate. Qed.
Lemma only_schema_complete k : only k (schema_complete k).
Proof. unfold schema_complete. isolate. Qed.
Lemma only_config_callback k c r : only k (run_config_callback c r).
Proof. unfold run_config_callback. isolate. Qed.
#[local] Hint Resolve only_publish_all only_publish_discovery only_schema_complete
  only_config_callback : isolation.
Lemma only_schema_finished k mac n : only k (schema_finished mac k n).
Proof. unfold schema_finished. isolate. Qed.
#[local] Hint Resolve only_schema_finished : isolation.
Lemma only_schema_identity k mac d : only k (schema_identity mac k d).
Proof. unfold schema_identity. isolate. Qed.
Lemma only_schema_entity k mac d : only k (schema_entity mac k d).
Proof. unfold schema_entity. isolate. Qed.
Lemma only_join_cached k mac j c : only k (join_cached mac j k c).
Proof. unfold join_cached. isolate. Qed.
Lemma only_join_refresh k mac : only k (join_refresh mac k).
Proof. unfold join_refresh. isolate. Qed.
#[local] Hint Resolve only_schema_identity only_schema_entity only_join_cached
  only_join_refresh : isolation.
Lemma only_fresh_join k mac h j r : only k (fresh_join mac h j r k).
Proof. unfold fresh_join. isolate. Qed.
#[local] Hint Resolve only_fresh_join : isolation.

Lemma only_admit_schema k v b n : only k (admit_schema_fragment k v b n).
Proof. unfold admit_schema_fragment. isolate. Qed.
Lemma only_admit_state k v b n : only k (admit_state_fragment k v b n).
Proof. unfold admit_state_fragment. isolate. Qed.
#[local] Hint Resolve only_admit_schema only_admit_state : isolation.

Lemma only_schema_push mac h d t : only (mac_to_key_ (leaf_mac h)) (handle_schema_push_ mac h d t).
Proof. unfold handle_schema_push_. isolate. Qed.
Lemma only_state mac h d r t : only (mac_to_key_ (leaf_mac h)) (handle_state_ mac h d r t).
Proof. unfold handle_state_. isolate. Qed.
Lemma only_heartbeat mac h d r t : only (mac_to_key_ (leaf_mac h)) (handle_heartbeat_ mac h d r t).
Proof. unfold handle_heartbeat_. isolate. Qed.
Lemma only_ack mac h d r t : only (mac_to_key_ (leaf_mac h)) (handle_ack_ mac h d r t).
Proof. unfold handle_ack_. isolate. Qed.
#[local] Hint Resolve only_schema_push only_state only_heartbeat only_ack : isolation.

Lemma only_ensure leaf : only (mac_to_key_ leaf) (ensure_session_ leaf).
Proof.
  unfold ensure_session_. keeps_step idtac; [isolate|]. cbv zeta. keeps_step idtac; [|isolate].
  intros [p w] k' Hk. cbn. unfold upd; cbn. by rewrite lookup_insert_ne.
Qed.

(** The continuation of [ensure_session_] sees the key of the leaf. *)
Lemma only_ensure_bind {A} leaf (k : option Z -> M St A) :
  only (mac_to_key_ leaf) (k None) -> only (mac_to_key_ leaf) (k (Some (mac_to_key_ leaf))) ->
  only (mac_to_key_ leaf) (key ← ensure_session_ leaf; k key).
Proof.
  intros Hn Hs s. pose proof (only_ensure leaf s) as He. unfold mbind, M_bind, ensure_session_ in *.
  destruct (length leaf =? 0)%nat; [apply Hn|].
  etrans; [exact He|apply Hs].
Qed.

Lemma only_discover mac h d : only (mac_to_key_ (leaf_mac h)) (handle_discover_ mac h d).
Proof.
  unfold handle_discover_. keeps_step isolate; [isolate|].
  do 4 (keeps_step isolate; [isolate|]). apply only_ensure_bind; isolate.
Qed.
Lemma only_join mac h d r : only (mac_to_key_ (leaf_mac h)) (handle_join_ mac h d r).
Proof.
  unfold handle_join_. do 2 (keeps_step isolate; [isolate|]). apply only_ensure_bind; isolate.
Qed.
#[local] Hint Resolve only_discover only_join only_ensure : isolation.
Lemma only_route mac h r n s : only (mac_to_key_ (leaf_mac h)) (route_frame mac h r n s).
Proof. unfold route_frame. isolate. Qed.
#[local] Hint Resolve only_route : isolation.

(** C17: Sessions are isolated.  Whatever bytes arrive from the radio, valid or
    not, and whatever handler they reach, no session changes but that of the
    leaf whose address bytes 3 to 8 of the frame carry. *)
Theorem frame_touches_one_session sender_mac data rssi st key :
  key <> mac_to_key_ (slice 3 6 data) ->
  sessions_ (on_espnow_frame sender_mac data rssi st).2.1 !! key = sessions_ st.1 !! key.
Proof.
  intros Hk. assert (only (mac_to_key_ (slice 3 6 data)) (on_espnow_frame sender_mac data rssi)) as H'.
  { unfold on_espnow_frame. keeps_step isolate; [isolate|].
    do 2 (keeps_step isolate; [isolate|]).
    destruct (parse_frame_ _ data) as [f|] eqn:Hf; [|isolate].
    destruct (parse_frame_header _ _ _ Hf) as [Hh _].
    assert (slice 3 6 data = leaf_mac (pf_header f)) as -> by (by rewrite Hh).
    isolate. }
  by apply H'.
Qed.
End isolation_handlers.
