(* ===== verification/BridgeSafety.v ===== *)
(** * BridgeSafety: the bridge's state invariant

    [bridge_ok] is what every entry point of BridgeProtocol and BridgeLoop
    preserves: sessions sit under their own key, retry counters stay inside
    the backoff table, the frame sizes are one of the two negotiated sets, the
    tables of partly received messages are bounded and the join slot is empty
    when nobody is joining. *)
From S2P Require Import Prelude Wire Crypto Frames Fragments OtaManager BridgeSession BridgeProtocol BridgeLoop.

(** ** The invariant *)

(** The fragment sizes of an ESP-NOW v1 and of a v2 session. *)
Definition sizes_ok (s : BridgeSession) : Prop :=
  (s_max_entity_fragment s, s_max_assembly_bytes s, s_max_total_fragment_bytes s) = (220, 1024, 4096) \/
  (s_max_entity_fragment s, s_max_assembly_bytes s, s_max_total_fragment_bytes s)
    = (1440, 8640, 34560).
Definition payload_ok (n : Z) : Prop := n = ESPNOW_V1_MAX_PAYLOAD \/ n = ESPNOW_V2_MAX_PAYLOAD.

Record session_ok (key : Z) (s : BridgeSession) : Prop := {
  so_key : key = mac_to_key_ (s_leaf_mac s);
  so_leaf : length (s_leaf_mac s) = 6%nat;
  so_secret : length (s_session_key s) = 32%nat /\ bytes_ok (s_session_key s);
  so_sizes : sizes_ok s;
  so_payload : payload_ok (s_session_max_payload s);
  so_schema_retries : 0 <= s_schema_request_retries s <= ESPNOW_MAX_RETRIES;
  so_join_retries : 0 <= s_join_complete_retry_count s <= ESPNOW_MAX_RETRIES;
  so_tx : 0 <= s_tx_counter s < 4294967296;
  so_state : table_ok (s_max_entity_fragment s) (s_max_assembly_bytes s) (s_state_assemblies s);
  so_schema : table_ok (s_max_entity_fragment s) (s_max_assembly_bytes s) (s_schema_assemblies s)
}.

Record bridge_ok (p : BridgeProtocol) : Prop := {
  bo_sessions : map_Forall session_ok (sessions_ p);
  bo_cache : map_Forall (fun _ c => payload_ok (cached_session_max_payload c)) (schema_cache_ p);
  bo_commands : Forall (fun c => 0 <= cmd_retry_count c <= COMMAND_MAX_RETRIES) (command_queue_ p);
  bo_configs : Forall (fun c => 0 <= pc_retry_count c <= CONFIG_MAX_RETRIES) (pending_configs_ p);
  bo_slot : joining_in_progress_ p = false ->
            joining_leaf_mac_ p = replicate 6 0 /\ join_started_ms_ p = 0
}.

(** The preserved direction: from a good state to a good state. *)
Definition safe {W} (s s' : BridgeProtocol * W) : Prop := bridge_ok s.1 -> bridge_ok s'.1.
#[export] Instance safe_preorder {W} : PreOrder (@safe W).
Proof. split; unfold safe; [by intros s|auto]. Qed.

Lemma sizes_bounds s : sizes_ok s ->
  0 <= s_max_entity_fragment s /\ 0 <= s_max_assembly_bytes s < 65536.
Proof. intros [[= -> -> _]|[= -> -> _]]; lia. Qed.

Lemma new_session_bounds :
  0 <= s_max_entity_fragment new_session /\ 0 <= s_max_assembly_bytes new_session < 65536.
Proof. vm_compute. intuition congruence. Qed.

(** Updates that touch none of the constrained fields, or set them well. *)
Ltac session_safe :=
  let s := fresh "s" in
  intros s [];
  repeat match goal with |- context [if ?b then _ else _] => destruct b end;
  constructor; unfold sizes_ok, payload_ok in *; cbn;
  auto with esp; try (split; done || lia).

Create HintDb bridge_safe discriminated.

Section safety.
Context {W : Type} `{!BridgeEnv W} `{!Hmac}.
Abbreviation St := (BridgeProtocol * W)%type.
Abbreviation safely m := (keeps (safe (W := W)) m).

Lemma bridge_ok_session p key f :
  bridge_ok p ->
  (forall s, sessions_ p !! key = Some s -> session_ok key s -> session_ok key (f s)) ->
  bridge_ok (p <| sessions_ ::= alter f key |>).
Proof.
  intros [] Hf. unfold upd; constructor; cbn; auto.
  intros k s. destruct (decide (k = key)) as [->|Hne].
  - rewrite lookup_alter_eq. destruct (sessions_ p !! key) eqn:E; [|done]. intros [= <-]. auto.
  - rewrite lookup_alter_ne by done. apply bo_sessions0.
Qed.

Lemma safe_with_session key f : (forall s, session_ok key s -> session_ok key (f s)) ->
  safely (with_session key f).
Proof. intros Hf [p w] Hp. apply bridge_ok_session; auto. Qed.

(** What a handler reads is good as long as the state is. *)
Lemma safe_this_bind {A} (k : BridgeProtocol -> M St A) :
  (forall p, bridge_ok p -> safely (k p)) -> safely (p ← this; k p).
Proof. intros Hk [p w] Hp. by apply (Hk p). Qed.

Lemma safe_session_bind {A} key (k : BridgeSession -> M St A) :
  (forall s, session_ok key s \/ s = new_session -> safely (k s)) ->
  safely (s ← session key; k s).
Proof.
  intros Hk [p w] Hp. apply Hk; [|done]. cbn.
  destruct (sessions_ p !! key) eqn:E; [left|by right]. by apply (bo_sessions p Hp).
Qed.

Lemma safe_update f : (forall p, bridge_ok p -> bridge_ok (f p)) -> safely (update f).
Proof. intros Hf [p w] Hp. by apply Hf. Qed.
Lemma safe_env f : safely (env f).
Proof. by intros [p w] Hp. Qed.
Lemma safe_ask {A} (f : W -> A * W) : safely (ask f).
Proof. intros [p w] Hp. unfold ask. cbn. by destruct (f w). Qed.
Lemma safe_this : safely this.
Proof. by intros s Hs. Qed.
Lemma safe_session k : safely (session k).
Proof. by intros s Hs. Qed.
Lemma safe_millis : safely millis.
Proof. by intros s Hs. Qed.
End safety.
#[export] Hint Resolve safe_env safe_ask safe_this safe_session safe_millis : bridge_safe.
#[export] Hint Extern 1 (keeps safe (with_session _ _)) =>
  apply safe_with_session; session_safe : bridge_safe.

Ltac update_safe :=
  intros p []; unfold upd; constructor; cbn; auto;
  first [ apply Forall_app; split; [done|]; repeat constructor; cbn; unfold COMMAND_MAX_RETRIES,
            CONFIG_MAX_RETRIES, ESPNOW_MAX_RETRIES; lia
        | done ].
#[export] Hint Extern 1 (keeps safe (update _)) =>
  apply safe_update; update_safe : bridge_safe.

Ltac stay_safe := keeps_go ltac:(solve [eauto with bridge_safe nocore]).

Section safe_sends.
Context {W : Type} `{!BridgeEnv W} `{!Hmac}.
Abbreviation St := (BridgeProtocol * W)%type.
Abbreviation safely m := (keeps (safe (W := W)) m).

Lemma safe_notify b (f : W -> W) : safely (notify b f).
Proof. unfold notify. stay_safe. Qed.
Lemma safe_publish_availability mac b r : safely (publish_availability mac b r).
Proof. apply safe_notify. Qed.
Lemma safe_publish_topology mac r : safely (publish_topology mac r).
Proof. apply safe_notify. Qed.
Lemma safe_clear_entities mac l : safely (clear_entities mac l).
Proof. apply safe_notify. Qed.
Lemma safe_delay ms : safely (delay ms).
Proof. apply safe_env. Qed.
#[local] Hint Resolve safe_notify safe_publish_availability safe_publish_topology
  safe_clear_entities safe_delay : bridge_safe.

Lemma safe_next_tx_counter k : safely (next_tx_counter k).
Proof.
  unfold next_tx_counter. stay_safe.
Qed.
#[local] Hint Resolve safe_next_tx_counter : bridge_safe.
Lemma safe_send_encrypted k mac t h d : safely (send_encrypted_ mac k t h d).
Proof. unfold send_encrypted_. stay_safe. Qed.
Lemma safe_send_tx_result k mac t h tx d :
  safely (send_encrypted_with_tx_counter_result_ mac k t h tx d).
Proof. unfold send_encrypted_with_tx_counter_result_. stay_safe. Qed.
#[local] Hint Resolve safe_send_encrypted safe_send_tx_result : bridge_safe.
Lemma safe_send_tx k mac t h tx d : safely (send_encrypted_with_tx_counter_ mac k t h tx d).
Proof. unfold send_encrypted_with_tx_counter_. stay_safe. Qed.
Lemma safe_send_plain mac leaf t h tx d : safely (send_plain_psk_ mac leaf t h tx d).
Proof. unfold send_plain_psk_. stay_safe. Qed.
#[local] Hint Resolve safe_send_tx safe_send_plain : bridge_safe.
Lemma safe_send_join_ack k mac a r st : safely (send_join_ack_ mac k a r st).
Proof. unfold send_join_ack_. stay_safe. Qed.
#[local] Hint Resolve safe_send_join_ack : bridge_safe.
Lemma safe_send_join_complete k mac b : safely (send_join_complete_ mac k b).
Proof. unfold send_join_complete_. stay_safe. Qed.
Lemma safe_send_schema_request k mac t i : safely (send_schema_request_ mac k t i).
Proof. unfold send_schema_request_. stay_safe. Qed.
Lemma safe_send_state_ack k mac c r : safely (send_state_ack_ mac k c r).
Proof. unfold send_state_ack_. stay_safe. Qed.
Lemma safe_send_deauth mac leaf tx a b d : safely (send_deauth_ mac leaf tx a b d).
Proof. unfold send_deauth_. stay_safe. Qed.
Lemma safe_send_announce mac leaf h : safely (send_discover_announce_ mac leaf h).
Proof. unfold send_discover_announce_. stay_safe. Qed.
#[local] Hint Resolve safe_send_join_complete safe_send_schema_request safe_send_state_ack
  safe_send_deauth safe_send_announce : bridge_safe.
Lemma safe_session_deauth k mac a b d : safely (send_session_deauth mac k a b d).
Proof. unfold send_session_deauth. stay_safe. Qed.
Lemma safe_fragments_loop n i k mac f v fs cs tx b :
  safely (send_fragments_loop n i mac k f v fs cs tx b).
Proof. revert i. induction n as [|n IH]; intros i; cbn [send_fragments_loop]; stay_safe. Qed.
#[local] Hint Resolve safe_fragments_loop : bridge_safe.
Lemma safe_command_fragments k mac f v tx b : safely (send_command_fragments_ mac k f v tx b).
Proof. unfold send_command_fragments_. stay_safe. Qed.
#[local] Hint Resolve safe_session_deauth safe_command_fragments : bridge_safe.
Lemma safe_send_command k mac f v : safely (send_command_ mac k f v).
Proof. unfold send_command_. stay_safe. Qed.
Lemma safe_config_frame k c : safely (send_config_frame_ k c).
Proof. unfold send_config_frame_. stay_safe. Qed.
#[local] Hint Resolve safe_send_command safe_config_frame : bridge_safe.

(** The entry points of the owner. *)
Lemma safe_command_to_leaf leaf f v : safely (send_command_to_leaf leaf f v).
Proof. unfold send_command_to_leaf. stay_safe. Qed.
Lemma safe_config_to_leaf leaf c v cb : safely (send_config_to_leaf leaf c v cb).
Proof. unfold send_config_to_leaf. stay_safe. Qed.
Lemma safe_ota_frame leaf t v : safely (send_ota_frame leaf t v).
Proof. unfold send_ota_frame. stay_safe. Qed.
Lemma safe_check_and_complete leaf : safely (check_and_complete_join_ leaf).
Proof. unfold check_and_complete_join_. stay_safe. Qed.

(** ** Handlers *)
Lemma safe_mark_online k r tx rr : safely (mark_online_ k r tx rr).
Proof. unfold mark_online_. stay_safe. Qed.
Lemma safe_go_offline k : safely (go_offline k).
Proof. unfold go_offline. stay_safe. Qed.
#[local] Hint Resolve safe_mark_online safe_go_offline : bridge_safe.
Lemma safe_mark_back_online k r tx : safely (mark_back_online k r tx).
Proof. unfold mark_back_online. stay_safe. Qed.
Lemma safe_refresh k : safely (refresh_schema_cache_ k).
Proof.
  unfold refresh_schema_cache_. apply safe_session_bind. intros s Hs.
  apply safe_update. intros p []; unfold upd; constructor; cbn; auto.
  apply map_Forall_insert_2; [|done]. cbn. destruct Hs as [[]| ->]; [done|by left].
Qed.
Lemma safe_drop_caches s : safely (drop_caches s).
Proof.
  apply safe_update. intros p []; unfold upd; constructor; cbn; auto. by apply map_Forall_delete.
Qed.
Lemma safe_publish_entity s e : safely (publish_entity s e).
Proof. unfold publish_entity. stay_safe. Qed.
#[local] Hint Resolve safe_mark_back_online safe_refresh safe_drop_caches safe_publish_entity
  : bridge_safe.
Lemma safe_publish_entities s l : safely (publish_entities s l).
Proof. induction l; cbn [publish_entities]; stay_safe. Qed.
#[local] Hint Resolve safe_publish_entities : bridge_safe.
Lemma safe_publish_all k : safely (publish_all_entities_ k).
Proof. unfold publish_all_entities_. stay_safe. Qed.
Lemma safe_publish_discovery k i : safely (publish_discovery_for_entity_ k i).
Proof. unfold publish_discovery_for_entity_. stay_safe. Qed.
Lemma safe_schema_complete k : safely (schema_complete k).
Proof. unfold schema_complete. stay_safe. Qed.
Lemma safe_config_callback c r : safely (run_config_callback c r).
Proof. unfold run_config_callback. stay_safe. Qed.
#[local] Hint Resolve safe_publish_all safe_publish_discovery safe_schema_complete
  safe_config_callback : bridge_safe.
Lemma safe_schema_finished k mac n : safely (schema_finished mac k n).
Proof. unfold schema_finished. stay_safe. Qed.
#[local] Hint Resolve safe_schema_finished : bridge_safe.
Lemma safe_schema_identity k mac d : safely (schema_identity mac k d).
Proof. unfold schema_identity. stay_safe. Qed.
Lemma safe_schema_entity k mac d : safely (schema_entity mac k d).
Proof. unfold schema_entity. stay_safe. Qed.
Lemma safe_join_refresh k mac : safely (join_refresh mac k).
Proof. unfold join_refresh. stay_safe. Qed.
#[local] Hint Resolve safe_schema_identity safe_schema_entity safe_join_refresh : bridge_safe.

Lemma safe_join_cached k mac j c : (forall d, c = Some d -> payload_ok (cached_session_max_payload d)) ->
  safely (join_cached mac j k c).
Proof.
  intros Hc. unfold join_cached. keeps_step idtac; [|stay_safe].
  apply safe_with_session. destruct c as [d|]; [specialize (Hc d eq_refl)|]; session_safe.
Qed.

Lemma begin_join_ok p mac h j r now nonce key s :
  session_ok key s -> session_ok key (begin_join p mac h j r now nonce s).
Proof.
  intros []. unfold begin_join, negotiate_mtu, update_from_mtu.
  destruct (_ && _); constructor; unfold sizes_ok; cbn; auto with esp; try lia.
  all: try (split; [apply length_session_key|apply session_key_ok]).
  all: first [by left|by right].
Qed.

Lemma safe_fresh_join k mac h j r : safely (fresh_join mac h j r k).
Proof.
  unfold fresh_join. keeps_step idtac; [stay_safe|].
  apply safe_this_bind. intros p Hp. keeps_step idtac; [stay_safe|].
  keeps_step idtac; [stay_safe|]. cbv zeta. keeps_step idtac.
  { apply safe_with_session. intros s. apply begin_join_ok. }
  keeps_step idtac; [stay_safe|]. keeps_step idtac; [|stay_safe].
  apply safe_join_cached. intros d Hd. by apply (map_Forall_lookup_1 _ _ _ _ (bo_cache p Hp) Hd).
Qed.
#[local] Hint Resolve safe_fresh_join : bridge_safe.

(** [ensure_session_] leaves a good session under the leaf's key. *)
Lemma ensured_session_ok p leaf :
  bridge_ok p -> length leaf = 6%nat ->
  session_ok (mac_to_key_ leaf) (ensured_session leaf (sessions_ p !! mac_to_key_ leaf)).
Proof.
  intros Hp Hl. unfold ensured_session. rewrite (take_ge leaf) by lia.
  set (s := default new_session _).
  assert (session_ok (mac_to_key_ leaf) (s <| s_leaf_mac := leaf |>)) as [].
  { subst s. destruct (sessions_ p !! mac_to_key_ leaf) as [s|] eqn:E; cbn [default].
    - apply (map_Forall_lookup_1 _ _ _ _ (bo_sessions p Hp)) in E as [].
      constructor; unfold sizes_ok in *; cbn; auto.
    - constructor; cbn; auto with esp; try lia.
      + split; [done|]. by apply byteb_ok.
      + left. reflexivity.
      + by left.
      + unfold ESPNOW_MAX_RETRIES. lia.
      + unfold ESPNOW_MAX_RETRIES. lia. }
  clearbody s. unfold sizes_ok in *. cbn in *.
  destruct (_ =? 0)%nat; constructor; unfold sizes_ok; cbn; done.
Qed.

Lemma safe_ensure leaf : length leaf = 6%nat -> safely (ensure_session_ leaf).
Proof.
  intros Hl. unfold ensure_session_. keeps_step idtac; [stay_safe|]. cbv zeta.
  keeps_step idtac; [|stay_safe]. apply safe_update. intros p Hp.
  pose proof (ensured_session_ok p leaf Hp Hl) as Hs. destruct Hp.
  unfold upd; constructor; cbn; auto. by apply map_Forall_insert_2.
Qed.
#[local] Hint Resolve safe_ensure : bridge_safe.

Lemma safe_discover mac h d : length (leaf_mac h) = 6%nat -> safely (handle_discover_ mac h d).
Proof. intros Hl. unfold handle_discover_. stay_safe. Qed.
Lemma safe_join mac h d r : length (leaf_mac h) = 6%nat -> safely (handle_join_ mac h d r).
Proof. intros Hl. unfold handle_join_. stay_safe. Qed.

(** *** Fragments *)
Lemma safe_admit_schema k v b n : view_ok v -> safely (admit_schema_fragment k v b n).
Proof.
  intros Hv [p w] Hp. unfold admit_schema_fragment, mbind, M_bind, session, gets; cbn [fst snd].
  destruct (admit_fragment _ _ _ _ _ _ _) as [ok table] eqn:E. cbn.
  apply bridge_ok_session; [done|]. intros s Hs [].
  rewrite Hs in E. cbn [default from_option id] in E. destruct (sizes_bounds s so_sizes0) as [B1 B2]. unfold id in E.
  pose proof (admit_fragment_ok _ _ (s_max_total_fragment_bytes s) _ v b n B1 B2 Hv so_schema0) as Ht.
  rewrite E in Ht. constructor; unfold sizes_ok; cbn; auto.
Qed.
Lemma safe_admit_state k v b n : view_ok v -> safely (admit_state_fragment k v b n).
Proof.
  intros Hv [p w] Hp. unfold admit_state_fragment, mbind, M_bind, session, gets; cbn [fst snd].
  destruct (admit_fragment _ _ _ _ _ _ _) as [ok table] eqn:E. cbn.
  apply bridge_ok_session; [done|]. intros s Hs [].
  rewrite Hs in E. cbn [default from_option id] in E. destruct (sizes_bounds s so_sizes0) as [B1 B2]. unfold id in E.
  pose proof (admit_fragment_ok _ _ (s_max_total_fragment_bytes s) _ v b n B1 B2 Hv so_state0) as Ht.
  rewrite E in Ht. constructor; unfold sizes_ok; cbn; auto.
Qed.
#[local] Hint Resolve safe_admit_schema safe_admit_state : bridge_safe.

Lemma validate_bytes_ok c k s h d t pt : session_ok k s -> bytes_ok d ->
  validate_session_packet_ c s h d t = Some pt -> bytes_ok pt.
Proof.
  intros [] Hd. unfold validate_session_packet_. destruct (negb _); [done|].
  destruct t; [|done]. destruct (_ =? 0); [done|].
  unfold espnow_crypto_crypt. destruct (_ || _); [done|].
  intros E. apply (inj Some) in E as <-. destruct so_secret0. by apply ctr_crypt_ok.
Qed.

Lemma get_session_ok p leaf s : bridge_ok p -> get_session leaf p = Some s ->
  session_ok (mac_to_key_ leaf) s.
Proof. intros Hp E. apply (map_Forall_lookup_1 _ _ _ _ (bo_sessions p Hp) E). Qed.

Lemma safe_schema_push mac h d t : bytes_ok d -> safely (handle_schema_push_ mac h d t).
Proof.
  intros Hd. unfold handle_schema_push_. apply safe_this_bind. intros p Hp.
  destruct (get_session _ p) as [s|] eqn:Hs; [|stay_safe].
  apply get_session_ok in Hs; [|done]. cbv zeta. keeps_step idtac; [stay_safe|].
  destruct (validate_session_packet_ _ _ _ _ _) as [pt|] eqn:Hpt; [|stay_safe].
  destruct (parse_entity_payload pt) as [v|] eqn:Hv; [|stay_safe].
  assert (view_ok v) by (eapply parse_entity_view_ok; [by eapply validate_bytes_ok|done]).
  stay_safe.
Qed.

Lemma safe_state mac h d r t : bytes_ok d -> safely (handle_state_ mac h d r t).
Proof.
  intros Hd. unfold handle_state_. apply safe_this_bind. intros p Hp.
  destruct (get_session _ p) as [s|] eqn:Hs; [|stay_safe].
  apply get_session_ok in Hs; [|done]. cbv zeta. keeps_step idtac; [stay_safe|].
  destruct (validate_session_packet_ _ _ _ _ _) as [pt|] eqn:Hpt; [|stay_safe].
  destruct (parse_entity_payload pt) as [v|] eqn:Hv; [|stay_safe].
  assert (view_ok v) by (eapply parse_entity_view_ok; [by eapply validate_bytes_ok|done]).
  stay_safe.
Qed.

Lemma safe_confirm leaf b n : safely (confirm_state_delivery_ leaf b n).
Proof. unfold confirm_state_delivery_. stay_safe. Qed.

Lemma safe_heartbeat mac h d r t : safely (handle_heartbeat_ mac h d r t).
Proof. unfold handle_heartbeat_. stay_safe. Qed.

Lemma remove_first_Forall {A} (P : A -> Prop) f l a rest :
  Forall P l -> remove_first f l = Some (a, rest) -> Forall P rest.
Proof.
  intros Hl. revert rest. induction Hl as [|x l Hx Hl IH]; intros rest; [done|]. cbn.
  destruct (f x); [by intros [= <- <-]|]. destruct (remove_first f l) as [[b r]|]; [|done].
  intros [= <- <-]. auto.
Qed.

Lemma safe_ack mac h d r t : safely (handle_ack_ mac h d r t).
Proof.
  unfold handle_ack_. apply safe_this_bind. intros p Hp. stay_safe.
  - apply safe_update. intros p' []. unfold upd; constructor; cbn; auto.
    eapply remove_first_Forall; [apply (bo_configs p Hp)|done].
  - apply safe_update. intros p' []. unfold upd; constructor; cbn; auto.
    destruct (remove_first _ (command_queue_ p')) as [[c rest]|] eqn:E; [|done].
    by eapply remove_first_Forall.
Qed.
#[local] Hint Resolve safe_discover safe_join safe_schema_push safe_state safe_heartbeat safe_ack
  : bridge_safe.

Lemma parse_frame_payload_ok c data f : bytes_ok data -> parse_frame_ c data = Some f ->
  bytes_ok (pf_payload f).
Proof.
  intros Hok Hp. unfold parse_frame_ in Hp. cbn zeta in Hp.
  repeat (case_match; simplify_eq; cbn [pf_payload] in *; try done).
  all: try apply Forall_take; by apply Forall_drop.
Qed.

Lemma safe_route mac h r n s : length (leaf_mac h) = 6%nat -> safely (route_frame mac h r n s).
Proof. intros Hl. unfold route_frame, routed. stay_safe. Qed.
#[local] Hint Resolve safe_route : bridge_safe.

Lemma safe_frame mac data r : bytes_ok data -> safely (on_espnow_frame mac data r).
Proof.
  intros Hd. unfold on_espnow_frame. apply safe_this_bind. intros p Hp.
  do 2 (keeps_step idtac; [stay_safe|]).
  destruct (parse_frame_ (crypto p) data) as [f|] eqn:Hf; [|stay_safe].
  destruct (parse_frame_header _ _ _ Hf) as [Hh Hl].
  assert (length (leaf_mac (pf_header f)) = 6%nat).
  { rewrite Hh. change (length (slice 3 6 data) = 6%nat). apply length_slice_in. lia. }
  pose proof (parse_frame_payload_ok _ _ _ Hd Hf). stay_safe.
Qed.

(** ** Timers *)
Lemma safe_discovery_confirmed mac e b : safely (on_discovery_confirmed_ mac e b).
Proof. unfold on_discovery_confirmed_, count_confirmation. stay_safe. Qed.

Lemma safe_erase k : safely (erase_session k).
Proof.
  apply safe_update. intros p []. unfold upd; constructor; cbn; auto. by apply map_Forall_delete.
Qed.
#[local] Hint Resolve safe_erase : bridge_safe.
Lemma safe_for_each {A} (l : list A) f : (forall a, safely (f a)) -> safely (for_each l f).
Proof. intros Hf. induction l; cbn [for_each]; stay_safe. Qed.
#[local] Hint Resolve safe_for_each : bridge_safe.
Lemma safe_invalidate k : safely (invalidate_session k).
Proof. unfold invalidate_session. stay_safe. Qed.
#[local] Hint Resolve safe_invalidate : bridge_safe.
Lemma safe_invalidate_all : safely invalidate_all_sessions.
Proof.
  unfold invalidate_all_sessions. stay_safe.
Qed.
Lemma safe_evict_session k s : safely (evict_session k s).
Proof. unfold evict_session. stay_safe. Qed.
#[local] Hint Resolve safe_evict_session : bridge_safe.
Lemma safe_evict_loop l b t n : safely (evict_loop l b t n).
Proof. revert n. induction l as [|k l IH]; intros n; cbn [evict_loop]; stay_safe. Qed.
#[local] Hint Resolve safe_evict_loop : bridge_safe.
Lemma safe_evict b : safely (evict_sessions_for_ram_ b).
Proof. unfold evict_sessions_for_ram_. stay_safe. Qed.
Lemma safe_trim l : safely (trim_sessions l).
Proof. induction l as [|k l IH]; cbn [trim_sessions]; stay_safe. Qed.
#[local] Hint Resolve safe_evict safe_trim : bridge_safe.
Lemma safe_cleanup now : safely (cleanup now).
Proof. unfold cleanup, expire_schema. stay_safe. Qed.

(** The counters of the retry timers stay below the limit they test: the
    counter read is the counter incremented, because nothing in between writes it. *)
Definition same_join_retries (k : Z) (s s' : St) : Prop :=
  s_join_complete_retry_count <$> sessions_ s'.1 !! k =
  s_join_complete_retry_count <$> sessions_ s.1 !! k.
#[local] Instance same_join_retries_preorder k : PreOrder (same_join_retries k).
Proof. split; [by intros s|]. intros s1 s2 s3 H12 H23. unfold same_join_retries in *. congruence. Qed.

Lemma same_with_session k f :
  (forall s, s_join_complete_retry_count (f s) = s_join_complete_retry_count s) ->
  keeps (same_join_retries k) (with_session k f).
Proof.
  intros Hf [p w]. unfold same_join_retries, with_session, upd. cbn.
  rewrite lookup_alter_eq. destruct (sessions_ p !! k); cbn; [by rewrite Hf|done].
Qed.

Lemma same_ask {A} k (f : W -> A * W) : keeps (same_join_retries k) (ask f).
Proof. intros [p w]. unfold ask, same_join_retries. cbn. by destruct (f w). Qed.

Ltac same_retries := keeps_go ltac:(first
  [ apply same_with_session; intros; reflexivity
  | intros [? ?]; unfold same_join_retries; reflexivity
  | apply same_ask | discriminate ]).

Lemma same_join_complete k mac : keeps (same_join_retries k) (send_join_complete_ mac k false).
Proof.
  unfold send_join_complete_, send_join_ack_, next_tx_counter, send_plain_psk_. same_retries.
Qed.

Lemma safe_resend k s : safely (resend_schema_request k s).
Proof. unfold resend_schema_request. stay_safe. Qed.

Lemma safe_schema_retry now k : safely (schema_retry_timer now k).
Proof.
  intros [p w] Hp. unfold schema_retry_timer, mbind, M_bind, session, gets, ask; cbn [fst snd].
  set (s := default new_session _). destruct (_ && _); [|done].
  cbn [fst snd]. destruct (esp_random w) as [r w']. destruct (_ <=? _); [|done].
  destruct (Z.ltb_spec (s_schema_request_retries s) ESPNOW_MAX_RETRIES) as [Hlt|].
  - apply safe_resend. apply bridge_ok_session; [done|].
    intros s0 Hs0 []. cbn in Hs0. subst s. rewrite Hs0 in Hlt. cbn in Hlt.
    constructor; unfold sizes_ok; cbn; auto. rewrite u8_small; unfold ESPNOW_MAX_RETRIES in *; lia.
  - apply safe_go_offline. apply bridge_ok_session; [done|]. intros s0 _. revert s0. session_safe.
Qed.

Lemma safe_state_sync now k : safely (state_sync_timer now k).
Proof. unfold state_sync_timer. stay_safe. Qed.
Lemma safe_offline now k : safely (offline_timer now k).
Proof. unfold offline_timer. stay_safe. Qed.

Lemma safe_join_timed_out k s : safely (join_timed_out k s).
Proof. unfold join_timed_out. stay_safe. Qed.

Lemma safe_join_retry now k : safely (join_retry_timer now k).
Proof.
  intros [p w] Hp. unfold join_retry_timer, mbind, M_bind, session, gets, ask; cbn [fst snd].
  set (s := default new_session _). destruct (s_join_complete_pending s); [|done].
  cbn [fst snd]. destruct (esp_random w) as [r w']. destruct (_ && _); [|done].
  destruct (Z.ltb_spec (s_join_complete_retry_count s) ESPNOW_MAX_RETRIES) as [Hlt|].
  - pose proof (same_join_complete k (s_next_hop_mac s) (p, w')) as Hsame.
    pose proof (safe_send_join_complete k (s_next_hop_mac s) false (p, w') Hp) as Hsafe.
    destruct (send_join_complete_ _ _ _ _) as [sent [p1 w1]]. cbn in Hsame, Hsafe.
    destruct sent; [|done]. apply bridge_ok_session; [done|]. intros s1 Hs1 [].
    unfold same_join_retries in Hsame. cbn in Hs1, Hsame. rewrite Hs1 in Hsame. cbn in Hsame.
    destruct (sessions_ p !! k) as [s0|] eqn:Hs0; [|done]. cbn in Hsame. injection Hsame as Hsame.
    subst s. cbn in Hlt. unfold id in Hlt. constructor; unfold sizes_ok; cbn; auto.
    rewrite u8_small; unfold ESPNOW_MAX_RETRIES in *; lia.
  - by apply safe_join_timed_out.
Qed.
#[local] Hint Resolve safe_schema_retry safe_state_sync safe_offline safe_join_retry : bridge_safe.

Lemma safe_session_timers now k : safely (session_timers now k).
Proof. unfold session_timers, expire_state, expire_schema. stay_safe. Qed.
Lemma safe_announce now k : safely (announce_timer now k).
Proof. unfold announce_timer. stay_safe. Qed.
Lemma safe_join_slot now : safely (join_slot_timer now).
Proof. unfold join_slot_timer. stay_safe. Qed.
Lemma safe_diag now : safely (publish_diag now).
Proof. unfold publish_diag. stay_safe. Qed.
#[local] Hint Resolve safe_session_timers safe_announce safe_join_slot safe_diag safe_cleanup
  : bridge_safe.

(** ** The queues *)
Lemma wp_safely {A B} (m : M St A) (k : A -> M St B) Q s :
  bridge_ok s.1 -> safely m -> (forall a s', bridge_ok s'.1 -> wp (k a) Q s') ->
  wp (x ← m; k x) Q s.
Proof.
  intros Hs Hm Hk. apply wp_bind. unfold wp. apply Hk. by apply Hm.
Qed.

(** What a timer keeps of its entry satisfies [P]. *)
Definition keeps_entries {A} (P : A -> Prop) (timer : A -> M St (option A)) : Prop :=
  forall a s, P a -> bridge_ok s.1 ->
    wp (timer a) (fun r s' => bridge_ok s'.1 /\ forall b, r = Some b -> P b) s.

Lemma filter_queue_ok {A} (P : A -> Prop) timer l s :
  keeps_entries P timer -> Forall P l -> bridge_ok s.1 ->
  wp (filter_queue timer l) (fun l' s' => bridge_ok s'.1 /\ Forall P l') s.
Proof.
  intros Ht Hl. revert s. induction Hl as [|a l Ha Hl IH]; intros s Hs; cbn [filter_queue].
  { by apply wp_ret. }
  apply wp_bind. eapply wp_mono; [by apply Ht|]. intros r s1 [H1 Hr].
  apply wp_bind. eapply wp_mono; [by apply IH|]. intros rest s2 [H2 Hrest].
  apply wp_ret. split; [done|]. destruct r as [b|]; [|done]. constructor; auto.
Qed.

Definition config_entry_ok (c : PendingConfig) : Prop := 0 <= pc_retry_count c <= CONFIG_MAX_RETRIES.
Definition command_entry_ok (c : PendingCommand) : Prop :=
  0 <= cmd_retry_count c <= COMMAND_MAX_RETRIES.

Lemma config_timer_ok now : keeps_entries config_entry_ok (config_timer now).
Proof.
  intros c s Hc Hs. unfold config_timer. apply wp_if; intros _.
  { apply wp_ret. split; [done|]. by intros b [= <-]. }
  apply wp_if; intros Hlt.
  { eapply wp_safely; [done|stay_safe|]. intros _ s' Hs'. by apply wp_ret. }
  apply wp_bind, wp_gets. destruct (get_session _ _) as [s0|].
  2: { eapply wp_safely; [done|stay_safe|]. intros _ s' Hs'. by apply wp_ret. }
  apply wp_if; intros _.
  { eapply wp_safely; [done|stay_safe|]. intros _ s' Hs'. by apply wp_ret. }
  eapply wp_safely; [done|apply safe_config_frame|]. intros _ s' Hs'. apply wp_ret.
  split; [done|]. intros b [= <-]. unfold config_entry_ok in *. cbn.
  apply Z.leb_gt in Hlt. unfold CONFIG_MAX_RETRIES in *. rewrite u8_small; lia.
Qed.

Lemma command_timer_ok now : keeps_entries command_entry_ok (command_timer now).
Proof.
  intros c s Hc Hs. unfold command_timer. apply wp_bind, wp_gets. cbv zeta.
  apply wp_if; intros Hlt.
  { destruct (get_session _ _); [|by apply wp_ret].
    eapply wp_safely; [done|stay_safe|]. intros _ s1 Hs1.
    eapply wp_safely; [done|stay_safe|]. intros _ s2 Hs2.
    eapply wp_safely; [done|stay_safe|]. intros _ s3 Hs3. by apply wp_ret. }
  eapply wp_safely; [done|stay_safe|]. intros r s1 Hs1. apply wp_if; intros _.
  2: { apply wp_ret. split; [done|]. by intros b [= <-]. }
  destruct (get_session _ _) as [s0|]; [|by apply wp_ret]. apply wp_if; intros _; [by apply wp_ret|].
  eapply wp_safely; [done|apply safe_command_fragments|]. intros _ s' Hs'. apply wp_ret.
  split; [done|]. intros b [= <-]. unfold command_entry_ok in *. cbn.
  apply Z.leb_gt in Hlt. unfold COMMAND_MAX_RETRIES, ESPNOW_MAX_RETRIES in *. rewrite u8_small; lia.
Qed.

(** The two queues of the loop, after the timers. *)
Definition queues (now : Z) : M St unit :=
  p ← this;
  configs ← filter_queue (config_timer now) (pending_configs_ p);
  update (fun p => p <| pending_configs_ := configs |>);;
  p ← this;
  commands ← filter_queue (command_timer now) (command_queue_ p);
  update (fun p => p <| command_queue_ := commands |>);;
  publish_diag now.

Lemma safe_queues now : safely (queues now).
Proof.
  intros s Hs. enough (wp (queues now) (fun _ s' => bridge_ok s'.1) s) by done.
  unfold queues. apply wp_bind, wp_gets. apply wp_bind.
  eapply wp_mono; [apply (filter_queue_ok config_entry_ok); [apply config_timer_ok|by apply bo_configs|done]|].
  intros configs s1 [Hs1 Hc]. apply wp_bind, wp_modify.
  set (s2 := (_, _)). assert (bridge_ok s2.1) as Hs2.
  { subst s2. destruct Hs1. unfold upd; constructor; cbn; auto. }
  clearbody s2. apply wp_bind, wp_gets. apply wp_bind.
  eapply wp_mono; [apply (filter_queue_ok command_entry_ok); [apply command_timer_ok|by apply bo_commands|done]|].
  intros commands s3 [Hs3 Hq]. eapply wp_safely; [done| |intros _ s4 Hs4; by apply safe_diag].
  apply safe_update. intros p []. unfold upd; constructor; cbn; auto.
Qed.

Lemma safe_tick now : safely (update (tick_uptime now)).
Proof.
  apply safe_update. intros p []. unfold tick_uptime.
  destruct (last_uptime_tick_ms_ p =? 0); cbn; destruct (_ <? now); unfold upd; constructor; cbn; auto.
Qed.

Lemma safe_loop : safely loop.
Proof.
  unfold loop. pose proof safe_queues as Hq. unfold queues in Hq. pose proof safe_tick as Ht.
  do 11 (keeps_step ltac:(solve [eauto with bridge_safe nocore]); [stay_safe|]). apply Hq.
Qed.
End safe_sends.
