(* ===== verification/BridgeRun.v ===== *)
(** * BridgeRun: what the bridge does over time

    The bridge as a transition system (a frame from the radio, a turn of the
    loop, a call of the owner, a move of the environment), the invariant of its
    reachable states, and protection against replayed frames. *)
From S2P Require Import Prelude Wire Crypto Frames Fragments OtaManager BridgeSession BridgeProtocol BridgeLoop BridgeInv BridgeSafety.

Section run.
Context {W : Type} `{!BridgeEnv W} `{!Hmac}.
Abbreviation St := (BridgeProtocol * W)%type.

(** [init], [set_bridge_mac] and [set_session_flags] on a new object whose
    callbacks are set. *)
Definition started (psk network_id : bytes) (heartbeat_interval : Z) (mac : bytes) (flags : Z)
    (fns : Callbacks) (w : W) : St :=
  ((rc ← init psk network_id heartbeat_interval;
    set_bridge_mac mac;; set_session_flags flags) (new_bridge <| callbacks := fns |>, w)).2.

Inductive bridge_step : St -> St -> Prop :=
  | step_frame sender data rssi s :
      bytes_ok data -> bridge_step s (on_espnow_frame sender data rssi s).2
  | step_loop s : bridge_step s (loop s).2
  | step_command leaf field value s :
      bridge_step s (send_command_to_leaf leaf field value s).2
  | step_config leaf command payload callback s :
      bridge_step s (send_config_to_leaf leaf command payload callback s).2
  | step_ota leaf type payload s : bridge_step s (send_ota_frame leaf type payload s).2
  | step_confirm leaf base next_hop s :
      bridge_step s (confirm_state_delivery_ leaf base next_hop s).2
  | step_discovery mac entity success s :
      bridge_step s (on_discovery_confirmed_ mac entity success s).2
  | step_check_join leaf s : bridge_step s (check_and_complete_join_ leaf s).2
  | step_rejoin mac s : bridge_step s (send_force_rejoin mac s).2
  | step_invalidate s : bridge_step s (invalidate_all_sessions s).2
  | step_env p w w' : bridge_step (p, w) (p, w').

Lemma safe_start psk nid hb mac flags :
  keeps (safe (W := W)) (rc ← init psk nid hb; set_bridge_mac mac;; set_session_flags flags).
Proof. unfold init, set_bridge_mac, set_session_flags. stay_safe. Qed.

Lemma started_ok psk nid hb mac flags fns w : bridge_ok (started psk nid hb mac flags fns w).1.
Proof.
  apply safe_start. unfold upd; constructor; cbn [fst]; auto; apply map_Forall_empty.
Qed.

Lemma bridge_step_safe s s' : bridge_step s s' -> bridge_ok s.1 -> bridge_ok s'.1.
Proof.
  intros [] Hs.
  - by apply safe_frame.
  - by apply safe_loop.
  - by apply safe_command_to_leaf.
  - by apply safe_config_to_leaf.
  - by apply safe_ota_frame.
  - by apply safe_confirm.
  - by apply safe_discovery_confirmed.
  - by apply safe_check_and_complete.
  - revert Hs. apply safe_with_session. session_safe.
  - by apply safe_invalidate_all.
  - done.
Qed.

(** C8: The bridge's invariant.  In every state the bridge can reach, whatever
    arrives from the radio, whatever the environment answers and in whatever
    order the owner calls: every session sits under the key of its own leaf
    address; its fragment sizes are those of an ESP-NOW v1 or v2 frame; at most
    eight messages of each kind are partly received, none larger than the
    session allows; every retry counter stays inside the backoff table; and the
    join slot is empty when no join is in progress. *)
Theorem bridge_invariant psk nid hb mac flags fns w s :
  rtc bridge_step (started psk nid hb mac flags fns w) s -> bridge_ok s.1.
Proof.
  pose proof (started_ok psk nid hb mac flags fns w) as H0. revert H0.
  generalize (started psk nid hb mac flags fns w). intros s0 H0 Hr.
  induction Hr as [|s1 s2 s3 Hstep _ IH]; [done|]. apply IH. by eapply bridge_step_safe.
Qed.

(** ** Replays *)
Create HintDb replay discriminated.

Definition seen (key tx : Z) (s : St) : Prop :=
  exists x, sessions_ s.1 !! key = Some x /\ s_last_seen_counter x = tx /\
            s_session_key_valid x = true.
Definition still_seen (key tx : Z) (s s' : St) : Prop := seen key tx s -> seen key tx s'.
#[local] Instance still_seen_preorder key tx : PreOrder (still_seen key tx).
Proof. split; unfold still_seen; [by intros s|auto]. Qed.

Lemma seen_with_session key tx f :
  (forall s, s_last_seen_counter (f s) = s_last_seen_counter s \/ s_last_seen_counter (f s) = tx) ->
  (forall s, s_session_key_valid (f s) = s_session_key_valid s) ->
  keeps (still_seen key tx) (with_session key f).
Proof.
  intros Hf Hv [p w] (x & Hx & Ht & Hk). exists (f x). cbn in *. unfold upd; cbn.
  rewrite lookup_alter_eq, Hx, Hv. destruct (Hf x) as [->| ->]; auto.
Qed.
Lemma seen_update key tx (f : BridgeProtocol -> BridgeProtocol) :
  (forall p, sessions_ (f p) = sessions_ p) -> keeps (still_seen key tx) (update (W := W) f).
Proof. intros Hf [p w]. unfold still_seen, seen. cbn. by rewrite Hf. Qed.
Lemma seen_env key tx f : keeps (still_seen key tx) (env (W := W) f).
Proof. intros [p w]. exact (fun H => H). Qed.
Lemma seen_this key tx : keeps (still_seen key tx) (this (W := W)).
Proof. by intros s. Qed.
Lemma seen_read key tx k : keeps (still_seen key tx) (session (W := W) k).
Proof. by intros s. Qed.
Lemma seen_millis key tx : keeps (still_seen key tx) (millis (W := W)).
Proof. by intros s. Qed.
#[local] Hint Resolve seen_env seen_this seen_read seen_millis : replay.
#[local] Hint Extern 1 (keeps (still_seen _ _) (with_session _ _)) =>
  apply seen_with_session; intros; repeat case_match; solve [done|by left|by right] : replay.
#[local] Hint Extern 1 (keeps (still_seen _ _) (update _)) =>
  apply seen_update; reflexivity : replay.

Ltac keep_seen := keeps_go ltac:(solve [eauto with replay nocore]).

Lemma seen_publish_availability key tx mac b r :
  keeps (still_seen key tx) (publish_availability mac b r).
Proof. unfold publish_availability, notify. keep_seen. Qed.
Lemma seen_publish_topology key tx mac r : keeps (still_seen key tx) (publish_topology mac r).
Proof. unfold publish_topology, notify. keep_seen. Qed.
#[local] Hint Resolve seen_publish_availability seen_publish_topology : replay.
Lemma seen_mark_online key tx rssi rr : keeps (still_seen key tx) (mark_online_ key rssi tx rr).
Proof. unfold mark_online_. keep_seen. Qed.
#[local] Hint Resolve seen_mark_online : replay.
Lemma seen_mark_back_online key tx rssi : keeps (still_seen key tx) (mark_back_online key rssi tx).
Proof. unfold mark_back_online. keep_seen. Qed.
Lemma seen_config_callback key tx c r : keeps (still_seen key tx) (run_config_callback c r).
Proof. unfold run_config_callback. keep_seen. Qed.
#[local] Hint Resolve seen_mark_back_online seen_config_callback : replay.

Lemma wp_seen {A} key tx (m : M St A) (P : A -> Prop) s :
  keeps (still_seen key tx) m -> seen key tx s -> wp m (fun a s' => P a -> seen key tx s') s.
Proof. intros Hm Hs _. by apply Hm. Qed.

(** The first update of the handler stores the counter. *)
Lemma wp_now_seen {A} key tx (f : BridgeSession -> BridgeSession) (k : M St A) (P : A -> Prop) s x :
  sessions_ s.1 !! key = Some x -> negb (s_session_key_valid x) = false ->
  (forall s, s_last_seen_counter (f s) = tx /\ s_session_key_valid (f s) = s_session_key_valid s) ->
  keeps (still_seen key tx) k ->
  wp (with_session key f;; k) (fun a s' => P a -> seen key tx s') s.
Proof.
  intros Hx Hk Hf Hkeep. apply wp_bind. unfold with_session, update. apply wp_modify.
  apply wp_seen; [done|]. exists (f x). unfold upd; cbn. rewrite lookup_alter_eq, Hx.
  destruct (Hf x) as [-> ->]. by apply negb_false_iff in Hk.
Qed.

Lemma heartbeat_seen sender header payload rssi tag s :
  wp (handle_heartbeat_ sender header payload rssi tag)
     (fun ok s' => ok = true -> seen (mac_to_key_ (leaf_mac header)) (tx_counter header) s') s.
Proof.
  unfold handle_heartbeat_. wp_step. apply wp_gets. cbv beta. wp_go; try done.
  all: unfold millis. all: apply wp_gets; cbv beta zeta.
  eapply wp_now_seen; [done..|]. keep_seen.
Qed.

Lemma ack_seen sender header payload rssi tag s :
  wp (handle_ack_ sender header payload rssi tag)
     (fun ok s' => ok = true -> seen (mac_to_key_ (leaf_mac header)) (tx_counter header) s') s.
Proof.
  unfold handle_ack_. wp_step. apply wp_gets. cbv beta. wp_go; try done.
  all: unfold millis. all: apply wp_gets; cbv beta zeta.
  eapply wp_now_seen; [done..|]. keep_seen.
Qed.

(** Heartbeats and acknowledgements carry a counter that may be used once. *)
Definition counted (header : espnow_frame_header_t) : bool :=
  bool_decide (packet_type_of (packet_type header) = Some PKT_HEARTBEAT) ||
  bool_decide (packet_type_of (packet_type header) = Some PKT_ACK).

(** The state after [route_frame] and before the handler. *)
Definition after_route (sender : bytes) (header : espnow_frame_header_t) (rssi : Z)
    (x : BridgeSession) (s s' : St) : Prop :=
  s'.1 = s.1 <| sessions_ ::= <[mac_to_key_ (leaf_mac header) :=
                ensured_session (leaf_mac header) (Some (routed sender header rssi x))]> |> /\
  (s'.2 = s.2 \/
   s'.2 = publish_availability_fn (s_leaf_mac x) true (str "hop_count_changed") s.2).

Lemma wp_route_frame sender header rssi n x (Q : bool -> St -> Prop) s :
  length (leaf_mac header) = 6%nat -> get_session (leaf_mac header) s.1 = Some x ->
  (forall s', after_route sender header rssi x s s' ->
     Q (Z.of_nat n <=? s_session_max_payload x) s') ->
  wp (route_frame sender header rssi n x) Q s.
Proof.
  intros Hl Hx HQ. destruct s as [p w]. unfold wp.
  replace (route_frame sender header rssi n x (p, w)).1 with (Z.of_nat n <=? s_session_max_payload x).
  2: { unfold route_frame, publish_availability, notify, ensure_session_. rewrite Hl.
       destruct (negb _); [|done]. cbn [when]. unfold mbind, M_bind, with_session, update, modify.
       cbn [this gets fst]. by destruct (publish_availability_fn_set _). }
  apply HQ. unfold after_route.
  unfold get_session in Hx. cbn [fst] in Hx.
  unfold route_frame, ensure_session_, publish_availability, notify. rewrite Hl.
  cbn [Nat.eqb]. set (key := mac_to_key_ (leaf_mac header)) in *. clearbody key. unfold mbind, M_bind, with_session, update, modify, when, this, gets, mret, M_ret.
  assert (forall f, <[key := ensured_session (leaf_mac header)
      (alter f key (sessions_ p) !! key)]> (alter f key (sessions_ p)) =
    <[key := ensured_session (leaf_mac header) (Some (f x))]> (sessions_ p)) as E.
  { intros f. rewrite lookup_alter_eq, Hx. cbn [fmap option_fmap option_map].
    apply map_eq. intros k. destruct (decide (k = key)) as [->|Hne];
      [by rewrite !lookup_insert_eq|]. by rewrite !lookup_insert_ne, lookup_alter_ne by done. }
  destruct (negb _); unfold upd; cbn -[ensured_session routed]; rewrite ?E.
  - destruct (publish_availability_fn_set (callbacks p)); cbn -[ensured_session routed];
      rewrite ?E; (split; [done|]); [by right|by left].
  - split; [done|by left].
Qed.

(** A frame of a known leaf with a valid session key, up to its handler. *)
Lemma wp_session_frame sender data rssi x (h := of_bytes data : espnow_frame_header_t)
    (Q : bool -> St -> Prop) s :
  counted h = true -> get_session (leaf_mac h) s.1 = Some x -> s_session_key_valid x = true ->
  Q false s ->
  (forall s', after_route sender h rssi x s s' ->
     Q false s' /\
     (forall payload tag, wp (handle_heartbeat_ sender h payload rssi tag) Q s') /\
     (forall payload tag, wp (handle_ack_ sender h payload rssi tag) Q s')) ->
  wp (on_espnow_frame sender data rssi) Q s.
Proof.
  intros Hc Hx Hk Hf HQ. unfold on_espnow_frame. wp_step. apply wp_gets. cbv beta.
  destruct (Nat.ltb_spec (length data) (sizeof espnow_frame_header_t)) as [|Hl];
    [by apply wp_ret|].
  wp_step; [by apply wp_ret|].
  destruct (parse_frame_ _ data) as [f|] eqn:Hp; [|by apply wp_ret].
  destruct (parse_frame_header _ _ _ Hp) as [-> _]. fold h. cbv zeta.
  wp_step; [by apply wp_ret|]. rewrite Hx.
  assert (length (leaf_mac h) = 6%nat) as Hleaf.
  { change (length (slice 3 6 data) = 6%nat). apply length_slice_in.
    change (sizeof espnow_frame_header_t) with 17%nat in Hl. lia. }
  unfold counted in Hc. rewrite Hk. cbn [negb].
  apply orb_true_iff in Hc as [Hc|Hc]; apply bool_decide_eq_true in Hc; rewrite Hc;
    apply wp_bind, wp_route_frame; try done; intros s' Hs';
    destruct (HQ s' Hs') as (? & ? & ?); (wp_step; [by apply wp_ret|]); auto.
Qed.

Lemma frame_seen sender data rssi s x (h := of_bytes data : espnow_frame_header_t) :
  counted h = true -> get_session (leaf_mac h) s.1 = Some x -> s_session_key_valid x = true ->
  wp (on_espnow_frame sender data rssi)
     (fun ok s' => ok = true -> seen (mac_to_key_ (leaf_mac h)) (tx_counter h) s') s.
Proof.
  intros Hc Hx Hk. eapply wp_session_frame; try done. intros s' _.
  split_and!; [done|intros; apply heartbeat_seen|intros; apply ack_seen].
Qed.

Lemma heartbeat_old sender header payload rssi tag s x :
  get_session (leaf_mac header) s.1 = Some x ->
  counter_is_newer (tx_counter header) (s_last_seen_counter x) = false ->
  handle_heartbeat_ sender header payload rssi tag s = (false, s).
Proof.
  intros Hx Hn. unfold handle_heartbeat_, mbind, M_bind, this, gets. cbv beta iota. rewrite Hx, Hn.
  by destruct (length sender =? 0)%nat, (s_session_key_valid x).
Qed.
Lemma ack_old sender header payload rssi tag s x :
  get_session (leaf_mac header) s.1 = Some x ->
  counter_is_newer (tx_counter header) (s_last_seen_counter x) = false ->
  handle_ack_ sender header payload rssi tag s = (false, s).
Proof.
  intros Hx Hn. unfold handle_ack_, mbind, M_bind, this, gets. cbv beta iota. rewrite Hx, Hn.
  by destruct (s_session_key_valid x).
Qed.

End run.
