(* ===== verification/BridgeDelivery.v ===== *)
(** * BridgeDelivery: a state value on its way from a leaf to the publisher

    Composes the packet cryptography, the frame level, the reassembly of
    fragments and [handle_state_]: the encrypted fragments of a value, relayed
    on any routes, repeated and reordered, end in one publication of the
    value. *)
From S2P Require Import Prelude Wire Crypto Frames Fragments OtaManager BridgeSession BridgeProtocol BridgeLoop BridgeSafety BridgeRun.

(** ** Admission of the fragments of one message *)
Section admission.
Context (entity frag maxb cap base : Z) (flags : nat -> Z) (value : bytes).
Hypothesis frag_pos : 0 < frag.
Abbreviation n := (Z.to_nat (chunk_count frag value)).
Abbreviation view := (fragment_view entity frag flags value).

(** The table holds the pieces [got] of the message, or has room for it. *)
Definition table_holds (got : list nat) (r : Reassembly) : Prop :=
  match got with
  | [] => assemblies r !! entity = None /\
          (size (assemblies r) < Z.to_nat ESPNOW_MAX_PENDING_FRAGMENT_ASSEMBLIES)%nat /\
          0 <= reserved_bytes r /\ reserved_bytes r + 2 * (chunk_count frag value * frag) <= cap
  | _ => (exists a, assemblies r !! entity = Some a /\ holds frag base flags value got a) /\
         (size (delete entity (assemblies r)) < Z.to_nat ESPNOW_MAX_PENDING_FRAGMENT_ASSEMBLIES)%nat /\
         chunk_count frag value * frag <= reserved_bytes r /\
         reserved_bytes r + chunk_count frag value * frag <= cap
  end.

Lemma admit_holds got r i now :
  (i < n)%nat -> chunk_count frag value * frag <= maxb -> maxb < 65536 -> cap < 65536 ->
  table_holds got r ->
  exists r' a, admit_fragment r (view i) base now frag maxb cap = (true, r') /\
    assemblies r' !! entity = Some a /\ holds frag base flags value (i :: got) a /\
    table_holds (i :: got) r'.
Proof.
  intros Hi Hcap Hm Hc Ht. unfold admit_fragment. cbn [view_entity_index fragment_view].
  assert (0 < chunk_count frag value) as Hn by (unfold chunk_count; lia).
  destruct got as [|g got].
  - destruct Ht as (Hnone & Hsize & Hr0 & Hr). rewrite Hnone.
    rewrite (proj2 (Nat.leb_gt _ _)) by done. unfold store_admitted, upd.
    cbn [assemblies reserved_bytes view_entity_index view_fragment_count fragment_view].
    rewrite lookup_insert_eq. cbn [default from_option id asm_active fresh_assembly negb andb].
    rewrite (u32_small (reserved_bytes r + _)) by nia. rewrite u32_small by nia.
    rewrite (proj2 (Z.ltb_ge _ _)) by lia.
    destruct (enter_fresh entity frag maxb base flags value frag_pos i now Hcap) as (a0 & E0 & H0).
    destruct (put_holds entity frag maxb base flags value frag_pos [] a0 i Hi Hcap Hm H0)
      as (a1 & E1 & H1).
    unfold store_fragment_. change (Build_espnow_fragment_assembly_t _ _ _ _ _ _ _ _ _ _ _)
      with fresh_assembly. rewrite E0, E1. eexists _, a1. split; [done|]. cbn.
    rewrite lookup_insert_eq. split; [done|]. split; [done|]. split; [by exists a1|].
    rewrite !delete_insert_eq, delete_id by done. split; [done|]. nia.
  - destruct Ht as ((a & Ha & Hh) & Hsize & Hres). rewrite Ha.
    pose proof (holds_active _ _ _ _ _ _ Hh) as Hact.
    pose proof (holds_base _ _ _ _ _ _ Hh) as Hbase.
    rewrite Hact, Hbase, Z.eqb_refl. cbn [andb negb]. unfold store_admitted.
    cbn [view_entity_index fragment_view]. rewrite Ha. cbn [default from_option id].
    rewrite Hact. cbn [andb negb].
    destruct (enter_holds entity frag maxb base flags value (g :: got) a i now Hh) as [E1 H1].
    destruct (put_holds entity frag maxb base flags value frag_pos _ _ i Hi Hcap Hm H1)
      as (a2 & E2 & H2).
    unfold store_fragment_. rewrite E1, E2. eexists _, a2. split; [done|]. unfold upd; cbn.
    rewrite lookup_insert_eq. split; [done|]. split; [done|]. split; [by exists a2|].
    by rewrite delete_insert_eq.
Qed.

(** The message leaves the table as it found it. *)
Lemma take_holds got r a i :
  table_holds (i :: got) r -> assemblies r !! entity = Some a -> holds frag base flags value (i :: got) a ->
  cap < 65536 -> table_holds [] (take_assembly r entity (data_size a)).
Proof.
  intros ((a' & Ha' & _) & Hsize & Hlo & Hhi) Ha Hh Hc. unfold take_assembly, upd. cbn.
  assert (0 < chunk_count frag value) as Hn by (unfold chunk_count; lia).
  unfold data_size. rewrite (holds_size _ _ _ _ _ _ Hh), Nat2Z.inj_mul, !Z2Nat.id by lia.
  rewrite u32_small by nia. rewrite lookup_delete_eq. split_and!; [done|done|lia|nia].
Qed.
End admission.

(** ** The handler *)
Section delivery.
Context {W : Type} `{!BridgeEnv W} `{!Hmac}.
Abbreviation St := (BridgeProtocol * W)%type.

(** What no frame changes. *)
Definition setup (s : St) := (crypto s.1, bridge_mac_ s.1, callbacks s.1).
Definition same_setup (s s' : St) : Prop := setup s' = setup s.
#[local] Instance same_setup_preorder : PreOrder same_setup.
Proof. split; unfold same_setup; [by intros s|congruence]. Qed.

(** What a session and its leaf have agreed on. *)
Definition contract (x : BridgeSession) :=
  (s_session_key_valid x, s_session_key x, s_max_entity_fragment x, s_max_assembly_bytes x,
   s_max_total_fragment_bytes x, s_session_max_payload x,
   s_last_completed_state_message_tx_base x, s_schema_entities x).

Lemma wp_with_session key f x (Q : unit -> St -> Prop) s :
  sessions_ s.1 !! key = Some x ->
  (forall s', sessions_ s'.1 !! key = Some (f x) -> setup s' = setup s -> s'.2 = s.2 -> Q tt s') ->
  wp (with_session key f) Q s.
Proof.
  intros Hx HQ. apply HQ; [|done..]. unfold with_session, update, modify, upd. cbn.
  by rewrite lookup_alter_eq, Hx.
Qed.

Lemma wp_session key x (Q : BridgeSession -> St -> Prop) s :
  sessions_ s.1 !! key = Some x -> Q x s -> wp (session key) Q s.
Proof. intros Hx HQ. unfold session, wp, gets. cbn. by rewrite Hx. Qed.

(** The text of an entity that has one. *)
Definition text_of (entity : espnow_entity_schema_t) (value : bytes) : bytes :=
  if type_is (entity_type entity) FIELD_TYPE_TEXT || type_is (entity_type entity) FIELD_TYPE_EVENT
  then value else [].
Definition entity_at (x : BridgeSession) (index : Z) : espnow_entity_schema_t :=
  default blank_entity (s_schema_entities x !! Z.to_nat index).

Section message.
(** What is observed of the world: nothing but publications of states changes it. *)
Context {X : Type} (obs : W -> X).
Hypothesis obs_availability : forall mac online reason w,
  obs (publish_availability_fn mac online reason w) = obs w.
Hypothesis obs_topology : forall mac reason w, obs (publish_topology_changed_fn mac reason w) = obs w.
Context (entity frag maxb cap base : Z) (flags : nat -> Z) (value : bytes).
Hypothesis frag_pos : 0 < frag.
Hypothesis fits : chunk_count frag value * frag <= maxb.
Hypothesis maxb_small : maxb < 65536.
Hypothesis cap_small : cap < 65536.
Abbreviation n := (Z.to_nat (chunk_count frag value)).
Abbreviation view := (fragment_view entity frag flags value).

Definition all_pieces (got : list nat) : Prop := forall i, (i < n)%nat -> i ∈ got.

(** The world [s'] is in when the value has been published from [w]. *)
Definition published (leaf sender : bytes) (x : BridgeSession) (w0 : W) (s' : St) : Prop :=
  exists w, obs w = obs w0 /\ s'.2 = publish_state_fn leaf (entity_at x entity) value
    (entity_type (entity_at x entity)) (text_of (entity_at x entity) value) base sender w.

(** The bridge in the middle of the message, with the pieces [got]. *)
Definition receiving (key : Z) (x : BridgeSession) (got : list nat) (s : St) : Prop :=
  exists x', sessions_ s.1 !! key = Some x' /\ contract x' = contract x /\
    table_holds entity frag cap base flags value got (s_state_assemblies x').

(** The session of [key] keeps its contract and its partly received states; nothing is
    published. *)
Definition quietly (key : Z) (s s' : St) : Prop :=
  same_setup s s' /\ obs s'.2 = obs s.2 /\
  forall x, sessions_ s.1 !! key = Some x ->
    exists x', sessions_ s'.1 !! key = Some x' /\ contract x' = contract x /\
      s_state_assemblies x' = s_state_assemblies x.
#[local] Instance quietly_preorder key : PreOrder (quietly key).
Proof.
  split; [intros s; split_and!; [done|done|by eauto]|]. intros s1 s2 s3 (A1 & B1 & C1) (A2 & B2 & C2).
  split_and!; [by etrans|congruence|]. intros x Hx. destruct (C1 x Hx) as (x' & Hx' & E1 & F1).
  destruct (C2 x' Hx') as (x'' & Hx'' & E2 & F2). exists x''. split_and!; congruence.
Qed.

Lemma quietly_session key f :
  (forall x, contract (f x) = contract x /\ s_state_assemblies (f x) = s_state_assemblies x) ->
  keeps (quietly key) (with_session (W := W) key f).
Proof.
  intros Hf s. split_and!; [done|done|]. intros x Hx. exists (f x). unfold with_session, update, modify, upd.
  cbn. rewrite lookup_alter_eq, Hx. split; [done|apply Hf].
Qed.
Lemma quietly_env key f : (forall w, obs (f w) = obs w) -> keeps (quietly key) (env (W := W) f).
Proof. intros Hf [p w]. split_and!; [done|apply Hf|by eauto]. Qed.
Lemma quietly_mark_online key rssi tx rr : keeps (quietly key) (mark_online_ key rssi tx rr).
Proof.
  unfold mark_online_, publish_availability, publish_topology, notify.
  keeps_go ltac:(idtac; first [by (intros s; split_and!; eauto)|apply quietly_env; intros; auto|by apply quietly_session]).
Qed.

Lemma wp_state_fragment sender h payload rssi tag plaintext x x0 got i s :
  sessions_ s.1 !! mac_to_key_ (leaf_mac h) = Some x -> contract x = contract x0 ->
  s_session_key_valid x = true ->
  s_max_entity_fragment x = frag -> s_max_assembly_bytes x = maxb ->
  s_max_total_fragment_bytes x = cap ->
  counter_is_newer base (s_last_completed_state_message_tx_base x) = true ->
  publish_state_fn_set (callbacks s.1) = true ->
  validate_session_packet_ (crypto s.1) x h payload tag = Some plaintext ->
  parse_entity_payload plaintext = Some (view i) ->
  fragment_message_tx_base h (view i) = base -> (i < n)%nat ->
  table_holds entity frag cap base flags value got (s_state_assemblies x) ->
  wp (handle_state_ sender h payload rssi tag) (fun ok s' => ok = true /\ same_setup s s' /\
    (all_pieces (i :: got) -> published (leaf_mac h) sender x0 s.2 s' /\
       receiving (mac_to_key_ (leaf_mac h)) x0 [] s') /\
    (~ all_pieces (i :: got) -> obs s'.2 = obs s.2 /\
       receiving (mac_to_key_ (leaf_mac h)) x0 (i :: got) s')) s.
Proof.
  intros Hx Hc Hk Hfr Hmx Hcp Hnew Hpub Hval Hparse Hbase Hi Ht.
  unfold handle_state_. wp_step. apply wp_gets. cbv beta.
  unfold get_session. rewrite Hx, Hk, Hval, Hparse. cbn [negb]. cbv zeta. rewrite Hbase, Hnew.
  cbn [negb]. wp_step. apply wp_gets. cbv beta.
  destruct (admit_holds entity frag maxb cap base flags value frag_pos got _ i
    (bridge_millis s.2) Hi fits maxb_small cap_small Ht) as (r' & a & Ead & Ea & Hh & Ht').
  wp_step. unfold admit_state_fragment. wp_step. apply (wp_session _ x); [done|].
  rewrite Hfr, Hmx, Hcp, Ead. wp_step. eapply wp_with_session; [done|]. intros s1 H1 Hs1 Ho1.
  apply wp_ret. cbn [negb]. wp_step. eapply wp_with_session; [done|]. intros s2 H2 Hs2 Ho2.
  change (view_entity_index (view i)) with entity.
  rewrite Ea. cbn [default from_option id].
  assert (same_setup s s2) as Hss by (unfold same_setup; congruence).
  assert (obs s2.2 = obs s.2) as Hob by congruence.
  clear H1 Hs1 Ho1 s1 Hval Ht Ead Hs2 Ho2.
  pose proof (holds_complete frag base flags value frag_pos _ _ Hh) as Hcomp.
  destruct (fragment_assembly_complete_ a) eqn:Hd; cbn [negb].
  - assert (all_pieces (i :: got)) as Hall by exact (proj1 Hcomp eq_refl).
    rewrite (holds_value frag base flags value frag_pos _ _ Hh Hall).
    assert (default blank_entity (s_schema_entities x !! Z.to_nat entity) = entity_at x0 entity)
      as -> by (unfold contract, entity_at in *; congruence).
    fold (text_of (entity_at x0 entity) value).
    wp_step. apply (wp_keeps (quietly (mac_to_key_ (leaf_mac h))));
      [keeps_go ltac:(by apply quietly_session)|]. intros _ s3 (S3 & O3 & K3).
    destruct (K3 _ H2) as (x3 & H3 & C3 & A3). clear K3 H2.
    wp_step. eapply wp_with_session; [done|]. intros s4 H4 S4 O4.
    wp_step. apply (wp_keeps (quietly (mac_to_key_ (leaf_mac h))));
      [keeps_go ltac:(apply quietly_mark_online)|]. intros _ s5 (S5 & O5 & K5).
    destruct (K5 _ H4) as (x5 & H5 & C5 & A5).
    assert (same_setup s s5) as Hs5 by (unfold same_setup in *; congruence).
    assert (publish_state_fn_set (callbacks s5.1) = true) as Hpub5
      by (revert Hs5; unfold same_setup, setup; by intros [= _ _ ->]).
    wp_step. unfold notify. wp_step. apply wp_gets. cbv beta. rewrite Hpub5.
    split; [done|]. split; [done|]. split; [intros _|by intros []]. split.
    + exists s5.2. split; [congruence|done].
    + exists x5. split; [done|]. split; [etrans; [exact C5|]; etrans; [exact C3|exact Hc]|].
      rewrite A5. cbn [s_state_assemblies upd]. rewrite A3.
      by apply (take_holds entity frag cap base flags value frag_pos got _ a i).
  - apply wp_ret. split; [done|]. split; [done|]. split.
    + intros Hall. by discriminate (proj2 Hcomp Hall).
    + intros _. split; [done|]. eexists. split; [exact H2|]. done.
Qed.

(** *** The frames *)
Context (c : CryptoState) (key leaf : bytes) (hop : Z).
Hypothesis psk : g_psk_set c = true.
Hypothesis key_len : length key = 32%nat.
Hypothesis key_bytes : bytes_ok key.
Hypothesis leaf_len : length leaf = 6%nat.
Hypothesis leaf_bytes : bytes_ok leaf.
Hypothesis hop_byte : 0 <= hop < 256.
Hypothesis base_word : 0 <= base < 4294967296.
Hypothesis entity_byte : 0 <= entity < 256.
Hypothesis flags_byte : forall i, 0 <= flags i < 256.
Hypothesis few : chunk_count frag value < 256.

(** Piece [i] under the [i]-th counter from [base]. *)
Definition state_frame (i : nat) : bytes :=
  default [] (encrypted_frame c key leaf (packet_type_code PKT_STATE) hop (u32 (base + Z.of_nat i))
                (fragment_payload entity frag flags value i)).

(** One arrival of a piece: the hop byte and the parent its last relay gave it. *)
Record Arrival := {
  arr_piece : nat;
  arr_hop : Z;
  arr_parent : bytes;
  arr_sender : bytes;
  arr_rssi : Z
}.
Definition arrival_frame (a : Arrival) : bytes :=
  relayed (arr_hop a) (arr_parent a) (state_frame (arr_piece a)).

(** The arrival is of the message, addressed to the bridge and not too long. *)
Record arrival_ok (bridge_mac : bytes) (max_payload : Z) (a : Arrival) : Prop := {
  ao_piece : (arr_piece a < n)%nat;
  ao_hop : 0 <= arr_hop a < 256;
  ao_parent : length (arr_parent a) = 6%nat;
  ao_addressed : has_parent_check (arr_hop a) = true ->
                 espnow_is_parent_mac_all_zeros (arr_parent a) = true \/ arr_parent a = bridge_mac;
  ao_length : 17 + (if has_parent_check (arr_hop a) then 6 else 0) + 5 + frag + 8 <= max_payload
}.

Lemma length_payload i : (length (fragment_payload entity frag flags value i) <= 5 + Z.to_nat frag)%nat.
Proof.
  unfold fragment_payload, append_entity_payload. rewrite length_app.
  pose proof (length_piece frag value frag_pos i). cbn [to_bytes packed_entity_header].
  rewrite !length_app. unfold le_bytes. cbn [length]. lia.
Qed.

Lemma validate_same s s' h d tag :
  s_session_key_valid s = s_session_key_valid s' -> s_session_key s = s_session_key s' ->
  validate_session_packet_ c s h d tag = validate_session_packet_ c s' h d tag.
Proof. unfold validate_session_packet_. by intros -> ->. Qed.

Lemma state_frame_some i : exists f,
  encrypted_frame c key leaf (packet_type_code PKT_STATE) hop (u32 (base + Z.of_nat i))
    (fragment_payload entity frag flags value i) = Some f /\ state_frame i = f /\
  length f = (17 + length (fragment_payload entity frag flags value i) + 8)%nat.
Proof.
  unfold state_frame. destruct (encrypted_frame _ _ _ _ _ _ _) as [f|] eqn:E.
  - exists f. split_and!; [done..|]. apply (length_encrypted_frame c key leaf _ _ _ _ f) in E; try done.
    apply u32_range.
  - exfalso. revert E. unfold encrypted_frame, espnow_crypto_crypt. by rewrite psk, key_len.
Qed.

Lemma length_relayed h p f : (17 <= length f)%nat -> length p = 6%nat ->
  length (relayed h p f) = (length f + if has_parent_check h then 6 else 0)%nat.
Proof.
  intros Hf Hp. unfold relayed. rewrite !length_app, length_take, length_slice_in, length_drop by lia.
  cbn [length]. destruct (has_parent_check h); cbn [length]; lia.
Qed.

(** The contract the session must have with the leaf. *)
Record agreed (x : BridgeSession) : Prop := {
  ag_valid : s_session_key_valid x = true;
  ag_key : s_session_key x = key;
  ag_frag : s_max_entity_fragment x = frag;
  ag_maxb : s_max_assembly_bytes x = maxb;
  ag_cap : s_max_total_fragment_bytes x = cap;
  ag_payload : s_session_max_payload x <= ESPNOW_V2_MAX_PAYLOAD;
  ag_new : counter_is_newer base (s_last_completed_state_message_tx_base x) = true
}.

Lemma wp_state_frame x0 got a s :
  agreed x0 -> crypto s.1 = c -> publish_state_fn_set (callbacks s.1) = true ->
  arrival_ok (bridge_mac_ s.1) (s_session_max_payload x0) a ->
  receiving (mac_to_key_ leaf) x0 got s ->
  wp (on_espnow_frame (arr_sender a) (arrival_frame a) (arr_rssi a)) (fun ok s' =>
    ok = true /\ same_setup s s' /\
    (all_pieces (arr_piece a :: got) -> published leaf (arr_sender a) x0 s.2 s' /\
       receiving (mac_to_key_ leaf) x0 [] s') /\
    (~ all_pieces (arr_piece a :: got) -> obs s'.2 = obs s.2 /\
       receiving (mac_to_key_ leaf) x0 (arr_piece a :: got) s')) s.
Proof.
  intros Hag Hc Hpub [Hi Hh Hp Had Hlen] (x & Hx & Hcon & Ht).
  destruct (state_frame_some (arr_piece a)) as (f & Hf & Ef & Lf).
  pose proof (length_payload (arr_piece a)) as Lp.
  assert (length (arrival_frame a) = length f + if has_parent_check (arr_hop a) then 6 else 0)%nat
    as La by (unfold arrival_frame; rewrite Ef; apply length_relayed; lia).
  destruct Hag as [Hv Hk Hfr Hmx Hcp Hpl Hnew].
  assert (s_session_key_valid x = true /\ s_session_key x = key /\ s_max_entity_fragment x = frag /\
    s_max_assembly_bytes x = maxb /\ s_max_total_fragment_bytes x = cap /\
    s_session_max_payload x = s_session_max_payload x0 /\
    s_last_completed_state_message_tx_base x = s_last_completed_state_message_tx_base x0)
    as (Hv' & Hk' & Hfr' & Hmx' & Hcp' & Hpl' & Hlast) by (unfold contract in Hcon; split_and!; congruence).
  assert (Z.of_nat (length (arrival_frame a)) <= s_session_max_payload x0) as Hfit
    by (rewrite La; destruct (has_parent_check (arr_hop a)); lia).
  change ESPNOW_V2_MAX_PAYLOAD with 1470 in Hpl.
  rewrite <-Hk' in Hf, key_len, key_bytes.
  destruct (channel_complete c x leaf PKT_STATE hop (u32 (base + Z.of_nat (arr_piece a)))
    (fragment_payload entity frag flags value (arr_piece a)) f (arr_hop a) (arr_parent a))
    as (pf & Hparse & Htype & Hleaf & Htx & Hhop & Hpar & Hval);
    [done..|apply u32_range|done|done|done|done| |exact Hf|].
  { destruct (has_parent_check (arr_hop a)); lia. }
  rewrite <-Ef in Hparse. fold (arrival_frame a) in Hparse.
  destruct (parse_frame_header _ _ _ Hparse) as [Hhd Hge].
  pose proof (parse_frame_version _ _ _ Hparse) as Hver.
  unfold on_espnow_frame. wp_step. apply wp_gets. cbv beta.
  rewrite (proj2 (Nat.ltb_ge _ _)) by exact Hge. rewrite Hver, Z.eqb_refl, Hc, Hparse.
  cbn [negb]. cbv zeta. rewrite Hhop, Hpar, Htype, Hleaf.
  assert (has_parent_check (arr_hop a) &&
    negb (espnow_is_parent_mac_all_zeros (if has_parent_check (arr_hop a) then arr_parent a
                                          else replicate 6 0)) &&
    negb (bytes_eqb (if has_parent_check (arr_hop a) then arr_parent a else replicate 6 0)
            (bridge_mac_ s.1)) = false) as ->.
  { destruct (has_parent_check (arr_hop a)); [|done]. cbn [andb].
    destruct (Had eq_refl) as [-> | ->]; [done|]. by rewrite bytes_eqb_refl, andb_false_r. }
  unfold get_session. rewrite Hx, Hv'. cbn [negb].
  apply wp_bind, wp_route_frame; [by rewrite Hleaf|by rewrite Hleaf|].
  intros s1 Hs1. rewrite Hpl', (proj2 (Z.leb_le _ _)) by done. cbn [negb].
  destruct Hs1 as [Hs1 Hw1]. rewrite Hleaf in Hs1.
  set (x1 := ensured_session leaf (Some (routed (arr_sender a) (pf_header pf) (arr_rssi a) x))) in *.
  assert (contract x1 = contract x /\ s_state_assemblies x1 = s_state_assemblies x) as [Hcon1 Hta1].
  { subst x1. unfold ensured_session. by destruct (length (s_mac_hex_key _) =? 0)%nat. }
  assert (sessions_ s1.1 !! mac_to_key_ leaf = Some x1) as Hx1
    by (rewrite Hs1; unfold upd; cbn -[mac_to_key_]; by rewrite lookup_insert_eq).
  assert (same_setup s s1) as Hss1 by (unfold same_setup, setup; by rewrite Hs1).
  assert (obs s1.2 = obs s.2) as Hob1 by (destruct Hw1 as [-> | ->]; auto).
  clearbody x1. clear Hs1.
  eapply wp_mono.
  - eapply (wp_state_fragment (arr_sender a) (pf_header pf) _ _ _ _ x1 x0 got (arr_piece a)).
    + by rewrite Hleaf.
    + congruence.
    + unfold contract in *; congruence.
    + unfold contract in *; congruence.
    + unfold contract in *; congruence.
    + unfold contract in *; congruence.
    + assert (s_last_completed_state_message_tx_base x1 = s_last_completed_state_message_tx_base x0)
        as -> by (unfold contract in *; congruence). done.
    + revert Hss1. unfold same_setup, setup. by intros [= _ _ ->].
    + assert (crypto s1.1 = c) as -> by (revert Hss1; unfold same_setup, setup; intros [= -> _ _]; done).
      rewrite <-Hval. apply validate_same; unfold contract in *; congruence.
    + apply parse_fragment_payload; [done|done|lia].
    + unfold fragment_message_tx_base. rewrite Htx. cbn [view_fragment_index fragment_view].
      unfold u32. rewrite Zminus_mod_idemp_l. rewrite Z.mod_small; lia.
    + done.
    + by rewrite Hta1.
  - cbn beta. rewrite Hleaf, Hob1. intros ok s' (Hok & Hss & Hp1 & Hp2).
    split; [done|]. split; [by etrans|]. split; [|done]. intros Hall.
    destruct (Hp1 Hall) as [(w & Hw & Hs) Hr]. split; [|done]. exists w. split; [congruence|done].
Qed.

(** *** A sequence of arrivals *)
Fixpoint receive_arrivals (l : list Arrival) : M St bool :=
  match l with
  | [] => mret true
  | a :: l => ok ← on_espnow_frame (arr_sender a) (arrival_frame a) (arr_rssi a);
              oks ← receive_arrivals l; mret (ok && oks)
  end.

Lemma all_pieces_incl (l l' : list nat) : (forall i, i ∈ l -> i ∈ l') -> all_pieces l -> all_pieces l'.
Proof. unfold all_pieces. auto. Qed.

Lemma wp_receive_arrivals x0 last l got s :
  agreed x0 -> crypto s.1 = c -> publish_state_fn_set (callbacks s.1) = true ->
  Forall (arrival_ok (bridge_mac_ s.1) (s_session_max_payload x0)) (l ++ [last]) ->
  ~ all_pieces ((arr_piece <$> l) ++ got) ->
  all_pieces ((arr_piece <$> l ++ [last]) ++ got) ->
  receiving (mac_to_key_ leaf) x0 got s ->
  wp (receive_arrivals (l ++ [last]))
     (fun ok s' => ok = true /\ exists w, published leaf (arr_sender last) x0 w s') s.
Proof.
  intros Hag. revert got s. induction l as [|a l IH]; intros got s Hc Hp Hl Hnot Hall Hrec.
  - cbn in Hl, Hall, Hnot. apply Forall_cons in Hl as [Ha _]. cbn [receive_arrivals app].
    apply wp_bind. eapply wp_mono; [by apply wp_state_frame|].
    intros ok s' (-> & _ & Hpub & _). do 2 wp_step. apply wp_ret. split; [done|].
    eexists. by apply Hpub.
  - cbn in Hl, Hall, Hnot. apply Forall_cons in Hl as [Ha Hl]. cbn [receive_arrivals app].
    apply wp_bind. eapply wp_mono; [by apply wp_state_frame|].
    intros ok s' (-> & Hss & _ & Hgo).
    assert (setup s' = setup s) as E by exact Hss. unfold setup in E. injection E as Ec Em Ek.
    apply wp_bind. eapply wp_mono.
    + apply (IH (arr_piece a :: got)); [congruence..| | | |].
      * by rewrite Em.
      * intros Hc'. apply Hnot. revert Hc'. apply all_pieces_incl. set_solver.
      * revert Hall. apply all_pieces_incl. set_solver.
      * apply Hgo. intros Hc'. apply Hnot. revert Hc'. apply all_pieces_incl. set_solver.
    + intros oks s'' [-> Hpub]. by apply wp_ret.
Qed.

(** The arrivals that complete a collection of all pieces: the first one with which every
    piece has arrived since the previous completion. *)
Definition all_here (got : list nat) : bool := forallb (fun i => bool_decide (i ∈ got)) (seq 0 n).
Fixpoint completions (got : list nat) (l : list Arrival) : list Arrival :=
  match l with
  | [] => []
  | a :: l => let got := arr_piece a :: got in
              if all_here got then a :: completions [] l else completions got l
  end.

Lemma forallb_false {A} (f : A -> bool) (xs : list A) :
  forallb f xs = false <-> exists x, In x xs /\ f x = false.
Proof.
  induction xs as [|y xs IH]; cbn; [split; [done|by intros (? & [] & _)]|].
  rewrite andb_false_iff, IH. split.
  - intros [Hy|(x & Hx & Hfx)]; eauto.
  - intros (x & [->|Hx] & Hfx); eauto.
Qed.

Lemma all_here_spec got : all_here got = true <-> all_pieces got.
Proof using Type.
  clear -frag value.
  unfold all_here, all_pieces. rewrite forallb_forall. split.
  - intros Hall i Hi. eapply bool_decide_eq_true, Hall, in_seq. lia.
  - intros Hall i Hi%in_seq. apply bool_decide_eq_true_2, Hall. lia.
Qed.

Lemma completions_none got l :
  ~ all_pieces got -> completions got l = [] <-> ~ all_pieces ((arr_piece <$> l) ++ got).
Proof using Type.
  clear -frag value.
  revert got. induction l as [|a l IH]; intros got Hgot; [done|]. cbn [completions fmap list_fmap app].
  destruct (all_here _) eqn:E.
  - apply all_here_spec in E. split; [done|]. intros []. revert E. apply all_pieces_incl. set_solver.
  - rewrite IH by (by rewrite <-all_here_spec, E).
    assert (forall i, i ∈ (arr_piece <$> l) ++ arr_piece a :: got <->
                      i ∈ arr_piece a :: (arr_piece <$> l) ++ got) as Hi by set_solver.
    split; intros Hn Hc; apply Hn; revert Hc; apply all_pieces_incl; intros i; apply Hi.
Qed.

Lemma completions_empty l :
  completions [] l = [] <-> exists i, (i < n)%nat /\ i ∉ arr_piece <$> l.
Proof using Type.
  clear -frag value.
  assert (0 < n)%nat as Hn by (unfold chunk_count; lia).
  rewrite completions_none, app_nil_r by (intros Hc; by apply (not_elem_of_nil 0%nat), Hc).
  split.
  - intros Hno. destruct (all_here (arr_piece <$> l)) eqn:E; [by apply all_here_spec in E|].
    unfold all_here in E. rewrite forallb_false in E.
    destruct E as (i & Hi & Hb). exists i. apply bool_decide_eq_false in Hb. split; [|done].
    apply in_seq in Hi. lia.
  - intros (i & Hi & Hni) Hall. by apply Hni, Hall.
Qed.

(** Any sequence of arrivals: one publication per completion, by the relay that completed. *)
Lemma wp_any_arrivals x0 (step : bytes -> X -> X) l got s :
  (forall sender w, obs (publish_state_fn leaf (entity_at x0 entity) value
     (entity_type (entity_at x0 entity)) (text_of (entity_at x0 entity) value) base sender w) =
     step sender (obs w)) ->
  agreed x0 -> crypto s.1 = c -> publish_state_fn_set (callbacks s.1) = true ->
  Forall (arrival_ok (bridge_mac_ s.1) (s_session_max_payload x0)) l ->
  receiving (mac_to_key_ leaf) x0 got s ->
  wp (receive_arrivals l) (fun ok s' => ok = true /\
    obs s'.2 = foldl (fun o a => step (arr_sender a) o) (obs s.2) (completions got l)) s.
Proof.
  intros Hstep Hag. revert got s. induction l as [|a l IH]; intros got s Hc Hp Hl Hrec; [done|].
  apply Forall_cons in Hl as [Ha Hl]. cbn [receive_arrivals completions].
  apply wp_bind. eapply wp_mono; [by apply wp_state_frame|].
  intros ok s1 (-> & Hss & Hyes & Hno).
  assert (setup s1 = setup s) as E by exact Hss. unfold setup in E. injection E as Ec Em Ek.
  assert (forall got', receiving (mac_to_key_ leaf) x0 got' s1 ->
    wp (oks ← receive_arrivals l; mret (true && oks)) (fun ok s' => ok = true /\
      obs s'.2 = foldl (fun o a => step (arr_sender a) o) (obs s1.2) (completions got' l)) s1) as Hgo.
  { intros got' Hr. apply wp_bind. eapply wp_mono; [apply (IH got'); [congruence..| |exact Hr]; by rewrite Em|].
    intros oks s2 [-> Ho]. by apply wp_ret. }
  destruct (all_here (arr_piece a :: got)) eqn:E.
  - apply all_here_spec, Hyes in E as [(w & Hw & Hs1) Hr]. specialize (Hgo [] Hr).
    cbn [foldl]. by rewrite <-Hw, <-Hstep, <-Hs1.
  - destruct Hno as [Ho Hr]; [by rewrite <-all_here_spec, E|]. specialize (Hgo _ Hr). by rewrite <-Ho.
Qed.
End message.

(** C3: End-to-end delivery of a state.  A leaf with a session cuts a value
    into fragments, encrypts each under its own counter and sends them; relays
    rewrite hop byte and parent address; fragments arrive in any order and any
    number of times.  Every frame is accepted, and when the last missing
    fragment arrives the bridge hands exactly that value, with the entity's
    schema and the counter of its first fragment, to the publisher. *)
Theorem state_value_published s x leaf hop entity base flags value l last
    (frag := s_max_entity_fragment x) (chunks := chunk_count frag value) :
  bridge_ok s.1 -> g_psk_set (crypto s.1) = true ->
  publish_state_fn_set (callbacks s.1) = true ->
  get_session leaf s.1 = Some x -> s_session_key_valid x = true ->
  length leaf = 6%nat -> bytes_ok leaf -> 0 <= hop < 256 -> 0 <= base < 4294967296 ->
  0 <= entity < 256 -> (forall i, 0 <= flags i < 256) ->
  chunks * frag <= s_max_assembly_bytes x ->
  counter_is_newer base (s_last_completed_state_message_tx_base x) = true ->
  assemblies (s_state_assemblies x) !! entity = None ->
  (size (assemblies (s_state_assemblies x)) < Z.to_nat ESPNOW_MAX_PENDING_FRAGMENT_ASSEMBLIES)%nat ->
  0 <= reserved_bytes (s_state_assemblies x) ->
  reserved_bytes (s_state_assemblies x) + 2 * (chunks * frag) <= s_max_total_fragment_bytes x ->
  Forall (arrival_ok frag value (bridge_mac_ s.1) (s_session_max_payload x)) (l ++ [last]) ->
  (exists i, Z.of_nat i < chunks /\ i ∉ arr_piece <$> l) ->
  (forall i, Z.of_nat i < chunks -> i ∈ arr_piece <$> l ++ [last]) ->
  exists s' w, receive_arrivals entity frag base flags value (crypto s.1) (s_session_key x) leaf hop
                 (l ++ [last]) s = (true, s') /\
    s'.2 = publish_state_fn leaf (entity_at x entity) value (entity_type (entity_at x entity))
             (text_of (entity_at x entity) value) base (arr_sender last) w.
Proof.
  intros Hok Hpsk Hpub Hx Hv Hll Hlo Hhop Hbase Hent Hfl Hfit Hnew Hnone Hsize Hr0 Hr Hl Hnot Hall.
  pose proof (bo_sessions _ Hok _ _ Hx) as [_ _ [Hkl Hko] Hsz Hpl _ _ _ _ _].
  assert (0 < frag /\ s_max_assembly_bytes x < 65536 /\ s_max_total_fragment_bytes x < 65536 /\
          chunks < 256) as (Hf & Hm & Hc & Hn).
  { subst chunks frag. destruct Hsz as [[= E1 E2 E3]|[= E1 E2 E3]];
      rewrite E1, ?E2, ?E3 in *; nia. }
  assert (s_session_max_payload x <= ESPNOW_V2_MAX_PAYLOAD) as Hp
    by (destruct Hpl as [-> | ->]; done).
  pose proof (wp_receive_arrivals (fun _ => tt) (fun _ _ _ _ => eq_refl) (fun _ _ _ => eq_refl) entity frag (s_max_assembly_bytes x) (s_max_total_fragment_bytes x)
    base flags value Hf Hfit Hm Hc (crypto s.1) (s_session_key x) leaf hop Hpsk Hkl Hko Hll Hlo Hhop
    Hbase Hent Hfl Hn x last l [] s) as Hwp.
  unfold wp in Hwp. destruct (receive_arrivals _ _ _ _ _ _ _ _ _ (l ++ [last]) s) as [ok s'] eqn:E.
  cbn in Hwp. destruct Hwp as (-> & w0 & w & _ & Hw); [by constructor|done|done|done| | | |].
  - rewrite app_nil_r. intros Hc'. destruct Hnot as (i & Hi & Hni). apply Hni, Hc'. lia.
  - rewrite app_nil_r. intros i Hi. apply Hall. lia.
  - exists x. done.
  - by exists s', w.
Qed.
End delivery.
