(* ===== verification/RemoteDelivery.v ===== *)
(** * RemoteDelivery: from a remote's entity to the bridge's publisher

    Composes the remote with the bridge: the frames [send_state_] hands to the
    radio are the ones [BridgeDelivery.state_value_published] is about, so that
    a value the remote sends is published by the bridge once its frames have
    arrived, in whatever order, however often and over whichever relays. *)
From S2P Require Import Prelude Wire IncrementBuffer FileReceiver OTAFlashHandler FileReceiverInv FileContent OtaReceive Crypto Frames Fragments ReceiverWorld RemoteSession RemoteProtocol RemoteLoop RemoteFrames RemoteInv RemoteSafe RemoteRun RemoteConfig RemoteSending OtaManager BridgeSession BridgeProtocol BridgeLoop BridgeSafety BridgeRun BridgeDelivery.

(** ** The publications of a bridge

    Any environment of the bridge with a list of the states handed to the publisher. *)
Record Publication := {
  pub_leaf : bytes;
  pub_entity : espnow_entity_schema_t;
  pub_value : bytes;
  pub_type : Z;
  pub_text : bytes;
  pub_tx_base : Z;
  pub_next_hop : bytes
}.

Section publications.
Context {V : Type} `{!BridgeEnv V}.
Definition lifted {A} (f : V -> A * V) (w : V * list Publication) : A * (V * list Publication) :=
  let '(a, v) := f w.1 in (a, (v, w.2)).
#[export] Instance publishing_env : BridgeEnv (V * list Publication) := {|
  bridge_millis w := bridge_millis w.1;
  bridge_delay ms w := (bridge_delay ms w.1, w.2);
  esp_random := lifted esp_random;
  fill_random_bytes n := lifted (fill_random_bytes n);
  esp_get_free_heap_size := lifted esp_get_free_heap_size;
  ram_below b w := ram_below b w.1;
  send_fn mac frame := lifted (send_fn mac frame);
  send_err_fn mac frame := lifted (send_err_fn mac frame);
  publish_state_fn leaf e value type text tx_base hop w :=
    (publish_state_fn leaf e value type text tx_base hop w.1,
     w.2 ++ [{| pub_leaf := leaf; pub_entity := e; pub_value := value; pub_type := type;
                pub_text := text; pub_tx_base := tx_base; pub_next_hop := hop |}]);
  publish_discovery_fn mac e n b w := (publish_discovery_fn mac e n b w.1, w.2);
  publish_availability_fn mac b reason w := (publish_availability_fn mac b reason w.1, w.2);
  publish_topology_changed_fn mac reason w := (publish_topology_changed_fn mac reason w.1, w.2);
  publish_bridge_diag_fn a b w := (publish_bridge_diag_fn a b w.1, w.2);
  clear_entities_fn mac l w := (clear_entities_fn mac l w.1, w.2);
  schema_complete_fn mac n w := (schema_complete_fn mac n w.1, w.2);
  file_ack_fn mac ack l w := (file_ack_fn mac ack l w.1, w.2);
  config_callback i r w := (config_callback i r w.1, w.2)
|}.
End publications.

Section delivery.
Context {W : Type} `{!RemoteEnv W} `{!OtaPlatform W} `{!Hmac} `{!Digests}.
Context {V : Type} `{!BridgeEnv V}.
Abbreviation Bridge := (BridgeProtocol * (V * list Publication))%type.
Abbreviation Remote := (RemoteProtocol * (W * list (bytes * bytes)))%type.

(** The bridge receives copies of the sent frames; [arr_piece] counts frames. *)
Fixpoint deliver (frames : list bytes) (l : list Arrival) : M Bridge bool :=
  match l with
  | [] => mret true
  | a :: l =>
    ok ← BridgeProtocol.on_espnow_frame (arr_sender a)
           (relayed (arr_hop a) (arr_parent a) (nth (arr_piece a) frames [])) (arr_rssi a);
    oks ← deliver frames l; mret (ok && oks)
  end.

Lemma build_is_encrypted p type hop tx plaintext :
  build_frame p type hop tx plaintext true None =
  encrypted_frame (RemoteSession.crypto p) (session_key_ p) (leaf_mac_ p) type hop tx plaintext.
Proof. unfold build_frame, encrypted_frame. by destruct (espnow_crypto_crypt _ _ _ _). Qed.

Lemma state_flags_byte records field chunks j : 0 <= state_flags records field chunks j < 256.
Proof. unfold state_flags. destruct (_ <? _); [|destruct (existsb _ _)]; done. Qed.

(** The remote's pieces are the frames of the delivery. *)
Lemma state_piece_frame p field payload base j :
  let chunks := chunk_count (max_entity_fragment_ p) payload in
  chunks < 256 -> (j < Z.to_nat chunks)%nat ->
  default [] (state_piece p field payload base j) =
  state_frame field (max_entity_fragment_ p) base (state_flags (entity_records_ p) field chunks) payload
    (RemoteSession.crypto p) (session_key_ p) (leaf_mac_ p) (upstream_hops p) j.
Proof.
  intros chunks Hc Hj. unfold state_piece, noted_frame, state_frame. rewrite build_is_encrypted.
  unfold fragment_payload. fold chunks. by rewrite !u8_small by lia.
Qed.

Lemma deliver_arrivals p field payload base frames l (s : Bridge) :
  let frag := max_entity_fragment_ p in
  let chunks := chunk_count frag payload in
  chunks < 256 ->
  Forall2 (fun j frame => state_piece p field payload base j = Some frame) (seq 0 (Z.to_nat chunks)) frames ->
  Forall (fun a => (arr_piece a < Z.to_nat chunks)%nat) l ->
  deliver frames l s =
  receive_arrivals field frag base (state_flags (entity_records_ p) field chunks) payload
    (RemoteSession.crypto p) (session_key_ p) (leaf_mac_ p) (upstream_hops p) l s.
Proof.
  intros frag chunks Hc Hf Hl. revert s. induction Hl as [|a l Ha Hl IH]; intros s; [done|].
  assert (nth (arr_piece a) frames [] =
    state_frame field frag base (state_flags (entity_records_ p) field chunks) payload
      (RemoteSession.crypto p) (session_key_ p) (leaf_mac_ p) (upstream_hops p) (arr_piece a)) as E.
  { refine (eq_trans _ (state_piece_frame p field payload base (arr_piece a) Hc Ha)).
    assert (seq 0 (Z.to_nat chunks) !! arr_piece a = Some (arr_piece a)) as Hs by (by apply lookup_seq).
    destruct (Forall2_lookup_l _ _ _ _ _ Hf Hs) as (frame & Hn & ->). by rewrite (nth_lookup_Some _ _ _ _ Hn). }
  cbn [deliver receive_arrivals]. unfold arrival_frame, mbind, M_bind. rewrite E.
  destruct (BridgeProtocol.on_espnow_frame _ _ _ s) as [ok s']. by rewrite IH.
Qed.

(** The session of the bridge agrees with the remote's, and has room for the message. *)
Record session_for (p : RemoteProtocol) (field : Z) (payload : bytes) (x : BridgeSession) : Prop := {
  sf_valid : s_session_key_valid x = true;
  sf_key : s_session_key x = session_key_ p;
  sf_fragment : s_max_entity_fragment x = max_entity_fragment_ p;
  sf_fits : chunk_count (max_entity_fragment_ p) payload * max_entity_fragment_ p <= s_max_assembly_bytes x;
  sf_new : counter_is_newer (tx_counter_ p) (s_last_completed_state_message_tx_base x) = true;
  sf_absent : assemblies (s_state_assemblies x) !! field = None;
  sf_slot : (size (assemblies (s_state_assemblies x)) < 8)%nat;
  sf_reserved : 0 <= reserved_bytes (s_state_assemblies x);
  sf_room : reserved_bytes (s_state_assemblies x) +
    2 * (chunk_count (max_entity_fragment_ p) payload * max_entity_fragment_ p)
    <= s_max_total_fragment_bytes x
}.

Lemma foldl_snoc {A B} (f : A -> B) (l : list A) (o : list B) :
  foldl (fun o a => o ++ [f a]) o l = o ++ (f <$> l).
Proof.
  revert o. induction l as [|a l IH]; intros o; cbn; [by rewrite app_nil_r|].
  by rewrite IH, <-(assoc_L (++)).
Qed.


(** ** The handshake *)
Definition v2_flag (flags : Z) : bool := negb (Z.land flags ESPNOW_SESSION_FLAG_V2_MTU =? 0).

(** The acknowledgement [send_join_ack_] makes of a session. *)
Definition join_ack_of (b : BridgeProtocol) (x : BridgeSession) (stage : Z) : espnow_join_ack_t :=
  {| ja_accepted := 1; ja_reason := 0; ja_stage := stage; ja_bridge_nonce := s_bridge_nonce x;
     ja_session_flags := BridgeSession.bridge_session_flags_ b |}.

Lemma accepted_sizes tx ack p :
  let p' := accept_session tx ack p in
  (session_max_payload_ p', max_entity_fragment_ p', max_assembly_bytes_ p', max_total_fragment_bytes_ p') =
  if v2_flag (ja_session_flags ack) then (1470, 1440, 8640, 34560) else (250, 220, 1320, 5280).
Proof.
  unfold accept_session. cbv zeta.
  set (m := if negb _ && negb _ then ESPNOW_V2_MAX_PAYLOAD else ESPNOW_V1_MAX_PAYLOAD).
  assert (m = if v2_flag (ja_session_flags ack) then 1470 else 250) as Em.
  { transitivity (if v2_flag (ja_session_flags ack) && v2_flag (ja_session_flags ack)
                  then ESPNOW_V2_MAX_PAYLOAD else ESPNOW_V1_MAX_PAYLOAD); [done|].
    by destruct (v2_flag _). }
  clearbody m. subst m. by destruct (v2_flag _).
Qed.
Lemma negotiated_sizes b sender header join rssi now nonce x :
  let x' := begin_join b sender header join rssi now nonce x in
  (s_session_max_payload x', s_max_entity_fragment x', s_max_assembly_bytes x', s_max_total_fragment_bytes x') =
  if v2_flag (join_session_flags join) && v2_flag (BridgeSession.bridge_session_flags_ b)
  then (1470, 1440, 8640, 34560) else (250, 220, 1024, 4096).
Proof.
  cbv zeta. unfold begin_join, negotiate_mtu. fold (v2_flag (join_session_flags join)).
  fold (v2_flag (BridgeSession.bridge_session_flags_ b)). by destruct (_ && _).
Qed.

(** What the rest of a JOIN leaves as it is. *)
Definition agreement (x : BridgeSession) :=
  (s_session_key x, s_bridge_nonce x, s_session_max_payload x, s_max_entity_fragment x,
   s_max_assembly_bytes x, s_max_total_fragment_bytes x).
Abbreviation JSt := (BridgeProtocol * V)%type.
Definition agreeing (key : Z) (s s' : JSt) : Prop :=
  forall x, sessions_ s.1 !! key = Some x ->
    exists x', sessions_ s'.1 !! key = Some x' /\ agreement x' = agreement x /\
      s_session_key_valid x' = s_session_key_valid x.
#[local] Instance agreeing_preorder key : PreOrder (agreeing key).
Proof.
  split; [by intros s x Hx; eauto|]. intros s1 s2 s3 H12 H23 x Hx.
  destruct (H12 x Hx) as (x2 & Hx2 & E2 & V2). destruct (H23 x2 Hx2) as (x3 & Hx3 & E3 & V3).
  exists x3. split_and!; congruence.
Qed.

Lemma agreeing_session key f :
  (forall x, agreement (f x) = agreement x /\ s_session_key_valid (f x) = s_session_key_valid x) ->
  keeps (agreeing key) (with_session (W := V) key f).
Proof.
  intros Hf s x Hx. exists (f x). unfold with_session, BridgeSession.update, modify, upd.
  cbn. rewrite lookup_alter_eq, Hx. split; [done|apply Hf].
Qed.
Lemma agreeing_still {A} key (m : M JSt A) : (forall s, sessions_ (m s).2.1 = sessions_ s.1) -> keeps (agreeing key) m.
Proof. intros Hm s x Hx. exists x. by rewrite Hm. Qed.
Lemma agreeing_ask {A} key (f : V -> A * V) : keeps (agreeing key) (BridgeSession.ask f).
Proof. apply agreeing_still. intros [p v]. unfold BridgeSession.ask. cbn. by destruct (f v). Qed.

Ltac agreeing_tac :=
  idtac; first [apply agreeing_ask | by apply agreeing_session | by apply agreeing_still
               | solve [eauto with agreeing nocore]].
Create HintDb agreeing discriminated.

Lemma agreeing_send_join_ack key sender accepted reason stage :
  keeps (agreeing key) (send_join_ack_ (W := V) sender key accepted reason stage).
Proof. unfold send_join_ack_, next_tx_counter, send_plain_psk_. keeps_go agreeing_tac. Qed.
#[local] Hint Resolve agreeing_send_join_ack : agreeing.
Lemma agreeing_send_join_complete key sender b :
  keeps (agreeing key) (send_join_complete_ (W := V) sender key b).
Proof. unfold send_join_complete_. keeps_go agreeing_tac. Qed.
Lemma agreeing_schema_request key sender type index :
  keeps (agreeing key) (send_schema_request_ (W := V) sender key type index).
Proof. unfold send_schema_request_, send_encrypted_. keeps_go agreeing_tac. Qed.
Lemma agreeing_schema_complete key : keeps (agreeing key) (schema_complete (W := V) key).
Proof. unfold schema_complete, notify. keeps_go agreeing_tac. Qed.
#[local] Hint Resolve agreeing_send_join_complete agreeing_schema_request agreeing_schema_complete : agreeing.

(** The session of [key] agrees with [x] and, if the JOIN has succeeded, is valid. *)
Definition agrees_with (key : Z) (x : BridgeSession) (ok : bool) (s : JSt) : Prop :=
  ok = true -> exists x', sessions_ s.1 !! key = Some x' /\ agreement x' = agreement x /\
    s_session_key_valid x' = s_session_key_valid x.

Lemma agreeing_agrees key x ok (s s' : JSt) :
  sessions_ s.1 !! key = Some x -> agreeing key s s' -> agrees_with key x ok s'.
Proof. intros Hx Ha _. by apply Ha. Qed.

Lemma failed_join key x (m : M JSt unit) (s : JSt) : wp (m;; mret false) (agrees_with key x) s.
Proof. unfold wp, mbind, M_bind. by destruct (m s). Qed.

Lemma join_refresh_agrees sender key x (s : JSt) :
  sessions_ s.1 !! key = Some x -> wp (join_refresh sender key) (agrees_with key x) s.
Proof.
  intros Hx. unfold join_refresh. apply wp_bind, (wp_keeps (agreeing key)); [agreeing_tac|].
  intros _ s1 H1. apply wp_bind, (wp_keeps (agreeing key)); [agreeing_tac|]. intros ok s2 H2.
  apply wp_if; intros _; [apply failed_join|].
  apply wp_bind, (wp_keeps (agreeing key)); [agreeing_tac|]. intros _ s3 H3.
  apply wp_bind, (wp_keeps (agreeing key)); [agreeing_tac|]. intros sent s4 H4.
  apply wp_bind, (wp_keeps (agreeing key)); [agreeing_tac|]. intros _ s5 H5.
  apply wp_if; intros _; [apply failed_join|].
  apply (wp_keeps (agreeing key)); [keeps_go agreeing_tac|]. intros ok' s6 H6.
  apply (agreeing_agrees key x ok' s); [done|]. repeat (etrans; [eassumption|]). reflexivity.
Qed.

Lemma join_cached_agrees sender join key cached x (s : JSt) :
  sessions_ s.1 !! key = Some x ->
  wp (join_cached sender join key cached)
     (agrees_with key (match cached with
        | Some c => x <| s_session_max_payload := cached_session_max_payload c |> | None => x end)) s.
Proof.
  intros Hx. unfold join_cached. apply wp_bind. eapply wp_with_session; [done|]. intros s1 H1 _ _.
  set (y := _ <| s_total_entities := _ |>) in H1.
  match goal with |- wp _ (agrees_with _ ?z) _ => set (x1 := z) end.
  assert (agreement y = agreement x1 /\ s_session_key_valid y = s_session_key_valid x1) as [Ey Vy]
    by (subst y x1; by destruct cached).
  clearbody y x1. clear Hx.
  assert (forall ok s2, agreeing key s1 s2 -> agrees_with key x1 ok s2) as Hdone.
  { intros ok s2 Ha _. destruct (Ha y H1) as (x' & ? & ? & ?). exists x'. split_and!; congruence. }
  apply wp_bind, (wp_keeps (agreeing key)); [agreeing_tac|]. intros _ s2 H2.
  apply wp_if; intros _.
  - apply (wp_keeps (agreeing key)); [agreeing_tac|]. intros ok s3 H3. apply Hdone. by etrans.
  - apply wp_bind, (wp_keeps (agreeing key)); [agreeing_tac|]. intros _ s3 H3.
    apply wp_bind, (wp_keeps (agreeing key)); [agreeing_tac|]. intros ok s4 H4.
    apply wp_if; intros _; [apply failed_join|]. apply wp_ret, Hdone. by do 2 (etrans; [eassumption|]).
Qed.

(** What the bridge remembers of the schema a JOIN announces: an entry under the leaf's
    last known name, or its address. *)
Definition remembered_under (b : BridgeProtocol) (leaf : bytes) : bytes :=
  let name := match get_session leaf b with Some x => esphome_name (s_identity x) | None => [] end in
  if (length name =? 0)%nat then mac_hex (take 6 leaf) else name.
Definition known_schema (b : BridgeProtocol) (leaf : bytes) (join : espnow_join_t) : option CachedSessionData :=
  if bool_decide (schema_hash_cache_ b !! remembered_under b leaf = Some (join_schema_hash join))
  then schema_cache_ b !! remembered_under b leaf else None.

(** The frame size the bridge works with after a JOIN. *)
Definition payload_limit (b : BridgeProtocol) (leaf : bytes) (join : espnow_join_t) : Z :=
  match known_schema b leaf join with
  | Some c => cached_session_max_payload c
  | None => if v2_flag (join_session_flags join) && v2_flag (BridgeSession.bridge_session_flags_ b)
            then 1470 else 250
  end.

(** A JOIN that is not a retry of the one in progress, and need not wait for another's. *)
Definition fresh (b : BridgeProtocol) (leaf : bytes) (join : espnow_join_t) : Prop :=
  (joining_in_progress_ b = true -> joining_leaf_mac_ b = leaf) /\
  (forall x, get_session leaf b = Some x -> s_join_in_progress x && same_join x join = false).

(** The session a JOIN leaves behind, seen from the bridge [b] it came to. *)
Definition joined_as (b : BridgeProtocol) (leaf : bytes) (join : espnow_join_t) (nonce : bytes)
    (x : BridgeSession) : Prop :=
  s_session_key_valid x = true /\ s_bridge_nonce x = nonce /\
  s_session_key x = espnow_crypto_derive_session_key (BridgeSession.crypto b) nonce (join_remote_nonce join) /\
  s_session_max_payload x = payload_limit b leaf join /\
  (s_max_entity_fragment x, s_max_assembly_bytes x, s_max_total_fragment_bytes x) =
    if v2_flag (join_session_flags join) && v2_flag (BridgeSession.bridge_session_flags_ b)
    then (1440, 8640, 34560) else (220, 1024, 4096).

Lemma begin_join_fields b sender header join rssi now nonce x :
  let y := begin_join b sender header join rssi now nonce x in
  s_session_key_valid y = true /\ s_bridge_nonce y = nonce /\
  s_session_key y = espnow_crypto_derive_session_key (BridgeSession.crypto b) nonce (join_remote_nonce join) /\
  s_leaf_mac y = s_leaf_mac x /\ s_schema_hash y = join_schema_hash join /\
  esphome_name (s_identity y) = [].
Proof. cbv zeta. unfold begin_join, negotiate_mtu. by destruct (_ && _). Qed.

Lemma ensured_fields leaf found :
  s_leaf_mac (ensured_session leaf found) = take 6 leaf /\
  s_identity (ensured_session leaf found) = s_identity (default new_session found).
Proof. unfold ensured_session. by destruct (length (s_mac_hex_key _) =? 0)%nat. Qed.

Lemma remembered_key b leaf x y :
  x = ensured_session leaf (get_session leaf b) -> s_leaf_mac y = s_leaf_mac x ->
  esphome_name (s_identity y) = [] ->
  (if (length (esphome_name (s_identity x)) =? 0)%nat then schema_cache_key_ y
   else esphome_name (s_identity x)) = remembered_under b leaf.
Proof.
  intros -> Hm Hn. destruct (ensured_fields leaf (get_session leaf b)) as [El Ei].
  unfold schema_cache_key_, remembered_under. rewrite Hn, Hm, El, Ei. by destruct (get_session leaf b).
Qed.

Lemma wp_asked {A} (f : V -> A * V) (Q : A -> JSt -> Prop) s :
  Q (f s.2).1 (s.1, (f s.2).2) -> wp (BridgeSession.ask f) Q s.
Proof. unfold wp, BridgeSession.ask. by destruct (f s.2). Qed.

Lemma join_continues sender join leaf y nonce (b : BridgeProtocol) (s : JSt) :
  let key := mac_to_key_ leaf in
  sessions_ s.1 !! key = Some y -> s_session_key_valid y = true -> s_bridge_nonce y = nonce ->
  s_session_key y = espnow_crypto_derive_session_key (BridgeSession.crypto b) nonce (join_remote_nonce join) ->
  (s_session_max_payload y, s_max_entity_fragment y, s_max_assembly_bytes y, s_max_total_fragment_bytes y) =
    (if v2_flag (join_session_flags join) && v2_flag (BridgeSession.bridge_session_flags_ b)
     then (1470, 1440, 8640, 34560) else (250, 220, 1024, 4096)) ->
  wp (if bool_decide (schema_hash_cache_ b !! remembered_under b leaf = Some (join_schema_hash join))
      then join_cached sender join key (schema_cache_ b !! remembered_under b leaf)
      else join_refresh sender key) (fun ok s' => ok = true ->
    exists x', sessions_ s'.1 !! key = Some x' /\ joined_as b leaf join nonce x') s.
Proof.
  intros key Hy Y1 Y2 Y3 Y7.
  assert (forall z ok s', agrees_with key z ok s' ->
    s_session_key_valid z = true -> s_bridge_nonce z = nonce -> s_session_key z = s_session_key y ->
    s_session_max_payload z = payload_limit b leaf join ->
    (s_max_entity_fragment z, s_max_assembly_bytes z, s_max_total_fragment_bytes z) =
    (s_max_entity_fragment y, s_max_assembly_bytes y, s_max_total_fragment_bytes y) -> ok = true ->
    exists x', sessions_ s'.1 !! key = Some x' /\ joined_as b leaf join nonce x') as Hdone.
  { intros z ok s' Hz Z1 Z2 Z3 Z4 Z5 Hok. destruct (Hz Hok) as (x' & Hx' & [= A1 A2 A3 A4 A5 A6] & A7).
    exists x'. split; [done|]. split_and!; try congruence. rewrite A4, A5, A6, Z5.
    by destruct (_ && _); injection Y7 as _ -> -> ->. }
  assert (s_session_max_payload y = if v2_flag (join_session_flags join) &&
            v2_flag (BridgeSession.bridge_session_flags_ b) then 1470 else 250) as Y8
    by (destruct (_ && _); by injection Y7).
  unfold payload_limit, known_schema in Hdone. case_bool_decide as Ehit.
  - eapply wp_mono; [by apply join_cached_agrees|]. intros ok s2 Ha.
    destruct (schema_cache_ b !! _) as [c|]; by eapply Hdone.
  - eapply wp_mono; [by apply join_refresh_agrees|]. intros ok s2 Ha. by eapply Hdone.
Qed.

Lemma fresh_join_agrees sender header join rssi leaf x (s : JSt) b :
  let key := mac_to_key_ leaf in
  sessions_ s.1 !! key = Some x -> x = ensured_session leaf (get_session leaf b) ->
  (BridgeSession.crypto s.1, BridgeSession.bridge_session_flags_ s.1, schema_cache_ s.1, schema_hash_cache_ s.1) =
  (BridgeSession.crypto b, BridgeSession.bridge_session_flags_ b, schema_cache_ b, schema_hash_cache_ b) ->
  wp (fresh_join sender header join rssi key) (fun ok s' => ok = true ->
    exists x', sessions_ s'.1 !! key = Some x' /\
      joined_as b leaf join (fill_random_bytes 16 s.2).1 x') s.
Proof.
  intros key Hx Ex [= P1 P2 P3 P4]. unfold fresh_join. apply wp_bind, wp_asked.
  destruct s as [p v]. cbn [fst snd] in *.
  generalize (fill_random_bytes 16 v).1 as nonce, (fill_random_bytes 16 v).2 as v1. intros nonce v1.
  do 2 (apply wp_bind, wp_gets). cbn [fst snd].
  apply wp_bind, (wp_session _ x); [done|]. apply wp_bind. eapply wp_with_session; [done|].
  intros s1 H1 _ _. apply wp_bind. eapply wp_session; [exact H1|].
  destruct (begin_join_fields p sender header join rssi (bridge_millis v1) nonce x)
    as (Y1 & Y2 & Y3 & Y4 & Y5 & Y6).
  pose proof (negotiated_sizes p sender header join rssi (bridge_millis v1) nonce x) as Y7. cbv zeta in Y7.
  generalize dependent (begin_join p sender header join rssi (bridge_millis v1) nonce x).
  intros y H1 Y1 Y2 Y3 Y4 Y5 Y6 Y7.
  rewrite (remembered_key b leaf x y Ex Y4 Y6), Y5, P3, P4.
  apply (join_continues sender join leaf y nonce b s1 H1 Y1 Y2); [by rewrite <-P1|by rewrite <-P2].
Qed.

Lemma handle_join_agrees sender header payload rssi (s : JSt) :
  let join : espnow_join_t := of_bytes payload in
  let leaf := leaf_mac header in
  sender <> [] -> length payload = sizeof espnow_join_t -> length leaf = 6%nat -> fresh s.1 leaf join ->
  wp (handle_join_ sender header payload rssi) (fun ok s' => ok = true ->
    exists x', sessions_ s'.1 !! mac_to_key_ leaf = Some x' /\
      joined_as s.1 leaf join (fill_random_bytes 16 s.2).1 x') s.
Proof.
  intros join leaf Hs Hl Hleaf [Hslot Hretry]. unfold handle_join_.
  rewrite Hl, Nat.eqb_refl. fold leaf join. destruct sender as [|b0 rest]; [done|]. cbn [length Nat.eqb negb].
  unfold ensure_session_. rewrite Hleaf. cbn [Nat.eqb].
  do 2 apply wp_bind. apply wp_modify. apply wp_ret. apply wp_bind, wp_gets, wp_bind.
  set (x := ensured_session leaf (get_session leaf s.1)).
  cbn [fst snd]. change (sessions_ s.1 !! mac_to_key_ leaf) with (get_session leaf s.1). fold x.
  set (s1 := (_ : BridgeProtocol, s.2)).
  assert (sessions_ s1.1 !! mac_to_key_ leaf = Some x) as Hx
    by (subst s1; unfold upd; cbn -[mac_to_key_]; by rewrite lookup_insert_eq).
  apply (wp_session _ x); [done|].
  assert (s_join_in_progress x && same_join x join = false) as Hfresh.
  { subst x. unfold ensured_session. destruct (get_session leaf s.1) as [x0|]; [|done]. cbn [default from_option id].
    specialize (Hretry x0 eq_refl). by destruct (length (s_mac_hex_key x0) =? 0)%nat. }
  apply wp_if; intros Hwait.
  { apply andb_prop in Hwait as [Hj Hne]. apply negb_true_iff in Hne.
    rewrite <-(Hslot Hj) in Hne. unfold bytes_eqb in Hne. by rewrite bool_decide_eq_true_2 in Hne. }
  rewrite Hfresh. by apply (fresh_join_agrees _ header join rssi leaf x s1 s.1 Hx).
Qed.

End delivery.
