(* ===== verification/BridgeLimits.v ===== *)
(** * BridgeLimits: time limits and resource limits of the bridge

    The join slot is released after 45 seconds at the latest, a state that was
    confirmed is not published again, and what one oversized message does to
    the accounting of partly received messages. *)
From S2P Require Import Prelude Wire Crypto Frames Fragments OtaManager BridgeSession BridgeProtocol BridgeLoop BridgeSafety.

Section slot.
Context {W : Type} `{!BridgeEnv W} `{!Hmac}.
Abbreviation St := (BridgeProtocol * W)%type.

(** ** The join slot

    Between two frames nothing takes the slot: it stays as it is or is freed. *)
Definition slot_only_freed (s s' : St) : Prop :=
  joining_in_progress_ s'.1 = false \/
  (joining_in_progress_ s'.1 = joining_in_progress_ s.1 /\
   join_started_ms_ s'.1 = join_started_ms_ s.1).
#[local] Instance slot_only_freed_preorder : PreOrder slot_only_freed.
Proof.
  split; [by right|]. unfold slot_only_freed.
  intros s1 s2 s3 [H12|[H12 H12']] [H23|[H23 H23']]; auto.
  - left. congruence.
  - right. split; congruence.
Qed.

Create HintDb slot discriminated.
Lemma slot_update f : (forall p, joining_in_progress_ (f p) = joining_in_progress_ p /\
    join_started_ms_ (f p) = join_started_ms_ p) ->
  keeps slot_only_freed (update (W := W) f).
Proof. intros Hf [p w]. right. apply Hf. Qed.
Lemma slot_with_session key f : keeps slot_only_freed (with_session (W := W) key f).
Proof. by apply slot_update. Qed.
Lemma slot_env f : keeps slot_only_freed (env (W := W) f).
Proof. intros [p w]. by right. Qed.
Lemma slot_ask {A} (f : W -> A * W) : keeps slot_only_freed (ask f).
Proof. intros [p w]. right. unfold ask. cbn. by destruct (f w). Qed.
Lemma slot_this : keeps slot_only_freed (this (W := W)).
Proof. intros s. by right. Qed.
Lemma slot_session k : keeps slot_only_freed (session (W := W) k).
Proof. intros s. by right. Qed.
Lemma slot_millis : keeps slot_only_freed (millis (W := W)).
Proof. intros s. by right. Qed.
#[local] Hint Resolve slot_with_session slot_env slot_ask slot_this slot_session slot_millis : slot.
#[local] Hint Extern 1 (keeps slot_only_freed (update _)) => apply slot_update; done : slot.

Ltac slot_stays := keeps_go ltac:(solve [eauto with slot nocore]).

Lemma slot_notify b (f : W -> W) : keeps slot_only_freed (notify b f).
Proof. unfold notify. slot_stays. Qed.
#[local] Hint Extern 1 (keeps slot_only_freed (publish_availability _ _ _)) => apply slot_notify : slot.
#[local] Hint Extern 1 (keeps slot_only_freed (publish_topology _ _)) => apply slot_notify : slot.
#[local] Hint Extern 1 (keeps slot_only_freed (clear_entities _ _)) => apply slot_notify : slot.
#[local] Hint Extern 1 (keeps slot_only_freed (delay _)) => apply slot_env : slot.

Lemma slot_send_encrypted k mac t h d : keeps slot_only_freed (send_encrypted_ (W := W) mac k t h d).
Proof. unfold send_encrypted_. slot_stays. Qed.
Lemma slot_send_result k mac t h tx d :
  keeps slot_only_freed (send_encrypted_with_tx_counter_result_ (W := W) mac k t h tx d).
Proof. unfold send_encrypted_with_tx_counter_result_. slot_stays. Qed.
Lemma slot_send_plain mac leaf t h tx d :
  keeps slot_only_freed (send_plain_psk_ (W := W) mac leaf t h tx d).
Proof. unfold send_plain_psk_. slot_stays. Qed.
#[local] Hint Resolve slot_send_encrypted slot_send_result slot_send_plain : slot.
Lemma slot_send_tx k mac t h tx d :
  keeps slot_only_freed (send_encrypted_with_tx_counter_ (W := W) mac k t h tx d).
Proof. unfold send_encrypted_with_tx_counter_. slot_stays. Qed.
Lemma slot_schema_request k mac t i :
  keeps slot_only_freed (send_schema_request_ (W := W) mac k t i).
Proof. unfold send_schema_request_. slot_stays. Qed.
Lemma slot_announce mac leaf h : keeps slot_only_freed (send_discover_announce_ (W := W) mac leaf h).
Proof. unfold send_discover_announce_. slot_stays. Qed.
#[local] Hint Resolve slot_send_tx slot_schema_request slot_announce : slot.

(** [send_join_complete_] takes the slot and frees it. *)
Lemma slot_join_complete k mac b : keeps slot_only_freed (send_join_complete_ (W := W) mac k b).
Proof.
  intros s. left.
  enough (wp (send_join_complete_ mac k b) (fun _ s' => joining_in_progress_ s'.1 = false) s) by done.
  unfold send_join_complete_. apply wp_bind. unfold wp at 1. apply wp_bind. unfold wp at 1.
  apply wp_bind. unfold update. apply wp_modify. apply wp_bind. apply wp_gets.
  apply wp_bind. apply wp_modify. apply wp_bind, wp_when; intros _; [apply wp_modify|]; done.
Qed.
#[local] Hint Resolve slot_join_complete : slot.

Lemma slot_for_each {A} (l : list A) f : (forall a, keeps slot_only_freed (f a)) ->
  keeps slot_only_freed (for_each (W := W) l f).
Proof. intros Hf. induction l; cbn [for_each]; slot_stays. Qed.
#[local] Hint Resolve slot_for_each : slot.

Lemma slot_fragments_loop n i k mac f v fs cs tx b :
  keeps slot_only_freed (send_fragments_loop (W := W) n i mac k f v fs cs tx b).
Proof. revert i. induction n as [|n IH]; intros i; cbn [send_fragments_loop]; slot_stays. Qed.
#[local] Hint Resolve slot_fragments_loop : slot.
Lemma slot_erase k : keeps slot_only_freed (erase_session (W := W) k).
Proof. by apply slot_update. Qed.
#[local] Hint Resolve slot_erase : slot.
Lemma slot_evict_session k s : keeps slot_only_freed (evict_session (W := W) k s).
Proof. unfold evict_session, drop_caches. slot_stays. Qed.
#[local] Hint Resolve slot_evict_session : slot.
Lemma slot_evict_loop l b t n : keeps slot_only_freed (evict_loop (W := W) l b t n).
Proof. revert n. induction l as [|k l IH]; intros n; cbn [evict_loop]; slot_stays. Qed.
#[local] Hint Resolve slot_evict_loop : slot.
Lemma slot_evict b : keeps slot_only_freed (evict_sessions_for_ram_ (W := W) b).
Proof. unfold evict_sessions_for_ram_. slot_stays; intros s; by right. Qed.
Lemma slot_trim l : keeps slot_only_freed (trim_sessions (W := W) l).
Proof. induction l as [|k l IH]; cbn [trim_sessions]; unfold drop_caches; slot_stays. Qed.
#[local] Hint Resolve slot_evict slot_trim : slot.
Lemma slot_cleanup now : keeps slot_only_freed (cleanup (W := W) now).
Proof. unfold cleanup. slot_stays. Qed.
Lemma slot_session_timers now k : keeps slot_only_freed (session_timers (W := W) now k).
Proof.
  unfold session_timers, offline_timer, schema_retry_timer, resend_schema_request, state_sync_timer,
    join_retry_timer, join_timed_out, go_offline. slot_stays.
Qed.
Lemma slot_announce_timer now k : keeps slot_only_freed (announce_timer (W := W) now k).
Proof. unfold announce_timer. slot_stays. Qed.
Lemma slot_config_timer now c : keeps slot_only_freed (config_timer (W := W) now c).
Proof. unfold config_timer, run_config_callback, send_config_frame_. slot_stays. Qed.
Lemma slot_command_timer now c : keeps slot_only_freed (command_timer (W := W) now c).
Proof. unfold command_timer, send_command_fragments_. cbv zeta. slot_stays. Qed.
Lemma slot_filter {A} (timer : A -> M St (option A)) l : (forall a, keeps slot_only_freed (timer a)) ->
  keeps slot_only_freed (filter_queue timer l).
Proof. intros Ht. induction l as [|a l IH]; cbn [filter_queue]; slot_stays. Qed.
#[local] Hint Resolve slot_cleanup slot_session_timers slot_announce_timer slot_config_timer
  slot_command_timer slot_filter : slot.

Lemma slot_tick now : keeps slot_only_freed (update (W := W) (tick_uptime now)).
Proof. apply slot_update. intros p. unfold tick_uptime. cbv zeta. by repeat case_match. Qed.
#[local] Hint Resolve slot_tick : slot.

Lemma wp_slot {A B} (m : M St A) (k : A -> M St B) Q s0 s :
  keeps slot_only_freed m -> slot_only_freed s0 s ->
  (forall a s', slot_only_freed s0 s' -> wp (k a) Q s') -> wp (x ← m; k x) Q s.
Proof. intros Hm Hs Hk. apply wp_bind. apply Hk. etrans; [exact Hs|apply Hm]. Qed.

(** C22: The join slot is released.  While one leaf joins, every other leaf is
    told to wait; but a turn of the loop 45 seconds after the join began, or
    later, ends with the slot free, whatever the timers before and after it do,
    so a leaf that went silent cannot keep the others out. *)
Theorem join_slot_released s :
  joining_in_progress_ s.1 = true -> 0 < join_started_ms_ s.1 ->
  45000 <= u32 (bridge_millis s.2 - join_started_ms_ s.1) ->
  joining_in_progress_ (loop s).2.1 = false.
Proof.
  intros Hj Hpos Hel. enough (wp loop (fun _ s' => joining_in_progress_ s'.1 = false) s) by done.
  unfold loop. apply wp_bind. apply wp_gets. set (now := bridge_millis s.2) in *.
  eapply (wp_slot _ _ _ s); [slot_stays|reflexivity|]; intros ? s0 H0; cbv beta.
  do 4 (eapply (wp_slot _ _ _ s); [slot_stays|exact H0|]; clear s0 H0; intros ? s0 H0; cbv beta).
  apply wp_bind. unfold join_slot_timer. apply wp_bind. apply wp_gets. cbv beta.
  assert (forall m s1, keeps slot_only_freed m -> joining_in_progress_ s1.1 = false ->
    wp (A := unit) m (fun _ s' => joining_in_progress_ s'.1 = false) s1) as Hstay.
  { intros m s1 Hm Hf. destruct (Hm s1) as [E|[E _]]; unfold wp; congruence. }
  apply wp_when; intros Hc.
  - apply wp_modify. apply Hstay; [|done]. slot_stays; try (intros s'; by right).
    unfold publish_diag. slot_stays.
  - apply Hstay; [slot_stays; try (intros s'; by right); unfold publish_diag; slot_stays|].
    destruct H0 as [E|[E1 E2]]; [done|]. exfalso. rewrite E1, E2, Hj in Hc.
    rewrite (proj2 (Z.ltb_lt _ _)), (proj2 (Z.leb_le _ _)) in Hc by done. done.
Qed.
End slot.

(** ** The accounting of partly received messages *)
Section accounting.
Context (frag maxb cap : Z).

(** What happens to a table: a fragment arrives or time passes. *)
Inductive TableEvent :=
  | FragmentArrives (view : EntityPayloadView) (message_tx_base now : Z)
  | TimePasses (now : Z) (release : espnow_fragment_assembly_t -> Z).

(** The answers to the fragments and the table in the end. *)
Fixpoint run_table (r : Reassembly) (events : list TableEvent) : list bool * Reassembly :=
  match events with
  | [] => ([], r)
  | FragmentArrives view base now :: events =>
    let '(ok, r) := admit_fragment r view base now frag maxb cap in
    let '(oks, r) := run_table r events in (ok :: oks, r)
  | TimePasses now release :: events => run_table (expire_assemblies now release r) events
  end.

Definition fragment_ok (e : TableEvent) : Prop :=
  match e with
  | FragmentArrives view _ _ => view_ok view /\ view_fragment_count view < 256
  | TimePasses _ _ => True
  end.

(** The reservation exceeds the cap although no message is being received. *)
Record blocked (r : Reassembly) : Prop := {
  bl_idle : map_Forall (fun _ a => asm_active a = false) (assemblies r);
  bl_size : (size (assemblies r) <= Z.to_nat ESPNOW_MAX_PENDING_FRAGMENT_ASSEMBLIES)%nat;
  bl_over : cap < reserved_bytes r <= Z.of_nat (size (assemblies r)) * (255 * frag)
}.

Hypothesis frag_range : 0 < frag <= 1440.
Hypothesis cap_range : 0 <= cap.

Lemma store_over_cap r view base now :
  view_ok view -> view_fragment_count view < 256 -> blocked r ->
  store_admitted r view base now frag maxb cap = (false, r).
Proof using cap_range frag_range.
  intros Hv Hn [Hidle Hsize Hover]. unfold view_ok in Hv. unfold store_admitted.
  assert (asm_active (default fresh_assembly (assemblies r !! view_entity_index view)) = false) as ->.
  { destruct (assemblies r !! view_entity_index view) as [a|] eqn:E; [|done]. by apply (Hidle _ _ E). }
  change (Z.to_nat ESPNOW_MAX_PENDING_FRAGMENT_ASSEMBLIES) with 8%nat in Hsize.
  rewrite u32_small by nia. by rewrite (proj2 (Z.ltb_lt _ _)) by nia.
Qed.

Lemma admit_blocked r view base now :
  view_ok view -> view_fragment_count view < 256 -> blocked r ->
  (admit_fragment r view base now frag maxb cap).1 = false /\
  blocked (admit_fragment r view base now frag maxb cap).2.
Proof using cap_range frag_range.
  intros Hv Hn Hb. unfold admit_fragment.
  destruct (assemblies r !! view_entity_index view) as [a|] eqn:E.
  - rewrite (bl_idle r Hb _ _ E). cbn [andb]. by rewrite store_over_cap by done.
  - destruct (Nat.leb_spec (Z.to_nat ESPNOW_MAX_PENDING_FRAGMENT_ASSEMBLIES) (size (assemblies r)));
      [done|].
    rewrite store_over_cap; [split; [done|]| | |]; [|done|done|].
    all: destruct Hb as [Hidle Hsize Hover]; unfold view_ok in Hv;
      change (Z.to_nat ESPNOW_MAX_PENDING_FRAGMENT_ASSEMBLIES) with 8%nat in *.
    all: assert (size (<[view_entity_index view := fresh_assembly]> (assemblies r)) =
      S (size (assemblies r))) as Es by (by rewrite map_size_insert_None).
    all: unfold upd; constructor; cbn; [by apply map_Forall_insert_2|
      rewrite Es; change (Z.to_nat _) with 8%nat; lia|].
    all: rewrite Es, u32_small; nia.
Qed.

Lemma expire_blocked now release r : blocked r -> expire_assemblies now release r = r.
Proof.
  intros [Hidle _ _]. unfold expire_assemblies.
  assert (Forall (fun '(_, a) => asm_active a = false) (map_to_list (assemblies r))) as Hl.
  { apply Forall_forall. intros [k a] Hin. apply elem_of_map_to_list in Hin. by apply (Hidle k). }
  induction Hl as [|[k a] l Ha Hl IH]; [done|]. rewrite filter_cons_False; [done|].
  unfold assembly_expired. by rewrite Ha.
Qed.

Lemma run_blocked events r : Forall fragment_ok events -> blocked r ->
  Forall (fun ok => ok = false) (run_table r events).1 /\ blocked (run_table r events).2.
Proof using cap_range frag_range.
  intros Hev. revert r. induction Hev as [|[view base now|now release] l He Hl IH]; intros r Hb;
    cbn [run_table]; [done| |].
  - destruct He as [Hv Hn]. destruct (admit_blocked r view base now Hv Hn Hb) as [Hf Hb'].
    destruct (admit_fragment r view base now frag maxb cap) as [ok r']. cbn in Hf, Hb'.
    specialize (IH r' Hb'). destruct (run_table r' l). cbn in *. destruct IH. by constructor; [constructor|].
  - rewrite expire_blocked by done. auto.
Qed.
End accounting.


(** ** States are published once *)
Section confirmed.
Context {W : Type} `{!BridgeEnv W} `{!Hmac}.
Abbreviation St := (BridgeProtocol * W)%type.

(** The session exists and its last completed message is [base]. *)
Definition completed (key base : Z) (s : St) : Prop :=
  exists x, sessions_ s.1 !! key = Some x /\ s_last_completed_state_message_tx_base x = base.
Definition completed_stays (key base : Z) (s s' : St) : Prop :=
  completed key base s -> completed key base s'.
#[local] Instance completed_stays_preorder key base : PreOrder (completed_stays key base).
Proof. split; unfold completed_stays; [by intros s|auto]. Qed.

Create HintDb completed discriminated.
Lemma completed_with_session key base k f :
  (forall s, s_last_completed_state_message_tx_base (f s) = s_last_completed_state_message_tx_base s) ->
  keeps (completed_stays key base) (with_session k f).
Proof.
  intros Hf [p w] (x & Hx & Hb). unfold completed, with_session, update, modify, upd. cbn in *.
  destruct (decide (k = key)) as [->|Hne].
  - exists (f x). by rewrite lookup_alter_eq, Hx, Hf.
  - exists x. by rewrite lookup_alter_ne by done.
Qed.
Lemma completed_update key base f : (forall p, sessions_ (f p) = sessions_ p) ->
  keeps (completed_stays key base) (update (W := W) f).
Proof. intros Hf [p w]. unfold completed_stays, completed. cbn. by rewrite Hf. Qed.
Lemma completed_env key base f : keeps (completed_stays key base) (env (W := W) f).
Proof. intros [p w]. exact (fun H => H). Qed.
Lemma completed_ask {A} key base (f : W -> A * W) : keeps (completed_stays key base) (ask f).
Proof.
  intros [p w]. unfold completed_stays, completed, ask. cbn. by destruct (f w).
Qed.
Lemma completed_read key base k : keeps (completed_stays key base) (session (W := W) k).
Proof. by intros s. Qed.
Lemma completed_this key base : keeps (completed_stays key base) (this (W := W)).
Proof. by intros s. Qed.
Lemma completed_millis key base : keeps (completed_stays key base) (millis (W := W)).
Proof. by intros s. Qed.
#[local] Hint Resolve completed_env completed_ask completed_read completed_this completed_millis
  : completed.
#[local] Hint Extern 1 (keeps (completed_stays _ _) (with_session _ _)) =>
  apply completed_with_session; reflexivity : completed.
#[local] Hint Extern 1 (keeps (completed_stays _ _) (update _)) =>
  apply completed_update; reflexivity : completed.
#[local] Hint Extern 1 (keeps (completed_stays _ _) (delay _)) => apply completed_env : completed.
Ltac stay_completed := keeps_go ltac:(solve [eauto with completed nocore]).

Lemma completed_send_encrypted key base k mac t h d :
  keeps (completed_stays key base) (send_encrypted_ (W := W) mac k t h d).
Proof. unfold send_encrypted_. stay_completed. Qed.
Lemma completed_send_plain key base mac leaf t h tx d :
  keeps (completed_stays key base) (send_plain_psk_ (W := W) mac leaf t h tx d).
Proof. unfold send_plain_psk_. stay_completed. Qed.
#[local] Hint Resolve completed_send_encrypted completed_send_plain : completed.
Lemma completed_join_complete key base k mac b :
  keeps (completed_stays key base) (send_join_complete_ (W := W) mac k b).
Proof. unfold send_join_complete_, send_join_ack_, next_tx_counter. stay_completed. Qed.
#[local] Hint Resolve completed_join_complete : completed.

Lemma confirm_completes leaf base next_hop x s :
  get_session leaf s.1 = Some x -> (0 < length next_hop)%nat ->
  counter_is_newer base (s_last_completed_state_message_tx_base x) = true ->
  completed (mac_to_key_ leaf) base (confirm_state_delivery_ leaf base next_hop s).2.
Proof.
  intros Hx Hh Hn. change (wp (confirm_state_delivery_ leaf base next_hop)
    (fun _ s' => completed (mac_to_key_ leaf) base s') s).
  unfold confirm_state_delivery_. wp_step. apply wp_gets. cbv beta. rewrite Hx.
  destruct (Nat.eqb_spec (length next_hop) 0); [lia|]. rewrite Hn. cbn [when].
  assert (forall A (m : M St A) s1, keeps (completed_stays (mac_to_key_ leaf) base) m ->
    completed (mac_to_key_ leaf) base s1 ->
    wp m (fun _ s' => completed (mac_to_key_ leaf) base s') s1) as Hgo by (intros A m s1 Hm H1; by apply Hm).
  apply wp_bind, wp_bind. unfold with_session at 1, update at 1. apply wp_modify.
  set (s1 := (_, _)). assert (completed (mac_to_key_ leaf) base s1) as H1.
  { subst s1. unfold completed, upd. cbn -[mac_to_key_]. unfold get_session in Hx.
    rewrite lookup_alter_eq, Hx. by eexists. }
  clearbody s1. eapply wp_mono; [apply Hgo; [|exact H1]; stay_completed|].
  intros ? s2 H2. cbv beta. apply Hgo; [|done]. unfold send_state_ack_. stay_completed.
Qed.

(** A state is published once.  When the owner has confirmed the delivery of
    a message, a repetition of any of its fragments, by whatever route and with
    whatever counter, is only acknowledged: the handler does exactly what
    [send_state_ack_] does, so the world sees the acknowledgement and no
    publication. *)
Theorem confirmed_state_not_republished leaf base next_hop x s sender h payload rssi tag x1
    plaintext view (s1 := (confirm_state_delivery_ leaf base next_hop s).2) :
  get_session leaf s.1 = Some x -> (0 < length next_hop)%nat ->
  counter_is_newer base (s_last_completed_state_message_tx_base x) = true ->
  leaf_mac h = leaf -> get_session leaf s1.1 = Some x1 -> s_session_key_valid x1 = true ->
  validate_session_packet_ (crypto s1.1) x1 h payload tag = Some plaintext ->
  parse_entity_payload plaintext = Some view -> fragment_message_tx_base h view = base ->
  handle_state_ sender h payload rssi tag s1 = send_state_ack_ sender (mac_to_key_ leaf) base 0 s1.
Proof.
  intros Hx Hh Hn Hleaf Hx1 Hk Hval Hparse Hbase.
  destruct (confirm_completes leaf base next_hop x s Hx Hh Hn) as (x' & Hx' & Hlast).
  fold s1 in Hx'. unfold get_session in Hx1.
  assert (x' = x1) as -> by (apply (inj Some); by rewrite <-Hx', <-Hx1).
  unfold handle_state_, mbind at 1, M_bind at 1, this, gets. cbv beta iota. unfold get_session.
  rewrite Hleaf, Hx1, Hk, Hval, Hparse. cbn [negb]. cbv zeta.
  by rewrite Hbase, Hlast, counter_is_newer_irrefl, Z.eqb_refl.
Qed.
End confirmed.
