(* ===== verification/WebSocket.v ===== *)
(** * WebSocket: frames, checksums and the upgrade key of the runtime socket

    The pure part of [src/device_code/components/esp_tree_bridge/bridge_api_proto_ws.cpp]:
    reading client frames from the socket, laying out server frames, the CRC of
    firmware chunks and the answer to the upgrade request.  What [recv] returns
    over time is the list of [RecvEvent]s; SHA-1 and Base64 are mbedTLS calls. *)
From S2P Require Import Prelude Wire.

Definition kRuntimeMaxFrameBytes : Z := 65536.

(** ** Reading from the socket *)

(** One arrival at the socket.  [recv] returns at most the bytes asked for, the
    rest of the arrival stays; [Failed] is an error other than [EINTR], no
    further arrival means that the peer has closed. *)
Inductive RecvEvent := Received (data : bytes) | Interrupted | Failed.

Fixpoint read_exact (inbox : list RecvEvent) (len : nat) : option bytes * list RecvEvent :=
  match len with
  | O => (Some [], inbox)
  | _ =>
    match inbox with
    | [] | Received [] :: _ => (None, inbox)
    | Received data :: rest =>
      if (len <? length data)%nat then (Some (take len data), Received (drop len data) :: rest)
      else let '(more, inbox) := read_exact rest (len - length data) in
           ((fun l => data ++ l) <$> more, inbox)
    | Interrupted :: rest => read_exact rest len
    | Failed :: rest => (None, rest)
    end
  end.

Definition unmask (mask payload : bytes) : bytes :=
  zip_with (fun i b => Z.lxor b (at_ mask (i mod 4))) (seq 0 (length payload)) payload.

(** The opcode and the payload. *)
Definition read_frame (inbox : list RecvEvent) : option (Z * bytes) * list RecvEvent :=
  match read_exact inbox 2 with
  | (None, inbox) => (None, inbox)
  | (Some header, inbox) =>
    let final := negb (Z.land (at_ header 0) 0x80 =? 0) in
    let opcode := Z.land (at_ header 0) 0x0F in
    let masked := negb (Z.land (at_ header 1) 0x80 =? 0) in
    let len := Z.land (at_ header 1) 0x7F in
    if negb final || negb masked then (None, inbox)
    else
      let '(len, inbox) :=
        if len =? 126 then
          match read_exact inbox 2 with
          | (None, inbox) => (None, inbox)
          | (Some ext, inbox) => (Some (Z.lor (Z.shiftl (at_ ext 0) 8) (at_ ext 1)), inbox)
          end
        else if len =? 127 then (None, inbox) else (Some len, inbox) in
      match len with
      | None => (None, inbox)
      | Some len =>
        if kRuntimeMaxFrameBytes <? len then (None, inbox)
        else
          match read_exact inbox 4 with
          | (None, inbox) => (None, inbox)
          | (Some mask, inbox) =>
            let '(payload, inbox) := read_exact inbox (Z.to_nat len) in
            ((fun l => (opcode, unmask mask l)) <$> payload, inbox)
          end
      end
  end.

(** ** Frames of the server: the header [send_frame] writes before the payload, if any *)
Definition server_header (opcode len : Z) : option bytes :=
  if kRuntimeMaxFrameBytes <? len then None
  else
    let first := Z.lor 0x80 (Z.land opcode 0x0F) in
    if len <? 126 then Some [first; u8 len]
    else if len <=? 0xFFFF then Some [first; 126; Z.land (Z.shiftr len 8) 0xFF; Z.land len 0xFF]
    else None.

(** ** The checksum of firmware chunks *)
Definition crc32_bit (crc : Z) : Z :=
  Z.lxor (Z.shiftr crc 1) (Z.land 0xEDB88320 (u32 (0 - Z.land crc 1))).
Definition crc32_byte (crc byte : Z) : Z := Nat.iter 8 crc32_bit (Z.lxor crc byte).
Definition crc32_bytes (data : bytes) : Z :=
  Z.lxor (foldl crc32_byte 0xFFFFFFFF data) 0xFFFFFFFF.

(** ** The upgrade *)
Class WebDigests := {
  mbedtls_sha1 : bytes -> option bytes;
  mbedtls_base64_encode : nat -> bytes -> option bytes
}.

Definition kWsGuid : bytes := str "258EAFA5-E914-47DA-95CA-C5AB0DC85B11".

Definition websocket_accept_key `{WebDigests} (client_key : bytes) : bytes :=
  default [] (digest ← mbedtls_sha1 (client_key ++ kWsGuid); mbedtls_base64_encode 32 digest).

(** ** Reading from the socket: any segmentation of the stream *)
Fixpoint stream (inbox : list RecvEvent) : bytes :=
  match inbox with
  | Received data :: rest => data ++ stream rest
  | _ :: rest => stream rest
  | [] => []
  end.

(** Arrivals without an error. *)
Definition healthy (inbox : list RecvEvent) : Prop :=
  Forall (fun e => e <> Failed /\ e <> Received []) inbox.

Lemma read_exact_stream inbox len :
  healthy inbox -> (len <= length (stream inbox))%nat ->
  exists inbox', read_exact inbox len = (Some (take len (stream inbox)), inbox') /\
    healthy inbox' /\ stream inbox' = drop len (stream inbox).
Proof.
  intros Hh. revert len. induction Hh as [|e inbox [He1 He2] Hh IH]; intros [|len] Hlen.
  - exists []. split_and!; [done|constructor|done].
  - cbn in Hlen. lia.
  - exists (e :: inbox). split; [by destruct e|]. split; [by constructor|done].
  - destruct e as [data| |]; [|by apply IH|done]. cbn [stream] in Hlen |- *. rewrite length_app in Hlen.
    destruct data as [|b data]; [done|]. set (l := b :: data) in *.
    change (read_exact (Received l :: inbox) (S len)) with
      (if (S len <? length l)%nat then (Some (take (S len) l), Received (drop (S len) l) :: inbox)
       else let '(more, inbox) := read_exact inbox (S len - length l) in
            ((fun k => l ++ k) <$> more, inbox)).
    destruct (Nat.ltb_spec (S len) (length l)) as [Hl|Hl].
    + exists (Received (drop (S len) l) :: inbox). rewrite take_app_le, drop_app_le by lia.
      split_and!; [done| |done]. constructor; [|done]. split; [done|]. intros [= Hd].
      apply (f_equal length) in Hd. rewrite length_drop in Hd. subst l. cbn [length] in *. lia.
    + destruct (IH (S len - length l)%nat) as (inbox' & -> & Hh' & Hs); [lia|].
      exists inbox'. rewrite take_app_ge, drop_app_ge by lia. by split_and!.
Qed.

Lemma length_unmask mask l : length (unmask mask l) = length l.
Proof. unfold unmask. rewrite length_zip_with, length_seq. lia. Qed.

Lemma unmask_unmask mask l : unmask mask (unmask mask l) = l.
Proof.
  apply list_eq. intros i. unfold unmask at 1. rewrite length_unmask, lookup_zip_with.
  destruct (decide (i < length l)%nat) as [Hi|Hi].
  - rewrite lookup_seq_lt by done. cbn [mbind option_bind]. unfold unmask.
    rewrite lookup_zip_with, lookup_seq_lt by done.
    destruct (lookup_lt_is_Some_2 l i Hi) as [b ->]. cbn.
    by rewrite Z.lxor_assoc, Z.lxor_nilpotent, Z.lxor_0_r.
  - rewrite lookup_seq_ge by lia. symmetry. apply lookup_ge_None_2. lia.
Qed.

(** ** The frames of RFC 6455 *)

(** Length field of a frame, without the mask bit. *)
Definition rfc_length (len : Z) : bytes :=
  if len <? 126 then [len] else [126; len / 256; len mod 256].

(** Masking: each octet with the next of the key, which goes round. *)
Fixpoint rfc_mask (key payload : bytes) : bytes :=
  match key, payload with
  | k :: key, b :: payload => Z.lxor b k :: rfc_mask (key ++ [k]) payload
  | _, _ => []
  end.

(** The final frame of a client. *)
Definition client_frame (opcode : Z) (mask payload : bytes) : bytes :=
  match rfc_length (Z.of_nat (length payload)) with
  | first :: ext => [128 + opcode; 128 + first] ++ ext ++ mask ++ rfc_mask mask payload
  | [] => []
  end.

(** What a client reads from the server: opcode, payload and the rest. *)
Definition read_server (s : bytes) : option (Z * bytes * bytes) :=
  match s with
  | first :: len :: s =>
    if (first <? 128) || (144 <=? first) || (128 <=? len) then None
    else
      let take_payload n s := if (n <=? length s)%nat then Some (first - 128, take n s, drop n s)
                              else None in
      if len <? 126 then take_payload (Z.to_nat len) s
      else match s with
           | hi :: lo :: s => if len =? 126 then take_payload (Z.to_nat (256 * hi + lo)) s else None
           | _ => None
           end
  | _ => None
  end.

Lemma unmask_rfc_mask mask payload : length mask = 4%nat -> unmask mask payload = rfc_mask mask payload.
Proof.
  intros Hm. unfold unmask.
  assert (forall l n key, length key = 4%nat ->
    (forall i, (i < 4)%nat -> at_ key i = at_ mask ((n + i) mod 4)) ->
    zip_with (fun i b => Z.lxor b (at_ mask (i mod 4))) (seq n (length l)) l = rfc_mask key l) as Hgo.
  { induction l as [|b l IH]; intros n key Hk Hi; [by destruct key|].
    destruct key as [|k0 [|k1 [|k2 [|k3 [|]]]]]; try done. cbn. f_equal.
    - pose proof (Hi 0%nat ltac:(lia)) as E. rewrite Nat.add_0_r in E. cbn in E |- *. by rewrite E.
    - apply IH; [done|]. intros i Hlt.
      assert (i = 3 \/ i < 3)%nat as [->|Hlt3] by lia.
      + replace (S n + 3)%nat with (n + 0 + 1 * 4)%nat by lia. rewrite Nat.Div0.mod_add, <-Hi by lia. done.
      + replace (S n + i)%nat with (n + S i)%nat by lia. rewrite <-Hi by lia.
        destruct i as [|[|[|]]]; [done..|lia]. }
  apply Hgo; [done|]. intros i Hi. by rewrite Nat.mod_small by lia.
Qed.

Lemma client_header opcode len :
  0 <= opcode < 16 -> 0 <= len < 127 ->
  Z.land (128 + opcode) 0x80 =? 0 = false /\ Z.land (128 + opcode) 0x0F = opcode /\
  Z.land (128 + len) 0x80 =? 0 = false /\ Z.land (128 + len) 0x7F = len.
Proof.
  intros Ho Hl.
  pose proof (zseq_cases (fun o => negb (Z.land (128 + o) 0x80 =? 0) && (Z.land (128 + o) 0x0F =? o))
    0 16 opcode eq_refl ltac:(lia)) as H1.
  pose proof (zseq_cases (fun l => negb (Z.land (128 + l) 0x80 =? 0) && (Z.land (128 + l) 0x7F =? l))
    0 127 len eq_refl ltac:(lia)) as H2.
  cbn beta in H1, H2. zprop. split_and!; try done; by apply Z.eqb_neq.
Qed.

Lemma big_endian_16 len : 0 <= len < 65536 ->
  Z.lor (Z.shiftl (len / 256) 8) (len mod 256) = len /\
  Z.land (Z.shiftr len 8) 0xFF = len / 256 /\ Z.land len 0xFF = len mod 256.
Proof.
  intros Hl. pose proof (Z.div_mod len 256 ltac:(lia)). pose proof (Z.mod_pos_bound len 256 ltac:(lia)).
  assert (0 <= len / 256 < 256) by (split; [apply Z.div_pos|apply Z.div_lt_upper_bound]; lia).
  change 0xFF with (Z.ones 8). rewrite !Z.land_ones, Z.shiftr_div_pow2 by lia. change (2 ^ 8) with 256.
  split_and!; [|by apply Z.mod_small|done]. rewrite Z.lor_comm, lor_shift_add; lia.
Qed.

(** A frame of a client is read back whatever the segmentation of the stream. *)
Lemma client_frame_read opcode mask payload inbox rest :
  0 <= opcode < 16 -> length mask = 4%nat -> Z.of_nat (length payload) < 65536 -> healthy inbox ->
  stream inbox = client_frame opcode mask payload ++ rest ->
  exists inbox', read_frame inbox = (Some (opcode, payload), inbox') /\ healthy inbox' /\
    stream inbox' = rest.
Proof.
  intros Ho Hm Hp Hh Hs. unfold client_frame in Hs. rewrite <-unmask_rfc_mask in Hs by done. set (len := Z.of_nat (length payload)) in *.
  set (first := if len <? 126 then len else 126).
  set (ext := if len <? 126 then [] else [len / 256; len mod 256]).
  assert (stream inbox = [128 + opcode; 128 + first] ++ ext ++ mask ++ unmask mask payload ++ rest) as Hs'
    by (rewrite Hs; subst first ext; unfold rfc_length; destruct (len <? 126); cbn [app]; by rewrite <-!app_assoc).
  clear Hs. assert (0 <= first < 127) as Hf by (subst first; destruct (Z.ltb_spec len 126); lia).
  destruct (client_header opcode first Ho Hf) as (E1 & E2 & E3 & E4).
  destruct (read_exact_stream inbox 2 Hh) as (i1 & R1 & H1 & S1);
    [rewrite Hs', length_app; cbn; lia|]. rewrite Hs' in R1, S1. cbn [take drop app] in R1, S1.
  unfold read_frame. rewrite R1. cbn [at_ nth]. unfold at_. cbn [nth]. rewrite E1, E2, E3, E4. cbn [negb orb].
  assert (exists i2, (if first =? 126 then
      match read_exact i1 2 with
      | (Some e, inbox) => (Some (Z.lor (Z.shiftl (at_ e 0) 8) (at_ e 1)), inbox)
      | (None, inbox) => (None, inbox)
      end else if first =? 127 then (None, i1) else (Some first, i1)) = (Some len, i2) /\ healthy i2 /\
    stream i2 = mask ++ unmask mask payload ++ rest) as (i2 & R2 & H2 & S2).
  { subst first ext. destruct (Z.ltb_spec len 126) as [Hl|Hl].
    - exists i1. rewrite (proj2 (Z.eqb_neq len 126)), (proj2 (Z.eqb_neq len 127)) by lia. done.
    - rewrite Z.eqb_refl. destruct (read_exact_stream i1 2 H1) as (i2 & R2 & H2 & S2);
        [rewrite S1; cbn; lia|]. rewrite S1 in R2, S2. cbn [take drop app] in R2, S2.
      exists i2. rewrite R2. unfold at_. cbn [nth]. by rewrite (proj1 (big_endian_16 len ltac:(lia))). }
  fold (at_ [128 + opcode; 128 + first]) in *. unfold at_ in R2. rewrite R2.
  rewrite (proj2 (Z.ltb_ge kRuntimeMaxFrameBytes len)) by (unfold kRuntimeMaxFrameBytes; lia).
  destruct (read_exact_stream i2 4 H2) as (i3 & R3 & H3 & S3); [rewrite S2, length_app; lia|].
  rewrite S2 in R3, S3. rewrite <-Hm, take_app_length in R3. rewrite <-Hm, drop_app_length in S3.
  rewrite Hm in R3. rewrite R3.
  destruct (read_exact_stream i3 (Z.to_nat len) H3) as (i4 & R4 & H4 & S4);
    [rewrite S3, length_app, length_unmask; lia|].
  rewrite S3 in R4, S4. subst len. rewrite Nat2Z.id in *.
  rewrite take_app_length' in R4 by (by rewrite length_unmask).
  rewrite drop_app_length' in S4 by (by rewrite length_unmask). rewrite R4.
  exists i4. split_and!; [|done|done]. cbn. by rewrite unmask_unmask.
Qed.

(** A client reads a frame of the server back. *)
Lemma server_frame_read opcode payload rest :
  0 <= opcode < 16 -> Z.of_nat (length payload) < 65536 ->
  exists header, server_header opcode (Z.of_nat (length payload)) = Some header /\
    read_server (header ++ payload ++ rest) = Some (opcode, payload, rest).
Proof.
  intros Ho Hp. unfold server_header.
  rewrite (proj2 (Z.ltb_ge kRuntimeMaxFrameBytes _)) by (unfold kRuntimeMaxFrameBytes; lia).
  assert (Z.lor 0x80 (Z.land opcode 0x0F) = 128 + opcode) as ->.
  { pose proof (zseq_cases (fun o => Z.lor 0x80 (Z.land o 0x0F) =? 128 + o) 0 16 opcode eq_refl ltac:(lia)).
    cbn beta in *. by zprop. }
  set (len := Z.of_nat (length payload)) in *.
  assert (forall tl, (if (Z.to_nat len <=? length (payload ++ tl))%nat
      then Some (128 + opcode - 128, take (Z.to_nat len) (payload ++ tl), drop (Z.to_nat len) (payload ++ tl))
      else None) = Some (opcode, payload, tl)) as Htake.
  { intros tl. subst len. rewrite Nat2Z.id, (proj2 (Nat.leb_le _ _)) by (rewrite length_app; lia).
    rewrite take_app_length, drop_app_length. do 3 f_equal. lia. }
  destruct (Z.ltb_spec len 126) as [Hl|Hl]; [|rewrite (proj2 (Z.leb_le len 0xFFFF)) by lia];
    eexists; (split; [reflexivity|]); cbn [app read_server];
    rewrite (proj2 (Z.ltb_ge (128 + opcode) 128)), (proj2 (Z.leb_gt 144 (128 + opcode))) by lia; cbn [orb].
  - rewrite u8_small by lia. rewrite (proj2 (Z.leb_gt 128 len)), (proj2 (Z.ltb_lt len 126)) by lia. apply Htake.
  - cbn [Z.leb Z.compare Z.ltb Pos.compare Pos.compare_cont Z.eqb Pos.eqb].
    destruct (big_endian_16 len ltac:(lia)) as (_ & -> & ->).
    rewrite <-(Z.div_mod len 256) by lia. apply Htake.
Qed.

(** ** The checksum *)
Lemma crc32_bit_odd crc :
  crc32_bit crc = Z.lxor (Z.shiftr crc 1) (if Z.odd crc then 0xEDB88320 else 0).
Proof.
  unfold crc32_bit. replace (Z.land crc 1) with (crc mod 2) by (symmetry; exact (Z.land_ones crc 1 ltac:(lia))).
  rewrite Zmod_odd. by destruct (Z.odd crc).
Qed.

Lemma lxor_32 a b : 0 <= a < 2 ^ 32 -> 0 <= b < 2 ^ 32 -> 0 <= Z.lxor a b < 2 ^ 32.
Proof.
  intros Ha Hb. assert (0 <= Z.lxor a b) by (apply Z.lxor_nonneg; lia). split; [done|].
  destruct (decide (Z.lxor a b = 0)) as [->|Hn]; [lia|]. apply Z.log2_lt_pow2; [lia|].
  pose proof (Z.log2_lxor a b ltac:(lia) ltac:(lia)).
  assert (forall x, 0 <= x < 2 ^ 32 -> Z.log2 x < 32) as Hlog.
  { intros x Hx. destruct (decide (x = 0)) as [->|]; [done|]. apply Z.log2_lt_pow2; lia. }
  pose proof (Hlog a Ha). pose proof (Hlog b Hb). lia.
Qed.

Lemma crc32_bit_range crc : 0 <= crc < 2 ^ 32 -> 0 <= crc32_bit crc < 2 ^ 32.
Proof.
  intros Hc. rewrite crc32_bit_odd. apply lxor_32; [|destruct (Z.odd crc); lia].
  rewrite Z.shiftr_div_pow2 by lia. change (2 ^ 1) with 2.
  split; [apply Z.div_pos|apply Z.div_lt_upper_bound]; lia.
Qed.

(** The polynomial has bit 31, so a step can be undone. *)
Lemma crc32_bit_inj a b : 0 <= a < 2 ^ 32 -> 0 <= b < 2 ^ 32 -> crc32_bit a = crc32_bit b -> a = b.
Proof.
  intros Ha Hb E. rewrite !crc32_bit_odd in E.
  assert (forall x, 0 <= x < 2 ^ 32 ->
    Z.testbit (Z.lxor (Z.shiftr x 1) (if Z.odd x then 0xEDB88320 else 0)) 31 = Z.odd x) as Htop.
  { intros x Hx. rewrite Z.lxor_spec, Z.shiftr_spec by lia. change (31 + 1) with 32.
    assert (Z.testbit x 32 = false) as ->; [|by destruct (Z.odd x)].
    rewrite <-(Z.mod_small x (2 ^ 32)) by done. by apply Z.mod_pow2_bits_high. }
  pose proof (f_equal (fun z => Z.testbit z 31) E) as E31. cbn beta in E31.
  rewrite !Htop in E31 by done. rewrite E31 in E.
  assert (Z.shiftr a 1 = Z.shiftr b 1) as Es.
  { apply (f_equal (fun z => Z.lxor z (if Z.odd b then 0xEDB88320 else 0))) in E.
    by rewrite !Z.lxor_assoc, !Z.lxor_nilpotent, !Z.lxor_0_r in E. }
  rewrite (Z.div2_odd a), (Z.div2_odd b), !Z.div2_spec. by rewrite Es, E31.
Qed.

Lemma crc32_bits_range n crc : 0 <= crc < 2 ^ 32 -> 0 <= Nat.iter n crc32_bit crc < 2 ^ 32.
Proof. intros Hc. induction n as [|n IH]; [done|]. by apply crc32_bit_range. Qed.

Lemma crc32_byte_range crc b : 0 <= crc < 2 ^ 32 -> byte_range b -> 0 <= crc32_byte crc b < 2 ^ 32.
Proof. unfold byte_range. intros Hc Hb. apply crc32_bits_range, lxor_32; lia. Qed.

Lemma crc32_bits_inj n a b : 0 <= a < 2 ^ 32 -> 0 <= b < 2 ^ 32 ->
  Nat.iter n crc32_bit a = Nat.iter n crc32_bit b -> a = b.
Proof.
  intros Ha Hb. induction n as [|n IH]; [done|]. intros E. apply IH.
  by apply crc32_bit_inj; [apply crc32_bits_range..|].
Qed.

Lemma crc32_byte_inj a b x y : 0 <= a < 2 ^ 32 -> 0 <= b < 2 ^ 32 -> byte_range x -> byte_range y ->
  crc32_byte a x = crc32_byte b y -> Z.lxor a x = Z.lxor b y.
Proof.
  unfold byte_range. intros Ha Hb Hx Hy. apply crc32_bits_inj; apply lxor_32; lia.
Qed.

Lemma crc32_fold_range l crc : bytes_ok l -> 0 <= crc < 2 ^ 32 -> 0 <= foldl crc32_byte crc l < 2 ^ 32.
Proof.
  intros Hl. revert crc. induction Hl as [|b l Hb Hl IH]; intros crc Hc; [done|].
  cbn [foldl]. by apply IH, crc32_byte_range.
Qed.

Lemma crc32_fold_inj l a b : bytes_ok l -> 0 <= a < 2 ^ 32 -> 0 <= b < 2 ^ 32 ->
  foldl crc32_byte a l = foldl crc32_byte b l -> a = b.
Proof.
  intros Hl. revert a b. induction Hl as [|x l Hx Hl IH]; intros a b Ha Hb E; [done|].
  cbn [foldl] in E. apply IH in E; [|by apply crc32_byte_range..].
  apply crc32_byte_inj in E; [|done..].
  apply (f_equal (fun z => Z.lxor z x)) in E.
  by rewrite !Z.lxor_assoc, !Z.lxor_nilpotent, !Z.lxor_0_r in E.
Qed.

(** A chunk in which one byte was changed has another checksum. *)
Lemma crc32_detects_byte before x y after :
  bytes_ok before -> bytes_ok after -> byte_range x -> byte_range y ->
  crc32_bytes (before ++ x :: after) = crc32_bytes (before ++ y :: after) -> x = y.
Proof.
  intros Hb Ha Hx Hy E. unfold crc32_bytes in E.
  apply (f_equal (fun z => Z.lxor z 0xFFFFFFFF)) in E.
  rewrite !Z.lxor_assoc, !Z.lxor_nilpotent, !Z.lxor_0_r, !foldl_app in E. cbn [foldl] in E.
  assert (0 <= foldl crc32_byte 0xFFFFFFFF before < 2 ^ 32) as Hr by (apply crc32_fold_range; [done|lia]).
  apply crc32_fold_inj in E; [|done|by apply crc32_byte_range..].
  apply crc32_byte_inj in E; [|done..].
  apply (f_equal (Z.lxor (foldl crc32_byte 0xFFFFFFFF before))) in E.
  by rewrite <-!Z.lxor_assoc, !Z.lxor_nilpotent, !Z.lxor_0_l in E.
Qed.

(** C35: The frames of the runtime socket, both ways.  However TCP cuts the stream into
    arrivals and whenever a signal interrupts [recv], [read_frame] gives back opcode and
    payload of the frame a client sent, unmasked, and leaves exactly what follows; and a
    client reads opcode and payload of the frame [send_frame] lays out, for every payload up
    to 65535 bytes in both encodings of its length. *)
Theorem websocket_frames_roundtrip opcode mask payload inbox rest :
  0 <= opcode < 16 -> length mask = 4%nat -> Z.of_nat (length payload) < 65536 -> healthy inbox ->
  stream inbox = client_frame opcode mask payload ++ rest ->
  (exists inbox', read_frame inbox = (Some (opcode, payload), inbox') /\ healthy inbox' /\
     stream inbox' = rest) /\
  (exists header, server_header opcode (Z.of_nat (length payload)) = Some header /\
     read_server (header ++ payload ++ rest) = Some (opcode, payload, rest)).
Proof.
  intros Ho Hm Hp Hh Hs. split; [by apply (client_frame_read opcode mask)|by apply server_frame_read].
Qed.

Lemma websocket_frames_roundtrip_witness :
  exists inbox',
    read_frame [Received [130]; Received [131; 1; 2]; Interrupted; Received [3; 4; 8; 11; 10; 137]]
      = (Some (2, [9; 9; 9]), inbox') /\ stream inbox' = [137].
Proof.
  destruct (websocket_frames_roundtrip 2 [1; 2; 3; 4] [9; 9; 9]
    [Received [130]; Received [131; 1; 2]; Interrupted; Received [3; 4; 8; 11; 10; 137]] [137])
    as [(inbox' & E & _ & Hs) _].
  - lia.
  - reflexivity.
  - reflexivity.
  - repeat constructor; discriminate.
  - reflexivity.
  - exists inbox'. split; [exact E|exact Hs].
Defined.
