(* ===== verification/ApiTransport.v ===== *)
(** * ApiTransport: the connection of the runtime API

    The state and the sending half of [class BridgeApiProtoWsTransport] of
    [src/device_code/components/esp_tree_bridge/bridge_api_proto_ws.cpp]: the one
    client connection, its authentication and the OTA chunk request it has been
    sent.  The requests the client sends are handled in RuntimeApi.  The byte
    counters only feed a log line and are left out. *)
From S2P Require Import Prelude Wire Crypto BridgeSession ProtoMessages WebSocket.

Definition kRuntimeProtocol : bytes := str "esp-tree-pb".
Definition kRuntimeProtocolVersionLabel : bytes := str "v2".
Definition kRuntimeHeartbeatIntervalMs : Z := 30000.
Definition kMaxChunkSize : Z := 2048.

Record Transport := {
  active_fd : Z;
  connected : bool;
  authenticated : bool;
  last_heartbeat_ms : Z;
  server_nonce : bytes;
  ota_chunk_request_id : bytes;
  ota_job_id : bytes;
  ota_pending_sequences : gset Z;
  ota_max_chunk_size : Z;
  ota_max_chunks_per_batch : Z
}.
#[export] Instance eta_transport : Eta Transport := fun t =>
  Build_Transport (active_fd t) (connected t) (authenticated t) (last_heartbeat_ms t) (server_nonce t)
    (ota_chunk_request_id t) (ota_job_id t) (ota_pending_sequences t) (ota_max_chunk_size t)
    (ota_max_chunks_per_batch t).

Definition new_transport : Transport :=
  {| active_fd := -1; connected := false; authenticated := false; last_heartbeat_ms := 0;
     server_nonce := replicate 16 0; ota_chunk_request_id := []; ota_job_id := [];
     ota_pending_sequences := ∅; ota_max_chunk_size := kMaxChunkSize; ota_max_chunks_per_batch := 6 |}.

Definition has_authenticated_client (t : Transport) : bool :=
  connected t && authenticated t && (0 <=? active_fd t).
Definition is_active_fd (fd : Z) (t : Transport) : bool := connected t && (active_fd t =? fd).

(** [send_exact] on a socket and [shutdown]. *)
Class SocketEnv (W : Type) := {
  send_exact : Z -> bytes -> W -> bool * W;
  shutdown : Z -> W -> W
}.

Section transport.
Context {W : Type} `{!BridgeEnv W} `{!SocketEnv W}.
Abbreviation St := (Transport * W)%type.

Definition this_transport : M St Transport := gets fst.
Definition set_transport (f : Transport -> Transport) : M St unit := modify (fun s => (f s.1, s.2)).
Definition write (fd : Z) (data : bytes) : M St bool :=
  fun s => let '(ok, w) := send_exact fd data s.2 in (ok, (s.1, w)).

Definition send_frame (opcode : Z) (payload : bytes) : M St bool :=
  t ← this_transport;
  if negb (connected t) || (active_fd t <? 0) then mret false
  else match server_header opcode (Z.of_nat (length payload)) with
  | None => mret false
  | Some header =>
    ok ← write (active_fd t) header;
    if negb ok then mret false
    else if (length payload =? 0)%nat then mret true else write (active_fd t) payload
  end.

Definition send_binary (payload : bytes) : M St unit := send_frame 2 payload;; mret tt.

Definition send_error (request_id code msg : bytes) : M St unit :=
  send_binary (error_envelope request_id code msg).

Definition send_auth_challenge (bridge_mac : bytes) : M St unit :=
  t ← this_transport;
  send_binary (envelope [] AUTH_CHALLENGE
    (bytes_ 1 (Some (server_nonce t)) (length (server_nonce t)) ;>
     varint 2 kRuntimeApiVersion ;>
     varint 3 kRuntimeApiVersion ;>
     string_ 4 kRuntimeProtocol ;>
     string_ 5 bridge_mac)).

(** The slot for the one client is taken; the nonce is fresh. *)
Definition claim_slot (fd : Z) : M St bool :=
  t ← this_transport;
  if connected t then mret false
  else fun s =>
    let '(nonce, w) := fill_random_bytes 16 s.2 in
    (true, (s.1 <| connected := true |> <| authenticated := false |> <| active_fd := fd |>
                <| server_nonce := nonce |>, w)).

Definition close_client : M St unit :=
  t ← this_transport;
  set_transport (fun t => t <| connected := false |> <| authenticated := false |> <| active_fd := -1 |>);;
  when (0 <=? active_fd t)
    (send_frame 8 [];; modify (fun s => (s.1, shutdown (active_fd t) s.2))).

(** The state part of [finish_session]: was the session still the active one? *)
Definition release_slot (fd : Z) : M St bool :=
  t ← this_transport;
  if negb (active_fd t =? fd) then mret false
  else
    set_transport (fun t => t <| connected := false |> <| authenticated := false |> <| active_fd := -1 |>
      <| ota_chunk_request_id := [] |> <| ota_job_id := [] |> <| ota_pending_sequences := ∅ |>);;
    mret true.

(** ** Notifications *)
Definition emit (frame : bytes) : M St unit :=
  t ← this_transport; when (has_authenticated_client t) (send_binary frame).

Definition on_ota_accepted (request_id job_id target_mac : bytes)
    (max_chunk_size total_chunks max_chunks_per_batch : Z) : M St unit :=
  t ← this_transport;
  when (has_authenticated_client t)
    (set_transport (fun t => t <| ota_job_id := job_id |> <| ota_max_chunk_size := max_chunk_size |>
       <| ota_max_chunks_per_batch := max_chunks_per_batch |>);;
     send_binary (encode_ota_accepted request_id job_id target_mac max_chunk_size total_chunks
                    max_chunks_per_batch)).

Definition on_ota_chunk_request (job_id request_id : bytes) (sequences : list Z)
    (chunks_sent chunks_confirmed current_increment total_increments retransmit_round
     buffer_size_kb percent : Z) : M St unit :=
  t ← this_transport;
  when (has_authenticated_client t)
    (set_transport (fun t => t <| ota_job_id := job_id |> <| ota_chunk_request_id := request_id |>
       <| ota_pending_sequences := list_to_set sequences |>);;
     send_binary (encode_ota_chunk_request [] job_id request_id sequences chunks_sent chunks_confirmed
                    current_increment total_increments retransmit_round buffer_size_kb percent)).

Definition on_ota_status (job_id : bytes) (state : OtaState) (percent bytes_received file_size : Z)
    (error_detail : bytes) : M St unit :=
  emit (encode_ota_status [] job_id state percent bytes_received file_size error_detail).

Definition on_ota_aborted (request_id job_id reason : bytes) : M St unit :=
  t ← this_transport;
  when (has_authenticated_client t)
    (set_transport (fun t => t <| ota_chunk_request_id := [] |> <| ota_job_id := [] |>
       <| ota_pending_sequences := ∅ |>);;
     send_binary (encode_ota_aborted request_id job_id reason)).
End transport.

(** ** Authentication *)
Definition auth_input (kind nonce client : bytes) : bytes :=
  kRuntimeProtocol ++ str "|" ++ kRuntimeProtocolVersionLabel ++ str "|" ++ kind ++ str "|" ++
  hex_encode nonce ++ str "|" ++ hex_encode client.

Definition verify_auth_response `{Hmac} (api_key nonce : bytes) (response : ParsedAuthResponse) : bool :=
  if negb (bytes_eqb (client_kind response) (str "ha_integration"))
     || (length (client_nonce response) =? 0)%nat
     || negb (length (hmac_sha256 response) =? kRuntimeHmacBytes)%nat then false
  else
    let digest := hmac api_key (auth_input (client_kind response) nonce (client_nonce response)) in
    constant_time_equal digest (hmac_sha256 response) kRuntimeHmacBytes.
