(* ===== verification/BridgeComponent.v ===== *)
(** * BridgeComponent: the bridge component around the protocol

    Models the parts of [class ESPTreeBridge] of
    [src/device_code/components/esp_tree_bridge/esp_tree_bridge.h/.cpp] that keep
    state of their own: the table of ESP-NOW peers, the queue of received frames,
    the deliveries of states to their sinks and the session of the web pages.
    The component owns the protocol object, the OTA manager and the transport of
    the runtime API; BridgeOta and RuntimeApi have the operations that use these.
    The fields [ota_upload_*] are never set by the sources and are left out. *)
From S2P Require Import Prelude Wire Crypto OtaManager BridgeSession BridgeProtocol BridgeLoop ProtoMessages WebSocket ApiTransport.

Inductive OtaJobState :=
  | JOB_IDLE | WAITING_FOR_LEAF | TRANSFERRING | JOB_VERIFYING | JOB_SUCCESS | JOB_FAILED | JOB_ABORTED.
Definition job_is (a b : OtaJobState) : bool :=
  match a, b with
  | JOB_IDLE, JOB_IDLE | WAITING_FOR_LEAF, WAITING_FOR_LEAF | TRANSFERRING, TRANSFERRING
  | JOB_VERIFYING, JOB_VERIFYING | JOB_SUCCESS, JOB_SUCCESS | JOB_FAILED, JOB_FAILED
  | JOB_ABORTED, JOB_ABORTED => true
  | _, _ => false
  end.

Record PendingRxFrame := { rx_mac : bytes; rx_data : bytes; rx_rssi : Z }.

Record AirtimeStats := {
  tx_packets : Z;
  rx_packets : Z;
  tx_airtime_us : Z;
  rx_airtime_us : Z;
  rssi_sum : Z;
  rssi_count : Z
}.
#[export] Instance eta_airtime : Eta AirtimeStats := fun a =>
  Build_AirtimeStats (tx_packets a) (rx_packets a) (tx_airtime_us a) (rx_airtime_us a) (rssi_sum a)
    (rssi_count a).

Record PendingStateDelivery := {
  pd_leaf : bytes;
  pd_next_hop : bytes;
  pd_entity_index : Z;
  pd_message_tx_base : Z;
  required_sinks : Z;
  delivered_sinks : Z;
  created_ms : Z
}.
#[export] Instance eta_delivery : Eta PendingStateDelivery := fun d =>
  Build_PendingStateDelivery (pd_leaf d) (pd_next_hop d) (pd_entity_index d) (pd_message_tx_base d)
    (required_sinks d) (delivered_sinks d) (created_ms d).

Record EntityValueCache := {
  ev_current_value : bytes;
  ev_current_type : Z;
  ev_schema : espnow_entity_schema_t
}.

Record ESPTreeBridge := {
  protocol_ : BridgeProtocol;
  api_proto_ws_ : Transport;
  ota_manager_ : option ESPNowOTAManager.Manager;
  component_network_id_ : bytes;
  api_key_ : bytes;
  rx_packets_ : Z;
  rx_dropped_ : Z;
  rx_dropped_while_disallowed_ : Z;
  tx_ok_ : Z;
  tx_fail_ : Z;
  sta_mac_ : bytes;
  pending_rx_frames_ : list PendingRxFrame;
  peer_last_used_ms_ : list (bytes * Z);
  rolling_airtime_ : AirtimeStats;
  espnow_allowed_ : bool;
  v2_session_token_ : bytes;
  v2_session_created_ms_ : Z;
  entity_values_ : gmap bytes EntityValueCache;
  pending_state_deliveries_ : gmap bytes PendingStateDelivery;
  ota_job_state_ : OtaJobState;
  ota_job_id_ : bytes;
  ota_job_counter_ : Z;
  ota_request_id_ : bytes;
  ota_session_id_ : bytes;
  ota_target_mac_ : bytes;
  ota_manager_prev_public_state_ : bytes;
  ota_transport_callbacks_ : bool;
  ota_last_requested_sequences_ : list Z;
  ota_chunk_request_counter_ : Z;
  ota_last_status_percent_ : Z;
  ota_last_status_ms_ : Z
}.
#[export] Instance eta_component : Eta ESPTreeBridge := fun b =>
  Build_ESPTreeBridge (protocol_ b) (api_proto_ws_ b) (ota_manager_ b) (component_network_id_ b)
    (api_key_ b) (rx_packets_ b) (rx_dropped_ b) (rx_dropped_while_disallowed_ b) (tx_ok_ b)
    (tx_fail_ b) (sta_mac_ b) (pending_rx_frames_ b) (peer_last_used_ms_ b) (rolling_airtime_ b)
    (espnow_allowed_ b) (v2_session_token_ b) (v2_session_created_ms_ b) (entity_values_ b)
    (pending_state_deliveries_ b) (ota_job_state_ b) (ota_job_id_ b) (ota_job_counter_ b)
    (ota_request_id_ b) (ota_session_id_ b) (ota_target_mac_ b) (ota_manager_prev_public_state_ b)
    (ota_transport_callbacks_ b) (ota_last_requested_sequences_ b) (ota_chunk_request_counter_ b)
    (ota_last_status_percent_ b) (ota_last_status_ms_ b).

(** A component after [setup], before the first frame. *)
Definition new_component (p : BridgeProtocol) (manager : option ESPNowOTAManager.Manager)
    (network_id api_key sta_mac : bytes) : ESPTreeBridge :=
  {| protocol_ := p; api_proto_ws_ := new_transport; ota_manager_ := manager;
     component_network_id_ := network_id; api_key_ := api_key; rx_packets_ := 0; rx_dropped_ := 0;
     rx_dropped_while_disallowed_ := 0; tx_ok_ := 0; tx_fail_ := 0; sta_mac_ := sta_mac;
     pending_rx_frames_ := []; peer_last_used_ms_ := [];
     rolling_airtime_ := {| tx_packets := 0; rx_packets := 0; tx_airtime_us := 0; rx_airtime_us := 0;
                            rssi_sum := 0; rssi_count := 0 |};
     espnow_allowed_ := false; v2_session_token_ := []; v2_session_created_ms_ := 0;
     entity_values_ := ∅; pending_state_deliveries_ := ∅; ota_job_state_ := JOB_IDLE; ota_job_id_ := [];
     ota_job_counter_ := 0; ota_request_id_ := []; ota_session_id_ := [];
     ota_target_mac_ := replicate 6 0; ota_manager_prev_public_state_ := [];
     ota_transport_callbacks_ := false; ota_last_requested_sequences_ := [];
     ota_chunk_request_counter_ := 0; ota_last_status_percent_ := 255; ota_last_status_ms_ := 0 |}.

(** ** Strings *)
Definition is_space (c : Z) : bool := (c =? 32) || (9 <=? c) && (c <=? 13).
Fixpoint skip_space (l : bytes) : bytes :=
  match l with
  | c :: rest => if is_space c then skip_space rest else l
  | [] => []
  end.

Definition parse_hex_nibble_ (ch : Z) : Z :=
  if (48 <=? ch) && (ch <=? 57) then ch - 48
  else if (97 <=? ch) && (ch <=? 102) then ch - 97 + 10
  else if (65 <=? ch) && (ch <=? 70) then ch - 65 + 10
  else -1.
Definition is_hex (c : Z) : bool := 0 <=? parse_hex_nibble_ c.

(** [%2x] of [sscanf]: white space, then at most two characters of an optional
    sign, an optional [0x] and digits. *)
Definition scan_2x (l : bytes) : option (Z * bytes) :=
  match skip_space l with
  | [] => None
  | c :: l =>
    if (c =? 43) || (c =? 45) then
      match l with
      | d :: l => if is_hex d
                  then Some (u32 (if c =? 45 then - parse_hex_nibble_ d else parse_hex_nibble_ d), l)
                  else None
      | [] => None
      end
    else if is_hex c then
      match l with
      | d :: l' => if is_hex d then Some (16 * parse_hex_nibble_ c + parse_hex_nibble_ d, l')
                   else if (c =? 48) && ((d =? 120) || (d =? 88)) then None
                   else Some (parse_hex_nibble_ c, l)
      | [] => Some (parse_hex_nibble_ c, [])
      end
    else None
  end.
Fixpoint scan_values (n : nat) (l : bytes) : option (list Z) :=
  match n with
  | O => Some []
  | S n => r ← scan_2x l; more ← scan_values n r.2; Some (r.1 :: more)
  end.

Definition parse_mac_hex_ (mac_hex_str : bytes) : option bytes :=
  if negb (length mac_hex_str =? 12)%nat then None
  else match scan_values 6 mac_hex_str with None => None | Some values => Some (u8 <$> values) end.

Fixpoint parse_hex_bytes (n : nat) (l : bytes) : option bytes :=
  match n, l with
  | O, _ => Some []
  | S n, hi :: lo :: l =>
    if negb (is_hex hi) || negb (is_hex lo) then None
    else more ← parse_hex_bytes n l;
         Some (u8 (Z.lor (Z.shiftl (parse_hex_nibble_ hi) 4) (parse_hex_nibble_ lo)) :: more)
  | _, _ => None
  end.
Definition parse_md5_hex_ (md5_hex : bytes) : option bytes :=
  if negb (length md5_hex =? 32)%nat then None else parse_hex_bytes 16 md5_hex.

(** The separators the API accepts in an address are dropped. *)
Definition clean_mac (mac : bytes) : bytes :=
  filter (fun c => c <> 58 /\ c <> 45 /\ c <> 32) mac.

Definition mac_display (mac : bytes) : bytes :=
  match ESPNowOTAManager.hex02 <$> take 6 mac with
  | first :: more => first ++ (more ≫= fun h => 58 :: h)
  | [] => []
  end.

Definition sanitize_object_id (input : bytes) : bytes :=
  (fun ch =>
     let ch := if (65 <=? ch) && (ch <=? 90) then ch - 65 + 97 else ch in
     if (97 <=? ch) && (ch <=? 122) || (48 <=? ch) && (ch <=? 57) then ch else 95) <$> input.

Definition node_key (mac : bytes) (p : BridgeProtocol) : bytes :=
  match get_session mac p with
  | Some s => if negb (length (esphome_name (s_identity s)) =? 0)%nat
              then sanitize_object_id (esphome_name (s_identity s)) else mac_hex mac
  | None => mac_hex mac
  end.

(** [std::map<std::string, uint32_t>] as the list of its entries in key order. *)
Fixpoint string_lt (a b : bytes) : bool :=
  match a, b with
  | _, [] => false
  | [], _ => true
  | x :: a, y :: b => (x <? y) || (x =? y) && string_lt a b
  end.
Fixpoint map_put (key : bytes) (value : Z) (l : list (bytes * Z)) : list (bytes * Z) :=
  match l with
  | [] => [(key, value)]
  | e :: rest =>
    if bytes_eqb key e.1 then (key, value) :: rest
    else if string_lt key e.1 then (key, value) :: l
    else e :: map_put key value rest
  end.
Definition map_erase (key : bytes) (l : list (bytes * Z)) : list (bytes * Z) :=
  filter (fun e => bytes_eqb e.1 key = false) l.

(** ** The platform under the component *)
Class ComponentEnv (W : Type) := {
  esp_now_is_peer_exist : bytes -> W -> bool;
  esp_now_add_peer : bytes -> Z -> W -> bool * W;
  esp_now_del_peer : bytes -> W -> bool * W;
  esp_now_send : bytes -> bytes -> W -> esp_err_t * W;
  current_wifi_channel_ : W -> Z;
  rx_mutex_free : W -> bool;
  wifi_is_connected : W -> bool;
  mqtt_is_connected : W -> bool
}.

Definition MAX_PENDING_RX_FRAMES : nat := 64.
Definition calc_airtime_lr_us_ (frame_bytes : nat) : Z := u32 (336 + 16 * Z.of_nat frame_bytes).

Section component.
Context {W : Type} `{!BridgeEnv W} `{!Hmac} `{!SocketEnv W} `{!ComponentEnv W}.
Abbreviation St := (ESPTreeBridge * W)%type.

Definition this_bridge : M St ESPTreeBridge := gets fst.
Definition set_bridge (f : ESPTreeBridge -> ESPTreeBridge) : M St unit := modify (fun s => (f s.1, s.2)).
Definition now_ms : M St Z := gets (fun s => bridge_millis s.2).
Definition platform {A} (f : W -> A * W) : M St A := fun s => let '(a, w) := f s.2 in (a, (s.1, w)).

(** Calls into the protocol object and into the transport. *)
Definition in_protocol {A} (m : M (BridgeProtocol * W) A) : M St A :=
  zoom (fun s => (protocol_ s.1, s.2)) (fun t s => (s.1 <| protocol_ := t.1 |>, t.2)) m.
Definition in_transport {A} (m : M (Transport * W) A) : M St A :=
  zoom (fun s => (api_proto_ws_ s.1, s.2)) (fun t s => (s.1 <| api_proto_ws_ := t.1 |>, t.2)) m.

(** ** Peers *)
Definition note_peer_activity_ (mac : bytes) : M St unit :=
  now ← now_ms;
  when (negb (length mac =? 0)%nat)
    (set_bridge (fun b => b <| peer_last_used_ms_ ::= map_put (mac_hex mac) now |>)).

Definition is_peer_protected_ (mac : bytes) (p : BridgeProtocol) : bool :=
  negb (length mac =? 0)%nat &&
  existsb (fun s => s_online s && (bytes_eqb (s_next_hop_mac s) mac || bytes_eqb (s_leaf_mac s) mac))
    (map_to_list (sessions_ p)).*2.

(** The loop of [evict_stale_peer_]: the least recently used peer that may go. *)
Definition stale_peer (preferred_mac : bytes) (p : BridgeProtocol) (best : option (bytes * Z))
    (entry : bytes * Z) : option (bytes * Z) :=
  match parse_mac_hex_ entry.1 with
  | None => best
  | Some mac =>
    if negb (length preferred_mac =? 0)%nat && bytes_eqb mac preferred_mac then best
    else if is_peer_protected_ mac p then best
    else match best with
         | None => Some entry
         | Some b => if entry.2 <? b.2 then Some entry else best
         end
  end.

Definition evict_stale_peer_ (preferred_mac : bytes) : M St bool :=
  b ← this_bridge;
  match foldl (stale_peer preferred_mac (protocol_ b)) None (peer_last_used_ms_ b) with
  | None => mret false
  | Some (key, _) =>
    set_bridge (fun b => b <| peer_last_used_ms_ ::= map_erase key |>);;
    match parse_mac_hex_ key with
    | None => mret false
    | Some mac => platform (esp_now_del_peer mac)
    end
  end.

Definition add_peer_ (mac : bytes) : M St bool :=
  if (length mac =? 0)%nat then mret false
  else
    known ← gets (fun s : St => esp_now_is_peer_exist mac s.2);
    if (known : bool) then note_peer_activity_ mac;; mret true
    else
      channel ← gets (fun s : St => current_wifi_channel_ s.2);
      added ← platform (esp_now_add_peer mac channel);
      if (added : bool) then note_peer_activity_ mac;; mret true
      else
        evicted ← evict_stale_peer_ mac;
        if negb evicted then mret false
        else
          added ← platform (esp_now_add_peer mac channel);
          if (added : bool) then note_peer_activity_ mac;; mret true else mret false.

Definition send_frame_result_ (mac frame : bytes) : M St esp_err_t :=
  peer ← add_peer_ mac;
  if negb peer then mret ESP_FAIL
  else
    set_bridge (fun b => b <| rolling_airtime_ ::= fun a =>
      a <| tx_airtime_us ::= fun n => u64 (n + calc_airtime_lr_us_ (length frame)) |>
        <| tx_packets ::= fun n => u32 (n + 1) |> |>);;
    note_peer_activity_ mac;;
    platform (esp_now_send mac frame).

Definition send_frame_ (mac frame : bytes) : M St bool :=
  err ← send_frame_result_ mac frame; mret (err_is err ESP_OK).

(** ** Received frames *)
Definition drop_rx : M St unit := set_bridge (fun b => b <| rx_dropped_ ::= fun n => u32 (n + 1) |>).

Definition handle_received_frame_ (mac data : bytes) (rssi : Z) : M St unit :=
  b ← this_bridge;
  if negb (espnow_allowed_ b) then
    set_bridge (fun b => b <| rx_dropped_while_disallowed_ ::= fun n => u32 (n + 1) |>)
  else if (length mac =? 0)%nat || (length data =? 0)%nat then mret tt
  else
    free ← gets (fun s : St => rx_mutex_free s.2);
    if negb free then drop_rx
    else if (MAX_PENDING_RX_FRAMES <=? length (pending_rx_frames_ b))%nat then drop_rx
    else set_bridge (fun b => b <| pending_rx_frames_ ::= fun q =>
           q ++ [{| rx_mac := take 6 mac; rx_data := data; rx_rssi := rssi |}] |>).

Definition handle_send_status_ (success : bool) : M St unit :=
  if success then set_bridge (fun b => b <| tx_ok_ ::= fun n => u32 (n + 1) |>)
  else set_bridge (fun b => b <| tx_fail_ ::= fun n => u32 (n + 1) |>).

Definition note_rx (frame : PendingRxFrame) (b : ESPTreeBridge) : ESPTreeBridge :=
  b <| rx_packets_ ::= fun n => u32 (n + 1) |>
    <| rolling_airtime_ ::= fun a =>
      let a := a <| rx_airtime_us ::= fun n => u64 (n + calc_airtime_lr_us_ (length (rx_data frame))) |>
                 <| rx_packets ::= fun n => u32 (n + 1) |> in
      if rx_rssi frame =? 0 then a
      else a <| rssi_sum ::= Z.add (rx_rssi frame) |> <| rssi_count ::= fun n => u32 (n + 1) |> |>.

(** The loop over the frames taken from the queue; [i] counts those accepted. *)
Fixpoint drain_frames (i : Z) (frames : list PendingRxFrame) : M St unit :=
  match frames with
  | [] => mret tt
  | frame :: frames =>
    ok ← in_protocol (on_espnow_frame (rx_mac frame) (rx_data frame) (rx_rssi frame));
    if negb ok then drop_rx;; drain_frames i frames
    else
      set_bridge (note_rx frame);;
      when ((i + 1) mod 5 =? 0) (modify (fun s => (s.1, bridge_delay 1 s.2)));;
      drain_frames (i + 1) frames
  end.

Definition drain_received_frames_ : M St unit :=
  free ← gets (fun s : St => rx_mutex_free s.2);
  if negb free then mret tt
  else
    b ← this_bridge;
    set_bridge (fun b => b <| pending_rx_frames_ := [] |>);;
    drain_frames 0 (pending_rx_frames_ b).

(** ** Deliveries of states to their sinks *)
Definition STATE_DELIVERY_SINK_MQTT : Z := 1.
Definition STATE_DELIVERY_SINK_PROTOBUF : Z := 2.
Definition STATE_DELIVERY_TIMEOUT_MS : Z := 2000.

Definition state_delivery_key_ (mac : bytes) (entity_index message_tx_base : Z) : bytes :=
  mac_hex mac ++ [95] ++ ESPNowOTAManager.dec entity_index ++ [95] ++ ESPNowOTAManager.dec message_tx_base.

Definition active_state_delivery_sinks_ : M St Z :=
  gets (fun s =>
    let sinks := if has_authenticated_client (api_proto_ws_ s.1) then STATE_DELIVERY_SINK_PROTOBUF else 0 in
    if mqtt_is_connected s.2 then Z.lor sinks STATE_DELIVERY_SINK_MQTT else sinks).

Definition confirm_delivery (mac : bytes) (message_tx_base : Z) (next_hop : bytes) : M St unit :=
  in_protocol (confirm_state_delivery_ mac message_tx_base next_hop);; mret tt.

Definition begin_state_delivery_ (mac : bytes) (entity_index message_tx_base : Z) (next_hop : bytes)
    (required : Z) : M St unit :=
  if (length mac =? 0)%nat || (length next_hop =? 0)%nat then mret tt
  else if required =? 0 then confirm_delivery mac message_tx_base next_hop
  else
    now ← now_ms;
    set_bridge (fun b => b <| pending_state_deliveries_ ::=
      <[state_delivery_key_ mac entity_index message_tx_base :=
        {| pd_leaf := take 6 mac; pd_next_hop := take 6 next_hop; pd_entity_index := entity_index;
           pd_message_tx_base := message_tx_base; required_sinks := required; delivered_sinks := 0;
           created_ms := now |}]> |>).

Definition mark_state_sink_delivered_ (mac : bytes) (entity_index message_tx_base sink : Z) : M St unit :=
  b ← this_bridge;
  let key := state_delivery_key_ mac entity_index message_tx_base in
  match pending_state_deliveries_ b !! key with
  | None => mret tt
  | Some d =>
    let d := d <| delivered_sinks ::= fun n => Z.lor n sink |> in
    set_bridge (fun b => b <| pending_state_deliveries_ ::= <[key := d]> |>);;
    if negb (Z.land (delivered_sinks d) (required_sinks d) =? required_sinks d) then mret tt
    else
      confirm_delivery (pd_leaf d) (pd_message_tx_base d) (pd_next_hop d);;
      set_bridge (fun b => b <| pending_state_deliveries_ ::= delete key |>)
  end.

Definition expire_state_deliveries_ : M St unit :=
  now ← now_ms;
  set_bridge (fun b => b <| pending_state_deliveries_ ::=
    filter (fun e => u32 (now - created_ms e.2) < STATE_DELIVERY_TIMEOUT_MS) |>).

Definition mark_mqtt_state_delivered (mac : bytes) (entity_index message_tx_base : Z) : M St unit :=
  mark_state_sink_delivered_ mac entity_index message_tx_base STATE_DELIVERY_SINK_MQTT.

Definition entity_value_key_ (mac : bytes) (entity : espnow_entity_schema_t) : bytes :=
  mac_hex mac ++ [95] ++ ESPNowOTAManager.dec (entity_index entity).

Definition runtime_session_id_ (s : BridgeSession) (network_id : bytes) : bytes :=
  hex_encode (take 8 (hmac (s_session_key s)
    (s_bridge_nonce s ++ s_remote_nonce s ++ s_leaf_mac s ++ network_id))).

Definition api_runtime_handle_state_receipt (remote_mac session_id : bytes)
    (state_tx_counter entity_index : Z) : M St unit :=
  b ← this_bridge;
  match parse_mac_hex_ (clean_mac remote_mac) with
  | None => mret tt
  | Some mac =>
    match get_session mac (protocol_ b) with
    | None => mret tt
    | Some s =>
      if negb (length session_id =? 0)%nat
         && negb (bytes_eqb session_id (runtime_session_id_ s (component_network_id_ b))) then mret tt
      else mark_state_sink_delivered_ mac entity_index state_tx_counter STATE_DELIVERY_SINK_PROTOBUF
    end
  end.

(** ** The session of the web pages *)

(** A request: the argument [api_key] and the header [Cookie], where present. *)
Record HttpRequest := { http_api_key : option bytes; http_cookie : option bytes }.

Definition V2_SESSION_TIMEOUT_MS : Z := 86400000.
Definition V2_TOKEN_HEX_BYTES : nat := 16.

(** [std::string(arg.c_str())]. *)
Fixpoint until_nul (l : bytes) : bytes :=
  match l with
  | c :: l => if c =? 0 then [] else c :: until_nul l
  | [] => []
  end.

Definition v2_generate_token_ : M St bytes :=
  random ← platform (fill_random_bytes V2_TOKEN_HEX_BYTES); mret (hex_encode random).

(** The comparison of [LoginHandler] and of [v2_http_authenticate_]. *)
Definition keys_match (configured key : bytes) : bool :=
  (length configured =? length key)%nat &&
  (foldl (fun diff i => u8 (Z.lor diff (Z.lxor (at_ configured i) (at_ key i)))) 0
     (seq 0 (length configured)) =? 0).

(** The status of the answer and the token of the cookie it sets. *)
Definition handle_login (request : HttpRequest) : M St (Z * option bytes) :=
  let key := until_nul (default [] (http_api_key request)) in
  if (length key =? 0)%nat then mret (400, None)
  else
    b ← this_bridge;
    if negb (keys_match (api_key_ b) key) then mret (401, None)
    else
      token ← v2_generate_token_;
      now ← now_ms;
      set_bridge (fun b => b <| v2_session_token_ := token |> <| v2_session_created_ms_ := now |>);;
      mret (200, Some token).

Definition handle_logout : M St unit :=
  set_bridge (fun b => b <| v2_session_token_ := [] |> <| v2_session_created_ms_ := 0 |>).

(** [std::string::find]. *)
Fixpoint find_at (needle hay : bytes) (fuel pos : nat) : option nat :=
  if bytes_eqb (take (length needle) (drop pos hay)) needle then Some pos
  else match fuel with
       | O => None
       | S fuel => find_at needle hay fuel (S pos)
       end.
Definition find_from (needle hay : bytes) (pos : nat) : option nat :=
  find_at needle hay (length hay - pos) pos.

Definition session_cookie : bytes := str "espnow_session=".
Definition cookie_token (cookie : bytes) : option bytes :=
  start ← find_from session_cookie cookie 0;
  let start := (start + 15)%nat in
  let stop := default (length cookie) (find_from [59] cookie start) in
  Some (slice start (stop - start) cookie).

Definition v2_verify_session_ (request : HttpRequest) : M St bool :=
  b ← this_bridge;
  if (length (api_key_ b) =? 0)%nat then mret true
  else match cookie ← http_cookie request; cookie_token (until_nul cookie) with
  | None => mret false
  | Some token =>
    if (length token =? 0)%nat || negb (bytes_eqb token (v2_session_token_ b)) then mret false
    else
      now ← now_ms;
      if V2_SESSION_TIMEOUT_MS <? u32 (now - v2_session_created_ms_ b)
      then handle_logout;; mret false
      else mret true
  end.

Definition v2_http_authenticate_ (request : HttpRequest) : M St bool :=
  b ← this_bridge;
  if (length (api_key_ b) =? 0)%nat then mret true
  else match http_api_key request with
  | Some key => mret (keys_match (api_key_ b) (until_nul key))
  | None => v2_verify_session_ request
  end.
End component.
