(* ===== verification/EntityText.v ===== *)
(** * EntityText: the text forms of entity options and states

    Models [src/device_code/components/esp_tree_bridge/bridge_json_utils.cpp], the
    option strings of entities ([parse_options_map] and its readers, in
    [esp_tree_bridge.cpp] and again in [bridge_mqtt_export.cpp]) and the functions
    of the C library they use.  Conversions of floating-point numbers are the class
    [FloatText]. *)
From stdpp Require Import pretty.
From S2P Require Import Prelude Wire Crypto OtaManager BridgeSession BridgeComponent.

Import ESPNowOTAManager (dec).

(** Floating-point numbers are the four bytes of an IEEE single. *)
Class FloatText := {
  print_float : bytes -> bytes;
  strtof : bytes -> option bytes;
  hsv_u8_to_rgb : Z -> Z -> Z -> Z * Z * Z
}.

(** The constructor of a type code. *)
Definition all_field_types : list espnow_field_type_t :=
  [FIELD_TYPE_SENSOR; FIELD_TYPE_SWITCH; FIELD_TYPE_BINARY; FIELD_TYPE_BUTTON; FIELD_TYPE_NUMBER;
   FIELD_TYPE_TEXT; FIELD_TYPE_CLIMATE; FIELD_TYPE_COVER; FIELD_TYPE_LIGHT; FIELD_TYPE_FAN;
   FIELD_TYPE_LOCK; FIELD_TYPE_ALARM; FIELD_TYPE_SELECT; FIELD_TYPE_EVENT; FIELD_TYPE_HUMIDIFIER;
   FIELD_TYPE_DEHUMIDIFIER; FIELD_TYPE_VALVE; FIELD_TYPE_TIME; FIELD_TYPE_DATETIME;
   FIELD_TYPE_TEXT_SENSOR].
Definition field_type_of (code : Z) : option espnow_field_type_t :=
  find (type_is code) all_field_types.

(** ** Numbers of the C library *)
Definition is_digit (c : Z) : bool := (48 <=? c) && (c <=? 57).
Fixpoint digits_value (acc : Z) (l : bytes) : Z :=
  match l with
  | c :: l => if is_digit c then digits_value (10 * acc + (c - 48)) l else acc
  | [] => acc
  end.

(** Sign and value of a decimal number after white space, if there is one. *)
Definition scan_decimal (l : bytes) : option (bool * Z) :=
  let l := skip_space l in
  let negative := match l with c :: _ => c =? 45 | [] => false end in
  let l := match l with c :: rest => if (c =? 45) || (c =? 43) then rest else l | [] => l end in
  match l with
  | c :: _ => if is_digit c then Some (negative, digits_value 0 l) else None
  | [] => None
  end.

(** [long] has 32 bits; [atoi] is [strtol]. *)
Definition strtol (l : bytes) : option Z :=
  r ← scan_decimal l;
  Some (Z.max (- 0x80000000) (Z.min 0x7FFFFFFF (if (r.1 : bool) then - r.2 else r.2))).
Definition atoi (l : bytes) : Z := default 0 (strtol l).
Definition strtoul (l : bytes) : Z :=
  match scan_decimal l with
  | None => 0
  | Some (negative, n) =>
    if 0xFFFFFFFF <? n then 0xFFFFFFFF else if (negative : bool) then u32 (- n) else n
  end.

(** ** Option strings: [key=value] pairs between semicolons *)
Fixpoint split_loop (sep : Z) (current input : bytes) : list bytes :=
  match input with
  | [] => [current]
  | ch :: rest => if ch =? sep then current :: split_loop sep [] rest
                  else split_loop sep (current ++ [ch]) rest
  end.
Definition split_string (input : bytes) (sep : Z) : list bytes := split_loop sep [] input.

(** The part before and after the first [=]. *)
Definition split_option (part : bytes) : option (bytes * bytes) :=
  eq ← list_find (fun c => c = 61) part; Some (take eq.1 part, drop (S eq.1) part).

Definition parse_options_map (input : bytes) : gmap bytes bytes :=
  foldl (fun options part =>
    match split_option part with
    | None => options
    | Some (key, value) => <[key := value]> options
    end) ∅ (split_string input 59).

Definition option_is_true (options : gmap bytes bytes) (key : bytes) : bool :=
  match options !! key with
  | Some v => bytes_eqb v (str "1") || bytes_eqb v (str "true") || bytes_eqb v (str "yes")
  | None => false
  end.
Definition option_list (options : gmap bytes bytes) (key : bytes) : list bytes :=
  match options !! key with
  | Some v => if (length v =? 0)%nat then [] else split_string v 124
  | None => []
  end.
Definition option_has_list_value (options : gmap bytes bytes) (key value : bytes) : bool :=
  existsb (bytes_eqb value) (option_list options key).
Definition option_u32 (options : gmap bytes bytes) (key : bytes) (fallback : Z) : Z :=
  match options !! key with Some v => strtoul v | None => fallback end.

Definition parse_on (payload : bytes) : bool :=
  bytes_eqb payload (str "ON") || bytes_eqb payload (str "on") || bytes_eqb payload (str "1")
  || bytes_eqb payload (str "true").

(** ** JSON of states *)
Module json_utils.
(** Here an empty value is a list of one empty string. *)
Definition option_list (opts : gmap bytes bytes) (key : bytes) : list bytes :=
  match opts !! key with Some v => split_string v 124 | None => [] end.
Definition option_has_list_value (opts : gmap bytes bytes) (key value : bytes) : bool :=
  existsb (fun v => bytes_eqb v value) (option_list opts key).
End json_utils.

Definition parse_select_options (entity_options : bytes) : list bytes :=
  let fix search parts :=
    match parts with
    | [] => split_string entity_options 124
    | part :: parts =>
      match split_option part with
      | Some (key, value) => if bytes_eqb key (str "options") then split_string value 124 else search parts
      | None => search parts
      end
    end in
  search (split_string entity_options 59).

Definition escape_char (ch : Z) : bytes :=
  if ch =? 34 then [92; 34]
  else if ch =? 92 then [92; 92]
  else if ch =? 8 then [92; 98]
  else if ch =? 12 then [92; 102]
  else if ch =? 10 then [92; 110]
  else if ch =? 13 then [92; 114]
  else if ch =? 9 then [92; 116]
  else if ch <? 32 then [92; 117; 48; 48] ++ hex_encode [ch]
  else [ch].
Definition escape_json (value : bytes) : bytes := value ≫= escape_char.

Definition quote (s : bytes) : bytes := [34] ++ s ++ [34].
Definition quoted_json_string (raw : bytes) : bytes := quote (escape_json raw).
Definition json_field (key : string) : bytes := quote (str key) ++ [58].
Definition json_bool (b : bool) : bytes := if b then str "true" else str "false".
Definition truth (value : bytes) (i : nat) : bytes := json_bool (negb (at_ value i =? 0)).

Definition color_mode_name_json (cm : Z) : bytes := str
  (match cm with
   | 1 => "onoff" | 3 => "brightness" | 7 => "white" | 11 => "color_temp" | 19 => "color_temp"
   | 35 => "rgb" | 39 => "rgbw" | 47 => "rgbw" | 51 => "rgbww" | _ => "brightness"
   end)%string.

Definition lock_state (value : bytes) : bytes := str
  (match value with
   | 1 :: _ => "LOCKED" | 2 :: _ => "JAMMED" | _ => "UNLOCKED"
   end)%string.
Definition alarm_state (value : bytes) : bytes := str
  (match value with
   | 1 :: _ => "armed_home" | 2 :: _ => "armed_away" | 3 :: _ => "armed_night"
   | 4 :: _ => "armed_vacation" | 5 :: _ => "armed_custom_bypass" | 6 :: _ => "triggered"
   | 7 :: _ => "pending" | 8 :: _ => "arming" | 9 :: _ => "disarming" | _ => "disarmed"
   end)%string.

Section state_text.
Context `{!FloatText}.

(** What the option [color_modes] of a light offers. *)
Definition color_mode (opts : gmap bytes bytes) (mode : string) : bool :=
  json_utils.option_has_list_value opts (str "color_modes") (str mode).
Definition color_rgb (opts : gmap bytes bytes) : bool :=
  color_mode opts "rgb" || color_mode opts "rgbw" || color_mode opts "rgbww".
Definition color_dimmable (opts : gmap bytes bytes) : bool :=
  color_mode opts "brightness" || color_rgb opts || color_mode opts "white" || color_mode opts "color_temp".

Definition light_color_mode (value : bytes) (opts : gmap bytes bytes) : bytes :=
  if (5 <? length value)%nat then color_mode_name_json (at_ value 5)
  else if (3 <? length value)%nat && color_rgb opts then str "rgb"
  else if (1 <? length value)%nat && color_mode opts "color_temp" then str "color_temp"
  else str "brightness".

Definition color_temp_of (value : bytes) : Z := Z.lor (at_ value 6) (Z.shiftl (at_ value 7) 8).

Definition build_light_state_json (value entity_options : bytes) : bytes :=
  if (length value <? 1)%nat then str "{}"
  else
    let opts := parse_options_map entity_options in
    let effects := json_utils.option_list opts (str "effects") in
    str "{" ++ json_field "state" ++ truth value 0 ++
    str "," ++ json_field "color_mode" ++ quote (light_color_mode value opts) ++
    (if (1 <? length value)%nat && color_dimmable opts
     then str "," ++ json_field "brightness" ++ dec (at_ value 1) else []) ++
    (if (3 <? length value)%nat && color_rgb opts then
       let '(r, g, b) := hsv_u8_to_rgb (at_ value 2) (at_ value 3) (at_ value 1) in
       str "," ++ json_field "color" ++ str "{" ++ json_field "r" ++ dec r ++ str "," ++ json_field "g" ++
       dec g ++ str "," ++ json_field "b" ++ dec b ++ str "}"
     else []) ++
    (if (7 <? length value)%nat && (0 <? color_temp_of value)
     then str "," ++ json_field "color_temp" ++ dec (color_temp_of value) else []) ++
    (if (8 <? length value)%nat && (0 <? at_ value 8)
     then str "," ++ json_field "white" ++ dec (at_ value 8) else []) ++
    (if negb (length effects =? 0)%nat && (4 <? length value)%nat then
       str "," ++ json_field "effect" ++
       (if (0 <? at_ value 4) && (at_ value 4 <=? Z.of_nat (length effects))
        then quoted_json_string (nth (Z.to_nat (at_ value 4 - 1)) effects [])
        else quote (str "None"))
     else []) ++
    str "}".

Definition build_fan_state_json (value : bytes) : bytes :=
  if (length value <? 1)%nat then str "{}"
  else
    str "{" ++ json_field "state" ++ truth value 0 ++
    (if (1 <? length value)%nat then str "," ++ json_field "speed_level" ++ dec (at_ value 1) else []) ++
    (if (2 <? length value)%nat then str "," ++ json_field "oscillating" ++ truth value 2 else []) ++
    (if (3 <? length value)%nat
     then str "," ++ json_field "direction" ++ quote (if at_ value 3 =? 0 then str "forward" else str "reverse")
     else []) ++
    str "}".

Definition state_value_json (type : Z) (value entity_options : bytes) : bytes :=
  if (length value =? 0)%nat then str "null"
  else match field_type_of type with
  | Some (FIELD_TYPE_SENSOR | FIELD_TYPE_NUMBER) =>
    if (length value <? 4)%nat then str "0" else print_float (take 4 value)
  | Some (FIELD_TYPE_SWITCH | FIELD_TYPE_BINARY | FIELD_TYPE_BUTTON | FIELD_TYPE_HUMIDIFIER
          | FIELD_TYPE_DEHUMIDIFIER) => truth value 0
  | Some FIELD_TYPE_LIGHT => build_light_state_json value entity_options
  | Some FIELD_TYPE_FAN => build_fan_state_json value
  | Some (FIELD_TYPE_COVER | FIELD_TYPE_VALVE) => dec (at_ value 0)
  | Some FIELD_TYPE_LOCK => quoted_json_string (lock_state value)
  | Some FIELD_TYPE_ALARM => quoted_json_string (alarm_state value)
  | Some FIELD_TYPE_SELECT =>
    let options := parse_select_options entity_options in
    if negb (length entity_options =? 0)%nat && (at_ value 0 <? Z.of_nat (length options))
    then quoted_json_string (nth (Z.to_nat (at_ value 0)) options [])
    else dec (at_ value 0)
  | Some (FIELD_TYPE_TEXT | FIELD_TYPE_TEXT_SENSOR | FIELD_TYPE_EVENT | FIELD_TYPE_TIME
          | FIELD_TYPE_DATETIME) => quoted_json_string value
  | _ => str "null"
  end.
End state_text.
