(* ===== verification/StateJson.v ===== *)
(** * StateJson: the JSON of a state means the state

    A reader of JSON after RFC 8259, and the meaning of each state as a JSON value:
    what [state_value_json] writes is read back as exactly that value. *)
From stdpp Require Import pretty.
From S2P Require Import Prelude Wire Crypto OtaManager BridgeSession BridgeComponent EntityText.

Import ESPNowOTAManager (dec).

Inductive Json :=
  | JNull
  | JBool (b : bool)
  | JNum (n : Z)
  | JText (s : bytes)
  | JObj (members : list (bytes * Json)).

(** ** The reader *)
Definition hex_value (l : bytes) : option Z :=
  if forallb is_hex l then Some (foldl (fun acc c => 16 * acc + parse_hex_nibble_ c) 0 l) else None.

(** UTF-8 of a code point of the basic plane. *)
Definition utf8 (n : Z) : bytes :=
  if n <? 128 then [n]
  else if n <? 2048 then [192 + n / 64; 128 + n mod 64]
  else [224 + n / 4096; 128 + n / 64 mod 64; 128 + n mod 64].

Definition unescaped (c : Z) : option Z :=
  if (c =? 34) || (c =? 92) || (c =? 47) then Some c
  else if c =? 98 then Some 8
  else if c =? 102 then Some 12
  else if c =? 110 then Some 10
  else if c =? 114 then Some 13
  else if c =? 116 then Some 9
  else None.

(** A string after its opening quote: the content and what follows the closing quote. *)
Fixpoint read_string (l : bytes) : option (bytes * bytes) :=
  match l with
  | [] => None
  | c :: l =>
    if c =? 34 then Some ([], l)
    else if c =? 92 then
      match l with
      | [] => None
      | e :: l1 =>
        if e =? 117 then
          match l1 with
          | a :: b :: c :: d :: l2 =>
            n ← hex_value [a; b; c; d]; r ← read_string l2; Some (utf8 n ++ r.1, r.2)
          | _ => None
          end
        else x ← unescaped e; r ← read_string l1; Some (x :: r.1, r.2)
      end
    else if c <? 32 then None
    else r ← read_string l; Some (c :: r.1, r.2)
  end.

(** Digits, from the left, and what follows them. *)
Fixpoint read_digits (acc : Z) (l : bytes) : Z * bytes :=
  match l with
  | c :: rest => if is_digit c then read_digits (10 * acc + (c - 48)) rest else (acc, l)
  | [] => (acc, [])
  end.

Definition strip (word l : bytes) : option bytes :=
  if bytes_eqb (take (length word) l) word then Some (drop (length word) l) else None.

(** Values without arrays and fractions; [fuel] bounds the nesting and the members. *)
Fixpoint read_json (fuel : nat) (l : bytes) : option (Json * bytes) :=
  match fuel with
  | O => None
  | S fuel =>
    match l with
    | [] => None
    | c :: rest =>
      if c =? 34 then r ← read_string rest; Some (JText r.1, r.2)
      else if c =? 123 then r ← read_members fuel rest; Some (JObj r.1, r.2)
      else if is_digit c then let r := read_digits 0 l in Some (JNum r.1, r.2)
      else match strip (str "true") l, strip (str "false") l, strip (str "null") l with
           | Some rest, _, _ => Some (JBool true, rest)
           | _, Some rest, _ => Some (JBool false, rest)
           | _, _, Some rest => Some (JNull, rest)
           | _, _, _ => None
           end
    end
  end
with read_members (fuel : nat) (l : bytes) : option (list (bytes * Json) * bytes) :=
  match fuel with
  | O => None
  | S fuel =>
    match l with
    | 125 :: rest => Some ([], rest)
    | 34 :: rest =>
      k ← read_string rest;
      match k.2 with
      | 58 :: rest =>
        v ← read_json fuel rest;
        match v.2 with
        | 44 :: rest => more ← read_members fuel rest; Some ((k.1, v.1) :: more.1, more.2)
        | 125 :: rest => Some ([(k.1, v.1)], rest)
        | _ => None
        end
      | _ => None
      end
    | _ => None
    end
  end.

Definition json_value (l : bytes) : option Json :=
  match read_json (S (length l)) l with Some (j, []) => Some j | _ => None end.

(** ** The writer it is compared with *)
Fixpoint render (j : Json) : bytes :=
  match j with
  | JNull => str "null"
  | JBool b => json_bool b
  | JNum n => dec n
  | JText s => quoted_json_string s
  | JObj members =>
    let fix fields members :=
      match members with
      | [] => []
      | (k, v) :: more => [44] ++ quoted_json_string k ++ [58] ++ render v ++ fields more
      end in
    [123] ++ drop 1 (fields members) ++ [125]
  end.

Definition fields (members : list (bytes * Json)) : bytes :=
  members ≫= fun m => [44] ++ quoted_json_string m.1 ++ [58] ++ render m.2.

(** Numbers below 65536 and octets. *)
Fixpoint json_ok (j : Json) : Prop :=
  match j with
  | JNum n => 0 <= n < 65536
  | JText s => bytes_ok s
  | JObj members =>
    let fix all members :=
      match members with
      | [] => True
      | (k, v) :: more => bytes_ok k /\ json_ok v /\ all more
      end in all members
  | _ => True
  end.

Definition members_ok (members : list (bytes * Json)) : Prop :=
  Forall (fun m => bytes_ok m.1 /\ json_ok m.2) members.

Lemma json_ok_obj members : json_ok (JObj members) <-> members_ok members.
Proof.
  unfold members_ok. induction members as [|[k v] ms IH]; [by split|]. rewrite Forall_cons, <-IH. cbn. tauto.
Qed.

Lemma render_obj members : render (JObj members) = [123] ++ drop 1 (fields members) ++ [125].
Proof.
  cbn [render]. do 3 f_equal. induction members as [|[k v] ms IH]; [done|].
  cbn [fields mbind list_bind fst snd]. rewrite IH. by rewrite <-!app_assoc.
Qed.

Fixpoint jsize (j : Json) : nat :=
  match j with
  | JObj members =>
    let fix all members :=
      match members with
      | [] => O
      | (k, v) :: more => S (jsize v + all more)
      end in S (S (all members))
  | _ => 1
  end.
Definition msize (members : list (bytes * Json)) : nat := foldr (fun m n => S (jsize m.2 + n)) O members.
Lemma jsize_obj members : jsize (JObj members) = S (S (msize members)).
Proof. cbn. do 2 f_equal. induction members as [|[k v] ms IH]; [done|]. cbn. by rewrite IH. Qed.

Fixpoint Json_tree_ind (P : Json -> Prop) (Hnull : P JNull) (Hbool : forall b, P (JBool b))
    (Hnum : forall n, P (JNum n)) (Htext : forall s, P (JText s))
    (Hobj : forall ms, Forall (fun m => P m.2) ms -> P (JObj ms)) (j : Json) : P j :=
  match j with
  | JNull => Hnull
  | JBool b => Hbool b
  | JNum n => Hnum n
  | JText s => Htext s
  | JObj ms => Hobj ms ((fix all ms : Forall (fun m => P m.2) ms :=
      match ms with
      | [] => List.Forall_nil _
      | m :: ms => List.Forall_cons _ m ms (Json_tree_ind P Hnull Hbool Hnum Htext Hobj m.2) (all ms)
      end) ms)
  end.

(** ** Strings *)
Lemma hex_value_control b : 0 <= b < 32 -> hex_value ([48; 48] ++ hex_encode [b]) = Some b.
Proof.
  intros Hb. pose proof (zseq_cases (fun b => bool_decide (hex_value ([48; 48] ++ hex_encode [b]) = Some b))
    0 32 b eq_refl ltac:(lia)) as H. by apply bool_decide_eq_true in H.
Qed.

Lemma read_escaped_char b l : byte_range b ->
  read_string (escape_char b ++ l) = (r ← read_string l; Some (b :: r.1, r.2)).
Proof.
  unfold byte_range. intros Hb. unfold escape_char.
  repeat match goal with |- context [if ?x =? ?y then _ else _] =>
    let E := fresh "E" in destruct (Z.eqb_spec x y) as [E|E]; [rewrite E; reflexivity|] end.
  destruct (Z.ltb_spec b 32) as [Hlt|Hge].
  - pose proof (hex_value_control b ltac:(lia)) as Hx. change (hex_encode [b]) with [hex_digit (b / 16); hex_digit (b mod 16)] in *.
    cbn [app] in Hx |- *. cbn [read_string Z.eqb Pos.eqb]. rewrite Hx. cbn [mbind option_bind].
    unfold utf8. rewrite (proj2 (Z.ltb_lt b 128)) by lia. done.
  - cbn [app read_string]. rewrite (proj2 (Z.eqb_neq b 34)), (proj2 (Z.eqb_neq b 92)), (proj2 (Z.ltb_ge b 32)) by lia.
    done.
Qed.

(** What is written between the quotes is read back, whatever the text. *)
Lemma read_string_escape s rest : bytes_ok s ->
  read_string (escape_json s ++ 34 :: rest) = Some (s, rest).
Proof.
  intros Hs. induction Hs as [|b s Hb Hs IH]; [done|]. unfold escape_json in *.
  rewrite bind_cons, <-app_assoc, read_escaped_char, IH by done. done.
Qed.

(** ** Numbers *)
Definition no_digit (rest : bytes) : Prop := match rest with c :: _ => is_digit c = false | [] => True end.

Lemma read_digits_app ds rest acc : forallb is_digit ds = true -> no_digit rest ->
  read_digits acc (ds ++ rest) = ((read_digits acc ds).1, rest).
Proof.
  intros Hd Hr. revert acc Hd. induction ds as [|c ds IH]; intros acc Hd.
  - destruct rest as [|c rest]; [done|]. cbn in Hr |- *. by rewrite Hr.
  - cbn in Hd |- *. apply andb_prop in Hd as [-> Hd]. by apply IH.
Qed.

Definition decimal_reads (n : Z) : bool :=
  let l := dec n in
  forallb is_digit l && ((read_digits 0 l).1 =? n) && negb (length l =? 0)%nat.
Lemma decimal_table :
  forallb (fun a => forallb (fun b => decimal_reads (256 * a + b)) (zseq 0 256)) (zseq 0 256) = true.
Proof. vm_compute. reflexivity. Qed.

Lemma decimal_reads_16 n : 0 <= n < 65536 -> decimal_reads n = true.
Proof.
  intros Hn. pose proof (Z.div_mod n 256 ltac:(lia)) as E.
  pose proof (Z.mod_pos_bound n 256 ltac:(lia)).
  assert (0 <= n / 256 < 256) by (split; [apply Z.div_pos|apply Z.div_lt_upper_bound]; lia).
  pose proof (zseq_cases _ 0 256 (n / 256) decimal_table ltac:(lia)) as Ht. cbn beta in Ht.
  pose proof (zseq_cases _ 0 256 (n mod 256) Ht ltac:(lia)) as Ht'. cbn beta in Ht'. by rewrite <-E in Ht'.
Qed.

(** ** Values *)
Lemma read_num fuel n rest : 0 <= n < 65536 -> no_digit rest -> (0 < fuel)%nat ->
  read_json fuel (dec n ++ rest) = Some (JNum n, rest).
Proof.
  intros Hn Hr Hf. destruct fuel as [|fuel]; [lia|]. pose proof (decimal_reads_16 n Hn) as H.
  unfold decimal_reads in H. apply andb_prop in H as [H Hl]. apply andb_prop in H as [Hd Hv%Z.eqb_eq].
  pose proof (read_digits_app (dec n) rest 0 Hd Hr) as E. rewrite Hv in E.
  destruct (dec n) as [|c ds]; [done|]. cbn [app] in E |- *. cbn [forallb] in Hd.
  apply andb_prop in Hd as [Hc _].
  assert (48 <= c <= 57) by (unfold is_digit in Hc; zprop; lia).
  cbn [read_json]. rewrite (proj2 (Z.eqb_neq c 34)), (proj2 (Z.eqb_neq c 123)), Hc by lia.
  cbv zeta. by rewrite E.
Qed.

Lemma quoted_app s rest : quoted_json_string s ++ rest = 34 :: (escape_json s ++ 34 :: rest).
Proof. unfold quoted_json_string, quote. by rewrite <-!app_assoc. Qed.

Lemma read_text fuel s rest : bytes_ok s -> (0 < fuel)%nat ->
  read_json fuel (quoted_json_string s ++ rest) = Some (JText s, rest).
Proof.
  intros Hs Hf. destruct fuel as [|fuel]; [lia|]. rewrite quoted_app. cbn [read_json Z.eqb Pos.eqb].
  by rewrite read_string_escape.
Qed.

Definition reads_back (j : Json) : Prop :=
  forall fuel rest, json_ok j -> (jsize j <= fuel)%nat -> no_digit rest ->
  read_json fuel (render j ++ rest) = Some (j, rest).

Lemma read_members_render ms : Forall (fun m => reads_back m.2) ms -> members_ok ms ->
  forall fuel rest, (msize ms < fuel)%nat ->
  read_members fuel (drop 1 (fields ms) ++ 125 :: rest) = Some (ms, rest).
Proof.
  unfold members_ok. induction ms as [|[k v] ms IH]; intros Hr Hok fuel rest Hf.
  - destruct fuel as [|fuel]; [lia|]. done.
  - apply Forall_cons in Hr as [Hv Hr]. apply Forall_cons in Hok as [[Hk Hvok] Hok].
    cbn [fst snd msize foldr] in *. fold (msize ms) in Hf. destruct fuel as [|fuel]; [lia|].
    unfold fields. rewrite bind_cons. fold (fields ms). cbn [fst snd app drop skipn].
    rewrite drop_0, <-!app_assoc, quoted_app. cbn [app]. cbn [read_members]. rewrite read_string_escape by done.
    cbn [mbind option_bind fst snd app]. rewrite Hv; [|done|lia|].
    + cbn [mbind option_bind fst snd]. destruct ms as [|m ms]; [done|].
      specialize (IH Hr Hok fuel rest ltac:(lia)).
      assert (exists tl, fields (m :: ms) = 44 :: tl) as [tl E] by (eexists; reflexivity).
      rewrite E in IH |- *. change (drop 1 (44 :: tl)) with tl in IH. cbn [app]. by rewrite IH.
    + destruct ms as [|[k' v'] ms]; done.
Qed.

Lemma render_reads_back j : reads_back j.
Proof.
  induction j as [|b|n|s|ms IH] using Json_tree_ind; intros fuel rest Hok Hf Hd.
  - destruct fuel; [cbn in Hf; lia|done].
  - destruct fuel; [cbn in Hf; lia|by destruct b].
  - by apply read_num; [..|cbn in Hf; lia].
  - by apply read_text; [|cbn in Hf; lia].
  - rewrite jsize_obj in Hf. destruct fuel as [|fuel]; [lia|]. rewrite render_obj, <-!app_assoc.
    cbn [app read_json Z.eqb Pos.eqb]. rewrite read_members_render; [done|done|by apply json_ok_obj|lia].
Qed.

Lemma jsize_length j : json_ok j -> (jsize j <= length (render j))%nat.
Proof.
  induction j as [|b|n|s|ms IH] using Json_tree_ind; intros Hok.
  - cbn. lia.
  - destruct b; cbn; lia.
  - pose proof (decimal_reads_16 n Hok) as H. unfold decimal_reads in H. zprop. cbn. lia.
  - cbn. unfold quoted_json_string, quote. cbn. lia.
  - rewrite json_ok_obj in Hok. rewrite jsize_obj, render_obj. cbn. rewrite length_app, length_drop. cbn.
    assert (msize ms <= length (fields ms) - 1)%nat; [|lia].
    assert (msize ms + length ms <= length (fields ms))%nat as H.
    { induction Hok as [|[k v] ms [Hk Hv] Hok IHo]; [done|]. apply Forall_cons in IH as [IHv IH].
      specialize (IHo IH). specialize (IHv Hv). unfold fields. rewrite bind_cons. fold (fields ms).
      rewrite !length_app. cbn in *. unfold quoted_json_string, quote. cbn. rewrite length_app. cbn. fold (msize ms). lia. }
    destruct ms; cbn in *; lia.
Qed.

Lemma json_value_render j : json_ok j -> json_value (render j) = Some j.
Proof.
  intros Hok. unfold json_value. pose proof (jsize_length j Hok).
  rewrite <-(app_nil_r (render j)) at 2. rewrite render_reads_back; [done|done|lia|done].
Qed.

(** ** The meaning of a state *)
Definition member (key : string) (j : Json) : bytes * Json := (str key, j).
Definition present (b : bool) (m : bytes * Json) : list (bytes * Json) := if b then [m] else [].
Definition flag (value : bytes) (i : nat) : Json := JBool (negb (at_ value i =? 0)).

Section meaning.
Context `{!FloatText}.

Definition light_meaning (value options : bytes) : list (bytes * Json) :=
  let opts := parse_options_map options in
  let effects := json_utils.option_list opts (str "effects") in
  let n := length value in
  let '(r, g, b) := hsv_u8_to_rgb (at_ value 2) (at_ value 3) (at_ value 1) in
  member "state" (flag value 0) ::
  [member "color_mode" (JText (light_color_mode value opts))] ++
  present ((1 <? n)%nat && color_dimmable opts) (member "brightness" (JNum (at_ value 1))) ++
  present ((3 <? n)%nat && color_rgb opts)
    (member "color" (JObj [member "r" (JNum r); member "g" (JNum g); member "b" (JNum b)])) ++
  present ((7 <? n)%nat && (0 <? color_temp_of value)) (member "color_temp" (JNum (color_temp_of value))) ++
  present ((8 <? n)%nat && (0 <? at_ value 8)) (member "white" (JNum (at_ value 8))) ++
  present (negb (length effects =? 0)%nat && (4 <? n)%nat)
    (member "effect" (JText (if (0 <? at_ value 4) && (at_ value 4 <=? Z.of_nat (length effects))
                             then nth (Z.to_nat (at_ value 4 - 1)) effects [] else str "None"))).

Definition fan_meaning (value : bytes) : list (bytes * Json) :=
  let n := length value in
  member "state" (flag value 0) ::
  present (1 <? n)%nat (member "speed_level" (JNum (at_ value 1))) ++
  present (2 <? n)%nat (member "oscillating" (flag value 2)) ++
  present (3 <? n)%nat
    (member "direction" (JText (if at_ value 3 =? 0 then str "forward" else str "reverse"))).

(** The JSON value a state stands for; [None] for numbers, which are not written as JSON. *)
Definition state_meaning (type : Z) (value options : bytes) : option Json :=
  match value, field_type_of type with
  | [], _ => Some JNull
  | _, Some (FIELD_TYPE_SENSOR | FIELD_TYPE_NUMBER) => None
  | _, Some (FIELD_TYPE_SWITCH | FIELD_TYPE_BINARY | FIELD_TYPE_BUTTON | FIELD_TYPE_HUMIDIFIER
             | FIELD_TYPE_DEHUMIDIFIER) => Some (flag value 0)
  | _, Some FIELD_TYPE_LIGHT => Some (JObj (light_meaning value options))
  | _, Some FIELD_TYPE_FAN => Some (JObj (fan_meaning value))
  | _, Some (FIELD_TYPE_COVER | FIELD_TYPE_VALVE) => Some (JNum (at_ value 0))
  | _, Some FIELD_TYPE_LOCK => Some (JText (lock_state value))
  | _, Some FIELD_TYPE_ALARM => Some (JText (alarm_state value))
  | _, Some FIELD_TYPE_SELECT =>
    Some (match options, parse_select_options options !! Z.to_nat (at_ value 0) with
          | _ :: _, Some name => JText name
          | _, _ => JNum (at_ value 0)
          end)
  | _, Some (FIELD_TYPE_TEXT | FIELD_TYPE_TEXT_SENSOR | FIELD_TYPE_EVENT | FIELD_TYPE_TIME
             | FIELD_TYPE_DATETIME) => Some (JText value)
  | _, _ => Some JNull
  end.

(** ** Options hold octets *)
Lemma split_loop_ok sep cur l : bytes_ok cur -> bytes_ok l -> Forall bytes_ok (split_loop sep cur l).
Proof.
  intros Hc Hl. revert cur Hc. induction Hl as [|c l Hb Hl IH]; intros cur Hc; cbn; [by constructor|].
  destruct (c =? sep); [constructor; [done|by apply IH]|]. apply IH, Forall_app. split; [done|by constructor].
Qed.

Lemma split_string_ok l sep : bytes_ok l -> Forall bytes_ok (split_string l sep).
Proof. intros Hl. apply split_loop_ok; [constructor|done]. Qed.

Lemma split_option_ok part k v : bytes_ok part -> split_option part = Some (k, v) -> bytes_ok v.
Proof.
  intros Hp. unfold split_option. destruct (list_find _ part) as [[i c]|]; [|done].
  intros [= <- <-]. by apply Forall_drop.
Qed.

Lemma options_ok l k v : bytes_ok l -> parse_options_map l !! k = Some v -> bytes_ok v.
Proof.
  intros Hl. unfold parse_options_map.
  assert (forall parts (m : gmap bytes bytes), Forall bytes_ok parts ->
    (forall k v, m !! k = Some v -> bytes_ok v) ->
    forall k v, foldl (fun options part => match split_option part with
      | None => options | Some (key, value) => <[key := value]> options end) m parts !! k = Some v ->
    bytes_ok v) as Hgo.
  { induction parts as [|p parts IH]; intros m Hp Hm; [done|].
    apply Forall_cons in Hp as [Hp Hps]. cbn. apply IH; [done|].
    destruct (split_option p) as [[k' v']|] eqn:E; [|done].
    intros k0 v0 [[-> <-]|[_ E0]]%lookup_insert_Some; [by eapply split_option_ok|by eapply Hm]. }
  intros E. eapply (Hgo _ ∅); [by apply split_string_ok|done|exact E].
Qed.

Lemma effects_ok l key : bytes_ok l ->
  Forall bytes_ok (json_utils.option_list (parse_options_map l) key).
Proof.
  intros Hl. unfold json_utils.option_list. destruct (_ !! key) as [v|] eqn:E; [|constructor].
  apply split_string_ok. by eapply options_ok.
Qed.

Lemma select_options_ok l : bytes_ok l -> Forall bytes_ok (parse_select_options l).
Proof.
  intros Hl. unfold parse_select_options.
  assert (Forall bytes_ok (split_string l 59)) as Hp by by apply split_string_ok.
  induction Hp as [|p ps Hp Hps IH]; [by apply split_string_ok|].
  destruct (split_option p) as [[k v]|] eqn:E; [|done].
  destruct (bytes_eqb k _); [|done]. apply split_string_ok. by eapply split_option_ok.
Qed.

Lemma str_ok s : forallb byteb (str s) = true.
Proof.
  induction s as [|[b0 b1 b2 b3 b4 b5 b6 b7] s IH]; [done|]. cbn [str forallb]. rewrite IH, andb_true_r.
  by destruct b0, b1, b2, b3, b4, b5, b6, b7.
Qed.
Lemma str_bytes_ok s : bytes_ok (str s).
Proof. apply byteb_ok, str_ok. Qed.

(** ** The text is the rendering of the meaning *)
Lemma fields_app a b : fields (a ++ b) = fields a ++ fields b.
Proof. apply bind_app. Qed.

Lemma fields_member key j : escape_json (str key) = str key ->
  fields [member key j] = str "," ++ json_field key ++ render j.
Proof.
  intros E. unfold fields, member. cbn [mbind list_bind fst snd]. unfold quoted_json_string, json_field.
  rewrite E, app_nil_r. cbn [str app]. by rewrite <-!app_assoc.
Qed.

Lemma fields_present b key j : escape_json (str key) = str key ->
  fields (present b (member key j)) = if b then str "," ++ json_field key ++ render j else [].
Proof. intros E. destruct b; [by apply fields_member|done]. Qed.

(** The object with a first field and optional others. *)
Lemma render_fields key j rest : escape_json (str key) = str key ->
  render (JObj (member key j :: rest)) = str "{" ++ json_field key ++ render j ++ fields rest ++ str "}".
Proof.
  intros E. change (member key j :: rest) with ([member key j] ++ rest).
  rewrite render_obj, fields_app, fields_member by done.
  cbn [str app drop skipn]. by rewrite drop_0, <-!app_assoc.
Qed.

Lemma truth_flag value i : truth value i = render (flag value i).
Proof. done. Qed.

Lemma if_render (b : bool) x y : (if b then render x else render y) = render (if b then x else y).
Proof. by destruct b. Qed.

Lemma fan_text value : value <> [] -> build_fan_state_json value = render (JObj (fan_meaning value)).
Proof.
  intros Hv. unfold build_fan_state_json, fan_meaning.
  assert ((length value <? 1)%nat = false) as -> by (destruct value; [done|apply Nat.ltb_ge; cbn; lia]).
  rewrite render_fields, !fields_app, !fields_present by done. rewrite <-!app_assoc.
  do 7 f_equal. by destruct (at_ value 3 =? 0).
Qed.

Lemma quote_plain s : escape_json s = s -> quote s = render (JText s).
Proof. intros E. cbn. unfold quoted_json_string. by rewrite E. Qed.

Lemma light_mode_plain value opts : escape_json (light_color_mode value opts) = light_color_mode value opts.
Proof.
  unfold light_color_mode, color_mode_name_json. repeat case_match; reflexivity.
Qed.

Lemma color_text r g b :
  str "{" ++ json_field "r" ++ dec r ++ str "," ++ json_field "g" ++ dec g ++ str "," ++ json_field "b" ++
    dec b ++ str "}" = render (JObj [member "r" (JNum r); member "g" (JNum g); member "b" (JNum b)]).
Proof.
  rewrite render_fields by done.
  change [member "g" (JNum g); member "b" (JNum b)] with ([member "g" (JNum g)] ++ [member "b" (JNum b)]).
  rewrite fields_app, !fields_member by done.
  by rewrite <-!app_assoc.
Qed.

Lemma light_text value options : value <> [] ->
  build_light_state_json value options = render (JObj (light_meaning value options)).
Proof.
  intros Hv. unfold build_light_state_json, light_meaning.
  assert ((length value <? 1)%nat = false) as -> by (destruct value; [done|apply Nat.ltb_ge; cbn; lia]).
  destruct (hsv_u8_to_rgb _ _ _) as [[r g] b]. cbv zeta.
  rewrite render_fields by done. rewrite !fields_app, fields_member, !fields_present by done.
  rewrite color_text, (quote_plain (light_color_mode _ _)) by apply light_mode_plain.
  rewrite <-!app_assoc. do 12 f_equal. f_equal.
  destruct (negb _ && _); [|done]. do 2 f_equal. by destruct (_ && _).
Qed.

(** ** The theorem *)
Definition hsv_octets : Prop := forall h s v,
  let '(r, g, b) := hsv_u8_to_rgb h s v in byte_range r /\ byte_range g /\ byte_range b.

Lemma octet_num b : byte_range b -> json_ok (JNum b).
Proof. unfold byte_range. cbn. lia. Qed.

Lemma text_ok s : bytes_ok s -> json_ok (JText s).
Proof. done. Qed.
Lemma nth_octets i (l : list bytes) : Forall bytes_ok l -> bytes_ok (nth i l []).
Proof.
  intros Hl. destruct (nth_in_or_default i l []) as [Hi| ->]; [|constructor].
  apply list_elem_of_In in Hi. by eapply Forall_forall in Hi.
Qed.

Lemma member_ok key j : json_ok j -> members_ok [member key j].
Proof. intros Hj. constructor; [split; [apply str_bytes_ok|done]|constructor]. Qed.
Lemma present_ok b key j : json_ok j -> members_ok (present b (member key j)).
Proof. intros Hj. destruct b; [by apply member_ok|constructor]. Qed.

Lemma color_temp_16 value : bytes_ok value -> 0 <= color_temp_of value < 65536.
Proof.
  intros Hv. unfold color_temp_of. pose proof (at_byte value 6 Hv) as H6. pose proof (at_byte value 7 Hv) as H7.
  unfold byte_range in *. rewrite lor_shift_add by lia. lia.
Qed.

Lemma light_color_mode_ok value opts : bytes_ok (light_color_mode value opts).
Proof. unfold light_color_mode, color_mode_name_json. repeat case_match; apply str_bytes_ok. Qed.

Lemma fan_meaning_ok value : bytes_ok value -> members_ok (fan_meaning value).
Proof.
  intros Hv. unfold fan_meaning. apply (Forall_app _ [_]). split; [by apply member_ok|].
  rewrite !Forall_app. split_and!; apply present_ok; try done; [by apply octet_num, at_byte|].
  case_match; apply str_bytes_ok.
Qed.

Lemma light_meaning_ok value options : hsv_octets -> bytes_ok value -> bytes_ok options ->
  members_ok (light_meaning value options).
Proof.
  intros Hhsv Hv Ho. unfold light_meaning. specialize (Hhsv (at_ value 2) (at_ value 3) (at_ value 1)).
  destruct (hsv_u8_to_rgb _ _ _) as [[r g] b]. destruct Hhsv as (Hr & Hg & Hb). cbv zeta.
  apply (Forall_app _ [_]). split; [by apply member_ok|]. rewrite !Forall_app.
  split_and!; try apply present_ok; try apply member_ok; try by apply octet_num, at_byte.
  - apply light_color_mode_ok.
  - apply json_ok_obj. repeat (apply (Forall_app _ [_]); split; [by apply member_ok, octet_num|]). constructor.
  - by apply color_temp_16.
  - apply text_ok. destruct (_ && _); [|apply str_bytes_ok]. by apply nth_octets, effects_ok.
Qed.

Lemma text_reads s : bytes_ok s -> json_value (quoted_json_string s) = Some (JText s).
Proof. apply (json_value_render (JText s)). Qed.
Lemma num_reads n : json_ok (JNum n) -> json_value (dec n) = Some (JNum n).
Proof. apply (json_value_render (JNum n)). Qed.

End meaning.

(** A light that runs its second effect, the name of which holds a quote. *)
Definition demo_float : FloatText :=
  {| print_float _ := []; strtof _ := None; hsv_u8_to_rgb _ _ _ := (1, 2, 3) |}.
Definition demo_light_options : bytes := str "color_modes=rgb|white;effects=Slow|Fire " ++ [34].

