(* ===== verification/EntityCommand.v ===== *)
(** * EntityCommand: from a command text to the value that is sent

    Models [decode_command_payload_] of
    [src/device_code/components/esp_tree_bridge/esp_tree_bridge.cpp]; the copy in
    [bridge_mqtt_export.cpp] differs only in that every effect name of a light
    counts as understood, the argument [any_effect].  The JSON parser and the
    conversion of colours are the class [CommandText]. *)
From S2P Require Import Prelude Wire Crypto OtaManager BridgeSession BridgeComponent EntityText.

Inductive CommandRouteKind := PRIMARY | FAN_SPEED | FAN_OSCILLATION | FAN_DIRECTION.

(** A value of a parsed JSON object. *)
Inductive Variant :=
  | VInt (n : Z)
  | VReal (bits : bytes)
  | VText (s : bytes)
  | VBool (b : bool)
  | VObject (members : list (bytes * Variant)).

(** [rgb_to_hsv] gives the three octets the light command computes from the colour
    (hue, saturation, brightness); [clamp_u16] bounds a real and drops its fraction. *)
Class CommandText := {
  parse_json : bytes -> option (list (bytes * Variant));
  rgb_to_hsv : Z -> Z -> Z -> Z * Z * Z;
  clamp_u16 : bytes -> Z
}.

Definition json_get (root : list (bytes * Variant)) (key : string) : option Variant :=
  snd <$> find (fun m => bytes_eqb m.1 (str key)) root.
Definition get_text (root : list (bytes * Variant)) (key : string) : option bytes :=
  match json_get root key with Some (VText s) => Some s | _ => None end.
Definition get_int (root : list (bytes * Variant)) (key : string) : option Z :=
  match json_get root key with
  | Some (VInt n) => if (- 0x80000000 <=? n) && (n <=? 0x7FFFFFFF) then Some n else None
  | _ => None
  end.
Definition get_bool (root : list (bytes * Variant)) (key : string) : option bool :=
  match json_get root key with Some (VBool b) => Some b | _ => None end.
Definition get_object (root : list (bytes * Variant)) (key : string) : option (list (bytes * Variant)) :=
  match json_get root key with Some (VObject o) => Some o | _ => None end.

Definition clamp (low high n : Z) : Z := Z.max low (Z.min high n).
Definition one (b : bool) : Z := if b then 1 else 0.
Definition is_json (payload : bytes) : bool := match payload with c :: _ => c =? 123 | [] => false end.

(** [value[i] = x] when there is an [x]. *)
Definition put {A} (i : nat) (f : A -> Z) (x : option A) (value : bytes) : bytes :=
  match x with Some a => <[i := f a]> value | None => value end.
Definition given {A} (x : option A) : bool := match x with Some _ => true | None => false end.

Section decode.
Context `{!FloatText} `{!CommandText}.

Definition decode_number (payload : bytes) : option bytes :=
  bits ← strtof (until_nul payload); Some (bits ++ replicate 246 0).

Definition decode_position (payload : bytes) : bytes :=
  if bytes_eqb payload (str "OPEN") then [1; 100]
  else if bytes_eqb payload (str "CLOSE") then [2; 0]
  else if bytes_eqb payload (str "STOP") then [3; 0]
  else [0; clamp 0 100 (atoi (until_nul payload))].

Definition decode_select (payload options : bytes) : bytes :=
  let names := match option_list (parse_options_map options) (str "options") with
               | [] => split_string options 124
               | names => names
               end in
  match (if (length options =? 0)%nat then None else list_find (fun name => name = payload) names) with
  | Some (i, _) => [u8 (Z.of_nat i)]
  | None => [u8 (atoi (until_nul payload))]
  end.

Definition alarm_code (command : bytes) : Z :=
  if bytes_eqb command (str "ARM_HOME") then 1
  else if bytes_eqb command (str "ARM_AWAY") then 2
  else if bytes_eqb command (str "ARM_NIGHT") then 3
  else if bytes_eqb command (str "ARM_VACATION") then 4
  else if bytes_eqb command (str "ARM_CUSTOM_BYPASS") then 5
  else if bytes_eqb command (str "TRIGGERED") then 6
  else if bytes_eqb command (str "PENDING") then 7
  else 0.
Definition decode_alarm (payload : bytes) : option bytes :=
  if is_json payload then
    root ← parse_json payload;
    state ← get_text root "state";
    Some (alarm_code (until_nul state) :: default [] (get_text root "code"))
  else Some [alarm_code payload].

(** ** Fans *)
Definition is_reverse (s : bytes) : bool := bytes_eqb s (str "reverse") || bytes_eqb s (str "REVERSE").

Definition decode_fan_json (payload : bytes) (speed_count : Z) (current : bytes) : option bytes :=
  root ← parse_json payload;
  let state := get_text root "state" in
  let level := get_int root "speed_level" in
  let oscillating := get_bool root "oscillating" in
  let direction := get_text root "direction" in
  let percentage := if 0 <? speed_count then get_int root "percentage" else None in
  let value := if (4 <=? length current)%nat then take 4 current else replicate 4 0 in
  if given state || given level || given oscillating || given direction || given percentage
  then Some
    (put 1 (fun p => u8 (u32 (p * speed_count + 50) / 100)) percentage
      (put 3 (fun d => one (is_reverse d)) direction
        (put 2 one oscillating
          (put 1 u8 level
            (put 0 (fun s => one (parse_on s)) state value)))))
  else None.

(** One byte of the fan's value is replaced; without a current value the rest is zero. *)
Definition set_fan (i : nat) (x : Z) (current : bytes) : bytes :=
  <[i := x]> (if (4 <=? length current)%nat then take 4 current else replicate 4 0).

(** [int] has 32 bits. *)
Definition as_int (n : Z) : Z := if n <? 0x80000000 then n else n - 0x100000000.
Definition fan_level (speed_count percent : Z) : Z :=
  let count := as_int speed_count in
  let level := if 0 <? speed_count then Z.quot (clamp 0 100 percent * count + 50) 100 else 0 in
  clamp 0 count level.

Definition decode_fan (payload options : bytes) (route_kind : CommandRouteKind) (current : bytes) :
    option bytes :=
  let speed_count := option_u32 (parse_options_map options) (str "speed_count") 0 in
  if is_json payload then decode_fan_json payload speed_count current
  else match route_kind with
  | PRIMARY => Some (set_fan 0 (one (parse_on payload)) current)
  | FAN_SPEED =>
    percent ← strtol (until_nul payload);
    let level := fan_level speed_count percent in
    Some (if (4 <=? length current)%nat then set_fan 1 (u8 level) current
          else [one (0 <? level); u8 level; 0; 0])
  | FAN_OSCILLATION =>
    let on := bytes_eqb payload (str "oscillate_on") || bytes_eqb payload (str "ON")
              || bytes_eqb payload (str "on") || bytes_eqb payload (str "1") in
    Some (set_fan 2 (one on) current)
  | FAN_DIRECTION => Some (set_fan 3 (one (is_reverse payload)) current)
  end.

(** ** Lights *)
Definition effect_index (effects : list bytes) (effect : bytes) : option Z :=
  if bytes_eqb effect (str "None") then Some 0
  else match list_find (fun name => name = effect) effects with
       | Some (i, _) => Some (u8 (Z.of_nat i))
       | None => None
       end.

Definition get_color_temp (root : list (bytes * Variant)) : option Z :=
  match json_get root "color_temp" with
  | Some (VInt n) => Some (clamp 0 65535 n)
  | Some (VReal bits) => Some (clamp_u16 bits)
  | _ => None
  end.

Definition put_color (color : option (list (bytes * Variant))) (value : bytes) : bytes :=
  match color with
  | None => value
  | Some c =>
    let channel key := default 0 (get_int c key) in
    let '(hue, sat, brightness) := rgb_to_hsv (channel "r"%string) (channel "g"%string) (channel "b"%string) in
    let value := <[3%nat := sat]> (<[2%nat := hue]> value) in
    if at_ value 1 =? 0 then <[1%nat := brightness]> value else value
  end.

Definition decode_light_json (any_effect : bool) (payload options : bytes) : option bytes :=
  root ← parse_json payload;
  let effects := option_list (parse_options_map options) (str "effects") in
  let state := get_text root "state" in
  let brightness := get_int root "brightness" in
  let effect := get_text root "effect" in
  let color := get_object root "color" in
  let color_temp := get_color_temp root in
  let white := get_int root "white" in
  let index := effect ≫= effect_index effects in
  let updated := given brightness || given effect || given color || given color_temp || given white in
  let understood := given state || given brightness || given index || any_effect && given effect
                    || given color || given color_temp || given white in
  let value :=
    put 8 (clamp 0 255) white
      (put 7 (fun ct => Z.land (Z.shiftr ct 8) 0xFF) color_temp
        (put 6 (fun ct => Z.land ct 0xFF) color_temp
          (put_color color
            (put 4 id index
              (put 1 (clamp 0 255) brightness
                (put 0 (fun s => one (parse_on s)) state (replicate 9 0))))))) in
  let value := if negb (given state) && updated then <[0%nat := 1]> value else value in
  if understood then Some value else None.

Definition decode_light (any_effect : bool) (payload options : bytes) : option bytes :=
  if is_json payload then decode_light_json any_effect payload options
  else Some (let on := parse_on payload in [one on; if on then 255 else 0; 0; 0; 0; 0; 0; 0; 0]).

Definition decode_command_payload_ (any_effect : bool) (entity : espnow_entity_schema_t)
    (route_kind : CommandRouteKind) (payload current_value : bytes) : option bytes :=
  let options := entity_options entity in
  match field_type_of (entity_type entity) with
  | Some FIELD_TYPE_SWITCH => Some [one (parse_on payload)]
  | Some FIELD_TYPE_NUMBER => decode_number payload
  | Some FIELD_TYPE_TEXT => Some payload
  | Some (FIELD_TYPE_COVER | FIELD_TYPE_VALVE) => Some (decode_position payload)
  | Some FIELD_TYPE_LOCK =>
    Some [one (bytes_eqb payload (str "LOCK") || bytes_eqb payload (str "LOCKED"))]
  | Some FIELD_TYPE_SELECT => Some (decode_select payload options)
  | Some FIELD_TYPE_ALARM => decode_alarm payload
  | Some FIELD_TYPE_FAN => decode_fan payload options route_kind current_value
  | Some FIELD_TYPE_LIGHT => decode_light any_effect payload options
  | Some FIELD_TYPE_BUTTON => Some [1]
  | _ => None
  end.
End decode.
