(* ===== verification/RemoteComponent.v ===== *)
(** * RemoteComponent: the remote component around the protocol

    Models [class ESPNowLRRemote]
    ([src/device_code/components/esp_tree_remote/esp_tree_remote.h/.cpp]): the
    entities of the device and how their states and commands are laid out, the
    table of ESP-NOW peers, the queue of received frames, [setup] and [loop].  The
    entities themselves are the class [DeviceEnv]; an entity is the number of its
    object.  The vectors [command_targets_], [cover_command_targets_], ... are one
    list [targets_] with the type of each entity; those of sensors and events are
    never read.  The callback [set_command_fn] installs is part of the world the
    protocol object runs in, the one for sending is a separate operation.
    Wi-Fi and ESP-NOW start-up and the texts of the log are left out. *)
From stdpp Require Import pretty.
From S2P Require Import Prelude Wire Crypto OtaManager BridgeSession BridgeComponent EntityText EntityCommand IncrementBuffer FileReceiver OTAFlashHandler RemoteSession RemoteProtocol RemoteLoop.

Import ESPNowOTAManager (dec).

(** ** Entities *)
Inductive ColorMode :=
  | ON_OFF | BRIGHTNESS | WHITE | COLOR_TEMPERATURE | COLD_WARM_WHITE | RGB | RGB_WHITE
  | RGB_COLOR_TEMPERATURE | RGB_COLD_WARM_WHITE.
#[export] Instance color_mode_dec : EqDecision ColorMode.
Proof. solve_decision. Defined.

Record FanTraits := {
  supports_speed : bool;
  supported_speed_count : Z;
  supports_oscillation : bool;
  supports_direction : bool;
  preset_modes : option (list bytes)
}.

(** The mireds are printed with [std::to_string]; no effects means that they are not supported. *)
Record LightTraits := {
  supported_modes : list ColorMode;
  min_mireds : bytes;
  max_mireds : bytes;
  effect_names : list bytes
}.

(** [limits] of a number are printed with [%g]. *)
Inductive DeviceKind :=
  | Sensor
  | Switch
  | BinarySensor
  | Button
  | Cover
  | Lock
  | Number (min max step : bytes)
  | Valve
  | AlarmControlPanel (features : Z) (requires_code requires_code_to_arm : bool)
  | Event (event_types : list bytes)
  | Fan (traits : FanTraits)
  | Light (traits : LightTraits)
  | Select (names : list bytes)
  | Text
  | TextSensor.

Record Device := { device_name : bytes; device_unit : bytes; device_kind : DeviceKind }.

Definition kind_type (k : DeviceKind) : espnow_field_type_t :=
  match k with
  | Sensor => FIELD_TYPE_SENSOR | Switch => FIELD_TYPE_SWITCH | BinarySensor => FIELD_TYPE_BINARY
  | Button => FIELD_TYPE_BUTTON | Cover => FIELD_TYPE_COVER | Lock => FIELD_TYPE_LOCK
  | Number _ _ _ => FIELD_TYPE_NUMBER | Valve => FIELD_TYPE_VALVE
  | AlarmControlPanel _ _ _ => FIELD_TYPE_ALARM | Event _ => FIELD_TYPE_EVENT | Fan _ => FIELD_TYPE_FAN
  | Light _ => FIELD_TYPE_LIGHT | Select _ => FIELD_TYPE_SELECT | Text => FIELD_TYPE_TEXT
  | TextSensor => FIELD_TYPE_TEXT_SENSOR
  end.

(** ** Options of the schema *)
Definition append_option_ (key : string) (value options : bytes) : bytes :=
  (if (length options =? 0)%nat then [] else options ++ [59]) ++ str key ++ [61] ++ value.

(** Items joined by a separator. *)
Fixpoint join (sep : Z) (items : list bytes) : bytes :=
  match items with
  | [] => []
  | [item] => item
  | item :: items => item ++ [sep] ++ join sep items
  end.

Definition flag (b : bool) : bytes := str (if b then "1" else "0").

Definition light_supported_color_modes_ (t : LightTraits) : bytes :=
  let has mode := bool_decide (mode ∈ supported_modes t) in
  join 124
    ((if has ON_OFF then [str "onoff"] else []) ++
     (if has BRIGHTNESS then [str "brightness"] else []) ++
     (if has WHITE then [str "white"] else []) ++
     (if has COLOR_TEMPERATURE || has COLD_WARM_WHITE then [str "color_temp"] else []) ++
     (if has RGB then [str "rgb"] else []) ++
     (if has RGB_WHITE || has RGB_COLOR_TEMPERATURE then [str "rgbw"] else []) ++
     (if has RGB_COLD_WARM_WHITE then [str "rgbww"] else [])).

Definition fan_schema_options_ (t : FanTraits) : bytes :=
  let speeds := if supports_speed t then Z.max 0 (supported_speed_count t) else 0 in
  let options :=
    append_option_ "direction" (flag (supports_direction t))
      (append_option_ "oscillation" (flag (supports_oscillation t))
        (append_option_ "speed_count" (dec speeds) [])) in
  match preset_modes t with
  | Some presets => append_option_ "presets" (join 124 presets) options
  | None => options
  end.

Definition light_schema_options_ (t : LightTraits) : bytes :=
  let has mode := bool_decide (mode ∈ supported_modes t) in
  let options := append_option_ "color_modes" (light_supported_color_modes_ t) [] in
  let options :=
    if has COLOR_TEMPERATURE || has COLD_WARM_WHITE || has RGB_COLOR_TEMPERATURE
    then append_option_ "max_mireds" (max_mireds t) (append_option_ "min_mireds" (min_mireds t) options)
    else options in
  if (length (effect_names t) =? 0)%nat then options
  else append_option_ "effects" (join 124 (effect_names t)) options.

(** The options of a number and of an alarm are written to a buffer of 96 characters. *)
Definition snprintf_96 (s : bytes) : bytes := take 95 s.

Definition kind_options (k : DeviceKind) : bytes :=
  match k with
  | Number lo hi step => snprintf_96 (str "min=" ++ lo ++ str ";max=" ++ hi ++ str ";step=" ++ step)
  | AlarmControlPanel features requires_code requires_code_to_arm =>
    snprintf_96 (str "features=" ++ dec features ++ str ";requires_code=" ++ flag requires_code ++
                 str ";requires_code_to_arm=" ++ flag requires_code_to_arm)
  | Event types => str "options=" ++ join 124 types
  | Fan traits => fan_schema_options_ traits
  | Light traits => light_schema_options_ traits
  | Select names => str "options=" ++ join 124 names
  | _ => []
  end.

(** ** States, as the bytes that are published *)

(** The colour is what [rgb_to_hsv_u8] computes; colour temperature and white are the
    clamped integers, the position is rounded to percent. *)
Inductive EntityState :=
  | FloatState (bits : bytes)
  | OnOffState (on : bool)
  | Pressed
  | PositionState (percent : Z)
  | LockState (locked jammed : bool)
  | AlarmState (code : Z)
  | EventState (event_type : bytes)
  | FanState (on : bool) (speed : Z) (oscillating reverse : bool)
  | LightState (on : bool) (hue sat val effect mode ct white : Z)
  | SelectState (index : Z)
  | TextState (text : bytes).

Definition clamp_u8 (value : Z) : Z := clamp 0 255 value.
Definition encode_state (s : EntityState) : bytes :=
  match s with
  | FloatState bits => take 4 bits
  | OnOffState on => [one on]
  | Pressed => [1]
  | PositionState percent => [clamp_u8 percent]
  | LockState locked jammed => [if locked then 1 else if jammed then 2 else 0]
  | AlarmState code => [u8 code]
  | EventState event_type => event_type
  | FanState on speed oscillating reverse => [one on; clamp_u8 speed; one oscillating; one reverse]
  | LightState on hue sat val effect mode ct white =>
    [one on; val; hue; sat; Z.min 255 effect; u8 mode; Z.land ct 0xFF; Z.land (Z.shiftr ct 8) 0xFF; white]
  | SelectState index => [u8 index]
  | TextState text => text
  end.

Definition is_nan (bits : bytes) : bool :=
  let n := le_num (take 4 bits) in
  (Z.land (Z.shiftr n 23) 0xFF =? 0xFF) && negb (Z.land n 0x7FFFFF =? 0).

(** What is published when the entity is registered. *)
Definition initial_state (s : EntityState) : bool :=
  match s with
  | FloatState bits => negb (is_nan bits)
  | Pressed | EventState _ => false
  | TextState text => negb (length text =? 0)%nat
  | _ => true
  end.

(** ** Calls to the entities *)
Inductive PositionCommand := OpenCommand | CloseCommand | StopCommand | SetPosition (percent : Z).
Inductive AlarmCommand :=
  | ArmHome | ArmAway | ArmNight | ArmVacation | ArmCustomBypass | Triggered | Pending | Disarm.

(** The colour of a light is the three octets [hsv_u8_to_rgb] is applied to. *)
Inductive Action :=
  | TurnOn
  | TurnOff
  | PositionCall (c : PositionCommand)
  | LockCall (locked : bool)
  | NumberCall (bits : bytes)
  | AlarmCall (command : AlarmCommand) (code : option bytes)
  | FanCall (on : bool) (speed : option Z) (oscillating reverse : option bool)
  | LightCall (on : bool) (brightness : option Z) (hsv : option (Z * Z * Z)) (effect ct white : option Z)
  | SelectCall (index : Z)
  | TextCall (text : bytes)
  | PressCall.

Definition POSITION_COMMAND_OPEN := 1.
Definition POSITION_COMMAND_CLOSE := 2.
Definition POSITION_COMMAND_STOP := 3.
Definition position_call (value : bytes) : PositionCommand :=
  if (2 <=? length value)%nat then
    if at_ value 0 =? POSITION_COMMAND_OPEN then OpenCommand
    else if at_ value 0 =? POSITION_COMMAND_CLOSE then CloseCommand
    else if at_ value 0 =? POSITION_COMMAND_STOP then StopCommand
    else SetPosition (at_ value 1)
  else SetPosition (at_ value 0).

Definition alarm_call (code : Z) : AlarmCommand :=
  match code with
  | 1 => ArmHome | 2 => ArmAway | 3 => ArmNight | 4 => ArmVacation | 5 => ArmCustomBypass
  | 6 => Triggered | 7 => Pending | _ => Disarm
  end.

(** What is only set when the value is long enough. *)
Definition if_longer {A} (n : nat) (value : bytes) (x : A) : option A :=
  if (n <? length value)%nat then Some x else None.
Definition nonzero (value : bytes) (i : nat) : bool := negb (at_ value i =? 0).

(** The call a value makes to an entity of the type, if any. *)
Definition action_of (type : espnow_field_type_t) (value : bytes) : option Action :=
  match type with
  | FIELD_TYPE_SWITCH => Some (if nonzero value 0 then TurnOn else TurnOff)
  | FIELD_TYPE_COVER | FIELD_TYPE_VALVE => Some (PositionCall (position_call value))
  | FIELD_TYPE_LOCK => Some (LockCall (at_ value 0 =? 1))
  | FIELD_TYPE_NUMBER => if (length value <? 4)%nat then None else Some (NumberCall (take 4 value))
  | FIELD_TYPE_ALARM => Some (AlarmCall (alarm_call (at_ value 0)) (if_longer 1 value (drop 1 value)))
  | FIELD_TYPE_FAN =>
    Some (FanCall (nonzero value 0) (if_longer 1 value (at_ value 1)) (if_longer 2 value (nonzero value 2))
            (if_longer 3 value (nonzero value 3)))
  | FIELD_TYPE_LIGHT =>
    Some (LightCall (nonzero value 0) (if_longer 1 value (at_ value 1))
            (if_longer 3 value (at_ value 2, at_ value 3, at_ value 1)) (if_longer 4 value (at_ value 4))
            (if_longer 7 value (Z.lor (at_ value 6) (Z.shiftl (at_ value 7) 8)))
            (if_longer 8 value (at_ value 8)))
  | FIELD_TYPE_SELECT => Some (SelectCall (at_ value 0))
  | FIELD_TYPE_TEXT => Some (TextCall value)
  | FIELD_TYPE_BUTTON => Some PressCall
  | _ => None
  end.

(** ** The component *)
Record Target := { target_type : espnow_field_type_t; target_index : Z; target_object : Z }.

(** The order in which [process_command_target_] goes through the entities. *)
Definition command_order : list espnow_field_type_t :=
  [FIELD_TYPE_SWITCH; FIELD_TYPE_COVER; FIELD_TYPE_LOCK; FIELD_TYPE_NUMBER; FIELD_TYPE_VALVE;
   FIELD_TYPE_ALARM; FIELD_TYPE_FAN; FIELD_TYPE_LIGHT; FIELD_TYPE_SELECT; FIELD_TYPE_TEXT;
   FIELD_TYPE_BUTTON].
Definition same_type (a b : espnow_field_type_t) : bool := field_type_code a =? field_type_code b.

Fixpoint find_target (types : list espnow_field_type_t) (targets : list Target) (field_index : Z) :
    option Target :=
  match types with
  | [] => None
  | type :: types =>
    match find (fun t => same_type (target_type t) type && (target_index t =? field_index)) targets with
    | Some t => Some t
    | None => find_target types targets field_index
    end
  end.

(** The settings the configuration of the device fixes. *)
Record Settings := {
  psk_ : bytes;
  settings_network_id : bytes;
  settings_esphome_name : bytes;
  settings_node_label : bytes;
  settings_heartbeat_interval : Z;
  settings_relay_enabled : bool;
  settings_max_hops : Z;
  settings_max_discover_pending : Z;
  settings_route_ttl_seconds : Z;
  settings_preferred_parents : list bytes
}.

Record ESPNowLRRemote := {
  protocol_ : RemoteProtocol;
  targets_ : list Target;
  settings : Settings;
  sta_mac_ : bytes;
  protocol_ready_ : bool;
  transport_ready_ : bool;
  dynamic_schema_options_refreshed_ : bool;
  rx_packets_ : Z;
  rx_dropped_ : Z;
  tx_ok_ : Z;
  tx_fail_ : Z;
  rolling_airtime_ : AirtimeStats;
  airtime_window_start_ms_ : Z;
  pending_rx_frames_ : list PendingRxFrame;
  peer_last_used_ms_ : list (bytes * Z)
}.
#[export] Instance eta_remote_component : Eta ESPNowLRRemote := fun r =>
  Build_ESPNowLRRemote (protocol_ r) (targets_ r) (settings r) (sta_mac_ r) (protocol_ready_ r)
    (transport_ready_ r) (dynamic_schema_options_refreshed_ r) (rx_packets_ r) (rx_dropped_ r)
    (tx_ok_ r) (tx_fail_ r) (rolling_airtime_ r) (airtime_window_start_ms_ r) (pending_rx_frames_ r)
    (peer_last_used_ms_ r).

Definition no_airtime : AirtimeStats :=
  {| tx_packets := 0; rx_packets := 0; tx_airtime_us := 0; rx_airtime_us := 0; rssi_sum := 0;
     rssi_count := 0 |}.
Definition new_remote_component (c : Settings) : ESPNowLRRemote :=
  {| protocol_ := new_remote; targets_ := []; settings := c; sta_mac_ := replicate 6 0;
     protocol_ready_ := false; transport_ready_ := false; dynamic_schema_options_refreshed_ := false;
     rx_packets_ := 0; rx_dropped_ := 0; tx_ok_ := 0; tx_fail_ := 0; rolling_airtime_ := no_airtime;
     airtime_window_start_ms_ := 0; pending_rx_frames_ := []; peer_last_used_ms_ := [] |}.

Definition MAX_PENDING_RX_FRAMES : nat := 16.
Definition AIRTIME_REPORT_INTERVAL_MS := 30000.

(** ** The device the component runs on *)
Class DeviceEnv (W : Type) := {
  device : Z -> W -> Device;
  device_state : Z -> W -> option EntityState;
  perform : Z -> Action -> W -> W;
  device_build_epoch : W -> Z
}.

(** The entities and the platform under them. *)
Abbreviation World W := (list Target * W)%type.

Section owned.
Context {W : Type} `{!RemoteEnv W} `{!DeviceEnv W}.

Definition process_command_target_ (field_index : Z) (value : bytes) (w : World W) : bool * World W :=
  if (length value =? 0)%nat then (false, w)
  else match find_target command_order w.1 field_index with
  | None => (false, w)
  | Some t => match action_of (target_type t) value with
              | None => (false, w)
              | Some action => (true, (w.1, perform (target_object t) action w.2))
              end
  end.

Definition below {A} (f : W -> A * W) (w : World W) : A * World W :=
  let '(a, w') := f w.2 in (a, (w.1, w')).

(** The platform the protocol object sees: its commands go to the entities. *)
#[export] Instance owned_env : RemoteEnv (World W) := {|
  env_millis w := env_millis w.2;
  env_delay ms w := (w.1, env_delay ms w.2);
  env_esp_random := below env_esp_random;
  env_fill_random_bytes n := below (env_fill_random_bytes n);
  env_send_fn mac frame := below (env_send_fn mac frame);
  env_command_fn field_index flags value w := (process_command_target_ field_index value w).2;
  esp_wifi_set_channel n := below (esp_wifi_set_channel n);
  esp_wifi_start := below esp_wifi_start;
  esp_wifi_get_channel w := esp_wifi_get_channel w.2;
  wifi_component w := wifi_component w.2;
  env_esp_restart w := (w.1, env_esp_restart w.2);
  env_safe_reboot w := (w.1, env_safe_reboot w.2);
  esp_app_description w := esp_app_description w.2;
  running_partition_size w := running_partition_size w.2;
  esp_partition_read o n w := esp_partition_read o n w.2;
  RemoteSession.chip_id := RemoteSession.chip_id
|}.

#[export] Instance owned_ota `{!OtaPlatform W} : OtaPlatform (World W) := {|
  esp_ota_get_next_update_partition w := esp_ota_get_next_update_partition w.2;
  esp_ota_begin n w := let '(ok, handle, w') := esp_ota_begin n w.2 in (ok, handle, (w.1, w'));
  esp_ota_write h data := below (esp_ota_write h data);
  esp_ota_end h := below (esp_ota_end h);
  esp_ota_set_boot_partition := below esp_ota_set_boot_partition;
  esp_ota_abort h w := (w.1, esp_ota_abort h w.2);
  heap_caps_get_largest_free_block w := heap_caps_get_largest_free_block w.2
|}.
End owned.

Section remote_component.
Context {W : Type} `{!RemoteEnv W} `{!OtaPlatform W} `{Hmac} `{Digests} `{!DeviceEnv W} `{!ComponentEnv W}.
Abbreviation St := (ESPNowLRRemote * W)%type.

Definition this : M St ESPNowLRRemote := gets fst.
Definition set_this (f : ESPNowLRRemote -> ESPNowLRRemote) : M St unit := modify (fun s => (f s.1, s.2)).
Definition now_ms : M St Z := gets (fun s => env_millis s.2).
Definition platform {A} (f : W -> A * W) : M St A := fun s => let '(a, w) := f s.2 in (a, (s.1, w)).

(** A call into the protocol object. *)
Definition in_protocol {A} (m : M (RemoteProtocol * World W) A) : M St A :=
  zoom (fun s => (protocol_ s.1, (targets_ s.1, s.2)))
    (fun t s => (s.1 <| protocol_ := t.1 |> <| targets_ := t.2.1 |>, t.2.2)) m.

(** ** Peers *)
Definition note_peer_activity_ (mac : bytes) : M St unit :=
  now ← now_ms;
  when (negb (length mac =? 0)%nat)
    (set_this (fun r => r <| peer_last_used_ms_ ::= map_put (mac_hex mac) now |>)).

Definition is_peer_protected_ (mac : bytes) (r : ESPNowLRRemote) : bool :=
  if (length mac =? 0)%nat then false
  else
    let p := protocol_ r in
    (parent_valid_ p && bytes_eqb (parent_mac_ p) mac)
    || existsb (fun parent => bytes_eqb parent mac) (settings_preferred_parents (settings r))
    || existsb (fun route => bytes_eqb (route_next_hop_mac route) mac || bytes_eqb (route_leaf_mac route) mac)
         (routes_ p).

(** The loop of [evict_stale_peer_]: the least recently used peer that may go. *)
Definition stale_peer (preferred_mac : bytes) (r : ESPNowLRRemote) (best : option (bytes * Z))
    (entry : bytes * Z) : option (bytes * Z) :=
  match parse_mac_hex_ entry.1 with
  | None => best
  | Some mac =>
    if negb (length preferred_mac =? 0)%nat && bytes_eqb mac preferred_mac then best
    else if is_peer_protected_ mac r then best
    else match best with
         | None => Some entry
         | Some b => if entry.2 <? b.2 then Some entry else best
         end
  end.

Definition evict_stale_peer_ (preferred_mac : bytes) : M St bool :=
  r ← this;
  match foldl (stale_peer preferred_mac r) None (peer_last_used_ms_ r) with
  | None => mret false
  | Some (key, _) =>
    set_this (fun r => r <| peer_last_used_ms_ ::= map_erase key |>);;
    match parse_mac_hex_ key with
    | None => mret false
    | Some mac => platform (esp_now_del_peer mac)
    end
  end.

Definition add_peer_ (mac : bytes) : M St bool :=
  if (length mac =? 0)%nat then mret false
  else
    known ← gets (fun s : St => esp_now_is_peer_exist mac s.2);
    if (known : bool) then note_peer_activity_ mac;; mret true
    else
      added ← platform (esp_now_add_peer mac 0);
      if (added : bool) then note_peer_activity_ mac;; mret true
      else
        evicted ← evict_stale_peer_ mac;
        if negb evicted then mret false
        else
          added ← platform (esp_now_add_peer mac 0);
          if (added : bool) then note_peer_activity_ mac;; mret true else mret false.

Definition send_frame_ (mac frame : bytes) : M St bool :=
  peer ← (if (length mac =? 0)%nat then mret true else add_peer_ mac);
  if negb peer then mret false
  else
    set_this (fun r => r <| rolling_airtime_ ::= fun a =>
      a <| tx_airtime_us ::= fun n => u64 (n + calc_airtime_lr_us_ (length frame)) |>
        <| tx_packets ::= fun n => u32 (n + 1) |> |>);;
    note_peer_activity_ mac;;
    err ← platform (esp_now_send mac frame);
    mret (err_is err ESP_OK).

(** ** Entities *)
Definition publish_entity_state_ (field_index : Z) (value : bytes) : M St unit :=
  in_protocol (on_entity_state_change field_index value).

(** The callback of the entity [field_index]. *)
Definition entity_changed (field_index : Z) (state : EntityState) : M St unit :=
  match state with
  | TextState text => in_protocol (on_entity_text_change field_index text)
  | _ => publish_entity_state_ field_index (encode_state state)
  end.

(** The functions [register_*_entity]. *)
Definition register_device_entity (object : Z) (entity_id : bytes) : M St unit :=
  d ← gets (fun s : St => device object s.2);
  let type := kind_type (device_kind d) in
  idx ← in_protocol (register_entity type (device_name d) (device_unit d) (kind_options (device_kind d)) entity_id);
  set_this (fun r => r <| targets_ ::= fun l =>
    l ++ [{| target_type := type; target_index := idx; target_object := object |}] |>);;
  state ← gets (fun s : St => device_state object s.2);
  match state with
  | Some x => when (initial_state x) (entity_changed idx x)
  | None => mret tt
  end.

Definition refresh_option (t : Target) : M St unit :=
  d ← gets (fun s : St => device (target_object t) s.2);
  in_protocol (set_entity_options (target_index t) (kind_options (device_kind d))).
Definition targets_of (type : espnow_field_type_t) (r : ESPNowLRRemote) : list Target :=
  filter (fun t => same_type (target_type t) type = true) (targets_ r).
Fixpoint for_all_targets (f : Target -> M St unit) (l : list Target) : M St unit :=
  match l with [] => mret tt | t :: l => f t;; for_all_targets f l end.
Definition refresh_dynamic_schema_options_ : M St unit :=
  r ← this;
  for_all_targets refresh_option (targets_of FIELD_TYPE_FAN r);;
  for_all_targets refresh_option (targets_of FIELD_TYPE_LIGHT r).

(** ** Received frames *)
Definition drop_rx : M St unit := set_this (fun r => r <| rx_dropped_ ::= fun n => u32 (n + 1) |>).

Definition handle_received_frame_ (mac data : bytes) (rssi : Z) : M St unit :=
  r ← this;
  if (length mac =? 0)%nat || (length data =? 0)%nat then mret tt
  else
    free ← gets (fun s : St => rx_mutex_free s.2);
    if negb free then drop_rx
    else if (MAX_PENDING_RX_FRAMES <=? length (pending_rx_frames_ r))%nat then drop_rx
    else set_this (fun r => r <| pending_rx_frames_ ::= fun q =>
           q ++ [{| rx_mac := take 6 mac; rx_data := data; rx_rssi := rssi |}] |>).

Definition handle_send_status_ (success : bool) : M St unit :=
  if success then set_this (fun r => r <| tx_ok_ ::= fun n => u32 (n + 1) |>)
  else set_this (fun r => r <| tx_fail_ ::= fun n => u32 (n + 1) |>).

Definition note_rx (frame : PendingRxFrame) (r : ESPNowLRRemote) : ESPNowLRRemote :=
  r <| rx_packets_ ::= fun n => u32 (n + 1) |>
    <| rolling_airtime_ ::= fun a =>
         let a := a <| rx_airtime_us ::= fun n => u64 (n + calc_airtime_lr_us_ (length (rx_data frame))) |>
                    <| rx_packets ::= fun n => u32 (n + 1) |> in
         if rx_rssi frame =? 0 then a
         else a <| rssi_sum ::= Z.add (rx_rssi frame) |> <| rssi_count ::= fun n => u32 (n + 1) |> |>.

Fixpoint drain_frames (pending : list PendingRxFrame) : M St unit :=
  match pending with
  | [] => mret tt
  | frame :: pending =>
    ok ← in_protocol (on_espnow_frame (rx_mac frame) (rx_data frame) (rx_rssi frame));
    (if (ok : bool) then set_this (note_rx frame) else drop_rx);;
    drain_frames pending
  end.

Definition drain_received_frames_ : M St unit :=
  free ← gets (fun s : St => rx_mutex_free s.2);
  if negb free then mret tt
  else
    r ← this;
    set_this (fun r => r <| pending_rx_frames_ := [] |>);;
    drain_frames (pending_rx_frames_ r).

Definition log_airtime_status_ : M St unit :=
  now ← now_ms;
  r ← this;
  if airtime_window_start_ms_ r =? 0 then set_this (fun r => r <| airtime_window_start_ms_ := now |>)
  else if u32 (now - airtime_window_start_ms_ r) <? AIRTIME_REPORT_INTERVAL_MS then mret tt
  else set_this (fun r => r <| airtime_window_start_ms_ := now |> <| rolling_airtime_ := no_airtime |>).

(** ** Set-up and loop *)

(** [radio] says whether the mutex could be made and Wi-Fi and ESP-NOW started, and what
    [init_wifi_and_espnow_] sets as session flags. *)
Fixpoint add_preferred_parents (parents : list bytes) : M St unit :=
  match parents with
  | [] => mret tt
  | mac :: parents => in_protocol (add_preferred_parent mac);; add_preferred_parents parents
  end.

Definition setup_transport_ (radio : option (option Z)) (mac : bytes) : M St bool :=
  match radio with
  | None => mret false
  | Some flags =>
    match flags with Some f => in_protocol (set_session_flags f) | None => mret tt end;;
    set_this (fun r => r <| sta_mac_ := mac |>);;
    in_protocol (set_local_mac mac);;
    r ← this;
    let c := settings r in
    in_protocol (set_relay_config (settings_relay_enabled c) (settings_max_hops c)
      (settings_max_discover_pending c));;
    in_protocol (set_route_ttl (settings_route_ttl_seconds c));;
    add_preferred_parents (settings_preferred_parents c);;
    in_protocol (set_send_fn true);;
    in_protocol (set_command_fn true);;
    set_this (fun r => r <| transport_ready_ := true |>);;
    mret true
  end.

(** The result is [false] when the component marks itself failed. *)
Definition setup (radio : option (option Z)) (mac project_name project_version : bytes) : M St bool :=
  ok ← setup_transport_ radio mac;
  if negb ok then mret false
  else
    r ← this;
    let c := settings r in
    epoch ← gets (fun s : St => device_build_epoch s.2);
    (if negb (length (psk_ c) =? 0)%nat && negb (length (settings_network_id c) =? 0)%nat then
       rc ← in_protocol (init (psk_ c) (settings_network_id c) (settings_esphome_name c)
              (settings_node_label c) epoch project_name project_version (settings_heartbeat_interval c));
       set_this (fun r => r <| protocol_ready_ := rc =? 0 |>)
     else mret tt);;
    r ← this;
    if negb (protocol_ready_ r) then mret false
    else
      refresh_dynamic_schema_options_;;
      set_this (fun r => r <| dynamic_schema_options_refreshed_ := true |>);;
      mret true.

Definition component_loop : M St unit :=
  r ← this;
  when (negb (dynamic_schema_options_refreshed_ r))
    (refresh_dynamic_schema_options_;;
     set_this (fun r => r <| dynamic_schema_options_refreshed_ := true |>));;
  drain_received_frames_;;
  in_protocol loop.
End remote_component.
