(* ===== verification/CommandMeaning.v ===== *)
(** * CommandMeaning: from the text of a command to the call of an entity

    [asks] says, without any encoding, which call of an entity a command text asks
    for.  The bridge turns the text into bytes (EntityCommand), the remote bytes
    into a call (RemoteComponent): the theorems relate both ends, with the
    fragments of the value on the way (RemoteCommand).  The last section is about
    the commands for lights in JSON, which do not arrive as they were meant. *)
From stdpp Require Import pretty.
From S2P Require Import Prelude Wire Crypto OtaManager BridgeSession BridgeComponent EntityText StateJson EntityCommand IncrementBuffer FileReceiver OTAFlashHandler FileReceiverInv OtaReceive Frames Fragments ReceiverWorld RemoteSession RemoteProtocol RemoteLoop RemoteFrames RemoteInv RemoteCommand RemoteComponent.

Import ESPNowOTAManager (dec).

(** ** Option strings *)
Definition free_of (seps : list Z) (s : bytes) : Prop := Forall (fun c => c ∉ seps) s.
#[export] Instance free_of_dec seps s : Decision (free_of seps s).
Proof. unfold free_of. apply _. Defined.

Lemma split_item sep cur item rest : free_of [sep] item ->
  split_loop sep cur (item ++ rest) = split_loop sep (cur ++ item) rest.
Proof.
  intros Hi. revert cur. induction Hi as [|c item Hc _ IH]; intros cur; [by rewrite app_nil_r|].
  cbn. destruct (Z.eqb_spec c sep) as [->|]; [set_solver|]. by rewrite IH, <-app_assoc.
Qed.

Lemma split_join sep items : items <> [] -> Forall (free_of [sep]) items ->
  split_string (join sep items) sep = items.
Proof.
  intros Hne Hi. unfold split_string. induction Hi as [|item items Hc Hi IH]; [done|].
  destruct items as [|next items].
  - cbn. rewrite <-(app_nil_r item) at 1. by rewrite split_item.
  - cbn [join]. rewrite split_item by done. cbn. rewrite Z.eqb_refl. f_equal. by apply IH.
Qed.

Definition pair_text (kv : bytes * bytes) : bytes := kv.1 ++ [61] ++ kv.2.
Definition pair_ok (kv : bytes * bytes) : Prop := free_of [59; 61] kv.1 /\ free_of [59] kv.2.
#[export] Instance pair_ok_dec kv : Decision (pair_ok kv).
Proof. unfold pair_ok. apply _. Defined.

Lemma free_weaken seps seps' s : seps' ⊆ seps -> free_of seps s -> free_of seps' s.
Proof. intros Hs Hf. eapply Forall_impl; [exact Hf|]. set_solver. Qed.

Lemma split_pair kv : pair_ok kv -> split_option (pair_text kv) = Some kv.
Proof.
  intros [Hk _]. unfold split_option, pair_text. destruct kv as [k v]. cbn [fst snd] in *.
  rewrite list_find_app_r.
  - cbn [list_find decide app]. destruct (decide (61 = 61)); [|done]. cbn.
    by rewrite take_app_length, <-Nat.add_1_r, drop_app_add.
  - apply list_find_None. eapply Forall_impl; [exact Hk|]. set_solver.
Qed.

Lemma parse_options_join kvs : kvs <> [] -> Forall pair_ok kvs ->
  parse_options_map (join 59 (pair_text <$> kvs)) = foldl (fun m kv => <[kv.1 := kv.2]> m) ∅ kvs.
Proof.
  intros Hne Hk. unfold parse_options_map. rewrite split_join.
  - clear Hne. generalize (∅ : gmap bytes bytes). induction Hk as [|kv kvs Hkv _ IH]; intros m; [done|].
    cbn. rewrite split_pair by done. destruct kv. apply IH.
  - by destruct kvs.
  - apply Forall_fmap. eapply Forall_impl; [exact Hk|]. intros [k v] [H1 H2]. unfold compose, pair_text, free_of in *.
    cbn [fst snd] in *. rewrite !Forall_app. split_and!; [by apply (free_weaken [59; 61]); [set_solver|]| |done].
    repeat constructor. set_solver.
Qed.

(** The options of the entities whose options the bridge reads. *)
Lemma fan_options_join t :
  fan_schema_options_ t =
  join 59 (pair_text <$>
    [(str "speed_count", dec (if supports_speed t then Z.max 0 (supported_speed_count t) else 0));
     (str "oscillation", flag (supports_oscillation t)); (str "direction", flag (supports_direction t))] ++
    match preset_modes t with Some presets => [(str "presets", join 124 presets)] | None => [] end).
Proof.
  unfold fan_schema_options_, append_option_, pair_text. set (n := dec _).
  destruct (preset_modes t) as [presets|]; cbn -[join n flag]; cbn [join fmap list_fmap]; 
    repeat rewrite <-?app_assoc, <-?app_comm_cons; reflexivity.
Qed.

Lemma join_free sep seps items : sep ∉ seps -> Forall (free_of seps) items -> free_of seps (join sep items).
Proof.
  intros Hs Hi. induction Hi as [|item items Hc Hi IH]; [constructor|].
  destruct items as [|next items]; [done|]. unfold free_of in *. cbn [join].
  rewrite !Forall_app. split_and!; [done|by repeat constructor|exact IH].
Qed.

(** ** Numbers *)
Lemma digits_value_read l acc : digits_value acc l = (read_digits acc l).1.
Proof.
  revert acc. induction l as [|c l IH]; intros acc; [done|]. cbn. by destruct (is_digit c).
Qed.

Lemma is_digit_range c : is_digit c = true -> 48 <= c <= 57.
Proof. unfold is_digit. rewrite andb_true_iff, !Z.leb_le. done. Qed.

Lemma dec_digits n : 0 <= n < 65536 ->
  exists c ds, dec n = c :: ds /\ Forall (fun c => 48 <= c <= 57) (c :: ds) /\ digits_value 0 (c :: ds) = n.
Proof.
  intros Hn. pose proof (decimal_reads_16 n Hn) as H. unfold decimal_reads in H.
  rewrite !andb_true_iff in H. destruct H as [[Hd Hv%Z.eqb_eq] Hl]. destruct (dec n) as [|c ds]; [done|].
  exists c, ds. split; [done|]. rewrite digits_value_read. split; [|done].
  apply Forall_forall. intros x Hx. apply is_digit_range.
  by apply (proj1 (forallb_forall _ _) Hd), list_elem_of_In.
Qed.

Lemma scan_dec n : 0 <= n < 65536 -> scan_decimal (dec n) = Some (false, n).
Proof.
  intros Hn. destruct (dec_digits n Hn) as (c & ds & -> & Hd & Hv). pose proof (Forall_inv Hd) as Hc. cbn beta in Hc.
  assert (skip_space (c :: ds) = c :: ds) as E.
  { cbn. replace (is_space c) with false; [done|]. unfold is_space. symmetry.
    rewrite orb_false_iff, andb_false_iff, Z.eqb_neq, !Z.leb_gt. lia. }
  unfold scan_decimal. rewrite E. rewrite (proj2 (Z.eqb_neq c 45)), (proj2 (Z.eqb_neq c 43)) by lia. cbn [orb].
  replace (is_digit c) with true; [by rewrite Hv|]. symmetry. unfold is_digit. rewrite andb_true_iff, !Z.leb_le. lia.
Qed.

Lemma strtol_dec n : 0 <= n < 65536 -> strtol (dec n) = Some n.
Proof. intros Hn. unfold strtol. rewrite scan_dec by done. cbn. f_equal. lia. Qed.
Lemma strtoul_dec n : 0 <= n < 65536 -> strtoul (dec n) = n.
Proof. intros Hn. unfold strtoul. rewrite scan_dec by done. by rewrite (proj2 (Z.ltb_ge _ _)) by lia. Qed.

Lemma until_nul_free l : Forall (fun c => c <> 0) l -> until_nul l = l.
Proof.
  induction 1 as [|c l Hc _ IH]; [done|]. cbn. destruct (Z.eqb_spec c 0); [done|]. by rewrite IH.
Qed.
Lemma until_nul_dec n : 0 <= n < 65536 -> until_nul (dec n) = dec n.
Proof.
  intros Hn. destruct (dec_digits n Hn) as (c & ds & -> & Hd & _). apply until_nul_free.
  eapply Forall_impl; [exact Hd|]. cbn. lia.
Qed.
Lemma dec_free n seps : 0 <= n < 65536 -> Forall (fun c => c < 48 \/ 57 < c) seps -> free_of seps (dec n).
Proof.
  intros Hn Hs. destruct (dec_digits n Hn) as (c & ds & -> & Hd & _). eapply Forall_impl; [exact Hd|].
  cbn beta. intros x Hx Hin. eapply Forall_forall in Hs; [|exact Hin]. cbn beta in Hs. lia.
Qed.
(** A number is none of the command words. *)
Lemma dec_not_word n word : 0 <= n < 65536 -> (match word with c :: _ => c < 48 \/ 57 < c | [] => True end) ->
  bytes_eqb (dec n) word = false.
Proof.
  intros Hn Hw. destruct (dec_digits n Hn) as (c & ds & -> & Hd & _). apply Forall_inv in Hd. cbn beta in Hd.
  apply bytes_eqb_false. intros <-. lia.
Qed.
Lemma dec_no_json n : 0 <= n < 65536 -> is_json (dec n) = false.
Proof.
  intros Hn. destruct (dec_digits n Hn) as (c & ds & -> & Hd & _). apply Forall_inv in Hd. cbn beta in Hd.
  cbn. apply Z.eqb_neq. lia.
Qed.

(** ** What a command asks for *)
Definition fan_speeds (t : FanTraits) : Z := if supports_speed t then Z.max 0 (supported_speed_count t) else 0.

(** Kinds the texts of which are not ambiguous: names without separators, at most 256 of them. *)
Definition kind_ok (k : DeviceKind) : Prop :=
  match k with
  | Fan t => fan_speeds t <= 255 /\ Forall (free_of [59]) (default [] (preset_modes t))
  | Select names =>
    names <> [] /\ NoDup names /\ (length names <= 256)%nat /\
    Forall (fun name => name <> [] /\ free_of [59; 124] name) names
  | _ => True
  end.

Definition alarm_texts : list (bytes * AlarmCommand) :=
  [(str "ARM_HOME", ArmHome); (str "ARM_AWAY", ArmAway); (str "ARM_NIGHT", ArmNight);
   (str "ARM_VACATION", ArmVacation); (str "ARM_CUSTOM_BYPASS", ArmCustomBypass);
   (str "TRIGGERED", Triggered); (str "PENDING", Pending); (str "DISARM", Disarm)].

Section meaning.
Context `{Hfloat : !FloatText} `{Hcmd : !CommandText}.

(** [asks kind route current text action]: with the state [current] on the bridge, the text
    asks an entity of the kind for the action. *)
Inductive asks : DeviceKind -> CommandRouteKind -> bytes -> bytes -> Action -> Prop :=
  | asks_switch route cur text : asks Switch route cur text (if parse_on text then TurnOn else TurnOff)
  | asks_cover route cur text c : moves text c -> asks Cover route cur text (PositionCall c)
  | asks_valve route cur text c : moves text c -> asks Valve route cur text (PositionCall c)
  | asks_lock route cur : asks Lock route cur (str "LOCK") (LockCall true)
  | asks_unlock route cur : asks Lock route cur (str "UNLOCK") (LockCall false)
  | asks_number lo hi step route cur text bits (Hbits : strtof (until_nul text) = Some bits) :
      asks (Number lo hi step) route cur text (NumberCall bits)
  | asks_alarm f code arm route cur text command (Hword : (text, command) ∈ alarm_texts) :
      asks (AlarmControlPanel f code arm) route cur text (AlarmCall command None)
  | asks_select names route cur i name (Hname : names !! i = Some name) :
      asks (Select names) route cur name (SelectCall (Z.of_nat i))
  | asks_text route cur text : text <> [] -> asks Text route cur text (TextCall text)
  | asks_press route cur text : asks Button route cur text PressCall
  | asks_fan t on speed osc rev text (Hplain : is_json text = false) (Hspeed : 0 <= speed <= 255) :
      asks (Fan t) PRIMARY (encode_state (FanState on speed osc rev)) text
        (FanCall (parse_on text) (Some speed) (Some osc) (Some rev))
  | asks_fan_speed t on speed osc rev percent (Hpercent : 0 <= percent <= 100) :
      asks (Fan t) FAN_SPEED (encode_state (FanState on speed osc rev)) (dec percent)
        (FanCall on (Some ((percent * fan_speeds t + 50) / 100)) (Some osc) (Some rev))
  | asks_fan_oscillation t on speed osc rev x (Hspeed : 0 <= speed <= 255) :
      asks (Fan t) FAN_OSCILLATION (encode_state (FanState on speed osc rev))
        (str (if x : bool then "oscillate_on" else "oscillate_off"))
        (FanCall on (Some speed) (Some x) (Some rev))
  | asks_fan_direction t on speed osc rev x (Hspeed : 0 <= speed <= 255) :
      asks (Fan t) FAN_DIRECTION (encode_state (FanState on speed osc rev))
        (str (if x : bool then "reverse" else "forward"))
        (FanCall on (Some speed) (Some osc) (Some x))
  | asks_light t route cur text (Hplain : is_json text = false) :
      let level := if parse_on text then 255 else 0 in
      asks (Light t) route cur text
        (LightCall (parse_on text) (Some level) (Some (0, 0, level)) (Some 0) (Some 0) (Some 0))
with moves : bytes -> PositionCommand -> Prop :=
  | moves_open : moves (str "OPEN") OpenCommand
  | moves_close : moves (str "CLOSE") CloseCommand
  | moves_stop : moves (str "STOP") StopCommand
  | moves_to percent : 0 <= percent <= 100 -> moves (dec percent) (SetPosition percent).

Hypothesis strtof_length : forall text bits, strtof text = Some bits -> length bits = 4%nat.

Lemma position_decodes text c : moves text c ->
  position_call (decode_position text) = c /\ decode_position text <> [].
Proof.
  destruct 1 as [| | |n Hn]; [done..|]. unfold decode_position.
  rewrite !dec_not_word by (cbn; lia). cbn [app]. rewrite until_nul_dec by lia. unfold atoi.
  rewrite strtol_dec by lia. cbn. split; [|done]. unfold clamp. do 2 f_equal. lia.
Qed.

Lemma alarm_decodes text command : (text, command) ∈ alarm_texts ->
  decode_alarm text = Some [alarm_code text] /\ alarm_call (alarm_code text) = command.
Proof.
  unfold alarm_texts. rewrite !elem_of_cons.
  intros Hin. repeat destruct Hin as [[= -> ->]|Hin]; try done. by apply elem_of_nil in Hin.
Qed.

Lemma select_decodes names i name : kind_ok (Select names) -> names !! i = Some name ->
  decode_select name (str "options=" ++ join 124 names) = [Z.of_nat i].
Proof.
  intros (Hne & Hnd & Hlen & Hn) Hi. unfold decode_select.
  assert (parse_options_map (str "options=" ++ join 124 names) = {[str "options" := join 124 names]}) as ->.
  { apply (parse_options_join [(str "options", join 124 names)]); [done|]. constructor; [|done].
    split; [by apply (bool_decide_unpack _); vm_compute|]. apply join_free; [set_solver|].
    eapply Forall_impl; [exact Hn|]. intros x [_ Hx]. by apply (free_weaken [59; 124]); [set_solver|]. }
  assert (option_list {[str "options" := join 124 names]} (str "options") = names) as ->.
  { unfold option_list. rewrite lookup_singleton_eq.
    destruct (Nat.eqb_spec (length (join 124 names)) 0) as [E|_].
    - destruct Hn as [|x names [Hx _] _]; [done|]. destruct x; [done|]. by destruct names.
    - apply split_join; [done|]. eapply Forall_impl; [exact Hn|]. intros x [_ Hx].
      by apply (free_weaken [59; 124]); [set_solver|]. }
  destruct names as [|n0 names]; [done|]. cbn [length Nat.eqb app str].
  rewrite (proj2 (list_find_Some _ _ i name)).
  - f_equal. unfold u8. apply lookup_lt_Some in Hi. rewrite Z.mod_small by lia. done.
  - split_and!; [done|done|]. intros j y Hj Hlt ->. by apply (NoDup_lookup _ i j name Hnd Hi) in Hj; lia.
Qed.

Lemma fan_count t : kind_ok (Fan t) ->
  option_u32 (parse_options_map (fan_schema_options_ t)) (str "speed_count") 0 = fan_speeds t.
Proof.
  intros [Hs Hp]. assert (0 <= fan_speeds t) by (unfold fan_speeds; destruct (supports_speed t); lia).
  rewrite fan_options_join, parse_options_join.
  - fold (fan_speeds t). unfold option_u32.
    assert (forall m : gmap bytes bytes, m !! str "speed_count" = Some (dec (fan_speeds t)) ->
      foldl (fun (m : gmap bytes bytes) (kv : bytes * bytes) => <[kv.1 := kv.2]> m) m
        [(str "oscillation", flag (supports_oscillation t)); (str "direction", flag (supports_direction t))]
        !! str "speed_count" = Some (dec (fan_speeds t))) as Hm.
    { intros m Hm. cbn [foldl fst snd]. by rewrite !lookup_insert_ne by done. }
    rewrite foldl_app. cbn [foldl fst snd].
    specialize (Hm (<[str "speed_count" := dec (fan_speeds t)]> ∅) (lookup_insert_eq _ _ _)). cbn [foldl fst snd] in Hm.
    destruct (preset_modes t) as [presets|]; cbn [foldl fst snd]; [rewrite lookup_insert_ne by done|];
      rewrite Hm; apply strtoul_dec; lia.
  - done.
  - assert (forall b, free_of [59] (flag b)) as Hf by (intros []; by apply (bool_decide_unpack _); vm_compute).
    apply Forall_app. split.
    + repeat (constructor; [split; [by apply (bool_decide_unpack _); vm_compute|]|]); [|apply Hf..|constructor].
      fold (fan_speeds t). apply dec_free; [lia|]. constructor; [lia|constructor].
    + destruct (preset_modes t) as [presets|]; [|constructor]. constructor; [|constructor].
      split; [by apply (bool_decide_unpack _); vm_compute|]. by apply join_free; [set_solver|].
Qed.
Lemma fan_level_value t percent : kind_ok (Fan t) -> 0 <= percent <= 100 ->
  u8 (fan_level (fan_speeds t) percent) = (percent * fan_speeds t + 50) / 100.
Proof.
  intros [Hs _] Hp. assert (0 <= fan_speeds t) by (unfold fan_speeds; destruct (supports_speed t); lia).
  unfold fan_level, as_int. rewrite (proj2 (Z.ltb_lt _ 0x80000000)) by lia.
  replace (clamp 0 100 percent) with percent by (unfold clamp; lia).
  assert (0 <= (percent * fan_speeds t + 50) / 100 < fan_speeds t + 1) as Hl
    by (split; [apply Z.div_pos|apply Z.div_lt_upper_bound]; nia).
  destruct (Z.ltb_spec 0 (fan_speeds t)).
  - rewrite Z.quot_div_nonneg by nia. unfold clamp. rewrite Z.min_r, Z.max_r by lia. apply Z.mod_small. lia.
  - replace (fan_speeds t) with 0 by lia. by rewrite Z.mul_0_r.
Qed.

Definition schema_of (k : DeviceKind) (e : espnow_entity_schema_t) : Prop :=
  entity_type e = field_type_code (kind_type k) /\ entity_options e = kind_options k.

Lemma field_type_of_code t : field_type_of (field_type_code t) = Some t.
Proof. by destruct t. Qed.

Lemma fan_value on speed osc rev : 0 <= speed <= 255 ->
  encode_state (FanState on speed osc rev) = [one on; speed; one osc; one rev].
Proof. intros Hs. cbn. unfold clamp_u8, clamp. do 2 f_equal. lia. Qed.

(** What a command text asks for is what its bytes make the entity do. *)
Lemma asks_decodes any_effect k e route cur text action :
  kind_ok k -> schema_of k e -> asks k route cur text action ->
  exists value, decode_command_payload_ any_effect e route text cur = Some value /\ value <> [] /\
    action_of (kind_type k) value = Some action.
Proof.
  intros Hk [Ht Ho] Ha. unfold decode_command_payload_. rewrite Ht, field_type_of_code, Ho.
  destruct Ha; cbn [kind_type kind_options action_of].
  - eexists. split_and!; [done..|]. by destruct (parse_on text).
  - edestruct position_decodes as [Hc Hv]; [done|]. eexists. split_and!; [done..|]. by rewrite Hc.
  - edestruct position_decodes as [Hc Hv]; [done|]. eexists. split_and!; [done..|]. by rewrite Hc.
  - eexists. by split_and!.
  - eexists. by split_and!.
  - unfold decode_number. rewrite Hbits. cbn [mbind option_bind]. pose proof (strtof_length _ _ Hbits) as Hl.
    eexists. split_and!; [done|by destruct bits|]. rewrite length_app, Hl. cbn [Nat.ltb Nat.leb Nat.add].
    by rewrite take_app_length' by done.
  - destruct (alarm_decodes _ _ Hword) as [-> Hc]. eexists. split_and!; [done..|]. cbn. by rewrite Hc.
  - cbn [kind_options] in *. rewrite (select_decodes names i) by done. eexists. by split_and!.
  - eexists. by split_and!.
  - eexists. by split_and!.
  - unfold decode_fan. rewrite Hplain, fan_value by done. eexists. split_and!; [done..|].
    by destruct (parse_on text), osc, rev.
  - unfold decode_fan. rewrite dec_no_json, until_nul_dec, strtol_dec by lia. cbn [mbind option_bind].
    cbv zeta. rewrite fan_count, fan_level_value by done.
    eexists. split_and!; [done|done|]. by destruct on, osc, rev.
  - unfold decode_fan. rewrite fan_value by done. destruct x; eexists; (split_and!; [done..|]); by destruct on, rev.
  - unfold decode_fan. rewrite fan_value by done. destruct x; eexists; (split_and!; [done..|]); by destruct on, osc.
  - unfold decode_light. rewrite Hplain. eexists. split_and!; [done..|]. subst level. by destruct (parse_on text).
Qed.
End meaning.

(** ** All the way to the entity *)
Section actuator.
Context {W : Type} `{!RemoteEnv W} `{!OtaPlatform W} `{!Hmac} `{!Digests} `{!DeviceEnv W}.
Context `{Hfloat : !FloatText} `{Hcmd : !CommandText}.
Hypothesis strtof_length : forall text bits, strtof text = Some bits -> length bits = 4%nat.

(** The calls the entities have got; sending a frame makes none. *)
Context (performed : W -> list (Z * Action)).
Hypothesis perform_recorded : forall object action w,
  performed (perform object action w) = performed w ++ [(object, action)].
Hypothesis send_performs_nothing : forall mac frame w, performed (env_send_fn mac frame w).2 = performed w.

Definition calls_of (targets : list Target) (field_index : Z) (value : bytes) : list (Z * Action) :=
  if (length value =? 0)%nat then []
  else match find_target command_order targets field_index with
       | Some t => match action_of (target_type t) value with
                   | Some action => [(target_object t, action)]
                   | None => []
                   end
       | None => []
       end.

Lemma process_records field_index flags value (w : World W) :
  let w' := env_command_fn field_index flags value w in
  (w'.1, performed w'.2) = (w.1, performed w.2 ++ calls_of w.1 field_index value).
Proof.
  destruct w as [targets w]. cbn. unfold process_command_target_, calls_of. cbn [fst snd].
  destruct (length value =? 0)%nat; [by rewrite app_nil_r|].
  destruct (find_target _ _ _) as [t|]; [|by rewrite app_nil_r].
  destruct (action_of _ _) as [action|]; cbn [fst snd]; [by rewrite perform_recorded|by rewrite app_nil_r].
Qed.

End actuator.

(** ** Lights in JSON *)
Section light.
Context `{Hfloat : !FloatText} `{Hcmd : !CommandText}.

Lemma at_insert_ne i j x (l : bytes) : i <> j -> at_ (<[j := x]> l) i = at_ l i.
Proof. intros Hij. unfold at_. by rewrite !nth_lookup, list_lookup_insert_ne by done. Qed.
Lemma at_insert_eq i x (l : bytes) : (i < length l)%nat -> at_ (<[i := x]> l) i = x.
Proof. intros Hi. unfold at_. by rewrite nth_lookup, list_lookup_insert_eq by done. Qed.
Lemma at_put_ne {A} i j (f : A -> Z) x l : i <> j -> at_ (put j f x l) i = at_ l i.
Proof. intros Hij. destruct x; [by apply at_insert_ne|done]. Qed.
Lemma length_put {A} j (f : A -> Z) x l : length (put j f x l) = length l.
Proof. destruct x; [apply length_insert|done]. Qed.

Lemma put_color_spec color value :
  at_ (put_color color value) 4 = at_ value 4 /\ length (put_color color value) = length value.
Proof.
  destruct color as [c|]; [|done]. unfold put_color. destruct (rgb_to_hsv _ _ _) as [[hue sat] brightness].
  case_match; rewrite ?length_insert, ?at_insert_ne by lia; done.
Qed.

(** The value a JSON command for a light makes, as far as its effect goes. *)
Lemma light_json_effect any_effect payload options root name i :
  parse_json payload = Some root -> get_text root "effect" = Some name ->
  effect_index (option_list (parse_options_map options) (str "effects")) name = Some i ->
  exists value, decode_light_json any_effect payload options = Some value /\
    length value = 9%nat /\ at_ value 4 = i.
Proof.
  intros Hp He Hi. unfold decode_light_json. rewrite Hp. cbn [mbind option_bind]. cbv zeta. rewrite He.
  cbn [mbind option_bind]. rewrite Hi.
  match goal with |- context [if ?u then Some _ else None] =>
    assert (u = true) as -> by (cbn [given]; by rewrite !orb_true_r) end.
  eexists. split; [done|].
  assert (forall b (v : bytes), (length v = 9%nat /\ at_ v 4 = i) ->
    length (if b : bool then <[0%nat := 1]> v else v) = 9%nat /\
    at_ (if b : bool then <[0%nat := 1]> v else v) 4 = i) as Hb.
  { intros b v Hv. destruct b; [|done]. by rewrite length_insert, at_insert_ne. }
  apply Hb. rewrite !length_put, !at_put_ne by lia.
  match goal with |- context [put_color ?c ?v] => destruct (put_color_spec c v) as [-> ->] end.
  split; [by rewrite !length_put|]. cbn [put].
  by rewrite at_insert_eq by (rewrite !length_put; cbn; lia).
Qed.

(** The effect in the JSON of a light that runs the effect numbered [i]. *)
Lemma light_reports value options names i :
  option_list (parse_options_map options) (str "effects") = names -> (i < length names)%nat ->
  length value = 9%nat -> at_ value 4 = Z.of_nat i ->
  member "effect" (JText (match i with O => str "None" | S j => nth j names [] end))
    ∈ light_meaning value options.
Proof.
  intros Hn Hi Hl H4.
  assert (json_utils.option_list (parse_options_map options) (str "effects") = names) as He.
  { unfold option_list in Hn. unfold json_utils.option_list. destruct (_ !! _) as [v|]; [|done].
    destruct (length v =? 0)%nat; [|done]. subst names. cbn in Hi. lia. }
  unfold light_meaning. rewrite He, Hl, H4. destruct (hsv_u8_to_rgb _ _ _) as [[r g] b]. cbv zeta.
  rewrite elem_of_cons, !elem_of_app. do 6 right.
  rewrite (proj2 (Nat.eqb_neq _ _)) by lia. cbn [negb andb Nat.ltb Nat.leb present].
  apply list_elem_of_singleton. do 2 f_equal. destruct i as [|j]; [done|].
  rewrite (proj2 (Z.ltb_lt 0 _)), (proj2 (Z.leb_le _ _)) by lia. cbn [andb]. f_equal. lia.
Qed.

(** C24: What a JSON command does to a light is not what it says.  A command that only turns
    the light on asks the remote for brightness 0, the colour black and effect 0 along with
    it, since every byte the command does not set is sent as 0 and the remote applies all
    nine.  A command that names the [i]th of the announced effects sends [i], while both the
    remote's state and its JSON count effects from 1: a light that runs the effect it was
    sent is reported with the name of the effect before, or with none. *)
Theorem light_json_commands_misread any_effect e route payload root current s :
  entity_type e = field_type_code FIELD_TYPE_LIGHT -> is_json payload = true ->
  parse_json payload = Some root -> get_text root "state" = Some s -> parse_on s = true ->
  (Forall (fun key => json_get root key = None) ["brightness"; "effect"; "color"; "color_temp"; "white"]%string ->
   exists value, decode_command_payload_ any_effect e route payload current = Some value /\
     action_of FIELD_TYPE_LIGHT value =
       Some (LightCall true (Some 0) (Some (0, 0, 0)) (Some 0) (Some 0) (Some 0))) /\
  (forall names i name,
   option_list (parse_options_map (entity_options e)) (str "effects") = names ->
   NoDup names -> (length names <= 256)%nat -> names !! i = Some name -> name <> str "None" ->
   get_text root "effect" = Some name ->
   exists value, decode_command_payload_ any_effect e route payload current = Some value /\
     at_ value 4 = Z.of_nat i /\
     member "effect" (JText (match i with O => str "None" | S j => nth j names [] end))
       ∈ light_meaning value (entity_options e)).
Proof.
  intros Ht Hj Hp Hs Hon. unfold decode_command_payload_, decode_light. rewrite Ht, field_type_of_code, Hj.
  split.
  - intros Hnone. rewrite !Forall_cons in Hnone. destruct Hnone as (Eb & Ee & Ec & Et & Ew & _).
    unfold decode_light_json. rewrite Hp. cbn [mbind option_bind]. cbv zeta. rewrite Hs.
    unfold get_int, get_text, get_object, get_color_temp in *. rewrite Eb, Ee, Ec, Et, Ew.
    cbn [given put put_color mbind option_bind orb negb andb]. rewrite Hon. eexists. by split.
  - intros names i name Hn Hnd Hlen Hi Hne He.
    assert (effect_index names name = Some (Z.of_nat i)) as Hidx.
    { unfold effect_index. rewrite (proj2 (bytes_eqb_false _ _) Hne).
      rewrite (proj2 (list_find_Some _ _ i name)).
      - f_equal. apply lookup_lt_Some in Hi. unfold u8. rewrite Z.mod_small by lia. done.
      - split_and!; [done|done|]. intros j y Hjy Hlt ->. apply (NoDup_lookup _ i j name Hnd Hi) in Hjy. lia. }
    rewrite <-Hn in Hidx.
    destruct (light_json_effect any_effect payload (entity_options e) root name _ Hp He Hidx) as (value & Hd & Hl & H4).
    exists value. split; [done|]. split; [done|]. 
    apply (light_reports value (entity_options e) names i); [done|by eapply lookup_lt_Some|done..].
Qed.
End light.
