(* ===== verification/BridgeOta.v ===== *)
(** * BridgeOta: firmware jobs of the runtime API

    Models the OTA part of [class ESPTreeBridge] of
    [src/device_code/components/esp_tree_bridge/esp_tree_bridge.cpp]: jobs are
    started and aborted, chunks go from the API into the OTA manager, and each
    [loop] reports progress and requests chunks through the transport.  The
    manager's frames go out through the protocol object, as [setup] wires them. *)
From stdpp Require Import pretty sorting.
From S2P Require Import Prelude Wire Crypto OtaManager BridgeSession BridgeProtocol BridgeLoop ProtoMessages WebSocket ApiTransport BridgeComponent.

Import ESPNowOTAManager (Manager).

Definition kOtaMaxIncrementKB : Z := 8.

Section ota.
Context {W : Type} `{!BridgeEnv W} `{!Hmac} `{!SocketEnv W} `{!ComponentEnv W}.
Abbreviation St := (ESPTreeBridge * W)%type.

(** [set_send_frame_fn] and [set_target_reachable_fn] of [setup]. *)
#[export] Instance manager_transport : OtaTransport (BridgeProtocol * W) := {|
  transport_millis s := bridge_millis s.2;
  send_frame_fn leaf type payload s :=
    match packet_type_of type with
    | Some t => send_ota_frame leaf t payload s
    | None => ((ESP_ERR_INVALID_ARG, 0), s)
    end;
  target_reachable_fn leaf s :=
    match get_session leaf s.1 with
    | Some x => s_online x && s_session_key_valid x
    | None => false
    end
|}.

(** A call into the manager, on the protocol object and the world behind it. *)
Definition in_manager {A} (m : Manager) (op : M (Manager * (BridgeProtocol * W)) A) : M St A := fun s =>
  let '(a, (m, (p, w))) := op (m, (protocol_ s.1, s.2)) in
  (a, (s.1 <| ota_manager_ := Some m |> <| protocol_ := p |>, w)).

(** [ota_manager_ == nullptr] or the manager. *)
Definition manager_of (b : ESPTreeBridge) : option Manager := ota_manager_ b.
Definition of_manager {A} (f : Manager -> A) (none : A) (b : ESPTreeBridge) : A :=
  match ota_manager_ b with Some m => f m | None => none end.
Definition tracker_of (f : ESPNowOTAManager.IncrementTracker -> Z) (b : ESPTreeBridge) : Z :=
  of_manager (fun m => f (ESPNowOTAManager.tracker_ m)) 0 b.

Definition api_ota_start (target_mac : bytes) (file_size : Z) (md5_hex filename : bytes)
    (request_id : bytes) : M St (bytes + bytes * Z) :=
  b ← this_bridge;
  match parse_mac_hex_ (clean_mac target_mac) with
  | None => mret (inl (str "invalid target_mac"))
  | Some mac =>
    match get_session mac (protocol_ b) with
    | None => mret (inl (str "remote not found or offline"))
    | Some session =>
      if negb (s_online session) then mret (inl (str "remote not found or offline"))
      else match ota_manager_ b with
      | None => mret (inl (str "ota busy"))
      | Some m =>
        if ESPNowOTAManager.is_busy m then mret (inl (str "ota busy"))
        else match parse_md5_hex_ md5_hex with
        | None => mret (inl (str "invalid md5 hex"))
        | Some md5 =>
          started ← in_manager m (ESPNowOTAManager.start_transfer mac file_size md5
            ESPNOW_FILE_ACTION_OTA_FLASH (s_session_max_payload session)
            (Some (if (length filename =? 0)%nat then str "ota.bin" else until_nul filename)));
          b ← this_bridge;
          let m := default m (ota_manager_ b) in
          if negb started then
            mret (inl (if (length (ESPNowOTAManager.last_error_ m) =? 0)%nat
                       then str "start_transfer failed" else until_nul (ESPNowOTAManager.last_error_ m)))
          else
            let counter := u32 (ota_job_counter_ b + 1) in
            let job_id := hex_encode [Z.land (Z.shiftr counter 8) 255; Z.land counter 255] in
            set_bridge (fun b => b <| ota_job_counter_ := counter |> <| ota_job_id_ := job_id |>
              <| ota_job_state_ := WAITING_FOR_LEAF |> <| ota_request_id_ := request_id |>
              <| ota_target_mac_ := mac |> <| ota_session_id_ := [] |>
              <| ota_last_requested_sequences_ := [] |> <| ota_chunk_request_counter_ := 0 |>
              <| ota_last_status_percent_ := 255 |> <| ota_last_status_ms_ := 0 |>);;
            mret (inr (job_id, ESPNowOTAManager.negotiated_chunk_size_ m))
        end
      end
    end
  end.

Definition set_ota_transport_callbacks : M St unit :=
  set_bridge (fun b =>
    let b := b <| ota_transport_callbacks_ := true |> in
    if negb (job_is (ota_job_state_ b) JOB_IDLE) then b <| ota_manager_prev_public_state_ := [] |> else b).
Definition clear_ota_transport_callbacks : M St unit :=
  set_bridge (fun b => b <| ota_transport_callbacks_ := false |>).

Definition api_ota_abort (job_id : bytes) : M St bool :=
  b ← this_bridge;
  if job_is (ota_job_state_ b) JOB_IDLE then mret false
  else if negb (length job_id =? 0)%nat && negb (bytes_eqb job_id (ota_job_id_ b)) then mret false
  else
    match ota_manager_ b with
    | Some m => when (ESPNowOTAManager.is_busy m)
                  (in_manager m (ESPNowOTAManager.on_source_abort ESPNOW_FILE_ABORT_USER))
    | None => mret tt
    end;;
    set_bridge (fun b => b <| ota_job_state_ := JOB_IDLE |>);;
    mret true.

Definition api_ota_inject_chunk (sequence : Z) (data : bytes) : M St bool :=
  b ← this_bridge;
  if negb (job_is (ota_job_state_ b) TRANSFERRING) then mret false
  else match ota_manager_ b with
  | None => mret false
  | Some m => in_manager m (ESPNowOTAManager.on_source_chunk sequence data)
  end.

Definition api_ota_has_active_job (b : ESPTreeBridge) : bool := negb (job_is (ota_job_state_ b) JOB_IDLE).
Definition api_ota_active_job_id (b : ESPTreeBridge) : bytes :=
  if negb (job_is (ota_job_state_ b) JOB_IDLE) then ota_job_id_ b else [].

(** [std::set] in increasing order. *)
Definition ota_requested_sequences_ (b : ESPTreeBridge) : list Z :=
  of_manager (fun m => merge_sort Z.le (elements
    (ESPNowOTAManager.requested_sequences (ESPNowOTAManager.tracker_ m)))) [] b.

Definition next_ota_chunk_request_id_ : M St bytes :=
  b ← this_bridge;
  let counter := u32 (ota_chunk_request_counter_ b + 1) in
  set_bridge (fun b => b <| ota_chunk_request_counter_ := counter |>);;
  mret (ota_job_id_ b ++ [45] ++ ESPNowOTAManager.dec counter).

(** A new request id for [requested], and the request. *)
Definition request_chunks_ (requested : list Z) : M St unit :=
  id ← next_ota_chunk_request_id_;
  set_bridge (fun b => b <| ota_session_id_ := id |>);;
  b ← this_bridge;
  in_transport (on_ota_chunk_request (ota_job_id_ b) id requested 0 0
    (tracker_of ESPNowOTAManager.current_increment b)
    (tracker_of ESPNowOTAManager.total_increments b)
    (tracker_of ESPNowOTAManager.retransmit_round b)
    (of_manager (fun m => ESPNowOTAManager.buffer_size_kb (ESPNowOTAManager.tracker_ m))
       kOtaMaxIncrementKB b)
    (of_manager ESPNowOTAManager.public_progress_pct_ 0 b)).

Definition api_ota_resend_chunk_request : M St unit :=
  b ← this_bridge;
  when (job_is (ota_job_state_ b) TRANSFERRING && ota_transport_callbacks_ b)
    (set_bridge (fun b => b <| ota_last_requested_sequences_ := [] |>);;
     let requested := ota_requested_sequences_ b in
     when (negb (length requested =? 0)%nat)
       (set_bridge (fun b => b <| ota_last_requested_sequences_ := requested |>);;
        request_chunks_ requested)).

Definition emit_ota_status_callback_ (state : OtaState) (error_detail : bytes) : M St unit :=
  b ← this_bridge;
  when (ota_transport_callbacks_ b)
    (let percent := of_manager ESPNowOTAManager.public_progress_pct_ 0 b in
     let file_size := of_manager ESPNowOTAManager.file_size_ 0 b in
     let bytes_received := if 0 <? file_size then u32 (file_size * percent) / 100 else 0 in
     in_transport (on_ota_status (ota_job_id_ b) state percent bytes_received file_size error_detail)).

Definition set_prev (state : bytes) : M St unit :=
  set_bridge (fun b => b <| ota_manager_prev_public_state_ := state |>).
Definition end_job (state : OtaJobState) (prev : bytes) : M St unit :=
  set_bridge (fun b => b <| ota_job_state_ := state |> <| ota_manager_prev_public_state_ := prev |>
    <| ota_last_requested_sequences_ := [] |>).

(** [emit_ota_events_], state [WAITING_FOR_LEAF]. *)
Definition emit_waiting : M St unit :=
  b ← this_bridge;
  match ota_manager_ b with
  | None =>
    emit_ota_status_callback_ OTA_STATE_FAILED (str "OTA transfer failed before leaf accepted");;
    end_job JOB_IDLE []
  | Some m =>
    if ESPNowOTAManager.is_busy m
       && bytes_eqb (ESPNowOTAManager.public_state_ m) (str "TRANSFERRING")
       && negb (bytes_eqb (ota_manager_prev_public_state_ b) (str "TRANSFERRING")) then
      now ← now_ms;
      let requested := ota_requested_sequences_ b in
      set_bridge (fun b => b <| ota_job_state_ := TRANSFERRING |>
        <| ota_manager_prev_public_state_ := str "TRANSFERRING" |>
        <| ota_last_requested_sequences_ := requested |> <| ota_last_status_percent_ := 255 |>
        <| ota_last_status_ms_ := now |>);;
      in_transport (on_ota_accepted (ota_request_id_ b) (ota_job_id_ b) (mac_display (ota_target_mac_ b))
        (ESPNowOTAManager.negotiated_chunk_size_ m)
        (ESPNowOTAManager.total_chunks (ESPNowOTAManager.tracker_ m)) 6);;
      request_chunks_ requested
    else if negb (ESPNowOTAManager.is_busy m) then
      emit_ota_status_callback_ OTA_STATE_FAILED (str "OTA transfer failed before leaf accepted");;
      end_job JOB_IDLE []
    else set_prev (ESPNowOTAManager.public_state_ m)
  end.

(** [emit_ota_events_], state [TRANSFERRING]: requests for chunks not yet
    requested, then the status. *)
Definition subset_of (requested last : list Z) : bool :=
  forallb (fun seq => existsb (Z.eqb seq) last) requested.

Definition request_if_new : M St unit :=
  b ← this_bridge;
  let requested := ota_requested_sequences_ b in
  let last := ota_last_requested_sequences_ b in
  if (length requested =? 0)%nat then
    set_bridge (fun b => b <| ota_last_requested_sequences_ := [] |>)
  else when ((length last =? 0)%nat || negb (subset_of requested last))
    (set_bridge (fun b => b <| ota_last_requested_sequences_ := requested |>);;
     request_chunks_ requested).

Definition report_status (current_state : bytes) (percent : Z) : M St unit :=
  b ← this_bridge;
  now ← now_ms;
  let verifying := bytes_eqb current_state (str "VERIFYING") in
  when (verifying || (ota_last_status_percent_ b =? 255)
        || (ota_last_status_percent_ b + 10 <=? percent)
        || (5000 <=? u32 (now - ota_last_status_ms_ b)))
    (emit_ota_status_callback_ (if verifying then OTA_STATE_VERIFYING else OTA_STATE_TRANSFERRING) [];;
     set_bridge (fun b => b <| ota_last_status_percent_ := percent |> <| ota_last_status_ms_ := now |>)).

Definition emit_transferring : M St unit :=
  b ← this_bridge;
  match ota_manager_ b with
  | None => set_bridge (fun b => b <| ota_job_state_ := JOB_IDLE |> <| ota_manager_prev_public_state_ := [] |>)
  | Some m =>
    let current_state := ESPNowOTAManager.public_state_ m in
    if bytes_eqb current_state (str "SUCCESS")
       && negb (bytes_eqb (ota_manager_prev_public_state_ b) (str "SUCCESS")) then
      emit_ota_status_callback_ OTA_STATE_SUCCESS [];; end_job JOB_SUCCESS (str "SUCCESS")
    else if bytes_eqb current_state (str "FAIL")
            && negb (bytes_eqb (ota_manager_prev_public_state_ b) (str "FAIL")) then
      emit_ota_status_callback_ OTA_STATE_FAILED (ESPNowOTAManager.last_error_ m);;
      end_job JOB_FAILED (str "FAIL")
    else if negb (ESPNowOTAManager.is_busy m) then end_job JOB_IDLE []
    else
      request_if_new;;
      report_status current_state (ESPNowOTAManager.public_progress_pct_ m);;
      set_prev current_state
  end.

Definition emit_ota_events_ : M St unit :=
  b ← this_bridge;
  if negb (ota_transport_callbacks_ b) then mret tt
  else match ota_job_state_ b with
  | WAITING_FOR_LEAF => emit_waiting
  | TRANSFERRING => emit_transferring
  | _ => mret tt
  end.

(** The calls of [ESPTreeBridge::loop] on the modelled parts. *)
Definition component_loop : M St unit :=
  s ← gets snd;
  set_bridge (fun b => b <| espnow_allowed_ := wifi_is_connected s |>);;
  drain_received_frames_;;
  in_protocol BridgeLoop.loop;;
  expire_state_deliveries_;;
  b ← this_bridge;
  match ota_manager_ b with
  | None => mret tt
  | Some m => in_manager m ESPNowOTAManager.loop;; emit_ota_events_
  end.
End ota.
