(* ===== verification/RuntimeEvents.v ===== *)
(** * RuntimeEvents: what the bridge tells the client of the runtime API

    The encoders of [src/device_code/components/esp_tree_bridge/esp_tree_bridge.cpp]
    behind the runtime API ([api_runtime_encode_*]): the answer to a successful
    authentication, the full snapshot, the heartbeat and the events.  The conversion of a float
    to a double and the identity compiled into the bridge are the class
    [RuntimeEnv]. *)
From stdpp Require Import pretty sorting.
From S2P Require Import Prelude Wire Crypto OtaManager BridgeSession BridgeProtocol BridgeLoop ProtoMessages WebSocket ApiTransport BridgeComponent EntityText.

Class RuntimeEnv (W : Type) := {
  app_name : bytes;
  bridge_friendly_name : bytes;
  bridge_project_name : bytes;
  bridge_project_version : bytes;
  bridge_build_date : bytes;
  bridge_chip_model : Z;
  unix_time : W -> Z;
  format_build_date_ : bytes -> bytes -> bytes;
  float_to_double : bytes -> Z;
  config_closure : bytes -> bytes -> bytes -> W -> Z * W
}.

Definition chip_model_string (model : Z) : bytes := str
  (match model with
   | 1 => "ESP32" | 2 => "ESP32-S2" | 5 => "ESP32-C3" | 9 => "ESP32-S3" | 12 => "ESP32-C2"
   | 13 => "ESP32-C6" | 16 => "ESP32-H2" | 18 => "ESP32-P4" | 20 => "ESP32-C61" | 23 => "ESP32-C5"
   | 33382 => "ESP8266" | _ => "Unknown"
   end)%string.

Definition component_for_type (type : Z) : bytes := str
  (match field_type_of type with
   | Some FIELD_TYPE_SENSOR => "sensor" | Some FIELD_TYPE_SWITCH => "switch"
   | Some FIELD_TYPE_BINARY => "binary_sensor" | Some FIELD_TYPE_BUTTON => "button"
   | Some FIELD_TYPE_NUMBER => "number" | Some FIELD_TYPE_TEXT => "text"
   | Some FIELD_TYPE_TEXT_SENSOR => "text_sensor" | Some FIELD_TYPE_COVER => "cover"
   | Some FIELD_TYPE_LIGHT => "light" | Some FIELD_TYPE_FAN => "fan" | Some FIELD_TYPE_LOCK => "lock"
   | Some FIELD_TYPE_ALARM => "alarm_control_panel" | Some FIELD_TYPE_SELECT => "select"
   | Some FIELD_TYPE_EVENT => "event" | Some FIELD_TYPE_VALVE => "valve"
   | _ => "sensor"
   end)%string.

Definition native_type_for_type (type : Z) : bytes := str
  (match field_type_of type with
   | Some (FIELD_TYPE_SENSOR | FIELD_TYPE_NUMBER) => "float"
   | Some (FIELD_TYPE_SWITCH | FIELD_TYPE_BINARY | FIELD_TYPE_BUTTON | FIELD_TYPE_HUMIDIFIER
           | FIELD_TYPE_DEHUMIDIFIER) => "bool"
   | Some (FIELD_TYPE_TEXT | FIELD_TYPE_TEXT_SENSOR | FIELD_TYPE_SELECT | FIELD_TYPE_TIME
           | FIELD_TYPE_DATETIME) => "string"
   | Some (FIELD_TYPE_LIGHT | FIELD_TYPE_FAN | FIELD_TYPE_COVER | FIELD_TYPE_VALVE
           | FIELD_TYPE_CLIMATE | FIELD_TYPE_LOCK | FIELD_TYPE_ALARM | FIELD_TYPE_EVENT) => "int"
   | None => "float"
   end)%string.

Definition runtime_entity_writable_ (type : Z) : bool :=
  match field_type_of type with
  | Some (FIELD_TYPE_SWITCH | FIELD_TYPE_BUTTON | FIELD_TYPE_NUMBER | FIELD_TYPE_TEXT
          | FIELD_TYPE_SELECT | FIELD_TYPE_LIGHT | FIELD_TYPE_FAN | FIELD_TYPE_COVER
          | FIELD_TYPE_VALVE | FIELD_TYPE_LOCK | FIELD_TYPE_ALARM) => true
  | _ => false
  end.

Definition runtime_schema_hash_ (s : BridgeSession) : bytes :=
  str "sha256:" ++ hex_encode (s_schema_hash s).
Definition runtime_firmware_md5_ (s : BridgeSession) : bytes := hex_encode (firmware_md5 (s_identity s)).

Definition runtime_write_capabilities_ : Writer -> Writer :=
  boolean 1 true ;> boolean 2 true ;> boolean 3 true ;> boolean 4 true ;> boolean 5 true ;> boolean 6 true.

(** The name of an entity in the API. *)
Definition entity_object_id (e : espnow_entity_schema_t) : bytes :=
  if (length (entity_id e) =? 0)%nat then sanitize_object_id (entity_name e) else entity_id e.

Section events.
Context {W : Type} `{!BridgeEnv W} `{!Hmac} `{!RuntimeEnv W} `{!FloatText}.
Abbreviation St := (ESPTreeBridge * W)%type.

Definition runtime_now_unix_ms_ (w : W) : Z :=
  if unix_time w <=? 0 then 0 else u64 (unix_time w * 1000).

Definition runtime_write_entity_state_ (object_id : bytes) (available : bool) (observed_unix_ms : Z)
    (type : Z) (value options : bytes) : Writer -> Writer :=
  string_ 1 object_id ;>
  boolean 2 available ;>
  varint 3 observed_unix_ms ;>
  match field_type_of type with
  | Some (FIELD_TYPE_SWITCH | FIELD_TYPE_BINARY) =>
    boolean 10 (negb (length value =? 0)%nat && negb (at_ value 0 =? 0))
  | Some FIELD_TYPE_LOCK => string_ 13 (lock_state value)
  | Some FIELD_TYPE_ALARM => string_ 13 (alarm_state value)
  | Some (FIELD_TYPE_COVER | FIELD_TYPE_VALVE | FIELD_TYPE_SELECT) => sint64 11 (at_ value 0)
  | Some (FIELD_TYPE_SENSOR | FIELD_TYPE_NUMBER) =>
    fixed64 12 (float_to_double (if (length value <? 4)%nat then replicate 4 0 else take 4 value))
  | Some (FIELD_TYPE_TEXT | FIELD_TYPE_TEXT_SENSOR | FIELD_TYPE_EVENT) => string_ 13 value
  | _ => string_ 13 (state_value_json type value options)
  end.

Definition api_runtime_bridge_mac (b : ESPTreeBridge) : bytes := mac_display (sta_mac_ b).

(** The first ten fields of the bridge's identity. *)
Definition write_bridge_identity (b : ESPTreeBridge) : Writer -> Writer :=
  string_ 1 (api_runtime_bridge_mac b) ;>
  string_ 2 (sanitize_object_id app_name) ;>
  string_ 3 bridge_friendly_name ;>
  string_ 4 (component_network_id_ b) ;>
  string_ 5 (str "ESPHome") ;>
  string_ 6 (str "esp_tree_bridge") ;>
  string_ 7 bridge_project_name ;>
  string_ 8 bridge_project_version ;>
  string_ 9 bridge_build_date ;>
  string_ 10 kRuntimeProtocol.

Definition api_runtime_encode_auth_ok (request_id : bytes) (b : ESPTreeBridge) : bytes :=
  envelope request_id AUTH_OK
    (varint 1 kRuntimeApiVersion ;>
     string_ 2 bridge_friendly_name ;>
     message 3 (write_bridge_identity b) ;>
     message 4 runtime_write_capabilities_).

(** [for (...) w.message(n, ...)]. *)
Definition write_all {A} (items : list A) (builder : A -> Writer -> Writer) (w : Writer) : Writer :=
  foldl (fun w a => builder a w) w items.

Definition session_build_date (s : BridgeSession) : bytes :=
  let i := s_identity s in
  if negb (length (build_date i) =? 0)%nat && negb (length (build_time i) =? 0)%nat
  then format_build_date_ (build_date i) (build_time i) else [].

Definition write_remote_identity (schema_hash : bytes) (s : BridgeSession) : Writer -> Writer :=
  let i := s_identity s in
  let remote_mac := mac_display (s_leaf_mac s) in
  string_ 1 remote_mac ;>
  string_ 2 (esphome_name i) ;>
  string_ 3 (if (length (node_label i) =? 0)%nat then remote_mac else node_label i) ;>
  string_ 4 (str "ESPHome") ;>
  string_ 5 (str "esp_tree_remote") ;>
  string_ 6 (project_name i) ;>
  string_ 7 (project_version i) ;>
  string_ 8 (session_build_date s) ;>
  string_ 9 (runtime_firmware_md5_ s) ;>
  string_ 10 schema_hash ;>
  varint 11 (Z.of_nat (length (s_schema_entities s))) ;>
  string_ 12 (chip_model_string (chip_model i)) ;>
  boolean 13 (s_online s && s_session_key_valid s) ;>
  boolean 14 ((0 <? s_direct_child_count s) || (0 <? s_total_child_count s)).

Definition write_remote_schema (schema_hash : bytes) (s : BridgeSession) : Writer -> Writer :=
  string_ 1 schema_hash ;>
  write_all (filter (fun e => entity_type e <> 0) (s_schema_entities s)) (fun e =>
    message 2
      (string_ 1 (entity_object_id e) ;>
       string_ 2 (component_for_type (entity_type e)) ;>
       string_ 3 (entity_name e) ;>
       string_ 6 (entity_unit e) ;>
       boolean 11 (runtime_entity_writable_ (entity_type e)) ;>
       string_ 12 (native_type_for_type (entity_type e)) ;>
       string_ 13 (entity_options e))).

(** The cached values in the order of their keys. *)
Fixpoint insert_value (e : bytes * EntityValueCache) (l : list (bytes * EntityValueCache)) :
    list (bytes * EntityValueCache) :=
  match l with
  | [] => [e]
  | x :: rest => if string_lt e.1 x.1 then e :: l else x :: insert_value e rest
  end.
Definition values_in_order (b : ESPTreeBridge) : list (bytes * EntityValueCache) :=
  foldr insert_value [] (map_to_list (entity_values_ b)).

Definition write_remote (b : ESPTreeBridge) (w : W) (s : BridgeSession) : Writer -> Writer :=
  let schema_hash := runtime_schema_hash_ s in
  message 1 (write_remote_identity schema_hash s) ;>
  message 2
    (boolean 1 (s_online s) ;>
     string_ 2 (api_runtime_bridge_mac b) ;>
     string_ 3 (mac_display (s_parent_mac s)) ;>
     varint 4 (s_hops_to_bridge s) ;>
     sint32 5 (s_last_rssi s) ;>
     varint 7 (s_last_seen_bridge_uptime_s s) ;>
     string_ 8 (runtime_session_id_ s (component_network_id_ b)) ;>
     varint 9 (s_last_seen_counter s) ;>
     varint 10 (s_uptime_seconds s)) ;>
  message 3 (write_remote_schema schema_hash s) ;>
  write_all
    (filter (fun rec => take 12 rec.1 = mac_hex (s_leaf_mac s) /\ ev_current_value rec.2 <> [])
       (values_in_order b))
    (fun rec =>
       let v := rec.2 in
       message 4 (runtime_write_entity_state_ (entity_object_id (ev_schema v)) (s_online s)
         (runtime_now_unix_ms_ w) (ev_current_type v) (ev_current_value v) (entity_options (ev_schema v)))).

Definition sessions_in_order (p : BridgeProtocol) : list BridgeSession :=
  omap (fun k => sessions_ p !! k) (session_keys p).

Definition api_runtime_encode_full_snapshot (request_id : bytes) (s : St) : bytes :=
  let b := s.1 in
  envelope request_id FULL_SNAPSHOT
    (message 1 (write_bridge_identity b ;> string_ 11 (chip_model_string bridge_chip_model)) ;>
     message 2
       (boolean 1 true ;> sint32 2 0 ;> varint 3 (bridge_uptime_s_ (protocol_ b)) ;>
        varint 4 (get_active_remote_count (protocol_ b))) ;>
     write_all (sessions_in_order (protocol_ b)) (fun x => message 3 (write_remote b s.2 x)) ;>
     varint 4 (runtime_now_unix_ms_ s.2)).

(** One event in a batch. *)
Definition event (field : Z) (builder : Writer -> Writer) : bytes :=
  envelope [] EVENT_BATCH (message 1 (message field builder)).

Definition api_runtime_encode_bridge_heartbeat (s : St) : bytes :=
  let b := s.1 in
  event 10
    (string_ 1 (api_runtime_bridge_mac b) ;>
     varint 2 (runtime_now_unix_ms_ s.2) ;>
     varint 3 (bridge_uptime_s_ (protocol_ b)) ;>
     write_all
       (filter (fun x => s_online x = true /\ s_last_seen_bridge_uptime_s x <> 0)
          (sessions_in_order (protocol_ b)))
       (fun x => message 4
          (string_ 1 (mac_display (s_leaf_mac x)) ;> varint 2 (s_last_seen_bridge_uptime_s x)))).

(** A field of the session, or what is written when there is none. *)
Definition of_session {A} (mac : bytes) (f : BridgeSession -> A) (none : A) (b : ESPTreeBridge) : A :=
  match get_session mac (protocol_ b) with Some s => f s | None => none end.
Definition session_id_of (mac : bytes) (b : ESPTreeBridge) : bytes :=
  of_session mac (fun s => runtime_session_id_ s (component_network_id_ b)) [] b.

Definition api_runtime_encode_topology_changed (mac : bytes) (s : St) : bytes :=
  let b := s.1 in
  event 15
    (string_ 1 (mac_display mac) ;>
     string_ 2 (api_runtime_bridge_mac b) ;>
     string_ 3 (of_session mac (fun x => mac_display (s_parent_mac x)) [] b) ;>
     varint 4 (of_session mac s_hops_to_bridge 0 b) ;>
     sint32 5 (of_session mac s_last_rssi (-127) b) ;>
     varint 6 (runtime_now_unix_ms_ s.2) ;>
     varint 7 (of_session mac s_uptime_seconds 0 b)).

Definition api_runtime_encode_remote_availability (mac : bytes) (online : bool) (reason : bytes)
    (rssi hop_count : Z) (s : St) : bytes :=
  let b := s.1 in
  event 11
    (string_ 1 (mac_display mac) ;>
     boolean 2 online ;>
     string_ 3 (api_runtime_bridge_mac b) ;>
     string_ 4 (session_id_of mac b) ;>
     varint 5 (of_session mac s_last_seen_counter 0 b) ;>
     varint 6 (runtime_now_unix_ms_ s.2) ;>
     sint32 7 rssi ;>
     varint 8 hop_count ;>
     string_ 9 reason ;>
     varint 10 (of_session mac s_uptime_seconds 0 b)).

Definition api_runtime_encode_remote_state (mac : bytes) (entity : espnow_entity_schema_t)
    (value : bytes) (type state_tx_counter : Z) (s : St) : bytes :=
  let b := s.1 in
  let now_ms := runtime_now_unix_ms_ s.2 in
  event 12
    (string_ 1 (mac_display mac) ;>
     string_ 2 (api_runtime_bridge_mac b) ;>
     string_ 3 (session_id_of mac b) ;>
     varint 4 (of_session mac s_last_seen_counter 0 b) ;>
     message 5 (runtime_write_entity_state_ (entity_object_id entity) true now_ms type value
                  (entity_options entity)) ;>
     varint 6 now_ms ;>
     varint 7 state_tx_counter ;>
     varint 8 (entity_index entity)).

Definition api_runtime_encode_remote_schema_changed (mac schema_hash : bytes) (s : St) : bytes :=
  let b := s.1 in
  event 13
    (string_ 1 (mac_display mac) ;>
     string_ 2 (api_runtime_bridge_mac b) ;>
     string_ 3 (session_id_of mac b) ;>
     string_ 4 [] ;>
     match get_session mac (protocol_ b) with
     | None => fun w => w
     | Some x =>
       message 5
         (message 1 (write_remote_identity schema_hash x) ;>
          message 2
            (boolean 1 (s_online x) ;>
             string_ 2 (api_runtime_bridge_mac b) ;>
             string_ 3 (mac_display (s_parent_mac x)) ;>
             varint 4 (s_hops_to_bridge x) ;>
             sint32 5 (s_last_rssi x) ;>
             string_ 8 (session_id_of mac b) ;>
             varint 9 (s_last_seen_counter x)) ;>
          message 3 (write_remote_schema schema_hash x))
     end).
End events.
