(* ===== verification/RuntimeApi.v ===== *)
(** * RuntimeApi: the requests of the runtime API

    The receiving half of [class BridgeApiProtoWsTransport]
    ([src/device_code/components/esp_tree_bridge/bridge_api_proto_ws.cpp]) and the
    functions of [class ESPTreeBridge] ([esp_tree_bridge.cpp]) it calls: a client
    connects, authenticates with an HMAC over the nonce of its connection and
    then sends commands, receipts and firmware.  [registered] and the log of
    transferred bytes are left out; [bridge] is never null. *)
From stdpp Require Import pretty sorting.
From S2P Require Import Prelude Wire Crypto OtaManager BridgeSession BridgeProtocol BridgeLoop ProtoMessages WebSocket ApiTransport BridgeComponent EntityText EntityCommand BridgeOta RuntimeEvents.

(** ** Names of the errors and results *)
Module error.
Definition REMOTE_NOT_FOUND : bytes := str "remote_not_found".
Definition OTA_BUSY : bytes := str "ota_busy".
Definition OTA_NOT_ACTIVE : bytes := str "ota_not_active".
Definition OTA_INVALID_CHUNK : bytes := str "ota_invalid_chunk".
Definition OTA_REJECTED : bytes := str "ota_rejected".
Definition OTA_INVALID_SIZE : bytes := str "ota_invalid_size".
Definition OTA_INVALID_MD5 : bytes := str "ota_invalid_md5".
Definition INTERNAL_ERROR : bytes := str "internal_error".
End error.

Module config_result.
Definition OK : bytes := str "ok".
Definition BUSY : bytes := str "busy".
Definition REJECTED : bytes := str "rejected".
Definition UNSUPPORTED : bytes := str "unsupported".
Definition INVALID_PAYLOAD : bytes := str "invalid_payload".
Definition TIMEOUT : bytes := str "timeout".
Definition NO_SESSION : bytes := str "no_session".
Definition NOT_REMOTE : bytes := str "not_remote".
End config_result.

Inductive CommandStatus :=
  | COMMAND_STATUS_UNSPECIFIED | COMMAND_STATUS_ACCEPTED | COMMAND_STATUS_DELIVERED
  | COMMAND_STATUS_FAILED | COMMAND_STATUS_UNAVAILABLE | COMMAND_STATUS_UNSUPPORTED
  | COMMAND_STATUS_TIMEOUT.
Definition command_status_number (s : CommandStatus) : Z :=
  match s with
  | COMMAND_STATUS_UNSPECIFIED => 0 | COMMAND_STATUS_ACCEPTED => 1 | COMMAND_STATUS_DELIVERED => 2
  | COMMAND_STATUS_FAILED => 3 | COMMAND_STATUS_UNAVAILABLE => 4 | COMMAND_STATUS_UNSUPPORTED => 5
  | COMMAND_STATUS_TIMEOUT => 6
  end.

Definition tolower (c : Z) : Z := if (65 <=? c) && (c <=? 90) then c + 32 else c.
Definition contains (needle hay : bytes) : bool :=
  match find_from needle hay 0 with Some _ => true | None => false end.

Definition ota_start_error_code (message : bytes) : bytes :=
  let text := tolower <$> message in
  if contains (str "not found") text || contains (str "offline") text then error.REMOTE_NOT_FOUND
  else if contains (str "busy") text then error.OTA_BUSY
  else if contains (str "md5") text then error.OTA_INVALID_MD5
  else if contains (str "size") text then error.OTA_INVALID_SIZE
  else if contains (str "reject") text then error.OTA_REJECTED
  else error.INTERNAL_ERROR.

Definition config_result_string_ (result : ConfigAckResult) : bytes :=
  if no_session result then config_result.NO_SESSION
  else if timed_out result then config_result.TIMEOUT
  else if negb (acked result) then config_result.TIMEOUT
  else if cfg_result result =? CFG_RESULT_OK then config_result.OK
  else if cfg_result result =? CFG_RESULT_REJECTED then config_result.REJECTED
  else if cfg_result result =? CFG_RESULT_UNSUPPORTED then config_result.UNSUPPORTED
  else if cfg_result result =? CFG_RESULT_INVALID_PAYLOAD then config_result.INVALID_PAYLOAD
  else if cfg_result result =? CFG_RESULT_BUSY then config_result.BUSY
  else config_result.REJECTED.

(** The answer to the API command names. *)
Definition command_payload (command : bytes) (args : list ParsedCommandArgument) : bytes :=
  let table := [(str "turn_on", str "ON"); (str "turn_off", str "OFF"); (str "press", str "PRESS");
    (str "open", str "OPEN"); (str "close", str "CLOSE"); (str "stop", str "STOP");
    (str "lock", str "LOCK"); (str "unlock", str "UNLOCK"); (str "arm_home", str "ARM_HOME");
    (str "arm_away", str "ARM_AWAY"); (str "arm_night", str "ARM_NIGHT");
    (str "arm_vacation", str "ARM_VACATION"); (str "arm_custom_bypass", str "ARM_CUSTOM_BYPASS");
    (str "disarm", str "DISARM"); (str "trigger", str "TRIGGERED")] in
  let payload := match find (fun e => bytes_eqb command e.1) table with
                 | Some e => e.2
                 | None => match args with arg :: _ => arg_value arg | [] => command end
                 end in
  match args with
  | arg :: _ => if at_ (arg_value arg) 0 =? 123 then arg_value arg else payload
  | [] => payload
  end.

Definition command_route (entity : espnow_entity_schema_t) (command : bytes) : CommandRouteKind :=
  if type_is (entity_type entity) FIELD_TYPE_FAN then
    if bytes_eqb command (str "set_speed") then FAN_SPEED
    else if bytes_eqb command (str "set_oscillation") then FAN_OSCILLATION
    else if bytes_eqb command (str "set_direction") then FAN_DIRECTION
    else PRIMARY
  else PRIMARY.

Section api.
Context {W : Type} `{!BridgeEnv W} `{!Hmac} `{!SocketEnv W} `{!ComponentEnv W} `{!RuntimeEnv W} `{Hfloat : !FloatText} `{Hcmd : !CommandText}.
Context `{!WebDigests}.
Abbreviation St := (ESPTreeBridge * W)%type.

(** ** Commands *)
Record CommandResult := {
  result_status : CommandStatus;
  result_code : bytes;
  result_message : bytes;
  result_session : bytes
}.

Definition find_entity (object_id : bytes) (s : BridgeSession) : option espnow_entity_schema_t :=
  find (fun e => negb (entity_type e =? 0) && bytes_eqb (entity_object_id e) object_id)
    (s_schema_entities s).

(** A command for the entity [e] of the remote [mac]. *)
Definition run_command (mac session_id : bytes) (e : espnow_entity_schema_t)
    (request : ParsedCommandRequest) : M St CommandResult :=
  b ← this_bridge;
  let current := match entity_values_ b !! entity_value_key_ mac e with
                 | Some v => ev_current_value v
                 | None => []
                 end in
  match decode_command_payload_ false e (command_route e (cr_command request))
          (command_payload (cr_command request) (cr_args request)) current with
  | None => mret {| result_status := COMMAND_STATUS_UNSUPPORTED; result_code := str "unsupported_command";
                    result_message := str "Command is not supported for this entity";
                    result_session := session_id |}
  | Some value =>
    sent ← in_protocol (send_command_to_leaf mac (entity_index e) value);
    mret (if negb sent
          then {| result_status := COMMAND_STATUS_FAILED; result_code := str "send_failed";
                  result_message := str "Bridge failed to queue command"; result_session := session_id |}
          else {| result_status := COMMAND_STATUS_ACCEPTED; result_code := []; result_message := [];
                  result_session := session_id |})
  end.

Definition command_result (request : ParsedCommandRequest) : M St CommandResult :=
  b ← this_bridge;
  match parse_mac_hex_ (clean_mac (cr_remote_mac request)) with
  | None => mret {| result_status := COMMAND_STATUS_FAILED; result_code := str "invalid_remote_mac";
                    result_message := str "Invalid remote MAC"; result_session := [] |}
  | Some mac =>
    let unavailable := {| result_status := COMMAND_STATUS_UNAVAILABLE;
      result_code := str "remote_unavailable"; result_message := str "Remote session is unavailable";
      result_session := [] |} in
    match get_session mac (protocol_ b) with
    | None => mret unavailable
    | Some s =>
      if negb (s_online s) || negb (s_session_key_valid s) then mret unavailable
      else
        let session_id := runtime_session_id_ s (component_network_id_ b) in
        match find_entity (cr_object_id request) s with
        | None => mret {| result_status := COMMAND_STATUS_UNSUPPORTED;
            result_code := str "entity_not_found";
            result_message := str "Entity object_id is not in the current remote schema";
            result_session := session_id |}
        | Some e => run_command mac session_id e request
        end
    end
  end.

Definition api_runtime_handle_command (request_id : bytes) (request : ParsedCommandRequest) : M St bytes :=
  r ← command_result request;
  b ← this_bridge;
  mret (envelope request_id COMMAND_RESULT
    (string_ 1 (cr_remote_mac request) ;>
     string_ 2 (cr_object_id request) ;>
     string_ 3 (cr_command request) ;>
     string_ 4 (mac_display (sta_mac_ b)) ;>
     string_ 5 (result_session r) ;>
     varint 6 (command_status_number (result_status r)) ;>
     string_ 7 (result_code r) ;>
     string_ 8 (result_message r))).

(** ** Configuration commands *)

(** [None] when the session takes the configuration, else the immediate result. *)
Definition api_node_config_start (mac_text : bytes) (command : Z) (payload : bytes) (callback : Z) :
    M St (option bytes) :=
  b ← this_bridge;
  match parse_mac_hex_ (clean_mac mac_text) with
  | None => mret (Some config_result.INVALID_PAYLOAD)
  | Some mac =>
    if bytes_eqb mac (take 6 (sta_mac_ b)) then mret (Some config_result.NOT_REMOTE)
    else match get_session mac (protocol_ b) with
    | None => mret (Some config_result.NO_SESSION)
    | Some s =>
      if negb (s_online s) || negb (s_session_key_valid s) then mret (Some config_result.NO_SESSION)
      else
        ok ← in_protocol (send_config_to_leaf mac command payload (Some callback));
        mret (if (ok : bool) then None else Some config_result.NO_SESSION)
    end
  end.

Definition config_result_frame (request_id remote_mac command : bytes) (status : CommandStatus)
    (result : bytes) (b : ESPTreeBridge) : bytes :=
  envelope request_id CONFIG_COMMAND_RESULT
    (string_ 1 remote_mac ;>
     string_ 2 command ;>
     string_ 3 (mac_display (sta_mac_ b)) ;>
     varint 5 (command_status_number status) ;>
     string_ 7 result).

(** The closure [on_config_ack], run with the outcome of the configuration. *)
Definition on_config_ack (request_id remote_mac command : bytes) (outcome : ConfigAckResult) : M St unit :=
  b ← this_bridge;
  let result := config_result_string_ outcome in
  let status :=
    if bytes_eqb result config_result.TIMEOUT || bytes_eqb result config_result.NO_SESSION
    then COMMAND_STATUS_TIMEOUT
    else if bytes_eqb result config_result.BUSY then COMMAND_STATUS_UNAVAILABLE
    else if bytes_eqb result config_result.REJECTED || bytes_eqb result config_result.UNSUPPORTED
            || bytes_eqb result config_result.INVALID_PAYLOAD then COMMAND_STATUS_FAILED
    else COMMAND_STATUS_ACCEPTED in
  in_transport (send_binary (config_result_frame request_id remote_mac command status result b)).

(** The command code and its payload, or the error to report. *)
Definition config_command (request : ParsedConfigCommandRequest) : (bytes * bytes) + (Z * bytes) :=
  let command := cc_command request in
  if bytes_eqb command (str "reboot") then inr (CFG_CMD_REBOOT, [])
  else if bytes_eqb command (str "heartbeat_interval") then
    inr (CFG_CMD_HEARTBEAT_INTERVAL, le_bytes 4 (cc_interval_seconds request))
  else if bytes_eqb command (str "force_rediscover") then inr (CFG_CMD_FORCE_REDISCOVER, [])
  else if bytes_eqb command (str "set_parent_mac") then
    let flags := if cc_clear_parent request then SET_PARENT_MAC_FLAG_CLEAR else 0 in
    let clean := clean_mac (cc_parent_mac request) in
    if (length clean =? 0)%nat then inr (CFG_CMD_SET_PARENT_MAC, flags :: replicate 6 0)
    else match parse_mac_hex_ clean with
         | None => inl (str "invalid_parent_mac", str "Invalid parent MAC")
         | Some mac => inr (CFG_CMD_SET_PARENT_MAC, flags :: mac)
         end
  else if bytes_eqb command (str "relay") then
    inr (CFG_CMD_RELAY, [if cc_relay_enable request then 1 else 0])
  else inl (str "unsupported_config_command", str "Unsupported config command").

Definition api_runtime_handle_config_command (request_id : bytes) (request : ParsedConfigCommandRequest) :
    M St unit :=
  match config_command request with
  | inl (code, message) => in_transport (send_error request_id code message)
  | inr (command, payload) =>
    callback ← platform (config_closure request_id (cc_remote_mac request) (cc_command request));
    immediate ← api_node_config_start (cc_remote_mac request) command payload callback;
    match immediate with
    | None => mret tt
    | Some result =>
      b ← this_bridge;
      let status :=
        if bytes_eqb result config_result.TIMEOUT then COMMAND_STATUS_TIMEOUT
        else if bytes_eqb result config_result.BUSY then COMMAND_STATUS_UNAVAILABLE
        else COMMAND_STATUS_FAILED in
      in_transport (send_binary
        (config_result_frame request_id (cc_remote_mac request) (cc_command request) status result b))
    end
  end.

(** ** Firmware *)
Definition data_of (env : ParsedEnvelope) : bytes := as_string (msg_data env).

Definition handle_ota_start (env : ParsedEnvelope) : M St unit :=
  match parse_ota_start_request (data_of env) with
  | (false, _) =>
    in_transport (send_error (request_id env) (str "invalid_ota_start") (str "Invalid OTA start request"))
  | (true, request) =>
    started ← api_ota_start (os_target_mac request) (os_file_size request) (os_md5 request)
                (os_filename request) (request_id env);
    match started with
    | inl error_msg =>
      in_transport (send_error (request_id env) (ota_start_error_code error_msg)
        (if (length error_msg =? 0)%nat then str "OTA start failed" else error_msg))
    | inr (job_id, _) =>
      in_transport (send_binary (encode_ota_status [] job_id OTA_STATE_ANNOUNCING 0 0
        (os_file_size request) []))
    end
  end.

(** The conditions on a chunk of a batch. *)
Definition chunk_valid (t : Transport) (chunk : ParsedOtaChunk) : bool :=
  let payload := as_string (oc_payload chunk) in
  bool_decide (oc_sequence chunk ∈ ota_pending_sequences t)
  && negb (length payload =? 0)%nat
  && (Z.of_nat (length payload) <=? ota_max_chunk_size t)
  && (oc_offset chunk =? oc_sequence chunk * ota_max_chunk_size t)
  && (Z.land (oc_flags chunk) (u32 (Z.lnot 1)) =? 0)
  && (crc32_bytes payload =? oc_crc32 chunk).

Definition take_sequence (sequence : Z) (t : Transport) : Transport :=
  let t := t <| ota_pending_sequences ::= fun s => s ∖ {[sequence]} |> in
  if bool_decide (ota_pending_sequences t = ∅) then t <| ota_chunk_request_id := [] |> else t.

Fixpoint handle_chunks (request_id job_id : bytes) (chunks : list ParsedOtaChunk) : M St unit :=
  match chunks with
  | [] => mret tt
  | chunk :: chunks =>
    b ← this_bridge;
    accepted ← (if negb (chunk_valid (api_proto_ws_ b) chunk) then mret false
                else api_ota_inject_chunk (oc_sequence chunk) (as_string (oc_payload chunk)));
    if negb (accepted : bool) then
      in_transport (send_error request_id error.OTA_INVALID_CHUNK (str "OTA chunk rejected"));;
      api_ota_abort job_id;; mret tt
    else
      in_transport (set_transport (take_sequence (oc_sequence chunk)));;
      handle_chunks request_id job_id chunks
  end.

Definition handle_ota_chunk_batch (env : ParsedEnvelope) : M St unit :=
  match parse_ota_chunk_batch (data_of env) with
  | (false, _) =>
    in_transport (send_error (request_id env) error.OTA_INVALID_CHUNK (str "Invalid OTA chunk batch"))
  | (true, batch) =>
    b ← this_bridge;
    let t := api_proto_ws_ b in
    if negb (api_ota_has_active_job b) || negb (bytes_eqb (ob_job_id batch) (api_ota_active_job_id b)) then
      in_transport (send_error (request_id env) error.OTA_NOT_ACTIVE (str "No active OTA job for batch"))
    else if negb (bytes_eqb (ob_response_request_id batch) (ota_chunk_request_id t)) then
      api_ota_resend_chunk_request
    else if ota_max_chunks_per_batch t <? Z.of_nat (length (ob_chunks batch)) then
      in_transport (send_error (request_id env) error.OTA_INVALID_CHUNK (str "OTA chunk batch too large"));;
      api_ota_abort (ob_job_id batch);; mret tt
    else handle_chunks (request_id env) (ob_job_id batch) (ob_chunks batch)
  end.

Definition handle_ota_abort (env : ParsedEnvelope) : M St unit :=
  match parse_ota_abort_request (data_of env) with
  | (false, _) =>
    in_transport (send_error (request_id env) error.OTA_NOT_ACTIVE (str "Invalid OTA abort request"))
  | (true, request) =>
    api_ota_abort (oa_job_id request);;
    in_transport (send_binary (encode_ota_aborted (request_id env) (oa_job_id request) (oa_reason request)))
  end.

(** ** One binary frame *)
Definition auth_failed (request_id code msg : bytes) : M St unit :=
  in_transport (send_binary (auth_failed_envelope request_id code msg));;
  in_transport close_client.

Definition handle_auth (env : ParsedEnvelope) : M St unit :=
  if negb (msg_field env =? envelope_field_number AUTH_RESPONSE) then
    auth_failed (request_id env) (str "auth_required") (str "Authenticate before sending runtime requests")
  else
    let '(ok, response) := parse_auth_response (data_of env) in
    b ← this_bridge;
    if negb ok || negb (verify_auth_response (api_key_ b) (server_nonce (api_proto_ws_ b)) response) then
      auth_failed (request_id env) (str "auth_failed") (str "Authentication failed")
    else
      now ← now_ms;
      in_transport (set_transport (fun t => t <| authenticated := true |> <| last_heartbeat_ms := now |>));;
      set_ota_transport_callbacks;;
      b ← this_bridge;
      in_transport (send_binary (api_runtime_encode_auth_ok (request_id env) b)).

Definition field_is (env : ParsedEnvelope) (f : EnvelopeField) : bool :=
  msg_field env =? envelope_field_number f.

Definition handle_request (env : ParsedEnvelope) : M St unit :=
  if field_is env CLIENT_HELLO then
    snapshot ← gets (fun s : St => api_runtime_encode_full_snapshot (request_id env) s);
    in_transport (send_binary snapshot)
  else if field_is env PING then
    in_transport (send_binary (envelope (request_id env) PONG (varint 1 (ping_monotonic_ms (data_of env)))))
  else if field_is env COMMAND_REQUEST then
    let '(ok, request) := parse_command_request (data_of env) in
    if negb ok then
      in_transport (send_error (request_id env) (str "invalid_command") (str "Invalid command request"))
    else
      result ← api_runtime_handle_command (request_id env) request;
      in_transport (send_binary result)
  else if field_is env CONFIG_COMMAND_REQUEST then
    let '(ok, request) := parse_config_command_request (data_of env) in
    if negb ok then
      in_transport (send_error (request_id env) (str "invalid_config_command")
        (str "Invalid config command request"))
    else api_runtime_handle_config_command (request_id env) request
  else if field_is env STATE_RECEIPT then
    let '(ok, receipt) := parse_state_receipt (data_of env) in
    if negb ok then
      in_transport (send_error (request_id env) (str "invalid_state_receipt") (str "Invalid state receipt"))
    else api_runtime_handle_state_receipt (rc_remote_mac receipt) (rc_session_id receipt)
           (rc_state_tx_counter receipt) (u8 (rc_entity_index receipt))
  else if field_is env OTA_START_REQUEST then handle_ota_start env
  else if field_is env OTA_CHUNK_BATCH then handle_ota_chunk_batch env
  else if field_is env OTA_ABORT_REQUEST then handle_ota_abort env
  else
    in_transport (send_error (request_id env) (str "unsupported_message")
      (str "Unsupported runtime request")).

Definition handle_binary (payload : bytes) : M St unit :=
  let '(ok, env) := parse_envelope payload in
  if negb ok || negb (api_version env =? 0) && negb (api_version env =? kRuntimeApiVersion) then
    in_transport (send_error [] (str "invalid_envelope") (str "Invalid protobuf envelope"))
  else
    b ← this_bridge;
    if negb (has_authenticated_client (api_proto_ws_ b)) then handle_auth env else handle_request env.

(** ** The session of a client *)
Definition finish_session (fd : Z) : M St unit :=
  active ← in_transport (release_slot fd);
  when active clear_ota_transport_callbacks.

(** [run_socket_session] up to the task that serves the socket; the result says
    whether that task runs.  [begun] and [task_ok] are the answers of the HTTP
    server and of [xTaskCreate]. *)
Definition run_socket_session (key : option bytes) (fd : Z) (begun task_ok : bool) : M St bool :=
  match key with
  | None => mret false
  | Some key =>
    b ← this_bridge;
    if (length (api_key_ b) =? 0)%nat then mret false
    else
      claimed ← in_transport (claim_slot fd);
      if negb claimed then mret false
      else
        let accept := websocket_accept_key key in
        if (length accept =? 0)%nat || negb begun then finish_session fd;; mret false
        else if negb task_ok then finish_session fd;; mret false
        else mret true
  end.

(** One round of [read_loop] after [select]: the result says whether the loop goes on. *)
Definition read_round (inbox : list RecvEvent) : M St (bool * list RecvEvent) :=
  match read_frame inbox with
  | (None, inbox) => mret (false, inbox)
  | (Some (opcode, payload), inbox) =>
    if opcode =? 8 then in_transport (send_frame 8 payload);; mret (false, inbox)
    else if opcode =? 9 then in_transport (send_frame 10 payload);; mret (true, inbox)
    else if opcode =? 1 then
      in_transport (send_frame 2 (error_envelope [] (str "text_frames_unsupported")
        (str "Runtime API accepts binary protobuf frames only")));;
      mret (false, inbox)
    else if negb (opcode =? 2) then mret (false, inbox)
    else handle_binary payload;; mret (true, inbox)
  end.

(** The loop for the answers [select] gives: negative on an error, 0 on a timeout. *)
Fixpoint read_loop (fd : Z) (selected : list Z) (inbox : list RecvEvent) : M St (list RecvEvent) :=
  match selected with
  | [] => mret inbox
  | ret :: selected =>
    b ← this_bridge;
    if negb (is_active_fd fd (api_proto_ws_ b)) then mret inbox
    else if ret <? 0 then mret inbox
    else if ret =? 0 then read_loop fd selected inbox
    else
      next ← read_round inbox;
      if (next.1 : bool) then read_loop fd selected next.2 else mret next.2
  end.

Definition run_socket_task (fd : Z) (selected : list Z) (inbox : list RecvEvent) : M St unit :=
  b ← this_bridge;
  in_transport (send_auth_challenge (api_runtime_bridge_mac b));;
  read_loop fd selected inbox;;
  finish_session fd.

Definition emit_heartbeat_if_due : M St unit :=
  b ← this_bridge;
  let t := api_proto_ws_ b in
  if negb (has_authenticated_client t) then mret tt
  else
    now ← now_ms;
    if negb (last_heartbeat_ms t =? 0) && (u32 (now - last_heartbeat_ms t) <? kRuntimeHeartbeatIntervalMs)
    then mret tt
    else
      in_transport (set_transport (fun t => t <| last_heartbeat_ms := now |>));;
      frame ← gets (fun s : St => api_runtime_encode_bridge_heartbeat s);
      in_transport (send_binary frame).

(** ** The callbacks [setup] installs in the protocol object *)
Definition emit_remote_state (mac : bytes) (entity : espnow_entity_schema_t) (value : bytes)
    (type state_tx_counter : Z) : M St unit :=
  b ← this_bridge;
  if negb (has_authenticated_client (api_proto_ws_ b)) || (length value =? 0)%nat then mret tt
  else
    frame ← gets (fun s : St => api_runtime_encode_remote_state mac entity value type state_tx_counter s);
    in_transport (send_binary frame).

(** Without the call of the MQTT export. *)
Definition publish_state (mac : bytes) (entity : espnow_entity_schema_t) (value : bytes) (type : Z)
    (message_tx_base : Z) (next_hop : bytes) : M St unit :=
  set_bridge (fun b => b <| entity_values_ ::=
    <[entity_value_key_ mac entity :=
        {| ev_current_value := value; ev_current_type := type; ev_schema := entity |}]> |>);;
  required ← active_state_delivery_sinks_;
  begin_state_delivery_ mac (entity_index entity) message_tx_base next_hop required;;
  emit_remote_state mac entity value type message_tx_base.

Definition publish_availability (mac : bytes) (online : bool) (reason : bytes) : M St unit :=
  b ← this_bridge;
  if negb (has_authenticated_client (api_proto_ws_ b)) then mret tt
  else
    let rssi := of_session mac s_last_rssi (-127) b in
    let hop_count := of_session mac s_hops_to_bridge 0 b in
    frame ← gets (fun s : St => api_runtime_encode_remote_availability mac online reason rssi hop_count s);
    in_transport (send_binary frame).

Definition publish_topology_changed (mac : bytes) : M St unit :=
  b ← this_bridge;
  if negb (has_authenticated_client (api_proto_ws_ b)) then mret tt
  else
    frame ← gets (fun s : St => api_runtime_encode_topology_changed mac s);
    in_transport (send_binary frame).

Definition schema_complete_ (mac : bytes) : M St unit :=
  b ← this_bridge;
  match get_session mac (protocol_ b) with
  | None => mret tt
  | Some s =>
    if negb (has_authenticated_client (api_proto_ws_ b)) then mret tt
    else
      frame ← gets (fun st : St => api_runtime_encode_remote_schema_changed mac (runtime_schema_hash_ s) st);
      in_transport (send_binary frame)
  end.

Definition file_ack (leaf : bytes) (ack : espnow_ack_t) (trailing : bytes) : M St bool :=
  b ← this_bridge;
  match ota_manager_ b with
  | None => mret false
  | Some m => in_manager m (ESPNowOTAManager.on_file_ack leaf ack trailing)
  end.

(** [ESPTreeBridge::loop]: the modelled parts. *)
Definition esp_tree_bridge_loop : M St unit := component_loop;; emit_heartbeat_if_due.
End api.
