(* ===== verification/MqttExport.v ===== *)
(** * MqttExport: the entities in Home Assistant by MQTT

    Models [class ESPTreeBridgeMQTT]
    ([src/device_code/components/esp_tree_bridge/bridge_mqtt_export.h/.cpp]): the
    records of devices and entities, what the bridge queues, and [tick], which
    publishes one thing at a time.  [init] has been called, so [bridge_] is not
    null.  MQTT client and JSON serialiser are the class [MqttEnv]; a JSON
    document is the tree [Doc].  The helper functions that the source repeats from
    [esp_tree_bridge.cpp] are those of EntityText; [decode_command_payload_] is
    EntityCommand's, with every effect name understood.  Not modelled: the
    sensor of the processor's load, which only builds with the trace facility of
    the operating system have. *)
From stdpp Require Import pretty sorting.
From S2P Require Import Prelude Wire Crypto Frames Fragments OtaManager BridgeSession BridgeProtocol BridgeLoop ProtoMessages WebSocket ApiTransport BridgeComponent EntityText EntityCommand RuntimeEvents.

Import ESPNowOTAManager (dec).

Module ESPTreeBridgeMQTT.
(** ** Data *)

(** [std::map<std::string, A>] as the list of its entries in key order. *)
Fixpoint sput {A} (key : bytes) (value : A) (l : list (bytes * A)) : list (bytes * A) :=
  match l with
  | [] => [(key, value)]
  | e :: rest =>
    if bytes_eqb key e.1 then (key, value) :: rest
    else if string_lt key e.1 then (key, value) :: l
    else e :: sput key value rest
  end.
Definition sget {A} (key : bytes) (l : list (bytes * A)) : option A :=
  snd <$> find (fun e => bytes_eqb e.1 key) l.
Definition serase {A} (key : bytes) (l : list (bytes * A)) : list (bytes * A) :=
  filter (fun e => bytes_eqb e.1 key = false) l.
(** A reference into the map is written through. *)
Definition salter {A} (f : A -> A) (key : bytes) (l : list (bytes * A)) : list (bytes * A) :=
  (fun e => if bytes_eqb e.1 key then (e.1, f e.2) else e) <$> l.

Record MqttEntityRecord := {
  rec_leaf_mac : bytes;
  rec_node_id : bytes;
  rec_schema : espnow_entity_schema_t;
  rec_total_entities : Z;
  rec_discovery_published : bool;
  first_state_publish_pending : bool;
  state_dirty : bool;
  command_subscribed : bool;
  rec_discovery_published_ms : Z;
  rec_current_value : bytes;
  rec_current_type : Z;
  text_value : bytes;
  pending_state_ack_ : bool;
  pending_ack_message_tx_base_ : Z;
  pending_ack_entity_index_ : Z;
  pending_ack_queued_ms_ : Z;
  ack_next_hop_mac_ : bytes
}.
#[export] Instance eta_mqtt_entity : Eta MqttEntityRecord := fun r =>
  Build_MqttEntityRecord (rec_leaf_mac r) (rec_node_id r) (rec_schema r) (rec_total_entities r)
    (rec_discovery_published r) (first_state_publish_pending r) (state_dirty r) (command_subscribed r)
    (rec_discovery_published_ms r) (rec_current_value r) (rec_current_type r) (text_value r)
    (pending_state_ack_ r) (pending_ack_message_tx_base_ r) (pending_ack_entity_index_ r)
    (pending_ack_queued_ms_ r) (ack_next_hop_mac_ r).
Definition new_entity_record : MqttEntityRecord :=
  {| rec_leaf_mac := replicate 6 0; rec_node_id := []; rec_schema := blank_entity;
     rec_total_entities := 0; rec_discovery_published := false; first_state_publish_pending := false;
     state_dirty := false; command_subscribed := false; rec_discovery_published_ms := 0;
     rec_current_value := []; rec_current_type := field_type_code FIELD_TYPE_SENSOR; text_value := [];
     pending_state_ack_ := false; pending_ack_message_tx_base_ := 0; pending_ack_entity_index_ := 0;
     pending_ack_queued_ms_ := 0; ack_next_hop_mac_ := replicate 6 0 |}.

(** The entities of a device are listed by index. *)
Record MqttDeviceRecord := {
  dev_leaf_mac : bytes;
  dev_node_id : bytes;
  dev_device_id : bytes;
  dev_display_name : bytes;
  dev_entities : list (Z * espnow_entity_schema_t);
  dev_total_entities : Z;
  dev_schema_complete : bool;
  dev_discovery_dirty : bool;
  dev_discovery_published : bool;
  dev_discovery_published_ms : Z
}.
#[export] Instance eta_mqtt_device : Eta MqttDeviceRecord := fun d =>
  Build_MqttDeviceRecord (dev_leaf_mac d) (dev_node_id d) (dev_device_id d) (dev_display_name d)
    (dev_entities d) (dev_total_entities d) (dev_schema_complete d) (dev_discovery_dirty d)
    (dev_discovery_published d) (dev_discovery_published_ms d).
Definition new_device_record : MqttDeviceRecord :=
  {| dev_leaf_mac := replicate 6 0; dev_node_id := []; dev_device_id := []; dev_display_name := [];
     dev_entities := []; dev_total_entities := 0; dev_schema_complete := false;
     dev_discovery_dirty := false; dev_discovery_published := false; dev_discovery_published_ms := 0 |}.

Record PendingEntityClear := { clear_topic : bytes; clear_command_topics : list bytes }.
Record AvailabilityEntry := { av_mac : bytes; av_online : bool; av_reason : bytes }.
Record CommandRoute := { route_leaf : bytes; route_entity_index : Z; route_kind : CommandRouteKind }.

Record RemoteDiagCache := {
  cache_rssi : Z; cache_tx_packets : Z; cache_rx_packets : Z; cache_hops : Z;
  cache_direct_children : Z; cache_total_children : Z; cache_chip_model : Z; cache_firmware_epoch : Z;
  cache_esphome_name : bytes; cache_project_name : bytes; cache_project_version : bytes
}.
Definition new_diag_cache : RemoteDiagCache :=
  {| cache_rssi := -127; cache_tx_packets := 0; cache_rx_packets := 0; cache_hops := 0;
     cache_direct_children := 0; cache_total_children := 0; cache_chip_model := 0;
     cache_firmware_epoch := 0; cache_esphome_name := []; cache_project_name := [];
     cache_project_version := [] |}.

(** What [set_bridge_diag] stores. *)
Record BridgeDiag := {
  cached_uptime_s_ : Z; cached_remotes_online_ : Z; cached_bridge_rssi_ : Z; cached_wifi_channel_ : Z;
  cached_ram_pct_ : Z; cached_cpu_pct_ : Z; cached_remotes_direct_ : Z
}.

(** Sets of strings are sorted lists; [pending_device_clears_] keeps the topic. *)
Record ESPTreeBridgeMQTT := {
  mqtt_bridge_mac_ : bytes;
  mqtt_discovery_prefix_ : bytes;
  mqtt_bridge_name_ : bytes;
  force_rejoin_command_topic_ : bytes;
  mqtt_entities_ : list (bytes * MqttEntityRecord);
  mqtt_devices_ : list (bytes * MqttDeviceRecord);
  pending_entity_clears_ : list (bytes * PendingEntityClear);
  pending_device_clears_ : list (bytes * bytes);
  availability_queue_ : list AvailabilityEntry;
  subscribed_topics_ : list (bytes * unit);
  command_routes_ : list (bytes * CommandRoute);
  mqtt_was_connected_ : bool;
  mqtt_backoff_until_ms_ : Z;
  mqtt_retry_count_ : Z;
  bridge_diag_discovery_published_ : bool;
  remote_diag_discovery_published_ : list (bytes * unit);
  remote_diag_refresh_pending_ : list (bytes * unit);
  first_remote_diag_publish_pending_ : list (bytes * unit);
  remote_diag_cache_ : list (bytes * RemoteDiagCache);
  delayed_diag_refresh_pending_ : list (bytes * Z);
  remote_diag_last_publish_ms_ : list (bytes * Z);
  last_published_bridge_diag_ms_ : Z;
  diag_last_any_publish_ms_ : Z;
  diag_rr_index_ : Z;
  next_diag_check_ms_ : Z;
  force_rejoin_button_discovery_published_ : bool;
  bridge_diag : BridgeDiag;
  tick_enter_ms_ : Z
}.
#[export] Instance eta_mqtt : Eta ESPTreeBridgeMQTT := fun m =>
  Build_ESPTreeBridgeMQTT (mqtt_bridge_mac_ m) (mqtt_discovery_prefix_ m) (mqtt_bridge_name_ m)
    (force_rejoin_command_topic_ m) (mqtt_entities_ m) (mqtt_devices_ m) (pending_entity_clears_ m)
    (pending_device_clears_ m) (availability_queue_ m) (subscribed_topics_ m) (command_routes_ m)
    (mqtt_was_connected_ m) (mqtt_backoff_until_ms_ m) (mqtt_retry_count_ m)
    (bridge_diag_discovery_published_ m) (remote_diag_discovery_published_ m)
    (remote_diag_refresh_pending_ m) (first_remote_diag_publish_pending_ m) (remote_diag_cache_ m)
    (delayed_diag_refresh_pending_ m) (remote_diag_last_publish_ms_ m) (last_published_bridge_diag_ms_ m)
    (diag_last_any_publish_ms_ m) (diag_rr_index_ m) (next_diag_check_ms_ m)
    (force_rejoin_button_discovery_published_ m) (bridge_diag m) (tick_enter_ms_ m).

(** After [init], before the first [tick]. *)
Definition new_mqtt (mac prefix name force_rejoin_topic : bytes) : ESPTreeBridgeMQTT :=
  {| mqtt_bridge_mac_ := mac; mqtt_discovery_prefix_ := prefix; mqtt_bridge_name_ := name;
     force_rejoin_command_topic_ := force_rejoin_topic; mqtt_entities_ := []; mqtt_devices_ := [];
     pending_entity_clears_ := []; pending_device_clears_ := []; availability_queue_ := [];
     subscribed_topics_ := []; command_routes_ := []; mqtt_was_connected_ := false;
     mqtt_backoff_until_ms_ := 0; mqtt_retry_count_ := 0; bridge_diag_discovery_published_ := false;
     remote_diag_discovery_published_ := []; remote_diag_refresh_pending_ := [];
     first_remote_diag_publish_pending_ := []; remote_diag_cache_ := []; delayed_diag_refresh_pending_ := [];
     remote_diag_last_publish_ms_ := []; last_published_bridge_diag_ms_ := 0;
     diag_last_any_publish_ms_ := 0; diag_rr_index_ := 0; next_diag_check_ms_ := 0;
     force_rejoin_button_discovery_published_ := false;
     bridge_diag := {| cached_uptime_s_ := 0; cached_remotes_online_ := 0; cached_bridge_rssi_ := -127;
                       cached_wifi_channel_ := 0; cached_ram_pct_ := -1; cached_cpu_pct_ := -1;
                       cached_remotes_direct_ := 0 |};
     tick_enter_ms_ := 0 |}.

Definition MQTT_RETRY_BACKOFF_MS : list Z := [200; 400; 800; 1600; 3200; 6400; 12800; 30000].
Definition FIRST_STATE_PUBLISH_GRACE_MS := 200.
Definition DIAG_CHECK_INTERVAL_MS := 250.
Definition DIAG_SPACING_MS := 250.
Definition DIAG_MIN_INTERVAL_MS := 10000.
Definition DIAG_JITTER_MS := 50.
Definition DIAG_DELAYED_REFRESH_DELAY_MS := 1000.
Definition LOOP_TIME_BUDGET_MS := 200.
Definition YIELD_MS := 1.

(** ** JSON documents *)
Inductive Doc :=
  | DText (s : bytes)
  | DNum (n : Z)
  | DBool (b : bool)
  | DList (items : list Doc)
  | DObject (members : list (string * Doc)).

Definition text (key : string) (s : bytes) : list (string * Doc) := [(key, DText s)].
Definition word (key value : string) : list (string * Doc) := [(key, DText (str value))].
Definition text_if (key : string) (s : option string) : list (string * Doc) :=
  match s with Some s => word key s | None => [] end.

(** [std::to_string] of a signed integer. *)
Definition dec_int (n : Z) : bytes := if n <? 0 then 45 :: dec (- n) else dec n.

Definition color_mode_name_ (cm : Z) : bytes := str
  (match cm with
   | 1 => "onoff" | 3 => "brightness" | 7 => "white" | 11 => "color_temp" | 19 => "rgb" | 35 => "rgb"
   | 39 => "rgbw" | 47 => "rgbww" | _ => "brightness"
   end)%string.

(** In the MQTT discovery a text sensor is a sensor. *)
Definition mqtt_component_for_type (type : Z) : bytes :=
  match field_type_of type with
  | Some FIELD_TYPE_TEXT_SENSOR => str "sensor"
  | _ => component_for_type type
  end.

Definition has_color (options : gmap bytes bytes) (modes : list string) : bool :=
  existsb (fun mode => option_has_list_value options (str "color_modes") (str mode)) modes.
Definition RGB_MODES : list string := ["rgb"; "rgbw"; "rgbww"].
Definition DIMMABLE_MODES : list string := ["brightness"; "rgb"; "rgbw"; "rgbww"; "white"; "color_temp"].

Class MqttEnv (W : Type) := {
  mqtt_publish : bytes -> bytes -> Z -> bool -> W -> bool * W;
  mqtt_subscribe : bytes -> W -> W;
  mqtt_delay : Z -> W -> W;
  serialize : Doc -> bytes;
  print_g : bytes -> bytes
}.

Section mqtt.
Context {W : Type} `{!BridgeEnv W} `{!Hmac} `{!SocketEnv W} `{!ComponentEnv W} `{!FloatText} `{!CommandText}.
Context `{!MqttEnv W}.
Abbreviation St := (ESPTreeBridgeMQTT * (ESPTreeBridge * W))%type.

Definition this : M St ESPTreeBridgeMQTT := gets fst.
Definition set_mqtt (f : ESPTreeBridgeMQTT -> ESPTreeBridgeMQTT) : M St unit := modify (fun s => (f s.1, s.2)).
Definition the_protocol : M St BridgeProtocol := gets (fun s => protocol_ s.2.1).
Definition millis : M St Z := gets (fun s => bridge_millis s.2.2).
Definition is_connected : M St bool := gets (fun s => mqtt_is_connected s.2.2).
Definition platform {A} (f : W -> A * W) : M St A :=
  fun s => let '(a, w) := f s.2.2 in (a, (s.1, (s.2.1, w))).
(** A call of [bridge_]. *)
Definition in_bridge {A} (m : M (ESPTreeBridge * W) A) : M St A :=
  zoom snd (fun t s => (s.1, t)) m.

Definition publish (topic payload : bytes) (qos : Z) (retain : bool) : M St bool :=
  platform (mqtt_publish topic payload qos retain).
Definition publish_json (topic : bytes) (doc : list (string * Doc)) (qos : Z) (retain : bool) : M St bool :=
  publish topic (serialize (DObject doc)) qos retain.
Definition yield : M St unit := platform (fun w => (tt, mqtt_delay YIELD_MS w)).
Definition tick_budget_exceeded_ : M St bool :=
  m ← this; now ← millis; mret (LOOP_TIME_BUDGET_MS <=? u32 (now - tick_enter_ms_ m)).

(** ** Names and topics *)
Definition entity_record_key_ (mac : bytes) (entity_index : Z) (p : BridgeProtocol) : bytes :=
  node_key mac p ++ str "_" ++ dec entity_index.

Definition base_object_id (entity : espnow_entity_schema_t) : bytes :=
  let base := sanitize_object_id (if (length (entity_id entity) =? 0)%nat then entity_name entity
                                  else entity_id entity) in
  if (length base =? 0)%nat then str "entity" else base.
Definition same_name (base : bytes) (e : espnow_entity_schema_t) : bool :=
  negb (entity_type e =? 0) && bytes_eqb (sanitize_object_id (entity_name e)) base.
Definition numbered (base : bytes) (n : nat) : bytes :=
  if (1 <? n)%nat then base ++ str "_" ++ dec (Z.of_nat n) else base.

Definition entity_object_id_ (mac : bytes) (entity : espnow_entity_schema_t) (p : BridgeProtocol) : bytes :=
  let base := base_object_id entity in
  match get_session mac p with
  | None => base
  | Some s =>
    if Z.of_nat (length (s_schema_entities s)) <=? entity_index entity then base
    else if negb (length (entity_id entity) =? 0)%nat then base
    else numbered base (length (List.filter (same_name base)
           (take (S (Z.to_nat (entity_index entity))) (s_schema_entities s))))
  end.

(** The loop of [entity_object_id_from_schema_]. *)
Fixpoint duplicate_index (base : bytes) (index : Z) (entities : list espnow_entity_schema_t) : nat :=
  match entities with
  | [] => O
  | e :: rest =>
    if same_name base e
    then if entity_index e =? index then 1%nat else S (duplicate_index base index rest)
    else duplicate_index base index rest
  end.
Definition entity_object_id_from_schema_ (entities : list espnow_entity_schema_t)
    (entity : espnow_entity_schema_t) : bytes :=
  let base := base_object_id entity in
  if negb (length (entity_id entity) =? 0)%nat then base
  else numbered base (duplicate_index base (entity_index entity) entities).

Definition node_topic (mac suffix : bytes) (p : BridgeProtocol) : bytes :=
  str "esp-tree/" ++ node_key mac p ++ str "/" ++ suffix.
Definition object_topic (suffix : string) (mac object_id : bytes) (p : BridgeProtocol) : bytes :=
  node_topic mac (object_id ++ str "/" ++ str suffix) p.
Definition entity_topic (suffix : string) (mac : bytes) (entity : espnow_entity_schema_t)
    (p : BridgeProtocol) : bytes :=
  object_topic suffix mac (entity_object_id_ mac entity p) p.
Definition state_topic_ := entity_topic "state".
Definition command_topic_ := entity_topic "set".
Definition fan_speed_state_topic_ := entity_topic "percentage_state".
Definition fan_speed_command_topic_ := entity_topic "percentage_set".
Definition fan_oscillation_state_topic_ := entity_topic "oscillation_state".
Definition fan_oscillation_command_topic_ := entity_topic "oscillation_set".
Definition fan_direction_state_topic_ := entity_topic "direction_state".
Definition fan_direction_command_topic_ := entity_topic "direction_set".
Definition availability_topic_ (mac : bytes) : BridgeProtocol -> bytes := node_topic mac (str "availability").
Definition remote_diag_state_topic_ (mac : bytes) (suffix : string) : BridgeProtocol -> bytes :=
  node_topic mac (str "diagnostic/" ++ str suffix ++ str "/state").
Definition bridge_state_topic_ (suffix : string) (m : ESPTreeBridgeMQTT) : bytes :=
  str "esp-tree/bridge/" ++ mac_hex (mqtt_bridge_mac_ m) ++ str "/" ++ str suffix ++ str "/state".
Definition unique_id_ (mac : bytes) (entity : espnow_entity_schema_t) (p : BridgeProtocol) : bytes :=
  str "esp_tree_" ++ node_key mac p ++ str "_" ++ entity_object_id_ mac entity p.
Definition default_entity_id_ (mac : bytes) (entity : espnow_entity_schema_t) (p : BridgeProtocol) : bytes :=
  let slug := sanitize_object_id (entity_name entity) in
  mqtt_component_for_type (entity_type entity) ++ str "." ++
  (if (length slug =? 0)%nat then entity_object_id_ mac entity p else slug).
(** A topic of the discovery. *)
Definition config_topic (component node object_id : bytes) (m : ESPTreeBridgeMQTT) : bytes :=
  mqtt_discovery_prefix_ m ++ str "/" ++ component ++ str "/" ++ node ++ str "/" ++ object_id ++ str "/config".
Definition device_topic (node : bytes) (m : ESPTreeBridgeMQTT) : bytes :=
  mqtt_discovery_prefix_ m ++ str "/device/" ++ node ++ str "/config".

(** ** States *)
Definition encode_state_payload_ (entity : espnow_entity_schema_t) (value : bytes) (type : Z) : bytes :=
  let on_off := str (if negb (length value =? 0)%nat && negb (at_ value 0 =? 0) then "ON" else "OFF") in
  match field_type_of type with
  | Some (FIELD_TYPE_SENSOR | FIELD_TYPE_NUMBER) => if (length value <? 4)%nat then [] else print_g (take 4 value)
  | Some (FIELD_TYPE_SWITCH | FIELD_TYPE_BINARY | FIELD_TYPE_FAN | FIELD_TYPE_LIGHT) => on_off
  | Some (FIELD_TYPE_TEXT | FIELD_TYPE_TEXT_SENSOR | FIELD_TYPE_EVENT) => value
  | Some (FIELD_TYPE_COVER | FIELD_TYPE_VALVE) => dec (at_ value 0)
  | Some FIELD_TYPE_LOCK => lock_state value
  | Some FIELD_TYPE_ALARM => alarm_state value
  | Some FIELD_TYPE_SELECT =>
    let options := entity_options entity in
    let names := match option_list (parse_options_map options) (str "options") with
                 | [] => split_string options 124
                 | names => names
                 end in
    if negb (length options =? 0)%nat && negb (length value =? 0)%nat
       && (at_ value 0 <? Z.of_nat (length names))
    then nth (Z.to_nat (at_ value 0)) names [] else dec (at_ value 0)
  | Some FIELD_TYPE_BUTTON => str "press"
  | _ => []
  end.

Definition light_doc (value options_text : bytes) : list (string * Doc) :=
  let options := parse_options_map options_text in
  let effects := option_list options (str "effects") in
  let n := length value in
  let '(r, g, b) := hsv_u8_to_rgb (at_ value 2) (at_ value 3) (at_ value 1) in
  let some (b : bool) m := if b then [m] else [] in
  word "state" (if negb (n =? 0)%nat && negb (at_ value 0 =? 0) then "ON" else "OFF") ++
  text "color_mode"
    (if (5 <? n)%nat then color_mode_name_ (at_ value 5)
     else if (3 <? n)%nat && has_color options RGB_MODES then str "rgb"
     else if (1 <? n)%nat && has_color options ["color_temp"]%string then str "color_temp"
     else str "brightness") ++
  some (has_color options DIMMABLE_MODES && (1 <? n)%nat) ("brightness"%string, DNum (at_ value 1)) ++
  some (has_color options RGB_MODES && (3 <? n)%nat)
    ("color"%string, DObject [("r"%string, DNum r); ("g"%string, DNum g); ("b"%string, DNum b)]) ++
  some ((7 <? n)%nat && (0 <? color_temp_of value)) ("color_temp"%string, DNum (color_temp_of value)) ++
  some ((8 <? n)%nat && (0 <? at_ value 8)) ("white"%string, DNum (at_ value 8)) ++
  some (negb (length effects =? 0)%nat && (4 <? n)%nat)
    ("effect"%string, DText (if (0 <? at_ value 4) && (at_ value 4 <=? Z.of_nat (length effects))
                      then nth (Z.to_nat (at_ value 4 - 1)) effects [] else str "None")).

(** [ok = publish(...); delay(...)], when [ok] and the condition hold. *)
Definition publish_next (condition : bool) (topic payload : bytes) (ok : bool) : M St bool :=
  if ok && condition then r ← publish topic payload 1 false; yield;; mret r else mret ok.

Definition publish_fan (rec : MqttEntityRecord) : M St bool :=
  p ← the_protocol;
  let mac := rec_leaf_mac rec in
  let e := rec_schema rec in
  let options := parse_options_map (entity_options e) in
  let value := rec_current_value rec in
  let on (i : nat) := negb (at_ value i =? 0) in
  let speed_count := option_u32 options (str "speed_count") 0 in
  let level := Z.min (at_ value 1) speed_count in
  ok ← publish_next true (state_topic_ mac e p)
         (str (if negb (length value =? 0)%nat && on 0%nat then "ON" else "OFF")) true;
  ok ← publish_next ((1 <? length value)%nat && (0 <? speed_count)) (fan_speed_state_topic_ mac e p)
         (dec (level * 100 / speed_count)) ok;
  ok ← publish_next ((2 <? length value)%nat && option_is_true options (str "oscillation"))
         (fan_oscillation_state_topic_ mac e p) (str (if on 2%nat then "oscillate_on" else "oscillate_off")) ok;
  publish_next ((3 <? length value)%nat && option_is_true options (str "direction"))
    (fan_direction_state_topic_ mac e p) (str (if on 3%nat then "reverse" else "forward")) ok.

(** Everything the state of the record consists of. *)
Definition publish_record (rec : MqttEntityRecord) : M St bool :=
  p ← the_protocol;
  let topic := state_topic_ (rec_leaf_mac rec) (rec_schema rec) p in
  let options := entity_options (rec_schema rec) in
  match field_type_of (rec_current_type rec) with
  | Some FIELD_TYPE_BUTTON => publish_next true topic (serialize (DObject (word "event_type" "press"))) true
  | Some FIELD_TYPE_EVENT => publish_next true topic (serialize (DObject (text "event_type" (text_value rec)))) true
  | Some FIELD_TYPE_FAN => publish_fan rec
  | Some FIELD_TYPE_LIGHT =>
    publish_next true topic (serialize (DObject (light_doc (rec_current_value rec) options))) true
  | t =>
    publish_next true topic
      (match t with
       | Some (FIELD_TYPE_TEXT | FIELD_TYPE_TEXT_SENSOR) =>
         if (length (text_value rec) =? 0)%nat
         then encode_state_payload_ (rec_schema rec) (rec_current_value rec) (rec_current_type rec)
         else text_value rec
       | _ => encode_state_payload_ (rec_schema rec) (rec_current_value rec) (rec_current_type rec)
       end) true
  end.

Definition with_entity (key : bytes) (f : MqttEntityRecord -> MqttEntityRecord) : M St unit :=
  set_mqtt (fun m => m <| mqtt_entities_ ::= salter f key |>).

Definition back_off : M St unit :=
  set_mqtt (fun m => if mqtt_retry_count_ m <? 7 then m <| mqtt_retry_count_ ::= Z.add 1 |> else m);;
  m ← this;
  now ← millis;
  set_mqtt (fun m => m <| mqtt_backoff_until_ms_ :=
    u32 (now + nth (Z.to_nat (Z.min (mqtt_retry_count_ m) 7)) MQTT_RETRY_BACKOFF_MS 0) |>).

Definition do_publish_state_ (key : bytes) (rec : MqttEntityRecord) : M St bool :=
  connected ← is_connected;
  if negb connected then mret false
  else
    ok ← publish_record rec;
    if (ok : bool) then
      with_entity key (fun r => r <| text_value := [] |> <| state_dirty := false |>
                                  <| first_state_publish_pending := false |>);;
      when (pending_state_ack_ rec)
        (in_bridge (mark_mqtt_state_delivered (rec_leaf_mac rec) (pending_ack_entity_index_ rec)
                      (pending_ack_message_tx_base_ rec));;
         with_entity key (fun r => r <| pending_state_ack_ := false |>));;
      mret true
    else back_off;; mret false.

(** ** Discovery documents *)
Definition subscribe_route (topic leaf : bytes) (index : Z) (kind : CommandRouteKind) : M St unit :=
  m ← this;
  set_mqtt (fun m => m <| command_routes_ ::=
    sput topic {| route_leaf := leaf; route_entity_index := index; route_kind := kind |} |>);;
  when (negb (given (sget topic (subscribed_topics_ m))))
    (set_mqtt (fun m => m <| subscribed_topics_ ::= sput topic tt |>);;
     platform (fun w => (tt, mqtt_subscribe topic w))).

Definition remove_command_routes_for_entity_ (mac : bytes) (entity_index : Z) : M St unit :=
  set_mqtt (fun m => m <| command_routes_ ::=
    filter (fun r => (route_entity_index r.2 =? entity_index) && bytes_eqb (route_leaf r.2) mac = false) |>).

(** The routes of an entity: topics by the suffix, and what they set. *)
Definition command_route_list (entity : espnow_entity_schema_t) : list (string * CommandRouteKind) :=
  let options := parse_options_map (entity_options entity) in
  let some (b : bool) x := if b then [x] else [] in
  if negb (runtime_entity_writable_ (entity_type entity)) then []
  else
    [("set"%string, PRIMARY)] ++
    if type_is (entity_type entity) FIELD_TYPE_FAN then
      some (0 <? option_u32 options (str "speed_count") 0) ("percentage_set"%string, FAN_SPEED) ++
      some (option_is_true options (str "oscillation")) ("oscillation_set"%string, FAN_OSCILLATION) ++
      some (option_is_true options (str "direction")) ("direction_set"%string, FAN_DIRECTION)
    else [].
Definition command_topics_for_object_id_ (mac : bytes) (entity : espnow_entity_schema_t) (object_id : bytes)
    (p : BridgeProtocol) : list bytes :=
  (fun r => object_topic r.1 mac object_id p) <$> command_route_list entity.

Fixpoint subscribe_routes (mac object_id : bytes) (index : Z) (routes : list (string * CommandRouteKind)) :
    M St unit :=
  match routes with
  | [] => mret tt
  | (suffix, kind) :: routes =>
    p ← the_protocol;
    subscribe_route (object_topic suffix mac object_id p) mac index kind;;
    subscribe_routes mac object_id index routes
  end.
Definition subscribe_command_topic_ (mac : bytes) (entity : espnow_entity_schema_t) : M St unit :=
  connected ← is_connected;
  if negb connected || negb (runtime_entity_writable_ (entity_type entity)) then mret tt
  else
    remove_command_routes_for_entity_ mac (entity_index entity);;
    p ← the_protocol;
    subscribe_routes mac (entity_object_id_ mac entity p) (entity_index entity) (command_route_list entity).

Definition on_off_words (keys : list string) : list (string * Doc) :=
  keys ≫= fun k => word k (if bool_decide (k ∈ ["pl_on"; "stat_on"; "payload_on"; "state_on"]%string) then "ON" else "OFF").

Definition fan_component (mac : bytes) (entity : espnow_entity_schema_t) (p : BridgeProtocol) :
    list (string * Doc) :=
  let options := parse_options_map (entity_options entity) in
  let speed_count := option_u32 options (str "speed_count") 0 in
  word "ic" "mdi:fan" ++ text "cmd_t" (command_topic_ mac entity p) ++
  on_off_words ["pl_on"; "pl_off"; "stat_on"; "stat_off"; "payload_on"; "payload_off"; "state_on"; "state_off"] ++
  (if 0 <? speed_count then
     let set := fan_speed_command_topic_ mac entity p in
     let state := fan_speed_state_topic_ mac entity p in
     text "pct_cmd_t" set ++ text "pct_stat_t" state ++ [("spd_rng_max"%string, DNum speed_count)] ++
     text "percentage_command_topic" set ++ text "percentage_state_topic" state ++
     [("speed_range_max"%string, DNum speed_count); ("speed_range_min"%string, DNum 1)]
   else []) ++
  (if option_is_true options (str "oscillation") then
     let set := fan_oscillation_command_topic_ mac entity p in
     let state := fan_oscillation_state_topic_ mac entity p in
     text "osc_cmd_t" set ++ text "osc_stat_t" state ++ text "oscillation_command_topic" set ++
     text "oscillation_state_topic" state ++ word "payload_oscillation_on" "oscillate_on" ++
     word "payload_oscillation_off" "oscillate_off"
   else []) ++
  (if option_is_true options (str "direction") then
     let set := fan_direction_command_topic_ mac entity p in
     let state := fan_direction_state_topic_ mac entity p in
     text "dir_cmd_t" set ++ text "dir_stat_t" state ++ text "direction_command_topic" set ++
     text "direction_state_topic" state ++ word "payload_direction_forward" "forward" ++
     word "payload_direction_reverse" "reverse"
   else []).

Definition light_component (mac : bytes) (entity : espnow_entity_schema_t) (p : BridgeProtocol) :
    list (string * Doc) :=
  let options := parse_options_map (entity_options entity) in
  let modes := option_list options (str "color_modes") in
  let effects := option_list options (str "effects") in
  let yes (b : bool) (key : string) := if b then [(key, DBool true)] else [] in
  word "ic" "mdi:lightbulb" ++ text "cmd_t" (command_topic_ mac entity p) ++ word "schema" "json" ++
  (if (length modes =? 0)%nat then [] else [("supported_color_modes"%string, DList (DText <$> modes))]) ++
  yes (has_color options DIMMABLE_MODES) "brt"%string ++ yes (has_color options RGB_MODES) "clr"%string ++
  yes (has_color options ["color_temp"]%string) "clr_temp"%string ++
  (if (length effects =? 0)%nat then []
   else [("effect_list"%string, DList (DText <$> effects)); ("effect"%string, DBool true)] ++
        text "effect_cmd_t" (command_topic_ mac entity p)).

Definition build_entity_component_ (mac : bytes) (entity : espnow_entity_schema_t) (p : BridgeProtocol) :
    list (string * Doc) :=
  let state := state_topic_ mac entity p in
  let command := text "cmd_t" (command_topic_ mac entity p) in
  text "p" (mqtt_component_for_type (entity_type entity)) ++ text "unique_id" (unique_id_ mac entity p) ++
  text "name" (entity_name entity) ++ text "stat_t" state ++
  (if (length (entity_unit entity) =? 0)%nat then [] else text "unit_of_meas" (entity_unit entity)) ++
  match field_type_of (entity_type entity) with
  | Some FIELD_TYPE_SWITCH =>
    word "ic" "mdi:toggle-switch" ++ command ++ on_off_words ["pl_on"; "pl_off"; "stat_on"; "stat_off"]
  | Some FIELD_TYPE_BINARY => word "ic" "mdi:check-circle-outline" ++ on_off_words ["pl_on"; "pl_off"]
  | Some FIELD_TYPE_LOCK =>
    word "ic" "mdi:lock" ++ command ++ word "pl_lock" "LOCK" ++ word "pl_unlk" "UNLOCK" ++
    word "stat_locked" "LOCKED" ++ word "stat_unlocked" "UNLOCKED" ++ word "payload_lock" "LOCK" ++
    word "payload_unlock" "UNLOCK" ++ word "state_locked" "LOCKED" ++ word "state_unlocked" "UNLOCKED"
  | Some FIELD_TYPE_BUTTON =>
    word "ic" "mdi:gesture-tap-button" ++ command ++ text "command_topic" (command_topic_ mac entity p)
  | Some FIELD_TYPE_COVER => word "ic" "mdi:window-shutter" ++ command ++ text "pos_t" state
  | Some FIELD_TYPE_VALVE => word "ic" "mdi:valve" ++ command ++ text "pos_t" state
  | Some FIELD_TYPE_FAN => fan_component mac entity p
  | Some FIELD_TYPE_LIGHT => light_component mac entity p
  | _ => []
  end.

Definition device_doc (id name : bytes) : Doc :=
  DObject (text "ids" id ++ text "name" name ++ word "mf" "ESP-NOW LR" ++ word "mdl" "Remote" ++
           text "sw" (dec ESPNOW_PROTOCOL_VER)).
Definition origin_doc : Doc :=
  DObject (word "name" "esp-tree-bridge" ++ text "sw" (dec ESPNOW_PROTOCOL_VER)).

Definition display_name_of (node : bytes) (m : ESPTreeBridgeMQTT) : bytes :=
  match sget node (mqtt_devices_ m) with Some d => dev_display_name d | None => node end.

Definition do_publish_discovery_ (key : bytes) (rec : MqttEntityRecord) : M St unit :=
  connected ← is_connected;
  if negb connected then mret tt
  else
    m ← this;
    p ← the_protocol;
    let mac := rec_leaf_mac rec in
    let entity := rec_schema rec in
    let topic := config_topic (mqtt_component_for_type (entity_type entity)) (node_key mac p)
                   (entity_object_id_ mac entity p) m in
    ok ← publish_json topic
           (text "default_entity_id" (default_entity_id_ mac entity p) ++
            text "avty_t" (availability_topic_ mac p) ++ word "pl_avail" "online" ++
            word "pl_not_avail" "offline" ++ [("o"%string, origin_doc);
            ("device"%string, device_doc (str "esp_tree_" ++ node_key mac p) (display_name_of (rec_node_id rec) m))] ++
            build_entity_component_ mac entity p) 1 true;
    subscribe_command_topic_ mac entity;;
    if negb ok then mret tt
    else
      now ← millis;
      with_entity key (fun r => r <| rec_discovery_published := true |>
        <| first_state_publish_pending := false |> <| rec_discovery_published_ms := now |>);;
      in_bridge (in_protocol (on_discovery_confirmed_ mac (entity_index entity) true)).

Fixpoint subscribe_all (mac : bytes) (entities : list (Z * espnow_entity_schema_t)) : M St unit :=
  match entities with
  | [] => mret tt
  | (_, e) :: entities => subscribe_command_topic_ mac e;; subscribe_all mac entities
  end.

Definition publish_device_discovery_ (mac : bytes) : M St unit :=
  connected ← is_connected;
  if negb connected then mret tt
  else
    m ← this;
    p ← the_protocol;
    let nk := node_key mac p in
    match sget nk (mqtt_devices_ m) with
    | None => mret tt
    | Some dev =>
      if (length (dev_entities dev) =? 0)%nat then mret tt
      else
        ok ← publish_json (device_topic nk m)
               [("dev"%string, device_doc (dev_device_id dev) (dev_display_name dev)); ("o"%string, origin_doc);
                ("availability"%string,
                 DList [DObject (text "topic" (availability_topic_ mac p) ++ word "payload_available" "online" ++
                                 word "payload_not_available" "offline")])] 1 true;
        subscribe_all mac (dev_entities dev);;
        if negb ok then mret tt
        else
          now ← millis;
          set_mqtt (fun m => m <| mqtt_devices_ ::= salter (fun d => d <| dev_discovery_dirty := false |>
            <| dev_discovery_published := true |> <| dev_discovery_published_ms := now |>) nk |>)
    end.

(** ** Commands *)
Definition handle_command_message_ (topic payload : bytes) : M St unit :=
  m ← this;
  match sget topic (command_routes_ m) with
  | None => mret tt
  | Some route =>
    p ← the_protocol;
    match get_session (route_leaf route) p with
    | None => mret tt
    | Some s =>
      match s_schema_entities s !! Z.to_nat (route_entity_index route) with
      | None => mret tt
      | Some entity =>
        let key := entity_record_key_ (route_leaf route) (route_entity_index route) p in
        let current := match sget key (mqtt_entities_ m) with
                       | Some rec => rec_current_value rec | None => [] end in
        match decode_command_payload_ true entity (route_kind route) payload current with
        | None => mret tt
        | Some value =>
          in_bridge (in_protocol (send_command_to_leaf (route_leaf route) (route_entity_index route) value));;
          mret tt
        end
      end
    end
  end.

Definition handle_force_rejoin_command_ (payload : bytes) : M St unit :=
  match parse_mac_hex_ (clean_mac payload) with
  | None => mret tt
  | Some mac => in_bridge (in_protocol (send_force_rejoin mac))
  end.

(** ** What the bridge queues *)
Fixpoint iput (index : Z) (e : espnow_entity_schema_t) (l : list (Z * espnow_entity_schema_t)) :
    list (Z * espnow_entity_schema_t) :=
  match l with
  | [] => [(index, e)]
  | x :: rest => if index =? x.1 then (index, e) :: rest
                 else if index <? x.1 then (index, e) :: l else x :: iput index e rest
  end.

Definition queue_discovery (mac : bytes) (entity : espnow_entity_schema_t) (total_entities : Z)
    (is_commandable : bool) (display_name : bytes) : M St unit :=
  p ← the_protocol;
  m ← this;
  let nk := node_key mac p in
  let key := entity_record_key_ mac (entity_index entity) p in
  let rec := default new_entity_record (sget key (mqtt_entities_ m)) in
  let rec := rec <| rec_leaf_mac := take 6 mac |> <| rec_node_id := nk |> <| rec_schema := entity |>
    <| rec_total_entities := total_entities |> <| rec_discovery_published := false |>
    <| first_state_publish_pending := false |> <| rec_discovery_published_ms := 0 |>
    <| rec_current_type := entity_type entity |> <| command_subscribed := is_commandable |> in
  let dev := default new_device_record (sget nk (mqtt_devices_ m)) in
  let dev := if (length (dev_node_id dev) =? 0)%nat
             then dev <| dev_leaf_mac := take 6 mac |> <| dev_node_id := nk |>
                    <| dev_device_id := str "esp_tree_" ++ nk |> <| dev_display_name := display_name |>
             else dev in
  let dev := dev <| dev_entities ::= iput (entity_index entity) entity |>
    <| dev_total_entities := total_entities |> <| dev_schema_complete := false |>
    <| dev_discovery_dirty := true |> <| dev_discovery_published := false |> in
  set_mqtt (fun m => m <| mqtt_entities_ ::= sput key rec |> <| mqtt_devices_ ::= sput nk dev |>).

Definition queue_state (mac : bytes) (entity : espnow_entity_schema_t) (value : bytes) (type : Z)
    (text_value_ : bytes) (message_tx_base : Z) (next_hop_mac display_name : bytes) : M St unit :=
  p ← the_protocol;
  m ← this;
  now ← millis;
  let key := entity_record_key_ mac (entity_index entity) p in
  let rec := default new_entity_record (sget key (mqtt_entities_ m)) in
  let rec := rec <| rec_leaf_mac := take 6 mac |>
    <| rec_schema := if entity_type (rec_schema rec) =? 0 then entity else rec_schema rec |>
    <| rec_current_value := value |> <| rec_current_type := type |> <| text_value := text_value_ |>
    <| state_dirty := true |> in
  let rec := if rec_discovery_published rec then rec else rec <| first_state_publish_pending := true |> in
  let rec := if (length next_hop_mac =? 0)%nat then rec
             else rec <| pending_state_ack_ := true |> <| pending_ack_message_tx_base_ := message_tx_base |>
                    <| pending_ack_entity_index_ := entity_index entity |>
                    <| pending_ack_queued_ms_ := now |> <| ack_next_hop_mac_ := take 6 next_hop_mac |> in
  set_mqtt (fun m => m <| mqtt_entities_ ::= sput key rec |>
    <| mqtt_devices_ ::= salter (fun d =>
         if (length (dev_display_name d) =? 0)%nat then d <| dev_display_name := display_name |> else d)
         (node_key mac p) |>).

Definition queue_remote_diag_refresh_ (mac : bytes) : M St unit :=
  when (negb (length mac =? 0)%nat)
    (set_mqtt (fun m => m <| remote_diag_refresh_pending_ ::= sput (mac_hex mac) tt |>
                          <| first_remote_diag_publish_pending_ ::= sput (mac_hex mac) tt |>)).

Definition queue_availability (mac : bytes) (online : bool) (reason : bytes) : M St unit :=
  set_mqtt (fun m => m <| availability_queue_ ::= fun q =>
    q ++ [{| av_mac := take 6 mac; av_online := online; av_reason := reason |}] |>);;
  if online then queue_remote_diag_refresh_ mac
  else set_mqtt (fun m => m <| remote_diag_refresh_pending_ ::= serase (mac_hex mac) |>).

(** One entity that is no longer there. *)
Definition clear_entity (mac : bytes) (old_entities : list espnow_entity_schema_t)
    (entity : espnow_entity_schema_t) : M St unit :=
  p ← the_protocol;
  m ← this;
  let object_id := entity_object_id_from_schema_ old_entities entity in
  let key := entity_record_key_ mac (entity_index entity) p in
  let pending :=
    {| clear_topic := config_topic (mqtt_component_for_type (entity_type entity)) (node_key mac p) object_id m;
       clear_command_topics := command_topics_for_object_id_ mac entity object_id p |} in
  set_mqtt (fun m => m <| pending_entity_clears_ ::= sput key pending |>);;
  remove_command_routes_for_entity_ mac (entity_index entity);;
  set_mqtt (fun m => m <| mqtt_entities_ ::= serase key |>).
Fixpoint clear_entities (mac : bytes) (old_entities entities : list espnow_entity_schema_t) : M St unit :=
  match entities with
  | [] => mret tt
  | e :: entities => clear_entity mac old_entities e;; clear_entities mac old_entities entities
  end.

Definition queue_clear_entities (mac : bytes) (old_entities : list espnow_entity_schema_t) : M St unit :=
  clear_entities mac old_entities old_entities;;
  p ← the_protocol;
  m ← this;
  let nk := node_key mac p in
  match sget nk (mqtt_devices_ m) with
  | None => mret tt
  | Some dev =>
    let dev := dev <| dev_entities ::= filter (fun e => e.1 ∉ entity_index <$> old_entities) |> in
    if (length (dev_entities dev) =? 0)%nat
    then set_mqtt (fun m => m <| pending_device_clears_ ::= sput nk (device_topic nk m) |>
                              <| mqtt_devices_ ::= serase nk |>)
    else set_mqtt (fun m => m <| mqtt_devices_ ::=
           sput nk (dev <| dev_discovery_dirty := true |> <| dev_discovery_published := false |>) |>)
  end.

Definition on_schema_complete (mac : bytes) : M St unit :=
  p ← the_protocol;
  now ← millis;
  set_mqtt (fun m => m <| mqtt_devices_ ::= salter (fun d => d <| dev_schema_complete := true |>
    <| dev_discovery_dirty := true |> <| dev_discovery_published := false |>) (node_key mac p) |>);;
  queue_remote_diag_refresh_ mac;;
  set_mqtt (fun m => m <| delayed_diag_refresh_pending_ ::=
    sput (mac_hex mac) (u32 (now + DIAG_DELAYED_REFRESH_DELAY_MS)) |>).

Definition set_bridge_diag (diag : BridgeDiag) : M St unit := set_mqtt (fun m => m <| bridge_diag := diag |>).

(** ** Diagnostics *)

(** A diagnostic sensor: suffix, name, unit, device class, state class, icon, precision. *)
Record DiagSensor := {
  ds_suffix : string; ds_name : string; ds_unit : option string; ds_class : option string;
  ds_state_class : option string; ds_icon : string; ds_precision : option Z
}.
Definition bridge_sensor (suffix name : string) (unit_ class state : option string) (icon : string)
    (precision : option Z) : DiagSensor :=
  {| ds_suffix := suffix; ds_name := name; ds_unit := unit_; ds_class := class; ds_state_class := state;
     ds_icon := icon; ds_precision := precision |}.
Definition measurement : option string := Some "measurement"%string.
Definition BRIDGE_SENSORS : list DiagSensor :=
  [bridge_sensor "wifi_signal" "WiFi Signal" (Some "dBm"%string) (Some "signal_strength"%string) measurement "mdi:wifi" None;
   bridge_sensor "uptime" "Uptime" (Some "s"%string) (Some "duration"%string) measurement "mdi:timer-outline" (Some 0);
   bridge_sensor "remotes_online" "Remotes Online" (Some "remotes"%string) None measurement "mdi:tree" None;
   bridge_sensor "remotes_direct" "Remotes Direct" (Some "remotes"%string) None measurement "mdi:account-group" None;
   bridge_sensor "wifi_channel" "WiFi Channel" None None measurement "mdi:wifi" (Some 0);
   bridge_sensor "mac_address" "MAC Address" None None None "mdi:identifier" None].
Definition TOPOLOGY_SENSOR : DiagSensor :=
  bridge_sensor "topology_url" "IP Address" None None None "mdi:ip" None.
Definition RAM_SENSOR : DiagSensor :=
  bridge_sensor "ram_usage" "RAM Usage" None None measurement "mdi:memory" (Some 1).

Definition REMOTE_SENSORS : list DiagSensor :=
  let remote suffix name unit_ class icon := bridge_sensor suffix name unit_ class None icon None in
  [remote "uptime_since_join" "Uptime Since Join" (Some "s") (Some "duration") "mdi:timer-outline";
   remote "last_seen" "Last Seen (seconds ago)" (Some "s") None "mdi:eye";
   remote "rssi_dbm" "RSSI" (Some "dBm") (Some "signal_strength") "mdi:wifi";
   remote "rssi_pct" "RSSI (percent)" (Some "%") None "mdi:signal";
   remote "tx_packets" "TX Packets" (Some "packets") None "mdi:arrow-up-bold";
   remote "rx_packets" "RX Packets" (Some "packets") None "mdi:arrow-down-bold";
   remote "hops_to_bridge" "Hops to Bridge" (Some "hops") None "mdi:swap-horizontal-bold";
   remote "chip_type" "Chip Type" None None "mdi:chip";
   remote "child_remotes_direct" "Direct Child Remotes" (Some "remotes") None "mdi:account-group";
   remote "child_remotes_total" "Total Child Remotes" (Some "remotes") None "mdi:family-tree";
   remote "esphome_name" "ESPHome Name" None None "mdi:identifier";
   remote "project_name" "Project Name" None None "mdi:code-tags";
   remote "project_version" "Project Version" None None "mdi:tag-outline";
   remote "mac_address" "MAC Address" None None "mdi:identifier"]%string.

Definition bridge_device (m : ESPTreeBridgeMQTT) : Doc :=
  DObject (text "ids" (str "esp_tree_bridge_" ++ mac_hex (mqtt_bridge_mac_ m)) ++
           text "name" (mqtt_bridge_name_ m) ++ word "mf" "ESP-NOW LR" ++ word "mdl" "Bridge").

Definition publish_bridge_sensor (d : DiagSensor) : M St bool :=
  m ← this;
  let mac := mac_hex (mqtt_bridge_mac_ m) in
  publish_json (config_topic (str "sensor") mac (str (ds_suffix d)) m)
    (word "name" (ds_name d) ++ text "uniq_id" (str "esp_tree_bridge_" ++ mac ++ str "_" ++ str (ds_suffix d)) ++
     text "stat_t" (bridge_state_topic_ (ds_suffix d) m) ++ word "ent_cat" "diagnostic" ++
     text_if "unit_of_meas" (ds_unit d) ++ text_if "dev_cla" (ds_class d) ++
     text_if "stat_cla" (ds_state_class d) ++ word "ic" (ds_icon d) ++
     match ds_precision d with Some n => [("suggested_display_precision"%string, DNum n)] | None => [] end ++
     [("device"%string, bridge_device m)]) 1 true.

(** [publish_sensor(...) && publish_sensor(...) && ...]. *)
Fixpoint publish_while_ok (f : DiagSensor -> M St bool) (l : list DiagSensor) : M St bool :=
  match l with
  | [] => mret true
  | d :: l => ok ← f d; if (ok : bool) then publish_while_ok f l else mret false
  end.

Definition publish_bridge_diag_discovery_ : M St unit :=
  connected ← is_connected;
  m ← this;
  if negb connected || bridge_diag_discovery_published_ m then mret tt
  else
    base_ok ← publish_while_ok publish_bridge_sensor BRIDGE_SENSORS;
    publish_bridge_sensor TOPOLOGY_SENSOR;;
    publish_bridge_sensor RAM_SENSOR;;
    when base_ok (set_mqtt (fun m => m <| bridge_diag_discovery_published_ := true |>)).

(** Publications one after the other, until the time of the tick is used up;
    the result says whether all were made. *)
Fixpoint publish_within_budget (l : list (bytes * bytes)) : M St bool :=
  match l with
  | [] => mret true
  | (topic, payload) :: l =>
    publish topic payload 1 false;; yield;;
    exceeded ← tick_budget_exceeded_;
    if (exceeded : bool) then mret false else publish_within_budget l
  end.

Definition bridge_diag_values (m : ESPTreeBridgeMQTT) : list (bytes * bytes) :=
  let d := bridge_diag m in
  let value (suffix : string) (v : bytes) := (bridge_state_topic_ suffix m, v) in
  [value "wifi_signal"%string (dec_int (cached_bridge_rssi_ d));
   value "mac_address"%string (mac_display (mqtt_bridge_mac_ m));
   value "uptime"%string (dec (cached_uptime_s_ d)); value "remotes_online"%string (dec (cached_remotes_online_ d));
   value "remotes_direct"%string (dec (cached_remotes_direct_ d))] ++
  (if 0 <=? cached_ram_pct_ d then [value "ram_usage"%string (dec (cached_ram_pct_ d))] else []) ++
  [value "wifi_channel"%string (dec (cached_wifi_channel_ d))].
Definition publish_bridge_diag_state_ : M St unit :=
  connected ← is_connected;
  m ← this;
  if negb connected || negb (bridge_diag_discovery_published_ m) then mret tt
  else publish_within_budget (bridge_diag_values m);; mret tt.

Definition publish_remote_sensor (mac node display_name : bytes) (d : DiagSensor) : M St bool :=
  m ← this;
  p ← the_protocol;
  publish_json (config_topic (str "sensor") node (str "diagnostic_" ++ str (ds_suffix d)) m)
    (word "name" (ds_name d) ++
     text "uniq_id" (str "esp_tree_" ++ node ++ str "_diagnostic_" ++ str (ds_suffix d)) ++
     text "stat_t" (remote_diag_state_topic_ mac (ds_suffix d) p) ++ text "avty_t" (availability_topic_ mac p) ++
     word "pl_avail" "online" ++ word "pl_not_avail" "offline" ++ word "ent_cat" "diagnostic" ++
     text_if "unit_of_meas" (ds_unit d) ++ text_if "dev_cla" (ds_class d) ++ word "ic" (ds_icon d) ++
     [("device"%string, device_doc (str "esp_tree_" ++ node) display_name)]) 1 true.

Definition publish_remote_diag_discovery_ (mac : bytes) : M St unit :=
  connected ← is_connected;
  m ← this;
  p ← the_protocol;
  let node := node_key mac p in
  if negb connected || (length mac =? 0)%nat || given (sget node (remote_diag_discovery_published_ m)) then mret tt
  else
    ok ← publish_while_ok (publish_remote_sensor mac node (display_name_of node m)) REMOTE_SENSORS;
    when ok (set_mqtt (fun m => m <| remote_diag_discovery_published_ ::= sput node tt |>)).

(** The time since the leaf joined and since it was heard, in seconds. *)
Definition uptime_of (s : BridgeSession) (now : Z) : Z :=
  if s_joined_ms s =? 0 then 0 else u32 (now - s_joined_ms s) / 1000.
Definition last_seen_of (s : BridgeSession) (now : Z) : Z :=
  if s_last_seen_bridge_uptime_s s =? 0 then 0 else u32 (now / 1000 - s_last_seen_bridge_uptime_s s).
Definition rssi_pct (rssi : Z) : Z :=
  if rssi <=? -100 then 0 else if -60 <=? rssi then 100 else (rssi + 100) * 5 / 2.

Definition remote_value (mac : bytes) (p : BridgeProtocol) (suffix : string) (v : bytes) : bytes * bytes :=
  (remote_diag_state_topic_ mac suffix p, v).
Fixpoint publish_all (l : list (bytes * bytes)) : M St unit :=
  match l with
  | [] => mret tt
  | [(topic, payload)] => publish topic payload 1 false;; mret tt
  | (topic, payload) :: l => publish topic payload 1 false;; yield;; publish_all l
  end.

Definition publish_remote_diag_state_ (mac : bytes) : M St unit :=
  connected ← is_connected;
  p ← the_protocol;
  now ← millis;
  match (if negb connected || (length mac =? 0)%nat then None else get_session mac p) with
  | None => mret tt
  | Some s =>
    let rssi := s_last_rssi s in
    let i := s_identity s in
    let value := remote_value mac p in
    publish (value "uptime_since_join" (dec (uptime_of s now))).1 (dec (uptime_of s now)) 1 false;;
    yield;;
    now ← millis;
    publish_all
      [value "last_seen" (dec (last_seen_of s now)); value "rssi_dbm" (dec_int rssi); value "rssi_pct" (dec (rssi_pct rssi));
       value "tx_packets" (dec (s_tx_packets s)); value "rx_packets" (dec (s_rx_packets s));
       value "hops_to_bridge" (dec (s_hops_to_bridge s)); value "chip_type" (chip_model_string (chip_model i));
       value "esphome_name" (esphome_name i); value "child_remotes_direct" (dec (s_direct_child_count s));
       value "child_remotes_total" (dec (s_total_child_count s)); value "project_name" (project_name i);
       value "project_version" (project_version i)]
  end.

Definition cache_of (s : BridgeSession) : RemoteDiagCache :=
  let i := s_identity s in
  {| cache_rssi := s_last_rssi s; cache_tx_packets := s_tx_packets s; cache_rx_packets := s_rx_packets s;
     cache_hops := s_hops_to_bridge s; cache_direct_children := s_direct_child_count s;
     cache_total_children := s_total_child_count s; cache_chip_model := chip_model i;
     cache_firmware_epoch := firmware_epoch i; cache_esphome_name := esphome_name i;
     cache_project_name := project_name i; cache_project_version := project_version i |}.
#[export] Instance diag_cache_dec : EqDecision RemoteDiagCache.
Proof. solve_decision. Defined.

Definition publish_remote_diag_state_cached_ (mac node : bytes) : M St unit :=
  connected ← is_connected;
  p ← the_protocol;
  m ← this;
  now ← millis;
  match (if negb connected || (length mac =? 0)%nat then None else get_session mac p) with
  | None => mret tt
  | Some s =>
    let cache := default new_diag_cache (sget node (remote_diag_cache_ m)) in
    let fresh := cache_of s in
    let value := remote_value mac p in
    let i := s_identity s in
    if negb (given (sget node (first_remote_diag_publish_pending_ m))) && bool_decide (fresh = cache)
    then publish_all [value "last_seen" (dec (last_seen_of s now))]
    else
      done ← publish_within_budget
        [value "uptime_since_join" (dec (uptime_of s now)); value "mac_address" (mac_display mac);
         value "last_seen" (dec (last_seen_of s now)); value "rssi_dbm" (dec_int (s_last_rssi s));
         value "rssi_pct" (dec (rssi_pct (s_last_rssi s))); value "tx_packets" (dec (s_tx_packets s));
         value "rx_packets" (dec (s_rx_packets s)); value "hops_to_bridge" (dec (s_hops_to_bridge s));
         value "chip_type" (chip_model_string (chip_model i)); value "esphome_name" (esphome_name i);
         value "child_remotes_direct" (dec (s_direct_child_count s));
         value "child_remotes_total" (dec (s_total_child_count s))];
      if negb done then mret tt
      else
        done ← (if bytes_eqb (project_name i) (cache_project_name cache) then mret true
                else publish_within_budget [value "project_name" (project_name i)]);
        if negb done then mret tt
        else
          when (negb (bytes_eqb (project_version i) (cache_project_version cache)))
            (publish (value "project_version" (project_version i)).1 (project_version i) 1 false;; yield);;
          set_mqtt (fun m => m <| remote_diag_cache_ ::= sput node fresh |>
                               <| first_remote_diag_publish_pending_ ::= serase node |>)
  end.

(** The first session in the order of the addresses with that node key. *)
Definition get_remote_mac_by_node_key (node : bytes) (p : BridgeProtocol) : option bytes :=
  s_leaf_mac <$> find (fun s => bytes_eqb (sanitize_object_id (esphome_name (s_identity s))) node
                                || bytes_eqb (mac_hex (s_leaf_mac s)) node) (sessions_in_order p).

Definition check_diag_publish_rr_ : M St unit :=
  now ← millis;
  m ← this;
  p ← the_protocol;
  let total := 1 + Z.of_nat (length (remote_diag_discovery_published_ m)) in
  if u32 (now - diag_last_any_publish_ms_ m) <? DIAG_SPACING_MS then mret tt
  else
    let index := (diag_rr_index_ m + 1) mod total in
    set_mqtt (fun m => m <| diag_rr_index_ := index |>);;
    if index =? 0 then
      when (DIAG_MIN_INTERVAL_MS <=? u32 (now - last_published_bridge_diag_ms_ m))
        (publish_bridge_diag_state_;;
         set_mqtt (fun m => m <| last_published_bridge_diag_ms_ := now |> <| diag_last_any_publish_ms_ := now |>))
    else
      match remote_diag_discovery_published_ m !! Z.to_nat (index - 1) with
      | None => mret tt
      | Some (node, _) =>
        let last_ms := default 0 (sget node (remote_diag_last_publish_ms_ m)) in
        match (if DIAG_MIN_INTERVAL_MS <=? u32 (now - last_ms) then get_remote_mac_by_node_key node p else None) with
        | None => mret tt
        | Some mac =>
          publish_remote_diag_state_cached_ mac node;;
          set_mqtt (fun m => m <| remote_diag_last_publish_ms_ ::= sput node now |>
                               <| diag_last_any_publish_ms_ := now |>)
        end
      end.

Definition publish_force_rejoin_button_discovery_ : M St unit :=
  connected ← is_connected;
  m ← this;
  if negb connected || force_rejoin_button_discovery_published_ m then mret tt
  else
    let mac := mac_hex (mqtt_bridge_mac_ m) in
    ok ← publish_json (config_topic (str "button") mac (str "force_rejoin") m)
           (word "name" "Force Rejoin" ++ text "uniq_id" (str "esp_tree_bridge_" ++ mac ++ str "_force_rejoin") ++
            text "cmd_t" (force_rejoin_command_topic_ m) ++ word "ent_cat" "diagnostic" ++
            word "ic" "mdi:restart" ++ word "pl_prs" "PRESS" ++ [("device"%string, bridge_device m)]) 1 true;
    when ok (set_mqtt (fun m => m <| force_rejoin_button_discovery_published_ := true |>)).

(** ** The tick: each part says whether the tick ends *)
Definition just_connected : M St unit :=
  set_mqtt (fun m => m <| mqtt_retry_count_ := 0 |> <| mqtt_backoff_until_ms_ := 0 |>
    <| mqtt_devices_ ::= fmap (fun e : bytes * MqttDeviceRecord => (e.1, e.2 <| dev_discovery_dirty := true |>
         <| dev_discovery_published := false |> <| dev_schema_complete := true |>)) |>
    <| mqtt_entities_ ::= fmap (fun e : bytes * MqttEntityRecord =>
         (e.1, e.2 <| rec_discovery_published := false |> <| state_dirty := true |>)) |>
    <| bridge_diag_discovery_published_ := false |> <| remote_diag_discovery_published_ := [] |>
    <| remote_diag_refresh_pending_ := [] |> <| first_remote_diag_publish_pending_ := [] |>
    <| delayed_diag_refresh_pending_ := [] |>);;
  p ← the_protocol;
  foldr (fun s next => queue_remote_diag_refresh_ (s_leaf_mac s);; next) (mret tt)
    (List.filter s_online (sessions_in_order p)).

Definition tick_start : M St bool :=
  now ← millis;
  set_mqtt (fun m => m <| tick_enter_ms_ := now |>);;
  connected ← is_connected;
  m ← this;
  if negb connected then set_mqtt (fun m => m <| mqtt_was_connected_ := false |>);; mret true
  else if negb (mqtt_backoff_until_ms_ m =? 0) && (now <? mqtt_backoff_until_ms_ m) then mret true
  else
    set_mqtt (fun m => m <| mqtt_backoff_until_ms_ := 0 |>);;
    when (negb (mqtt_was_connected_ m)) just_connected;;
    set_mqtt (fun m => m <| mqtt_was_connected_ := true |>);;
    mret false.

Definition tick_bridge_discovery : M St bool :=
  m ← this;
  if bridge_diag_discovery_published_ m then mret false
  else
    publish_force_rejoin_button_discovery_;;
    exceeded ← tick_budget_exceeded_;
    if (exceeded : bool) then mret true
    else publish_bridge_diag_discovery_;; tick_budget_exceeded_.

(** [do_clear_entity_], [do_clear_device_discovery_]: an empty retained message. *)
Definition do_clear (topic : bytes) : M St bool :=
  connected ← is_connected;
  if negb connected then mret false else publish topic [] 1 true.

Definition tick_entity_clears : M St bool :=
  m ← this;
  match pending_entity_clears_ m with
  | [] => mret false
  | (key, clear) :: _ =>
    exceeded ← tick_budget_exceeded_;
    if (exceeded : bool) then mret true
    else
      ok ← do_clear (clear_topic clear);
      if negb ok then mret false
      else
        set_mqtt (fun m => m <| command_routes_ ::= fun routes => foldr serase routes (clear_command_topics clear) |>);;
        yield;;
        set_mqtt (fun m => m <| pending_entity_clears_ ::= serase key |>);;
        mret true
  end.

Definition tick_device_clears : M St bool :=
  m ← this;
  match pending_device_clears_ m with
  | [] => mret false
  | (key, topic) :: _ =>
    exceeded ← tick_budget_exceeded_;
    if (exceeded : bool) then mret true
    else
      ok ← do_clear topic;
      if negb ok then mret false
      else yield;; set_mqtt (fun m => m <| pending_device_clears_ ::= serase key |>);; mret true
  end.

Definition tick_availability : M St bool :=
  m ← this;
  match availability_queue_ m with
  | [] => mret false
  | front :: queue =>
    set_mqtt (fun m => m <| availability_queue_ := queue |>);;
    p ← the_protocol;
    publish (availability_topic_ (av_mac front) p) (str (if av_online front then "online" else "offline")) 1 false;;
    yield;; mret true
  end.

(** The address the keys of the refresh sets are made of. *)
Definition key_mac (key : bytes) : bytes := default (replicate 6 0) (parse_hex_bytes 6 key).

Fixpoint delayed_refresh (pending : list (bytes * Z)) : M St unit :=
  match pending with
  | [] => mret tt
  | (key, due) :: pending =>
    exceeded ← tick_budget_exceeded_;
    if (exceeded : bool) then mret tt
    else
      now ← millis;
      when (due <=? now)
        (p ← the_protocol;
         m ← this;
         let mac := key_mac key in
         let node := node_key mac p in
         when (given (sget node (remote_diag_discovery_published_ m)))
           (publish_remote_diag_state_cached_ mac node;;
            set_mqtt (fun m => m <| first_remote_diag_publish_pending_ ::= serase node |>));;
         set_mqtt (fun m => m <| delayed_diag_refresh_pending_ ::= serase key |>));;
      delayed_refresh pending
  end.
Definition tick_delayed_refresh : M St bool :=
  m ← this; delayed_refresh (delayed_diag_refresh_pending_ m);; mret false.

Fixpoint refresh_one (pending : list (bytes * unit)) : M St bool :=
  match pending with
  | [] => mret false
  | (key, _) :: pending =>
    p ← the_protocol;
    m ← this;
    let mac := key_mac key in
    match get_session mac p with
    | None => refresh_one pending
    | Some s =>
      if negb (s_online s) then refresh_one pending
      else if negb (given (sget (node_key mac p) (remote_diag_discovery_published_ m)))
      then publish_remote_diag_discovery_ mac;; mret true
      else
        publish_remote_diag_state_ mac;;
        set_mqtt (fun m => m <| remote_diag_refresh_pending_ ::= serase key |>
                             <| first_remote_diag_publish_pending_ ::= serase key |>);;
        mret true
    end
  end.
Definition tick_refresh : M St bool := m ← this; refresh_one (remote_diag_refresh_pending_ m).

Definition tick_device_discovery : M St bool :=
  m ← this;
  match find (fun e => dev_discovery_dirty e.2) (mqtt_devices_ m) with
  | None => mret false
  | Some (_, dev) => publish_device_discovery_ (dev_leaf_mac dev);; mret false
  end.

(** At most one discovery, or two states. *)
Fixpoint tick_entities (keys : list bytes) (states_processed : nat) : M St bool :=
  match keys with
  | [] => mret false
  | key :: keys =>
    exceeded ← tick_budget_exceeded_;
    if (exceeded : bool) then mret false
    else
      m ← this;
      match sget key (mqtt_entities_ m) with
      | None => mret false
      | Some rec =>
        let dev_published := match sget (rec_node_id rec) (mqtt_devices_ m) with
                             | Some d => dev_discovery_published d | None => false end in
        if negb (rec_discovery_published rec) && dev_published then do_publish_discovery_ key rec;; mret false
        else if state_dirty rec && rec_discovery_published rec then
          now ← millis;
          if first_state_publish_pending rec
             && (u32 (now - rec_discovery_published_ms rec) <? FIRST_STATE_PUBLISH_GRACE_MS)
          then tick_entities keys states_processed
          else
            with_entity key (fun r => r <| first_state_publish_pending := false |>);;
            do_publish_state_ key (rec <| first_state_publish_pending := false |>);;
            if (1 <=? states_processed)%nat then mret false else tick_entities keys (S states_processed)
        else tick_entities keys states_processed
      end
  end.

Definition tick_diag : M St bool :=
  now ← millis;
  m ← this;
  when (next_diag_check_ms_ m <=? now)
    (check_diag_publish_rr_;;
     now ← millis;
     random ← platform esp_random;
     set_mqtt (fun m => m <| next_diag_check_ms_ :=
       u32 (now + DIAG_CHECK_INTERVAL_MS + random mod (2 * DIAG_JITTER_MS) - DIAG_JITTER_MS) |>));;
  mret false.

Fixpoint until_true (parts : list (M St bool)) : M St unit :=
  match parts with
  | [] => mret tt
  | part :: parts => ended ← part; if (ended : bool) then mret tt else until_true parts
  end.
Definition tick_states : M St bool := m ← this; tick_entities (fst <$> mqtt_entities_ m) 0.
Definition tick : M St unit :=
  until_true [tick_start; tick_bridge_discovery; tick_entity_clears; tick_device_clears; tick_availability;
              tick_delayed_refresh; tick_refresh; tick_device_discovery; tick_states; tick_diag].
End mqtt.
End ESPTreeBridgeMQTT.
