(* ===== verification/MqttProps.v ===== *)
(** * MqttProps: the export to MQTT over time

    The invariant of the exporter in every state it can reach, and what a remote
    that changed its name does to the devices after it. *)
From stdpp Require Import sorting.
From S2P Require Import Prelude Wire Crypto Frames Fragments OtaManager BridgeSession BridgeProtocol BridgeLoop ProtoMessages WebSocket ApiTransport BridgeComponent EntityText EntityCommand RuntimeEvents MqttExport.

Import ESPTreeBridgeMQTT.

(** ** Maps in key order *)
Definition key_lt {A} (x y : bytes * A) : Prop := string_lt x.1 y.1 = true.
Abbreviation in_order l := (StronglySorted key_lt l).

Lemma string_lt_trans a b c : string_lt a b = true -> string_lt b c = true -> string_lt a c = true.
Proof.
  revert b c. induction a as [|x a IH]; intros [|y b] [|z c]; cbn; try done.
  intros H1 H2. apply orb_true_iff in H1, H2. apply orb_true_iff.
  destruct H1 as [H1|H1], H2 as [H2|H2]; zprop; [left; lia..|].
  right. apply andb_true_intro. split; [apply Z.eqb_eq; lia|eauto].
Qed.
Lemma string_lt_total a b : a <> b -> string_lt a b = false -> string_lt b a = true.
Proof.
  revert b. induction a as [|x a IH]; intros [|y b] Hne; cbn; try done.
  intros E. apply orb_false_iff in E as [E1 E2]. apply Z.ltb_ge in E1. apply orb_true_iff.
  destruct (Z.eqb_spec x y) as [->|]; [|left; apply Z.ltb_lt; lia].
  right. rewrite Z.eqb_refl. apply IH; [congruence|]. by rewrite ?Z.eqb_refl in E2.
Qed.

#[local] Arguments sget : simpl never.
#[local] Arguments salter : simpl never.
Section maps.
Context {A : Type}.
Implicit Types l : list (bytes * A).

Lemma sget_cons key e l : sget key (e :: l) = if bytes_eqb e.1 key then Some e.2 else sget key l.
Proof. unfold sget. cbn. by destruct (bytes_eqb e.1 key). Qed.

Lemma sget_sput k key v l : sget k (sput key v l) = if bytes_eqb key k then Some v else sget k l.
Proof.
  induction l as [|e l IH]; cbn; [by rewrite sget_cons|].
  destruct (bytes_eqb key e.1) eqn:E1; [|destruct (string_lt key e.1)].
  - apply bytes_eqb_true in E1 as ->. rewrite !sget_cons. cbn. by destruct (bytes_eqb e.1 k).
  - by rewrite sget_cons.
  - rewrite !sget_cons, IH. destruct (bytes_eqb e.1 k) eqn:E2; [|done].
    apply bytes_eqb_true in E2 as <-. by rewrite E1.
Qed.
Lemma sget_serase k key l : sget k (serase key l) = if bytes_eqb key k then None else sget k l.
Proof.
  unfold serase. induction l as [|e l IH]; [by destruct (bytes_eqb key k)|].
  rewrite filter_cons. destruct (decide _) as [E|E]; rewrite ?sget_cons, IH.
  - destruct (bytes_eqb e.1 k) eqn:E2; [|done]. apply bytes_eqb_true in E2 as <-.
    destruct (bytes_eqb key e.1) eqn:E3; [|done].
    apply bytes_eqb_true in E3 as ->. by rewrite bytes_eqb_refl in E.
  - apply not_false_is_true, bytes_eqb_true in E as ->. by destruct (bytes_eqb key k).
Qed.
Lemma sget_salter f k key l :
  sget k (salter f key l) = if bytes_eqb key k then f <$> sget k l else sget k l.
Proof.
  unfold salter. induction l as [|e l IH]; [by destruct (bytes_eqb key k)|].
  rewrite fmap_cons, !sget_cons, IH. destruct (bytes_eqb e.1 key) eqn:E1; cbn.
  - apply bytes_eqb_true in E1 as <-. by destruct (bytes_eqb e.1 k).
  - destruct (bytes_eqb e.1 k) eqn:E2; [|by destruct (bytes_eqb key k)].
    apply bytes_eqb_true in E2 as <-. destruct (bytes_eqb key e.1) eqn:E3; [|done].
    apply bytes_eqb_true in E3 as ->. by rewrite bytes_eqb_refl in E1.
Qed.
Lemma sget_map (f : A -> A) k l : sget k ((fun e : bytes * A => (e.1, f e.2)) <$> l) = f <$> sget k l.
Proof.
  induction l as [|e l IH]; [done|]. rewrite fmap_cons, !sget_cons, IH. cbn.
  by destruct (bytes_eqb e.1 k).
Qed.

Lemma order_sput key v l : in_order l -> in_order (sput key v l).
Proof.
  induction 1 as [|e l Hl IH He]; cbn; [by repeat constructor|].
  destruct (bytes_eqb key e.1) eqn:E1; [|destruct (string_lt key e.1) eqn:E2].
  - apply bytes_eqb_true in E1 as ->. by constructor.
  - constructor; [by constructor|]. constructor; [done|].
    eapply Forall_impl; [exact He|]. intros x Hx. by eapply string_lt_trans.
  - constructor; [done|]. apply bytes_eqb_false in E1.
    assert (He' : key_lt e (key, v)) by (by apply string_lt_total).
    clear -He He'. induction l as [|x l IH]; cbn; [by repeat constructor|].
    inversion_clear He. repeat case_match; repeat constructor; auto.
Qed.
Lemma order_serase key l : in_order l -> in_order (serase key l).
Proof.
  induction 1 as [|e l Hl IH He]; [constructor|]. unfold serase in *. rewrite filter_cons.
  destruct (decide _); [|done]. constructor; [done|].
  clear -He. induction He; [constructor|]. rewrite filter_cons. destruct (decide _); [by constructor|done].
Qed.
Lemma order_map (f : bytes * A -> bytes * A) l : (forall e, (f e).1 = e.1) -> in_order l -> in_order (f <$> l).
Proof.
  intros Hf. induction 1 as [|e l Hl IH He]; [constructor|]. cbn. constructor; [done|].
  apply Forall_fmap. eapply Forall_impl; [exact He|]. intros x Hx. unfold key_lt. cbn. by rewrite !Hf.
Qed.
Lemma order_salter f key l : in_order l -> in_order (salter f key l).
Proof. apply order_map. intros e. by destruct (bytes_eqb e.1 key). Qed.

(** What holds of every entry. *)
Definition every (P : bytes -> A -> Prop) l : Prop := forall k v, sget k l = Some v -> P k v.
Lemma every_sput (P : bytes -> A -> Prop) key v l : P key v -> every P l -> every P (sput key v l).
Proof.
  intros Hv Hl k v'. rewrite sget_sput. destruct (bytes_eqb key k) eqn:E; [|apply Hl].
  apply bytes_eqb_true in E as <-. by intros [= <-].
Qed.
Lemma every_serase (P : bytes -> A -> Prop) key l : every P l -> every P (serase key l).
Proof. intros Hl k v. rewrite sget_serase. destruct (bytes_eqb key k); [done|apply Hl]. Qed.
Lemma every_salter (P : bytes -> A -> Prop) f key l :
  (forall v, sget key l = Some v -> P key v -> P key (f v)) -> every P l -> every P (salter f key l).
Proof.
  intros Hf Hl k v. rewrite sget_salter. destruct (bytes_eqb key k) eqn:E; [|apply Hl].
  apply bytes_eqb_true in E as <-. intros (v' & Hv & ->)%fmap_Some_1. auto.
Qed.
Lemma every_map (P : bytes -> A -> Prop) (f : A -> A) l :
  (forall k v, P k v -> P k (f v)) -> every P l ->
  every P ((fun e : bytes * A => (e.1, f e.2)) <$> l).
Proof. intros Hf Hl k v. rewrite sget_map. intros (v' & Hv & ->)%fmap_Some_1. auto. Qed.
End maps.

Lemma string_lt_irrefl a : string_lt a a = false.
Proof. induction a as [|x a IH]; [done|]. cbn. by rewrite Z.ltb_irrefl, Z.eqb_refl, IH. Qed.
Lemma sget_elem {A} k (v : A) l : sget k l = Some v -> (k, v) ∈ l.
Proof.
  induction l as [|e l IH]; [done|]. rewrite sget_cons. destruct (bytes_eqb e.1 k) eqn:E; [|by right; auto].
  apply bytes_eqb_true in E as <-. intros [= <-]. destruct e. left.
Qed.
Lemma sublist_order {A} (l l' : list (bytes * A)) : l `sublist_of` l' -> in_order l' -> in_order l.
Proof.
  induction 1 as [|e l l' Hs IH|e l l' Hs IH]; [done|..]; inversion_clear 1 as [|? ? Hl' He]; [|auto].
  constructor; [auto|]. apply Forall_forall. intros x Hx. eapply Forall_forall; [exact He|].
  by eapply elem_of_sublist.
Qed.
Lemma sublist_sget {A} (l l' : list (bytes * A)) k v :
  in_order l' -> l `sublist_of` l' -> sget k l = Some v -> sget k l' = Some v.
Proof.
  intros Hl Hs. induction Hs as [|e l l' Hs IH|e l l' Hs IH]; [done|..]; inversion_clear Hl as [|? ? Hl' He].
  - rewrite !sget_cons. case_match; auto.
  - intros Hk. rewrite sget_cons. destruct (bytes_eqb e.1 k) eqn:E; [|auto]. apply bytes_eqb_true in E as <-.
    exfalso. apply sget_elem in Hk. eapply elem_of_sublist in Hk; [|exact Hs]. eapply Forall_forall in He; [|exact Hk].
    unfold key_lt in He. cbn in He. by rewrite string_lt_irrefl in He.
Qed.


Section mqtt.
Context {W : Type} `{!BridgeEnv W} `{Hhmac : !Hmac} `{!SocketEnv W} `{!ComponentEnv W} `{!FloatText} `{!CommandText}.
Context `{!MqttEnv W}.
Abbreviation St := (ESPTreeBridgeMQTT * (ESPTreeBridge * W))%type.

(** ** What a tick is made of

    The bridge is told of a state only after the client took its publication,
    and nothing else than these moves touches the tables or the bridge. *)
Definition tables (m : ESPTreeBridgeMQTT) :=
  (mqtt_entities_ m, mqtt_devices_ m, command_routes_ m, subscribed_topics_ m, mqtt_retry_count_ m).
Definition discover_entity (now : Z) (r : MqttEntityRecord) : MqttEntityRecord :=
  r <| rec_discovery_published := true |> <| first_state_publish_pending := false |>
    <| rec_discovery_published_ms := now |>.
Definition discover_device (now : Z) (d : MqttDeviceRecord) : MqttDeviceRecord :=
  d <| dev_discovery_dirty := false |> <| dev_discovery_published := true |>
    <| dev_discovery_published_ms := now |>.
Definition state_taken (acknowledged : bool) (r : MqttEntityRecord) : MqttEntityRecord :=
  r <| text_value := [] |> <| state_dirty := false |> <| first_state_publish_pending := false |>
    <| pending_state_ack_ ::= andb (negb acknowledged) |>.
Definition forget_device (d : MqttDeviceRecord) : MqttDeviceRecord :=
  d <| dev_discovery_dirty := true |> <| dev_discovery_published := false |> <| dev_schema_complete := true |>.
Definition forget_entity (r : MqttEntityRecord) : MqttEntityRecord :=
  r <| rec_discovery_published := false |> <| state_dirty := true |>.
Definition is_published (node : bytes) (m : ESPTreeBridgeMQTT) : bool :=
  match sget node (mqtt_devices_ m) with Some d => dev_discovery_published d | None => false end.

Inductive move : St -> St -> Prop :=
  | mv_other m m' b w w' : tables m' = tables m -> move (m, (b, w)) (m', (b, w'))
  | mv_back_off m b : mqtt_retry_count_ m < 7 ->
      move (m, b) (m <| mqtt_retry_count_ ::= Z.add 1 |>, b)
  | mv_reconnect m b :
      move (m, b) (m <| mqtt_retry_count_ := 0 |>
        <| mqtt_devices_ ::= fmap (fun e : bytes * MqttDeviceRecord => (e.1, forget_device e.2)) |>
        <| mqtt_entities_ ::= fmap (fun e : bytes * MqttEntityRecord => (e.1, forget_entity e.2)) |>, b)
  | mv_subscribe topic m b : move (m, b) (m <| subscribed_topics_ ::= sput topic tt |>, b)
  | mv_route topic route m b : given (sget topic (subscribed_topics_ m)) = true ->
      move (m, b) (m <| command_routes_ ::= sput topic route |>, b)
  | mv_unroute f m b : f (command_routes_ m) `sublist_of` command_routes_ m ->
      move (m, b) (m <| command_routes_ ::= f |>, b)
  | mv_device key d now m b :
      find (fun e => dev_discovery_dirty e.2) (mqtt_devices_ m) = Some (key, d) ->
      move (m, b) (m <| mqtt_devices_ ::= salter (discover_device now) (node_key (dev_leaf_mac d) (protocol_ b.1)) |>, b)
  | mv_entity key rec now m b :
      sget key (mqtt_entities_ m) = Some rec -> rec_discovery_published rec = false ->
      is_published (rec_node_id rec) m = true ->
      move (m, b) (m <| mqtt_entities_ ::= salter (discover_entity now) key |>,
        (in_protocol (on_discovery_confirmed_ (rec_leaf_mac rec) (entity_index (rec_schema rec)) true) b).2)
  | mv_state key rec s s1 :
      sget key (mqtt_entities_ s.1) = Some rec -> rec_discovery_published rec = true -> state_dirty rec = true ->
      publish_record rec s = (true, s1) ->
      move s (s1.1 <| mqtt_entities_ ::= salter (state_taken (pending_state_ack_ rec)) key |>,
        if pending_state_ack_ rec
        then (mark_mqtt_state_delivered (rec_leaf_mac rec) (pending_ack_entity_index_ rec)
                (pending_ack_message_tx_base_ rec) s1.2).2
        else s1.2)
  | mv_grace_over key m b :
      move (m, b) (m <| mqtt_entities_ ::= salter (fun r => r <| first_state_publish_pending := false |>) key |>, b).

#[local] Instance moves_preorder : PreOrder (rtc move) := _.

(** Steps that touch neither the tables nor the bridge. *)
Definition quiet (s s' : St) : Prop := tables s'.1 = tables s.1 /\ s'.2.1 = s.2.1.
#[local] Instance quiet_preorder : PreOrder quiet.
Proof.
  split; [by split|]. intros s1 s2 s3 [H12 H12'] [H23 H23']. by split; congruence.
Qed.
Lemma moves_quiet {A} (m : M St A) : keeps quiet m -> keeps (rtc move) m.
Proof.
  intros Hm s. destruct (Hm s) as [Ht Hb]. destruct s as [m1 [b1 w1]], (m _).2 as [m2 [b2 w2]].
  cbn in *. subst b2. apply rtc_once. by constructor.
Qed.

Create HintDb mqtt_quiet discriminated.
Lemma quiet_this : keeps quiet this. Proof. by intros s. Qed.
Lemma quiet_protocol : keeps quiet the_protocol. Proof. by intros s. Qed.
Lemma quiet_millis : keeps quiet millis. Proof. by intros s. Qed.
Lemma quiet_connected : keeps quiet is_connected. Proof. by intros s. Qed.
Lemma quiet_platform {A} (f : W -> A * W) : keeps quiet (platform f).
Proof. intros s. unfold platform. by destruct (f s.2.2). Qed.
Lemma quiet_set f : (forall m, tables (f m) = tables m) -> keeps quiet (set_mqtt f).
Proof. intros Hf s. split; [apply Hf|done]. Qed.
#[local] Hint Resolve quiet_this quiet_protocol quiet_millis quiet_connected : mqtt_quiet.
#[local] Hint Resolve quiet_platform : mqtt_quiet.
#[local] Hint Extern 1 (keeps quiet (set_mqtt _)) => apply quiet_set; done : mqtt_quiet.
Ltac quietly := keeps_go ltac:(solve [eauto with mqtt_quiet nocore]).

Lemma quiet_publish topic payload q r : keeps quiet (publish topic payload q r).
Proof. apply quiet_platform. Qed.
Lemma quiet_publish_json topic doc q r : keeps quiet (publish_json topic doc q r).
Proof. apply quiet_platform. Qed.
Lemma quiet_yield : keeps quiet yield.
Proof. apply quiet_platform. Qed.
Lemma quiet_budget : keeps quiet tick_budget_exceeded_.
Proof. unfold tick_budget_exceeded_. quietly. Qed.
#[local] Hint Resolve quiet_publish quiet_publish_json quiet_yield quiet_budget : mqtt_quiet.

Lemma quiet_all l : keeps quiet (publish_all l).
Proof. induction l as [|[t v] l IH]; cbn [publish_all]; [|destruct l]; quietly. Qed.
Lemma quiet_within l : keeps quiet (publish_within_budget l).
Proof. induction l as [|[t v] l IH]; cbn [publish_within_budget]; quietly. Qed.
Lemma quiet_while f l : (forall d, keeps quiet (f d)) -> keeps quiet (publish_while_ok f l).
Proof. intros Hf. induction l as [|d l IH]; cbn [publish_while_ok]; quietly. Qed.
#[local] Hint Resolve quiet_all quiet_within quiet_while : mqtt_quiet.
Lemma quiet_next c topic payload ok : keeps quiet (publish_next c topic payload ok).
Proof. unfold publish_next. quietly. Qed.
#[local] Hint Resolve quiet_next : mqtt_quiet.
Lemma quiet_record rec : keeps quiet (publish_record rec).
Proof. unfold publish_record, publish_fan. quietly. Qed.
Lemma quiet_button : keeps quiet publish_force_rejoin_button_discovery_.
Proof. unfold publish_force_rejoin_button_discovery_. quietly. Qed.
Lemma quiet_bridge_sensor d : keeps quiet (publish_bridge_sensor d).
Proof. unfold publish_bridge_sensor. quietly. Qed.
Lemma quiet_remote_sensor mac node name d : keeps quiet (publish_remote_sensor mac node name d).
Proof. unfold publish_remote_sensor. quietly. Qed.
#[local] Hint Resolve quiet_record quiet_button quiet_bridge_sensor quiet_remote_sensor : mqtt_quiet.
Lemma quiet_bridge_discovery : keeps quiet publish_bridge_diag_discovery_.
Proof. unfold publish_bridge_diag_discovery_. quietly. Qed.
Lemma quiet_bridge_state : keeps quiet publish_bridge_diag_state_.
Proof. unfold publish_bridge_diag_state_. quietly. Qed.
Lemma quiet_remote_discovery mac : keeps quiet (publish_remote_diag_discovery_ mac).
Proof. unfold publish_remote_diag_discovery_. quietly. Qed.
Lemma quiet_remote_state mac : keeps quiet (publish_remote_diag_state_ mac).
Proof. unfold publish_remote_diag_state_. quietly. Qed.
Lemma quiet_remote_cached mac node : keeps quiet (publish_remote_diag_state_cached_ mac node).
Proof. unfold publish_remote_diag_state_cached_. quietly. Qed.
Lemma quiet_refresh mac : keeps quiet (queue_remote_diag_refresh_ mac).
Proof. unfold queue_remote_diag_refresh_. quietly. Qed.
#[local] Hint Resolve quiet_bridge_discovery quiet_bridge_state quiet_remote_discovery quiet_remote_state : mqtt_quiet.
#[local] Hint Resolve quiet_remote_cached quiet_refresh : mqtt_quiet.
Lemma quiet_round_robin : keeps quiet check_diag_publish_rr_.
Proof. unfold check_diag_publish_rr_. quietly. Qed.
Lemma quiet_delayed l : keeps quiet (delayed_refresh l).
Proof. induction l as [|[k due] l IH]; cbn [delayed_refresh]; quietly. Qed.
Lemma quiet_refresh_one l : keeps quiet (refresh_one l).
Proof. induction l as [|[k u] l IH]; cbn [refresh_one]; quietly. Qed.
Lemma quiet_clear topic : keeps quiet (do_clear topic).
Proof. unfold do_clear. quietly. Qed.
#[local] Hint Resolve quiet_round_robin quiet_delayed quiet_refresh_one quiet_clear : mqtt_quiet.

(** ** The parts of a tick *)
Lemma moves_set f : (forall m b, move (m, b) (f m, b)) -> keeps (rtc move) (set_mqtt f).
Proof. intros Hf [m b]. apply rtc_once, Hf. Qed.
Lemma moves_set_quiet f : (forall m, tables (f m) = tables m) -> keeps (rtc move) (set_mqtt f).
Proof. intros Hf. by apply moves_quiet, quiet_set. Qed.

(** Moves that leave the records and the bridge as they are. *)
Definition routing (s s' : St) : Prop :=
  rtc move s s' /\ mqtt_devices_ s'.1 = mqtt_devices_ s.1 /\ mqtt_entities_ s'.1 = mqtt_entities_ s.1 /\
  s'.2.1 = s.2.1.
#[local] Instance routing_preorder : PreOrder routing.
Proof.
  split; [by split|]. intros s1 s2 s3 (H1 & H2 & H3 & H4) (H1' & H2' & H3' & H4').
  split; [by etrans|]. repeat split; congruence.
Qed.
Lemma routing_quiet {A} (m : M St A) : keeps quiet m -> keeps routing m.
Proof.
  intros Hm s. split; [by apply moves_quiet|]. destruct (Hm s) as [Ht Hb]. by injection Ht.
Qed.
Lemma moves_routing {A} (m : M St A) : keeps routing m -> keeps (rtc move) m.
Proof. intros Hm s. apply Hm. Qed.

Lemma routing_subscribe_route topic leaf index kind : keeps routing (subscribe_route topic leaf index kind).
Proof.
  intros [m [b w]]. unfold subscribe_route, mbind, M_bind, this, gets, set_mqtt, modify, when, platform. cbn.
  destruct (given (sget topic (subscribed_topics_ m))) eqn:E; (split; [|done]); cbn.
  - apply rtc_once. by constructor.
  - eapply rtc_l; [apply (mv_subscribe topic)|]. eapply rtc_l; [apply mv_route|].
    + cbn. by rewrite sget_sput, bytes_eqb_refl.
    + apply rtc_once. by constructor.
Qed.
Lemma routing_unroute f : (forall l, f l `sublist_of` l) ->
  keeps routing (set_mqtt (fun m => m <| command_routes_ ::= f |>)).
Proof. intros Hf [m b]. split; [|done]. by apply rtc_once, mv_unroute. Qed.

Create HintDb moves discriminated.
#[local] Hint Resolve routing_subscribe_route : moves.
#[local] Hint Extern 2 (keeps routing _) => apply routing_quiet; solve [eauto with mqtt_quiet nocore] : moves.
#[local] Hint Extern 2 (keeps (rtc move) _) => apply moves_quiet; solve [eauto with mqtt_quiet nocore] : moves.
#[local] Hint Extern 3 (keeps (rtc move) _) => apply moves_routing; solve [eauto with moves nocore] : moves.
Ltac in_moves := keeps_go ltac:(solve [eauto with moves nocore]).

Lemma routing_remove mac i : keeps routing (remove_command_routes_for_entity_ mac i).
Proof. apply routing_unroute. intros l. apply sublist_filter. Qed.
#[local] Hint Resolve routing_remove : moves.
Lemma routing_subscribe_routes mac id i routes : keeps routing (subscribe_routes mac id i routes).
Proof. induction routes as [|[suffix kind] l IH]; cbn [subscribe_routes]; in_moves. Qed.
#[local] Hint Resolve routing_subscribe_routes : moves.
Lemma routing_subscribe mac e : keeps routing (subscribe_command_topic_ mac e).
Proof. unfold subscribe_command_topic_. in_moves. Qed.
#[local] Hint Resolve routing_subscribe : moves.
Lemma routing_subscribe_all mac l : keeps routing (subscribe_all mac l).
Proof. induction l as [|[i e] l IH]; cbn [subscribe_all]; in_moves. Qed.
#[local] Hint Resolve routing_subscribe_all : moves.
Lemma moves_back_off : keeps (rtc move) back_off.
Proof.
  unfold back_off. keeps_step idtac; [|in_moves]. intros [m b]. unfold set_mqtt, modify. cbn.
  destruct (mqtt_retry_count_ m <? 7) eqn:E; [|done]. zprop. apply rtc_once. by constructor.
Qed.
#[local] Hint Resolve moves_back_off : moves.
Lemma moves_reconnect : keeps (rtc move) just_connected.
Proof.
  unfold just_connected. keeps_step idtac.
  - intros [m [b w]]. unfold set_mqtt, modify. cbn. eapply rtc_l; [apply mv_reconnect|].
    apply rtc_once. by constructor.
  - keeps_step in_moves; [in_moves|]. apply moves_quiet.
    induction (List.filter _ _) as [|x l IH]; cbn; quietly.
Qed.
#[local] Hint Resolve moves_reconnect : moves.
Lemma moves_start : keeps (rtc move) tick_start.
Proof. unfold tick_start. in_moves. Qed.

Lemma wp_bridge {A} (m : M (ESPTreeBridge * W) A) (Q : A -> St -> Prop) s :
  wp m (fun a t => Q a (s.1, t)) s.2 -> wp (in_bridge m) Q s.
Proof. unfold wp, in_bridge, zoom. by destruct (m s.2). Qed.

Lemma moves_device key d s :
  find (fun e => dev_discovery_dirty e.2) (mqtt_devices_ s.1) = Some (key, d) ->
  rtc move s (publish_device_discovery_ (dev_leaf_mac d) s).2.
Proof.
  intros Hd. change (wp (publish_device_discovery_ (dev_leaf_mac d)) (fun _ s' => rtc move s s') s).
  unfold publish_device_discovery_, is_connected, this, the_protocol, millis, with_entity, set_mqtt.
  repeat (wp_step; cbv beta zeta; try done).
  apply (wp_keeps routing); [in_moves|]. intros ok s1 R1. wp_step.
  apply (wp_keeps routing); [in_moves|]. intros _ s2 R2.
  assert (R12 : routing s s2) by (by etrans). destruct R12 as (Hm & Hdev & _ & Hb).
  repeat (wp_step; cbv beta zeta); [done|]. etrans; [exact Hm|].
  destruct s2 as [m2 [b2 w2]]. cbn in Hdev, Hb |- *. subst b2. apply rtc_once. rewrite <- Hdev in Hd.
  by apply (mv_device key d _ m2 (s.2.1, w2)).
Qed.

Lemma moves_entity key rec s :
  sget key (mqtt_entities_ s.1) = Some rec -> rec_discovery_published rec = false ->
  is_published (rec_node_id rec) s.1 = true -> rtc move s (do_publish_discovery_ key rec s).2.
Proof.
  intros Hr Hp Hd. change (wp (do_publish_discovery_ key rec) (fun _ s' => rtc move s s') s).
  unfold do_publish_discovery_, is_connected, this, the_protocol, millis, with_entity, set_mqtt.
  repeat (wp_step; cbv beta zeta; try done).
  apply (wp_keeps routing); [in_moves|]. intros ok s1 R1. wp_step.
  apply (wp_keeps routing); [in_moves|]. intros _ s2 R2.
  assert (R12 : routing s s2) by (by etrans). destruct R12 as (Hm & Hdev & He & Hb).
  repeat (wp_step; cbv beta zeta); [done|].
  apply wp_bridge. unfold wp. etrans; [exact Hm|]. clear R1 R2 Hm.
  destruct s as [m [b w]], s2 as [m2 [b2 w2]]. cbn in Hr, Hd, Hdev, He, Hb. subst b2. rewrite <- He in Hr.
  apply rtc_once. apply (mv_entity key rec _ m2 (b, w2)); [done..|].
  unfold is_published. by rewrite Hdev.
Qed.

Lemma salter_salter {A} (f g : A -> A) key l : salter g key (salter f key l) = salter (fun v => g (f v)) key l.
Proof.
  unfold salter. rewrite <- list_fmap_compose. apply list_fmap_ext. intros _ e _. cbn.
  destruct (bytes_eqb e.1 key) eqn:E; cbn; by rewrite E.
Qed.

Lemma entities_twice f g key m :
  m <| mqtt_entities_ ::= salter f key |> <| mqtt_entities_ ::= salter g key |> =
  m <| mqtt_entities_ ::= salter (fun r => g (f r)) key |>.
Proof. unfold upd. cbn. by rewrite salter_salter. Qed.

Lemma moves_state key rec s :
  sget key (mqtt_entities_ s.1) = Some rec -> rec_discovery_published rec = true -> state_dirty rec = true ->
  rtc move s (do_publish_state_ key rec s).2.
Proof.
  intros Hr Hp Hd. change (wp (do_publish_state_ key rec) (fun _ s' => rtc move s s') s).
  unfold do_publish_state_, is_connected, with_entity, set_mqtt. wp_step. wp_step. wp_step; [by wp_step|].
  wp_step. unfold wp at 1. pose proof (quiet_record rec s) as Hq.
  destruct (publish_record rec s) as [[] s1] eqn:E; cbn [fst snd] in *; wp_step.
  - wp_step. wp_step. pose proof (mv_state key rec s s1 Hr Hp Hd E) as Hmove.
    destruct s1 as [m1 [b1 w1]], (pending_state_ack_ rec) eqn:Ea.
    + wp_step; [|done]. wp_step. apply wp_bridge. unfold wp at 1. wp_step. wp_step.
      apply rtc_once. cbn [fst snd]. rewrite entities_twice. exact Hmove.
    + wp_step; [done|]. wp_step. apply rtc_once. exact Hmove.
  - apply (wp_keeps (rtc move)); [in_moves|]. intros _ s2 Hs2. wp_step.
    etrans; [|exact Hs2]. pose proof (moves_quiet _ (quiet_record rec) s) as Hm. by rewrite E in Hm.
Qed.

Lemma wp_reaches {A} (m : M St A) (Q : A -> St -> Prop) s :
  rtc move s (m s).2 -> (forall a s', rtc move s s' -> Q a s') -> wp m Q s.
Proof. intros Hm HQ. by apply HQ. Qed.

Lemma moves_entities keys n : keeps (rtc move) (tick_entities keys n).
Proof.
  revert n. induction keys as [|key keys IH]; intros n; cbn [tick_entities]; [by in_moves|].
  keeps_step idtac; [in_moves|]. keeps_step idtac; [in_moves|].
  intros s. change (wp (m ← this; match sget key (mqtt_entities_ m) with
    | None => mret false
    | Some rec =>
      let dev_published := is_published (rec_node_id rec) m in
      if negb (rec_discovery_published rec) && dev_published then do_publish_discovery_ key rec;; mret false
      else if state_dirty rec && rec_discovery_published rec then
        now ← millis;
        if first_state_publish_pending rec
           && (u32 (now - rec_discovery_published_ms rec) <? FIRST_STATE_PUBLISH_GRACE_MS)
        then tick_entities keys n
        else
          with_entity key (fun r => r <| first_state_publish_pending := false |>);;
          do_publish_state_ key (rec <| first_state_publish_pending := false |>);;
          if (1 <=? n)%nat then mret false else tick_entities keys (S n)
      else tick_entities keys n
    end) (fun _ s' => rtc move s s') s).
  unfold this, millis, with_entity, set_mqtt. repeat (wp_step; cbv beta zeta; try done).
  - zprop. eapply wp_reaches; [by apply moves_entity|]. intros _ s' Hs'. by wp_step.
  - apply IH.
  - zprop. set (s1 := (_, _)). assert (Hs1 : rtc move s s1).
    { destruct s as [m0 b]. apply rtc_once. by apply (mv_grace_over key). }
    eapply wp_reaches; [apply moves_state|].
    1: { subst s1. cbn [fst]. unfold upd. cbn. by rewrite sget_salter, bytes_eqb_refl, Heqo. }
    1-2: done.
    intros _ s' Hs'. wp_step; [wp_step; by etrans|]. eapply wp_reaches; [apply IH|].
    intros _ s'' Hs''. etrans; [exact Hs1|]. by etrans.
  - apply IH.
Qed.

Lemma moves_device_discovery : keeps (rtc move) tick_device_discovery.
Proof.
  intros s. change (wp tick_device_discovery (fun _ s' => rtc move s s') s).
  unfold tick_device_discovery, this. repeat (wp_step; cbv beta zeta; try done).
  eapply wp_reaches; [by eapply moves_device|]. intros _ s' Hs'. by wp_step.
Qed.
Lemma moves_entity_clears : keeps (rtc move) tick_entity_clears.
Proof.
  unfold tick_entity_clears. keeps_go idtac; try solve [in_moves].
  apply moves_routing, routing_unroute. intros routes.
  induction (clear_command_topics _) as [|t ts IH]; cbn; [done|]. etrans; [apply sublist_filter|done].
Qed.
#[local] Hint Resolve moves_start moves_entity_clears moves_device_discovery moves_entities : moves.

(** A tick makes these moves and no others. *)
Lemma tick_moves : keeps (rtc move) tick.
Proof.
  unfold tick. cbn [until_true].
  unfold tick_bridge_discovery, tick_device_clears, tick_availability, tick_delayed_refresh, tick_refresh,
    tick_states, tick_diag.
  in_moves.
Qed.

(** ** The invariant *)
Definition record_ok (_ : bytes) (r : MqttEntityRecord) : Prop :=
  (pending_state_ack_ r = true -> state_dirty r = true) /\
  (first_state_publish_pending r = true -> rec_discovery_published r = false).
Definition device_ok (node : bytes) (d : MqttDeviceRecord) : Prop :=
  dev_node_id d = node /\ dev_entities d <> [] /\ dev_discovery_dirty d = negb (dev_discovery_published d).
Definition is_subscribed (m : ESPTreeBridgeMQTT) (topic : bytes) (_ : CommandRoute) : Prop :=
  given (sget topic (subscribed_topics_ m)) = true.

Record mqtt_ok (m : ESPTreeBridgeMQTT) : Prop := {
  ok_entities_order : in_order (mqtt_entities_ m);
  ok_devices_order : in_order (mqtt_devices_ m);
  ok_routes_order : in_order (command_routes_ m);
  ok_records : every record_ok (mqtt_entities_ m);
  ok_devices : every device_ok (mqtt_devices_ m);
  ok_routes : every (is_subscribed m) (command_routes_ m);
  ok_retries : 0 <= mqtt_retry_count_ m <= 7
}.

Lemma ok_tables m m' : tables m' = tables m -> mqtt_ok m -> mqtt_ok m'.
Proof.
  intros [= E1 E2 E3 E4 E5] [H1 H2 H3 H4 H5 H6 H7].
  constructor; unfold is_subscribed; rewrite ?E1, ?E2, ?E3, ?E4, ?E5; done.
Qed.


Lemma device_flags_discover now node d : device_ok node d -> device_ok node (discover_device now d).
Proof. intros (H1 & H2 & _). by split_and!. Qed.

Lemma ok_routes_grow m f :
  (forall topic, given (sget topic (subscribed_topics_ m)) = true -> given (sget topic (f (subscribed_topics_ m))) = true) ->
  mqtt_ok m -> mqtt_ok (m <| subscribed_topics_ ::= f |>).
Proof.
  intros Hf [H1 H2 H3 H4 H5 H6 H7]. constructor; try done. intros topic route Hr. unfold is_subscribed. cbn.
  by apply Hf, (H6 topic route).
Qed.

Lemma move_ok s s' : move s s' -> mqtt_ok s.1 -> mqtt_ok s'.1.
Proof.
  destruct 1 as [m m' b w w' Ht|m b Hr|m b|topic m b|topic route m b Ht|f m b Hf|key d now m b Hd
    |key rec now m b Hr Hp Hd|key rec s s1 Hr Hp Hd Hpub|key m b]; cbn [fst snd]; intros Hok.
  - by apply (ok_tables m).
  - destruct Hok. constructor; try done. cbn. lia.
  - destruct Hok as [H1 H2 H3 H4 H5 H6 H7]. constructor; cbn; try done; try (by apply order_map).
    + apply (every_map record_ok forget_entity); [|done]. intros k r [Hr1 Hr2]. by split.
    + apply (every_map device_ok forget_device); [|done]. intros k d (Hd1 & Hd2 & Hd3). by split_and!.
  - apply ok_routes_grow; [|done]. intros t Ht. rewrite sget_sput. by destruct (bytes_eqb topic t).
  - destruct Hok as [H1 H2 H3 H4 H5 H6 H7]. constructor; try done.
    + by apply order_sput.
    + cbn. by apply every_sput.
  - destruct Hok as [H1 H2 H3 H4 H5 H6 H7]. constructor; try done.
    + by eapply sublist_order.
    + intros t r Ht. apply (H6 t r). by eapply sublist_sget.
  - destruct Hok as [H1 H2 H3 H4 H5 H6 H7]. constructor; try done; cbn.
    + by apply order_salter.
    + apply every_salter; [|done]. intros v _. apply device_flags_discover.
  - destruct Hok as [H1 H2 H3 H4 H5 H6 H7]. constructor; try done; cbn.
    + by apply order_salter.
    + apply every_salter; [|done]. intros v _ [Hv1 Hv2]. by split.
  - pose proof (quiet_record rec s) as Hq. rewrite Hpub in Hq. destruct Hq as [Ht _]. cbn [snd] in Ht.
    apply (ok_tables _ _ Ht) in Hok. assert (mqtt_entities_ s1.1 = mqtt_entities_ s.1) as E by (by injection Ht).
    rewrite <-E in Hr. destruct Hok as [H1 H2 H3 H4 H5 H6 H7]. constructor; try done; cbn.
    + by apply order_salter.
    + apply every_salter; [|done]. intros v Hv [Hv1 Hv2]. rewrite Hr in Hv. injection Hv as <-. split; cbn; [|done].
      by destruct (pending_state_ack_ rec).
  - destruct Hok as [H1 H2 H3 H4 H5 H6 H7]. constructor; try done; cbn.
    + by apply order_salter.
    + apply every_salter; [|done]. intros v _ [Hv1 Hv2]. by split.
Qed.
Lemma moves_ok s s' : rtc move s s' -> mqtt_ok s.1 -> mqtt_ok s'.1.
Proof. induction 1; eauto using move_ok. Qed.

(** *** What is queued *)
Definition kept (s s' : St) : Prop := mqtt_ok s.1 -> mqtt_ok s'.1.
#[local] Instance kept_preorder : PreOrder kept.
Proof. split; unfold kept; [by intros s|auto]. Qed.
Lemma kept_moves {A} (m : M St A) : keeps (rtc move) m -> keeps kept m.
Proof. intros Hm s. exact (moves_ok _ _ (Hm s)). Qed.
Lemma kept_bridge {A} (m : M (ESPTreeBridge * W) A) : keeps kept (in_bridge m).
Proof. intros s. unfold kept, in_bridge, zoom. by destruct (m s.2). Qed.
Lemma kept_set f : (forall m, mqtt_ok m -> mqtt_ok (f m)) -> keeps kept (set_mqtt f).
Proof. intros Hf s Hs. by apply Hf. Qed.
#[local] Hint Extern 2 (keeps kept _) => apply kept_moves; solve [eauto with moves nocore] : moves.
#[local] Hint Resolve kept_bridge : moves.

Lemma stored_record key m : mqtt_ok m -> record_ok key (default new_entity_record (sget key (mqtt_entities_ m))).
Proof. intros Hok. destruct (sget _ _) as [r|] eqn:E; [by apply (ok_records m Hok)|done]. Qed.

Lemma ok_put_entity key r m : record_ok key r -> mqtt_ok m -> mqtt_ok (m <| mqtt_entities_ ::= sput key r |>).
Proof.
  intros Hr [H1 H2 H3 H4 H5 H6 H7]. constructor; try done; cbn; [by apply order_sput|by apply every_sput].
Qed.
Lemma ok_put_device key d m : device_ok key d -> mqtt_ok m -> mqtt_ok (m <| mqtt_devices_ ::= sput key d |>).
Proof.
  intros Hr [H1 H2 H3 H4 H5 H6 H7]. constructor; try done; cbn; [by apply order_sput|by apply every_sput].
Qed.
Lemma ok_alter_device f key m : (forall d, device_ok key d -> device_ok key (f d)) ->
  mqtt_ok m -> mqtt_ok (m <| mqtt_devices_ ::= salter f key |>).
Proof.
  intros Hf [H1 H2 H3 H4 H5 H6 H7]. constructor; try done; cbn; [by apply order_salter|].
  apply every_salter; [|done]. intros v _. apply Hf.
Qed.

Lemma iput_some index e l : iput index e l <> [].
Proof. destruct l as [|x l]; cbn; [done|]. by repeat case_match. Qed.

Lemma kept_queue_discovery mac e total c name : keeps kept (queue_discovery mac e total c name).
Proof.
  intros [m [b w]] Hok. unfold queue_discovery, the_protocol, this, mbind, M_bind, gets, set_mqtt, modify.
  cbn [fst snd].
  set (nk := node_key mac (protocol_ b)). set (key := entity_record_key_ mac (entity_index e) (protocol_ b)).
  pose proof (stored_record key m Hok) as [Hr1 Hr2].
  apply ok_put_device; [|apply ok_put_entity; [by split|done]].
  split_and!; [|apply iput_some|reflexivity].
  destruct (sget nk (mqtt_devices_ m)) as [d|] eqn:E; cbn [default from_option id]; [|reflexivity].
  destruct (ok_devices m Hok nk d E) as (Hid & _).
  destruct (length (dev_node_id d) =? 0)%nat; [reflexivity|exact Hid].
Qed.

Lemma kept_queue_state mac e value type text tx hop name :
  keeps kept (queue_state mac e value type text tx hop name).
Proof.
  intros [m [b w]] Hok. unfold queue_state, the_protocol, this, millis, mbind, M_bind, gets, set_mqtt, modify.
  cbn [fst snd]. set (key := entity_record_key_ mac (entity_index e) (protocol_ b)).
  pose proof (stored_record key m Hok) as [Hr1 Hr2].
  apply ok_alter_device; [intros d (H1 & H2 & H3); by destruct (length (dev_display_name d) =? 0)%nat|].
  apply ok_put_entity; [|done]. generalize dependent (default new_entity_record (sget key (mqtt_entities_ m))).
  intros r Hr1 Hr2.
  set (r1 := r <| rec_leaf_mac := _ |> <| rec_schema := _ |> <| rec_current_value := _ |>
               <| rec_current_type := _ |> <| text_value := _ |> <| state_dirty := true |>).
  assert (state_dirty r1 = true /\ rec_discovery_published r1 = rec_discovery_published r /\
          first_state_publish_pending r1 = first_state_publish_pending r) as (E1 & E2 & E3) by done.
  clearbody r1. rewrite <-E2, <-E3 in Hr2. destruct (rec_discovery_published r1) eqn:E, (length hop =? 0)%nat;
    cbv zeta; (split; [intros _; exact E1|]); first [intros _; exact E|intros Hf; exact (eq_trans E (Hr2 Hf))].
Qed.

Lemma kept_availability mac online reason : keeps kept (queue_availability mac online reason).
Proof. unfold queue_availability. in_moves. Qed.
Lemma kept_clear_entity mac old e : keeps kept (clear_entity mac old e).
Proof.
  unfold clear_entity. keeps_go idtac; try solve [eauto with moves nocore].
  apply kept_set. intros m [H1 H2 H3 H4 H5 H6 H7]. constructor; try done; cbn; [by apply order_serase|by apply every_serase].
Qed.
Lemma kept_clear_entities mac old l : keeps kept (clear_entities mac old l).
Proof.
  induction l as [|e l IH]; cbn [clear_entities]; [apply keeps_ret; exact _|].
  apply keeps_bind; [exact _|apply kept_clear_entity|intros _; exact IH].
Qed.
Lemma kept_queue_clear mac old : keeps kept (queue_clear_entities mac old).
Proof.
  unfold queue_clear_entities. apply keeps_bind; [exact _|apply kept_clear_entities|intros _].
  intros [m [b w]] Hok. unfold the_protocol, this, mbind, M_bind, gets, set_mqtt, modify. cbn [fst snd].
  set (nk := node_key mac (protocol_ b)).
  destruct (sget nk (mqtt_devices_ m)) as [d|] eqn:E; [|done].
  destruct (ok_devices m Hok nk d E) as (Hid & _).
  destruct (Nat.eqb_spec (length (dev_entities (d <| dev_entities ::= filter (fun e => e.1 ∉ entity_index <$> old) |>))) 0)
    as [Hn|Hn]; cbn [fst snd].
  - destruct Hok as [H1 H2 H3 H4 H5 H6 H7]. constructor; try done; cbn; [by apply order_serase|by apply every_serase].
  - apply ok_put_device; [|done]. split_and!; [done| |done]. intros Hc. apply Hn. unfold upd in *. cbn in *. by rewrite Hc.
Qed.
Lemma kept_schema_complete mac : keeps kept (on_schema_complete mac).
Proof.
  unfold on_schema_complete. keeps_go idtac; try solve [eauto with moves nocore].
  apply kept_set. intros m Hok. apply ok_alter_device; [|done]. intros d (H1 & H2 & H3). by split_and!.
Qed.
Lemma kept_command topic payload : keeps kept (handle_command_message_ topic payload).
Proof. unfold handle_command_message_. in_moves. Qed.
Lemma kept_force_rejoin payload : keeps kept (handle_force_rejoin_command_ payload).
Proof. unfold handle_force_rejoin_command_. in_moves. Qed.
Lemma kept_diag d : keeps kept (set_bridge_diag d).
Proof. unfold set_bridge_diag. in_moves. Qed.

(** *** Reachable states

    Everything the bridge calls, the messages of the client, and whatever the
    bridge and the world do in between. *)
Inductive mqtt_step : St -> St -> Prop :=
  | ms_tick s : mqtt_step s (tick s).2
  | ms_discovery mac e total c name s : mqtt_step s (queue_discovery mac e total c name s).2
  | ms_state mac e value type text tx hop name s : mqtt_step s (queue_state mac e value type text tx hop name s).2
  | ms_availability mac online reason s : mqtt_step s (queue_availability mac online reason s).2
  | ms_clear mac old s : mqtt_step s (queue_clear_entities mac old s).2
  | ms_schema mac s : mqtt_step s (on_schema_complete mac s).2
  | ms_refresh mac s : mqtt_step s (queue_remote_diag_refresh_ mac s).2
  | ms_diag d s : mqtt_step s (set_bridge_diag d s).2
  | ms_command topic payload s : mqtt_step s (handle_command_message_ topic payload s).2
  | ms_force_rejoin payload s : mqtt_step s (handle_force_rejoin_command_ payload s).2
  | ms_rest m b b' : mqtt_step (m, b) (m, b').

Lemma mqtt_step_ok s s' : mqtt_step s s' -> kept s s'.
Proof.
  destruct 1.
  - apply kept_moves, tick_moves.
  - apply kept_queue_discovery.
  - apply kept_queue_state.
  - apply kept_availability.
  - apply kept_queue_clear.
  - apply kept_schema_complete.
  - apply kept_moves, moves_quiet, quiet_refresh.
  - apply kept_diag.
  - apply kept_command.
  - apply kept_force_rejoin.
  - by intros Hok.
Qed.

Lemma new_mqtt_ok mac prefix name topic : mqtt_ok (new_mqtt mac prefix name topic).
Proof. by repeat constructor. Qed.

End mqtt.
