(* ===== verification/ManagerWorld.v ===== *)
(** * ManagerWorld: what the OTA manager does to its world

    The manager acts on the world only through the frames it sends: a preorder
    that sending keeps is kept by every entry point. *)
From S2P Require Import Prelude Wire OtaManager.
Import ESPNowOTAManager.

(** Sending a frame is an [R] step of the world. *)
Class SendsKeep {W} (R : relation W) `{!OtaTransport W} := {
  sends_keep leaf type payload w : R w (send_frame_fn leaf type payload w).2
}.

Definition manager_world {W} (R : relation W) (s s' : Manager * W) : Prop := R s.2 s'.2.
#[export] Instance manager_world_preorder {W} (R : relation W) `{!PreOrder R} :
  PreOrder (manager_world R).
Proof. split; unfold manager_world; [intros s; reflexivity|intros s1 s2 s3; apply transitivity]. Qed.

Create HintDb mworld discriminated.

Section manager_world.
Context {W : Type} `{!OtaTransport W} (R : relation W) `{!PreOrder R} `{!SendsKeep R}.
Abbreviation worldly m := (keeps (manager_world R) m).

Lemma mw_update f : worldly (update f).
Proof. intros s. apply (reflexivity (R := R)). Qed.
Lemma mw_tracker f : worldly (update_tracker f).
Proof. apply mw_update. Qed.
Lemma mw_this : worldly this.
Proof. intros s. apply (reflexivity (R := R)). Qed.
Lemma mw_millis : worldly millis_.
Proof. intros s. apply (reflexivity (R := R)). Qed.
Lemma mw_send_frame type payload : worldly (send_frame type payload).
Proof.
  intros s. unfold manager_world, send_frame.
  pose proof (sends_keep (leaf_mac_ s.1) (packet_type_code type) payload s.2) as Hs.
  by destruct (send_frame_fn _ _ _ _).
Qed.
#[local] Hint Resolve mw_update mw_tracker mw_this mw_millis mw_send_frame : mworld.
Ltac worldly_go := keeps_go ltac:(solve [eauto with mworld nocore]).

Lemma mw_mark : worldly mark_no_mem_backoff_.
Proof. unfold mark_no_mem_backoff_. worldly_go. Qed.
Lemma mw_decay : worldly decay_no_mem_backoff_.
Proof. unfold decay_no_mem_backoff_. worldly_go. Qed.
Lemma mw_clear : worldly clear_no_mem_backoff_.
Proof. apply mw_update. Qed.
Lemma mw_reset : worldly reset_.
Proof. apply mw_update. Qed.
#[local] Hint Resolve mw_mark mw_decay mw_clear mw_reset : mworld.
Lemma mw_send_abort reason : worldly (send_abort_ reason).
Proof. unfold send_abort_. worldly_go. Qed.
#[local] Hint Resolve mw_send_abort : mworld.
Lemma mw_fail reason message notify : worldly (fail_transfer_ reason message notify).
Proof. unfold fail_transfer_. worldly_go. Qed.
#[local] Hint Resolve mw_fail : mworld.
Lemma mw_announce : worldly send_announce_.
Proof. unfold send_announce_. worldly_go. Qed.
Lemma mw_blast_complete : worldly send_blast_complete_.
Proof. unfold send_blast_complete_. worldly_go. Qed.
Lemma mw_end : worldly send_end_.
Proof. unfold send_end_. worldly_go. Qed.
Lemma mw_chunk q data : worldly (send_chunk_ q data).
Proof. unfold send_chunk_. worldly_go. Qed.
Lemma mw_request : worldly request_increment_chunks_.
Proof. apply mw_update. Qed.
#[local] Hint Resolve mw_announce mw_blast_complete mw_end mw_chunk mw_request : mworld.
Lemma mw_blast_or_stay : worldly blast_complete_or_stay_.
Proof. unfold blast_complete_or_stay_. worldly_go. Qed.
#[local] Hint Resolve mw_blast_or_stay : mworld.
Lemma mw_pump_blasting : worldly pump_blasting_.
Proof. unfold pump_blasting_. worldly_go. Qed.
Lemma mw_pump_queued : worldly pump_queued_chunks_.
Proof. unfold pump_queued_chunks_. worldly_go. Qed.
#[local] Hint Resolve mw_pump_blasting mw_pump_queued : mworld.
Lemma mw_accept trailing : worldly (handle_accept_ trailing).
Proof. unfold handle_accept_, malformed. worldly_go. Qed.
Lemma mw_gaps trailing : worldly (handle_gaps_ack_ trailing).
Proof. unfold handle_gaps_ack_, malformed. worldly_go. Qed.
Lemma mw_complete trailing : worldly (handle_complete_ trailing).
Proof. unfold handle_complete_, malformed. worldly_go. Qed.
Lemma mw_reject trailing : worldly (handle_reject_ trailing).
Proof. unfold handle_reject_, malformed. worldly_go. Qed.
Lemma mw_abort_ack trailing : worldly (handle_abort_ack_ trailing).
Proof. apply mw_fail. Qed.
#[local] Hint Resolve mw_accept mw_gaps mw_complete mw_reject mw_abort_ack : mworld.

Lemma mw_start_transfer leaf fs md5 action max file_id :
  worldly (start_transfer leaf fs md5 action max file_id).
Proof. unfold start_transfer. worldly_go. Qed.
Lemma mw_source_chunk q data : worldly (on_source_chunk q data).
Proof. unfold on_source_chunk. worldly_go. Qed.
Lemma mw_source_abort reason : worldly (on_source_abort reason).
Proof. unfold on_source_abort. worldly_go. Qed.
Lemma mw_file_ack leaf ack trailing : worldly (on_file_ack leaf ack trailing).
Proof. unfold on_file_ack. worldly_go. Qed.
Lemma mw_loop : worldly loop.
Proof. unfold loop, target_reachable_. worldly_go. Qed.
End manager_world.
