(* ===== verification/ComponentInv.v ===== *)
(** * ComponentInv: the invariant of the bridge component

    The component as a transition system (frames from the radio, turns of the
    loop, the socket of the runtime API, HTTP requests, callbacks of the
    protocol object) and the invariant of its reachable states, built on the
    invariants of the protocol object and of the OTA manager. *)
From stdpp Require Import pretty sorting.
From S2P Require Import Prelude Wire Crypto OtaManager OtaManagerInv ManagerWorld BridgeSession BridgeProtocol BridgeLoop BridgeInv BridgeSafety BridgeRun ProtoMessages WebSocket ApiTransport BridgeComponent EntityText EntityCommand BridgeOta RuntimeEvents RuntimeApi.

(** One client at most; without an authenticated one nothing is requested. *)
Record transport_ok (t : Transport) : Prop := {
  to_connected : authenticated t = true -> connected t = true;
  to_fd : if connected t then 0 <= active_fd t else active_fd t = -1;
  to_pending : authenticated t = false ->
               ota_pending_sequences t = ∅ /\ ota_chunk_request_id t = [] /\ ota_job_id t = []
}.

(** A pending delivery waits for at least one sink. *)
Definition delivery_ok (key : bytes) (d : PendingStateDelivery) : Prop :=
  key = state_delivery_key_ (pd_leaf d) (pd_entity_index d) (pd_message_tx_base d) /\
  Z.land (delivered_sinks d) (required_sinks d) <> required_sinks d.

(** [has]: the component was built with an OTA manager. *)
Record component_ok (has : bool) (b : ESPTreeBridge) : Prop := {
  co_protocol : bridge_ok (protocol_ b);
  co_manager : match ota_manager_ b with
               | Some m => mgr_ok m /\ has = true
               | None => has = false
               end;
  co_queue : (length (pending_rx_frames_ b) <= MAX_PENDING_RX_FRAMES)%nat;
  co_frames : Forall (fun f => bytes_ok (rx_data f)) (pending_rx_frames_ b);
  co_transport : transport_ok (api_proto_ws_ b);
  co_callbacks : ota_transport_callbacks_ b = authenticated (api_proto_ws_ b);
  co_deliveries : map_Forall delivery_ok (pending_state_deliveries_ b);
  co_job : ota_job_state_ b = JOB_IDLE \/ has = true
}.

Definition ok_step {W} (has : bool) (s s' : ESPTreeBridge * W) : Prop :=
  component_ok has s.1 -> component_ok has s'.1.
#[export] Instance ok_step_preorder {W} has : PreOrder (@ok_step W has).
Proof. split; unfold ok_step; [by intros s|auto]. Qed.

(** A step of the transport that does not touch the authentication. *)
Definition same_auth {W} (s s' : Transport * W) : Prop :=
  transport_ok s.1 -> transport_ok s'.1 /\ authenticated s'.1 = authenticated s.1.
#[export] Instance same_auth_preorder {W} : PreOrder (@same_auth W).
Proof.
  split; unfold same_auth; [by intros s|]. intros s1 s2 s3 H12 H23 H.
  destruct (H12 H) as [H2 <-]. by apply H23.
Qed.

Create HintDb component discriminated.

(** ** The transport *)
Section transport.
Context {W : Type} `{!BridgeEnv W} `{!SocketEnv W}.
Abbreviation steady m := (keeps (same_auth (W := W)) m).

Lemma steady_this : steady this_transport.
Proof. by intros s Hs. Qed.
Lemma steady_write fd data : steady (write fd data).
Proof. intros s Hs. unfold write. by destruct (send_exact fd data s.2). Qed.
Lemma steady_set f : (forall t, transport_ok t -> transport_ok (f t) /\ authenticated (f t) = authenticated t) ->
  steady (set_transport f).
Proof. intros Hf [t w] Ht. exact (Hf t Ht). Qed.
#[local] Hint Resolve steady_this steady_write : component.
Ltac steady_go := keeps_go ltac:(solve [eauto with component nocore]).

Lemma steady_send_frame opcode payload : steady (send_frame opcode payload).
Proof. unfold send_frame. steady_go. Qed.
#[local] Hint Resolve steady_send_frame : component.
Lemma steady_send_binary payload : steady (send_binary payload).
Proof. unfold send_binary. steady_go. Qed.
#[local] Hint Resolve steady_send_binary : component.
Lemma steady_send_error request_id code msg : steady (send_error request_id code msg).
Proof. apply steady_send_binary. Qed.
Lemma steady_challenge mac : steady (send_auth_challenge mac).
Proof. unfold send_auth_challenge. steady_go. Qed.

(** What an authenticated client may set. *)
Lemma steady_authenticated f (m : M (Transport * W) unit) :
  (forall t, transport_ok t -> authenticated t = true ->
     transport_ok (f t) /\ authenticated (f t) = authenticated t) -> steady m ->
  steady (t ← this_transport; when (has_authenticated_client t) (set_transport f;; m)).
Proof.
  intros Hf Hm [t w] Ht. unfold mbind, M_bind, this_transport, gets, when. cbn.
  destruct (has_authenticated_client t) eqn:Hc; [|done].
  unfold has_authenticated_client in Hc. zprop. cbn.
  destruct (Hf t Ht ltac:(done)) as [Hok Ha]. destruct (Hm (f t, w) Hok) as [Hok2 Ha2].
  split; [done|]. by rewrite Ha2.
Qed.
Lemma steady_accepted r j m a b c : steady (on_ota_accepted r j m a b c).
Proof.
  apply steady_authenticated; [|steady_go]. intros t [] Ha. unfold upd. split; [|done].
  constructor; cbn; auto. by rewrite Ha.
Qed.
Lemma steady_chunk_request j r l a b c d e f g : steady (on_ota_chunk_request j r l a b c d e f g).
Proof.
  apply steady_authenticated; [|steady_go]. intros t [] Ha. unfold upd. split; [|done].
  constructor; cbn; auto. by rewrite Ha.
Qed.
Lemma steady_status j s a b c d : steady (on_ota_status j s a b c d).
Proof. unfold on_ota_status, emit. steady_go. Qed.
Lemma steady_take q : steady (set_transport (take_sequence q)).
Proof.
  apply steady_set. intros t [? ? Hp]. unfold take_sequence, upd. case_bool_decide; (split; [|done]);
      constructor; cbn in *; auto; intros Ha; destruct (Hp Ha) as (-> & Hr & Hj); rewrite ?Hr, ?Hj;
    (split_and!; [clear; set_solver|done..]).
Qed.
Lemma steady_heartbeat now : steady (set_transport (fun t => t <| last_heartbeat_ms := now |>)).
Proof. apply steady_set. intros t []. unfold upd. split; [|done]. constructor; cbn; auto. Qed.
Lemma steady_claim fd : 0 <= fd -> steady (claim_slot fd).
Proof.
  intros Hfd [t w] Ht. unfold claim_slot, mbind, M_bind, this_transport, gets. cbn.
  destruct (connected t) eqn:Hc; [done|]. cbn. destruct (fill_random_bytes 16 w) as [nonce w']. cbn.
  assert (authenticated t = false) as Ha.
  { destruct (authenticated t) eqn:Ha; [|done]. by rewrite (to_connected t Ht Ha) in Hc. }
  unfold upd. split; [|by rewrite Ha]. destruct Ht. constructor; cbn; auto.
Qed.
(** Without an authenticated client. *)
Lemma steady_close (s : Transport * W) : authenticated s.1 = false -> same_auth s (close_client s).2.
Proof.
  intros Ha Ht. unfold close_client.
  assert (transport_ok (s.1 <| connected := false |> <| authenticated := false |> <| active_fd := -1 |>) /\
    authenticated (s.1 <| connected := false |> <| authenticated := false |> <| active_fd := -1 |>) =
    authenticated s.1) as Hs'.
  { unfold upd. split; [|by rewrite Ha]. destruct Ht. constructor; cbn; auto. }
  unfold mbind, M_bind, this_transport, set_transport, gets, modify, when. cbn.
  destruct (0 <=? active_fd s.1); [|exact Hs'].
  pose proof (steady_send_frame 8 [] (s.1 <| connected := false |> <| authenticated := false |>
    <| active_fd := -1 |>, s.2) (proj1 Hs')) as [H1 H2].
  destruct (send_frame 8 [] _) as [ok s'] eqn:E. cbn in *. split; [done|]. rewrite H2. apply Hs'.
Qed.
End transport.
#[export] Hint Resolve steady_this steady_write steady_send_frame steady_send_binary steady_send_error
  steady_challenge steady_accepted steady_chunk_request steady_status steady_take steady_heartbeat
  steady_claim : component.

#[export] Instance manager_sends_keep {W} `{!BridgeEnv W} `{!Hmac} :
  SendsKeep (safe (W := W)).
Proof.
  constructor. intros leaf type payload s Hs. unfold send_frame_fn, manager_transport.
  destruct (packet_type_of type) as [t|]; [|exact Hs]. exact (safe_ota_frame leaf t payload s Hs).
Qed.

(** ** The component *)
(** One update at a time: the record is large. *)
Ltac peel_update :=
  lazymatch goal with
  | |- component_ok ?h (upd ?p ?g ?b) =>
    cut (component_ok h b); [generalize b; intros ? []; unfold upd; constructor; cbn; auto|]
  end.
Ltac component_fields :=
  let b := fresh "b" in
  intros b ?; repeat peel_update; try eassumption.

Section component.
Context {W : Type} `{!BridgeEnv W} `{!Hmac} `{!SocketEnv W} `{!ComponentEnv W} `{!RuntimeEnv W} `{Hfloat : !FloatText} `{Hcmd : !CommandText}.
Context (has : bool).
Abbreviation St := (ESPTreeBridge * W)%type.
Abbreviation good m := (keeps (ok_step (W := W) has) m).

Lemma good_this : good this_bridge.
Proof. by intros s Hs. Qed.
Lemma good_now : good now_ms.
Proof. by intros s Hs. Qed.
Lemma good_platform {A} (f : W -> A * W) : good (platform f).
Proof. intros [b w] Hs. unfold platform. cbn. by destruct (f w). Qed.
Lemma good_world (f : W -> W) : good (modify (fun s => (s.1, f s.2))).
Proof. by intros s Hs. Qed.
Lemma good_set f : (forall b, component_ok has b -> component_ok has (f b)) -> good (set_bridge f).
Proof. intros Hf [b w] Hs. exact (Hf b Hs). Qed.
Lemma good_this_bind {A} (k : ESPTreeBridge -> M St A) :
  (forall b, component_ok has b -> good (k b)) -> good (b ← this_bridge; k b).
Proof. intros Hk [b w] Hs. by apply (Hk b Hs). Qed.

Lemma good_protocol {A} (m : M (BridgeProtocol * W) A) : keeps safe m -> good (in_protocol m).
Proof.
  intros Hm [b w] Hb. unfold in_protocol, zoom. cbn [fst snd].
  specialize (Hm (protocol_ b, w)). destruct (m (protocol_ b, w)) as [a [p w']].
  destruct Hb. unfold upd. constructor; cbn; auto.
Qed.
Lemma good_transport {A} (m : M (Transport * W) A) : keeps same_auth m -> good (in_transport m).
Proof.
  intros Hm [b w] Hb. unfold in_transport, zoom. cbn [fst snd].
  specialize (Hm (api_proto_ws_ b, w)). destruct (m (api_proto_ws_ b, w)) as [a [t w']].
  destruct Hb. destruct (Hm co_transport0) as [H1 H2]. unfold upd. constructor; cbn in *; auto. congruence.
Qed.
Lemma good_manager {A} m (op : M (ESPNowOTAManager.Manager * (BridgeProtocol * W)) A) :
  mgr_ok m -> has = true -> (forall s, minv s -> wp op (fun _ => minv) s) ->
  keeps (manager_world safe) op -> good (in_manager m op).
Proof.
  intros Hm Hh Hop Hw [b w] Hb. unfold in_manager. cbn [fst snd].
  specialize (Hop (m, (protocol_ b, w)) Hm). specialize (Hw (m, (protocol_ b, w))). unfold wp in Hop.
  destruct (op (m, (protocol_ b, w))) as [a [m' [p w']]]. destruct Hb. unfold upd.
  constructor; cbn; auto.
Qed.
End component.
#[export] Hint Resolve good_this good_now good_platform good_world good_protocol good_transport
  safe_frame safe_loop safe_confirm safe_command_to_leaf safe_config_to_leaf : component.
#[export] Hint Extern 1 (keeps (ok_step _) (set_bridge _)) =>
  apply good_set; component_fields : component.
Ltac stay_good := keeps_go ltac:(solve [eauto with component nocore]).

Section operations.
Context {W : Type} `{!BridgeEnv W} `{!Hmac} `{!SocketEnv W} `{!ComponentEnv W} `{!RuntimeEnv W} `{Hfloat : !FloatText} `{Hcmd : !CommandText}.
Context (has : bool).
Abbreviation St := (ESPTreeBridge * W)%type.
Abbreviation good m := (keeps (ok_step (W := W) has) m).

(** ** Peers and received frames *)
Lemma good_note_peer mac : good (note_peer_activity_ mac).
Proof. unfold note_peer_activity_. stay_good. Qed.
#[local] Hint Resolve good_note_peer : component.
Lemma good_evict mac : good (evict_stale_peer_ mac).
Proof. unfold evict_stale_peer_. stay_good. Qed.
#[local] Hint Resolve good_evict : component.
Lemma good_add_peer mac : good (add_peer_ mac).
Proof. unfold add_peer_. stay_good. Qed.
#[local] Hint Resolve good_add_peer : component.
Lemma good_send_result mac frame : good (send_frame_result_ mac frame).
Proof. unfold send_frame_result_. stay_good. Qed.
#[local] Hint Resolve good_send_result : component.
Lemma good_send mac frame : good (send_frame_ mac frame).
Proof. unfold send_frame_. stay_good. Qed.
Lemma good_drop_rx : good drop_rx.
Proof. unfold drop_rx. stay_good. Qed.
#[local] Hint Resolve good_drop_rx : component.
Lemma good_send_status ok : good (handle_send_status_ ok).
Proof. unfold handle_send_status_. stay_good. Qed.

#[local] Arguments Nat.leb : simpl never.
Lemma good_received mac data rssi : bytes_ok data -> good (handle_received_frame_ mac data rssi).
Proof.
  intros Hd [b w] Hb. unfold handle_received_frame_, mbind, M_bind, this_bridge, gets. cbn.
  destruct (negb _); [by destruct Hb|]. destruct (_ || _); [done|]. cbn.
  destruct (negb _); [exact (good_drop_rx (b, w) Hb)|]. destruct (Nat.leb_spec MAX_PENDING_RX_FRAMES
    (length (pending_rx_frames_ b))); [exact (good_drop_rx (b, w) Hb)|]. cbn.
  destruct Hb. unfold upd. constructor; cbn; auto.
  - rewrite length_app. cbn. lia.
  - apply Forall_app_2; [done|]. by constructor.
Qed.

Lemma good_drain i frames : Forall (fun f => bytes_ok (rx_data f)) frames -> good (drain_frames i frames).
Proof.
  intros Hf. revert i. induction Hf as [|f frames Hd Hf IH]; intros i; cbn [drain_frames]; unfold note_rx; stay_good.
Qed.
Lemma good_drain_received : good drain_received_frames_.
Proof.
  unfold drain_received_frames_. apply keeps_bind; [exact _|stay_good|]. intros free.
  apply keeps_if; intros _; [stay_good|]. apply good_this_bind. intros b Hb.
  apply keeps_bind; [exact _| |intros _; apply good_drain, (co_frames _ _ Hb)].
  apply good_set. component_fields. lia.
Qed.

(** ** Deliveries *)
Lemma good_confirm mac base hop : good (confirm_delivery mac base hop).
Proof. unfold confirm_delivery. stay_good. Qed.
#[local] Hint Resolve good_confirm : component.

Lemma state_delivery_key_take mac i base :
  state_delivery_key_ (take 6 mac) i base = state_delivery_key_ mac i base.
Proof. unfold state_delivery_key_, mac_hex. by rewrite take_take. Qed.

Lemma good_begin mac i base hop required : good (begin_state_delivery_ mac i base hop required).
Proof.
  unfold begin_state_delivery_. stay_good.
  apply good_set. intros b []. unfold upd. constructor; cbn; auto.
  apply map_Forall_insert_2; [|done]. split; [symmetry; apply state_delivery_key_take|].
  cbn. intros Hz. rewrite Z.land_0_l in Hz. zprop. done.
Qed.

Lemma good_mark mac i base sink : good (mark_state_sink_delivered_ mac i base sink).
Proof.
  intros [b w] Hb. unfold mark_state_sink_delivered_, mbind, M_bind, this_bridge, gets. cbn.
  destruct (pending_state_deliveries_ b !! _) as [d|] eqn:Hd; [|done].
  pose proof (co_deliveries _ _ Hb _ _ Hd) as [Hk _]. unfold set_bridge, modify. cbn.
  destruct (Z.eqb_spec (Z.land (Z.lor (delivered_sinks d) sink) (required_sinks d)) (required_sinks d)) as [_|He].
  - cbn. match goal with |- context [confirm_delivery ?a ?c ?e ?s0] => set (s1 := s0) end.
    pose proof (safe_confirm (pd_leaf d) (pd_message_tx_base d) (pd_next_hop d)
      (protocol_ b, w) (co_protocol _ _ Hb)) as Hc.
    unfold confirm_delivery, in_protocol, zoom, mbind, M_bind. cbn.
    destruct (confirm_state_delivery_ _ _ _ (protocol_ b, w)) as [a [p w']]. destruct Hb.
    unfold upd. constructor; cbn; auto. rewrite delete_insert_eq. by apply map_Forall_delete.
  - cbn. destruct Hb. unfold upd. constructor; cbn; auto. apply map_Forall_insert_2; [|done].
    by split.
Qed.
Lemma good_expire : good expire_state_deliveries_.
Proof.
  unfold expire_state_deliveries_. stay_good. apply good_set. intros b []. unfold upd. constructor; cbn; auto.
  intros k d [Hd _]%map_lookup_filter_Some. by apply co_deliveries0.
Qed.

(** ** HTTP *)
Lemma good_login r : good (handle_login r).
Proof. unfold handle_login, v2_generate_token_. stay_good. Qed.
Lemma good_logout : good handle_logout.
Proof. unfold handle_logout. stay_good. Qed.
#[local] Hint Resolve good_logout : component.
Lemma good_verify_session r : good (v2_verify_session_ r).
Proof. unfold v2_verify_session_. stay_good. Qed.
#[local] Hint Resolve good_verify_session : component.
Lemma good_authenticate r : good (v2_http_authenticate_ r).
Proof. unfold v2_http_authenticate_. stay_good. Qed.
(** ** Firmware jobs *)
Lemma manager_known b m : component_ok has b -> ota_manager_ b = Some m -> mgr_ok m /\ has = true.
Proof. intros Hb E. pose proof (co_manager _ _ Hb) as Hm. by rewrite E in Hm. Qed.

Section manager_calls.
Context (b : ESPTreeBridge) (m : ESPNowOTAManager.Manager).
Context (Hb : component_ok has b) (Hm : ota_manager_ b = Some m).

Lemma good_mgr_loop : good (in_manager m ESPNowOTAManager.loop).
Proof.
  destruct (manager_known b m Hb Hm). apply good_manager; try done; [apply loop_minv|apply mw_loop; exact _].
Qed.
Lemma good_mgr_chunk q data : good (in_manager m (ESPNowOTAManager.on_source_chunk q data)).
Proof.
  destruct (manager_known b m Hb Hm). apply good_manager; try done;
    [apply on_source_chunk_inv|apply mw_source_chunk; exact _].
Qed.
Lemma good_mgr_abort reason : good (in_manager m (ESPNowOTAManager.on_source_abort reason)).
Proof.
  destruct (manager_known b m Hb Hm). apply good_manager; try done;
    [apply on_source_abort_inv|apply mw_source_abort; exact _].
Qed.
Lemma good_mgr_ack leaf ack trailing : bytes_ok trailing ->
  good (in_manager m (ESPNowOTAManager.on_file_ack leaf ack trailing)).
Proof.
  intros Ht. destruct (manager_known b m Hb Hm). apply good_manager; try done;
    [intros s; by apply on_file_ack_inv|apply mw_file_ack; exact _].
Qed.
Lemma good_mgr_start leaf fs md5 action max file_id : 0 <= fs -> 0 <= max < 65536 ->
  good (in_manager m (ESPNowOTAManager.start_transfer leaf fs md5 action max file_id)).
Proof.
  intros Hf Hx. destruct (manager_known b m Hb Hm). apply good_manager; try done;
    [intros s; by apply start_transfer_inv|apply mw_start_transfer; exact _].
Qed.
End manager_calls.
End operations.
#[export] Hint Resolve good_confirm good_drop_rx good_note_peer good_drain_received good_expire good_begin
  good_mark good_logout : component.
#[export] Hint Extern 1 (keeps (ok_step _) (in_manager _ _)) =>
  first [ eapply good_mgr_loop | eapply good_mgr_chunk | eapply good_mgr_abort ]; eassumption : component.

(** Reads of the component are remembered, and that there is a manager. *)
Ltac remember_reads := repeat first
  [ lazymatch goal with |- keeps _ (mbind _ this_bridge) => apply good_this_bind; intros ? ? end
  | match goal with
    | Hb : component_ok ?h ?b, E : ota_manager_ ?b = Some _ |- _ =>
      lazymatch goal with _ : h = true |- _ => fail | _ => destruct (manager_known h b _ Hb E) end
    end
  | progress (keeps_step ltac:(solve [eauto with component nocore])) ].

Section firmware.
Context {W : Type} `{!BridgeEnv W} `{!Hmac} `{!SocketEnv W} `{!ComponentEnv W} `{!RuntimeEnv W} `{Hfloat : !FloatText} `{Hcmd : !CommandText}.
Context (has : bool).
Abbreviation St := (ESPTreeBridge * W)%type.
Abbreviation good m := (keeps (ok_step (W := W) has) m).

Lemma good_ota_start target fs md5 filename rid : 0 <= fs ->
  good (api_ota_start target fs md5 filename rid).
Proof.
  intros Hfs. unfold api_ota_start. remember_reads. eapply good_mgr_start; try done.
  match goal with Hb : component_ok _ ?b, E : get_session _ (protocol_ ?b) = Some ?s |- _ =>
    destruct (so_payload _ _ (bo_sessions _ (co_protocol _ _ Hb) _ _ E)) as [->| ->] end; done.
Qed.
Lemma good_ota_abort job : good (api_ota_abort job).
Proof. unfold api_ota_abort. remember_reads. Qed.
Lemma good_inject q data : good (api_ota_inject_chunk q data).
Proof. unfold api_ota_inject_chunk. remember_reads. Qed.
Lemma good_request_chunks l : good (request_chunks_ l).
Proof. unfold request_chunks_, next_ota_chunk_request_id_. remember_reads. Qed.
#[local] Hint Resolve good_ota_start good_ota_abort good_inject good_request_chunks : component.
Lemma good_resend : good api_ota_resend_chunk_request.
Proof. unfold api_ota_resend_chunk_request. remember_reads. Qed.
Lemma good_status_callback state detail : good (emit_ota_status_callback_ state detail).
Proof. unfold emit_ota_status_callback_. remember_reads. Qed.
Lemma good_set_prev p : good (set_prev p).
Proof. unfold set_prev. remember_reads. Qed.
Lemma good_end_idle prev : good (end_job JOB_IDLE prev).
Proof. unfold end_job. remember_reads. Qed.
Lemma good_end_job state prev : has = true -> good (end_job state prev).
Proof. intros Hh. unfold end_job. remember_reads. Qed.
#[local] Hint Resolve good_resend good_status_callback good_set_prev good_end_idle good_end_job : component.
Lemma good_emit_waiting : good emit_waiting.
Proof. unfold emit_waiting. remember_reads. Qed.
Lemma good_report current percent : good (report_status current percent).
Proof. unfold report_status. remember_reads. Qed.
Lemma good_request_if_new : good request_if_new.
Proof. unfold request_if_new. remember_reads. Qed.
#[local] Hint Resolve good_emit_waiting good_report good_request_if_new : component.
Lemma good_emit_transferring : good emit_transferring.
Proof. unfold emit_transferring. remember_reads. Qed.
#[local] Hint Resolve good_emit_transferring : component.
Lemma good_emit_events : good emit_ota_events_.
Proof. unfold emit_ota_events_. remember_reads. Qed.
#[local] Hint Resolve good_emit_events : component.
Lemma good_component_loop : good component_loop.
Proof. unfold component_loop. remember_reads. Qed.
End firmware.
#[export] Hint Resolve good_ota_start good_ota_abort good_inject good_resend good_component_loop : component.

(** ** Requests of an authenticated client *)
Lemma parsed_start_size data request :
  parse_ota_start_request data = (true, request) -> 0 <= os_file_size request.
Proof.
  unfold parse_ota_start_request. destruct (parse_fields _ _ _) as [ok out]. intros [= Hok ->]. zprop. lia.
Qed.

Section requests.
Context {W : Type} `{!BridgeEnv W} `{!Hmac} `{!SocketEnv W} `{!ComponentEnv W} `{!RuntimeEnv W} `{Hfloat : !FloatText} `{Hcmd : !CommandText}.
Context `{!WebDigests} (has : bool).
Abbreviation St := (ESPTreeBridge * W)%type.
Abbreviation good m := (keeps (ok_step (W := W) has) m).

Lemma good_run_command mac id e request : good (run_command mac id e request).
Proof. unfold run_command. remember_reads. Qed.
#[local] Hint Resolve good_run_command : component.
Lemma good_command_result request : good (command_result request).
Proof. unfold command_result. remember_reads. Qed.
#[local] Hint Resolve good_command_result : component.
Lemma good_handle_command id request : good (api_runtime_handle_command id request).
Proof. unfold api_runtime_handle_command. remember_reads. Qed.
Lemma good_config_start mac command payload callback :
  good (api_node_config_start mac command payload callback).
Proof. unfold api_node_config_start. remember_reads. Qed.
#[local] Hint Resolve good_handle_command good_config_start : component.
Lemma good_config_ack id mac command outcome : good (on_config_ack id mac command outcome).
Proof. unfold on_config_ack. remember_reads. Qed.
Lemma good_handle_config id request : good (api_runtime_handle_config_command id request).
Proof. unfold api_runtime_handle_config_command. remember_reads. Qed.
Lemma good_receipt mac id tx i : good (api_runtime_handle_state_receipt mac id tx i).
Proof. unfold api_runtime_handle_state_receipt. remember_reads. Qed.
Lemma good_handle_start env : good (handle_ota_start env).
Proof.
  unfold handle_ota_start. destruct (parse_ota_start_request _) as [[|] request] eqn:E; [|stay_good].
  apply parsed_start_size in E. remember_reads.
Qed.
Lemma good_chunks id job chunks : good (handle_chunks id job chunks).
Proof. induction chunks as [|c chunks IH]; cbn [handle_chunks]; remember_reads. Qed.
#[local] Hint Resolve good_chunks : component.
Lemma good_batch env : good (handle_ota_chunk_batch env).
Proof. unfold handle_ota_chunk_batch. remember_reads. Qed.
Lemma good_handle_abort env : good (handle_ota_abort env).
Proof. unfold handle_ota_abort. remember_reads. Qed.
#[local] Hint Resolve good_handle_config good_receipt good_handle_start good_batch good_handle_abort
  : component.
Lemma good_request env : good (handle_request env).
Proof. unfold handle_request. remember_reads. Qed.

(** ** Callbacks and the heartbeat *)
Lemma good_heartbeat : good emit_heartbeat_if_due.
Proof. unfold emit_heartbeat_if_due. remember_reads. Qed.
Lemma good_remote_state mac e v t tx : good (emit_remote_state mac e v t tx).
Proof. unfold emit_remote_state. remember_reads. Qed.
#[local] Hint Resolve good_remote_state : component.
Lemma good_publish_state mac e v t tx hop : good (publish_state mac e v t tx hop).
Proof. unfold publish_state, active_state_delivery_sinks_. remember_reads. Qed.
Lemma good_publish_availability mac online reason : good (publish_availability mac online reason).
Proof. unfold publish_availability. remember_reads. Qed.
Lemma good_publish_topology mac : good (publish_topology_changed mac).
Proof. unfold publish_topology_changed. remember_reads. Qed.
Lemma good_schema_complete mac : good (schema_complete_ mac).
Proof. unfold schema_complete_. remember_reads. Qed.
Lemma good_file_ack leaf ack trailing : bytes_ok trailing -> good (file_ack leaf ack trailing).
Proof. intros Ht. unfold file_ack. remember_reads. by eapply good_mgr_ack. Qed.
End requests.

(** ** Authentication and the session of a client *)
Section sessions.
Context {W : Type} `{!BridgeEnv W} `{!Hmac} `{!SocketEnv W} `{!ComponentEnv W} `{!RuntimeEnv W} `{Hfloat : !FloatText} `{Hcmd : !CommandText}.
Context `{!WebDigests} (has : bool).
Abbreviation St := (ESPTreeBridge * W)%type.
Implicit Types s : St.
Abbreviation steps m s := (ok_step has s (m s).2).

Lemma steps_keeps {A} (m : M St A) s : keeps (ok_step has) m -> steps m s.
Proof. intros Hm. apply Hm. Qed.
Lemma steps_bind {A B} (m : M St A) (k : A -> M St B) s :
  steps m s -> (forall a, steps (k a) (m s).2) -> steps (x ← m; k x) s.
Proof.
  unfold mbind, M_bind. destruct (m s) as [a s']. cbn. intros H1 H2. by etrans; [|apply H2].
Qed.

Lemma in_transport_run {A} (m : M (Transport * W) A) s :
  in_transport m s = ((m (api_proto_ws_ s.1, s.2)).1,
    (s.1 <| api_proto_ws_ := (m (api_proto_ws_ s.1, s.2)).2.1 |>, (m (api_proto_ws_ s.1, s.2)).2.2)).
Proof. unfold in_transport, zoom. by destruct (m _) as [a [t w]]. Qed.

Lemma unauthenticated b :
  component_ok has b -> has_authenticated_client (api_proto_ws_ b) = false ->
  authenticated (api_proto_ws_ b) = false.
Proof.
  intros Hb Hc. destruct (authenticated (api_proto_ws_ b)) eqn:Ha; [|done].
  destruct (co_transport _ _ Hb) as [Hcon Hfd _]. rewrite (Hcon Ha) in Hfd. unfold has_authenticated_client in Hc.
  rewrite Ha, (Hcon Ha), (proj2 (Z.leb_le _ _) Hfd) in Hc. done.
Qed.

Lemma transport_auth {A} (m : M (Transport * W) A) s :
  keeps same_auth m -> component_ok has s.1 ->
  authenticated (api_proto_ws_ (in_transport m s).2.1) = authenticated (api_proto_ws_ s.1).
Proof.
  intros Hm Hs. rewrite in_transport_run. cbn [fst snd]. unfold upd. cbn.
  by destruct (Hm (api_proto_ws_ s.1, s.2) (co_transport _ _ Hs)).
Qed.

Lemma good_close s : authenticated (api_proto_ws_ s.1) = false -> steps (in_transport close_client) s.
Proof.
  intros Ha Hs. rewrite in_transport_run. cbn [fst snd].
  destruct (steady_close (api_proto_ws_ s.1, s.2) Ha (co_transport _ _ Hs)) as [Hok Hau].
  destruct Hs. unfold upd. constructor; cbn in *; auto. congruence.
Qed.

Lemma good_auth_failed id code msg s :
  authenticated (api_proto_ws_ s.1) = false -> steps (auth_failed id code msg) s.
Proof.
  intros Ha Hs. unfold auth_failed.
  set (m := in_transport (send_binary _)). assert (component_ok has (m s).2.1) as H1.
  { by apply good_transport; [apply steady_send_binary|]. }
  assert (authenticated (api_proto_ws_ (m s).2.1) = false) as H2.
  { subst m. rewrite transport_auth; [done|apply steady_send_binary|done]. }
  unfold mbind, M_bind. destruct (m s) as [a s1]. by apply good_close.
Qed.

Lemma good_authenticated now (k : M St unit) s :
  connected (api_proto_ws_ s.1) = true -> keeps (ok_step has) k ->
  steps (in_transport (set_transport (fun t => t <| authenticated := true |> <| last_heartbeat_ms := now |>));;
         set_ota_transport_callbacks;; k) s.
Proof.
  intros Hc Hk Hs. unfold mbind, M_bind. rewrite in_transport_run. cbn [fst snd].
  unfold set_ota_transport_callbacks, set_bridge, modify. cbn [fst snd]. apply Hk.
  destruct Hs. destruct co_transport0 as [? Hfd ?]. rewrite Hc in Hfd.
  cbn [fst snd]. destruct (negb _); unfold upd; constructor; cbn in *; auto;
    (constructor; cbn; [done|by rewrite Hc|done]).
Qed.

Lemma good_auth env s :
  connected (api_proto_ws_ s.1) = true -> authenticated (api_proto_ws_ s.1) = false ->
  steps (handle_auth env) s.
Proof.
  intros Hc Ha. unfold handle_auth. destruct (negb (msg_field env =? _)); [by apply good_auth_failed|].
  destruct (parse_auth_response _) as [ok response].
  apply steps_bind; [apply good_this|]. intros b. destruct (_ || _); [by apply good_auth_failed|].
  apply steps_bind; [apply good_now|]. intros now. apply good_authenticated; [done|]. remember_reads.
Qed.

Lemma good_binary payload s : connected (api_proto_ws_ s.1) = true -> steps (handle_binary payload) s.
Proof.
  intros Hc Hs. unfold handle_binary. destruct (parse_envelope payload) as [ok env].
  destruct (_ || _); [by apply good_transport; [apply steady_send_error|]|].
  unfold mbind, M_bind, this_bridge, gets. cbn [fst snd].
  destruct (has_authenticated_client _) eqn:Hh; cbn [negb].
  - by apply good_request.
  - apply good_auth; [done| |done]. by eapply unauthenticated.
Qed.

Lemma good_round inbox s : connected (api_proto_ws_ s.1) = true -> steps (read_round inbox) s.
Proof.
  intros Hc. unfold read_round. destruct (read_frame inbox) as [[[opcode payload]|] inbox']; [|by intros Hs].
  do 3 (destruct (_ =? _); [apply steps_keeps; stay_good|]).
  destruct (negb _); [by intros Hs|]. apply steps_bind; [by apply good_binary|]. intros a Hs. exact Hs.
Qed.

Lemma ok_new_transport b t c :
  component_ok has b -> transport_ok t -> c = authenticated t ->
  component_ok has (b <| api_proto_ws_ := t |> <| ota_transport_callbacks_ := c |>).
Proof. intros [] Ht Hc. unfold upd. constructor; cbn; auto. Qed.

Lemma good_finish fd s : steps (finish_session fd) s.
Proof.
  intros Hs. unfold finish_session, mbind, M_bind. rewrite in_transport_run. cbn [fst snd].
  unfold release_slot, mbind, M_bind, this_transport, gets. cbn [fst snd].
  destruct (active_fd (api_proto_ws_ s.1) =? fd); cbn [negb].
  - unfold when, clear_ota_transport_callbacks, set_bridge, set_transport, modify. cbn [fst snd mret M_ret].
    apply ok_new_transport; [exact Hs|by constructor|done].
  - unfold when. cbn [fst snd mret M_ret]. destruct Hs. unfold upd. constructor; cbn; auto.
Qed.

Lemma good_session key fd begun task_ok s : 0 <= fd -> steps (run_socket_session key fd begun task_ok) s.
Proof.
  intros Hfd. unfold run_socket_session. destruct key as [key|]; [|by intros Hs].
  apply steps_bind; [apply good_this|]. intros b. destruct (_ =? _)%nat; [by intros Hs|].
  apply steps_bind; [by apply good_transport, steady_claim|]. intros claimed.
  destruct (negb claimed); [by intros Hs|].
  destruct (_ || _); [apply steps_bind; [apply good_finish|by intros a Hs]|].
  destruct (negb task_ok); [apply steps_bind; [apply good_finish|by intros a Hs]|by intros Hs].
Qed.
End sessions.

(** ** The component as a transition system *)
Section run.
Context {W : Type} `{!BridgeEnv W} `{!Hmac} `{!SocketEnv W} `{!ComponentEnv W} `{!RuntimeEnv W} `{Hfloat : !FloatText} `{Hcmd : !CommandText}.
Context `{!WebDigests}.
Abbreviation St := (ESPTreeBridge * W)%type.

(** What the platform, the socket task, the HTTP server and the protocol object
    call.  A round of the socket task runs only while its socket is the active
    one ([read_loop]); the task's other calls are steps of their own, so its
    rounds interleave with everything else. *)
Inductive component_step : St -> St -> Prop :=
  | cs_received mac data rssi s :
      bytes_ok data -> component_step s (handle_received_frame_ mac data rssi s).2
  | cs_sent ok s : component_step s (handle_send_status_ ok s).2
  | cs_send mac frame s : component_step s (send_frame_ mac frame s).2
  | cs_loop s : component_step s (esp_tree_bridge_loop s).2
  | cs_connect key fd begun task_ok s :
      0 <= fd -> component_step s (run_socket_session key fd begun task_ok s).2
  | cs_challenge mac s : component_step s (in_transport (send_auth_challenge mac) s).2
  | cs_round fd inbox s :
      is_active_fd fd (api_proto_ws_ s.1) = true -> component_step s (read_round inbox s).2
  | cs_finish fd s : component_step s (finish_session fd s).2
  | cs_config_ack id mac command outcome s :
      component_step s (on_config_ack id mac command outcome s).2
  | cs_state mac e value type tx hop s :
      component_step s (publish_state mac e value type tx hop s).2
  | cs_availability mac online reason s :
      component_step s (publish_availability mac online reason s).2
  | cs_topology mac s : component_step s (publish_topology_changed mac s).2
  | cs_schema mac s : component_step s (schema_complete_ mac s).2
  | cs_file_ack leaf ack trailing s :
      bytes_ok trailing -> component_step s (file_ack leaf ack trailing s).2
  | cs_mqtt mac i tx s : component_step s (mark_mqtt_state_delivered mac i tx s).2
  | cs_login request s : component_step s (handle_login request s).2
  | cs_logout s : component_step s (handle_logout s).2
  | cs_http request s : component_step s (v2_http_authenticate_ request s).2
  | cs_world b w w' : component_step (b, w) (b, w').

Lemma component_step_ok has s s' : component_step s s' -> ok_step has s s'.
Proof.
  intros []; unfold ok_step.
  - by apply good_received.
  - apply good_send_status.
  - apply good_send.
  - change (ok_step has s0 (esp_tree_bridge_loop s0).2). unfold esp_tree_bridge_loop.
    apply steps_bind; [apply good_component_loop|]. intros _. apply good_heartbeat.
  - by apply good_session.
  - apply good_transport, steady_challenge.
  - unfold is_active_fd in *. zprop. by apply good_round.
  - apply good_finish.
  - apply good_config_ack.
  - apply good_publish_state.
  - apply good_publish_availability.
  - apply good_publish_topology.
  - apply good_schema_complete.
  - by apply good_file_ack.
  - apply good_mark.
  - apply good_login.
  - apply good_logout.
  - apply good_authenticate.
  - done.
Qed.

Lemma new_component_ok p manager network_id key mac :
  bridge_ok p -> (forall m, manager = Some m -> mgr_ok m) ->
  component_ok (bool_decide (is_Some manager)) (new_component p manager network_id key mac).
Proof.
  intros Hp Hm. constructor; cbn; auto.
  - destruct manager as [m|]; [|done]. split; [by apply Hm|done].
  - unfold MAX_PENDING_RX_FRAMES. lia.
  - constructor; done.
  - apply map_Forall_empty.
Qed.

Lemma component_steps_ok has s s' :
  component_ok has s.1 -> rtc component_step s s' -> component_ok has s'.1.
Proof.
  intros Hs Hr. induction Hr as [|s1 s2 s3 Hstep _ IH]; [done|]. apply IH. by eapply component_step_ok.
Qed.

#[local] Existing Instance ESPNowOTAManager.eta_manager.
(** The manager as [setup] wires it. *)
Definition wired_manager (cfg : ESPNowOTAManager.Config) : ESPNowOTAManager.Manager :=
  let m := ESPNowOTAManager.new_manager cfg in
  m <| ESPNowOTAManager.send_frame_fn_set := true |> <| ESPNowOTAManager.target_reachable_fn_set := true |>.

(** The component after [setup], with an OTA manager when [cfg] is given. *)
Definition component_started (psk network_id : bytes) (heartbeat_interval : Z) (mac : bytes) (flags : Z)
    (fns : Callbacks) (cfg : option ESPNowOTAManager.Config) (api_key : bytes) (w : W) : St :=
  let s := started psk network_id heartbeat_interval mac flags fns w in
  (new_component s.1 (wired_manager <$> cfg) network_id api_key mac, s.2).

Lemma component_started_ok psk nid hb mac flags fns cfg key w :
  component_ok (bool_decide (is_Some cfg)) (component_started psk nid hb mac flags fns cfg key w).1.
Proof.
  unfold component_started. cbn [fst].
  replace (bool_decide (is_Some cfg)) with (bool_decide (is_Some (wired_manager <$> cfg))) by (by destruct cfg).
  apply new_component_ok; [apply started_ok|]. destruct cfg; [|done]. by intros m [= <-].
Qed.

(** C20: The bridge component's invariant.  In every state the component reaches after
    [setup], whatever the radio, the clients, the HTTP requests and the callbacks do and
    however their steps interleave: the protocol object and the OTA manager inside it are in
    states of their own invariants (no call the component makes breaks them); the queue of
    received frames holds at most 64; a client is authenticated only on the one open
    connection, receives OTA callbacks exactly while it is authenticated, and without one no
    firmware chunk is awaited; a pending state delivery sits under its own key and still
    waits for a sink; and a firmware job runs only when there is a manager. *)
Theorem component_invariant psk nid hb mac flags fns cfg key w s :
  rtc component_step (component_started psk nid hb mac flags fns cfg key w) s ->
  component_ok (bool_decide (is_Some cfg)) s.1.
Proof. apply component_steps_ok, component_started_ok. Qed.
End run.
