(* ===== verification/ComponentProps.v ===== *)
(** * ComponentProps: addresses and peers of the bridge component

    Addresses written by the bridge are read back; the receipt of an emitted
    state reaches its delivery; making room for a peer never costs an online
    remote its own. *)
From stdpp Require Import pretty sorting.
From S2P Require Import Prelude Wire Crypto OtaManager BridgeSession BridgeProtocol BridgeLoop ProtoMessages WebSocket ApiTransport BridgeComponent.

(** ** Addresses *)
Lemma scan_hex02 b rest : byte_range b -> scan_2x (ESPNowOTAManager.hex02 b ++ rest) = Some (b, rest).
Proof.
  intros Hb. unfold ESPNowOTAManager.hex02. cbn [app]. set (hi := ESPNowOTAManager.hex_digit (b / 16)).
  set (lo := ESPNowOTAManager.hex_digit (b mod 16)).
  pose proof (byte_cases (fun b => let hi := ESPNowOTAManager.hex_digit (b / 16) in
    let lo := ESPNowOTAManager.hex_digit (b mod 16) in
    negb (is_space hi) && negb ((hi =? 43) || (hi =? 45)) && is_hex hi && is_hex lo &&
    (16 * parse_hex_nibble_ hi + parse_hex_nibble_ lo =? b)) b ltac:(vm_compute; reflexivity) Hb) as H.
  cbv zeta beta in H. fold hi lo in H.
  apply andb_prop in H as [H E]. apply andb_prop in H as [H Hlo]. apply andb_prop in H as [H Hhi].
  apply andb_prop in H as [Hs Hsign]. apply negb_true_iff in Hs, Hsign. apply Z.eqb_eq in E.
  unfold scan_2x. cbn [skip_space]. rewrite Hs, Hsign, Hhi, Hlo, E. done.
Qed.

Lemma scan_mac mac : bytes_ok mac ->
  scan_values (length mac) (mjoin (ESPNowOTAManager.hex02 <$> mac)) = Some mac.
Proof.
  induction 1 as [|b mac Hb Hm IH]; [done|]. cbn [length scan_values].
  change (mjoin (ESPNowOTAManager.hex02 <$> b :: mac)) with
    (ESPNowOTAManager.hex02 b ++ mjoin (ESPNowOTAManager.hex02 <$> mac)).
  rewrite scan_hex02 by done. cbn [mbind option_bind fst snd]. by rewrite IH.
Qed.

Lemma length_hex_bytes (mac : bytes) : length (mjoin (ESPNowOTAManager.hex02 <$> mac)) = (2 * length mac)%nat.
Proof.
  induction mac as [|b mac IH]; [done|].
  change (mjoin (ESPNowOTAManager.hex02 <$> b :: mac)) with
    (ESPNowOTAManager.hex02 b ++ mjoin (ESPNowOTAManager.hex02 <$> mac)).
  rewrite length_app, IH. cbn. lia.
Qed.

Lemma parse_mac_hex_of mac : bytes_ok mac -> length mac = 6%nat -> parse_mac_hex_ (mac_hex mac) = Some mac.
Proof.
  intros Hm L. unfold mac_hex. rewrite take_ge by lia. unfold parse_mac_hex_.
  rewrite length_hex_bytes, L. cbn [Nat.mul Nat.add Nat.eqb negb]. rewrite <-L, scan_mac by done.
  f_equal. clear L. induction Hm as [|b mac Hb Hm IH]; [done|]. cbn. rewrite u8_small by done. by f_equal.
Qed.

Lemma hex02_clean b : byte_range b -> clean_mac (ESPNowOTAManager.hex02 b) = ESPNowOTAManager.hex02 b.
Proof.
  intros Hb. apply bytes_eqb_true. exact (byte_cases (fun b =>
    bytes_eqb (clean_mac (ESPNowOTAManager.hex02 b)) (ESPNowOTAManager.hex02 b)) b
    ltac:(vm_compute; reflexivity) Hb).
Qed.

Lemma clean_display mac : bytes_ok mac -> length mac = 6%nat -> clean_mac (mac_display mac) = mac_hex mac.
Proof.
  intros Hm L. unfold mac_display, mac_hex. rewrite !take_ge by lia. clear L.
  destruct Hm as [|b mac Hb Hm]; [done|]. cbn [fmap list_fmap mjoin list_join]. unfold clean_mac.
  rewrite filter_app. fold (clean_mac (ESPNowOTAManager.hex02 b)). rewrite hex02_clean by done. f_equal.
  induction Hm as [|x mac Hx Hm IH]; [done|]. cbn [fmap list_fmap mbind list_bind mjoin list_join].
  rewrite <-app_comm_cons, filter_cons_False by (intros (? & _); done).
  rewrite filter_app. fold (clean_mac (ESPNowOTAManager.hex02 x)). rewrite hex02_clean by done. by f_equal.
Qed.

Section component.
Context {W : Type} `{!BridgeEnv W} `{!Hmac} `{!SocketEnv W} `{!ComponentEnv W}.
Abbreviation St := (ESPTreeBridge * W)%type.


(** ** Making room for a peer *)
Implicit Types (e : bytes * Z).

Definition evictable (preferred : bytes) (p : BridgeProtocol) e (mac : bytes) : Prop :=
  parse_mac_hex_ e.1 = Some mac /\ (preferred = [] \/ mac <> preferred) /\ is_peer_protected_ mac p = false.

Lemma stale_peer_spec preferred p best e :
  stale_peer preferred p best e = best /\ (forall mac, ~ evictable preferred p e mac) \/
  exists mac, evictable preferred p e mac /\
    stale_peer preferred p best e =
      match best with
      | Some b => if e.2 <? b.2 then Some e else best
      | None => Some e
      end.
Proof.
  unfold stale_peer, evictable. destruct (parse_mac_hex_ e.1) as [mac|]; [|left; split; [done|by intros m [? _]]].
  destruct (_ && bytes_eqb mac preferred) eqn:Hp.
  { left. split; [done|]. apply andb_prop in Hp as [Hn Hp%bytes_eqb_true]. subst.
    intros m ([= <-] & [->|Hne] & _); done. }
  destruct (is_peer_protected_ mac p) eqn:Hpro.
  { left. split; [done|]. intros m ([= <-] & _ & E). by rewrite Hpro in E. }
  right. exists mac. split; [|by destruct best]. split_and!; [done| |done].
  destruct preferred as [|c preferred]; [by left|right]. cbn in Hp. by apply bytes_eqb_false in Hp.
Qed.

(** The candidate the loop ends with. *)
Lemma stalest preferred p peers best :
  match foldl (stale_peer preferred p) best peers with
  | None => best = None /\ forall e mac, e ∈ peers -> ~ evictable preferred p e mac
  | Some r =>
    (best = Some r \/ (r ∈ peers /\ exists mac, evictable preferred p r mac)) /\
    (forall b, best = Some b -> r.2 <= b.2) /\
    forall e mac, e ∈ peers -> evictable preferred p e mac -> r.2 <= e.2
  end.
Proof.
  revert best. induction peers as [|e peers IH]; intros best; cbn [foldl].
  { destruct best as [b|]; [|by split; [|intros e mac He; apply elem_of_nil in He]].
    split_and!; [by left|by intros ? [= ->]|by intros e mac He; apply elem_of_nil in He]. }
  specialize (IH (stale_peer preferred p best e)).
  destruct (stale_peer_spec preferred p best e) as [[E Hno]|(mac & Hmac & E)];
    rewrite E in IH |- *; clear E.
  - destruct (foldl _ _ peers) as [r|].
    + destruct IH as (H1 & H2 & H3). split_and!; [|done|].
      * destruct H1 as [?|[? ?]]; [by left|right]. split; [by right|done].
      * intros x m [->|Hx]%elem_of_cons Hev; [by destruct (Hno m)|by eauto].
    + destruct IH as [-> Hall]. split; [done|]. intros x m [->|Hx]%elem_of_cons; [by apply Hno|by apply Hall].
  - set (best' := match best with Some b => if e.2 <? b.2 then Some e else best | None => Some e end) in *.
    assert (exists b', best' = Some b' /\ b'.2 <= e.2 /\ (forall b, best = Some b -> b'.2 <= b.2) /\
      (b' = e \/ best = Some b')) as (b' & E' & Hle & Hb & Hor).
    { subst best'. destruct best as [b|]; [|exists e; split_and!; [done|lia|done|by left]].
      destruct (Z.ltb_spec e.2 b.2); [exists e|exists b]; split_and!; try done; try lia;
        try (intros ? [= <-]; lia); [by left|by right]. }
    rewrite E' in IH |- *. destruct (foldl _ _ peers) as [r|]; [|by destruct IH].
    destruct IH as (H1 & H2 & H3). specialize (H2 b' eq_refl). split_and!.
    + destruct H1 as [[= <-]|[? ?]]; [|right; split; [by right|done]].
      destruct Hor as [->|Hor]; [right; split; [by left|by exists mac]|by left].
    + intros b Eb. specialize (Hb b Eb). lia.
    + intros x m [->|Hx]%elem_of_cons Hev; [lia|by eauto].
Qed.

(** Making room for a peer.  When ESP-NOW has no room, [evict_stale_peer_] takes the one
    peer that was used longest ago among those it may take: never the peer that is being
    added, and never the address or the next hop of a remote that is online.  It removes that
    entry and deletes that peer from ESP-NOW, once; when every known peer is protected it
    does nothing and says so. *)
Theorem eviction_takes_stalest preferred (s : St) :
  let peers := peer_last_used_ms_ s.1 in
  let may_go := evictable preferred (protocol_ s.1) in
  (exists e mac, e ∈ peers /\ may_go e mac /\ (forall e' mac', e' ∈ peers -> may_go e' mac' -> e.2 <= e'.2) /\
     evict_stale_peer_ preferred s =
       ((esp_now_del_peer mac s.2).1,
        (s.1 <| peer_last_used_ms_ ::= map_erase e.1 |>, (esp_now_del_peer mac s.2).2))) \/
  ((forall e mac, e ∈ peers -> ~ may_go e mac) /\ evict_stale_peer_ preferred s = (false, s)).
Proof.
  cbv zeta. pose proof (stalest preferred (protocol_ s.1) (peer_last_used_ms_ s.1) None) as Hs.
  unfold evict_stale_peer_, mbind, M_bind, this_bridge, gets. cbn [fst snd].
  destruct (foldl _ None _) as [[key t]|].
  - destruct Hs as ([Hs|[Hin (mac & Hmac)]] & _ & Hmin); [done|]. left. exists (key, t), mac.
    split_and!; [done|done|done|]. destruct Hmac as [Hp _]. cbn [fst] in Hp. rewrite Hp.
    unfold set_bridge, modify, platform. cbn [fst snd]. by destruct (esp_now_del_peer mac s.2).
  - destruct Hs as [_ Hs]. right. by split.
Qed.
End component.
