(* ===== verification/DeliverySpec.v ===== *)
(** * DeliverySpec: when a state counts as delivered

    The contract of the deliveries in [ESPTreeBridge]: a state is confirmed to
    its remote once every sink that was connected when it arrived has reported
    it, and forgotten after two seconds.  The specification keeps, per leaf,
    entity and counter, the set of sinks still missing; the strings under which
    the code keeps its deliveries and its bit masks refine it. *)
From stdpp Require Import pretty sorting.
From S2P Require Import Prelude Wire Crypto OtaManager BridgeSession BridgeProtocol BridgeLoop ProtoMessages WebSocket ApiTransport BridgeComponent.

(** ** The specification *)
Abbreviation DeliveryId := (bytes * Z * Z)%type.

Record Waiting := { missing : gset Z; via : bytes; since : Z }.

Inductive DeliveryOp :=
  | Begin (leaf : bytes) (entity tx : Z) (next_hop : bytes) (required : Z)
  | Delivered (leaf : bytes) (entity tx sink : Z)
  | Expire.

(** The sinks in a mask. *)
Definition sinks_of (mask : Z) : gset Z :=
  list_to_set (filter (fun sink => Z.land mask sink <> 0) [STATE_DELIVERY_SINK_MQTT; STATE_DELIVERY_SINK_PROTOBUF]).

(** What an operation does to the waiting deliveries, and the confirmation it sends. *)
Definition spec_op (now : Z) (op : DeliveryOp) (a : gmap DeliveryId Waiting) :
    gmap DeliveryId Waiting * option (bytes * Z * bytes) :=
  match op with
  | Begin leaf i tx hop required =>
    if decide (sinks_of required = ∅) then (a, Some (leaf, tx, hop))
    else (<[(leaf, i, tx) := {| missing := sinks_of required; via := hop; since := now |}]> a, None)
  | Delivered leaf i tx sink =>
    match a !! (leaf, i, tx) with
    | None => (a, None)
    | Some w =>
      let rest := missing w ∖ {[sink]} in
      if decide (rest = ∅) then (delete (leaf, i, tx) a, Some (leaf, tx, via w))
      else (<[(leaf, i, tx) := {| missing := rest; via := via w; since := since w |}]> a, None)
    end
  | Expire => (filter (fun e => u32 (now - since e.2) < STATE_DELIVERY_TIMEOUT_MS) a, None)
  end.

Definition id_ok (leaf : bytes) (i tx : Z) : Prop :=
  length leaf = 6%nat /\ bytes_ok leaf /\ 0 <= i < 256 /\ 0 <= tx.
Definition op_ok (op : DeliveryOp) : Prop :=
  match op with
  | Begin leaf i tx hop required => id_ok leaf i tx /\ length hop = 6%nat /\ 0 <= required < 4
  | Delivered leaf i tx sink =>
    id_ok leaf i tx /\ (sink = STATE_DELIVERY_SINK_MQTT \/ sink = STATE_DELIVERY_SINK_PROTOBUF)
  | Expire => True
  end.

(** ** Keys *)
Lemma hex02_inj a b : byte_range a -> byte_range b ->
  ESPNowOTAManager.hex02 a = ESPNowOTAManager.hex02 b -> a = b.
Proof.
  intros Ha Hb.
  pose proof (byte_cases (fun a => forallb (fun b => (a =? b) ||
    negb (bytes_eqb (ESPNowOTAManager.hex02 a) (ESPNowOTAManager.hex02 b))) (zseq 0 256)) a
    ltac:(vm_compute; reflexivity) Ha) as H. cbn beta in H.
  eapply (byte_cases _ b) in H; [|exact Hb]. cbn beta in H. intros E. rewrite E, bytes_eqb_refl in H.
  zprop. destruct H; [by zprop|done].
Qed.

Lemma mac_hex_inj a b : length a = 6%nat -> length b = 6%nat -> bytes_ok a -> bytes_ok b ->
  mac_hex a = mac_hex b -> a = b.
Proof.
  intros La Lb Ha Hb. unfold mac_hex. rewrite !take_ge by lia.
  assert (length a = length b) as L by lia. clear La Lb. revert b Hb L.
  induction Ha as [|x a Hx Ha IH]; intros [|y b] Hb L; try done. inversion_clear Hb.
  cbn [fmap list_fmap mjoin list_join]. intros E. apply app_inj_1 in E as [E1 E2]; [|done].
  f_equal; [by apply hex02_inj|]. apply IH; [done|by injection L|done].
Qed.

Lemma length_mac_hex mac : length mac = 6%nat -> length (mac_hex mac) = 12%nat.
Proof. intros L. do 6 (destruct mac as [|? mac]; [done|]). by destruct mac. Qed.

Lemma str_inj a b : str a = str b -> a = b.
Proof.
  revert b. induction a as [|x a IH]; intros [|y b] E; try done. cbn in E.
  injection E as E1 E2. f_equal; [|by apply IH]. apply N2Z.inj in E1.
  by rewrite <-(ascii_N_embedding x), <-(ascii_N_embedding y), E1.
Qed.

Lemma dec_inj a b : 0 <= a -> 0 <= b -> ESPNowOTAManager.dec a = ESPNowOTAManager.dec b -> a = b.
Proof. intros Ha Hb E%str_inj%(inj pretty). lia. Qed.

(** A separator that occurs in neither head. *)
Lemma split_at_sep (c : Z) a b a' b' : c ∉ a -> c ∉ a' -> a ++ c :: b = a' ++ c :: b' -> a = a' /\ b = b'.
Proof.
  revert a'. induction a as [|x a IH]; intros [|y a'] Ha Ha' E.
  - by injection E.
  - injection E as <- _. by rewrite elem_of_cons in Ha'; destruct Ha'; left.
  - injection E as -> _. by rewrite elem_of_cons in Ha; destruct Ha; left.
  - injection E as -> E. rewrite elem_of_cons in Ha, Ha'. destruct (IH a') as [-> ->]; auto.
Qed.

Lemma entity_no_sep i : 0 <= i < 256 -> 95 ∉ ESPNowOTAManager.dec i.
Proof.
  intros Hi. pose proof (byte_cases (fun i => forallb (fun c => negb (c =? 95)) (ESPNowOTAManager.dec i)) i
    ltac:(vm_compute; reflexivity) Hi) as H. cbn beta in H. intros Hin.
  apply list_elem_of_In in Hin. rewrite forallb_forall in H. specialize (H _ Hin). done.
Qed.

Lemma delivery_key_inj leaf i tx leaf' i' tx' :
  id_ok leaf i tx -> id_ok leaf' i' tx' ->
  state_delivery_key_ leaf i tx = state_delivery_key_ leaf' i' tx' ->
  (leaf, i, tx) = (leaf', i', tx').
Proof.
  intros (L & Hb & Hi & Ht) (L' & Hb' & Hi' & Ht') E. unfold state_delivery_key_ in E.
  apply app_inj_1 in E as [E1 E]; [|by rewrite !length_mac_hex]. injection E as E.
  apply split_at_sep in E as [E2 E3]; [|by apply entity_no_sep..].
  f_equal; [f_equal|]; [by apply mac_hex_inj|apply dec_inj; try done; lia|by apply dec_inj].
Qed.

(** ** Masks *)
Lemma sinks_table :
  forallb (fun r => Bool.eqb (bool_decide (sinks_of r = ∅)) (r =? 0)) (zseq 0 4) = true.
Proof. by vm_compute. Qed.

Lemma sinks_empty required : 0 <= required < 4 -> sinks_of required = ∅ <-> required = 0.
Proof.
  intros Hr. pose proof (zseq_cases _ 0 4 required sinks_table ltac:(lia)) as H. cbn beta in H.
  apply Bool.eqb_prop in H. rewrite <-Z.eqb_eq, <-H. by rewrite bool_decide_eq_true.
Qed.

(** The sinks that have not reported yet. *)
Definition missing_of (d : PendingStateDelivery) : gset Z :=
  sinks_of (required_sinks d) ∖ sinks_of (delivered_sinks d).

Lemma report_table :
  forallb (fun r => forallb (fun d => forallb (fun s =>
      (0 <=? Z.lor d s) && (Z.lor d s <? 4) &&
      bool_decide (sinks_of r ∖ sinks_of (Z.lor d s) = (sinks_of r ∖ sinks_of d) ∖ {[s]}) &&
      Bool.eqb (Z.land (Z.lor d s) r =? r) (bool_decide (sinks_of r ∖ sinks_of (Z.lor d s) = ∅)))
    [1; 2]) (zseq 0 4)) (zseq 0 4) = true.
Proof. by vm_compute. Qed.

Lemma report_mask required delivered sink :
  0 <= required < 4 -> 0 <= delivered < 4 ->
  sink = STATE_DELIVERY_SINK_MQTT \/ sink = STATE_DELIVERY_SINK_PROTOBUF ->
  0 <= Z.lor delivered sink < 4 /\
  sinks_of required ∖ sinks_of (Z.lor delivered sink) = (sinks_of required ∖ sinks_of delivered) ∖ {[sink]} /\
  (Z.land (Z.lor delivered sink) required = required <->
   sinks_of required ∖ sinks_of (Z.lor delivered sink) = ∅).
Proof.
  intros Hr Hd Hs. pose proof (zseq_cases _ 0 4 required report_table ltac:(lia)) as H.
  cbn beta in H. eapply (zseq_cases _ 0 4 delivered) in H; [|lia]. cbn beta in H.
  rewrite forallb_forall in H. specialize (H sink). cbn [In] in H.
  assert ((1 = sink \/ 2 = sink \/ False)) as Hin by (destruct Hs as [->| ->]; auto).
  specialize (H Hin). clear Hin. apply andb_prop in H as [H He]. apply andb_prop in H as [H Hm].
  apply Bool.eqb_prop in He. apply bool_decide_eq_true in Hm. zprop. split_and!; [lia|lia|done|].
  by rewrite <-Z.eqb_eq, He, bool_decide_eq_true.
Qed.

(** ** Refinement *)

(** A pending delivery and what the specification says of it. *)
Definition same_delivery (leaf : bytes) (i tx : Z) (w : option Waiting) (d : option PendingStateDelivery) : Prop :=
  match w, d with
  | None, None => True
  | Some w, Some d =>
    pd_leaf d = leaf /\ pd_entity_index d = i /\ pd_message_tx_base d = tx /\
    pd_next_hop d = via w /\ created_ms d = since w /\ missing_of d = missing w /\
    0 <= required_sinks d < 4 /\ 0 <= delivered_sinks d < 4
  | _, _ => False
  end.
Definition refines (a : gmap DeliveryId Waiting) (b : ESPTreeBridge) : Prop :=
  forall leaf i tx, id_ok leaf i tx ->
    same_delivery leaf i tx (a !! (leaf, i, tx))
      (pending_state_deliveries_ b !! state_delivery_key_ leaf i tx).

Section refinement.
Context {W : Type} `{!BridgeEnv W} `{!Hmac} `{!SocketEnv W} `{!ComponentEnv W}.
Abbreviation St := (ESPTreeBridge * W)%type.

Definition run_op (op : DeliveryOp) : M St unit :=
  match op with
  | Begin leaf i tx hop required => begin_state_delivery_ leaf i tx hop required
  | Delivered leaf i tx sink => mark_state_sink_delivered_ leaf i tx sink
  | Expire => expire_state_deliveries_
  end.

(** The protocol object and the world after a confirmation. *)
Definition confirmed (c : option (bytes * Z * bytes)) (s : BridgeProtocol * W) : BridgeProtocol * W :=
  match c with
  | None => s
  | Some (leaf, tx, hop) => (confirm_state_delivery_ leaf tx hop s).2
  end.

Lemma confirm_run mac tx hop (s : St) :
  (confirm_delivery mac tx hop s).2 =
  (s.1 <| protocol_ := (confirmed (Some (mac, tx, hop)) (protocol_ s.1, s.2)).1 |>,
   (confirmed (Some (mac, tx, hop)) (protocol_ s.1, s.2)).2).
Proof.
  unfold confirm_delivery, in_protocol, zoom, mbind, M_bind, confirmed.
  by destruct (confirm_state_delivery_ _ _ _ _) as [a [p w]].
Qed.

Lemma refines_insert a b leaf i tx w d :
  refines a b -> id_ok leaf i tx -> same_delivery leaf i tx (Some w) (Some d) ->
  refines (<[(leaf, i, tx) := w]> a)
    (b <| pending_state_deliveries_ ::= <[state_delivery_key_ leaf i tx := d]> |>).
Proof.
  intros HR Hid Hsame leaf' i' tx' Hid'. unfold upd. cbn.
  destruct (decide ((leaf, i, tx) = (leaf', i', tx'))) as [[= <- <- <-]|Hne].
  - by rewrite !lookup_insert_eq.
  - rewrite !lookup_insert_ne; [by apply HR| |done]. intros E. by apply Hne, delivery_key_inj.
Qed.
Lemma refines_delete a b leaf i tx :
  refines a b -> id_ok leaf i tx ->
  refines (delete (leaf, i, tx) a)
    (b <| pending_state_deliveries_ ::= delete (state_delivery_key_ leaf i tx) |>).
Proof.
  intros HR Hid leaf' i' tx' Hid'. unfold upd. cbn.
  destruct (decide ((leaf, i, tx) = (leaf', i', tx'))) as [[= <- <- <-]|Hne].
  - by rewrite !lookup_delete_eq.
  - rewrite !lookup_delete_ne; [by apply HR| |done]. intros E. by apply Hne, delivery_key_inj.
Qed.

Lemma refines_protocol a b p : refines a b -> refines a (b <| protocol_ := p |>).
Proof. intros HR leaf i tx Hid. exact (HR leaf i tx Hid). Qed.

Lemma refines_expire now a b :
  refines a b ->
  refines (filter (fun e => u32 (now - since e.2) < STATE_DELIVERY_TIMEOUT_MS) a)
    (b <| pending_state_deliveries_ ::=
       filter (fun e => u32 (now - created_ms e.2) < STATE_DELIVERY_TIMEOUT_MS) |>).
Proof.
  intros HR leaf i tx Hid. specialize (HR leaf i tx Hid). unfold upd. cbn.
  rewrite !map_lookup_filter. unfold same_delivery in HR |- *.
  destruct (a !! _) as [w|], (pending_state_deliveries_ b !! _) as [d|]; cbn; try done.
  destruct HR as (E1 & E2 & E3 & E4 & E5 & E6 & E7 & E8). rewrite E5.
  by case_guard; cbn.
Qed.

Lemma begin_refines a (s : St) leaf i tx hop required :
  op_ok (Begin leaf i tx hop required) -> refines a s.1 ->
  let '(a', c) := spec_op (bridge_millis s.2) (Begin leaf i tx hop required) a in
  let s' := (run_op (Begin leaf i tx hop required) s).2 in
  refines a' s'.1 /\ (protocol_ s'.1, s'.2) = confirmed c (protocol_ s.1, s.2).
Proof.
  intros (Hid & Lh & Hr) HR. pose proof Hid as (Ll & _). cbn [spec_op run_op]. unfold begin_state_delivery_.
  rewrite Ll, Lh. cbn [Nat.eqb orb].
  destruct (Z.eqb_spec required 0) as [->|Hne].
  - rewrite decide_True by (by apply sinks_empty). rewrite confirm_run. cbn [fst snd].
    split; [by apply refines_protocol|]. by rewrite (surjective_pairing (confirmed _ _)).
  - rewrite decide_False by (by rewrite sinks_empty). split; [|done].
    apply refines_insert; [done|done|]. cbn. rewrite !take_ge by lia. unfold missing_of. cbn.
    split_and!; try done; try lia. set_solver.
Qed.

(** A report of a sink: for nobody, one of several, the last one missing. *)
Definition reported (d : PendingStateDelivery) (sink : Z) : PendingStateDelivery :=
  d <| delivered_sinks ::= fun n => Z.lor n sink |>.

Lemma mark_unknown leaf i tx sink (s : St) :
  pending_state_deliveries_ s.1 !! state_delivery_key_ leaf i tx = None ->
  mark_state_sink_delivered_ leaf i tx sink s = (tt, s).
Proof. intros E. unfold mark_state_sink_delivered_, mbind, M_bind, this_bridge, gets. by rewrite E. Qed.

Lemma mark_open leaf i tx sink d (s : St) :
  pending_state_deliveries_ s.1 !! state_delivery_key_ leaf i tx = Some d ->
  Z.land (Z.lor (delivered_sinks d) sink) (required_sinks d) <> required_sinks d ->
  mark_state_sink_delivered_ leaf i tx sink s =
  (tt, (s.1 <| pending_state_deliveries_ ::= <[state_delivery_key_ leaf i tx := reported d sink]> |>, s.2)).
Proof.
  intros E Hn. unfold mark_state_sink_delivered_, mbind, M_bind, this_bridge, gets, set_bridge, modify.
  cbn [fst snd]. rewrite E. unfold upd at 3 4 5 6. cbn. by rewrite (proj2 (Z.eqb_neq _ _) Hn).
Qed.

Lemma mark_done leaf i tx sink d (s : St) :
  pending_state_deliveries_ s.1 !! state_delivery_key_ leaf i tx = Some d ->
  Z.land (Z.lor (delivered_sinks d) sink) (required_sinks d) = required_sinks d ->
  let c := confirmed (Some (pd_leaf d, pd_message_tx_base d, pd_next_hop d)) (protocol_ s.1, s.2) in
  (mark_state_sink_delivered_ leaf i tx sink s).2 =
  (s.1 <| protocol_ := c.1 |> <| pending_state_deliveries_ ::= delete (state_delivery_key_ leaf i tx) |>, c.2).
Proof.
  intros E Hd. unfold mark_state_sink_delivered_, confirm_delivery, in_protocol, zoom, mbind, M_bind,
    this_bridge, gets, set_bridge, modify, confirmed.
  cbn [fst snd]. rewrite E. unfold upd. cbn. rewrite (proj2 (Z.eqb_eq _ _) Hd). cbn.
  destruct (confirm_state_delivery_ _ _ _ _) as [x [p w]]. cbn. by rewrite delete_insert_eq.
Qed.

Lemma delivered_refines a (s : St) leaf i tx sink :
  op_ok (Delivered leaf i tx sink) -> refines a s.1 ->
  let '(a', c) := spec_op (bridge_millis s.2) (Delivered leaf i tx sink) a in
  let s' := (run_op (Delivered leaf i tx sink) s).2 in
  refines a' s'.1 /\ (protocol_ s'.1, s'.2) = confirmed c (protocol_ s.1, s.2).
Proof.
  intros (Hid & Hs) HR. cbn [spec_op run_op]. pose proof (HR leaf i tx Hid) as Hsame.
  unfold same_delivery in Hsame. destruct (a !! _) as [w|] eqn:Ea,
    (pending_state_deliveries_ s.1 !! _) as [d|] eqn:Ed; try done; [|by rewrite mark_unknown].
  destruct Hsame as (E1 & E2 & E3 & E4 & E5 & E6 & E7 & E8).
  destruct (report_mask (required_sinks d) (delivered_sinks d) sink E7 E8 Hs) as (Hm & Hrest & Hdone).
  fold (missing_of d) in Hrest. rewrite E6 in Hrest. rewrite <-Hrest.
  case_decide as Hz.
  - rewrite (mark_done _ _ _ _ d) by (done || by apply Hdone). rewrite E1, E3, E4. cbn [fst snd].
    split; [|symmetry; apply surjective_pairing]. by apply refines_delete, Hid; apply refines_protocol.
  - rewrite (mark_open _ _ _ _ d) by (done || by rewrite Hdone). split; [|done].
    apply refines_insert; [done|done|]. unfold same_delivery, reported, missing_of, upd. cbn.
    split_and!; done || lia.
Qed.

(** C19: The bridge's deliveries implement their contract.  Whenever the code's map of pending
    deliveries - strings of hexadecimal address, entity and counter to records with two bit
    masks - represents the waiting deliveries of the specification, it still does after a
    state arrives, a sink reports or deliveries expire; and the protocol object is asked to
    confirm exactly when the specification says so: at once when no sink is connected, and
    otherwise with the report of the last sink that was missing, to the hop the state came
    from.  No two deliveries share a key. *)
Theorem deliveries_refine_spec op a (s : St) :
  op_ok op -> refines a s.1 ->
  let '(a', c) := spec_op (bridge_millis s.2) op a in
  let s' := (run_op op s).2 in
  refines a' s'.1 /\ (protocol_ s'.1, s'.2) = confirmed c (protocol_ s.1, s.2).
Proof.
  destruct op as [leaf i tx hop required|leaf i tx sink|]; intros Hop HR.
  - by apply begin_refines.
  - by apply delivered_refines.
  - split; [by apply refines_expire|done].
Qed.

Lemma new_component_refines p m nid key mac : refines ∅ (new_component p m nid key mac).
Proof. intros leaf i tx _. by rewrite lookup_empty. Qed.
End refinement.
