(* ===== verification/ApiProps.v ===== *)
(** * ApiProps: what clients of the runtime API can do

    A client that has not proved knowledge of the API key reaches nothing but
    its own connection; of a batch of firmware chunks exactly the requested,
    undamaged ones reach the OTA manager; and a firmware job started after an
    aborted one can miss its acceptance. *)
From stdpp Require Import pretty sorting.
From S2P Require Import Prelude Wire Crypto OtaManager OtaManagerInv BridgeSession BridgeProtocol BridgeLoop ProtoMessages WebSocket ApiTransport BridgeComponent EntityText EntityCommand BridgeOta RuntimeEvents RuntimeApi ComponentInv.

(** ** Parsed values are bytes of the input *)
Lemma parse_fields_keep {A} (P : A -> Prop) (body : Field -> A -> bool * A) data out :
  bytes_ok data -> P out ->
  (forall f out, (forall v, value f = Some v -> bytes_ok v) -> P out -> P (body f out).2) ->
  P (parse_fields body data out).2.
Proof.
  intros Hd H0 Hb. unfold parse_fields. generalize (S (length data)) 0%nat. intros fuel.
  revert out H0. induction fuel as [|fuel IH]; intros out H0 pos; cbn [parse_loop]; [done|].
  destruct (_ <? _)%nat; [|done]. destruct (read_field data pos) as [[f pos']|] eqn:Hf; [|done].
  apply read_field_bounds in Hf as (_ & _ & _ & _ & Hv).
  assert (P (body f out).2) as Hp.
  { apply Hb; [|done]. intros v E. destruct (Hv v E) as (_ & _ & ->). by apply slice_ok. }
  destruct (body f out) as [[] out']; [|done]. by apply IH.
Qed.

Lemma as_string_ok v : (forall l, v = Some l -> bytes_ok l) -> bytes_ok (as_string v).
Proof. destruct v as [l|]; cbn; [auto|constructor]. Qed.

Lemma parsed_envelope_ok data ok env :
  bytes_ok data -> parse_envelope data = (ok, env) -> bytes_ok (as_string (msg_data env)).
Proof.
  intros Hd. unfold parse_envelope.
  pose proof (parse_fields_keep (fun e => bytes_ok (as_string (msg_data e))) envelope_field data
    (Build_ParsedEnvelope [] 0 0 None) Hd ltac:(constructor)) as H.
  destruct (parse_fields _ _ _) as [ok' out]. intros [= _ <-]. apply H. clear H.
  intros f e Hf He. unfold envelope_field. cbn [snd].
  repeat case_match; first [exact He|by apply as_string_ok].
Qed.

Lemma parsed_auth_ok data ok response :
  bytes_ok data -> parse_auth_response data = (ok, response) ->
  bytes_ok (hmac_sha256 response) /\
  (ok = true -> client_nonce response <> [] /\ length (hmac_sha256 response) = kRuntimeHmacBytes).
Proof.
  intros Hd. unfold parse_auth_response.
  pose proof (parse_fields_keep (fun r => bytes_ok (hmac_sha256 r)) auth_field data
    (Build_ParsedAuthResponse [] [] [] []) Hd ltac:(constructor)) as H.
  destruct (parse_fields _ _ _) as [ok' out]. intros [= <- <-]. split.
  - apply H. clear H. intros f r Hf Hr. unfold auth_field. cbn [snd].
    repeat case_match; first [exact Hr|by apply as_string_ok].
  - intros Hok. zprop. split; [|done]. unfold nonempty in *. intros E. rewrite E in *. done.
Qed.

(** ** Authentication *)
Section authentication.
Context {W : Type} `{!BridgeEnv W} `{!Hmac} `{!SocketEnv W} `{!ComponentEnv W} `{!RuntimeEnv W} `{Hfloat : !FloatText} `{Hcmd : !CommandText}.
Abbreviation St := (ESPTreeBridge * W)%type.

(** The frame holds the HMAC, under the API key, of this connection's nonce. *)
Definition authentic (b : ESPTreeBridge) (payload : bytes) : Prop :=
  exists env response,
    parse_envelope payload = (true, env) /\ (api_version env = 0 \/ api_version env = kRuntimeApiVersion) /\
    msg_field env = envelope_field_number AUTH_RESPONSE /\
    parse_auth_response (data_of env) = (true, response) /\
    client_kind response = str "ha_integration" /\
    hmac_sha256 response =
      hmac (api_key_ b) (auth_input (str "ha_integration") (server_nonce (api_proto_ws_ b)) (client_nonce response)).

(** What writing to the socket does to the world. *)
Inductive socket_step : W -> W -> Prop :=
  | socket_send fd data w : socket_step w (send_exact fd data w).2
  | socket_shutdown fd w : socket_step w (shutdown fd w).

(** Nothing but writing to the socket. *)
Definition only_writes (s s' : Transport * W) : Prop := s'.1 = s.1 /\ rtc socket_step s.2 s'.2.
#[local] Instance only_writes_preorder : PreOrder only_writes.
Proof.
  split; unfold only_writes; [by intros s|]. intros s1 s2 s3 [-> H1] [-> H2]. split; [done|by etrans].
Qed.

Lemma send_frame_writes opcode payload : keeps only_writes (send_frame opcode payload).
Proof.
  assert (forall fd data, keeps only_writes (write fd data)) as Hw.
  { intros fd data s. unfold write. pose proof (socket_send fd data s.2) as Hsend.
    destruct (send_exact fd data s.2). split; [done|by apply rtc_once]. }
  unfold send_frame. keeps_go ltac:(first [apply Hw|by intros s]).
Qed.
Lemma send_binary_writes payload : keeps only_writes (send_binary payload).
Proof. unfold send_binary. keeps_go ltac:(apply send_frame_writes). Qed.

Lemma in_transport_writes (m : M (Transport * W) unit) (s : St) :
  keeps only_writes m -> exists w, (in_transport m s).2 = (s.1, w) /\ rtc socket_step s.2 w.
Proof.
  intros Hm. rewrite in_transport_run. destruct (Hm (api_proto_ws_ s.1, s.2)) as [E Hw]. cbn in E, Hw.
  rewrite E. eexists. split; [|exact Hw]. by destruct s as [[] w].
Qed.

Definition closed (t : Transport) : Transport :=
  t <| connected := false |> <| authenticated := false |> <| active_fd := -1 |>.

Lemma auth_failed_closes id code msg (s : St) :
  exists w, (auth_failed id code msg s).2 = (s.1 <| api_proto_ws_ ::= closed |>, w) /\ rtc socket_step s.2 w.
Proof.
  unfold auth_failed. set (m := in_transport (send_binary _)).
  destruct (in_transport_writes _ s (send_binary_writes (auth_failed_envelope id code msg))) as (w & E & Hw).
  fold m in E. unfold mbind, M_bind. destruct (m s) as [a s1]. cbn in E. subst s1.
  rewrite in_transport_run. cbn [fst snd].
  unfold close_client, mbind, M_bind, this_transport, gets, set_transport, modify, when. cbn [fst snd].
  destruct (0 <=? _); [|by exists w].
  pose proof (send_frame_writes 8 [] (closed (api_proto_ws_ s.1), w)) as [E2 Hw2]. cbn [fst snd] in E2, Hw2.
  unfold closed in *. destruct (send_frame 8 [] _) as [ok [t w2]]. cbn [fst snd] in *. subst t.
  eexists. split; [reflexivity|]. etrans; [exact Hw|]. etrans; [exact Hw2|]. apply rtc_once. constructor.
Qed.

Lemma verify_exact b payload env response :
  bytes_ok payload -> parse_envelope payload = (true, env) ->
  parse_auth_response (data_of env) = (true, response) ->
  verify_auth_response (api_key_ b) (server_nonce (api_proto_ws_ b)) response = true <->
  client_kind response = str "ha_integration" /\
  hmac_sha256 response =
    hmac (api_key_ b) (auth_input (str "ha_integration") (server_nonce (api_proto_ws_ b)) (client_nonce response)).
Proof.
  intros Hp He Hr. apply parsed_envelope_ok in He; [|done].
  destruct (parsed_auth_ok _ _ _ He Hr) as [Hok Hlen]. destruct (Hlen eq_refl) as [Hn Hl].
  unfold verify_auth_response. rewrite Hl, Nat.eqb_refl. cbn [negb].
  destruct (client_nonce response) as [|c nonce] eqn:Ec; [done|]. cbn [length Nat.eqb].
  rewrite !orb_false_r. destruct (bytes_eqb _ _) eqn:Ek; cbn [negb].
  - apply bytes_eqb_true in Ek. rewrite Ek, constant_time_equal_spec, bool_decide_eq_true.
    + rewrite !take_ge by (rewrite ?hmac_length, ?Hl; done). naive_solver.
    + apply hmac_ok.
    + done.
    + by rewrite hmac_length.
    + by rewrite Hl.
  - split; [done|]. intros [E _]. rewrite E, bytes_eqb_refl in Ek. done.
Qed.
Lemma this_bridge_bind {A} (k : ESPTreeBridge -> M St A) s : (b ← this_bridge; k b) s = k s.1 s.
Proof. done. Qed.
Lemma bind_run {A B} (m : M St A) (k : A -> M St B) s a s' : m s = (a, s') -> (x ← m; k x) s = k a s'.
Proof. intros E. unfold mbind, M_bind. by rewrite E. Qed.
Lemma now_ms_bind {A} (k : Z -> M St A) s : (now ← now_ms; k now) s = k (bridge_millis s.2) s.
Proof. done. Qed.

(** An authenticated connection stays one while frames are written. *)
Lemma accepts_authentic id now (s : St) :
  authenticated (api_proto_ws_
    ((in_transport (set_transport (fun t => t <| authenticated := true |> <| last_heartbeat_ms := now |>));;
      set_ota_transport_callbacks;;
      b ← this_bridge; in_transport (send_binary (api_runtime_encode_auth_ok id b))) s).2.1) = true.
Proof.
  unfold mbind, M_bind. rewrite in_transport_run. cbn [fst snd].
  unfold set_ota_transport_callbacks, set_bridge, modify, this_bridge, gets. cbn [fst snd].
  match goal with |- context [in_transport ?m ?s1] =>
    destruct (in_transport_writes m s1 (send_binary_writes _)) as (w & -> & _) end.
  cbn [fst snd]. by destruct (negb _).
Qed.

(** C18: Only the holder of the API key gets in, and nobody else reaches anything.  On a
    connection that is not authenticated, a frame that holds the HMAC of this connection's
    nonce under the API key authenticates it; after any other frame, whatever its bytes, the
    whole bridge is as it was - sessions, queues, firmware job, deliveries - and the
    connection is either untouched or closed; the world has only seen bytes written to
    sockets. *)
Theorem client_must_authenticate payload (s : St) :
  bytes_ok payload -> authenticated (api_proto_ws_ s.1) = false ->
  let s' := (handle_binary payload s).2 in
  (authentic s.1 payload -> authenticated (api_proto_ws_ s'.1) = true) /\
  (~ authentic s.1 payload ->
     (s'.1 = s.1 \/ s'.1 = s.1 <| api_proto_ws_ ::= closed |>) /\ rtc socket_step s.2 s'.2).
Proof.
  intros Hp Ha. cbv zeta. unfold handle_binary. destruct (parse_envelope payload) as [ok env] eqn:He.
  destruct (negb ok || _) eqn:Hv.
  { split; [|intros _; destruct (in_transport_writes _ s (send_binary_writes
      (error_envelope [] (str "invalid_envelope") (str "Invalid protobuf envelope")))) as (w & E & Hw);
      unfold send_error; rewrite E; split; [by left|exact Hw]].
    intros (env' & r & E & Hver & _). rewrite He in E. injection E as -> ->. cbn in Hv. zprop.
    by destruct Hver as [Hver|Hver]. }
  zprop. subst ok. unfold mbind, M_bind, this_bridge, gets. cbn [fst snd].
  assert (has_authenticated_client (api_proto_ws_ s.1) = false) as ->.
  { unfold has_authenticated_client. by rewrite Ha, andb_false_r. }
  unfold handle_auth. cbn [negb]. destruct (Z.eqb_spec (msg_field env) (envelope_field_number AUTH_RESPONSE)) as [Hm|Hm]; cbn [negb].
  2: { destruct (auth_failed_closes (request_id env) (str "auth_required")
         (str "Authenticate before sending runtime requests") s) as (w & -> & Hw).
       split; [|by intros _; split; [right|]]. intros (env' & r & E & _ & Hf & _).
       rewrite He in E. injection E as ->. by destruct Hm. }
  destruct (parse_auth_response (data_of env)) as [ok r] eqn:Hr.
  rewrite this_bridge_bind.
  destruct ok; cbn [negb orb].
  2: { destruct (auth_failed_closes (request_id env) (str "auth_failed") (str "Authentication failed") s)
         as (w & -> & Hw).
       split; [|by intros _; split; [right|]]. intros (env' & r' & E & _ & _ & E2 & _).
       rewrite He in E. injection E as <-. by rewrite Hr in E2. }
  pose proof (verify_exact s.1 payload env r Hp He Hr) as Hx.
  destruct (verify_auth_response _ _ r) eqn:Hver; cbn [negb].
  - rewrite now_ms_bind. split; [intros _; apply accepts_authentic|]. intros []. destruct (proj1 Hx eq_refl) as [Hk Hh].
    exists env, r. split_and!; try done.
    match goal with H : _ \/ _ |- _ => destruct H as [H|H] end; zprop; auto.
  - destruct (auth_failed_closes (request_id env) (str "auth_failed") (str "Authentication failed") s)
      as (w & -> & Hw).
    split; [|by intros _; split; [right|]]. intros (env' & r' & E & _ & _ & E2 & Hk & Hh).
    rewrite He in E. injection E as <-. rewrite Hr in E2. injection E2 as <-. by apply Hx.
Qed.
End authentication.

(** ** Batches of firmware chunks *)
Import ESPNowOTAManager (Manager, pending_chunks_, tracker_, requested_sequences).
#[local] Existing Instance ESPNowOTAManager.eta_manager.
#[local] Existing Instance ESPNowOTAManager.eta_tracker.

(** What the last request and the chunk itself say of an undamaged chunk. *)
Record intact (t : Transport) (c : ParsedOtaChunk) : Prop := {
  in_requested : oc_sequence c ∈ ota_pending_sequences t;
  in_payload : exists p, oc_payload c = Some p /\ 0 < Z.of_nat (length p) <= ota_max_chunk_size t /\
               crc32_bytes p = oc_crc32 c;
  in_offset : oc_offset c = oc_sequence c * ota_max_chunk_size t
}.

Definition queue_chunk (m : Manager) (c : ParsedOtaChunk) : Manager :=
  m <| pending_chunks_ ::= fun q => q ++ [(oc_sequence c, as_string (oc_payload c))] |>
    <| tracker_ ::= fun t => t <| requested_sequences ::= fun s => s ∖ {[oc_sequence c]} |> |>.
Definition take_chunk (t : Transport) (c : ParsedOtaChunk) : Transport := take_sequence (oc_sequence c) t.

Lemma chunk_valid_intact t c : chunk_valid t c = true -> intact t c.
Proof.
  unfold chunk_valid. intros Hv. zprop. apply bool_decide_eq_true in H.
  constructor; [done| |done]. destruct (oc_payload c) as [p|]; [|done]. exists p. cbn in *.
  split_and!; try done. destruct p; cbn in *; [done|lia].
Qed.

Lemma take_chunk_intact t c d :
  intact (take_chunk t c) d -> intact t d /\ oc_sequence d <> oc_sequence c.
Proof.
  assert (ota_pending_sequences (take_chunk t c) = ota_pending_sequences t ∖ {[oc_sequence c]} /\
    ota_max_chunk_size (take_chunk t c) = ota_max_chunk_size t) as [Ep Em].
  { unfold take_chunk, take_sequence. by case_bool_decide. }
  intros [Hr Hp Ho]. rewrite Ep in Hr. rewrite Em in Hp, Ho. apply elem_of_difference in Hr as [Hr Hn].
  split; [by constructor|]. intros E. apply Hn. rewrite E. by apply elem_of_singleton.
Qed.

Lemma pending_of_queue m good :
  pending_chunks_ (foldl queue_chunk m good) =
  pending_chunks_ m ++ ((fun c => (oc_sequence c, as_string (oc_payload c))) <$> good).
Proof.
  revert m. induction good as [|c good IH]; intros m; cbn [foldl fmap list_fmap]; [by rewrite app_nil_r|].
  rewrite IH. unfold queue_chunk at 1, upd. cbn. by rewrite <-app_assoc.
Qed.

Section batches.
Context {W : Type} `{!BridgeEnv W} `{!Hmac} `{!SocketEnv W} `{!ComponentEnv W} `{!RuntimeEnv W} `{Hfloat : !FloatText} `{Hcmd : !CommandText}.
Abbreviation St := (ESPTreeBridge * W)%type.

(** The manager takes a chunk it has requested, or is not changed. *)
Lemma source_chunk_run (c : ParsedOtaChunk) m (x : BridgeProtocol * W) :
  let r := ESPNowOTAManager.on_source_chunk (oc_sequence c) (as_string (oc_payload c)) (m, x) in
  r = (false, (m, x)) \/
  (r = (true, (queue_chunk m c, x)) /\ oc_sequence c ∈ requested_sequences (tracker_ m)).
Proof.
  cbv zeta. unfold ESPNowOTAManager.on_source_chunk, mbind, M_bind, ESPNowOTAManager.this, gets. cbn [fst snd].
  destruct (negb (ESPNowOTAManager.state_is _ _)); [by left|].
  case_bool_decide as Hr; cbn [negb]; [|by left]. destruct (_ || _); [by left|]. by right.
Qed.

Definition with_chunks (s : St) (m : Manager) (good : list ParsedOtaChunk) : St :=
  (s.1 <| ota_manager_ := Some (foldl queue_chunk m good) |>
       <| api_proto_ws_ := foldl take_chunk (api_proto_ws_ s.1) good |>, s.2).

Lemma inject_run c m (s : St) :
  ota_manager_ s.1 = Some m ->
  api_ota_inject_chunk (oc_sequence c) (as_string (oc_payload c)) s = (false, s) \/
  (api_ota_inject_chunk (oc_sequence c) (as_string (oc_payload c)) s =
     (true, (s.1 <| ota_manager_ := Some (queue_chunk m c) |>, s.2)) /\
   oc_sequence c ∈ requested_sequences (tracker_ m)).
Proof.
  intros Hm. unfold api_ota_inject_chunk. rewrite this_bridge_bind. destruct (negb _); [by left|].
  rewrite Hm. unfold in_manager.
  destruct (source_chunk_run c m (protocol_ s.1, s.2)) as [->|[-> Hr]]; [left|right];
    destruct s as [[] w]; cbn in Hm; subst; done.
Qed.

(** What happens when a chunk is not accepted. *)
Definition refuse_batch (id job : bytes) : M St unit :=
  in_transport (send_error id error.OTA_INVALID_CHUNK (str "OTA chunk rejected"));;
  api_ota_abort job;; mret tt.

Lemma handle_chunk_run id job c chunks m (s : St) :
  ota_manager_ s.1 = Some m ->
  handle_chunks id job (c :: chunks) s = refuse_batch id job s \/
  (intact (api_proto_ws_ s.1) c /\ oc_sequence c ∈ requested_sequences (tracker_ m) /\
   handle_chunks id job (c :: chunks) s = handle_chunks id job chunks (with_chunks s m [c])).
Proof.
  intros Hm. cbn [handle_chunks]. rewrite this_bridge_bind.
  destruct (chunk_valid (api_proto_ws_ s.1) c) eqn:Hv; cbn [negb]; [|by left].
  apply chunk_valid_intact in Hv.
  destruct (inject_run c m s Hm) as [E|[E Hr]]; [left|right].
  - by rewrite (bind_run _ _ _ _ _ E).
  - split_and!; [done|done|]. rewrite (bind_run _ _ _ _ _ E). cbn [negb].
    by rewrite (bind_run _ _ _ _ _ (in_transport_run _ _)).
Qed.

(** C21: Of a batch of firmware chunks, what reaches the OTA manager is exactly a leading
    part of it: every one of these chunks was requested from this client and by the manager,
    none twice, each at the offset of its sequence number, no longer than negotiated and with
    the right CRC; they enter the manager's queue in the order sent, unchanged, and are no
    longer awaited.  If that is not the whole batch, the first chunk that fails a test ends
    it: the client is told, and the job is aborted. *)
Theorem chunk_batch_exact id job chunks m (s : St) :
  ota_manager_ s.1 = Some m ->
  exists good rest,
    chunks = good ++ rest /\ NoDup (oc_sequence <$> good) /\
    Forall (fun c => intact (api_proto_ws_ s.1) c /\ oc_sequence c ∈ requested_sequences (tracker_ m)) good /\
    handle_chunks id job chunks s =
      (match rest with [] => mret tt | _ :: _ => refuse_batch id job end) (with_chunks s m good).
Proof.
  revert m s. induction chunks as [|c chunks IH]; intros m s Hm;
    assert (s = with_chunks s m []) as Hs by (destruct s as [[] w]; cbn in Hm; by subst).
  { exists [], []. split_and!; [done|constructor|constructor|]. by rewrite <-Hs. }
  destruct (handle_chunk_run id job c chunks m s Hm) as [E|(Hi & Hr & E)]; rewrite E.
  { exists [], (c :: chunks). split_and!; [done|constructor|constructor|]. by rewrite <-Hs. }
  destruct (IH (queue_chunk m c) (with_chunks s m [c]) eq_refl) as (good & rest & -> & Hnd & Hall & ->).
  exists (c :: good), rest. split_and!; [done| | |by destruct rest].
  - cbn. constructor; [|done]. intros (d & Ed & Hd)%list_elem_of_fmap.
    rewrite Forall_forall in Hall. destruct (Hall d Hd) as [Hx _]. by apply take_chunk_intact in Hx as [_ []].
  - constructor; [done|]. eapply Forall_impl; [exact Hall|]. intros d [Hx Hd].
    apply take_chunk_intact in Hx as [Hx _]. split; [done|]. cbn in Hd.
    by apply elem_of_difference in Hd as [Hd _].
Qed.
End batches.

(** ** A job started after an aborted one *)
Section restart.
Context {W : Type} `{!BridgeEnv W} `{!Hmac} `{!SocketEnv W} `{!ComponentEnv W} `{!RuntimeEnv W} `{Hfloat : !FloatText} `{Hcmd : !CommandText}.
Abbreviation St := (ESPTreeBridge * W)%type.

(** The remembered state of the manager and the client's subscription stay. *)
Definition same_prev (s s' : St) : Prop :=
  ota_manager_prev_public_state_ s'.1 = ota_manager_prev_public_state_ s.1 /\
  ota_transport_callbacks_ s'.1 = ota_transport_callbacks_ s.1.
#[local] Instance same_prev_preorder : PreOrder same_prev.
Proof.
  split; unfold same_prev; [by intros s|]. intros s1 s2 s3 [-> ->] H23. exact H23.
Qed.

Lemma prev_this : keeps same_prev this_bridge.
Proof. by intros s. Qed.
Lemma prev_manager {A} m (op : M (Manager * (BridgeProtocol * W)) A) : keeps same_prev (in_manager m op).
Proof. intros s. unfold in_manager. by destruct (op _) as [a [m' [p w]]]. Qed.
Lemma prev_set f : (forall b, ota_manager_prev_public_state_ (f b) = ota_manager_prev_public_state_ b /\
    ota_transport_callbacks_ (f b) = ota_transport_callbacks_ b) -> keeps same_prev (set_bridge (W := W) f).
Proof. intros Hf [b w]. apply Hf. Qed.

Ltac same_prev_go := keeps_go ltac:(first
  [apply prev_this|apply prev_manager|apply prev_set; intros b; split; reflexivity]).

Lemma prev_abort job : keeps same_prev (api_ota_abort job).
Proof. unfold api_ota_abort. same_prev_go. Qed.
Lemma prev_start target fs md5 fn rid : keeps same_prev (api_ota_start target fs md5 fn rid).
Proof. unfold api_ota_start. same_prev_go. Qed.
Lemma prev_file_ack leaf ack trailing : keeps same_prev (file_ack leaf ack trailing).
Proof. unfold file_ack. same_prev_go. Qed.

Lemma missed_acceptance m (s : St) :
  ota_transport_callbacks_ s.1 = true -> ota_job_state_ s.1 = WAITING_FOR_LEAF ->
  ota_manager_prev_public_state_ s.1 = str "TRANSFERRING" -> ota_manager_ s.1 = Some m ->
  ESPNowOTAManager.is_busy m = true -> ESPNowOTAManager.public_state_ m = str "TRANSFERRING" ->
  emit_ota_events_ s = (tt, s).
Proof.
  intros Hc Hj Hp Hm Hb Hs. unfold emit_ota_events_. rewrite this_bridge_bind, Hc. cbn [negb]. rewrite Hj.
  unfold emit_waiting. rewrite this_bridge_bind, Hm, Hb, Hs, Hp. cbn [andb negb].
  rewrite bytes_eqb_refl. cbn [andb negb].
  unfold set_prev, set_bridge, modify. destruct s as [[] w]. cbn in *. by subst.
Qed.

End restart.
