(* ===== verification/BridgeDemo.v ===== *)
(** * BridgeDemo: the bridge's theorems on a concrete bridge

    A small world (a clock, the frames sent, the states published) and a bridge
    with one session, on which the theorems about the bridge are applied. *)
From S2P Require Import Prelude Wire Crypto Frames Fragments OtaManager BridgeSession BridgeProtocol BridgeLoop BridgeInv BridgeSafety BridgeRun BridgeDelivery BridgeLimits.

#[local] Existing Instance toy_hmac.

Record World := {
  clock : Z;
  frames_sent : list (bytes * bytes);
  states_published : list (bytes * bytes);
  config_results : list (Z * bool)
}.
#[export] Instance eta_world : Eta World := fun w =>
  Build_World (clock w) (frames_sent w) (states_published w) (config_results w).

#[local] Instance demo_env : BridgeEnv World := {|
  bridge_millis := clock;
  bridge_delay ms w := w <| clock ::= Z.add ms |>;
  esp_random w := (7, w);
  fill_random_bytes n w := (zseq 0 n, w);
  esp_get_free_heap_size w := (100000, w);
  ram_below _ _ := false;
  send_fn to frame w := (true, w <| frames_sent ::= cons (to, frame) |>);
  send_err_fn to frame w := (ESP_OK, w <| frames_sent ::= cons (to, frame) |>);
  publish_state_fn leaf _ value _ _ _ _ w := w <| states_published ::= cons (leaf, value) |>;
  publish_discovery_fn _ _ _ _ w := w;
  publish_availability_fn _ _ _ w := w;
  publish_topology_changed_fn _ _ w := w;
  publish_bridge_diag_fn _ _ w := w;
  clear_entities_fn _ _ w := w;
  schema_complete_fn _ _ w := w;
  file_ack_fn _ _ _ w := w;
  config_callback id r w := w <| config_results ::= cons (id, acked r) |>
|}.

Definition demo_world : World :=
  {| clock := 50000; frames_sent := []; states_published := []; config_results := [] |}.
Definition demo_callbacks : Callbacks :=
  {| send_fn_set := true; send_err_fn_set := false; publish_state_fn_set := true;
     publish_discovery_fn_set := true; publish_availability_fn_set := true;
     publish_topology_changed_fn_set := true; publish_bridge_diag_fn_set := true;
     clear_entities_fn_set := true; schema_complete_fn_set := true; file_ack_fn_set := true |}.

Definition demo_leaf : bytes := [10; 11; 12; 13; 14; 15].
Definition demo_relay : bytes := [20; 21; 22; 23; 24; 25].
Definition demo_session : BridgeSession :=
  new_session <| s_leaf_mac := demo_leaf |> <| s_session_key := demo_key |>
    <| s_session_key_valid := true |> <| s_online := true |> <| s_remote_state := NORMAL |>.
Definition demo_bridge : BridgeProtocol :=
  new_bridge <| crypto := demo_crypto |> <| callbacks := demo_callbacks |>
    <| sessions_ := {[ mac_to_key_ demo_leaf := demo_session ]} |>.
Definition demo_state : BridgeProtocol * World := (demo_bridge, demo_world).

Lemma demo_leaf_ok : bytes_ok demo_leaf.
Proof. by apply byteb_ok. Qed.

Lemma demo_session_ok : session_ok (mac_to_key_ demo_leaf) demo_session.
Proof.
  constructor; try done.
  - split; [done|]. apply demo_key_ok.
  - by left.
  - by left.
  - apply no_reassembly_ok.
  - apply no_reassembly_ok.
Qed.
Lemma demo_bridge_ok : bridge_ok demo_bridge.
Proof.
  constructor; [|apply map_Forall_empty|by constructor|by constructor|done].
  change (map_Forall session_ok
    ({[ mac_to_key_ demo_leaf := demo_session ]} : gmap Z BridgeSession)).
  apply map_Forall_singleton, demo_session_ok.
Qed.

(** A frame of the leaf. *)
Definition leaf_frame (type : espnow_packet_type_t) (tx : Z) (plaintext : bytes) : bytes :=
  default [] (encrypted_frame demo_crypto demo_key demo_leaf (packet_type_code type) 0 tx plaintext).
Definition demo_heartbeat : bytes :=
  leaf_frame PKT_HEARTBEAT 9 (to_bytes {| hb_uptime_seconds := 30;
    hb_expected_contact_interval_seconds := 60; hb_parent_mac := demo_relay;
    hb_direct_child_count := 0; hb_total_child_count := 0; hb_remote_rssi_dbm := 0 |}).

(** ** Witnesses *)
Lemma relayed_frame_accepted_witness :
  exists f,
    parse_frame_ demo_crypto (relayed 65 demo_relay (leaf_frame PKT_STATE 5 [1; 2; 3])) = Some f /\
    packet_type_of (packet_type (pf_header f)) = Some PKT_STATE /\
    leaf_mac (pf_header f) = demo_leaf /\ tx_counter (pf_header f) = 5 /\
    hop_count (pf_header f) = 65 /\
    pf_parent_mac f = (if has_parent_check 65 then demo_relay else replicate 6 0) /\
    validate_session_packet_ demo_crypto demo_session (pf_header f) (pf_payload f)
      (pf_session_tag f) = Some [1; 2; 3].
Proof.
  apply (relayed_frame_accepted demo_crypto demo_session demo_leaf PKT_STATE 0 5 [1; 2; 3]
    (leaf_frame PKT_STATE 5 [1; 2; 3]) 65 demo_relay); try done.
  - apply demo_key_ok.
  - apply demo_leaf_ok.
  - vm_compute. lia.
Defined.

Definition demo_parsed (frame : bytes) : ParsedFrame :=
  default {| pf_header := of_bytes []; pf_payload := []; pf_session_tag := None; pf_parent_mac := [] |}
    (parse_frame_ demo_crypto frame).

Lemma accepted_frame_authentic_witness :
  let f := demo_parsed demo_heartbeat in
  exists plaintext,
    validate_session_packet_ demo_crypto demo_session (pf_header f) (pf_payload f)
      (pf_session_tag f) = Some plaintext /\
    g_psk_set demo_crypto = true /\ s_session_key_valid demo_session = true /\
    psk_tag (pf_header f) =
      espnow_crypto_psk_tag demo_crypto (to_bytes (pf_header f)) (pf_payload f) /\
    pf_session_tag f = Some (espnow_crypto_session_tag (s_session_key demo_session)
                               (to_bytes (pf_header f)) (pf_payload f)) /\
    is_encrypted_packet (packet_type (pf_header f)) = true /\
    plaintext = aes256_ctr_crypt (s_session_key demo_session) (tx_counter (pf_header f))
                  (pf_payload f).
Proof.
  destruct (validate_session_packet_ demo_crypto demo_session
    (pf_header (demo_parsed demo_heartbeat)) (pf_payload (demo_parsed demo_heartbeat))
    (pf_session_tag (demo_parsed demo_heartbeat))) as [plaintext|] eqn:E;
    [|by vm_compute in E].
  exists plaintext. split; [done|].
  apply (accepted_frame_authentic demo_crypto demo_session demo_heartbeat); [|reflexivity|exact E].
  by apply byteb_ok.
Defined.

Lemma frame_touches_one_session_witness :
  sessions_ (on_espnow_frame demo_relay demo_heartbeat (-40) demo_state).2.1 !! 7 =
  sessions_ demo_state.1 !! 7.
Proof. apply frame_touches_one_session. by vm_compute. Defined.

Definition demo_started : BridgeProtocol * World :=
  started (hex_encode demo_key) [104; 111; 109; 101] 60 demo_relay 0 demo_callbacks demo_world.

Lemma bridge_invariant_witness : bridge_ok (loop demo_started).2.1.
Proof.
  apply (bridge_invariant (hex_encode demo_key) [104; 111; 109; 101] 60 demo_relay 0 demo_callbacks
    demo_world).
  apply rtc_once. exact (step_loop demo_started).
Defined.

Definition demo_after_heartbeat : BridgeProtocol * World :=
  (on_espnow_frame demo_relay demo_heartbeat (-40) demo_state).2.
Lemma demo_heartbeat_accepted :
  on_espnow_frame demo_relay demo_heartbeat (-40) demo_state = (true, demo_after_heartbeat).
Proof.
  unfold demo_after_heartbeat. by rewrite (surjective_pairing (on_espnow_frame _ _ _ _)) at 1.
Qed.


Definition demo_text : bytes := (fun i => i mod 256) <$> zseq 0 300.
Definition from_leaf (piece : nat) : Arrival :=
  {| arr_piece := piece; arr_hop := 1; arr_parent := demo_relay; arr_sender := demo_relay;
     arr_rssi := -50 |}.

Lemma state_value_published_witness :
  exists s' w,
    receive_arrivals 3 220 5 (fun _ => 0) demo_text demo_crypto demo_key demo_leaf 0
      ([from_leaf 1; from_leaf 1] ++ [from_leaf 0]) demo_state = (true, s') /\
    s'.2 = publish_state_fn demo_leaf blank_entity demo_text 0 [] 5 demo_relay w.
Proof.
  apply (state_value_published demo_state demo_session demo_leaf 0 3 5 (fun _ => 0) demo_text
    [from_leaf 1; from_leaf 1] (from_leaf 0)); try done.
  - exact demo_bridge_ok.
  - apply demo_leaf_ok.
  - vm_compute. lia.
  - repeat constructor; done || (vm_compute; lia).
  - exists 0%nat. split; [done|]. cbn. set_solver.
  - intros i Hi. change (chunk_count _ demo_text) with 2 in Hi. cbn.
    assert (i = 0 \/ i = 1)%nat as [-> | ->] by lia; set_solver.
Defined.

Definition demo_joining : BridgeProtocol * World :=
  (demo_bridge <| joining_in_progress_ := true |> <| joining_leaf_mac_ := demo_leaf |>
     <| join_started_ms_ := 4000 |>, demo_world).

Lemma join_slot_released_witness : joining_in_progress_ (loop demo_joining).2.1 = false.
Proof. by apply (join_slot_released demo_joining). Defined.


Definition demo_report : bytes := append_entity_payload 3 0 0 1 [42].
Definition demo_confirmed : BridgeProtocol * World :=
  (confirm_state_delivery_ demo_leaf 5 demo_relay demo_state).2.

Lemma confirmed_state_not_republished_witness :
  let f := demo_parsed (leaf_frame PKT_STATE 5 demo_report) in
  handle_state_ demo_relay (pf_header f) (pf_payload f) (-50) (pf_session_tag f) demo_confirmed =
  send_state_ack_ demo_relay (mac_to_key_ demo_leaf) 5 0 demo_confirmed.
Proof.
  destruct (get_session demo_leaf demo_confirmed.1) as [x1|] eqn:E; [|by vm_compute in E].
  assert (s_session_key_valid x1 = true /\ s_session_key x1 = demo_key) as [Hv Hk].
  { vm_compute in E. injection E as <-. by vm_compute. }
  apply (confirmed_state_not_republished demo_leaf 5 demo_relay demo_session demo_state demo_relay
    _ _ _ _ x1 demo_report
    {| view_entity_index := 3; view_flags := 0; view_fragment_index := 0;
       view_fragment_count := 1; view_value := [42] |}); try done.
  - by vm_compute; lia.
  - unfold validate_session_packet_. rewrite Hv, Hk. vm_compute. reflexivity.
Defined.
