(* ===== verification/RemoteDemo.v ===== *)
(** * RemoteDemo: the remote's theorems on a concrete remote

    A small world (a clock and the commands that ran) and a joined relay with
    one entity, on which the theorems about the remote are applied; with the
    bridge of BridgeDemo for those about both. *)
From S2P Require Import Prelude Wire IncrementBuffer FileReceiver OTAFlashHandler FileReceiverInv FileContent OtaReceive Crypto Frames Fragments ReceiverWorld OtaManager BridgeSession BridgeProtocol BridgeLoop BridgeSafety BridgeRun BridgeDelivery BridgeDemo RemoteSession RemoteProtocol RemoteLoop RemoteFrames RemoteInv RemoteSafe RemoteRun RemoteProps RemoteConfig RemoteSending RemoteCommand RemoteDelivery.

#[local] Existing Instance toy_hmac.

Record Radio := { time : Z; calls : list (Z * Z * bytes) }.
#[export] Instance eta_radio : Eta Radio := fun r => Build_Radio (time r) (calls r).

(** A radio that answers [ok] to every transmission. *)
Definition radio_env (ok : bool) : RemoteEnv Radio := {|
  env_millis := time;
  env_delay ms w := w <| time ::= Z.add ms |>;
  env_esp_random w := (7, w);
  env_fill_random_bytes n w := (replicate n 5, w);
  env_send_fn _ _ w := (ok, w);
  env_command_fn i flags value w := w <| calls ::= fun l => l ++ [(i, flags, value)] |>;
  esp_wifi_set_channel _ w := (WIFI_OK, w);
  esp_wifi_start w := (WIFI_OK, w);
  esp_wifi_get_channel w := Some 6;
  wifi_component w := None;
  env_esp_restart w := w;
  env_safe_reboot w := w;
  esp_app_description w := None;
  running_partition_size w := None;
  esp_partition_read _ _ w := None;
  RemoteSession.chip_id := 5
|}.
#[local] Instance radio_on : RemoteEnv Radio := radio_env true.
#[local] Instance no_ota : OtaPlatform Radio := {|
  esp_ota_get_next_update_partition w := None;
  esp_ota_begin _ w := (false, 0, w);
  esp_ota_write _ _ w := (false, w);
  esp_ota_end _ w := (false, w);
  esp_ota_set_boot_partition w := (false, w);
  esp_ota_abort _ w := w;
  heap_caps_get_largest_free_block w := 0
|}.
#[local] Program Instance toy_digests : Digests := {|
  md5 data := pad_to 16 ((fun b => b mod 256) <$> rev data);
  sha256 data := pad_to 32 ((fun b => b mod 256) <$> rev data)
|}.
Next Obligation. intros. apply length_pad_to. Qed.
Next Obligation. intros. apply length_pad_to. Qed.
Next Obligation.
  intros. apply pad_to_ok, Forall_fmap, Forall_true. intros x. apply Z.mod_pos_bound. lia.
Qed.

Definition demo_radio : Radio := {| time := 70000; calls := [] |}.

Definition demo_mac_2 : bytes := [9; 9; 9; 9; 9; 9].

(** Two steps of the owner, [init], the first loops. *)
Definition boot_owner (W : Type) `{!RemoteEnv W} (w : W) : RemoteProtocol * W :=
  (register_entity FIELD_TYPE_SENSOR [116] [67] [] [116; 49]
     (set_send_fn true (set_local_mac demo_leaf (new_remote, w)).2).2).2.
Definition boot_demo (W : Type) `{!RemoteEnv W} (w : W) : RemoteProtocol * W :=
  (init (hex_encode demo_key) [104; 111; 109; 101] [110] [] 0 [] [] 60 (boot_owner W w)).2.
Definition run_demo (W : Type) `{!RemoteEnv W} `{!OtaPlatform W} (w : W) : RemoteProtocol * W :=
  (loop (loop (boot_demo W w)).2).2.

Lemma boot_demo_booted (W : Type) `{!RemoteEnv W} (w : W) : booted demo_leaf w (boot_demo W w).
Proof.
  exists (hex_encode demo_key), [104; 111; 109; 101], [110], [], 0, [], [], 60, (boot_owner W w).
  split; [|done]. eapply rtc_l; [apply (owner_send_fn true)|]. apply rtc_once, owner_register.
Qed.
Lemma run_demo_steps (W : Type) `{!RemoteEnv W} `{!OtaPlatform W} elapse (w : W) :
  rtc (remote_step elapse) (boot_demo W w) (run_demo W w).
Proof. eapply rtc_l; [apply remote_loop|]. apply rtc_once, remote_loop. Qed.


Lemma remote_invariant_witness :
  remote_ok (W := Radio) (crypto (boot_demo Radio demo_radio).1) (run_demo Radio demo_radio).1.
Proof.
  exact (remote_invariant (fun _ _ => False) demo_leaf demo_radio (boot_demo Radio demo_radio)
    (run_demo Radio demo_radio) eq_refl demo_leaf_ok (fun n _ => length_replicate n 5)
    (boot_demo_booted Radio demo_radio) (run_demo_steps Radio _ demo_radio)).
Defined.

Lemma sent_frames_well_formed_witness :
  length (run_demo (Radio * list (bytes * bytes)) (demo_radio, [])).2.2 = 1%nat /\
  Forall (fun m => frame_ok (crypto (boot_demo (Radio * list (bytes * bytes)) (demo_radio, [])).1) m.2)
    (run_demo (Radio * list (bytes * bytes)) (demo_radio, [])).2.2.
Proof.
  split; [by vm_compute|].
  exact (sent_frames_well_formed (fun _ _ => False) demo_leaf demo_radio
    (boot_demo (Radio * list (bytes * bytes)) (demo_radio, []))
    (run_demo (Radio * list (bytes * bytes)) (demo_radio, [])) eq_refl demo_leaf_ok
    (fun n _ => length_replicate n 5) (boot_demo_booted _ _) (run_demo_steps _ _ _)).
Defined.

(** ** A joined relay *)
Definition demo_registered : RemoteProtocol :=
  (register_entity FIELD_TYPE_SENSOR [116] [67] [] [116; 49] (new_remote, demo_radio)).2.1.
Definition demo_joined : RemoteProtocol :=
  demo_registered
    <| crypto := demo_crypto |> <| RemoteSession.send_fn_set := true |> <| command_fn_set := true |>
    <| leaf_mac_ := demo_leaf |> <| session_key_ := demo_key |> <| session_key_valid_ := true |>
    <| joined_ := true |> <| normal_ := true |> <| parent_mac_ := demo_relay |>
    <| parent_valid_ := true |> <| state_push_enabled_ := true |> <| hops_to_bridge_ := 1 |>
    <| can_relay_ := true |> <| tx_counter_ := 5 |>.
Definition demo_child : bytes := [1; 2; 3; 4; 5; 6].
Lemma demo_child_ok : bytes_ok demo_child.
Proof. by apply byteb_ok. Qed.

Lemma demo_joined_ok (W : Type) `{!OtaPlatform W} : remote_ok (W := W) demo_crypto demo_joined.
Proof.
  assert (remote_ok (W := W) (crypto new_remote) demo_registered) as Hr.
  { unfold demo_registered, register_entity. run_steps. destruct (new_remote_ok (W := W)). remote_update. }
  assert (routes_ demo_registered = [] /\ relay_enabled_ demo_registered = true) as [Er Ee] by done.
  unfold demo_joined. revert Hr Er Ee. generalize demo_registered. intros q [] Er Ee.
  pose proof demo_leaf_ok. pose proof demo_key_ok. remote_update.
  change (Forall (route_ok demo_leaf) (routes_ q)). rewrite Er. constructor.
Qed.

(** Frames under the session key, parsed again by the remote. *)
Definition session_frame (leaf : bytes) (type : espnow_packet_type_t) (hop tx : Z) (plaintext : bytes)
    : bytes :=
  default [] (encrypted_frame demo_crypto demo_key leaf (packet_type_code type) hop tx plaintext).
Definition remote_parsed (frame : bytes) : ParsedFrame :=
  default {| pf_header := of_bytes []; pf_payload := []; pf_session_tag := None; pf_parent_mac := [] |}
    (RemoteSession.parse_frame_ frame).

(** ** Witnesses: the remote's parts *)
Definition demo_state : RemoteProtocol * Radio := (demo_joined, demo_radio).
Definition demo_waiting : RemoteProtocol :=
  (send_discover_announce_with_jitter_ demo_relay demo_child ESPNOW_NODE_ROLE_RELAY 1 demo_state).2.1.

Lemma announce_queue_fifo_witness :
  pa_leaf_mac <$> announces demo_waiting = [demo_child] /\
  (exists rest, announces (send_discover_announce_with_jitter_ demo_relay demo_child 1 2
      (demo_waiting, demo_radio)).2.1 = announces demo_waiting ++ [rest] /\ pa_hops_to_bridge rest = 2) /\
  flush_pending_discover_announce_ (demo_waiting, demo_radio) = (tt, (demo_waiting, demo_radio)).
Proof.
  assert (ring_ok demo_waiting) as Hr
    by (constructor; [done|split; done|split; done
      |apply Forall_singleton; split_and!; [done|done|by apply byteb_ok]|done]).
  destruct (announce_queue_fifo demo_waiting demo_radio demo_relay demo_child 1 2 Hr eq_refl eq_refl demo_child_ok)
    as [(_ & _ & rest & E & _ & _ & _ & Eh) Hf].
  split; [by vm_compute|]. split; [exists rest; split; [exact E|exact Eh]|exact Hf].
Defined.

Definition heard (sender : bytes) (hops rssi : Z) : bytes * espnow_discover_announce_t * Z :=
  (sender, (of_bytes (replicate 200 0) : espnow_discover_announce_t) <| announce_hops_to_bridge := hops |>, rssi).
Lemma parent_is_best_witness :
  exists best, hear [heard demo_child 2 (-60); heard demo_relay 1 (-80); heard demo_mac_2 1 (-70)] demo_state =
    (tt, (demo_joined <| best_parent_ := best |>, demo_radio)) /\
  best_of (heard_candidate demo_joined demo_radio <$>
    [heard demo_child 2 (-60); heard demo_relay 1 (-80); heard demo_mac_2 1 (-70)]) best.
Proof. by apply parent_is_best. Defined.

(** A route learned from a frame of the child, heard through [demo_mac_2]. *)
Definition demo_routed : RemoteProtocol := (refresh_route_ demo_child demo_mac_2 demo_state).2.1.
Lemma total_children_always_zero_witness :
  length (routes_ demo_routed) = 1%nat /\ total_children_count_ demo_routed = 0.
Proof.
  split; [by vm_compute|].
  assert (remote_ok (W := Radio) demo_crypto demo_routed) as Hr.
  { exact (proj1 (safe_refresh_route demo_crypto (eq (A := Radio)) demo_child demo_mac_2
      demo_state (demo_joined_ok Radio))). }
  exact (total_children_always_zero demo_crypto demo_routed Hr).
Defined.

(** A frame of the child, one hop from it. *)
Definition child_frame : bytes := session_frame demo_child PKT_STATE 1 7 [1; 2; 3].
Lemma child_admitted :
  admit_frame demo_joined child_frame = Some (remote_parsed child_frame) /\
  should_handle_locally_ demo_joined (pf_header (remote_parsed child_frame)) = false /\
  relay_target demo_joined (pf_header (remote_parsed child_frame)) = Some demo_relay.
Proof. split_and!; by vm_compute. Qed.

Lemma relay_forwards_unchanged_witness :
  let h := pf_header (remote_parsed child_frame) in
  exists parent tag p', child_frame = frame_parts h parent (pf_payload (remote_parsed child_frame)) tag /\
    on_espnow_frame demo_mac_2 child_frame (-50) demo_state = (true, (p', demo_radio)) /\
    route_next_hop_mac <$> find_route_ demo_child p' = Some demo_mac_2.
Proof.
  destruct child_admitted as (Ha & Hl & Ht).
  assert (bytes_ok child_frame) as Hok by (apply byteb_ok; by vm_compute).
  assert (Z.of_nat (length child_frame) <= session_max_payload_ demo_joined) as Hlen by by vm_compute.
  assert (ESPNOW_HOPS_IS_UPSTREAM (hop_count (pf_header (remote_parsed child_frame))) = true /\
    leaf_mac (pf_header (remote_parsed child_frame)) = demo_child) as [Hup Hleaf] by (split; by vm_compute).
  destruct (relay_forwards_unchanged demo_crypto demo_mac_2 child_frame (-50) (remote_parsed child_frame)
    demo_joined demo_radio demo_relay (demo_joined_ok Radio) Hok Ha Hl
    eq_refl eq_refl Hlen eq_refl ltac:(done) Ht eq_refl)
    as (parent & tag & p' & E & Er & _ & Hroute).
  exists parent, tag, p'. split; [exact E|]. rewrite Hleaf in Hroute.
  split; [exact Er|exact (Hroute Hup)].
Defined.

(** A CONFIG frame for the relay itself: heartbeats every 30 seconds. *)
Definition heartbeat_config : bytes :=
  to_bytes {| cfg_command := CFG_CMD_HEARTBEAT_INTERVAL; cfg_flags := 0; cfg_payload_len := 4 |} ++ [30; 0; 0; 0].
Definition config_frame : ParsedFrame :=
  remote_parsed (session_frame demo_leaf PKT_CONFIG ESPNOW_HOPS_DIR_DOWN 7 heartbeat_config).
Lemma config_decrypts :
  decrypt_ demo_joined (pf_header config_frame) (pf_payload config_frame) (pf_session_tag config_frame) =
  Some heartbeat_config.
Proof. by vm_compute. Qed.
Lemma config_is_new : counter_is_newer (tx_counter (pf_header config_frame)) (last_seen_counter_ demo_joined) = true.
Proof. by vm_compute. Qed.

Abbreviation receive_config :=
  (handle_config_ (pf_header config_frame) (pf_payload config_frame) (pf_session_tag config_frame)).
Lemma received_config :
  let p1 := (receive_config (demo_joined, demo_radio)).2.1 in
  heartbeat_interval_ p1 = 30 /\ joined_ p1 = true /\
  last_config_command_ p1 = CFG_CMD_HEARTBEAT_INTERVAL /\ last_config_result_ p1 = CFG_RESULT_OK /\
  tx_counter (pf_header config_frame) = 7.
Proof. cbv zeta. split_and!; by vm_compute. Qed.



(** A command of two fragments for entity 0, its last fragment arriving first and twice. *)
Definition long_text : bytes := replicate 300 65.
Definition command_arrival (i : nat) : CommandArrival :=
  let f := remote_parsed (session_frame demo_leaf PKT_COMMAND ESPNOW_HOPS_DIR_DOWN (10 + Z.of_nat i)
    (fragment_payload 0 220 (fun _ => 0) long_text i)) in
  {| cmd_piece := i; cmd_header := pf_header f; cmd_payload := pf_payload f; cmd_tag := pf_session_tag f |}.
Lemma command_arrival_ok i : (i < 2)%nat -> command_ok demo_joined 0 10 (fun _ => 0) long_text (command_arrival i).
Proof. intros Hi. assert (i = 0 \/ i = 1)%nat as [-> | ->] by lia; split; by vm_compute. Qed.

Lemma command_executed_once_witness :
  let s' := (receive_commands [command_arrival 1; command_arrival 1; command_arrival 0; command_arrival 1]
               demo_state).2 in
  (exists i, calls s'.2 = [(0, (fun _ : nat => 0) i, long_text)]) /\
  exists r, entity_records_ s'.1 !! 0%nat = Some r /\
    er_current_value r = long_text /\ er_last_completed r = 10 /\ er_dirty r = false.
Proof.
  destruct (entity_records_ demo_joined !! 0%nat) as [record|] eqn:Er; [|by vm_compute in Er].
  assert (counter_is_newer 10 (er_last_completed record) = true) as Hnew
    by (vm_compute in Er; injection Er as <-; done).
  assert (commands_hold 0 (max_entity_fragment_ demo_joined) 10 (fun _ => 0) long_text
    (max_total_fragment_bytes_ demo_joined) [] (pending_commands_ demo_joined)) as Hhold.
  { split_and!; [done|vm_compute; lia|done|by vm_compute]. }
  assert (Forall (command_ok demo_joined 0 10 (fun _ => 0) long_text)
    [command_arrival 1; command_arrival 1; command_arrival 0; command_arrival 1]) as Hl
    by (repeat (constructor; [apply command_arrival_ok; lia|]); constructor).
  assert (chunk_count (max_entity_fragment_ demo_joined) long_text = 2) as Hc by by vm_compute.
  assert (forall i, Z.of_nat i < chunk_count (max_entity_fragment_ demo_joined) long_text ->
    i ∈ [1; 1; 0; 1]%nat) as Hall.
  { rewrite Hc. intros i Hi. assert (i = 0 \/ i = 1)%nat as [-> | ->] by lia; set_solver. }
  assert (chunk_count (max_entity_fragment_ demo_joined) long_text * max_entity_fragment_ demo_joined
    <= max_assembly_bytes_ demo_joined) as Hfits by by vm_compute.
  exact (command_executed_once calls (fun _ _ _ _ => eq_refl) (fun _ _ _ => eq_refl) demo_crypto
    demo_joined demo_radio 0 10 (fun _ => 0) long_text record _ (demo_joined_ok Radio) eq_refl eq_refl
    ltac:(lia) ltac:(lia) ltac:(lia) Hfits Er Hnew Hhold Hl Hall).
Defined.

(** ** Witnesses: the remote with the bridge *)
#[local] Existing Instance demo_env.

(** The entity's value is sent in two fragments. *)
Abbreviation report :=
  (send_state_ 0 long_text true (demo_joined, (demo_radio, [] : list (bytes * bytes)))).
Definition from_child (i : nat) : Arrival :=
  {| arr_piece := i; arr_hop := 1; arr_parent := replicate 6 0; arr_sender := demo_relay; arr_rssi := -50 |}.

Lemma report_session : session_for demo_joined 0 long_text demo_session.
Proof.
  constructor.
  - reflexivity.
  - reflexivity.
  - reflexivity.
  - by vm_compute.
  - by vm_compute.
  - by vm_compute.
  - vm_compute. lia.
  - by vm_compute.
  - by vm_compute.
Qed.

(** Frame 1 twice, frame 0 twice and frame 1 again complete two collections. *)
Definition demo_arrivals : list Arrival := from_child <$> [1; 1; 0; 0; 1]%nat.
Definition publishing_state := (BridgeDemo.demo_state.1, (BridgeDemo.demo_state.2, [] : list Publication)).
Definition demo_publication : Publication :=
  {| pub_leaf := demo_leaf; pub_entity := blank_entity; pub_value := long_text; pub_type := 0;
     pub_text := []; pub_tx_base := 5; pub_next_hop := demo_relay |}.


(** The remote's JOIN reaches a bridge that remembers its schema, and a frame size of 1470
    bytes, from a session with large frames; now neither side announces them. *)
Definition rejoin_header : espnow_frame_header_t :=
  {| protocol_version := ESPNOW_PROTOCOL_VER; hop_count := 0; packet_type := packet_type_code PKT_JOIN;
     leaf_mac := demo_leaf; tx_counter := 9; psk_tag := [] |}.
Definition remembering : BridgeProtocol * BridgeDemo.World :=
  (demo_bridge
     <| schema_hash_cache_ := {[ mac_hex demo_leaf :=
          join_schema_hash (of_bytes (to_bytes (join_payload demo_joined))) ]} |>
     <| schema_cache_ := {[ mac_hex demo_leaf :=
          {| cached_schema_entities := []; cached_identity := s_identity demo_session;
             cached_session_max_payload := 1470 |} ]} |>, BridgeDemo.demo_world).

