(* ===== verification/ApiDemo.v ===== *)
(** * ApiDemo: the component's theorems on a concrete bridge

    The world of BridgeDemo with a socket, and a bridge component with one online
    remote, on which the theorems about the runtime API are applied. *)
From stdpp Require Import pretty sorting.
From S2P Require Import Prelude Wire Crypto OtaManager OtaManagerInv BridgeSession BridgeProtocol BridgeLoop BridgeSafety BridgeRun BridgeDelivery ProtoMessages WebSocket ApiTransport BridgeComponent EntityText EntityCommand BridgeOta RuntimeEvents RuntimeApi ComponentInv ComponentProps DeliverySpec ApiProps BridgeDemo.

#[local] Existing Instance toy_hmac.
#[local] Existing Instance demo_env.

#[local] Instance demo_socket : SocketEnv World := {|
  send_exact fd data w := (true, w <| frames_sent ::= cons ([fd], data) |>);
  shutdown _ w := w
|}.
#[local] Instance demo_platform : ComponentEnv World := {|
  esp_now_is_peer_exist _ _ := true;
  esp_now_add_peer _ _ w := (true, w);
  esp_now_del_peer _ w := (true, w);
  esp_now_send to frame w := (ESP_OK, w <| frames_sent ::= cons (to, frame) |>);
  current_wifi_channel_ _ := 6;
  rx_mutex_free _ := true;
  wifi_is_connected _ := true;
  mqtt_is_connected _ := false
|}.
#[local] Instance demo_runtime : RuntimeEnv World := {|
  app_name := str "bridge";
  bridge_friendly_name := str "Bridge";
  bridge_project_name := [];
  bridge_project_version := [];
  bridge_build_date := [];
  bridge_chip_model := 9;
  unix_time _ := 0;
  format_build_date_ a b := a ++ b;
  float_to_double _ := 0;
  config_closure _ _ _ w := (1, w)
|}.
#[local] Instance demo_floats : FloatText := {|
  print_float := hex_encode;
  strtof _ := None;
  hsv_u8_to_rgb h s v := (h, s, v)
|}.
#[local] Instance demo_commands : CommandText := {|
  parse_json _ := None;
  rgb_to_hsv r g b := (r, g, b);
  clamp_u16 _ := 0
|}.
#[local] Instance demo_digests : WebDigests := {|
  mbedtls_sha1 _ := Some (replicate 20 7);
  mbedtls_base64_encode _ l := Some l
|}.

Definition demo_config : ESPNowOTAManager.Config := ESPNowOTAManager.default_config.
Definition demo_setup : ESPTreeBridge * World :=
  component_started (hex_encode demo_key) (str "home") 60 demo_relay 0 demo_callbacks (Some demo_config)
    (str "key") demo_world.

Lemma component_invariant_witness : component_ok true (esp_tree_bridge_loop demo_setup).2.1.
Proof.
  apply (component_invariant (hex_encode demo_key) (str "home") 60 demo_relay 0 demo_callbacks
    (Some demo_config) (str "key") demo_world).
  apply rtc_once. exact (cs_loop demo_setup).
Defined.

(** A client is connected and has not yet authenticated. *)
Definition demo_connected : ESPTreeBridge * World :=
  (run_socket_session (Some (str "dGhlIHNhbXBsZSBub25jZQ==")) 5 true true demo_setup).2.
Definition demo_response : ParsedAuthResponse :=
  {| client_kind := str "ha_integration"; client_name := []; client_nonce := [1; 2; 3];
     hmac_sha256 := hmac (str "key") (auth_input (str "ha_integration") (zseq 0 16) [1; 2; 3]) |}.
Definition demo_login : bytes := envelope [] AUTH_RESPONSE (write_auth_response demo_response).

Lemma demo_unauthenticated : authenticated (api_proto_ws_ demo_connected.1) = false.
Proof. by vm_compute. Qed.
Lemma demo_login_ok : bytes_ok demo_login.
Proof. apply byteb_ok. by vm_compute. Qed.
Lemma demo_login_authentic : authentic demo_connected.1 demo_login.
Proof. eexists _, _. split_and!; [by vm_compute|by right|by vm_compute..]. Qed.

Lemma client_must_authenticate_witness :
  authenticated (api_proto_ws_ (handle_binary demo_login demo_connected).2.1) = true.
Proof.
  apply (client_must_authenticate demo_login demo_connected demo_login_ok demo_unauthenticated),
    demo_login_authentic.
Defined.

(** A job is started for the remote, which accepts chunks of 64 bytes. *)
Definition demo_component : ESPTreeBridge * World :=
  (new_component demo_bridge (Some (wired_manager demo_config)) (str "home") (str "key") demo_relay, demo_world).
Definition demo_client : ESPTreeBridge * World :=
  (handle_binary demo_login (run_socket_session (Some (str "key")) 5 true true demo_component).2).2.
Definition demo_accept (s : ESPTreeBridge * World) : espnow_ack_t :=
  {| ack_type := packet_type_code PKT_FILE_TRANSFER;
     ack_ref_tx_counter := of_manager ESPNowOTAManager.announce_tx_counter_ 0 s.1;
     ack_result := ESPNOW_FILE_ACK_ACCEPT |}.
Definition demo_accepted : bytes := [64; 0; 8; ESPNOW_FILE_ACTION_OTA_FLASH].
Abbreviation demo_start_job := (
  api_ota_start (mac_display demo_leaf) 200 (str "00112233445566778899aabbccddeeff") [] (str "r1")).
Definition demo_job : ESPTreeBridge * World := (demo_start_job demo_client).2.
Definition demo_transferring : ESPTreeBridge * World :=
  (emit_ota_events_ (file_ack demo_leaf (demo_accept demo_job) demo_accepted demo_job).2).2.

Definition demo_piece (n : Z) (payload : bytes) : ParsedOtaChunk :=
  {| oc_sequence := n; oc_offset := n * 64; oc_payload := Some payload; oc_flags := 0;
     oc_crc32 := crc32_bytes payload |}.
Definition demo_chunks : list ParsedOtaChunk :=
  [demo_piece 1 (replicate 64 7); demo_piece 0 (replicate 64 9); demo_piece 1 (replicate 64 7)].

Lemma chunk_batch_exact_witness :
  exists m good rest,
    ota_manager_ demo_transferring.1 = Some m /\ demo_chunks = good ++ rest /\
    NoDup (oc_sequence <$> good) /\
    Forall (fun c => intact (api_proto_ws_ demo_transferring.1) c /\
      oc_sequence c ∈ ESPNowOTAManager.requested_sequences (ESPNowOTAManager.tracker_ m)) good /\
    handle_chunks [] (str "0001") demo_chunks demo_transferring =
      (match rest with [] => mret tt | _ :: _ => refuse_batch [] (str "0001") end)
        (with_chunks demo_transferring m good).
Proof.
  destruct (ota_manager_ demo_transferring.1) as [m|] eqn:E; [|by vm_compute in E]. exists m.
  destruct (chunk_batch_exact [] (str "0001") demo_chunks m demo_transferring E)
    as (good & rest & H1 & H2 & H3 & H4).
  exists good, rest. split; [done|]. by split_and!.
Defined.

(** Two chunks are taken, the repetition ends the batch. *)
Lemma demo_batch_outcome :
  (ota_job_state_ (handle_chunks [] (str "0001") (take 2 demo_chunks) demo_transferring).2.1,
   ota_requested_sequences_ (handle_chunks [] (str "0001") (take 2 demo_chunks) demo_transferring).2.1,
   ota_job_state_ (handle_chunks [] (str "0001") demo_chunks demo_transferring).2.1) =
  (TRANSFERRING, [2; 3], JOB_IDLE).
Proof. by vm_compute. Qed.

(** The client aborts the job and starts it again; the remote accepts at once. *)
Definition demo_restarted : ESPTreeBridge * World :=
  ((api_ota_abort [];; demo_start_job) demo_transferring).2.
Abbreviation demo_hanging :=
  ((api_ota_abort [];; demo_start_job;; file_ack demo_leaf (demo_accept demo_restarted) demo_accepted)
     demo_transferring).2.

Lemma demo_hanging_state :
  ota_job_state_ demo_hanging.1 = WAITING_FOR_LEAF /\
  exists m, ota_manager_ demo_hanging.1 = Some m /\ ESPNowOTAManager.is_busy m = true /\
    ESPNowOTAManager.public_state_ m = str "TRANSFERRING".
Proof. split; [by vm_compute|]. eexists. split; [vm_compute; reflexivity|]. by vm_compute. Qed.
Lemma demo_transferring_state :
  ota_transport_callbacks_ demo_transferring.1 = true /\
  ota_manager_prev_public_state_ demo_transferring.1 = str "TRANSFERRING".
Proof. by vm_compute. Qed.



(** A state for the protobuf client, then its receipt. *)
Definition demo_begin : DeliveryOp := Begin demo_leaf 3 7 demo_relay STATE_DELIVERY_SINK_PROTOBUF.

Lemma demo_begin_ok : op_ok demo_begin.
Proof. split; [|by split; [|vm_compute]]. split_and!; [done|apply demo_leaf_ok|done..]. Qed.

Lemma deliveries_refine_spec_witness :
  let '(a', c) := spec_op 50000 demo_begin ∅ in
  let s' := (run_op demo_begin demo_component).2 in
  refines a' s'.1 /\ (protocol_ s'.1, s'.2) = confirmed c (protocol_ demo_component.1, demo_component.2).
Proof.
  exact (deliveries_refine_spec demo_begin ∅ demo_component demo_begin_ok
    (new_component_refines demo_bridge (Some (wired_manager demo_config)) (str "home") (str "key") demo_relay)).
Defined.
