(* ===== verification/DeviceDemo.v ===== *)
(** * DeviceDemo: commands on a concrete device

    A device with one select entity, registered with the component and joined to
    the bridge of BridgeDemo, and a command for a light in JSON. *)
From S2P Require Import Prelude Wire Crypto OtaManager BridgeSession BridgeComponent EntityText StateJson EntityCommand IncrementBuffer FileReceiver OTAFlashHandler FileReceiverInv OtaReceive Frames Fragments ReceiverWorld BridgeDemo RemoteSession RemoteProtocol RemoteLoop RemoteFrames RemoteInv RemoteRun RemoteCommand RemoteDemo RemoteComponent CommandMeaning.

#[local] Existing Instance toy_hmac.
#[local] Existing Instance toy_digests.

(** The radio of RemoteDemo and the calls of the entities. *)
Abbreviation Room := (Radio * list (Z * Action))%type.
#[local] Instance room_env : RemoteEnv Room :=
  let on {A} (f : Radio -> A * Radio) (w : Room) := let '(a, r) := f w.1 in (a, (r, w.2)) in
  let base := radio_env true in
  {| env_millis w := env_millis w.1;
     env_delay ms w := (env_delay ms w.1, w.2);
     env_esp_random := on env_esp_random;
     env_fill_random_bytes n := on (env_fill_random_bytes n);
     env_send_fn mac frame := on (env_send_fn mac frame);
     env_command_fn i flags value w := (env_command_fn i flags value w.1, w.2);
     esp_wifi_set_channel n := on (esp_wifi_set_channel n);
     esp_wifi_start := on esp_wifi_start;
     esp_wifi_get_channel w := esp_wifi_get_channel w.1;
     wifi_component w := wifi_component w.1;
     env_esp_restart w := w;
     env_safe_reboot w := w;
     esp_app_description w := None;
     running_partition_size w := None;
     esp_partition_read _ _ w := None;
     RemoteSession.chip_id := 5 |}.
#[local] Instance room_ota : OtaPlatform Room := {|
  esp_ota_get_next_update_partition w := None;
  esp_ota_begin _ w := (false, 0, w);
  esp_ota_write _ _ w := (false, w);
  esp_ota_end _ w := (false, w);
  esp_ota_set_boot_partition w := (false, w);
  esp_ota_abort _ w := w;
  heap_caps_get_largest_free_block w := 0
|}.

Definition demo_modes : list bytes := [str "Low"; str "High"].
#[local] Instance room_devices : DeviceEnv Room := {|
  device _ _ := {| device_name := str "Mode"; device_unit := []; device_kind := Select demo_modes |};
  device_state _ _ := Some (SelectState 0);
  perform object action w := (w.1, w.2 ++ [(object, action)]);
  device_build_epoch _ := 0
|}.

Definition demo_room : Room := (demo_radio, []).
Definition demo_settings : Settings :=
  {| psk_ := hex_encode demo_key; settings_network_id := str "home"; settings_esphome_name := str "panel";
     settings_node_label := []; settings_heartbeat_interval := 60; settings_relay_enabled := true;
     settings_max_hops := 4; settings_max_discover_pending := 4; settings_route_ttl_seconds := 300;
     settings_preferred_parents := [] |}.
Definition demo_panel : ESPNowLRRemote * Room :=
  (register_device_entity 7 (str "mode") (new_remote_component demo_settings, demo_room)).2.

(** The registration publishes the state and announces the options. *)
Example demo_panel_entity :
  (entities_ (protocol_ demo_panel.1), er_current_value <$> entity_records_ (protocol_ demo_panel.1),
   targets_ demo_panel.1) =
  ([{| entity_index := 0; entity_type := 13; entity_name := str "Mode"; entity_unit := [];
       entity_options := str "options=Low|High"; entity_id := str "mode" |}], [[0]],
   [{| target_type := FIELD_TYPE_SELECT; target_index := 0; target_object := 7 |}]).
Proof. vm_compute. reflexivity. Qed.

Definition demo_ready : RemoteProtocol :=
  (protocol_ demo_panel.1)
    <| crypto := demo_crypto |> <| RemoteSession.send_fn_set := true |> <| command_fn_set := true |>
    <| leaf_mac_ := demo_leaf |> <| session_key_ := demo_key |> <| session_key_valid_ := true |>
    <| joined_ := true |> <| normal_ := true |> <| parent_mac_ := demo_relay |> <| parent_valid_ := true |>.

Lemma demo_ready_ok : remote_ok (W := World Room) demo_crypto demo_ready.
Proof.
  assert (remote_ok (W := World Room) (crypto new_remote) (protocol_ demo_panel.1)) as Hr.
  { unfold demo_panel, register_device_entity, register_entity. run_steps.
    destruct (new_remote_ok (W := World Room)). remote_update. }
  assert (routes_ (protocol_ demo_panel.1) = []) as Er by done.
  unfold demo_ready. revert Hr Er. generalize (protocol_ demo_panel.1). intros q [] Er.
  pose proof demo_leaf_ok. pose proof demo_key_ok. remote_update.
  change (Forall (route_ok demo_leaf) (routes_ q)). rewrite Er. constructor.
Qed.

#[local] Instance room_floats : FloatText := {|
  print_float := hex_encode;
  strtof _ := None;
  hsv_u8_to_rgb h s v := (h, s, v)
|}.
(** A parser that knows one text. *)
Definition demo_json : bytes := str "{json}".
#[local] Instance room_json : CommandText := {|
  parse_json l := if bytes_eqb l demo_json
                  then Some [(str "state", VText (str "ON")); (str "effect", VText (str "Fire"))] else None;
  rgb_to_hsv r g b := (r, g, b);
  clamp_u16 _ := 0
|}.

(** The option with number 1 is chosen by its name; its frame arrives twice. *)
Definition demo_schema : espnow_entity_schema_t :=
  {| entity_index := 0; entity_type := 13; entity_name := str "Mode"; entity_unit := [];
     entity_options := str "options=Low|High"; entity_id := str "mode" |}.
Definition choice_arrival : CommandArrival :=
  let f := remote_parsed (session_frame demo_leaf PKT_COMMAND ESPNOW_HOPS_DIR_DOWN 10
    (fragment_payload 0 220 (fun _ => 0) [1] 0)) in
  {| cmd_piece := 0; cmd_header := pf_header f; cmd_payload := pf_payload f; cmd_tag := pf_session_tag f |}.
Lemma choice_arrival_ok : command_ok demo_ready 0 10 (fun _ => 0) [1] choice_arrival.
Proof. split; by vm_compute. Qed.
Lemma demo_modes_ok : kind_ok (Select demo_modes).
Proof.
  split_and!; [done|by apply (bool_decide_unpack _); vm_compute|cbn; lia|].
  repeat (constructor; [split; [done|by apply (bool_decide_unpack _); vm_compute]|]). constructor.
Qed.

Lemma room_strtof text bits : strtof text = Some bits -> length bits = 4%nat.
Proof. done. Qed.


(** A light with two effects is turned on with the second. *)
Definition demo_light : espnow_entity_schema_t :=
  {| entity_index := 1; entity_type := 9; entity_name := str "Lamp"; entity_unit := [];
     entity_options := str "color_modes=rgb;effects=Slow|Fire"; entity_id := str "lamp" |}.
Lemma light_json_commands_misread_witness :
  exists value, decode_command_payload_ false demo_light PRIMARY demo_json [] = Some value /\
    at_ value 4 = 1 /\
    member "effect" (JText (str "Slow")) ∈ light_meaning value (entity_options demo_light).
Proof.
  destruct (light_json_commands_misread (Hcmd := room_json) (Hfloat := room_floats) false demo_light PRIMARY demo_json
    [(str "state", VText (str "ON")); (str "effect", VText (str "Fire"))] [] (str "ON")
    eq_refl eq_refl eq_refl eq_refl eq_refl) as [_ Hrun].
  apply (Hrun [str "Slow"; str "Fire"] 1%nat (str "Fire")).
  - by vm_compute.
  - by apply (bool_decide_unpack _); vm_compute.
  - cbn; lia.
  - done.
  - done.
  - done.
Defined.
