(* ===== verification/MqttDemo.v ===== *)
(** * MqttDemo: the theorems about the export to MQTT on a concrete bridge

    The bridge of ApiDemo with a client that takes every publication. *)
From S2P Require Import Prelude Wire Crypto Frames Fragments OtaManager BridgeSession BridgeProtocol BridgeLoop ProtoMessages WebSocket ApiTransport BridgeComponent EntityText EntityCommand RuntimeEvents RuntimeApi MqttExport MqttProps BridgeDemo ApiDemo.

Import ESPTreeBridgeMQTT.
#[local] Existing Instance toy_hmac.
#[local] Existing Instance demo_env.
#[local] Existing Instance demo_socket.
#[local] Existing Instance demo_floats.
#[local] Existing Instance demo_commands.

#[local] Instance online_platform : ComponentEnv World := {|
  esp_now_is_peer_exist _ _ := true;
  esp_now_add_peer _ _ w := (true, w);
  esp_now_del_peer _ w := (true, w);
  esp_now_send to frame w := (ESP_OK, w <| frames_sent ::= cons (to, frame) |>);
  current_wifi_channel_ _ := 6;
  rx_mutex_free _ := true;
  wifi_is_connected _ := true;
  mqtt_is_connected _ := true
|}.
#[local] Instance demo_mqtt : MqttEnv World := {|
  mqtt_publish topic payload _ _ w := (true, w <| frames_sent ::= cons (topic, payload) |>);
  mqtt_subscribe _ w := w;
  mqtt_delay _ w := w;
  serialize _ := str "{}";
  print_g := hex_encode
|}.

Definition switch_schema : espnow_entity_schema_t :=
  {| entity_index := 0; entity_type := field_type_code FIELD_TYPE_SWITCH; entity_name := str "Relay";
     entity_unit := []; entity_options := []; entity_id := [] |}.
Definition exporter : ESPTreeBridgeMQTT * (ESPTreeBridge * World) :=
  (new_mqtt demo_relay (str "homeassistant") (str "Bridge") (str "rejoin"), demo_component).
Definition exporter_queued : ESPTreeBridgeMQTT * (ESPTreeBridge * World) :=
  (queue_state demo_leaf switch_schema [1] (field_type_code FIELD_TYPE_SWITCH) [] 5 demo_relay (str "Leaf")
     (queue_discovery demo_leaf switch_schema 1 true (str "Leaf") exporter).2).2.
Definition exporter_done : ESPTreeBridgeMQTT * (ESPTreeBridge * World) :=
  (tick (tick (tick (tick exporter_queued).2).2).2).2.

